(* ===== verification/_CoqProject ===== *)
-Q . S2P
Prelude.v
RustStr.v
Ids.v
Lifecycle.v
Agent.v
Runtime.v
Launch.v
Auth.v
ApiTypes.v
Schema.v
Storage.v
StoreInv.v
StoreProps.v
StoreQueries.v
CommunityRemoval.v
Monad.v
Application.v
AppProps.v
AppCommands.v
AppDurability.v
Completion.v
Api.v
ApiProps.v
Bytes.v
Reconcile.v
Diagnostics.v
LogCapture.v
Sha256.v
Discovery.v
Codec.v
Fs.v
Signer.v
Json.v
Events.v
Provider.v
ProviderHost.v
ProviderReconcile.v
AgentFiles.v
Custody.v
Transport.v
Servers.v
RelayAdapter.v
Nostr.v
RelayProjection.v
CommunityJoin.v
Daemon.v
Receipts.v
Wake.v
Publications.v
AgentTree.v
Process.v
Supervisor.v
ProcFiles.v
Staging.v
SupervisorLaws.v
Stopping.v
LocalReconcile.v
Worker.v
Launching.v
Startup.v
Answers.v
Rows.v
AutoJoin.v
AutoJoinProps.v
Background.v
Boot.v
System.v
StateJournal.v
AgentCtl.v
EventsCli.v
RuntimeProbe.v
SecretsCtl.v
SecretsProps.v
