(* ===== verification/Prelude.v ===== *)
(** * Buzz Server: a verification development

    Buzz Server (src/src, a Rust crate with a daemon and command-line tools) keeps always-on
    agents running on a host. Administrators send lifecycle commands over a Unix socket or
    TLS; the application service records them durably in SQLite as operations; a worker
    brings local processes, files and relay projections to the recorded intent; what child
    processes print is redacted before it is kept. Beside this run the signer, the provider
    host, the auto-join watchers, and tools for secrets, events and runtimes. The
    development models these parts as functions on explicit state and proves what makes each
    of them correct.

    ** Parts, and the files that model them

    Foundations.
    - [Prelude], [RustStr], [Monad], [Bytes]: results and guards in the style of the sources
      ([let?], [ensure]), saturating machine integers, ordered iteration, the [str] methods
      the sources call (strings are UTF-8 byte sequences), computations that keep what
      happened before an error ([M], with [always]: a relation between the states before and
      after whatever the outcome), byte sequences and readers.
    - [Fs]: the file system as a map from paths to nodes, with symbolic links, modes, owners
      and a list of faults that says which calls fail and how much a failing write or removal
      still does. [Json]: JSON values. [Codec]: encodings with a round trip, for examples.
      [Nostr]: events, requests to relays and NIP-98 headers over an interface to the crates.

    Data and state machines.
    - [Ids] (id.rs), [Lifecycle] (error.rs, operation.rs), [Agent] (agent.rs, community.rs),
      [Runtime] (runtime.rs), [Launch] (launch.rs): identifiers, errors, operation statuses,
      specifications, catalog, launches and process receipts, with every validator.
    - [Auth] (auth.rs): principals, capabilities, Unix-peer and NIP-98 authentication.

    The store and the service.
    - [Schema], [Storage] (storage.rs and src/migrations): the tables as one record [Db]; each
      SQL statement with its key and foreign-key behaviour; each method of [SqliteStore] as a
      function from a database to a result and a database. Transactions are all or nothing
      because a function returns a database only when it commits. [Rows]: the columns of
      operations, and the migrations. [StoreInv], [StoreProps], [StoreQueries],
      [CommunityRemoval]: theorems.
    - [Application] (application.rs, and the retention sweep of main.rs) over a world of
      database, effects, clock and draws; [Completion]: waiting for an operation as a thread
      among others; [AppProps], [AppCommands], [AppDurability]: theorems.
    - [ApiTypes], [Api] (api.rs): requests, validation and the handler in front of an abstract
      application; [ApiProps] composes it with the service. [Transport], [Servers]
      (transport.rs, and [run] of signer_ipc.rs): frames, timeouts, the TLS route, replay
      guard, accept loops and sockets.

    Processes.
    - [Reconcile] (reconcile.rs): the reconciler over interfaces with laws ([ReconcileLaws]).
    - [Process], [Supervisor] (supervisor.rs): processes, signals and /proc as an interface
      [Machine]; the local process adapter over it. [ProcFiles], [SupervisorLaws], [Stopping]:
      the adapter satisfies the laws; [LocalReconcile]: reconciler and adapter together.
    - [Diagnostics], [LogCapture] (supervisor.rs): redaction of child output, the thread that
      drains a stream, rotated log files.

    The daemon (main.rs) and its files.
    - [Daemon]: configuration, accounts and layout; [Startup]: [main]; [Wake]: the effects of
      the service; [Receipts]: receipt files; [AgentTree]: handing over and removing directory
      trees; [Publications]: the relay outbox; [Worker]: the reconciliation worker;
      [Launching]: what it launches; [AutoJoin], [AutoJoinProps] (also auto_join.rs): the
      watchers of communities. [Boot]: [main] up to its loop, as a function of its
      configuration and the machine.
    - [Answers], [Background], [System]: the running daemon as a step relation between the
      requests, the worker, the other threads, the signal to stop, crashes and restarts.
    - [AgentFiles] (agent_files.rs), [Custody] (custody.rs).

    Relays, signer and providers.
    - [RelayAdapter], [StateJournal] (community_session.rs, relay_adapter.rs),
      [RelayProjection] (relay_projection.rs), [CommunityJoin] (community_join.rs), [Signer]
      (signer.rs, signer_ipc.rs).
    - [Sha256], [Discovery] (provider_discovery.rs), [Provider], [ProviderHost], [Staging]
      (provider.rs), [ProviderReconcile] (provider_reconcile.rs).

    Tools: [Events], [EventsCli] (events.rs, buzz-events), [AgentCtl] (buzz-agentctl),
    [SecretsCtl], [SecretsProps] (buzz-secretsctl), [RuntimeProbe] (buzz-runtime-probe).

    ** What the theorems show

    - The store. Any sequence of calls keeps a database-wide invariant ([store_invariant])
      and its history ([store_history_is_kept]); a command is applied once per idempotency key
      ([commands_apply_exactly_once], [fresh_command_effect]); purging is atomic
      ([purge_is_atomic]); a NIP-98 proof is accepted once ([nip98_proof_accepted_once]);
      operations and their rows correspond ([operation_rows_correspond]); migrations are
      applied once and in order ([migrations_apply_once]).
    - The service refines the store ([service_keeps_the_store_sound]); what it acknowledges is
      durable ([acknowledged_operation_is_durable]); waiting has no lost wake-up and answers
      truthfully ([await_never_hangs], [await_answers_correctly]). The API checks requests
      before the service sees them, but for the owner of a draft that is read
      ([requests_are_checked_before_the_service]), and confines
      draft submitters ([draft_submitter_is_confined]); connections are answered exactly
      ([unix_connection_is_exact], [tls_route_requires_a_proof]); servers keep to their socket
      ([servers_keep_to_their_socket]).
    - The daemon as a whole. Over any interleaving of requests, sweeps, worker turns,
      background threads, stops, crashes and restarts no accepted operation is lost
      ([no_accepted_work_is_lost]), and the worker that keeps its turns ends all of them
      ([the_worker_catches_up]); stopping ends ([stopping_ends]). It rests on what the parts
      promise: an answered request has announced its operation
      ([answered_requests_are_handed_over]), the other threads leave operations and queue
      alone ([threads_run_in_the_background]), [main] puts the parts together as the model
      assumes ([daemon_is_put_together]) and changes nothing when it only checks
      ([checking_changes_nothing]).
    - Reconciliation: with the adapter's laws proved, at most the recorded process of an agent
      runs ([local_reconciliation_keeps_one_process]); a stopped child has ended
      ([stopping_a_child_ends_it]); a daemon that starts again recognises its processes and
      adopts them or lets them end before it starts others
      ([restarted_daemon_recognises_its_agents]) and resumes all work
      ([restart_resumes_the_work]); handed operations end as long as the database executes its
      statements, whatever else fails ([handed_operations_end]); reconciling an agent starts
      at most one process, with that agent's own row, directories, keys, account and
      authorization ([agents_are_launched_as_themselves]); cleaning up spares other agents
      ([cleanup_spares_other_agents]).
    - Files survive any fault: documents and receipts are replaced atomically
      ([agent_files_are_written_atomically], [receipts_are_replaced_atomically]), custodied
      secrets are stable ([custodied_identity_is_stable]), trees are handed over without
      following links ([agent_trees_are_handed_over]), backups within the size that is read
      and persisted identities come back ([passphrase_backups_restore_their_input],
      [persisted_identity_is_materialized]).
    - Output: redacted text is confined to a grammar ([redaction_is_confined]); the drain
      equals a line-wise specification ([drain_captures_lines]); rotation loses nothing
      ([captured_log_is_complete]); the event stream repeats nothing soon and stops when told
      ([event_stream_is_deduplicated], [stream_stops_when_told]).
    - Relays, signer, providers: publications stay in the outbox until they are made, and only
      synchronisations of what is gone are dropped ([publications_wait_for_the_relay]); only
      wanted agents are added to channels ([auto_join_adds_only_wanted_agents]); readiness
      needs fresh presence ([readiness_needs_fresh_presence]); the signer serves only its
      policy ([signer_serves_only_its_policy]); only trusted bytes run
      ([provider_runs_only_trusted_bytes], [discovery_is_exact]), errors carry no secret that
      the redaction marker cannot re-create ([provider_errors_carry_no_secret]), a request is
      deployed at most once ([deployment_happens_at_most_once]), only stale staging is removed
      ([only_stale_staging_is_removed]).
    - Behaviour the code does not mean to have, each on a concrete run:
      [sweep_purges_disabled_agent], [replay_window_at_clock_tick],
      [path_check_admits_parent_components], [permissions_follow_links],
      [owner_keys_are_read_from_the_store], [stream_errors_skip_the_backoff],
      [failing_clock_leaves_a_process], [large_backups_cannot_be_restored],
      [unremoved_marker_hides_the_key_file], [torn_record_hides_the_journal],
      [running_staging_can_be_removed], [failed_chmod_leaves_a_socket],
      [signed_components_are_accepted], [long_output_is_cut],
      [refused_update_changes_the_document].

    ** Modelling choices and bounds

    Integers are [Z] with the saturation and width checks of the source written out. Clock
    readings, UUIDs and temporary names are arguments or arbitrary sequences. Third-party code
    (uuid, nostr, URL parsing, serde_json, encryption, the keyring, the KMS command) is an
    interface with its documented behaviour as laws, each with an instance that shows they can
    hold; SHA-256 is computed. Paths are absolute or not and a list of components, as
    [Path::components] gives them. A [select!] loop runs against the list of what its branches
    complete with, a socket or pipe against the list of what its reads return, so that
    theorems over all lists cover every order. Processes change only through calls of
    [Machine]; theorems that need a process to react to a signal say so ([settled],
    [sane_machine]); a SIGKILL to a process group has taken effect when [killpg] returns. Of
    [chown] the owner is kept, not the group. The keyring gives back a password that it gave
    before. [Launching] writes down every start that is asked of a supervisor, and the
    accounts that are set. In [System] a request, a sweep and a turn of the worker are one
    step each; the background threads interleave with them call by call, and a crash may come
    after any sequence of store calls.

    Loops over data are structural. The others have a bound that is proved to be enough: the
    search for a free log segment ([free_segment_total]), the polls of a preflight, of a stop
    and of a version probe ([preflight_polls_suffice], [await_returns],
    [probe_leaves_no_child]), the reads of a watched connection ([watch_connection_fuel]) and
    the depth of a directory tree ([agent_trees_are_handed_over]). Links are followed forty
    deep, as the kernel does.

    ** Not modelled

    TLS and the HTTP server; the SQLite engine, statements that fail with an I/O error (so
    that the terminal state of an operation can always be written), and JSON of the stored
    documents; poisoned locks; the installation of signal handlers; the kill command run for a
    provider's process group; lib.rs, which only declares modules. *)

From stdpp Require Import base gmap strings list sorting pretty.
From Stdlib Require Import ZArith Lia Ascii String.
#[global] Set Default Goal Selector "!".
#[global] Open Scope Z_scope.

(** ** Fallible computations: Rust's [Result] *)
Inductive result (E A : Type) : Type :=
| Ok (a : A)
| Err (e : E).
Arguments Ok {E A} a.
Arguments Err {E A} e.

Definition map_err {E F A} (f : E → F) (r : result E A) : result F A :=
  match r with Ok a => Ok a | Err e => Err (f e) end.

Definition rmap {E A B} (f : A → B) (r : result E A) : result E B :=
  match r with Ok a => Ok (f a) | Err e => Err e end.

Definition ok_or {E A} (e : E) (o : option A) : result E A :=
  match o with Some a => Ok a | None => Err e end.

Definition is_ok {E A} (r : result E A) : bool :=
  match r with Ok _ => true | Err _ => false end.

Definition result_ok {E A} (r : result E A) : option A :=
  match r with Ok a => Some a | Err _ => None end.

Declare Scope buzz_scope.
Delimit Scope buzz_scope with buzz.
#[global] Open Scope buzz_scope.

(** Rust's [?]: stop at the first error. *)
Notation "'let?' x := r 'in' k" :=
  (match r with Ok x => k | Err e => Err e end)
  (at level 10, x pattern, r at level 100, k at level 200) : buzz_scope.

(** A guard with an early return: [if c { return Err(e) }]. *)
Notation "'ensure' c 'else' e 'in' k" :=
  (if c then k else Err e)
  (at level 10, c at level 100, e at level 100, k at level 200) : buzz_scope.

Definition option_is_some {A} (o : option A) : bool :=
  match o with Some _ => true | None => false end.
Definition option_is_none {A} (o : option A) : bool := negb (option_is_some o).
Definition is_some_and {A} (o : option A) (f : A → bool) : bool :=
  match o with Some a => f a | None => false end.

(** Collecting an iterator of results into a result of a list. *)
Fixpoint collect {E A B} (f : A → result E B) (l : list A) : result E (list B) :=
  match l with
  | [] => Ok []
  | x :: l' => let? y := f x in let? ys := collect f l' in Ok (y :: ys)
  end.

(** Validating every element, stopping at the first failure. *)
Fixpoint for_each {E A} (f : A → result E unit) (l : list A) : result E unit :=
  match l with
  | [] => Ok tt
  | x :: l' => let? _ := f x in for_each f l'
  end.

(** ** Machine-width integers *)
Definition i64_min : Z := - 2 ^ 63.
Definition i64_max : Z := 2 ^ 63 - 1.
Definition u64_max : Z := 2 ^ 64 - 1.
Definition u32_max : Z := 2 ^ 32 - 1.

Definition i64_saturating_add (a b : Z) : Z := Z.max i64_min (Z.min i64_max (a + b)).
Definition u64_saturating_add (a b : Z) : Z := Z.min u64_max (a + b).
Definition u64_saturating_sub (a b : Z) : Z := Z.max 0 (a - b).
Definition u64_wrapping_add (a b : Z) : Z := (a + b) mod 2 ^ 64.

(** ** Ordered iteration
    [BTreeMap] iteration and [ORDER BY] visit keys in increasing order. *)
Definition sort_by {A} (key_le : A → A → bool) (l : list A) : list A :=
  @merge_sort A (λ a b, key_le a b = true) (λ a b, decide (key_le a b = true)) l.

Definition btree_iter {V} (m : gmap string V) : list (string * V) :=
  sort_by (λ p q, String.leb p.1 q.1) (map_to_list m).

(** ** Generic lemmas *)
Create HintDb buzz discriminated.

Lemma collect_ok {E A B} (f : A → result E B) l ys :
  collect f l = Ok ys → Forall2 (λ x y, f x = Ok y) l ys.
Proof.
  revert ys. induction l as [|x l IH]; intros ys H; simpl in H.
  - injection H as <-. constructor.
  - destruct (f x) as [y|e] eqn:Hx; [|discriminate].
    destruct (collect f l) as [ys'|e]; [|discriminate].
    injection H as <-. constructor; [done|]. by apply IH.
Qed.

Lemma for_each_ok {E A} (f : A → result E unit) l :
  for_each f l = Ok tt ↔ (∀ x, x ∈ l → f x = Ok tt).
Proof.
  induction l as [|x l IH]; simpl.
  - split; [|done]. intros _ x Hx. by apply not_elem_of_nil in Hx.
  - destruct (f x) as [[]|e] eqn:Hx.
    + rewrite IH. split; [intros Hl y [->|Hy]%elem_of_cons; auto|]. intros Hl y Hy. apply Hl. by right.
    + split; [done|]. intros H. specialize (H x). rewrite Hx in H. apply H. left.
Qed.

Lemma for_each_ok_or_err {E A} (f : A → result E unit) l :
  for_each f l = Ok tt ∨ ∃ x e, x ∈ l ∧ f x = Err e ∧ for_each f l = Err e.
Proof.
  induction l as [|x l IH]; simpl; [by left|].
  destruct (f x) as [[]|e] eqn:Hx.
  - destruct IH as [IH|(y & e & Hy & He & Hl)]; [by left|].
    right. exists y, e. split_and!; [by right|done|done].
  - right. exists x, e. split_and!; [left|done|done].
Qed.

Lemma sort_by_perm {A} (le : A → A → bool) l : sort_by le l ≡ₚ l.
Proof. apply merge_sort_Permutation. Qed.

Lemma elem_of_sort_by {A} (le : A → A → bool) x l : x ∈ sort_by le l ↔ x ∈ l.
Proof. by rewrite (sort_by_perm le l). Qed.

Lemma elem_of_btree_iter {V} (m : gmap string V) k v :
  (k, v) ∈ btree_iter m ↔ m !! k = Some v.
Proof. unfold btree_iter. rewrite elem_of_sort_by. apply elem_of_map_to_list. Qed.

(** Case analysis along the outermost match of a hypothesis [H : match .. = ..]:
    follows the code from its first test, and drops the branches [H] excludes. *)
Ltac step_in H :=
  lazymatch type of H with
  | (match ?x with _ => _ end) = _ =>
    let E := fresh "E" in destruct x eqn:E; try discriminate H
  end.
Ltac steps_in H := repeat (step_in H; cbn beta iota in H); try discriminate H.

(** Units carry nothing. *)
Ltac drop_units := repeat match goal with u : () |- _ => destruct u end.

(** Pairs a step left in the context. *)
Ltac destruct_pairs := repeat match goal with p : _ * _ |- _ => destruct p end.
