(* ===== verification/RustStr.v ===== *)
(** * Rust strings
    The [str] methods the sources call. A [String] is its UTF-8 byte sequence
    (Stdlib's [string] of 8-bit [ascii]); [len] counts bytes and [chars] counts
    the bytes that start a scalar value. *)
From stdpp Require Import base gmap strings list pretty.
From Stdlib Require Import ZArith Lia Ascii String.
From S2P Require Import Prelude.

#[global] Arguments String.append !_ _ /.

Definition byte_val (c : ascii) : N := N_of_ascii c.
Definition bt (n : N) : ascii := ascii_of_N n.

Definition in_range (lo hi : N) (c : ascii) : bool :=
  ((lo <=? byte_val c) && (byte_val c <=? hi))%N.

Definition is_ascii_digit (c : ascii) : bool := in_range 48 57 c.
Definition is_ascii_uppercase (c : ascii) : bool := in_range 65 90 c.
Definition is_ascii_lowercase (c : ascii) : bool := in_range 97 122 c.
Definition is_ascii_alphanumeric (c : ascii) : bool :=
  is_ascii_digit c || is_ascii_uppercase c || is_ascii_lowercase c.
Definition is_lower_hex_letter (c : ascii) : bool := in_range 97 102 c.
Definition is_ascii_hexdigit (c : ascii) : bool :=
  is_ascii_digit c || is_lower_hex_letter c || in_range 65 70 c.

(** [value.len()]: the number of bytes. *)
Definition len (s : string) : Z := Z.of_nat (String.length s).

(** [value.chars().count()]: bytes that are not UTF-8 continuation bytes. *)
Fixpoint chars_count (s : string) : Z :=
  match s with
  | EmptyString => 0
  | String c s' => (if in_range 128 191 c then 0 else 1) + chars_count s'
  end.

Definition str_is_empty (s : string) : bool :=
  match s with EmptyString => true | String _ _ => false end.

(** [value.bytes().all(p)], and [chars().all(p)] for a [p] false outside ASCII. *)
Fixpoint all_bytes (p : ascii → bool) (s : string) : bool :=
  match s with
  | EmptyString => true
  | String c s' => p c && all_bytes p s'
  end.

(** [value.contains(c)] for an ASCII [c]. *)
Definition contains_char (c : ascii) (s : string) : bool :=
  negb (all_bytes (λ d, negb (Ascii.eqb c d)) s).

Definition NUL : ascii := "000"%char.

Definition starts_with (p s : string) : bool := String.prefix p s.

(** [strip_prefix] *)
Fixpoint strip_prefix (p s : string) : option string :=
  match p, s with
  | EmptyString, _ => Some s
  | String a p', String b s' => if Ascii.eqb a b then strip_prefix p' s' else None
  | String _ _, EmptyString => None
  end.

(** [split_once(marker)]: around the first occurrence. *)
Fixpoint split_once (marker s : string) : option (string * string) :=
  match strip_prefix marker s with
  | Some rest => Some (EmptyString, rest)
  | None =>
    match s with
    | EmptyString => None
    | String c s' =>
      match split_once marker s' with
      | Some (before, after) => Some (String c before, after)
      | None => None
      end
    end
  end.

(** [s.rsplit_once(marker)]: around the last occurrence. *)
Fixpoint rsplit_once (marker s : string) : option (string * string) :=
  match s with
  | EmptyString => match strip_prefix marker EmptyString with
                   | Some rest => Some (EmptyString, rest) | None => None end
  | String c s' =>
    match rsplit_once marker s' with
    | Some (a, b) => Some (String c a, b)
    | None => match strip_prefix marker s with
              | Some rest => Some (EmptyString, rest) | None => None end
    end
  end.

(** [haystack.contains(needle)] *)
Definition contains_str (needle haystack : string) : bool :=
  option_is_some (split_once needle haystack).

Definition ascii_lower (c : ascii) : ascii :=
  if is_ascii_uppercase c then bt (byte_val c + 32) else c.

Fixpoint to_ascii_lowercase (s : string) : string :=
  match s with
  | EmptyString => EmptyString
  | String c s' => String (ascii_lower c) (to_ascii_lowercase s')
  end.

Definition eq_ignore_ascii_case (a b : string) : bool :=
  String.eqb (to_ascii_lowercase a) (to_ascii_lowercase b).

(** [Path::new(value).is_absolute()] on Unix. *)
Definition path_is_absolute (s : string) : bool := starts_with "/" s.

(** *** Unicode [White_Space], by UTF-8 encoding *)
Definition ws1 (a : ascii) : bool := in_range 9 13 a || in_range 32 32 a.
Definition ws2 (a b : ascii) : bool :=
  in_range 194 194 a && (in_range 133 133 b || in_range 160 160 b).
Definition ws3 (a b c : ascii) : bool :=
  (in_range 225 225 a && in_range 154 154 b && in_range 128 128 c)
  || (in_range 226 226 a && in_range 128 128 b
      && (in_range 128 138 c || in_range 168 169 c || in_range 175 175 c))
  || (in_range 226 226 a && in_range 129 129 b && in_range 159 159 c)
  || (in_range 227 227 a && in_range 128 128 b && in_range 128 128 c).

Fixpoint trim_start (s : string) : string :=
  match s with
  | EmptyString => EmptyString
  | String a s1 =>
    if ws1 a then trim_start s1
    else match s1 with
         | EmptyString => s
         | String b s2 =>
           if ws2 a b then trim_start s2
           else match s2 with
                | EmptyString => s
                | String c s3 => if ws3 a b c then trim_start s3 else s
                end
         end
  end.

(** [trim_start] on a reversed byte sequence: encodings are read backwards. *)
Fixpoint trim_start_rev (s : string) : string :=
  match s with
  | EmptyString => EmptyString
  | String a s1 =>
    if ws1 a then trim_start_rev s1
    else match s1 with
         | EmptyString => s
         | String b s2 =>
           if ws2 b a then trim_start_rev s2
           else match s2 with
                | EmptyString => s
                | String c s3 => if ws3 c b a then trim_start_rev s3 else s
                end
         end
  end.

Fixpoint rev_onto (acc s : string) : string :=
  match s with EmptyString => acc | String c s' => rev_onto (String c acc) s' end.
Definition str_rev (s : string) : string := rev_onto EmptyString s.

Definition trim_end (s : string) : string := str_rev (trim_start_rev (str_rev s)).

(** [value.trim()] *)
Definition trim (s : string) : string := trim_end (trim_start s).

(** [value.contains(char::is_whitespace)] *)
Fixpoint contains_whitespace (s : string) : bool :=
  match s with
  | EmptyString => false
  | String a s1 =>
    ws1 a
    || match s1 with
       | EmptyString => false
       | String b s2 =>
         ws2 a b
         || match s2 with EmptyString => false | String c _ => ws3 a b c end
       end
    || contains_whitespace s1
  end.

(** [strip_suffix(c)] for one ASCII character. *)
Fixpoint strip_suffix_char (c : ascii) (s : string) : option string :=
  match s with
  | EmptyString => None
  | String a EmptyString => if Ascii.eqb a c then Some EmptyString else None
  | String a s' =>
    match strip_suffix_char c s' with Some r => Some (String a r) | None => None end
  end.

(** [s.trim_end_matches('/')] *)
Fixpoint trim_end_slashes (fuel : nat) (s : string) : string :=
  match fuel with
  | O => s
  | S fuel => match strip_suffix_char "/" s with Some s => trim_end_slashes fuel s | None => s end
  end.
Definition trim_end_slash (s : string) : string := trim_end_slashes (String.length s) s.

(** [s.as_bytes()] *)
Definition bytes_of (s : string) : list Z :=
  map (λ c, Z.of_N (byte_val c)) (String.list_ascii_of_string s).

(** The longest prefix whose bytes satisfy [p]: [&value[..end]] with
    [end = value.find(|c| !p(c)).unwrap_or(value.len())]. *)
Fixpoint take_while (p : ascii → bool) (s : string) : string :=
  match s with
  | EmptyString => EmptyString
  | String c s' => if p c then String c (take_while p s') else EmptyString
  end.

(** [args.join(",")] and its inverse [split(',')]. *)
Fixpoint join_with (sep : string) (l : list string) : string :=
  match l with
  | [] => EmptyString
  | [x] => x
  | x :: l' => String.append x (String.append sep (join_with sep l'))
  end.

Fixpoint split_char (c : ascii) (s : string) : list string :=
  match s with
  | EmptyString => [EmptyString]
  | String a s' =>
    if Ascii.eqb a c then EmptyString :: split_char c s'
    else match split_char c s' with
         | [] => [String a EmptyString]
         | x :: l => String a x :: l
         end
  end.

(** Decimal rendering, [format!("{n}")]. *)
Definition show_Z (n : Z) : string := pretty n.

(** ** Lemmas *)
Lemma append_nil_r s : String.append s EmptyString = s.
Proof. induction s as [|c s IH]; simpl; [done|]. by rewrite IH. Qed.

Lemma append_assoc a b c :
  String.append (String.append a b) c = String.append a (String.append b c).
Proof. induction a as [|x a IH]; simpl; [done|]. by rewrite IH. Qed.

Lemma length_append a b :
  String.length (String.append a b) = (String.length a + String.length b)%nat.
Proof. induction a as [|x a IH]; simpl; [done|]. by rewrite IH. Qed.

Lemma strip_prefix_append p s : strip_prefix p (String.append p s) = Some s.
Proof. induction p as [|c p IH]; simpl; [done|]. by rewrite Ascii.eqb_refl. Qed.

Lemma strip_prefix_Some p s r : strip_prefix p s = Some r → s = String.append p r.
Proof.
  revert s. induction p as [|c p IH]; intros s H; simpl in *; [congruence|].
  destruct s as [|d s]; [done|]. destruct (Ascii.eqb_spec c d) as [->|]; [|done].
  by rewrite (IH s H).
Qed.

Lemma split_once_Some m s a b :
  split_once m s = Some (a, b) → s = String.append a (String.append m b).
Proof.
  revert a b. induction s as [|c s IH]; intros a b H.
  - simpl in H. destruct (strip_prefix m "") as [r|] eqn:E; [|done].
    simplify_eq. by apply strip_prefix_Some in E.
  - cbn [split_once] in H. destruct (strip_prefix m (String c s)) as [r|] eqn:E.
    + simplify_eq. by apply strip_prefix_Some in E.
    + destruct (split_once m s) as [[x y]|]; [|done]. simplify_eq.
      simpl. by rewrite (IH x b eq_refl).
Qed.

Lemma all_bytes_append p a b :
  all_bytes p (String.append a b) = all_bytes p a && all_bytes p b.
Proof. induction a as [|c a IH]; simpl; [done|]. by rewrite IH, andb_assoc. Qed.

Lemma all_bytes_impl (p q : ascii → bool) s :
  (∀ c, p c = true → q c = true) → all_bytes p s = true → all_bytes q s = true.
Proof.
  intros Hpq. induction s as [|c s IH]; simpl; [done|].
  rewrite !andb_true_iff. intros [H1 H2]. auto.
Qed.

Lemma all_bytes_take_while p s : all_bytes p (take_while p s) = true.
Proof.
  induction s as [|c s IH]; simpl; [done|]. destruct (p c) eqn:E; simpl; [|done].
  by rewrite E.
Qed.

Lemma len_nonneg s : 0 ≤ len s.
Proof. unfold len. lia. Qed.

Lemma len_append a b : len (String.append a b) = len a + len b.
Proof. unfold len. rewrite length_append. lia. Qed.

Lemma chars_count_le_len s : 0 ≤ chars_count s ≤ len s.
Proof.
  unfold len. induction s as [|c s IH]; simpl chars_count; [simpl; lia|].
  cbn [String.length]. destruct (in_range 128 191 c); lia.
Qed.

Lemma contains_char_false c s :
  contains_char c s = false ↔ all_bytes (λ d, negb (Ascii.eqb c d)) s = true.
Proof. unfold contains_char. by rewrite negb_false_iff. Qed.

Lemma contains_char_append c a b :
  contains_char c (String.append a b) = contains_char c a || contains_char c b.
Proof. unfold contains_char. by rewrite all_bytes_append, negb_andb. Qed.

(** Splitting a comma-join of comma-free pieces gives the pieces back. *)
Lemma split_char_free c s :
  contains_char c s = false → split_char c s = [s].
Proof.
  rewrite contains_char_false. induction s as [|a s IH]; simpl; [done|].
  rewrite andb_true_iff, negb_true_iff. intros [H1 H2].
  rewrite Ascii.eqb_sym in H1. by rewrite H1, (IH H2).
Qed.

Lemma split_char_cons c x rest :
  contains_char c x = false →
  split_char c (String.append x (String c rest)) = x :: split_char c rest.
Proof.
  rewrite contains_char_false. induction x as [|a x IH]; simpl.
  - by rewrite Ascii.eqb_refl.
  - rewrite andb_true_iff, negb_true_iff. intros [H1 H2].
    rewrite Ascii.eqb_sym in H1. by rewrite H1, (IH H2).
Qed.

Lemma split_join c l :
  l ≠ [] → Forall (λ x, contains_char c x = false) l →
  split_char c (join_with (String c EmptyString) l) = l.
Proof.
  intros Hne Hall. induction Hall as [|x l Hx Hall IH]; [done|].
  destruct l as [|y l]; simpl in *; [by apply split_char_free|].
  rewrite split_char_cons by done. by rewrite IH.
Qed.

(** Reversal, and trimming text that has no white space to trim. *)
Lemma rev_onto_append acc a b :
  rev_onto acc (String.append a b) = rev_onto (rev_onto acc a) b.
Proof. revert acc. induction a as [|c a IH]; intros acc; simpl; [done|]. apply IH. Qed.

Lemma rev_onto_acc acc s : rev_onto acc s = String.append (str_rev s) acc.
Proof.
  unfold str_rev. revert acc. induction s as [|c s IH]; intros acc; simpl; [done|].
  rewrite (IH (String c acc)), (IH (String c EmptyString)), append_assoc. done.
Qed.

Lemma str_rev_involutive s : str_rev (str_rev s) = s.
Proof.
  unfold str_rev at 1. induction s as [|c s IH]; [done|].
  change (str_rev (String c s)) with (rev_onto (String c EmptyString) s).
  rewrite (rev_onto_acc (String c EmptyString) s), rev_onto_append, IH. done.
Qed.

Lemma all_bytes_rev p s : all_bytes p (str_rev s) = all_bytes p s.
Proof.
  induction s as [|c s IH]; [done|].
  change (str_rev (String c s)) with (rev_onto (String c EmptyString) s).
  rewrite rev_onto_acc, all_bytes_append, IH. simpl. rewrite andb_true_r. apply andb_comm.
Qed.

(** An ASCII byte that is not white space. *)
Definition ascii_graphic (c : ascii) : bool := in_range 0 127 c && negb (ws1 c).

Lemma ascii_graphic_not_ws a b c :
  ascii_graphic a = true → ws1 a = false ∧ ws2 a b = false ∧ ws3 a b c = false.
Proof.
  destruct a as [[] [] [] [] [] [] [] []]; vm_compute; intros E; try discriminate E;
    by split_and!.
Qed.

Lemma ascii_graphic_not_ws_end a b c :
  ascii_graphic a = true → ws2 b a = false ∧ ws3 c b a = false.
Proof.
  unfold ws2, ws3. intros E.
  assert (in_range 133 133 a = false ∧ in_range 160 160 a = false
    ∧ in_range 128 128 a = false ∧ in_range 128 138 a = false ∧ in_range 168 169 a = false
    ∧ in_range 175 175 a = false ∧ in_range 159 159 a = false)
    as (-> & -> & -> & -> & -> & -> & ->).
  { revert E. destruct a as [[] [] [] [] [] [] [] []]; vm_compute; intros E;
      try discriminate E; by split_and!. }
  by rewrite !andb_false_r.
Qed.

Lemma trim_start_graphic s : all_bytes ascii_graphic s = true → trim_start s = s.
Proof.
  destruct s as [|a s]; [done|]. simpl. rewrite andb_true_iff. intros [Ha _].
  destruct (ascii_graphic_not_ws a "000" "000" Ha) as [-> _].
  destruct s as [|b s]; [done|]. destruct (ascii_graphic_not_ws a b "000" Ha) as (_ & -> & _).
  destruct s as [|c s]; [done|]. by destruct (ascii_graphic_not_ws a b c Ha) as (_ & _ & ->).
Qed.

Lemma trim_start_rev_graphic s : all_bytes ascii_graphic s = true → trim_start_rev s = s.
Proof.
  destruct s as [|a s]; [done|]. simpl. rewrite andb_true_iff. intros [Ha _].
  destruct (ascii_graphic_not_ws a "000" "000" Ha) as [-> _].
  destruct s as [|b s]; [done|]. destruct (ascii_graphic_not_ws_end a b "000" Ha) as (-> & _).
  destruct s as [|c s]; [done|]. by destruct (ascii_graphic_not_ws_end a b c Ha) as (_ & ->).
Qed.

Lemma trim_graphic s : all_bytes ascii_graphic s = true → trim s = s.
Proof.
  intros Hs. unfold trim, trim_end. rewrite (trim_start_graphic s Hs).
  rewrite trim_start_rev_graphic by (by rewrite all_bytes_rev). apply str_rev_involutive.
Qed.

Lemma ascii_lower_idem c : ascii_lower (ascii_lower c) = ascii_lower c.
Proof. by destruct c as [[] [] [] [] [] [] [] []]. Qed.

Lemma to_ascii_lowercase_idem s :
  to_ascii_lowercase (to_ascii_lowercase s) = to_ascii_lowercase s.
Proof. induction s as [|c s IH]; simpl; [done|]. by rewrite ascii_lower_idem, IH. Qed.

Lemma lower_hexdigit c :
  is_ascii_hexdigit (ascii_lower c) = true →
  is_ascii_digit (ascii_lower c) || is_lower_hex_letter (ascii_lower c) = true.
Proof. by destruct c as [[] [] [] [] [] [] [] []]; vm_compute. Qed.

Lemma hexdigit_graphic c : is_ascii_hexdigit c = true → ascii_graphic c = true.
Proof. by destruct c as [[] [] [] [] [] [] [] []]; vm_compute. Qed.

(** ** Texts with a common part *)
Lemma append_cancel_l p a b : String.append p a = String.append p b → a = b.
Proof. induction p as [|c p IH]; cbn; [done|]. intros [= E]. auto. Qed.
Lemma str_rev_append a b : str_rev (String.append a b) = String.append (str_rev b) (str_rev a).
Proof. unfold str_rev. by rewrite rev_onto_append, (rev_onto_acc (rev_onto _ a)). Qed.
Lemma append_inj_suffix a b suffix : String.append a suffix = String.append b suffix → a = b.
Proof.
  intros E. apply (f_equal str_rev) in E. rewrite !str_rev_append in E.
  apply append_cancel_l, (f_equal str_rev) in E. by rewrite !str_rev_involutive in E.
Qed.
Lemma append_neq_suffix a b s t :
  (match str_rev s, str_rev t with String c _, String d _ => negb (Ascii.eqb c d) | _, _ => false end) = true →
  String.append a s ≠ String.append b t.
Proof.
  intros Hne E. apply (f_equal str_rev) in E. rewrite !str_rev_append in E.
  destruct (str_rev s) as [|c x], (str_rev t) as [|d y]; try done. cbn in E. injection E as -> _.
  by rewrite Ascii.eqb_refl in Hne.
Qed.
Lemma starts_with_same p q s :
  String.length p = String.length q → starts_with p s = true → starts_with q s = true → p = q.
Proof.
  unfold starts_with. revert q s. induction p as [|c p IH]; intros [|d q] [|x s]; cbn; try done.
  intros [= Hl]. repeat (destruct (Ascii.ascii_dec _ _) as [->|]; [|done]). intros Hp Hq.
  f_equal. eauto.
Qed.
