(* ===== verification/Ids.v ===== *)
(** * Typed identifiers (src/src/id.rs)
    The [typed_id!] macro: a UUID printed behind a type-specific prefix. The
    [uuid] crate is a parameter ([UuidLib]) with the documented behaviour of its
    simple (32 lowercase hexadecimal digits) form. *)
From stdpp Require Import base gmap strings list countable.
From Stdlib Require Import ZArith Lia Ascii String.
From S2P Require Import Prelude RustStr.

(** A [Uuid] is its 128-bit value. *)
Definition uuid_ok (u : Z) : Prop := 0 ≤ u < 2 ^ 128.

(** The guard of [from_str]: 32 lowercase hexadecimal characters. *)
Definition canonical_hex (encoded : string) : bool :=
  (len encoded =? 32)
  && all_bytes (λ byte, is_ascii_digit byte || is_lower_hex_letter byte) encoded.

(** What the sources use of the [uuid] crate. *)
Class UuidLib := {
  Uuid_simple : Z → string;
  Uuid_to_string : Z → string;
  Uuid_parse_str : string → option Z;
  Uuid_simple_canonical : ∀ u, uuid_ok u → canonical_hex (Uuid_simple u) = true;
  Uuid_parse_simple : ∀ u, uuid_ok u → Uuid_parse_str (Uuid_simple u) = Some u;
  Uuid_parse_canonical : ∀ s, canonical_hex s = true →
    ∃ u, uuid_ok u ∧ Uuid_parse_str s = Some u ∧ Uuid_simple u = s
}.

Inductive ParseIdError :=
| WrongPrefix (expected : string)
| NonCanonical
| InvalidUuid.

Record CommunityConfigId := mkCommunityConfigId { community_uuid : Z }.
Record AgentId := mkAgentId { agent_uuid : Z }.
Record OperationId := mkOperationId { operation_uuid : Z }.

Definition community_prefix : string := "community_".
Definition agent_prefix : string := "agent_".
Definition operation_prefix : string := "operation_".

#[export] Instance CommunityConfigId_eq_dec : EqDecision CommunityConfigId.
Proof. solve_decision. Defined.
#[export] Instance AgentId_eq_dec : EqDecision AgentId.
Proof. solve_decision. Defined.
#[export] Instance OperationId_eq_dec : EqDecision OperationId.
Proof. solve_decision. Defined.

#[export] Program Instance CommunityConfigId_countable : Countable CommunityConfigId :=
  inj_countable' community_uuid mkCommunityConfigId _.
Next Obligation. by intros []. Qed.
#[export] Program Instance AgentId_countable : Countable AgentId :=
  inj_countable' agent_uuid mkAgentId _.
Next Obligation. by intros []. Qed.
#[export] Program Instance OperationId_countable : Countable OperationId :=
  inj_countable' operation_uuid mkOperationId _.
Next Obligation. by intros []. Qed.

Section TypedId.
Context `{UuidLib}.

(** [Display] of the macro, for a prefix. *)
Definition typed_id_display (prefix : string) (u : Z) : string :=
  String.append prefix (Uuid_simple u).

(** [FromStr] of the macro, for a prefix. *)
Definition typed_id_from_str (prefix value : string) : result ParseIdError Z :=
  let? encoded := ok_or (WrongPrefix prefix) (strip_prefix prefix value) in
  if negb (canonical_hex encoded) then Err NonCanonical
  else ok_or InvalidUuid (Uuid_parse_str encoded).

Definition CommunityConfigId_to_string (id : CommunityConfigId) : string :=
  typed_id_display community_prefix (community_uuid id).
Definition AgentId_to_string (id : AgentId) : string :=
  typed_id_display agent_prefix (agent_uuid id).
Definition OperationId_to_string (id : OperationId) : string :=
  typed_id_display operation_prefix (operation_uuid id).

Definition CommunityConfigId_from_str (s : string) : result ParseIdError CommunityConfigId :=
  rmap mkCommunityConfigId (typed_id_from_str community_prefix s).
Definition AgentId_from_str (s : string) : result ParseIdError AgentId :=
  rmap mkAgentId (typed_id_from_str agent_prefix s).
Definition OperationId_from_str (s : string) : result ParseIdError OperationId :=
  rmap mkOperationId (typed_id_from_str operation_prefix s).

(** ** Lemmas *)
Lemma typed_id_from_display prefix u :
  uuid_ok u → typed_id_from_str prefix (typed_id_display prefix u) = Ok u.
Proof.
  intros Hu. unfold typed_id_from_str, typed_id_display.
  rewrite strip_prefix_append. simpl.
  rewrite (Uuid_simple_canonical u Hu). simpl. by rewrite (Uuid_parse_simple u Hu).
Qed.

Lemma typed_id_display_from prefix s u :
  typed_id_from_str prefix s = Ok u → uuid_ok u ∧ typed_id_display prefix u = s.
Proof.
  unfold typed_id_from_str, typed_id_display.
  destruct (strip_prefix prefix s) as [enc|] eqn:Es; simpl; [|done].
  destruct (canonical_hex enc) eqn:Ec; simpl; [|done].
  destruct (Uuid_parse_canonical enc Ec) as (v & Hv & Hp & Hs). rewrite Hp. simpl.
  intros [= <-]. split; [done|]. rewrite Hs. symmetry. by apply strip_prefix_Some.
Qed.

Lemma typed_id_display_inj prefix u v :
  uuid_ok u → uuid_ok v → typed_id_display prefix u = typed_id_display prefix v → u = v.
Proof.
  intros Hu Hv Heq.
  pose proof (typed_id_from_display prefix u Hu) as Hd.
  rewrite Heq, (typed_id_from_display prefix v Hv) in Hd. congruence.
Qed.

End TypedId.

(** ** A concrete [UuidLib]: fixed-width hexadecimal *)
Definition hex_char (d : Z) : ascii :=
  ascii_of_N (Z.to_N (if d <? 10 then 48 + d else 87 + d)).
Definition hex_val (c : ascii) : Z :=
  if is_ascii_digit c then Z.of_N (byte_val c) - 48 else Z.of_N (byte_val c) - 87.

Fixpoint hex_print (n : nat) (u : Z) : string :=
  match n with
  | O => EmptyString
  | S n' => String (hex_char (u / 16 ^ Z.of_nat n')) (hex_print n' (u mod 16 ^ Z.of_nat n'))
  end.

Fixpoint hex_read (s : string) : Z :=
  match s with
  | EmptyString => 0
  | String c s' => hex_val c * 16 ^ Z.of_nat (String.length s') + hex_read s'
  end.

Lemma hex_char_cases (P : Z → Prop) d :
  0 ≤ d < 16 →
  P 0 → P 1 → P 2 → P 3 → P 4 → P 5 → P 6 → P 7 → P 8 → P 9 → P 10 → P 11 → P 12 →
  P 13 → P 14 → P 15 → P d.
Proof.
  intros Hd ????????????????.
  assert (d = 0 ∨ d = 1 ∨ d = 2 ∨ d = 3 ∨ d = 4 ∨ d = 5 ∨ d = 6 ∨ d = 7 ∨ d = 8 ∨ d = 9
    ∨ d = 10 ∨ d = 11 ∨ d = 12 ∨ d = 13 ∨ d = 14 ∨ d = 15) as Hc by lia.
  repeat (destruct Hc as [->|Hc]; [done|]). by subst.
Qed.

Lemma hex_char_ok d : 0 ≤ d < 16 →
  is_ascii_digit (hex_char d) || is_lower_hex_letter (hex_char d) = true
  ∧ hex_val (hex_char d) = d.
Proof. intros Hd. pattern d. apply hex_char_cases; [done|by split..]. Qed.

Lemma hex_val_ok c :
  is_ascii_digit c || is_lower_hex_letter c = true →
  0 ≤ hex_val c < 16 ∧ hex_char (hex_val c) = c.
Proof.
  destruct c as [[] [] [] [] [] [] [] []]; vm_compute; intros H; try discriminate H;
    by split_and!.
Qed.

Lemma hex_print_length n u : String.length (hex_print n u) = n.
Proof. revert u. induction n as [|n IH]; intros u; simpl; [done|]. by rewrite IH. Qed.

Lemma hex_digit_bound n u :
  0 ≤ u < 16 ^ Z.of_nat (S n) → 0 ≤ u / 16 ^ Z.of_nat n < 16.
Proof.
  intros Hu. assert (0 < 16 ^ Z.of_nat n) by (apply Z.pow_pos_nonneg; lia).
  split; [apply Z.div_pos; lia|]. apply Z.div_lt_upper_bound; [done|].
  rewrite Nat2Z.inj_succ, Z.pow_succ_r in Hu by lia. lia.
Qed.

Lemma hex_print_canonical n u : 0 ≤ u < 16 ^ Z.of_nat n →
  all_bytes (λ b, is_ascii_digit b || is_lower_hex_letter b) (hex_print n u) = true.
Proof.
  revert u. induction n as [|n IH]; intros u Hu; [done|]. cbn [hex_print all_bytes].
  rewrite (proj1 (hex_char_ok _ (hex_digit_bound n u Hu))). apply IH.
  apply Z.mod_pos_bound. apply Z.pow_pos_nonneg; lia.
Qed.

Lemma hex_read_print n u : 0 ≤ u < 16 ^ Z.of_nat n → hex_read (hex_print n u) = u.
Proof.
  revert u. induction n as [|n IH]; intros u Hu; [simpl in *; lia|].
  cbn [hex_print hex_read]. rewrite hex_print_length.
  rewrite (proj2 (hex_char_ok _ (hex_digit_bound n u Hu))).
  assert (0 < 16 ^ Z.of_nat n) by (apply Z.pow_pos_nonneg; lia).
  rewrite IH by (by apply Z.mod_pos_bound). rewrite Z.mul_comm. symmetry. by apply Z_div_mod_eq_full.
Qed.

Lemma hex_print_read s :
  all_bytes (λ b, is_ascii_digit b || is_lower_hex_letter b) s = true →
  0 ≤ hex_read s < 16 ^ len s ∧ hex_print (String.length s) (hex_read s) = s.
Proof.
  unfold len. induction s as [|c s IH]; intros Hs; [simpl; split; [lia|done]|].
  simpl in Hs. apply andb_true_iff in Hs as [Hc Hs].
  destruct (hex_val_ok c Hc) as [Hb Hcc]. destruct (IH Hs) as [Hr Hp].
  cbn [hex_read String.length hex_print].
  set (p := 16 ^ Z.of_nat (String.length s)) in *.
  assert (0 < p) by (apply Z.pow_pos_nonneg; lia).
  split.
  - rewrite Nat2Z.inj_succ, Z.pow_succ_r by lia. fold p. nia.
  - rewrite Z.div_add_l, Z.div_small, Z.add_0_r by lia.
    rewrite Z.add_comm, Z.mod_add, Z.mod_small by lia. by rewrite Hcc, Hp.
Qed.

Lemma uuid_ok_hex u : uuid_ok u → 0 ≤ u < 16 ^ Z.of_nat 32.
Proof.
  assert (16 ^ Z.of_nat 32 = 2 ^ 128) as -> by (vm_compute; reflexivity).
  by unfold uuid_ok.
Qed.

Lemma canonical_hex_print u : uuid_ok u → canonical_hex (hex_print 32 u) = true.
Proof.
  intros Hu. unfold canonical_hex, len. rewrite hex_print_length.
  rewrite (hex_print_canonical 32 u (uuid_ok_hex u Hu)). reflexivity.
Qed.

#[export] Program Instance hex_uuid : UuidLib := {|
  Uuid_simple := hex_print 32;
  Uuid_to_string := hex_print 32;
  Uuid_parse_str s := if canonical_hex s then Some (hex_read s) else None
|}.
Next Obligation. intros u Hu. by apply canonical_hex_print. Qed.
Next Obligation.
  intros u Hu. cbn beta. rewrite (canonical_hex_print u Hu).
  f_equal. apply hex_read_print. by apply uuid_ok_hex.
Qed.
Next Obligation.
  intros s Hs. exists (hex_read s). cbn beta. rewrite Hs. unfold canonical_hex in Hs.
  apply andb_true_iff in Hs as [Hl Ha]. apply Z.eqb_eq in Hl.
  destruct (hex_print_read s Ha) as [Hr Hp]. rewrite Hl in Hr.
  split; [|split; [done|]].
  - unfold uuid_ok. assert (16 ^ 32 = 2 ^ 128) as <- by (vm_compute; reflexivity). exact Hr.
  - unfold len in Hl. assert (String.length s = 32%nat) as Hn by lia.
    rewrite Hn in Hp. exact Hp.
Qed.

(** ** Properties *)
Section Properties.
Context `{UuidLib}.

(** An agent identifier survives printing and parsing, and a string parses as an
    agent identifier only when it is that identifier's printed form: each identifier
    has exactly one accepted spelling. *)
Theorem agent_id_string_round_trip (id : AgentId) (s : string) :
  (uuid_ok (agent_uuid id) → AgentId_from_str (AgentId_to_string id) = Ok id)
  ∧ (AgentId_from_str s = Ok id → AgentId_to_string id = s ∧ uuid_ok (agent_uuid id)).
Proof.
  unfold AgentId_from_str, AgentId_to_string. split.
  - intros Hid. rewrite typed_id_from_display by done. by destruct id.
  - destruct (typed_id_from_str agent_prefix s) as [u|] eqn:Ep; simpl; [|done].
    intros [= <-]. simpl. by destruct (typed_id_display_from _ _ _ Ep).
Qed.

(** The prefixes keep the identifier kinds apart: no string is accepted by the
    parsers of two kinds, and a parser of another kind names the prefix it expects. *)
Theorem id_prefixes_prevent_cross_type_parsing (s : string) :
  (is_ok (AgentId_from_str s) = true →
     OperationId_from_str s = Err (WrongPrefix "operation_")
     ∧ CommunityConfigId_from_str s = Err (WrongPrefix "community_"))
  ∧ (is_ok (OperationId_from_str s) = true →
     AgentId_from_str s = Err (WrongPrefix "agent_")
     ∧ CommunityConfigId_from_str s = Err (WrongPrefix "community_"))
  ∧ (is_ok (CommunityConfigId_from_str s) = true →
     AgentId_from_str s = Err (WrongPrefix "agent_")
     ∧ OperationId_from_str s = Err (WrongPrefix "operation_")).
Proof.
  unfold AgentId_from_str, OperationId_from_str, CommunityConfigId_from_str.
  assert (∀ p (f : Z → AgentId), is_ok (rmap f (typed_id_from_str p s)) = true →
            ∃ r, s = String.append p r) as Hpre.
  { intros p f. unfold typed_id_from_str. destruct (strip_prefix p s) as [r|] eqn:E; [|done].
    intros _. exists r. by apply strip_prefix_Some. }
  split_and!; intros Hok.
  - destruct (Hpre agent_prefix mkAgentId Hok) as [r ->]. done.
  - destruct (Hpre operation_prefix mkAgentId) as [r ->]; [|done].
    by destruct (typed_id_from_str operation_prefix s).
  - destruct (Hpre community_prefix mkAgentId) as [r ->]; [|done].
    by destruct (typed_id_from_str community_prefix s).
Qed.

End Properties.

Lemma agent_id_string_round_trip_witness :
  AgentId_to_string (mkAgentId 255) = "agent_000000000000000000000000000000ff"
  ∧ AgentId_from_str (AgentId_to_string (mkAgentId 255)) = Ok (mkAgentId 255).
Proof.
  split; [reflexivity|].
  apply (proj1 (agent_id_string_round_trip (mkAgentId 255) "")).
  split; [discriminate | reflexivity].
Defined.

Lemma id_prefixes_prevent_cross_type_parsing_witness :
  AgentId_from_str (OperationId_to_string (mkOperationId 255)) = Err (WrongPrefix "agent_").
Proof.
  assert (is_ok (OperationId_from_str (OperationId_to_string (mkOperationId 255))) = true) as Hok
    by (vm_compute; reflexivity).
  exact (proj1 (proj1 (proj2 (id_prefixes_prevent_cross_type_parsing
    (OperationId_to_string (mkOperationId 255)))) Hok)).
Defined.
