(* ===== verification/Lifecycle.v ===== *)
(** * Errors and durable operations (src/src/error.rs, src/src/operation.rs)
    The validation and API error contracts, and the operation state machine. *)
From stdpp Require Import base gmap strings list relations.
From Stdlib Require Import ZArith Lia String.
From S2P Require Import Prelude RustStr.

(** ** error.rs *)
Record ValidationError := mkValidationError { ve_field : string; ve_message : string }.

Inductive ErrorCode :=
| InvalidRequest | EC_NotFound | EC_Conflict | Unauthorized | EC_Forbidden
| EC_Unsupported | EC_Unavailable | EC_Internal.

Record ApiError := mkApiError {
  ae_code : ErrorCode;
  ae_message : string;
  ae_field : option string
}.

Definition ApiError_validation (error : ValidationError) : ApiError :=
  mkApiError InvalidRequest (ve_message error) (Some (ve_field error)).

(** [#[error("{field}: {message}")]] *)
Definition ValidationError_to_string (e : ValidationError) : string :=
  String.append (ve_field e) (String.append ": " (ve_message e)).

(** ** operation.rs *)
Inductive OperationKind :=
| CreateAgent | UpdateAgent | EnableAgent | DisableAgent | DeleteAgent | PurgeAgent.

Inductive OperationStatus := Pending | Running | Succeeded | Failed | Cancelled.

#[export] Instance ErrorCode_eq_dec : EqDecision ErrorCode.
Proof. solve_decision. Defined.
#[export] Instance OperationKind_eq_dec : EqDecision OperationKind.
Proof. solve_decision. Defined.
#[export] Instance OperationStatus_eq_dec : EqDecision OperationStatus.
Proof. solve_decision. Defined.

Definition OperationStatus_is_terminal (s : OperationStatus) : bool :=
  match s with Succeeded | Failed | Cancelled => true | _ => false end.

Definition OperationStatus_can_transition_to (self next : OperationStatus) : bool :=
  match self, next with
  | Pending, (Running | Cancelled) => true
  | Running, (Succeeded | Failed | Cancelled) => true
  | _, _ => false
  end.

(** The serde [snake_case] names [json_name] stores in the [kind] and [status] columns. *)
Definition OperationKind_json_name (k : OperationKind) : string :=
  match k with
  | CreateAgent => "create_agent" | UpdateAgent => "update_agent"
  | EnableAgent => "enable_agent" | DisableAgent => "disable_agent"
  | DeleteAgent => "delete_agent" | PurgeAgent => "purge_agent"
  end.
Definition OperationStatus_json_name (s : OperationStatus) : string :=
  match s with
  | Pending => "pending" | Running => "running" | Succeeded => "succeeded"
  | Failed => "failed" | Cancelled => "cancelled"
  end.
Definition ErrorCode_json_name (c : ErrorCode) : string :=
  match c with
  | InvalidRequest => "invalid_request" | EC_NotFound => "not_found"
  | EC_Conflict => "conflict" | Unauthorized => "unauthorized" | EC_Forbidden => "forbidden"
  | EC_Unsupported => "unsupported" | EC_Unavailable => "unavailable"
  | EC_Internal => "internal"
  end.

(** One allowed status change, and any number of them. *)
Definition status_step (s s' : OperationStatus) : Prop :=
  OperationStatus_can_transition_to s s' = true.
Definition status_reaches : OperationStatus → OperationStatus → Prop := rtc status_step.

(** Progress measure: pending, running, done. *)
Definition status_rank (s : OperationStatus) : Z :=
  match s with Pending => 0 | Running => 1 | _ => 2 end.

(** ** Lemmas *)
Lemma status_step_rank s s' : status_step s s' → status_rank s < status_rank s'.
Proof. destruct s, s'; unfold status_step; simpl; intros H; (lia || discriminate). Qed.

Lemma terminal_no_step s s' :
  OperationStatus_is_terminal s = true → OperationStatus_can_transition_to s s' = false.
Proof. by destruct s, s'. Qed.

Lemma status_reaches_rank s s' : status_reaches s s' → status_rank s ≤ status_rank s'.
Proof. induction 1 as [|? ? ? Hstep%status_step_rank]; lia. Qed.

Lemma terminal_reaches s s' :
  OperationStatus_is_terminal s = true → status_reaches s s' → s' = s.
Proof.
  intros Ht Hr. inversion Hr as [|? y ? Hstep]; [done|]. subst.
  unfold status_step in Hstep. by rewrite terminal_no_step in Hstep.
Qed.

(** ** Properties *)

(** Operation statuses only move forward. Every allowed change raises the rank
    (so no run of changes is longer than two), a terminal status is final, a status
    is terminal exactly when no change leaves it, and success or failure is reached
    only through [Running]. *)
Theorem operation_transitions_are_monotonic (s s' : OperationStatus) :
  (status_reaches s s' → s = s' ∨ status_rank s < status_rank s')
  ∧ (OperationStatus_is_terminal s = true ↔ ∀ n, OperationStatus_can_transition_to s n = false)
  ∧ (OperationStatus_is_terminal s = true → status_reaches s s' → s' = s)
  ∧ (OperationStatus_can_transition_to s Succeeded = true
     ∨ OperationStatus_can_transition_to s Failed = true → s = Running).
Proof.
  split_and!.
  - intros Hr. inversion Hr as [|? y ? Hstep Hrest]; [by left|right]. subst.
    apply status_step_rank in Hstep. apply status_reaches_rank in Hrest. lia.
  - split; [intros; by apply terminal_no_step|]. intros Hn.
    destruct s; try done; [specialize (Hn Running)|specialize (Hn Failed)]; discriminate.
  - apply terminal_reaches.
  - destruct s; simpl; intros []; done.
Qed.

Lemma operation_transitions_are_monotonic_witness :
  status_reaches Pending Failed ∧ status_rank Pending < status_rank Failed.
Proof.
  assert (status_reaches Pending Failed) as Hr.
  { apply rtc_l with Running; [reflexivity|]. by apply rtc_once. }
  split; [exact Hr|].
  destruct (proj1 (operation_transitions_are_monotonic Pending Failed) Hr) as [E|E];
    [discriminate E|exact E].
Defined.
