(* ===== verification/Agent.v ===== *)
(** * Agents and communities (src/src/agent.rs, src/src/community.rs)
    Desired agent state, human-authored configuration and their validation. A
    parsed [url::Url] is the record of the parts the code reads. *)
From stdpp Require Import base gmap strings list.
From Stdlib Require Import ZArith Lia Ascii String.
From S2P Require Import Prelude RustStr Ids Lifecycle.

(** ** community.rs *)
Record Url := mkUrl {
  url_scheme : string;
  url_host_str : option string;
  url_username : string;
  url_password : option string;
  url_query : option string;
  url_fragment : option string;
  url_as_str : string
}.

Record CommunityConfig := mkCommunityConfig {
  cc_id : CommunityConfigId;
  cc_display_name : string;
  cc_relay_url : Url;
  cc_identity_pubkey : option string
}.

#[export] Instance Url_eq_dec : EqDecision Url.
Proof. solve_decision. Defined.
#[export] Instance CommunityConfig_eq_dec : EqDecision CommunityConfig.
Proof. solve_decision. Defined.

Definition at_most_message (max_chars : Z) : string :=
  String.append "must be at most " (String.append (show_Z max_chars) " characters").

Definition validate_nonempty (field value : string) (max_chars : Z)
    : result ValidationError unit :=
  let trimmed := trim value in
  if str_is_empty trimmed then Err (mkValidationError field "must not be empty")
  else if chars_count trimmed >? max_chars
  then Err (mkValidationError field (at_most_message max_chars))
  else Ok tt.

Definition CommunityConfig_validate (self : CommunityConfig) : result ValidationError unit :=
  let? _ := validate_nonempty "display_name" (cc_display_name self) 120 in
  let url := cc_relay_url self in
  if negb (String.eqb (url_scheme url) "ws" || String.eqb (url_scheme url) "wss")
  then Err (mkValidationError "relay_url" "must use the ws or wss scheme")
  else if option_is_none (url_host_str url)
  then Err (mkValidationError "relay_url" "must include a host")
  else if negb (str_is_empty (url_username url)) || option_is_some (url_password url)
  then Err (mkValidationError "relay_url" "must not include embedded credentials")
  else if option_is_some (url_fragment url) || option_is_some (url_query url)
  then Err (mkValidationError "relay_url" "must not include a query or fragment")
  else Ok tt.

(** [CommunityConfig::new], with the identifier it draws. *)
Definition CommunityConfig_new (fresh : CommunityConfigId) (display_name : string)
    (relay_url : Url) : result ValidationError CommunityConfig :=
  let config := mkCommunityConfig fresh display_name relay_url None in
  let? _ := CommunityConfig_validate config in Ok config.

Definition with_identity_pubkey (self : CommunityConfig) (pubkey : string)
    : result ValidationError CommunityConfig :=
  let pubkey := to_ascii_lowercase (trim pubkey) in
  if negb (len pubkey =? 64) || negb (all_bytes is_ascii_hexdigit pubkey)
  then Err (mkValidationError "identity_pubkey"
              "must be a 64-character hex Nostr public key")
  else Ok (mkCommunityConfig (cc_id self) (cc_display_name self) (cc_relay_url self)
             (Some pubkey)).

(** ** agent.rs *)
Inductive DesiredAgentState := Enabled | Disabled | Deleted.
Inductive RespondToMode := OwnerOnly | Allowlist | Anyone.
Inductive AutoJoinOpenChannels := AutoJoinDisabled | AutoJoinAll | AutoJoinNew.

#[export] Instance DesiredAgentState_eq_dec : EqDecision DesiredAgentState.
Proof. solve_decision. Defined.
#[export] Instance RespondToMode_eq_dec : EqDecision RespondToMode.
Proof. solve_decision. Defined.
#[export] Instance AutoJoinOpenChannels_eq_dec : EqDecision AutoJoinOpenChannels.
Proof. solve_decision. Defined.

Definition RespondToMode_as_str (m : RespondToMode) : string :=
  match m with OwnerOnly => "owner-only" | Allowlist => "allowlist" | Anyone => "anyone" end.

(** A [RuntimeId] is only built by [RuntimeId_parse] (file Runtime). *)
Record RuntimeId := mkRuntimeId { runtime_id_str : string }.
#[export] Instance RuntimeId_eq_dec : EqDecision RuntimeId.
Proof. solve_decision. Defined.

Record RuntimeSpec := mkRuntimeSpec {
  rs_runtime_id : RuntimeId;
  rs_environment : gmap string string
}.
#[export] Instance RuntimeSpec_eq_dec : EqDecision RuntimeSpec.
Proof. solve_decision. Defined.

Record AgentSpec := mkAgentSpec {
  spec_id : AgentId;
  spec_community : CommunityConfigId;
  spec_display_name : string;
  spec_system_prompt : string;
  spec_runtime : RuntimeSpec;
  spec_desired_state : DesiredAgentState
}.
#[export] Instance AgentSpec_eq_dec : EqDecision AgentSpec.
Proof. solve_decision. Defined.

Record FilesystemConfig := mkFilesystemConfig { fs_user : option string }.

Record PersonaDefinition := mkPersonaDefinition {
  pd_id : string;
  pd_display_name : string;
  pd_avatar_url : option string;
  pd_system_prompt : string;
  pd_runtime : option RuntimeId;
  pd_model : option string;
  pd_provider : option string;
  pd_name_pool : list string;
  pd_environment : gmap string string;
  pd_respond_to : option RespondToMode;
  pd_respond_to_allowlist : list string;
  pd_parallelism : option Z;
  pd_is_builtin : bool;
  pd_is_active : bool;
  pd_shared : bool
}.

Record AgentConfigFile := mkAgentConfigFile {
  acf_id : AgentId;
  acf_display_name : string;
  acf_persona_id : option string;
  acf_avatar_url : option string;
  acf_system_prompt : option string;
  acf_system_prompt_file : option string;
  acf_runtime : option RuntimeId;
  acf_model : option string;
  acf_provider : option string;
  acf_environment : gmap string string;
  acf_filesystem : FilesystemConfig;
  acf_auto_join_open_channels : AutoJoinOpenChannels;
  acf_agent_args : list string;
  acf_parallelism : Z;
  acf_respond_to : RespondToMode;
  acf_respond_to_allowlist : list string;
  acf_idle_timeout_seconds : option Z;
  acf_max_turn_duration_seconds : option Z
}.

(** [matches!(characters.next(), Some('A'..='Z' | '_')) && characters.all(..)]; the same
    function in agent.rs, launch.rs and runtime.rs. *)
Definition env_key_head (c : ascii) : bool := is_ascii_uppercase c || Ascii.eqb c "_".
Definition env_key_tail (c : ascii) : bool :=
  is_ascii_uppercase c || is_ascii_digit c || Ascii.eqb c "_".
Definition valid_environment_key (key : string) : bool :=
  match key with
  | EmptyString => false
  | String c rest => env_key_head c && all_bytes env_key_tail rest
  end.

(** [environment.keys().any(|key| !valid_environment_key(key))] *)
Definition any_invalid_key (env : gmap string string) : bool :=
  existsb (λ kv, negb (valid_environment_key kv.1)) (btree_iter env).

Definition RuntimeSpec_validate (self : RuntimeSpec) : result ValidationError unit :=
  if any_invalid_key (rs_environment self)
  then Err (mkValidationError "runtime.environment"
              "contains an invalid environment variable name")
  else Ok tt.

Definition AgentSpec_validate (self : AgentSpec) : result ValidationError unit :=
  let? _ := validate_nonempty "display_name" (spec_display_name self) 120 in
  let? _ := (if negb (str_is_empty (spec_system_prompt self))
             then validate_nonempty "system_prompt" (spec_system_prompt self) 65536
             else Ok tt) in
  RuntimeSpec_validate (spec_runtime self).

Definition validate_identifier (field value : string) : result ValidationError unit :=
  let? _ := validate_nonempty field value 120 in
  if negb (all_bytes (λ c, is_ascii_alphanumeric c || Ascii.eqb c "-" || Ascii.eqb c "_") value)
  then Err (mkValidationError field "must contain only letters, numbers, '-' or '_'")
  else Ok tt.

Definition validate_environment (environment : gmap string string)
    : result ValidationError unit :=
  if any_invalid_key environment
  then Err (mkValidationError "environment" "contains an invalid environment variable name")
  else Ok tt.

Definition validate_agent_args (args : list string) : result ValidationError unit :=
  if (Z.of_nat (List.length args) >? 256)
     || existsb (λ arg, str_is_empty arg || contains_char NUL arg || contains_char "," arg) args
  then Err (mkValidationError "agent_args"
              "must contain at most 256 non-empty, comma-free, NUL-free arguments")
  else Ok tt.

Definition validate_behavior (parallelism : option Z) (respond_to : option RespondToMode)
    (allowlist : list string) : result ValidationError unit :=
  let? _ := (match parallelism with
             | Some value =>
               if negb ((1 <=? value) && (value <=? 32))
               then Err (mkValidationError "parallelism" "must be between 1 and 32")
               else Ok tt
             | None => Ok tt
             end) in
  if bool_decide (respond_to = Some Allowlist) && bool_decide (allowlist = [])
  then Err (mkValidationError "respond_to_allowlist"
              "must contain at least one pubkey in allowlist mode")
  else if existsb (λ key, negb (len key =? 64) || negb (all_bytes is_ascii_hexdigit key)) allowlist
  then Err (mkValidationError "respond_to_allowlist"
              "entries must be 64-character hex pubkeys")
  else Ok tt.

Definition FilesystemConfig_validate (self : FilesystemConfig) : result ValidationError unit :=
  match fs_user self with
  | Some user =>
    if str_is_empty user || (len user >? 32) || starts_with "-" user
       || negb (all_bytes (λ b, is_ascii_alphanumeric b || Ascii.eqb b "_" || Ascii.eqb b "-") user)
    then Err (mkValidationError "filesystem.user"
                "must be a 1-32 character Unix account name")
    else Ok tt
  | None => Ok tt
  end.

Definition prompt_too_long (prompt : string) : bool :=
  (chars_count prompt >? 65536) || contains_char NUL prompt.

Definition PersonaDefinition_validate (self : PersonaDefinition) : result ValidationError unit :=
  let? _ := validate_identifier "persona.id" (pd_id self) in
  let? _ := validate_nonempty "persona.display_name" (pd_display_name self) 120 in
  if prompt_too_long (pd_system_prompt self)
  then Err (mkValidationError "persona.system_prompt"
              "must be at most 65536 NUL-free characters")
  else
  let? _ := validate_environment (pd_environment self) in
  validate_behavior (pd_parallelism self) (pd_respond_to self) (pd_respond_to_allowlist self).

Definition AgentConfigFile_validate (self : AgentConfigFile) : result ValidationError unit :=
  let? _ := validate_nonempty "display_name" (acf_display_name self) 120 in
  let? _ := (match acf_persona_id self with
             | Some persona_id => validate_identifier "persona_id" persona_id
             | None => Ok tt
             end) in
  let? _ := (match acf_system_prompt self with
             | Some prompt =>
               let? _ := (if option_is_none (acf_system_prompt_file self)
                          then validate_nonempty "system_prompt" prompt 65536
                          else Ok tt) in
               if prompt_too_long prompt
               then Err (mkValidationError "system_prompt"
                           "must be at most 65536 NUL-free characters")
               else Ok tt
             | None => Ok tt
             end) in
  let? _ := (match acf_system_prompt_file self with
             | Some path =>
               let? _ := validate_nonempty "system_prompt_file" path 4096 in
               if negb (path_is_absolute path)
               then Err (mkValidationError "system_prompt_file" "must be an absolute path")
               else Ok tt
             | None => Ok tt
             end) in
  if option_is_some (acf_persona_id self) && option_is_some (acf_system_prompt_file self)
  then Err (mkValidationError "system_prompt_file" "cannot be used with persona_id")
  else
  let? _ := validate_environment (acf_environment self) in
  let? _ := FilesystemConfig_validate (acf_filesystem self) in
  let? _ := validate_agent_args (acf_agent_args self) in
  validate_behavior (Some (acf_parallelism self)) (Some (acf_respond_to self))
    (acf_respond_to_allowlist self).

(** ** Lemmas *)
Lemma validate_nonempty_ok field value max :
  validate_nonempty field value max = Ok tt ↔
  str_is_empty (trim value) = false ∧ chars_count (trim value) ≤ max.
Proof.
  unfold validate_nonempty. destruct (str_is_empty (trim value)).
  { split; [done|]. by intros []. }
  destruct (Z.gtb_spec (chars_count (trim value)) max).
  - split; [done|]. intros [_ ?]. lia.
  - split; [|done]. intros _. split; [done|lia].
Qed.

Lemma any_invalid_key_false env :
  any_invalid_key env = false ↔ ∀ k, is_Some (env !! k) → valid_environment_key k = true.
Proof.
  unfold any_invalid_key. rewrite <- not_true_iff_false, existsb_exists. split.
  - intros Hn k [v Hv]. apply not_false_iff_true. intros Hk. apply Hn. exists (k, v).
    rewrite <- list_elem_of_In, elem_of_btree_iter. simpl. by rewrite Hk.
  - intros Hall ([k v] & Hin & Hk). rewrite <- list_elem_of_In, elem_of_btree_iter in Hin.
    simpl in Hk. by rewrite (Hall k (mk_is_Some _ _ Hin)) in Hk.
Qed.

Lemma existsb_false_Forall {A} (f : A → bool) l :
  existsb f l = false ↔ Forall (λ x, f x = false) l.
Proof.
  induction l as [|x l IH]; simpl; [naive_solver|].
  rewrite orb_false_iff, IH, Forall_cons. done.
Qed.

(** A public key in the form the server compares: 64 hexadecimal digits. *)
Definition hex_pubkey (key : string) : Prop :=
  len key = 64 ∧ all_bytes is_ascii_hexdigit key = true.

Lemma validate_agent_args_ok args :
  validate_agent_args args = Ok tt ↔
  Z.of_nat (List.length args) ≤ 256
  ∧ Forall (λ a, str_is_empty a = false ∧ contains_char NUL a = false
                 ∧ contains_char "," a = false) args.
Proof.
  unfold validate_agent_args. destruct (_ || _) eqn:E.
  - split; [done|]. intros [Hl Hf]. exfalso. apply orb_true_iff in E as [E|E]; [lia|].
    apply not_false_iff_true in E. apply E. apply existsb_false_Forall.
    apply (Forall_impl _ _ _ Hf). intros a (-> & -> & ->). done.
  - apply orb_false_iff in E as [El Ef]. rewrite existsb_false_Forall in Ef. split; [|done].
    intros _. split; [lia|]. apply (Forall_impl _ _ _ Ef). intros a.
    rewrite !orb_false_iff. tauto.
Qed.

Lemma validate_behavior_ok parallelism respond_to allowlist :
  validate_behavior parallelism respond_to allowlist = Ok tt ↔
  (∀ p, parallelism = Some p → 1 ≤ p ≤ 32)
  ∧ (respond_to = Some Allowlist → allowlist ≠ [])
  ∧ Forall hex_pubkey allowlist.
Proof.
  assert (existsb (λ key, negb (len key =? 64) || negb (all_bytes is_ascii_hexdigit key))
            allowlist = false ↔ Forall hex_pubkey allowlist) as Hex.
  { rewrite existsb_false_Forall. apply Forall_iff. intros k. unfold hex_pubkey.
    rewrite orb_false_iff, !negb_false_iff, Z.eqb_eq. done. }
  unfold validate_behavior.
  destruct parallelism as [v|]; [destruct ((1 <=? v) && (v <=? 32)) eqn:Ev; simpl|];
    try (split; [done|]; intros [Hp _]; specialize (Hp v eq_refl); lia).
  all: destruct (bool_decide (respond_to = Some Allowlist)) eqn:Er;
    destruct (bool_decide (allowlist = [])) eqn:Ea; simpl;
    rewrite ?bool_decide_eq_true, ?bool_decide_eq_false in *;
    try (split; [done|]; naive_solver).
  all: destruct (existsb _ _) eqn:Ee;
    [split; [done|]; intros (_ & _ & Hf); apply Hex in Hf; congruence|].
  all: split; [intros _|done]; split_and!; [|naive_solver|by apply Hex]; intros p [= <-]; lia.
Qed.

(** ** Properties *)

(** A configuration file that validates is within every limit the server relies on:
    parallelism between 1 and 32, a non-empty allowlist of 64-digit keys when it is used,
    at most 256 non-empty comma-free arguments, only well-formed environment names,
    and never both a persona and a prompt file. *)
Theorem agent_config_file_validated (f : AgentConfigFile) :
  AgentConfigFile_validate f = Ok tt →
  1 ≤ acf_parallelism f ≤ 32
  ∧ (acf_respond_to f = Allowlist → acf_respond_to_allowlist f ≠ [])
  ∧ Forall hex_pubkey (acf_respond_to_allowlist f)
  ∧ Z.of_nat (List.length (acf_agent_args f)) ≤ 256
  ∧ Forall (λ a, str_is_empty a = false ∧ contains_char "," a = false) (acf_agent_args f)
  ∧ (∀ k, is_Some (acf_environment f !! k) → valid_environment_key k = true)
  ∧ (acf_persona_id f = None ∨ acf_system_prompt_file f = None).
Proof.
  unfold AgentConfigFile_validate, validate_environment. intros H.
  do 4 (step_in H). drop_units. clear E E0 E1 E2.
  step_in H. destruct (any_invalid_key (acf_environment f)) eqn:Henv; [done|].
  rewrite any_invalid_key_false in Henv. do 2 (step_in H). drop_units.
  apply validate_agent_args_ok in E1 as [Hn Ha].
  apply validate_behavior_ok in H as (Hp & Hr & Hl).
  split_and!; [apply (Hp _ eq_refl)..|intros Hx; apply Hr; by rewrite Hx|done|lia| |done|].
  - apply (Forall_impl _ _ _ Ha). tauto.
  - destruct (acf_persona_id f), (acf_system_prompt_file f); naive_solver.
Qed.

Definition sample_config_file : AgentConfigFile :=
  mkAgentConfigFile (mkAgentId 7) "Build agent" None None (Some "Help out.") None
    (Some (mkRuntimeId "codex-acp")) None None {["CODEX_HOME" := "/state"]}
    (mkFilesystemConfig None) AutoJoinNew ["--fast"; "-v"] 10 OwnerOnly [] None None.

Lemma agent_config_file_validated_witness :
  AgentConfigFile_validate sample_config_file = Ok tt
  ∧ 1 ≤ acf_parallelism sample_config_file ≤ 32.
Proof.
  assert (AgentConfigFile_validate sample_config_file = Ok tt) as Hv by (vm_compute; reflexivity).
  split; [exact Hv|]. exact (proj1 (agent_config_file_validated _ Hv)).
Defined.

(** A joined identity key is stored in one normal form, 64 lowercase hexadecimal
    digits, whatever its case or surrounding white space; storing a normalised key
    again changes nothing, so keys compare by equality. *)
Theorem identity_pubkey_is_normalised (c c' : CommunityConfig) (key : string) :
  with_identity_pubkey c key = Ok c' →
  ∃ k, cc_identity_pubkey c' = Some k
       ∧ len k = 64
       ∧ all_bytes (λ b, is_ascii_digit b || is_lower_hex_letter b) k = true
       ∧ with_identity_pubkey c k = Ok c'.
Proof.
  unfold with_identity_pubkey. set (k := to_ascii_lowercase (trim key)).
  destruct (_ || _) eqn:E; [done|]. intros [= <-]. exists k. simpl.
  apply orb_false_iff in E as [El Eh]. rewrite negb_false_iff in El, Eh.
  apply Z.eqb_eq in El as El'. split_and!; [done|done| |].
  - revert Eh. subst k. clear. induction (trim key) as [|a s IH]; simpl; [done|].
    rewrite !andb_true_iff. intros [Ha Hs]. split; [by apply lower_hexdigit|auto].
  - assert (to_ascii_lowercase (trim k) = k) as ->.
    { rewrite trim_graphic by (apply (all_bytes_impl _ _ _ hexdigit_graphic Eh)).
      subst k. apply to_ascii_lowercase_idem. }
    by rewrite El, Eh.
Qed.

Definition sample_url : Url := mkUrl "wss" (Some "relay.example.com") "" None None None
  "wss://relay.example.com/".
Definition sample_community : CommunityConfig :=
  mkCommunityConfig (mkCommunityConfigId 1) "Engineering" sample_url None.
Definition sample_pubkey : string :=
  "00112233445566778899aabbccddeeff00112233445566778899aabbccddeeff".

Lemma identity_pubkey_is_normalised_witness :
  ∃ c' k, with_identity_pubkey sample_community (String.append " " sample_pubkey) = Ok c'
          ∧ cc_identity_pubkey c' = Some k ∧ len k = 64.
Proof.
  destruct (with_identity_pubkey sample_community (String.append " " sample_pubkey))
    as [c'|] eqn:E; [|vm_compute in E; discriminate E].
  destruct (identity_pubkey_is_normalised _ _ _ E) as (k & H1 & H2 & _).
  exists c', k. split_and!; [reflexivity|exact H1|exact H2].
Defined.
