(* ===== verification/Runtime.v ===== *)
(** * Runtime catalog (src/src/runtime.rs)
    Version-pinned ACP runtimes: identifiers, catalog entries, validation, lookup. *)
From stdpp Require Import base gmap strings list.
From Stdlib Require Import ZArith Lia Ascii String.
From S2P Require Import Prelude RustStr Ids Lifecycle Agent.

Definition MAX_TIMEOUT_SECONDS : Z := 300.

Inductive CatalogError :=
| InvalidRuntimeId (value : string)
| InvalidField (field : string)
| UnpinnedVersion (version : string)
| ArtifactVersionMismatch
| InvalidTimeout (seconds : Z)
| DuplicateRuntime (id : RuntimeId)
| DuplicateSecretReference
| RuntimeNotFound (id : RuntimeId)
| RequiredRuntimeId (expected actual : RuntimeId).

Inductive RuntimeArtifact :=
| LocalExecutable (sha256 : option string)
| Package (manager name version : string).

Record SecretReference := mkSecretReference {
  sr_environment_key : string;
  sr_secret_name : string
}.

Record PreflightProbe := mkPreflightProbe {
  pp_timeout_seconds : Z;
  pp_command : string;
  pp_arguments : list string
}.

Record RuntimeCatalogEntry := mkRuntimeCatalogEntry {
  rce_id : RuntimeId;
  rce_version : string;
  rce_artifact : RuntimeArtifact;
  rce_command : string;
  rce_arguments : list string;
  rce_preflight : option PreflightProbe;
  rce_required_secrets : list SecretReference
}.

#[export] Instance PreflightProbe_eq_dec : EqDecision PreflightProbe.
Proof. solve_decision. Defined.

Definition RuntimeId_parse (value : string) : result CatalogError RuntimeId :=
  if str_is_empty value || (len value >? 80) then Err (InvalidRuntimeId value)
  else if negb (all_bytes (λ b, is_ascii_lowercase b || is_ascii_digit b
                                || Ascii.eqb b "-" || Ascii.eqb b "_" || Ascii.eqb b ".") value)
  then Err (InvalidRuntimeId value)
  else Ok (mkRuntimeId value).

Definition validate_text (field value : string) (max : Z) : result CatalogError unit :=
  if str_is_empty (trim value) || (len value >? max) || contains_char NUL value
  then Err (InvalidField field) else Ok tt.

Definition validate_command (field value : string) : result CatalogError unit :=
  validate_text field value 1024.

Definition validate_absolute_command (field value : string) : result CatalogError unit :=
  let? _ := validate_command field value in
  if negb (path_is_absolute value) then Err (InvalidField field) else Ok tt.

Definition validate_arguments (field : string) (values : list string)
    : result CatalogError unit :=
  if (Z.of_nat (List.length values) >? 128)
     || existsb (λ value, (len value >? 4096) || contains_char NUL value) values
  then Err (InvalidField field) else Ok tt.

Definition valid_sha256 (digest : string) : bool :=
  (len digest =? 64)
  && all_bytes (λ byte, is_ascii_digit byte || is_lower_hex_letter byte) digest.

Definition unpinned_version (version : string) : bool :=
  String.eqb version "latest" || String.eqb version "stable" || String.eqb version "current"
  || contains_char "*" version || contains_char "^" version || contains_char "~" version.

(** The loop over [required_secrets]: the two [BTreeSet]s are the keys and names seen. *)
Fixpoint validate_required_secrets (keys names : gset string) (l : list SecretReference)
    : result CatalogError unit :=
  match l with
  | [] => Ok tt
  | secret :: l' =>
    if negb (valid_environment_key (sr_environment_key secret))
    then Err (InvalidField "required_secrets.environment_key")
    else
    let? _ := validate_text "required_secrets.secret_name" (sr_secret_name secret) 240 in
    if bool_decide (sr_environment_key secret ∈ keys)
       || bool_decide (sr_secret_name secret ∈ names)
    then Err DuplicateSecretReference
    else validate_required_secrets ({[sr_environment_key secret]} ∪ keys)
           ({[sr_secret_name secret]} ∪ names) l'
  end.

Definition RuntimeArtifact_validate (artifact : RuntimeArtifact) (version : string)
    : result CatalogError unit :=
  match artifact with
  | LocalExecutable sha256 =>
    if is_some_and sha256 (λ digest, negb (valid_sha256 digest))
    then Err (InvalidField "artifact.sha256") else Ok tt
  | Package manager name artifact_version =>
    let? _ := validate_text "artifact.manager" manager 80 in
    let? _ := validate_text "artifact.name" name 240 in
    let? _ := validate_text "artifact.version" artifact_version 120 in
    if negb (String.eqb artifact_version version) then Err ArtifactVersionMismatch else Ok tt
  end.

Definition PreflightProbe_validate (probe : PreflightProbe) : result CatalogError unit :=
  if (pp_timeout_seconds probe =? 0) || (pp_timeout_seconds probe >? MAX_TIMEOUT_SECONDS)
  then Err (InvalidTimeout (pp_timeout_seconds probe))
  else
  let? _ := validate_absolute_command "preflight.command" (pp_command probe) in
  validate_arguments "preflight.arguments" (pp_arguments probe).

Definition RuntimeCatalogEntry_validate (self : RuntimeCatalogEntry)
    : result CatalogError unit :=
  let? _ := validate_text "version" (rce_version self) 120 in
  if unpinned_version (rce_version self) then Err (UnpinnedVersion (rce_version self))
  else
  let? _ := validate_absolute_command "command" (rce_command self) in
  let? _ := validate_arguments "arguments" (rce_arguments self) in
  let? _ := RuntimeArtifact_validate (rce_artifact self) (rce_version self) in
  let? _ := (match rce_preflight self with
             | Some probe => PreflightProbe_validate probe
             | None => Ok tt
             end) in
  validate_required_secrets ∅ ∅ (rce_required_secrets self).

(** The loop of [RuntimeCatalog::validate]: [ids] is its [BTreeSet]. *)
Fixpoint validate_runtimes (ids : list RuntimeId) (l : list RuntimeCatalogEntry)
    : result CatalogError unit :=
  match l with
  | [] => Ok tt
  | runtime :: l' =>
    let? _ := RuntimeCatalogEntry_validate runtime in
    if bool_decide (rce_id runtime ∈ ids) then Err (DuplicateRuntime (rce_id runtime))
    else validate_runtimes (rce_id runtime :: ids) l'
  end.

Definition RuntimeCatalog_validate (runtimes : list RuntimeCatalogEntry)
    : result CatalogError unit := validate_runtimes [] runtimes.

Definition RuntimeCatalog_get (runtimes : list RuntimeCatalogEntry) (id : RuntimeId)
    : option RuntimeCatalogEntry :=
  List.find (λ runtime, bool_decide (rce_id runtime = id)) runtimes.

Definition RuntimeCatalog_require (runtimes : list RuntimeCatalogEntry) (id : RuntimeId)
    : result CatalogError RuntimeCatalogEntry :=
  ok_or (RuntimeNotFound id) (RuntimeCatalog_get runtimes id).

Definition sprig_id : RuntimeId := mkRuntimeId "sprig-buzz-agent".
Definition codex_id : RuntimeId := mkRuntimeId "codex-acp".

Definition load_initial_local (sprig codex : RuntimeCatalogEntry)
    : result CatalogError (list RuntimeCatalogEntry) :=
  if negb (bool_decide (rce_id sprig = sprig_id))
  then Err (RequiredRuntimeId sprig_id (rce_id sprig))
  else if negb (bool_decide (rce_id codex = codex_id))
  then Err (RequiredRuntimeId codex_id (rce_id codex))
  else
  let? _ := RuntimeCatalog_validate [sprig; codex] in Ok [sprig; codex].

(** ** Lemmas *)
Lemma validate_runtimes_ok ids l :
  validate_runtimes ids l = Ok tt →
  Forall (λ e, RuntimeCatalogEntry_validate e = Ok tt ∧ rce_id e ∉ ids) l
  ∧ NoDup (rce_id <$> l).
Proof.
  revert ids. induction l as [|e l IH]; intros ids H; [by split; constructor|].
  cbn [validate_runtimes] in H. step_in H. step_in H. drop_units.
  apply bool_decide_eq_false in E0. destruct (IH _ H) as [Hf Hn]. split.
  - constructor; [done|]. apply (Forall_impl _ _ _ Hf). intros e'. rewrite elem_of_cons. tauto.
  - cbn. constructor; [|done]. rewrite list_elem_of_fmap. intros (e' & Heq & Hin).
    rewrite Forall_forall in Hf. destruct (Hf e' Hin) as [_ Hni]. apply Hni. rewrite Heq. left.
Qed.

Lemma validate_required_secrets_ok keys names l :
  validate_required_secrets keys names l = Ok tt →
  NoDup (sr_environment_key <$> l) ∧ NoDup (sr_secret_name <$> l)
  ∧ Forall (λ s, valid_environment_key (sr_environment_key s) = true
                 ∧ sr_environment_key s ∉ keys ∧ sr_secret_name s ∉ names) l.
Proof.
  revert keys names. induction l as [|s l IH]; intros keys names H; [by split_and!; constructor|].
  cbn [validate_required_secrets] in H. do 3 (step_in H). drop_units.
  apply negb_false_iff in E. apply orb_false_iff in E1 as [Ek En].
  apply bool_decide_eq_false in Ek, En. destruct (IH _ _ H) as (Hk & Hn & Hf).
  split_and!.
  - cbn. constructor; [|done]. rewrite list_elem_of_fmap. intros (s' & Heq & Hin).
    rewrite Forall_forall in Hf. destruct (Hf s' Hin) as (_ & Hni & _). set_solver.
  - cbn. constructor; [|done]. rewrite list_elem_of_fmap. intros (s' & Heq & Hin).
    rewrite Forall_forall in Hf. destruct (Hf s' Hin) as (_ & _ & Hni). set_solver.
  - constructor; [done|]. apply (Forall_impl _ _ _ Hf). set_solver.
Qed.

Lemma catalog_get_spec runtimes id e :
  RuntimeCatalog_get runtimes id = Some e → e ∈ runtimes ∧ rce_id e = id.
Proof.
  intros H%find_some. rewrite list_elem_of_In. destruct H as [Hin Hid].
  split; [done|]. by apply bool_decide_eq_true in Hid.
Qed.

Lemma catalog_get_unique runtimes e :
  NoDup (rce_id <$> runtimes) → e ∈ runtimes → RuntimeCatalog_get runtimes (rce_id e) = Some e.
Proof.
  unfold RuntimeCatalog_get. intros Hnd Hin.
  induction runtimes as [|e' l IH]; [by apply not_elem_of_nil in Hin|].
  cbn in Hnd. apply NoDup_cons in Hnd as [Hni Hnd]. cbn.
  apply elem_of_cons in Hin as [->|Hin]; [by rewrite bool_decide_true|].
  rewrite bool_decide_false; [auto|]. intros Heq. apply Hni. rewrite Heq.
  apply list_elem_of_fmap. eauto.
Qed.

Lemma entry_validate_pinned e :
  RuntimeCatalogEntry_validate e = Ok tt → unpinned_version (rce_version e) = false.
Proof. unfold RuntimeCatalogEntry_validate. intros H. do 2 (step_in H). done. Qed.

Lemma entry_validate_secrets e :
  RuntimeCatalogEntry_validate e = Ok tt →
  validate_required_secrets ∅ ∅ (rce_required_secrets e) = Ok tt.
Proof. unfold RuntimeCatalogEntry_validate. intros H. by do 6 (step_in H). Qed.

(** ** Properties *)

(** In a catalog that validates, runtime identifiers are unique and looking one up
    returns the one entry that carries it; that entry has an exact version, and its
    required secrets have pairwise different environment names and secret names. *)
Theorem validated_catalog_lookup (runtimes : list RuntimeCatalogEntry) (e : RuntimeCatalogEntry) :
  RuntimeCatalog_validate runtimes = Ok tt →
  NoDup (rce_id <$> runtimes)
  ∧ (RuntimeCatalog_require runtimes (rce_id e) = Ok e ↔ e ∈ runtimes)
  ∧ (e ∈ runtimes →
     unpinned_version (rce_version e) = false
     ∧ NoDup (sr_environment_key <$> rce_required_secrets e)
     ∧ NoDup (sr_secret_name <$> rce_required_secrets e)).
Proof.
  intros Hv. destruct (validate_runtimes_ok _ _ Hv) as [Hf Hnd].
  split_and!; [done| |].
  - unfold RuntimeCatalog_require. split.
    + destruct (RuntimeCatalog_get _ _) as [e'|] eqn:E; simpl; [|done]. intros [= ->].
      by apply catalog_get_spec in E as [? _].
    + intros Hin. by rewrite catalog_get_unique.
  - intros Hin. rewrite Forall_forall in Hf. destruct (Hf e Hin) as [He _].
    split; [by apply entry_validate_pinned|].
    destruct (validate_required_secrets_ok _ _ _ (entry_validate_secrets e He)) as (? & ? & _).
    done.
Qed.

Definition sample_runtime : RuntimeCatalogEntry :=
  mkRuntimeCatalogEntry codex_id "1.2.3" (Package "npm" "codex-acp" "1.2.3")
    "/opt/codex/bin/codex-acp" ["acp"] (Some (mkPreflightProbe 30 "/opt/codex/bin/codex-acp" ["--version"]))
    [mkSecretReference "OPENAI_API_KEY" "openai"].

Lemma validated_catalog_lookup_witness :
  RuntimeCatalog_validate [sample_runtime] = Ok tt
  ∧ RuntimeCatalog_require [sample_runtime] codex_id = Ok sample_runtime.
Proof.
  assert (RuntimeCatalog_validate [sample_runtime] = Ok tt) as Hv by (vm_compute; reflexivity).
  split; [exact Hv|].
  apply (proj1 (proj2 (validated_catalog_lookup _ sample_runtime Hv))). left.
Defined.
