(* ===== verification/Launch.v ===== *)
(** * Launch contract (src/src/launch.rs)
    Turning agent intent and a catalog entry into one process launch, the identity a
    receipt is adopted by, and the observed process state machine. *)
From stdpp Require Import base gmap strings list relations.
From Stdlib Require Import ZArith Lia Ascii String.
From S2P Require Import Prelude RustStr Ids Lifecycle Agent Runtime.

Definition MAX_ARGUMENTS : Z := 256.
Definition MAX_ENVIRONMENT : Z := 256.
Definition HARNESS_AGENT_COMMAND_ENV : string := "BUZZ_ACP_AGENT_COMMAND".
Definition HARNESS_AGENT_ARGS_ENV : string := "BUZZ_ACP_AGENT_ARGS".
Definition HARNESS_KINDS_ENV : string := "BUZZ_ACP_KINDS".
Definition DEFAULT_HARNESS_KINDS : string := "9,46010,40007".
Definition HARNESS_PRIVATE_KEY_ENV : string := "BUZZ_PRIVATE_KEY".
Definition HARNESS_RELAY_URL_ENV : string := "BUZZ_RELAY_URL".
Definition HARNESS_AUTH_TAG_ENV : string := "BUZZ_AUTH_TAG".

Inductive LocalProcessRole := AcpBridge | AgentRuntime.

Record ExecutableIdentity := mkExecutableIdentity {
  ei_path : string;
  ei_package_id : string;
  ei_version : string;
  ei_sha256 : option string
}.

Record SecretRef := mkSecretRef { sref_key : string; sref_version : option string }.

Inductive RestartMode := Never | OnFailure | Always.

Record RestartPolicy := mkRestartPolicy {
  rp_mode : RestartMode;
  rp_max_attempts : Z;
  rp_initial_backoff_ms : Z;
  rp_max_backoff_ms : Z;
  rp_stable_after_ms : Z
}.

Inductive HealthPolicy :=
| HealthProcess (startup_grace_ms : Z)
| HealthTcp (host : string) (port startup_grace_ms interval_ms timeout_ms : Z).

Record ResolvedRuntime := mkResolvedRuntime {
  rr_runtime_id : RuntimeId;
  rr_executable : ExecutableIdentity;
  rr_arguments : list string;
  rr_preflight : option PreflightProbe
}.

Record LaunchIdentity := mkLaunchIdentity {
  li_role : LocalProcessRole;
  li_harness : ExecutableIdentity;
  li_harness_arguments : list string;
  li_runtime : ResolvedRuntime;
  li_environment : gmap string string;
  li_secret_environment : gmap string SecretRef;
  li_working_directory : string;
  li_workspace_path : string;
  li_runtime_path : string;
  li_restart : RestartPolicy;
  li_health : HealthPolicy
}.

Record LaunchSpec := mkLaunchSpec {
  ls_launch_id : string;
  ls_agent_id : AgentId;
  ls_role : LocalProcessRole;
  ls_harness : ExecutableIdentity;
  ls_harness_arguments : list string;
  ls_runtime : ResolvedRuntime;
  ls_environment : gmap string string;
  ls_secret_environment : gmap string SecretRef;
  ls_working_directory : string;
  ls_workspace_path : string;
  ls_runtime_path : string;
  ls_process_group_id : string;
  ls_restart : RestartPolicy;
  ls_health : HealthPolicy
}.

Record LocalLaunchContext := mkLocalLaunchContext {
  llc_launch_id : string;
  llc_harness : ExecutableIdentity;
  llc_harness_arguments : list string;
  llc_working_directory : string;
  llc_workspace_path : string;
  llc_runtime_path : string;
  llc_process_group_id : string;
  llc_restart : RestartPolicy;
  llc_health : HealthPolicy
}.

Inductive LaunchResolutionError :=
| LRE_Catalog (e : CatalogError)
| LRE_Validation (e : ValidationError)
| SecretShadow (key : string).

#[export] Instance LocalProcessRole_eq_dec : EqDecision LocalProcessRole.
Proof. solve_decision. Defined.
#[export] Instance ExecutableIdentity_eq_dec : EqDecision ExecutableIdentity.
Proof. solve_decision. Defined.
#[export] Instance SecretRef_eq_dec : EqDecision SecretRef.
Proof. solve_decision. Defined.
#[export] Instance RestartMode_eq_dec : EqDecision RestartMode.
Proof. solve_decision. Defined.
#[export] Instance RestartPolicy_eq_dec : EqDecision RestartPolicy.
Proof. solve_decision. Defined.
#[export] Instance HealthPolicy_eq_dec : EqDecision HealthPolicy.
Proof. solve_decision. Defined.
#[export] Instance ResolvedRuntime_eq_dec : EqDecision ResolvedRuntime.
Proof. solve_decision. Defined.
#[export] Instance LaunchIdentity_eq_dec : EqDecision LaunchIdentity.
Proof. solve_decision. Defined.

(** ** Validation *)
Definition nonempty (field value : string) (max : Z) : result ValidationError unit :=
  if str_is_empty (trim value) || (len value >? max) || contains_char NUL value
  then Err (mkValidationError field
              (String.append "must contain 1 to "
                 (String.append (show_Z max) " NUL-free characters")))
  else Ok tt.

Definition absolute_path (field value : string) : result ValidationError unit :=
  if contains_char NUL value || negb (path_is_absolute value)
  then Err (mkValidationError field "must be an absolute NUL-free path") else Ok tt.

Definition ExecutableIdentity_validate (self : ExecutableIdentity)
    : result ValidationError unit :=
  let? _ := absolute_path "executable.path" (ei_path self) in
  let? _ := nonempty "executable.package_id" (ei_package_id self) 160 in
  let? _ := nonempty "executable.version" (ei_version self) 160 in
  if unpinned_version (ei_version self)
  then Err (mkValidationError "executable.version" "must be an immutable exact version")
  else if is_some_and (ei_sha256 self) (λ digest, negb (len digest =? 64)
            || negb (all_bytes (λ b, is_ascii_digit b || is_lower_hex_letter b) digest))
  then Err (mkValidationError "executable.sha256" "must be 64 lowercase hexadecimal characters")
  else Ok tt.

Definition too_many_or_nul (args : list string) : bool :=
  (Z.of_nat (List.length args) >? MAX_ARGUMENTS) || existsb (contains_char NUL) args.

Definition ResolvedRuntime_validate (self : ResolvedRuntime) : result ValidationError unit :=
  let? _ := ExecutableIdentity_validate (rr_executable self) in
  if too_many_or_nul (rr_arguments self)
  then Err (mkValidationError "runtime.arguments" "must contain at most 256 NUL-free values")
  else match rr_preflight self with
  | Some preflight =>
    let? _ := absolute_path "runtime.preflight.command" (pp_command preflight) in
    if (pp_timeout_seconds preflight =? 0) || (pp_timeout_seconds preflight >? 300)
    then Err (mkValidationError "runtime.preflight.timeout_seconds"
                "must be between 1 and 300 seconds")
    else if too_many_or_nul (pp_arguments preflight)
    then Err (mkValidationError "runtime.preflight.arguments"
                "must contain at most 256 NUL-free values")
    else Ok tt
  | None => Ok tt
  end.

Definition SecretRef_validate (self : SecretRef) : result ValidationError unit :=
  let? _ := nonempty "secret_environment.key" (sref_key self) 256 in
  if contains_whitespace (sref_key self) || contains_char NUL (sref_key self)
  then Err (mkValidationError "secret_environment.key"
              "must not contain whitespace or NUL bytes")
  else if is_some_and (sref_version self) (λ value, str_is_empty value || (len value >? 160))
  then Err (mkValidationError "secret_environment.version"
              "must contain 1 to 160 characters when present")
  else Ok tt.

Definition RestartPolicy_validate (self : RestartPolicy) : result ValidationError unit :=
  if rp_max_backoff_ms self <? rp_initial_backoff_ms self
  then Err (mkValidationError "restart.max_backoff_ms"
              "must be greater than or equal to initial_backoff_ms")
  else if bool_decide (rp_mode self = Never) && negb (rp_max_attempts self =? 0)
  then Err (mkValidationError "restart.max_attempts" "must be zero when restart mode is never")
  else Ok tt.

Definition HealthPolicy_validate (self : HealthPolicy) : result ValidationError unit :=
  match self with
  | HealthTcp host port _ interval_ms timeout_ms =>
    if negb (String.eqb host "127.0.0.1") && negb (String.eqb host "::1")
       && negb (String.eqb host "localhost")
    then Err (mkValidationError "health.host"
                "local process health checks must use a loopback host")
    else if (port =? 0) || (interval_ms =? 0) || (timeout_ms =? 0) || (timeout_ms >? interval_ms)
    then Err (mkValidationError "health"
      "TCP port and intervals must be non-zero and timeout must not exceed interval")
    else Ok tt
  | HealthProcess _ => Ok tt
  end.

(** The argument checks shared by [LaunchSpec::validate] and [LaunchIdentity::validate]. *)
Definition launch_arguments_invalid (harness_arguments runtime_arguments : list string) : bool :=
  (Z.of_nat (List.length harness_arguments) + Z.of_nat (List.length runtime_arguments)
     >? MAX_ARGUMENTS)
  || existsb (contains_char NUL) (harness_arguments ++ runtime_arguments).

Definition arguments_error : ValidationError :=
  mkValidationError "arguments" "must contain at most 256 NUL-free values".

(** [for (key, secret) in &self.secret_environment { .. }] *)
Definition validate_secret_environment (secrets : gmap string SecretRef)
    : result ValidationError unit :=
  for_each (λ kv,
    if negb (valid_environment_key kv.1)
    then Err (mkValidationError "secret_environment"
                "contains an invalid environment variable name")
    else SecretRef_validate kv.2) (btree_iter secrets).

(** [for (key, value) in &self.environment { .. }] of [LaunchSpec::validate]. *)
Definition validate_launch_environment (environment : gmap string string)
    (secrets : gmap string SecretRef) : result ValidationError unit :=
  for_each (λ kv,
    if negb (valid_environment_key kv.1) || contains_char NUL kv.2
    then Err (mkValidationError "environment" "contains an invalid name or NUL byte")
    else if option_is_some (secrets !! kv.1)
    then Err (mkValidationError "secret_environment"
                "must not shadow a non-secret environment entry")
    else Ok tt) (btree_iter environment).

Definition harness_runtime_environment (self : LaunchSpec)
    : result ValidationError (gmap string string) :=
  if existsb (contains_char ",") (rr_arguments (ls_runtime self))
  then Err (mkValidationError "runtime.arguments"
              "Buzz ACP comma-separated agent arguments must not contain commas")
  else Ok {[ HARNESS_AGENT_COMMAND_ENV := ei_path (rr_executable (ls_runtime self));
             HARNESS_AGENT_ARGS_ENV := join_with "," (rr_arguments (ls_runtime self)) ]}.

Definition LaunchSpec_validate (self : LaunchSpec) : result ValidationError unit :=
  let? _ := nonempty "launch_id" (ls_launch_id self) 160 in
  let? _ := nonempty "process_group_id" (ls_process_group_id self) 160 in
  if negb (bool_decide (ls_role self = AcpBridge))
  then Err (mkValidationError "role" "Local LaunchSpec must directly supervise the ACP bridge")
  else
  let? _ := ExecutableIdentity_validate (ls_harness self) in
  let? _ := ResolvedRuntime_validate (ls_runtime self) in
  let? _ := absolute_path "working_directory" (ls_working_directory self) in
  let? _ := absolute_path "workspace_path" (ls_workspace_path self) in
  let? _ := absolute_path "runtime_path" (ls_runtime_path self) in
  if launch_arguments_invalid (ls_harness_arguments self) (rr_arguments (ls_runtime self))
  then Err arguments_error
  else if Z.of_nat (size (ls_environment self)) + Z.of_nat (size (ls_secret_environment self))
            >? MAX_ENVIRONMENT
  then Err (mkValidationError "environment" "must contain at most 256 entries")
  else
  let? _ := validate_launch_environment (ls_environment self) (ls_secret_environment self) in
  let? _ := validate_secret_environment (ls_secret_environment self) in
  let? _ := RestartPolicy_validate (ls_restart self) in
  let? _ := HealthPolicy_validate (ls_health self) in
  let? _ := harness_runtime_environment self in
  Ok tt.

(** ** Resolution *)
Definition reserved_harness_environment_key (key : string) : bool :=
  String.eqb key HARNESS_AGENT_COMMAND_ENV || String.eqb key HARNESS_AGENT_ARGS_ENV
  || String.eqb key HARNESS_PRIVATE_KEY_ENV || String.eqb key HARNESS_RELAY_URL_ENV
  || String.eqb key HARNESS_AUTH_TAG_ENV.

(** [for required in &runtime.required_secrets { .. }] *)
Fixpoint resolve_required_secrets (agent_env : gmap string string)
    (acc : gmap string SecretRef) (l : list SecretReference)
    : result LaunchResolutionError (gmap string SecretRef) :=
  match l with
  | [] => Ok acc
  | required :: l' =>
    if option_is_some (agent_env !! sr_environment_key required)
    then Err (SecretShadow (sr_environment_key required))
    else resolve_required_secrets agent_env
           (<[sr_environment_key required := mkSecretRef (sr_secret_name required) None]> acc) l'
  end.

Definition artifact_identity (runtime : RuntimeCatalogEntry) : string * option string :=
  match rce_artifact runtime with
  | LocalExecutable sha256 => (runtime_id_str (rce_id runtime), sha256)
  | Package manager name _ => (String.append manager (String.append ":" name), None)
  end.

(** [entry(HARNESS_KINDS_ENV).or_insert_with(..)] *)
Definition with_default_kinds (env : gmap string string) : gmap string string :=
  match env !! HARNESS_KINDS_ENV with
  | Some _ => env
  | None => <[HARNESS_KINDS_ENV := DEFAULT_HARNESS_KINDS]> env
  end.

Definition from_runtime_entry (agent : AgentSpec) (runtime : RuntimeCatalogEntry)
    (context : LocalLaunchContext) : result LaunchResolutionError LaunchSpec :=
  let agent_env := rs_environment (spec_runtime agent) in
  if existsb (λ kv, reserved_harness_environment_key kv.1) (btree_iter agent_env)
  then Err (LRE_Validation (mkValidationError "runtime.environment"
              "must not override backend-owned Buzz ACP environment"))
  else
  let '(package_id, sha256) := artifact_identity runtime in
  let? secret_environment := resolve_required_secrets agent_env ∅ (rce_required_secrets runtime) in
  let launch := mkLaunchSpec (llc_launch_id context) (spec_id agent) AcpBridge
    (llc_harness context) (llc_harness_arguments context)
    (mkResolvedRuntime (rce_id runtime)
       (mkExecutableIdentity (rce_command runtime) package_id (rce_version runtime) sha256)
       (rce_arguments runtime) (rce_preflight runtime))
    (with_default_kinds agent_env) secret_environment (llc_working_directory context)
    (llc_workspace_path context) (llc_runtime_path context) (llc_process_group_id context)
    (llc_restart context) (llc_health context) in
  let? _ := map_err LRE_Validation (LaunchSpec_validate launch) in
  Ok launch.

Definition resolve_local (agent : AgentSpec) (catalog : list RuntimeCatalogEntry)
    (context : LocalLaunchContext) : result LaunchResolutionError LaunchSpec :=
  let? _ := map_err LRE_Validation (AgentSpec_validate agent) in
  let? _ := map_err LRE_Catalog (RuntimeCatalog_validate catalog) in
  let? runtime := map_err LRE_Catalog
                    (RuntimeCatalog_require catalog (rs_runtime_id (spec_runtime agent))) in
  from_runtime_entry agent runtime context.

Definition LaunchSpec_identity (self : LaunchSpec) : LaunchIdentity :=
  mkLaunchIdentity (ls_role self) (ls_harness self) (ls_harness_arguments self)
    (ls_runtime self) (ls_environment self) (ls_secret_environment self)
    (ls_working_directory self) (ls_workspace_path self) (ls_runtime_path self)
    (ls_restart self) (ls_health self).

Definition LaunchIdentity_validate (self : LaunchIdentity) : result ValidationError unit :=
  if negb (bool_decide (li_role self = AcpBridge))
  then Err (mkValidationError "role" "launch identity must describe a supervised ACP bridge")
  else
  let? _ := ExecutableIdentity_validate (li_harness self) in
  let? _ := ResolvedRuntime_validate (li_runtime self) in
  if launch_arguments_invalid (li_harness_arguments self) (rr_arguments (li_runtime self))
  then Err arguments_error
  else
  let? _ := absolute_path "working_directory" (li_working_directory self) in
  let? _ := absolute_path "workspace_path" (li_workspace_path self) in
  let? _ := absolute_path "runtime_path" (li_runtime_path self) in
  let? _ := for_each (λ kv,
    if negb (valid_environment_key kv.1) || contains_char NUL kv.2
       || option_is_some (li_secret_environment self !! kv.1)
    then Err (mkValidationError "environment" "contains an invalid or shadowed value")
    else Ok tt) (btree_iter (li_environment self)) in
  let? _ := validate_secret_environment (li_secret_environment self) in
  let? _ := RestartPolicy_validate (li_restart self) in
  HealthPolicy_validate (li_health self).

(** ** Observed processes *)
Inductive ObservedProcessState := Starting | Healthy | Unhealthy | Stopping | Exited | Lost.
#[export] Instance ObservedProcessState_eq_dec : EqDecision ObservedProcessState.
Proof. solve_decision. Defined.

Inductive ParentWaitOutcome := WaitExited (code : Z) | WaitSignaled (signal : Z).
Inductive AppServerLogsStatus := Unset | Configured | Unwritable.

Record LifecycleStamp := mkLifecycleStamp {
  stamp_actor : string;
  stamp_decision : string;
  stamp_occurred_at_unix_ms : Z;
  stamp_before : ObservedProcessState;
  stamp_after : ObservedProcessState
}.

Record ProcessReceipt := mkProcessReceipt {
  pr_launch_id : string;
  pr_generation : option string;
  pr_agent_id : AgentId;
  pr_process_group_id : string;
  pr_desired : LaunchIdentity;
  pr_pid : Z;
  pr_started_at_unix_ms : Z;
  pr_process_start_ticks : option Z;
  pr_command_path : option string;
  pr_observed_state : ObservedProcessState;
  pr_exit_code : option Z;
  pr_wait_outcome : option ParentWaitOutcome;
  pr_ended_at_unix_ms : option Z;
  pr_duration_ms : option Z;
  pr_failure : option string;
  pr_app_server_logs : AppServerLogsStatus;
  pr_lifecycle : option LifecycleStamp
}.

Definition ObservedProcessState_is_terminal (s : ObservedProcessState) : bool :=
  match s with Exited | Lost => true | _ => false end.

Definition ObservedProcessState_can_transition_to (self next : ObservedProcessState) : bool :=
  match self, next with
  | Starting, Starting | Healthy, Healthy | Unhealthy, Unhealthy
  | Stopping, Stopping | Exited, Exited | Lost, Lost => true
  | Starting, (Healthy | Unhealthy | Stopping | Exited | Lost) => true
  | Healthy, (Unhealthy | Stopping | Exited | Lost) => true
  | Unhealthy, (Healthy | Stopping | Exited | Lost) => true
  | Stopping, (Exited | Lost) => true
  | _, _ => false
  end.

Definition ProcessReceipt_validate (self : ProcessReceipt) : result ValidationError unit :=
  let? _ := nonempty "launch_id" (pr_launch_id self) 160 in
  let? _ := nonempty "process_group_id" (pr_process_group_id self) 160 in
  let? _ := LaunchIdentity_validate (pr_desired self) in
  if pr_pid self =? 0 then Err (mkValidationError "pid" "must be non-zero")
  else if bool_decide (pr_process_start_ticks self = Some 0)
          || is_some_and (pr_command_path self) str_is_empty
  then Err (mkValidationError "process_identity" "contains an invalid live-process identity")
  else if option_is_some (pr_exit_code self)
          && negb (ObservedProcessState_is_terminal (pr_observed_state self))
  then Err (mkValidationError "exit_code" "may only be present for a terminal process")
  else Ok tt.

(** [self.observed_state = state; self.exit_code = exit_code] *)
Definition with_observation (self : ProcessReceipt) (state : ObservedProcessState)
    (exit_code : option Z) : ProcessReceipt :=
  mkProcessReceipt (pr_launch_id self) (pr_generation self) (pr_agent_id self)
    (pr_process_group_id self) (pr_desired self) (pr_pid self) (pr_started_at_unix_ms self)
    (pr_process_start_ticks self) (pr_command_path self) state exit_code
    (pr_wait_outcome self) (pr_ended_at_unix_ms self) (pr_duration_ms self) (pr_failure self)
    (pr_app_server_logs self) (pr_lifecycle self).

Definition ProcessReceipt_observe (self : ProcessReceipt) (state : ObservedProcessState)
    (exit_code : option Z) : result ValidationError ProcessReceipt :=
  if negb (ObservedProcessState_can_transition_to (pr_observed_state self) state)
  then Err (mkValidationError "observed_state"
              "contains an invalid process lifecycle transition")
  else if option_is_some exit_code && negb (ObservedProcessState_is_terminal state)
  then Err (mkValidationError "exit_code" "may only be present for a terminal process")
  else Ok (with_observation self state exit_code).

Definition can_adopt (self : LaunchSpec) (receipt : ProcessReceipt) : bool :=
  bool_decide (pr_launch_id receipt = ls_launch_id self)
  && bool_decide (pr_agent_id receipt = ls_agent_id self)
  && bool_decide (pr_process_group_id receipt = ls_process_group_id self)
  && bool_decide (pr_desired receipt = LaunchSpec_identity self)
  && (pr_pid receipt >? 0)
  && negb (ObservedProcessState_is_terminal (pr_observed_state receipt)).

(** ** Lemmas *)
(** The environment loop accepts exactly the valid, NUL-free, unshadowed entries. *)
Lemma validate_launch_environment_ok env secrets :
  validate_launch_environment env secrets = Ok tt ↔
  ∀ k v, env !! k = Some v →
    valid_environment_key k = true ∧ contains_char NUL v = false ∧ secrets !! k = None.
Proof.
  unfold validate_launch_environment. rewrite for_each_ok. split.
  - intros Hall k v Hk. specialize (Hall (k, v)).
    rewrite elem_of_btree_iter in Hall. specialize (Hall Hk). cbn in Hall.
    destruct (valid_environment_key k), (contains_char NUL v); try done.
    destruct (secrets !! k); done.
  - intros Hall [k v] Hin. rewrite elem_of_btree_iter in Hin.
    destruct (Hall k v Hin) as (H1 & H2 & H3). cbn. by rewrite H1, H2, H3.
Qed.

Lemma launch_validate_steps l :
  LaunchSpec_validate l = Ok tt →
  nonempty "launch_id" (ls_launch_id l) 160 = Ok tt
  ∧ nonempty "process_group_id" (ls_process_group_id l) 160 = Ok tt
  ∧ ls_role l = AcpBridge
  ∧ ExecutableIdentity_validate (ls_harness l) = Ok tt
  ∧ ResolvedRuntime_validate (ls_runtime l) = Ok tt
  ∧ absolute_path "working_directory" (ls_working_directory l) = Ok tt
  ∧ absolute_path "workspace_path" (ls_workspace_path l) = Ok tt
  ∧ absolute_path "runtime_path" (ls_runtime_path l) = Ok tt
  ∧ launch_arguments_invalid (ls_harness_arguments l) (rr_arguments (ls_runtime l)) = false
  ∧ validate_launch_environment (ls_environment l) (ls_secret_environment l) = Ok tt
  ∧ validate_secret_environment (ls_secret_environment l) = Ok tt
  ∧ RestartPolicy_validate (ls_restart l) = Ok tt
  ∧ HealthPolicy_validate (ls_health l) = Ok tt
  ∧ is_ok (harness_runtime_environment l) = true.
Proof.
  unfold LaunchSpec_validate. intros H. do 15 (step_in H). drop_units.
  apply negb_false_iff, bool_decide_eq_true in E1. by split_and!.
Qed.

Lemma resolve_required_secrets_ok agent_env acc l secrets :
  resolve_required_secrets agent_env acc l = Ok secrets →
  Forall (λ r, agent_env !! sr_environment_key r = None) l
  ∧ dom secrets = dom acc ∪ list_to_set (sr_environment_key <$> l).
Proof.
  revert acc. induction l as [|r l IH]; intros acc H; cbn in H.
  - injection H as <-. split; [constructor|]. set_solver.
  - destruct (agent_env !! sr_environment_key r) eqn:E; [done|]. cbn in H.
    destruct (IH _ H) as [Hf Hd]. split; [by constructor|]. rewrite Hd. set_solver.
Qed.

Lemma from_runtime_entry_ok agent runtime ctx l :
  from_runtime_entry agent runtime ctx = Ok l →
  LaunchSpec_validate l = Ok tt
  ∧ ls_agent_id l = spec_id agent
  ∧ ls_launch_id l = llc_launch_id ctx
  ∧ rr_runtime_id (ls_runtime l) = rce_id runtime
  ∧ ei_path (rr_executable (ls_runtime l)) = rce_command runtime
  ∧ ei_version (rr_executable (ls_runtime l)) = rce_version runtime
  ∧ rr_arguments (ls_runtime l) = rce_arguments runtime
  ∧ ls_environment l = with_default_kinds (rs_environment (spec_runtime agent))
  ∧ (∀ k, is_Some (rs_environment (spec_runtime agent) !! k) →
          reserved_harness_environment_key k = false)
  ∧ dom (ls_secret_environment l) =
      list_to_set (sr_environment_key <$> rce_required_secrets runtime).
Proof.
  unfold from_runtime_entry. intros H. step_in H.
  destruct (artifact_identity runtime) as [package_id sha256].
  destruct (resolve_required_secrets _ _ _) as [secrets|] eqn:Es; [|done].
  apply resolve_required_secrets_ok in Es as [_ Hd]. step_in H. injection H as <-.
  apply existsb_false_Forall in E. rewrite Forall_forall in E.
  cbn [ls_agent_id ls_launch_id ls_runtime ls_environment ls_secret_environment
       rr_runtime_id rr_executable rr_arguments ei_path ei_version].
  split_and!; try done.
  - destruct (LaunchSpec_validate _) as [[]|]; [done|discriminate E0].
  - intros k [v Hv]. by apply (E (k, v)), elem_of_btree_iter.
  - rewrite Hd. set_solver.
Qed.

Lemma with_default_kinds_lookup env k :
  with_default_kinds env !! k =
    match env !! k with
    | Some v => Some v
    | None => if bool_decide (k = HARNESS_KINDS_ENV) then Some DEFAULT_HARNESS_KINDS else None
    end.
Proof.
  unfold with_default_kinds. destruct (env !! HARNESS_KINDS_ENV) eqn:E.
  - case_bool_decide as Hk; [subst; by rewrite E|]. by destruct (env !! k).
  - rewrite lookup_insert. case_decide as Hk.
    + subst. by rewrite E, bool_decide_true.
    + rewrite bool_decide_false by congruence. by destruct (env !! k).
Qed.

(** A launch that validates has an identity that validates: what [start] relies on. *)
Lemma launch_identity_validate l :
  LaunchSpec_validate l = Ok tt → LaunchIdentity_validate (LaunchSpec_identity l) = Ok tt.
Proof.
  intros (_ & _ & Hr & Hh & Hrt & Hw & Hws & Hrp & Ha & He & Hs & Hre & Hhe & _)
    %launch_validate_steps.
  unfold LaunchIdentity_validate.
  cbn [LaunchSpec_identity li_role li_harness li_runtime li_harness_arguments
    li_working_directory li_workspace_path li_runtime_path li_environment
    li_secret_environment li_restart li_health].
  rewrite Hr, Hh, Hrt, Ha, Hw, Hws, Hrp, Hs, Hre, Hhe. cbn.
  rewrite validate_launch_environment_ok in He.
  match goal with |- context [for_each ?f ?l] => assert (for_each f l = Ok tt) as -> end; [|done].
  apply for_each_ok. intros [k v] Hin. apply elem_of_btree_iter in Hin.
  destruct (He k v Hin) as (H1 & H2 & H3). cbn. by rewrite H1, H2, H3.
Qed.

Lemma observed_terminal_final s s' :
  ObservedProcessState_is_terminal s = true →
  ObservedProcessState_can_transition_to s s' = true → s' = s.
Proof. by destruct s, s'. Qed.

Lemma can_adopt_spec l r :
  can_adopt l r = true ↔
  pr_launch_id r = ls_launch_id l ∧ pr_agent_id r = ls_agent_id l
  ∧ pr_process_group_id r = ls_process_group_id l
  ∧ pr_desired r = LaunchSpec_identity l ∧ 0 < pr_pid r
  ∧ ObservedProcessState_is_terminal (pr_observed_state r) = false.
Proof.
  unfold can_adopt. rewrite !andb_true_iff, !bool_decide_eq_true, negb_true_iff.
  rewrite Z.gtb_lt. tauto.
Qed.

Lemma observe_ok r s c r' :
  ProcessReceipt_observe r s c = Ok r' →
  r' = with_observation r s c
  ∧ ObservedProcessState_can_transition_to (pr_observed_state r) s = true
  ∧ (is_Some c → ObservedProcessState_is_terminal s = true).
Proof.
  unfold ProcessReceipt_observe. intros H. do 2 (step_in H). injection H as <-.
  apply negb_false_iff in E. split_and!; [done|done|]. intros [x ->]. cbn in E0.
  by apply negb_false_iff.
Qed.

(** ** Properties *)

(** A resolved launch is exactly the agent's intent against the pinned catalog
    entry. It targets the agent, runs the command and version of the one entry with the
    agent's runtime identifier, carries every configured environment value and nothing
    else but the default kinds, never a reserved harness variable, takes its secrets from
    the entry's requirements, keeps secret and plain variables apart, and validates. *)
Theorem resolved_launch_matches_intent (agent : AgentSpec) (catalog : list RuntimeCatalogEntry)
    (ctx : LocalLaunchContext) (l : LaunchSpec) :
  resolve_local agent catalog ctx = Ok l →
  LaunchSpec_validate l = Ok tt
  ∧ ls_agent_id l = spec_id agent
  ∧ (∃ entry, RuntimeCatalog_get catalog (rs_runtime_id (spec_runtime agent)) = Some entry
       ∧ ei_path (rr_executable (ls_runtime l)) = rce_command entry
       ∧ ei_version (rr_executable (ls_runtime l)) = rce_version entry
       ∧ unpinned_version (rce_version entry) = false
       ∧ dom (ls_secret_environment l)
           = list_to_set (sr_environment_key <$> rce_required_secrets entry))
  ∧ (∀ k v, ls_environment l !! k = Some v ↔
       rs_environment (spec_runtime agent) !! k = Some v
       ∨ (k = HARNESS_KINDS_ENV ∧ v = DEFAULT_HARNESS_KINDS
          ∧ rs_environment (spec_runtime agent) !! k = None))
  ∧ (∀ k, is_Some (ls_environment l !! k) → reserved_harness_environment_key k = false)
  ∧ (∀ k, is_Some (ls_environment l !! k) → ls_secret_environment l !! k = None).
Proof.
  unfold resolve_local. intros H. do 3 (step_in H). drop_units.
  destruct (RuntimeCatalog_validate catalog) as [[]|] eqn:Hcat; [|discriminate E0].
  unfold RuntimeCatalog_require in E1.
  destruct (RuntimeCatalog_get catalog _) as [entry|] eqn:Hget; [|discriminate E1].
  cbn in E1. injection E1 as <-.
  apply from_runtime_entry_ok in H as (Hv & Hid & _ & _ & Hp & Hver & _ & Henv & Hres & Hsec).
  assert (∀ k v, ls_environment l !! k = Some v ↔
       rs_environment (spec_runtime agent) !! k = Some v
       ∨ (k = HARNESS_KINDS_ENV ∧ v = DEFAULT_HARNESS_KINDS
          ∧ rs_environment (spec_runtime agent) !! k = None)) as Hkv.
  { intros k v. rewrite Henv, with_default_kinds_lookup.
    destruct (rs_environment (spec_runtime agent) !! k); [naive_solver|].
    case_bool_decide; naive_solver. }
  split_and!; [done|done| |done| |].
  - exists entry. split_and!; try done. apply entry_validate_pinned.
    destruct (validate_runtimes_ok _ _ Hcat) as [Hf _]. rewrite Forall_forall in Hf.
    apply catalog_get_spec in Hget as [Hin _]. by destruct (Hf entry Hin).
  - intros k [v Hk]. apply Hkv in Hk as [Hk|(-> & _)]; [|done]. apply Hres. eauto.
  - intros k [v Hk]. apply launch_validate_steps in Hv as (_&_&_&_&_&_&_&_&_&He&_).
    rewrite validate_launch_environment_ok in He. by destruct (He k v Hk) as (_ & _ & ?).
Qed.

Definition sample_agent : AgentSpec :=
  mkAgentSpec (mkAgentId 7) (mkCommunityConfigId 1) "Build agent" "Help."
    (mkRuntimeSpec codex_id {["CODEX_HOME" := "/state"]}) Enabled.
Definition sample_context : LocalLaunchContext :=
  mkLocalLaunchContext "agent-7" (mkExecutableIdentity "/opt/sprig/buzz-acp" "sprig" "0.9.1" None)
    [] "/srv/ws" "/srv/ws" "/srv/rt" "agent-7" (mkRestartPolicy Never 0 0 0 0) (HealthProcess 500).
Definition sample_launch : LaunchSpec :=
  match resolve_local sample_agent [sample_runtime] sample_context with
  | Ok l => l
  | Err _ => mkLaunchSpec "" (mkAgentId 0) AgentRuntime (llc_harness sample_context) []
      (mkResolvedRuntime codex_id (llc_harness sample_context) [] None) ∅ ∅ "" "" "" ""
      (llc_restart sample_context) (llc_health sample_context)
  end.

Lemma sample_launch_resolves :
  resolve_local sample_agent [sample_runtime] sample_context = Ok sample_launch.
Proof. vm_compute. reflexivity. Qed.

Lemma resolved_launch_matches_intent_witness :
  resolve_local sample_agent [sample_runtime] sample_context = Ok sample_launch
  ∧ ls_agent_id sample_launch = mkAgentId 7
  ∧ ls_environment sample_launch !! "BUZZ_ACP_KINDS" = Some "9,46010,40007".
Proof.
  assert (resolve_local sample_agent [sample_runtime] sample_context = Ok sample_launch) as Hr
    by (vm_compute; reflexivity).
  destruct (resolved_launch_matches_intent _ _ _ _ Hr) as (_ & Hid & _ & Henv & _).
  split_and!; [exact Hr|exact Hid|]. apply Henv. right. split_and!; reflexivity.
Defined.

(** the harness environment of a launch that validates encodes the runtime command
    and its arguments without loss: splitting the comma-joined value gives the same
    argument list back. *)
Theorem harness_arguments_round_trip (l : LaunchSpec) :
  LaunchSpec_validate l = Ok tt →
  ∃ env, harness_runtime_environment l = Ok env
    ∧ env !! HARNESS_AGENT_COMMAND_ENV = Some (ei_path (rr_executable (ls_runtime l)))
    ∧ ∃ joined, env !! HARNESS_AGENT_ARGS_ENV = Some joined
       ∧ (rr_arguments (ls_runtime l) ≠ [] → split_char "," joined = rr_arguments (ls_runtime l))
       ∧ (rr_arguments (ls_runtime l) = [] → joined = "").
Proof.
  intros Hv. apply launch_validate_steps in Hv.
  destruct Hv as (_&_&_&_&_&_&_&_&_&_&_&_&_&Hok).
  unfold harness_runtime_environment in *. destruct (existsb _ _) eqn:E; [done|].
  apply existsb_false_Forall in E. eexists. split; [done|]. split; [by simplify_map_eq|].
  eexists. split; [by simplify_map_eq|]. split.
  - intros Hne. by apply split_join.
  - by intros ->.
Qed.

Lemma harness_arguments_round_trip_witness :
  LaunchSpec_validate sample_launch = Ok tt
  ∧ ∃ env, harness_runtime_environment sample_launch = Ok env.
Proof.
  assert (LaunchSpec_validate sample_launch = Ok tt) as Hv by (vm_compute; reflexivity).
  split; [exact Hv|].
  destruct (harness_arguments_round_trip _ Hv) as (env & He & _). exists env. exact He.
Defined.

(** Adoption is exact. A receipt is adoptable by at most one launch specification
    (every execution-affecting field, the agent and the launch and group identities
    agree), and an adoptable receipt names a process that has not ended. *)
Theorem adoption_is_exact (l1 l2 : LaunchSpec) (r : ProcessReceipt) :
  can_adopt l1 r = true → can_adopt l2 r = true →
  l1 = l2 ∧ ObservedProcessState_is_terminal (pr_observed_state r) = false ∧ pr_pid r ≠ 0.
Proof.
  intros (H1 & H2 & H3 & H4 & H5 & H6)%can_adopt_spec (G1 & G2 & G3 & G4 & _)%can_adopt_spec.
  split_and!; [|done|lia]. rewrite H4 in G4. rewrite H1 in G1. rewrite H2 in G2.
  rewrite H3 in G3. clear H1 H2 H3 H4 H5 H6.
  destruct l1, l2; unfold LaunchSpec_identity in G4; cbn in G1, G2, G3, G4; subst.
  injection G4. intros. subst. done.
Qed.

Definition sample_receipt (l : LaunchSpec) (pid : Z) (s : ObservedProcessState) : ProcessReceipt :=
  mkProcessReceipt (ls_launch_id l) None (ls_agent_id l) (ls_process_group_id l)
    (LaunchSpec_identity l) pid 1000 (Some 77) (Some (ei_path (ls_harness l))) s None None None
    None None Unset None.

Lemma adoption_is_exact_witness :
  can_adopt sample_launch (sample_receipt sample_launch 42 Healthy) = true
  ∧ pr_pid (sample_receipt sample_launch 42 Healthy) ≠ 0.
Proof.
  assert (can_adopt sample_launch (sample_receipt sample_launch 42 Healthy) = true) as Ha
    by (vm_compute; reflexivity).
  split; [exact Ha|]. exact (proj2 (proj2 (adoption_is_exact _ _ _ Ha Ha))).
Defined.

(** Observing a process keeps its receipt valid, changes nothing but the observed
    state and exit code, follows the process state machine, and never moves a process
    that has exited or been lost. *)
Theorem observe_preserves_receipt (r r' : ProcessReceipt) (s : ObservedProcessState)
    (exit_code : option Z) :
  ProcessReceipt_validate r = Ok tt →
  ProcessReceipt_observe r s exit_code = Ok r' →
  ProcessReceipt_validate r' = Ok tt
  ∧ pr_observed_state r' = s ∧ pr_exit_code r' = exit_code
  ∧ pr_desired r' = pr_desired r ∧ pr_pid r' = pr_pid r ∧ pr_agent_id r' = pr_agent_id r
  ∧ (ObservedProcessState_is_terminal (pr_observed_state r) = true → s = pr_observed_state r).
Proof.
  intros Hv (-> & Ht & Hc)%observe_ok. split_and!; try done.
  - unfold ProcessReceipt_validate in *. cbn [with_observation pr_launch_id pr_process_group_id
      pr_desired pr_pid pr_process_start_ticks pr_command_path pr_exit_code pr_observed_state].
    do 6 (step_in Hv). destruct exit_code; [|done]. by rewrite Hc.
  - intros Hterm. by apply observed_terminal_final.
Qed.

Lemma observe_preserves_receipt_witness :
  ∃ r', ProcessReceipt_observe (sample_receipt sample_launch 42 Healthy) Exited (Some 1) = Ok r'
        ∧ ProcessReceipt_validate r' = Ok tt.
Proof.
  destruct (ProcessReceipt_observe (sample_receipt sample_launch 42 Healthy) Exited (Some 1))
    as [r'|] eqn:E; [|discriminate E].
  exists r'. split; [reflexivity|].
  refine (proj1 (observe_preserves_receipt _ _ _ _ _ E)). vm_compute. reflexivity.
Defined.
