(* ===== verification/Auth.v ===== *)
(** * Authentication and authorization (src/src/auth.rs)
    Principals, the capability matrix, Unix-peer and NIP-98 authentication. The
    [nostr] event type is the record of the fields the code reads; JSON decoding and
    signature verification are parameters, and the replay store is an interface. *)
From stdpp Require Import base gmap strings list.
From Stdlib Require Import ZArith Lia String.
From S2P Require Import Prelude RustStr Lifecycle.

Inductive Authority := Administrator | DraftSubmitter.

Inductive Principal :=
| UnixPeer (uid gid : Z) (pid : option Z)
| Nip98 (pubkey : string).

Inductive PrincipalOwnership :=
| UnixUid (uid : Z)
| NostrPubkey (pubkey : string).

Record AuthenticatedPrincipal := mkAuthenticatedPrincipal {
  ap_principal : Principal;
  ap_authority : Authority
}.

Inductive Capability :=
| ReadCommunity | ManageCommunity | ReadAgent | CapCreateAgent | CapUpdateAgent
| ChangeAgentState | CapDeleteAgent | CapPurgeAgent | SubmitDraft | ReadDraft | PromoteDraft.

Inductive AuthorizationError := AuthForbidden | NotOwner.

Inductive AuthenticationError :=
| UnknownPrincipal | MalformedProof | InvalidSignature | RequestMismatch | Stale | Replay.

#[export] Instance Authority_eq_dec : EqDecision Authority.
Proof. solve_decision. Defined.
#[export] Instance PrincipalOwnership_eq_dec : EqDecision PrincipalOwnership.
Proof. solve_decision. Defined.
#[export] Instance Capability_eq_dec : EqDecision Capability.
Proof. solve_decision. Defined.

Definition ownership_key (p : Principal) : PrincipalOwnership :=
  match p with
  | UnixPeer uid _ _ => UnixUid uid
  | Nip98 pubkey => NostrPubkey pubkey
  end.

Definition authorize (actor : AuthenticatedPrincipal) (capability : Capability)
    (owner : option PrincipalOwnership) : result AuthorizationError unit :=
  if bool_decide (ap_authority actor = Administrator) then Ok tt
  else match capability with
  | SubmitDraft => Ok tt
  | ReadDraft =>
    if bool_decide (owner = Some (ownership_key (ap_principal actor))) then Ok tt
    else Err NotOwner
  | ReadCommunity | ManageCommunity | ReadAgent | CapCreateAgent | CapUpdateAgent
  | ChangeAgentState | CapDeleteAgent | CapPurgeAgent | PromoteDraft => Err AuthForbidden
  end.

Record UnixPeerCredentials := mkUnixPeerCredentials {
  cred_uid : Z; cred_gid : Z; cred_pid : option Z
}.

Record UnixAuthorityPolicy := mkUnixAuthorityPolicy {
  administrator_uids : list Z;
  draft_submitter_uids : list Z
}.

Definition UnixAuthorityPolicy_authenticate (self : UnixAuthorityPolicy)
    (credentials : UnixPeerCredentials) : result AuthenticationError AuthenticatedPrincipal :=
  let? authority :=
    (if bool_decide (cred_uid credentials ∈ administrator_uids self) then Ok Administrator
     else if bool_decide (cred_uid credentials ∈ draft_submitter_uids self)
     then Ok DraftSubmitter
     else Err UnknownPrincipal) in
  Ok (mkAuthenticatedPrincipal
        (UnixPeer (cred_uid credentials) (cred_gid credentials) (cred_pid credentials)) authority).

(** ** NIP-98 *)
Record Event := mkEvent {
  ev_id : string;
  ev_pubkey : string;
  ev_kind : Z;
  ev_created_at : Z;
  ev_tags : list (list string);
  ev_content : string
}.

(** What authentication needs of the store of used event identifiers: [claim] is
    true only for an identifier that is not held yet. *)
Class ReplayGuard (G : Type) := {
  claim : string → Z → G → G * bool
}.

Record Nip98AuthorityPolicy := mkNip98AuthorityPolicy {
  administrator_pubkeys : list string;
  draft_submitter_pubkeys : list string;
  freshness_seconds : Z
}.

(** [tag_value(name)]: the second element of the first tag named [name] that has one. *)
Fixpoint tag_value (name : string) (tags : list (list string)) : option string :=
  match tags with
  | [] => None
  | (n :: v :: _) :: tags' => if String.eqb n name then Some v else tag_value name tags'
  | _ :: tags' => tag_value name tags'
  end.

Definition nip98_freshness (self : Nip98AuthorityPolicy) : Z := Z.max (freshness_seconds self) 1.

Definition nip98_authority (self : Nip98AuthorityPolicy) (pubkey : string)
    : result AuthenticationError Authority :=
  if bool_decide (pubkey ∈ administrator_pubkeys self) then Ok Administrator
  else if bool_decide (pubkey ∈ draft_submitter_pubkeys self) then Ok DraftSubmitter
  else Err UnknownPrincipal.

Section Nip98.
(** [serde_json::from_str::<Event>] and [buzz_core::verify_event]. *)
Variable parse_event : string → option Event.
Variable verify_event : Event → bool.
Context {G : Type} `{ReplayGuard G}.

(** The checks before the replay claim. *)
Definition nip98_check (self : Nip98AuthorityPolicy) (event_json method url : string)
    (payload_hash : option string) (now : Z)
    : result AuthenticationError (Event * Authority) :=
  let? event := ok_or MalformedProof (parse_event event_json) in
  if negb (verify_event event) then Err InvalidSignature
  else if negb (ev_kind event =? 27235) then Err RequestMismatch
  else if Z.abs (ev_created_at event - now) >? nip98_freshness self then Err Stale
  else if negb (bool_decide (tag_value "u" (ev_tags event) = Some url))
       || negb (bool_decide (tag_value "method" (ev_tags event) = Some method))
       || is_some_and payload_hash
            (λ hash, negb (bool_decide (tag_value "payload" (ev_tags event) = Some hash)))
  then Err RequestMismatch
  else
  let? authority := nip98_authority self (ev_pubkey event) in
  Ok (event, authority).

Definition Nip98AuthorityPolicy_authenticate (self : Nip98AuthorityPolicy)
    (event_json method url : string) (payload_hash : option string) (now : Z) (replay : G)
    : G * result AuthenticationError AuthenticatedPrincipal :=
  match nip98_check self event_json method url payload_hash now with
  | Err e => (replay, Err e)
  | Ok (event, authority) =>
    let '(replay, fresh) := claim (ev_id event)
      (u64_saturating_add (ev_created_at event) (nip98_freshness self)) replay in
    if negb fresh then (replay, Err Replay)
    else (replay, Ok (mkAuthenticatedPrincipal (Nip98 (ev_pubkey event)) authority))
  end.

(** ** Lemmas *)
Lemma nip98_check_ok self json method url payload now event authority :
  nip98_check self json method url payload now = Ok (event, authority) →
  parse_event json = Some event ∧ verify_event event = true ∧ ev_kind event = 27235
  ∧ Z.abs (ev_created_at event - now) ≤ nip98_freshness self
  ∧ tag_value "u" (ev_tags event) = Some url ∧ tag_value "method" (ev_tags event) = Some method
  ∧ (∀ h, payload = Some h → tag_value "payload" (ev_tags event) = Some h)
  ∧ nip98_authority self (ev_pubkey event) = Ok authority.
Proof.
  unfold nip98_check. intros Hc. destruct (parse_event json) as [ev|]; [|done]. cbn in Hc.
  do 5 (step_in Hc). injection Hc as -> ->.
  apply negb_false_iff in E, E0. rewrite !orb_false_iff, !negb_false_iff in E2.
  destruct E2 as [[Hu Hm] Hp]. apply bool_decide_eq_true in Hu, Hm.
  split_and!; try done; [lia|lia|]. intros h ->. cbn in Hp.
  by apply negb_false_iff, bool_decide_eq_true in Hp.
Qed.

(** ** Properties *)

(** A NIP-98 proof is accepted only if it decodes and its signature verifies, is an
    HTTP authentication event within the freshness window, names this URL, method and
    (when there is one) payload hash, is signed by a configured key, and its event
    identifier was claimed just now; the authority granted is the configured one. *)
Theorem nip98_acceptance (self : Nip98AuthorityPolicy) (json method url : string)
    (payload : option string) (now : Z) (g g' : G) (p : AuthenticatedPrincipal) :
  Nip98AuthorityPolicy_authenticate self json method url payload now g = (g', Ok p) →
  ∃ event,
    parse_event json = Some event ∧ verify_event event = true ∧ ev_kind event = 27235
    ∧ Z.abs (ev_created_at event - now) ≤ Z.max (freshness_seconds self) 1
    ∧ tag_value "u" (ev_tags event) = Some url
    ∧ tag_value "method" (ev_tags event) = Some method
    ∧ (∀ h, payload = Some h → tag_value "payload" (ev_tags event) = Some h)
    ∧ ap_principal p = Nip98 (ev_pubkey event)
    ∧ (ap_authority p = Administrator ↔ ev_pubkey event ∈ administrator_pubkeys self)
    ∧ (ap_authority p = DraftSubmitter →
         ev_pubkey event ∈ draft_submitter_pubkeys self
         ∧ ev_pubkey event ∉ administrator_pubkeys self)
    ∧ claim (ev_id event)
        (u64_saturating_add (ev_created_at event) (nip98_freshness self)) g = (g', true).
Proof.
  unfold Nip98AuthorityPolicy_authenticate.
  destruct (nip98_check _ _ _ _ _ _) as [[event authority]|] eqn:Ec; [|done].
  apply nip98_check_ok in Ec as (H1 & H2 & H3 & H4 & H5 & H6 & H7 & Hauth).
  destruct (claim _ _ _) as [g'' fresh] eqn:Ecl. destruct fresh; [|done]. cbn.
  intros [= -> <-]. exists event. cbn. unfold nip98_authority in Hauth.
  repeat case_bool_decide; simplify_eq; naive_solver.
Qed.
End Nip98.

(** A guard that remembers every identifier, for examples. *)
#[export] Instance set_replay_guard : ReplayGuard (gset string) := {|
  claim id _ g := if bool_decide (id ∈ g) then (g, false) else ({[id]} ∪ g, true)
|}.

Definition sample_event : Event :=
  mkEvent "e1" "alice" 27235 1000
    [["u"; "https://host/v1"]; ["method"; "POST"]; ["payload"; "sha"]] "".
Definition sample_policy : Nip98AuthorityPolicy := mkNip98AuthorityPolicy ["alice"] ["bob"] 60.

Lemma nip98_acceptance_witness :
  ∃ g' p, Nip98AuthorityPolicy_authenticate (λ _, Some sample_event) (λ _, true) sample_policy
      "{}" "POST" "https://host/v1" (Some "sha") 1030 (∅ : gset string) = (g', Ok p)
    ∧ ap_principal p = Nip98 "alice".
Proof.
  destruct (Nip98AuthorityPolicy_authenticate (λ _, Some sample_event) (λ _, true) sample_policy
      "{}" "POST" "https://host/v1" (Some "sha") 1030 (∅ : gset string)) as [g' [p|e]] eqn:E;
    [|vm_compute in E; discriminate E].
  exists g', p. split; [reflexivity|].
  destruct (nip98_acceptance _ _ _ _ _ _ _ _ _ _ _ E)
    as (ev & Hev & _ & _ & _ & _ & _ & _ & Hp & _).
  injection Hev as <-. exact Hp.
Defined.

(** The capability matrix. An administrator may do everything; a draft submitter
    may only submit drafts and read the drafts of its own stable identity, which does
    not depend on the process it connects from. *)
Theorem authorization_matrix (actor : AuthenticatedPrincipal) (c : Capability)
    (owner : option PrincipalOwnership) :
  authorize actor c owner = Ok tt ↔
  ap_authority actor = Administrator
  ∨ c = SubmitDraft
  ∨ (c = ReadDraft ∧ owner = Some (ownership_key (ap_principal actor))).
Proof.
  unfold authorize. case_bool_decide as Ha; [naive_solver|].
  destruct c; try naive_solver. case_bool_decide; naive_solver.
Qed.
