(* ===== verification/ApiTypes.v ===== *)
(** * Lifecycle API contracts (src/src/api.rs, the request and resource types)
    Requests, resources, their validation, and the application error type. *)
From stdpp Require Import base gmap strings list.
From Stdlib Require Import ZArith Lia String.
From S2P Require Import Prelude RustStr Ids Lifecycle Agent Auth.

Record JoinCommunityRequest := mkJoinCommunityRequest {
  jc_display_name : string; jc_relay_url : Url; jc_identity_pubkey : string
}.
Record UpdateCommunityRequest := mkUpdateCommunityRequest {
  uc_community_id : CommunityConfigId; uc_display_name : string
}.
Record CommandMetadata := mkCommandMetadata {
  md_idempotency_key : string; md_correlation_id : string
}.
Record CreatePersonaRequest := mkCreatePersonaRequest {
  cp_display_name : string; cp_system_prompt : string; cp_runtime : option RuntimeId
}.
Record UpdatePersonaInput := mkUpdatePersonaInput {
  upi_display_name : option string; upi_system_prompt : option string;
  upi_runtime : option RuntimeId
}.
Record UpdatePersonaRequest := mkUpdatePersonaRequest {
  up_persona_id : string; up_changes : UpdatePersonaInput
}.
Record CreateAgentInput := mkCreateAgentInput {
  cai_community : CommunityConfigId;
  cai_display_name : string;
  cai_persona_id : option string;
  cai_system_prompt : option string;
  cai_system_prompt_file : option string;
  cai_runtime_id : option RuntimeId;
  cai_filesystem_user : option string
}.
Record CreateAgentRequest := mkCreateAgentRequest {
  car_metadata : CommandMetadata; car_agent : CreateAgentInput
}.
Record UpdateAgentInput := mkUpdateAgentInput {
  uai_display_name : option string;
  uai_system_prompt : option string;
  uai_system_prompt_file : option string;
  uai_runtime_id : option RuntimeId;
  uai_filesystem_user : option string
}.
Record UpdateAgentRequest := mkUpdateAgentRequest {
  uar_metadata : CommandMetadata; uar_agent_id : AgentId; uar_changes : UpdateAgentInput
}.
Record ChangeAgentStateRequest := mkChangeAgentStateRequest {
  csr_metadata : CommandMetadata; csr_agent_id : AgentId; csr_desired_state : DesiredAgentState
}.
Record AgentCommandRequest := mkAgentCommandRequest {
  acr_metadata : CommandMetadata; acr_agent_id : AgentId
}.
Record SubmitDraftRequest := mkSubmitDraftRequest {
  sdr_metadata : CommandMetadata; sdr_agent : CreateAgentInput
}.
Record PromoteDraftRequest := mkPromoteDraftRequest {
  pdr_metadata : CommandMetadata; pdr_draft_id : string
}.
Record AgentResource := mkAgentResource {
  ar_id : AgentId;
  ar_community : CommunityConfigId;
  ar_display_name : string;
  ar_system_prompt : string;
  ar_system_prompt_file : option string;
  ar_runtime_id : RuntimeId;
  ar_desired_state : DesiredAgentState;
  ar_purge_after : option Z;
  ar_public_key : option string
}.
Record DraftResource := mkDraftResource {
  dr_id : string; dr_owner : PrincipalOwnership; dr_agent : CreateAgentInput
}.
Record OperationResource := mkOperationResource {
  or_id : OperationId;
  or_kind : OperationKind;
  or_status : OperationStatus;
  or_agent_id : option AgentId;
  or_correlation_id : string;
  or_error_code : option ErrorCode;
  or_created_at : Z;
  or_updated_at : Z
}.
Record ListAgentsRequest := mkListAgentsRequest {
  lar_community : option CommunityConfigId; lar_include_deleted : bool
}.
Record AgentLogsRequest := mkAgentLogsRequest {
  alr_agent_id : AgentId; alr_after_cursor : option string; alr_limit : Z
}.
Record RedactedLogEntry := mkRedactedLogEntry {
  rl_cursor : string; rl_occurred_at : Z; rl_stream : string; rl_redacted_message : string
}.
Record AgentLogsResource := mkAgentLogsResource {
  al_entries : list RedactedLogEntry; al_next_cursor : option string
}.

#[export] Instance UpdateAgentInput_eq_dec : EqDecision UpdateAgentInput.
Proof. solve_decision. Defined.
#[export] Instance UpdatePersonaInput_eq_dec : EqDecision UpdatePersonaInput.
Proof. solve_decision. Defined.

Inductive ApplicationError :=
| AppNotFound
| AppForbidden (message : string)
| AppUnavailable (message : string)
| AppConflict (message : string)
| AppInvalid (e : ValidationError)
| AppUnsupported
| AppInternal.

Definition validate_token (field value : string) (max_chars : Z)
    : result ValidationError unit :=
  if str_is_empty (trim value) then Err (mkValidationError field "must not be empty")
  else if chars_count value >? max_chars
  then Err (mkValidationError field (at_most_message max_chars))
  else Ok tt.

Definition CommandMetadata_validate (self : CommandMetadata) : result ValidationError unit :=
  let? _ := validate_token "idempotency_key" (md_idempotency_key self) 200 in
  validate_token "correlation_id" (md_correlation_id self) 200.

Definition CreateAgentInput_validate (self : CreateAgentInput) : result ValidationError unit :=
  let? _ := validate_token "display_name" (cai_display_name self) 120 in
  let? _ := (match cai_system_prompt self with
             | Some prompt =>
               let? _ := (if option_is_none (cai_system_prompt_file self)
                          then validate_token "system_prompt" prompt 65536 else Ok tt) in
               if prompt_too_long prompt
               then Err (mkValidationError "system_prompt"
                           "must be at most 65536 NUL-free characters")
               else Ok tt
             | None => Ok tt
             end) in
  let? _ := (match cai_system_prompt_file self with
             | Some path =>
               let? _ := validate_token "system_prompt_file" path 4096 in
               if negb (path_is_absolute path)
               then Err (mkValidationError "system_prompt_file" "must be an absolute path")
               else Ok tt
             | None => Ok tt
             end) in
  if option_is_some (cai_persona_id self) && option_is_some (cai_system_prompt self)
  then Err (mkValidationError "system_prompt"
              "is defined by the selected persona; omit --system-prompt")
  else if option_is_some (cai_persona_id self) && option_is_some (cai_system_prompt_file self)
  then Err (mkValidationError "system_prompt_file"
              "is defined by the selected persona; omit --system-prompt-file")
  else if option_is_none (cai_persona_id self) && option_is_none (cai_runtime_id self)
  then Err (mkValidationError "runtime_id" "is required when no persona is selected")
  else Ok tt.

Definition UpdateAgentInput_default : UpdateAgentInput :=
  mkUpdateAgentInput None None None None None.
Definition UpdatePersonaInput_default : UpdatePersonaInput :=
  mkUpdatePersonaInput None None None.

Definition UpdateAgentInput_validate (self : UpdateAgentInput) : result ValidationError unit :=
  let? _ := (match uai_display_name self with
             | Some value => validate_token "display_name" value 120
             | None => Ok tt
             end) in
  let? _ := (match uai_system_prompt self with
             | Some value =>
               if prompt_too_long value
               then Err (mkValidationError "system_prompt"
                           "must be at most 65536 NUL-free characters")
               else Ok tt
             | None => Ok tt
             end) in
  match uai_system_prompt_file self with
  | Some value =>
    let? _ := validate_token "system_prompt_file" value 4096 in
    if negb (path_is_absolute value)
    then Err (mkValidationError "system_prompt_file" "must be an absolute path")
    else Ok tt
  | None => Ok tt
  end.

(** ** Mapping errors to the wire *)
Definition api_validation (error : ValidationError) : ApiError := ApiError_validation error.

Definition api_authorization (error : AuthorizationError) : ApiError :=
  mkApiError EC_Forbidden
    (match error with
     | AuthForbidden => "operation is not permitted"
     | NotOwner => "resource is not owned by the principal"
     end) None.

Definition api_application (error : ApplicationError) : ApiError :=
  match error with
  | AppNotFound => mkApiError EC_NotFound "resource not found" None
  | AppForbidden message => mkApiError EC_Forbidden message None
  | AppUnavailable message => mkApiError EC_Unavailable message None
  | AppConflict message => mkApiError EC_Conflict message None
  | AppInvalid error => ApiError_validation error
  | AppUnsupported => mkApiError EC_Unsupported "operation is unsupported" None
  | AppInternal => mkApiError EC_Internal "internal service error" None
  end.
