(* ===== verification/Schema.v ===== *)
(** * Database schema (src/migrations/*.sql, the record types of src/src/storage.rs)
    The tables [SqliteStore] keeps, as one record of finite maps and logs, and the SQL
    statements with their primary-key, unique and foreign-key behaviour. Columns hold
    decoded values: identifiers print and parse without loss (file Ids) and documents
    are serde_json round trips. *)
From stdpp Require Import base gmap strings list.
From Stdlib Require Import ZArith Lia String.
From S2P Require Import Prelude RustStr Ids Lifecycle Agent Auth ApiTypes.

(** ** Errors *)
(** The extended SQLite result codes the statements below can end in. *)
Inductive SqliteError :=
| ConstraintForeignKey
| ConstraintPrimaryKey
| ConstraintUnique
| ConstraintTrigger
| QueryReturnedNoRows
| ToSqlConversionFailure.

Inductive StorageError :=
| Database (e : SqliteError)
| InvalidData (message : string)
| StNotFound
| StConflict (message : string)
| LockPoisoned.

Definition map_constraint (error : SqliteError) : StorageError :=
  match error with
  | ConstraintForeignKey | ConstraintPrimaryKey | ConstraintUnique =>
    StConflict "constraint violation"
  | other => Database other
  end.

Definition ApplicationError_from (error : StorageError) : ApplicationError :=
  match error with
  | StNotFound => AppNotFound
  | StConflict message => AppConflict message
  | InvalidData _ | Database _ | LockPoisoned => AppInternal
  end.

(** ** Rows *)
Record DurableOperation := mkDurableOperation {
  op_id : OperationId;
  op_kind : OperationKind;
  op_status : OperationStatus;
  op_agent_id : option AgentId;
  op_error_code : option ErrorCode;
  op_created_at : Z;
  op_updated_at : Z;
  op_correlation_id : string
}.

Record AuditRecord := mkAuditRecord {
  au_sequence : Z;
  au_occurred_at : Z;
  au_actor_principal : string;
  au_authentication_method : string;
  au_community : option CommunityConfigId;
  au_operation_id : option OperationId;
  au_correlation_id : string;
  au_idempotency_key : option string;
  au_action : string;
  au_subject_type : string;
  au_subject_id : option string;
  au_outcome : string;
  au_detail : option string
}.

Record NewAuditRecord := mkNewAuditRecord {
  na_occurred_at : Z;
  na_actor_principal : string;
  na_authentication_method : string;
  na_community : option CommunityConfigId;
  na_operation_id : option OperationId;
  na_correlation_id : string;
  na_idempotency_key : option string;
  na_action : string;
  na_subject_type : string;
  na_subject_id : option string;
  na_outcome : string;
  na_redacted_detail : option string
}.

Inductive RelayProjectionKind := ManagedAgent | Persona.
Definition RelayProjectionKind_as_str (k : RelayProjectionKind) : string :=
  match k with ManagedAgent => "managed_agent" | Persona => "persona" end.

Inductive RelayPublicationAction :=
| SyncManagedAgent | SyncPersona | TombstoneManagedAgent | ArchiveIdentity | TombstonePersona.
Definition RelayPublicationAction_as_str (a : RelayPublicationAction) : string :=
  match a with
  | SyncManagedAgent => "sync_managed_agent"
  | SyncPersona => "sync_persona"
  | TombstoneManagedAgent => "tombstone_managed_agent"
  | ArchiveIdentity => "archive_identity"
  | TombstonePersona => "tombstone_persona"
  end.
Definition RelayPublicationAction_parse (value : string)
    : result StorageError RelayPublicationAction :=
  if String.eqb value "sync_managed_agent" then Ok SyncManagedAgent
  else if String.eqb value "sync_persona" then Ok SyncPersona
  else if String.eqb value "tombstone_managed_agent" then Ok TombstoneManagedAgent
  else if String.eqb value "archive_identity" then Ok ArchiveIdentity
  else if String.eqb value "tombstone_persona" then Ok TombstonePersona
  else Err (InvalidData (String.append "unknown relay publication action " value)).

Record RelayProjectionScope := mkRelayProjectionScope {
  sc_community : CommunityConfigId;
  sc_relay_url : string;
  sc_owner_pubkey : string;
  sc_d_tag : string
}.

Record RelayPublication := mkRelayPublication {
  rp_id : string;
  rp_action : RelayPublicationAction;
  rp_community : option CommunityConfigId;
  rp_relay_url : string;
  rp_owner_pubkey : string;
  rp_subject_id : string;
  rp_d_tag : string;
  rp_attempts : Z
}.

Record IdempotencyRecord := mkIdempotencyRecord {
  ir_scope : string;
  ir_key : string;
  ir_request_hash : string;
  ir_operation_id : OperationId;
  ir_created_at : Z
}.

Record ReconciliationJournalEntry := mkReconciliationJournalEntry {
  rj_occurred_at : Z;
  rj_actor : string;
  rj_operation_id : option OperationId;
  rj_correlation_id : option string;
  rj_agent_id : option AgentId;
  rj_launch_id : option string;
  rj_stage : string;
  rj_desired_state : option string;
  rj_observed_state : option string;
  rj_outcome : string;
  rj_reason : option string;
  rj_pid : option Z;
  rj_process_start_ticks : option Z;
  rj_command_path : option string;
  rj_exit_code : option Z;
  rj_follow_up : option string
}.

Record HealthHistoryEntry := mkHealthHistoryEntry {
  hh_occurred_at : Z;
  hh_agent_id : AgentId;
  hh_launch_id : string;
  hh_workspace : string;
  hh_supervisor_pid : Z;
  hh_process_start_ticks : option Z;
  hh_command_path : option string;
  hh_observed_state : string;
  hh_exit_code : option Z
}.

Inductive AgentCommandMutation :=
| MutCreate (agent : AgentSpec)
| MutUpdate (id : AgentId) (changes : UpdateAgentInput)
| MutSetState (id : AgentId) (desired_state : DesiredAgentState) (retention_deadline : option Z).

Record AgentRetention := mkAgentRetention { ret_deleted_at : Z; ret_purge_after : Z }.

Record CommunityRow := mkCommunityRow { crow_document : CommunityConfig; crow_updated_at : Z }.
Record AgentRow := mkAgentRow {
  arow_community : CommunityConfigId; arow_document : AgentSpec; arow_updated_at : Z
}.
Record IdempotencyRow := mkIdempotencyRow {
  ik_request_hash : string; ik_operation_id : OperationId; ik_created_at : Z
}.
Record DraftRow := mkDraftRow {
  drow_owner_key : PrincipalOwnership;
  drow_document : DraftResource;
  drow_promoted_operation_id : option OperationId;
  drow_created_at : Z;
  drow_updated_at : Z
}.
Record DraftIdempotencyRow := mkDraftIdempotencyRow {
  dk_request_hash : string; dk_draft_id : string; dk_created_at : Z
}.
Record LogRow := mkLogRow {
  log_sequence : Z; log_agent_id : AgentId; log_entry : RedactedLogEntry
}.
Record TombstoneRow := mkTombstoneRow { tb_purged_at : Z; tb_purge_operation_id : OperationId }.
Record ProjectionRow := mkProjectionRow {
  pj_relay_url : string; pj_owner_pubkey : string; pj_d_tag : string; pj_updated_at : Z
}.
Record OutboxRow := mkOutboxRow {
  ob_action : string;
  ob_community : option CommunityConfigId;
  ob_relay_url : string;
  ob_owner_pubkey : string;
  ob_subject_id : string;
  ob_d_tag : string;
  ob_created_at : Z;
  ob_updated_at : Z;
  ob_attempts : Z;
  ob_last_error : option string
}.

(** ** The database *)
Record Db := mkDb {
  t_communities : gmap CommunityConfigId CommunityRow;
  t_agents : gmap AgentId AgentRow;
  t_operations : gmap OperationId DurableOperation;
  t_audit : list AuditRecord;
  t_audit_seq : Z;
  t_idempotency : gmap (string * string) IdempotencyRow;
  t_drafts : gmap string DraftRow;
  t_draft_idempotency : gmap (string * string) DraftIdempotencyRow;
  t_logs : list LogRow;
  t_log_seq : Z;
  t_nip98 : gmap string Z;
  t_retention : gmap AgentId AgentRetention;
  t_tombstones : gmap AgentId TombstoneRow;
  t_projections : gmap (CommunityConfigId * string * string) ProjectionRow;
  t_outbox : gmap string OutboxRow;
  t_auto_join : gmap AgentId Z;
  t_journal : list (Z * ReconciliationJournalEntry);
  t_journal_seq : Z;
  t_health : list (Z * HealthHistoryEntry);
  t_health_seq : Z
}.

Definition empty_db : Db :=
  mkDb ∅ ∅ ∅ [] 0 ∅ ∅ ∅ [] 0 ∅ ∅ ∅ ∅ ∅ ∅ [] 0 [] 0.

Definition set_t_communities (v : gmap CommunityConfigId CommunityRow) (db : Db) : Db :=
  mkDb v (t_agents db) (t_operations db) (t_audit db) (t_audit_seq db) (t_idempotency db)
    (t_drafts db) (t_draft_idempotency db) (t_logs db) (t_log_seq db) (t_nip98 db)
    (t_retention db) (t_tombstones db) (t_projections db) (t_outbox db) (t_auto_join db)
    (t_journal db) (t_journal_seq db) (t_health db) (t_health_seq db).
Definition set_t_agents (v : gmap AgentId AgentRow) (db : Db) : Db :=
  mkDb (t_communities db) v (t_operations db) (t_audit db) (t_audit_seq db) (t_idempotency db)
    (t_drafts db) (t_draft_idempotency db) (t_logs db) (t_log_seq db) (t_nip98 db)
    (t_retention db) (t_tombstones db) (t_projections db) (t_outbox db) (t_auto_join db)
    (t_journal db) (t_journal_seq db) (t_health db) (t_health_seq db).
Definition set_t_operations (v : gmap OperationId DurableOperation) (db : Db) : Db :=
  mkDb (t_communities db) (t_agents db) v (t_audit db) (t_audit_seq db) (t_idempotency db)
    (t_drafts db) (t_draft_idempotency db) (t_logs db) (t_log_seq db) (t_nip98 db)
    (t_retention db) (t_tombstones db) (t_projections db) (t_outbox db) (t_auto_join db)
    (t_journal db) (t_journal_seq db) (t_health db) (t_health_seq db).
Definition set_t_audit (v : list AuditRecord) (db : Db) : Db :=
  mkDb (t_communities db) (t_agents db) (t_operations db) v (t_audit_seq db) (t_idempotency db)
    (t_drafts db) (t_draft_idempotency db) (t_logs db) (t_log_seq db) (t_nip98 db)
    (t_retention db) (t_tombstones db) (t_projections db) (t_outbox db) (t_auto_join db)
    (t_journal db) (t_journal_seq db) (t_health db) (t_health_seq db).
Definition set_t_audit_seq (v : Z) (db : Db) : Db :=
  mkDb (t_communities db) (t_agents db) (t_operations db) (t_audit db) v (t_idempotency db)
    (t_drafts db) (t_draft_idempotency db) (t_logs db) (t_log_seq db) (t_nip98 db)
    (t_retention db) (t_tombstones db) (t_projections db) (t_outbox db) (t_auto_join db)
    (t_journal db) (t_journal_seq db) (t_health db) (t_health_seq db).
Definition set_t_idempotency (v : gmap (string * string) IdempotencyRow) (db : Db) : Db :=
  mkDb (t_communities db) (t_agents db) (t_operations db) (t_audit db) (t_audit_seq db) v
    (t_drafts db) (t_draft_idempotency db) (t_logs db) (t_log_seq db) (t_nip98 db)
    (t_retention db) (t_tombstones db) (t_projections db) (t_outbox db) (t_auto_join db)
    (t_journal db) (t_journal_seq db) (t_health db) (t_health_seq db).
Definition set_t_drafts (v : gmap string DraftRow) (db : Db) : Db :=
  mkDb (t_communities db) (t_agents db) (t_operations db) (t_audit db) (t_audit_seq db)
    (t_idempotency db) v (t_draft_idempotency db) (t_logs db) (t_log_seq db) (t_nip98 db)
    (t_retention db) (t_tombstones db) (t_projections db) (t_outbox db) (t_auto_join db)
    (t_journal db) (t_journal_seq db) (t_health db) (t_health_seq db).
Definition set_t_draft_idempotency (v : gmap (string * string) DraftIdempotencyRow) (db : Db) : Db :=
  mkDb (t_communities db) (t_agents db) (t_operations db) (t_audit db) (t_audit_seq db)
    (t_idempotency db) (t_drafts db) v (t_logs db) (t_log_seq db) (t_nip98 db) (t_retention
    db) (t_tombstones db) (t_projections db) (t_outbox db) (t_auto_join db) (t_journal db)
    (t_journal_seq db) (t_health db) (t_health_seq db).
Definition set_t_logs (v : list LogRow) (db : Db) : Db :=
  mkDb (t_communities db) (t_agents db) (t_operations db) (t_audit db) (t_audit_seq db)
    (t_idempotency db) (t_drafts db) (t_draft_idempotency db) v (t_log_seq db) (t_nip98 db)
    (t_retention db) (t_tombstones db) (t_projections db) (t_outbox db) (t_auto_join db)
    (t_journal db) (t_journal_seq db) (t_health db) (t_health_seq db).
Definition set_t_log_seq (v : Z) (db : Db) : Db :=
  mkDb (t_communities db) (t_agents db) (t_operations db) (t_audit db) (t_audit_seq db)
    (t_idempotency db) (t_drafts db) (t_draft_idempotency db) (t_logs db) v (t_nip98 db)
    (t_retention db) (t_tombstones db) (t_projections db) (t_outbox db) (t_auto_join db)
    (t_journal db) (t_journal_seq db) (t_health db) (t_health_seq db).
Definition set_t_nip98 (v : gmap string Z) (db : Db) : Db :=
  mkDb (t_communities db) (t_agents db) (t_operations db) (t_audit db) (t_audit_seq db)
    (t_idempotency db) (t_drafts db) (t_draft_idempotency db) (t_logs db) (t_log_seq db) v
    (t_retention db) (t_tombstones db) (t_projections db) (t_outbox db) (t_auto_join db)
    (t_journal db) (t_journal_seq db) (t_health db) (t_health_seq db).
Definition set_t_retention (v : gmap AgentId AgentRetention) (db : Db) : Db :=
  mkDb (t_communities db) (t_agents db) (t_operations db) (t_audit db) (t_audit_seq db)
    (t_idempotency db) (t_drafts db) (t_draft_idempotency db) (t_logs db) (t_log_seq db)
    (t_nip98 db) v (t_tombstones db) (t_projections db) (t_outbox db) (t_auto_join db)
    (t_journal db) (t_journal_seq db) (t_health db) (t_health_seq db).
Definition set_t_tombstones (v : gmap AgentId TombstoneRow) (db : Db) : Db :=
  mkDb (t_communities db) (t_agents db) (t_operations db) (t_audit db) (t_audit_seq db)
    (t_idempotency db) (t_drafts db) (t_draft_idempotency db) (t_logs db) (t_log_seq db)
    (t_nip98 db) (t_retention db) v (t_projections db) (t_outbox db) (t_auto_join db)
    (t_journal db) (t_journal_seq db) (t_health db) (t_health_seq db).
Definition set_t_projections (v : gmap (CommunityConfigId * string * string) ProjectionRow) (db : Db) : Db :=
  mkDb (t_communities db) (t_agents db) (t_operations db) (t_audit db) (t_audit_seq db)
    (t_idempotency db) (t_drafts db) (t_draft_idempotency db) (t_logs db) (t_log_seq db)
    (t_nip98 db) (t_retention db) (t_tombstones db) v (t_outbox db) (t_auto_join db)
    (t_journal db) (t_journal_seq db) (t_health db) (t_health_seq db).
Definition set_t_outbox (v : gmap string OutboxRow) (db : Db) : Db :=
  mkDb (t_communities db) (t_agents db) (t_operations db) (t_audit db) (t_audit_seq db)
    (t_idempotency db) (t_drafts db) (t_draft_idempotency db) (t_logs db) (t_log_seq db)
    (t_nip98 db) (t_retention db) (t_tombstones db) (t_projections db) v (t_auto_join db)
    (t_journal db) (t_journal_seq db) (t_health db) (t_health_seq db).
Definition set_t_auto_join (v : gmap AgentId Z) (db : Db) : Db :=
  mkDb (t_communities db) (t_agents db) (t_operations db) (t_audit db) (t_audit_seq db)
    (t_idempotency db) (t_drafts db) (t_draft_idempotency db) (t_logs db) (t_log_seq db)
    (t_nip98 db) (t_retention db) (t_tombstones db) (t_projections db) (t_outbox db) v
    (t_journal db) (t_journal_seq db) (t_health db) (t_health_seq db).
Definition set_t_journal (v : list (Z * ReconciliationJournalEntry)) (db : Db) : Db :=
  mkDb (t_communities db) (t_agents db) (t_operations db) (t_audit db) (t_audit_seq db)
    (t_idempotency db) (t_drafts db) (t_draft_idempotency db) (t_logs db) (t_log_seq db)
    (t_nip98 db) (t_retention db) (t_tombstones db) (t_projections db) (t_outbox db)
    (t_auto_join db) v (t_journal_seq db) (t_health db) (t_health_seq db).
Definition set_t_journal_seq (v : Z) (db : Db) : Db :=
  mkDb (t_communities db) (t_agents db) (t_operations db) (t_audit db) (t_audit_seq db)
    (t_idempotency db) (t_drafts db) (t_draft_idempotency db) (t_logs db) (t_log_seq db)
    (t_nip98 db) (t_retention db) (t_tombstones db) (t_projections db) (t_outbox db)
    (t_auto_join db) (t_journal db) v (t_health db) (t_health_seq db).
Definition set_t_health (v : list (Z * HealthHistoryEntry)) (db : Db) : Db :=
  mkDb (t_communities db) (t_agents db) (t_operations db) (t_audit db) (t_audit_seq db)
    (t_idempotency db) (t_drafts db) (t_draft_idempotency db) (t_logs db) (t_log_seq db)
    (t_nip98 db) (t_retention db) (t_tombstones db) (t_projections db) (t_outbox db)
    (t_auto_join db) (t_journal db) (t_journal_seq db) v (t_health_seq db).
Definition set_t_health_seq (v : Z) (db : Db) : Db :=
  mkDb (t_communities db) (t_agents db) (t_operations db) (t_audit db) (t_audit_seq db)
    (t_idempotency db) (t_drafts db) (t_draft_idempotency db) (t_logs db) (t_log_seq db)
    (t_nip98 db) (t_retention db) (t_tombstones db) (t_projections db) (t_outbox db)
    (t_auto_join db) (t_journal db) (t_journal_seq db) (t_health db) v.

(** ** Statements *)
(** A foreign key that must name an existing row, or be null. *)
Definition fk_agent_ok (db : Db) (a : option AgentId) : bool :=
  match a with Some id => option_is_some (t_agents db !! id) | None => true end.

(** [INSERT INTO agent_specs] *)
Definition sql_insert_agent (agent : AgentSpec) (now : Z) (db : Db) : result SqliteError Db :=
  if option_is_some (t_agents db !! spec_id agent) then Err ConstraintPrimaryKey
  else if option_is_none (t_communities db !! spec_community agent) then Err ConstraintForeignKey
  else Ok (set_t_agents (<[spec_id agent := mkAgentRow (spec_community agent) agent now]>
                           (t_agents db)) db).

(** [INSERT INTO agent_specs .. ON CONFLICT(id) DO UPDATE] *)
Definition sql_upsert_agent (agent : AgentSpec) (now : Z) (db : Db) : result SqliteError Db :=
  if option_is_none (t_communities db !! spec_community agent) then Err ConstraintForeignKey
  else Ok (set_t_agents (<[spec_id agent := mkAgentRow (spec_community agent) agent now]>
                           (t_agents db)) db).

(** [ON DELETE SET NULL] on [operations.agent_id]. *)
Definition null_agent (id : AgentId) (op : DurableOperation) : DurableOperation :=
  if bool_decide (op_agent_id op = Some id)
  then mkDurableOperation (op_id op) (op_kind op) (op_status op) None (op_error_code op)
         (op_created_at op) (op_updated_at op) (op_correlation_id op)
  else op.

(** [DELETE FROM agent_specs WHERE id=?1], with its foreign-key actions: operations keep
    their row and lose the reference, log and retention rows go. *)
Definition sql_delete_agent (id : AgentId) (db : Db) : Db :=
  match t_agents db !! id with
  | None => db
  | Some _ =>
    set_t_retention (delete id (t_retention db))
      (set_t_logs (filter (λ r, log_agent_id r ≠ id) (t_logs db))
         (set_t_operations (null_agent id <$> t_operations db)
            (set_t_agents (delete id (t_agents db)) db)))
  end.

(** Whether a row of [agent_specs] names the community. *)
Definition community_referenced (id : CommunityConfigId) (db : Db) : bool :=
  existsb (λ r, bool_decide (arow_community r.2 = id)) (map_to_list (t_agents db)).

(** [DELETE FROM community_configs WHERE id=?1]: the number of rows removed. The
    [ON DELETE RESTRICT] action raises SQLITE_CONSTRAINT_TRIGGER. *)
Definition sql_delete_community (id : CommunityConfigId) (db : Db) : result SqliteError (Z * Db) :=
  match t_communities db !! id with
  | None => Ok (0, db)
  | Some _ =>
    if community_referenced id db then Err ConstraintTrigger
    else Ok (1, set_t_communities (delete id (t_communities db)) db)
  end.

(** [INSERT INTO operations] *)
Definition sql_insert_operation (op : DurableOperation) (db : Db) : result SqliteError Db :=
  if option_is_some (t_operations db !! op_id op) then Err ConstraintPrimaryKey
  else if negb (fk_agent_ok db (op_agent_id op)) then Err ConstraintForeignKey
  else Ok (set_t_operations (<[op_id op := op]> (t_operations db)) db).

(** [DELETE FROM operations WHERE id=?1], cascading to [idempotency_keys]. *)
Definition sql_delete_operation (id : OperationId) (db : Db) : Db :=
  set_t_idempotency (filter (λ r, ik_operation_id r.2 ≠ id) (t_idempotency db))
    (set_t_operations (delete id (t_operations db)) db).

(** [UPDATE operations SET status, error_code, updated_at WHERE id=?1] *)
Definition sql_update_operation (id : OperationId) (status : OperationStatus)
    (error_code : option ErrorCode) (now : Z) (db : Db) : Db :=
  set_t_operations
    (alter (λ op, mkDurableOperation (op_id op) (op_kind op) status (op_agent_id op) error_code
                    (op_created_at op) now (op_correlation_id op)) id (t_operations db)) db.

(** [INSERT INTO idempotency_keys] *)
Definition sql_insert_idempotency (scope key hash : string) (op : OperationId) (created_at : Z)
    (db : Db) : result SqliteError Db :=
  if option_is_some (t_idempotency db !! (scope, key)) then Err ConstraintPrimaryKey
  else if option_is_none (t_operations db !! op) then Err ConstraintForeignKey
  else Ok (set_t_idempotency (<[(scope, key) := mkIdempotencyRow hash op created_at]>
                                (t_idempotency db)) db).

(** [INSERT INTO audit_records]: the row takes the next [AUTOINCREMENT] sequence. *)
Definition sql_insert_audit (r : NewAuditRecord) (db : Db) : Db :=
  let seq := t_audit_seq db + 1 in
  set_t_audit_seq seq
    (set_t_audit (t_audit db ++
       [mkAuditRecord seq (na_occurred_at r) (na_actor_principal r) (na_authentication_method r)
          (na_community r) (na_operation_id r) (na_correlation_id r) (na_idempotency_key r)
          (na_action r) (na_subject_type r) (na_subject_id r) (na_outcome r)
          (na_redacted_detail r)]) db).

(** [INSERT OR IGNORE INTO purged_agent_tombstones] *)
Definition sql_insert_tombstone (id : AgentId) (now : Z) (op : OperationId) (db : Db) : Db :=
  match t_tombstones db !! id with
  | Some _ => db
  | None => set_t_tombstones (<[id := mkTombstoneRow now op]> (t_tombstones db)) db
  end.

(** [INSERT INTO agent_retention .. ON CONFLICT(agent_id) DO UPDATE] *)
Definition sql_upsert_retention (id : AgentId) (deleted_at purge_after : Z) (db : Db)
    : result SqliteError Db :=
  if option_is_none (t_agents db !! id) then Err ConstraintForeignKey
  else Ok (set_t_retention (<[id := mkAgentRetention deleted_at purge_after]> (t_retention db)) db).

(** [INSERT INTO agent_drafts] *)
Definition sql_insert_draft (draft : DraftResource) (now : Z) (db : Db) : result SqliteError Db :=
  if option_is_some (t_drafts db !! dr_id draft) then Err ConstraintPrimaryKey
  else Ok (set_t_drafts (<[dr_id draft := mkDraftRow (dr_owner draft) draft None now now]>
                           (t_drafts db)) db).

(** [INSERT INTO draft_idempotency] *)
Definition sql_insert_draft_idempotency (scope key hash draft : string) (now : Z) (db : Db)
    : result SqliteError Db :=
  if option_is_some (t_draft_idempotency db !! (scope, key)) then Err ConstraintPrimaryKey
  else if option_is_none (t_drafts db !! draft) then Err ConstraintForeignKey
  else Ok (set_t_draft_idempotency
             (<[(scope, key) := mkDraftIdempotencyRow hash draft now]> (t_draft_idempotency db)) db).

(** [UPDATE agent_drafts SET promoted_operation_id .. WHERE id=?1 AND
    promoted_operation_id IS NULL]: [None] when no row changed. *)
Definition sql_promote_draft (id : string) (op : OperationId) (now : Z) (db : Db) : option Db :=
  match t_drafts db !! id with
  | Some row =>
    match drow_promoted_operation_id row with
    | Some _ => None
    | None => Some (set_t_drafts (<[id := mkDraftRow (drow_owner_key row) (drow_document row)
                (Some op) (drow_created_at row) now]> (t_drafts db)) db)
    end
  | None => None
  end.

(** The [UNIQUE(action, relay_url, owner_pubkey, subject_id, d_tag)] key of the outbox. *)
Definition outbox_key (r : OutboxRow) : string * string * string * string * string :=
  (ob_action r, ob_relay_url r, ob_owner_pubkey r, ob_subject_id r, ob_d_tag r).

(** [INSERT INTO relay_publication_outbox .. ON CONFLICT(unique key) DO NOTHING] *)
Definition sql_enqueue (id : string) (row : OutboxRow) (db : Db) : result SqliteError Db :=
  if existsb (λ r, bool_decide (outbox_key r.2 = outbox_key row)) (map_to_list (t_outbox db))
  then Ok db
  else if option_is_some (t_outbox db !! id) then Err ConstraintPrimaryKey
  else Ok (set_t_outbox (<[id := row]> (t_outbox db)) db).

(** ** Ordered queries *)
(** Identifier columns sort as text; equal-length lowercase hexadecimal sorts by value. *)
Definition agents_by_id (l : list (AgentId * AgentRow)) : list (AgentId * AgentRow) :=
  sort_by (λ p q, agent_uuid p.1 <=? agent_uuid q.1) l.

(** [(created_at, id)] lexicographic, as in [ORDER BY created_at, id]. *)
Definition op_le (a b : DurableOperation) : bool :=
  (op_created_at a <? op_created_at b)
  || ((op_created_at a =? op_created_at b)
      && (operation_uuid (op_id a) <=? operation_uuid (op_id b))).

Definition operations_of (db : Db) : list DurableOperation := (map_to_list (t_operations db)).*2.

(** Credentials must not reach audit details or log lines. *)
Definition contains_secret_marker (detail : string) : bool :=
  let lower := to_ascii_lowercase detail in
  existsb (λ marker, contains_str marker lower)
    ["authorization"; "private_key"; "private-key"; "secret="; "token="; "password="].
