(* ===== verification/Storage.v ===== *)
(** * Durable store (src/src/storage.rs, [SqliteStore])
    Every repository operation as a function on the database. A function returns the
    new database only on success: a failed statement changes nothing, and a
    transaction dropped before [commit] is rolled back. Queries are functions of the
    database. UUIDs an operation draws ([Uuid::now_v7]) and the time are arguments. *)
From stdpp Require Import base gmap strings list.
From Stdlib Require Import ZArith Lia String.
From S2P Require Import Prelude RustStr Ids Lifecycle Agent Auth ApiTypes Schema.

Definition stored (A : Type) : Type := result StorageError (A * Db).

(** ** Diagnostics *)
(** rusqlite refuses a [u64] beyond the signed 64-bit range. *)
Definition u64_column_ok (v : option Z) : bool :=
  match v with Some x => x <=? i64_max | None => true end.

Definition append_reconciliation_journal (entry : ReconciliationJournalEntry) (db : Db)
    : stored Z :=
  if negb (u64_column_ok (rj_process_start_ticks entry)) then Err (Database ToSqlConversionFailure)
  else let seq := t_journal_seq db + 1 in
  Ok (seq, set_t_journal_seq seq (set_t_journal (t_journal db ++ [(seq, entry)]) db)).

Definition append_health_history (entry : HealthHistoryEntry) (db : Db) : stored Z :=
  if negb (u64_column_ok (hh_process_start_ticks entry)) then Err (Database ToSqlConversionFailure)
  else let seq := t_health_seq db + 1 in
  Ok (seq, set_t_health_seq seq (set_t_health (t_health db ++ [(seq, entry)]) db)).

(** ** Auto-join boundary *)
Definition ensure_auto_join_enabled_at (agent_id : AgentId) (now : Z) (db : Db) : stored Z :=
  match t_auto_join db !! agent_id with
  | Some enabled_at => Ok (enabled_at, db)
  | None => Ok (now, set_t_auto_join (<[agent_id := now]> (t_auto_join db)) db)
  end.

Definition clear_auto_join_enabled_at (agent_id : AgentId) (db : Db) : stored unit :=
  Ok (tt, set_t_auto_join (delete agent_id (t_auto_join db)) db).

(** ** Communities *)
Definition invalid_data (e : ValidationError) : StorageError :=
  InvalidData (ValidationError_to_string e).

Definition put_community (config : CommunityConfig) (now : Z) (db : Db) : stored unit :=
  let? _ := map_err invalid_data (CommunityConfig_validate config) in
  Ok (tt, set_t_communities (<[cc_id config := mkCommunityRow config now]> (t_communities db)) db).

Definition get_community (id : CommunityConfigId) (db : Db) : option CommunityConfig :=
  crow_document <$> t_communities db !! id.

Definition list_communities (db : Db) : list CommunityConfig :=
  (λ p, crow_document p.2) <$>
    sort_by (λ p q, community_uuid p.1 <=? community_uuid q.1) (map_to_list (t_communities db)).

Definition delete_community (id : CommunityConfigId) (db : Db) : stored unit :=
  let? (changed, db) := map_err map_constraint (sql_delete_community id db) in
  if changed =? 0 then Err StNotFound else Ok (tt, db).

(** ** Agents *)
Definition put_agent (spec : AgentSpec) (now : Z) (db : Db) : stored unit :=
  let? _ := map_err invalid_data (AgentSpec_validate spec) in
  let? db := map_err map_constraint (sql_upsert_agent spec now db) in
  Ok (tt, db).

Definition get_agent (id : AgentId) (db : Db) : option AgentSpec :=
  arow_document <$> t_agents db !! id.

Definition agent_retention (id : AgentId) (db : Db) : option AgentRetention :=
  t_retention db !! id.

Definition expired_retained_agents (now : Z) (db : Db) : list AgentId :=
  fst <$> sort_by (λ p q, (ret_purge_after p.2 <? ret_purge_after q.2)
                          || ((ret_purge_after p.2 =? ret_purge_after q.2)
                              && (agent_uuid p.1 <=? agent_uuid q.1)))
            (filter (λ p, ret_purge_after p.2 ≤ now) (map_to_list (t_retention db))).

Definition is_agent_purged (id : AgentId) (db : Db) : bool :=
  option_is_some (t_tombstones db !! id).

Definition list_purged_agent_ids (db : Db) : list AgentId :=
  fst <$> sort_by (λ p q, (tb_purged_at p.2 <? tb_purged_at q.2)
                          || ((tb_purged_at p.2 =? tb_purged_at q.2)
                              && (agent_uuid p.1 <=? agent_uuid q.1)))
            (map_to_list (t_tombstones db)).

Definition list_agents (community : option CommunityConfigId) (db : Db) : list AgentSpec :=
  (λ p, arow_document p.2) <$>
    agents_by_id (filter (λ p, community = None ∨ community = Some (arow_community p.2))
                    (map_to_list (t_agents db))).

Definition purge_agent_row (id : AgentId) (db : Db) : stored unit :=
  match t_agents db !! id with
  | None => Err StNotFound
  | Some _ => Ok (tt, sql_delete_agent id db)
  end.

(** ** Drafts *)
Definition put_draft (draft : DraftResource) (now : Z) (db : Db) : stored unit :=
  let row := match t_drafts db !! dr_id draft with
             | Some r => mkDraftRow (dr_owner draft) draft (drow_promoted_operation_id r)
                           (drow_created_at r) now
             | None => mkDraftRow (dr_owner draft) draft None now now
             end in
  Ok (tt, set_t_drafts (<[dr_id draft := row]> (t_drafts db)) db).

Definition get_draft (id : string) (db : Db) : option DraftResource :=
  drow_document <$> t_drafts db !! id.

(** [DELETE FROM agent_drafts], cascading to [draft_idempotency]. *)
Definition delete_draft (id : string) (db : Db) : stored unit :=
  Ok (tt, set_t_draft_idempotency
            (filter (λ p, dk_draft_id p.2 ≠ id) (t_draft_idempotency db))
            (set_t_drafts (delete id (t_drafts db)) db)).

(** ** Logs *)
(** [INSERT OR IGNORE] skips a duplicate [(agent_id, cursor)] but still consumes the
    [AUTOINCREMENT] value, and does not excuse a missing agent. *)
Definition append_redacted_log (agent_id : AgentId) (entry : RedactedLogEntry) (db : Db)
    : stored unit :=
  if contains_secret_marker (rl_redacted_message entry)
  then Err (InvalidData "log entry contains a credential-like marker")
  else
  let seq := t_log_seq db + 1 in
  if existsb (λ r, bool_decide (log_agent_id r = agent_id)
                   && String.eqb (rl_cursor (log_entry r)) (rl_cursor entry)) (t_logs db)
  then Ok (tt, set_t_log_seq seq db)
  else if option_is_none (t_agents db !! agent_id) then Err (map_constraint ConstraintForeignKey)
  else Ok (tt, set_t_log_seq seq (set_t_logs (t_logs db ++ [mkLogRow seq agent_id entry]) db)).

(** [COALESCE((SELECT sequence ..), 0)] *)
Definition cursor_sequence (agent_id : AgentId) (cursor : string) (db : Db) : Z :=
  match List.find (λ r, bool_decide (log_agent_id r = agent_id)
                        && String.eqb (rl_cursor (log_entry r)) cursor) (t_logs db) with
  | Some r => log_sequence r
  | None => 0
  end.

Definition agent_logs (agent_id : AgentId) (after_cursor : option string) (limit : Z) (db : Db)
    : list RedactedLogEntry :=
  log_entry <$>
    take (Z.to_nat limit)
      (List.filter (λ r, bool_decide (log_agent_id r = agent_id)
                    && match after_cursor with
                       | None => true
                       | Some c => cursor_sequence agent_id c db <? log_sequence r
                       end) (t_logs db)).

(** ** NIP-98 replay *)
Definition claim_nip98_replay (event_id : string) (expires_at now : Z) (db : Db) : stored bool :=
  if now >? i64_max then Err (Database ToSqlConversionFailure)
  else
  let kept := filter (λ p, ¬ p.2 < now) (t_nip98 db) in
  if expires_at >? i64_max then Err (Database ToSqlConversionFailure)
  else match kept !! event_id with
  | Some _ => Ok (false, set_t_nip98 kept db)
  | None => Ok (true, set_t_nip98 (<[event_id := expires_at]> kept) db)
  end.

(** ** Operations *)
Definition create_operation (operation : DurableOperation) (db : Db) : stored unit :=
  let? db := map_err map_constraint (sql_insert_operation operation db) in Ok (tt, db).

Definition delete_operation (id : OperationId) (db : Db) : stored unit :=
  Ok (tt, sql_delete_operation id db).

Definition get_operation (id : OperationId) (db : Db) : option DurableOperation :=
  t_operations db !! id.

Definition nonterminal_operations (db : Db) : list DurableOperation :=
  sort_by op_le (filter (λ op, op_status op = Pending ∨ op_status op = Running) (operations_of db)).

(** Rust's [Debug] names, as the conflict messages print them. *)
Definition OperationStatus_debug (s : OperationStatus) : string :=
  match s with
  | Pending => "Pending" | Running => "Running" | Succeeded => "Succeeded"
  | Failed => "Failed" | Cancelled => "Cancelled"
  end.

Definition transition_operation (id : OperationId) (next : OperationStatus)
    (error_code : option ErrorCode) (now : Z) (db : Db) : stored unit :=
  match t_operations db !! id with
  | None => Err StNotFound
  | Some current =>
    if negb (OperationStatus_can_transition_to (op_status current) next)
    then Err (StConflict (String.append "invalid operation transition from "
           (String.append (OperationStatus_debug (op_status current))
              (String.append " to " (OperationStatus_debug next)))))
    else Ok (tt, sql_update_operation id next error_code now db)
  end.

(** ** Audit *)
Definition insert_audit (record : NewAuditRecord) (db : Db) : result StorageError Db :=
  if is_some_and (na_redacted_detail record) contains_secret_marker
  then Err (InvalidData "audit detail contains a credential-like marker")
  else Ok (sql_insert_audit record db).

Definition append_audit (record : NewAuditRecord) (db : Db) : stored Z :=
  if is_some_and (na_redacted_detail record) contains_secret_marker
  then Err (InvalidData "audit detail contains a credential-like marker")
  else let db := sql_insert_audit record db in Ok (t_audit_seq db, db).

Definition audit_for_subject (subject_type subject_id : string) (db : Db) : list AuditRecord :=
  filter (λ r, au_subject_type r = subject_type ∧ au_subject_id r = Some subject_id) (t_audit db).

(** ** Idempotent commands *)
Definition reused_key : StorageError :=
  StConflict "idempotency key was reused with a different request".

Definition claim_idempotency (record : IdempotencyRecord) (db : Db) : stored OperationId :=
  match t_idempotency db !! (ir_scope record, ir_key record) with
  | Some row =>
    if negb (String.eqb (ik_request_hash row) (ir_request_hash record)) then Err reused_key
    else Ok (ik_operation_id row, db)
  | None =>
    let? db := map_err map_constraint
      (sql_insert_idempotency (ir_scope record) (ir_key record) (ir_request_hash record)
         (ir_operation_id record) (ir_created_at record) db) in
    Ok (ir_operation_id record, db)
  end.

Definition load_agent_transaction (id : AgentId) (db : Db) : result StorageError AgentSpec :=
  ok_or StNotFound (get_agent id db).

(** [UPDATE agent_specs SET .. WHERE id=?1]; the foreign key is checked on the new value. *)
Definition update_agent_transaction (agent : AgentSpec) (now : Z) (db : Db)
    : result StorageError Db :=
  match t_agents db !! spec_id agent with
  | None => Err StNotFound
  | Some _ =>
    if option_is_none (t_communities db !! spec_community agent)
    then Err (Database ConstraintForeignKey)
    else Ok (set_t_agents (<[spec_id agent := mkAgentRow (spec_community agent) agent now]>
                             (t_agents db)) db)
  end.

(** The three [if let Some(value) = &changes..] assignments. *)
Definition apply_changes (changes : UpdateAgentInput) (agent : AgentSpec) : AgentSpec :=
  mkAgentSpec (spec_id agent) (spec_community agent)
    (default (spec_display_name agent) (uai_display_name changes))
    (default (spec_system_prompt agent) (uai_system_prompt changes))
    (mkRuntimeSpec (default (rs_runtime_id (spec_runtime agent)) (uai_runtime_id changes))
       (rs_environment (spec_runtime agent)))
    (spec_desired_state agent).

Definition set_desired_state (s : DesiredAgentState) (agent : AgentSpec) : AgentSpec :=
  mkAgentSpec (spec_id agent) (spec_community agent) (spec_display_name agent)
    (spec_system_prompt agent) (spec_runtime agent) s.

(** The desired state an operation kind records. *)
Definition expected_state (kind : OperationKind) : option DesiredAgentState :=
  match kind with
  | EnableAgent => Some Enabled
  | DisableAgent => Some Disabled
  | DeleteAgent | PurgeAgent => Some Deleted
  | CreateAgent | UpdateAgent => None
  end.

(** [match mutation { .. }] of [apply_agent_command]. *)
Definition apply_mutation (operation : DurableOperation) (mutation : AgentCommandMutation)
    (db : Db) : result StorageError Db :=
  match mutation with
  | MutCreate agent =>
    if negb (bool_decide (op_kind operation = CreateAgent))
       || negb (bool_decide (op_agent_id operation = Some (spec_id agent)))
    then Err (InvalidData "create mutation does not match operation")
    else
    let? _ := map_err invalid_data (AgentSpec_validate agent) in
    map_err map_constraint (sql_insert_agent agent (op_created_at operation) db)
  | MutUpdate id changes =>
    if negb (bool_decide (op_kind operation = UpdateAgent))
       || negb (bool_decide (op_agent_id operation = Some id))
    then Err (InvalidData "update mutation does not match operation")
    else
    let? agent := load_agent_transaction id db in
    let agent := apply_changes changes agent in
    let? _ := map_err invalid_data (AgentSpec_validate agent) in
    update_agent_transaction agent (op_created_at operation) db
  | MutSetState id desired_state retention_deadline =>
    let mismatch := InvalidData "state mutation does not match operation" in
    let? expected := ok_or mismatch (expected_state (op_kind operation)) in
    if negb (bool_decide (op_agent_id operation = Some id))
       || negb (bool_decide (desired_state = expected))
    then Err mismatch
    else
    let? agent := load_agent_transaction id db in
    let? db := update_agent_transaction (set_desired_state desired_state agent)
                 (op_created_at operation) db in
    if bool_decide (op_kind operation = DeleteAgent) then
      let? purge_after :=
        ok_or (InvalidData "recoverable delete requires a retention deadline")
          retention_deadline in
      map_err Database (sql_upsert_retention id (op_created_at operation) purge_after db)
    else if bool_decide (op_kind operation = EnableAgent) then
      Ok (set_t_retention (delete id (t_retention db)) db)
    else Ok db
  end.

Definition apply_agent_command (operation : DurableOperation) (idempotency : IdempotencyRecord)
    (mutation : AgentCommandMutation) (promoted_draft_id : option string)
    (audit : NewAuditRecord) (db : Db) : stored (DurableOperation * bool) :=
  match t_idempotency db !! (ir_scope idempotency, ir_key idempotency) with
  | Some row =>
    if negb (String.eqb (ik_request_hash row) (ir_request_hash idempotency)) then Err reused_key
    else
    let? existing := ok_or (Database QueryReturnedNoRows)
                       (t_operations db !! ik_operation_id row) in
    Ok ((existing, true), db)
  | None =>
    let? db := apply_mutation operation mutation db in
    let? db := map_err map_constraint (sql_insert_operation operation db) in
    let? db := map_err map_constraint
      (sql_insert_idempotency (ir_scope idempotency) (ir_key idempotency)
         (ir_request_hash idempotency) (op_id operation) (ir_created_at idempotency) db) in
    let? db := (match promoted_draft_id with
                | Some draft_id =>
                  ok_or (StConflict "draft does not exist or was already promoted")
                    (sql_promote_draft draft_id (op_id operation) (op_created_at operation) db)
                | None => Ok db
                end) in
    let? db := insert_audit audit db in
    Ok ((operation, false), db)
  end.

Definition apply_draft_command (draft : DraftResource)
    (principal_scope key request_hash : string) (now : Z) (audit : NewAuditRecord) (db : Db)
    : stored (DraftResource * bool) :=
  match t_draft_idempotency db !! (principal_scope, key) with
  | Some row =>
    if negb (String.eqb (dk_request_hash row) request_hash) then Err reused_key
    else
    let? document := ok_or (Database QueryReturnedNoRows) (get_draft (dk_draft_id row) db) in
    Ok ((document, true), db)
  | None =>
    let? db := map_err Database (sql_insert_draft draft now db) in
    let? db := map_err Database
      (sql_insert_draft_idempotency principal_scope key request_hash (dr_id draft) now db) in
    let? db := insert_audit audit db in
    Ok ((draft, false), db)
  end.

(** ** Purge *)
Definition complete_purge (agent_id : AgentId) (operation_id : OperationId) (now : Z)
    (audit : NewAuditRecord) (db : Db) : stored unit :=
  let? operation :=
    (match t_operations db !! operation_id with
     | Some op => if bool_decide (op_agent_id op = Some agent_id)
                     && bool_decide (op_kind op = PurgeAgent)
                  then Ok op else Err StNotFound
     | None => Err StNotFound
     end) in
  if negb (OperationStatus_can_transition_to (op_status operation) Succeeded)
  then Err (StConflict (String.append "invalid purge transition from "
              (String.append (OperationStatus_debug (op_status operation)) " to Succeeded")))
  else
  let? agent := ok_or StNotFound (get_agent agent_id db) in
  if negb (bool_decide (spec_desired_state agent = Deleted))
  then Err (StConflict "purge target is not recoverably deleted")
  else
  let db := sql_update_operation operation_id Succeeded None now db in
  let? db := insert_audit audit db in
  let db := sql_insert_tombstone agent_id now operation_id db in
  let db := sql_delete_agent agent_id db in
  Ok (tt, db).

(** ** Relay projections and the publication outbox *)
Section Relay.
Context `{UuidLib}.

Definition record_relay_projection (kind : RelayProjectionKind) (subject_id : string)
    (scope : RelayProjectionScope) (now : Z) (db : Db) : stored unit :=
  Ok (tt, set_t_projections
    (<[(sc_community scope, RelayProjectionKind_as_str kind, subject_id) :=
        mkProjectionRow (sc_relay_url scope) (sc_owner_pubkey scope) (sc_d_tag scope) now]>
       (t_projections db)) db).

Definition relay_projection_scopes (kind : RelayProjectionKind) (subject_id : string) (db : Db)
    : list RelayProjectionScope :=
  (λ p, mkRelayProjectionScope p.1.1.1 (pj_relay_url p.2) (pj_owner_pubkey p.2) (pj_d_tag p.2)) <$>
    sort_by (λ p q, community_uuid p.1.1.1 <=? community_uuid q.1.1.1)
      (filter (λ p, p.1.1.2 = RelayProjectionKind_as_str kind ∧ p.1.2 = subject_id)
         (map_to_list (t_projections db))).

Definition outbox_row (action : RelayPublicationAction) (scope : RelayProjectionScope)
    (subject_id : string) (now : Z) : OutboxRow :=
  mkOutboxRow (RelayPublicationAction_as_str action) (Some (sc_community scope))
    (sc_relay_url scope) (sc_owner_pubkey scope) subject_id (sc_d_tag scope) now now 0 None.

Definition enqueue_relay_publication (fresh : Z) (action : RelayPublicationAction)
    (scope : RelayProjectionScope) (subject_id : string) (now : Z) (db : Db) : stored unit :=
  let? db := map_err Database
    (sql_enqueue (Uuid_to_string fresh) (outbox_row action scope subject_id now) db) in
  Ok (tt, db).

Definition pending_relay_publications (db : Db) : result StorageError (list RelayPublication) :=
  collect (λ p : string * OutboxRow,
    let? action := RelayPublicationAction_parse (ob_action p.2) in
    Ok (mkRelayPublication p.1 action (ob_community p.2) (ob_relay_url p.2) (ob_owner_pubkey p.2)
          (ob_subject_id p.2) (ob_d_tag p.2) (ob_attempts p.2)))
    (sort_by (λ p q, (ob_created_at p.2 <? ob_created_at q.2)
                     || ((ob_created_at p.2 =? ob_created_at q.2) && String.leb p.1 q.1))
       (map_to_list (t_outbox db))).

Definition complete_relay_publication (id : string) (db : Db) : stored unit :=
  Ok (tt, set_t_outbox (delete id (t_outbox db)) db).

Definition fail_relay_publication (id error : string) (now : Z) (db : Db) : stored unit :=
  Ok (tt, set_t_outbox
    (alter (λ r, mkOutboxRow (ob_action r) (ob_community r) (ob_relay_url r) (ob_owner_pubkey r)
                   (ob_subject_id r) (ob_d_tag r) (ob_created_at r) now (ob_attempts r + 1)
                   (Some error)) id (t_outbox db)) db).

Definition has_pending_relay_publications_for_owner (owner_pubkey : string) (db : Db) : bool :=
  existsb (λ p, String.eqb (ob_owner_pubkey p.2) owner_pubkey) (map_to_list (t_outbox db)).

Definition remove_relay_projection (community : CommunityConfigId) (kind : RelayProjectionKind)
    (subject_id : string) (db : Db) : stored unit :=
  Ok (tt, set_t_projections
    (delete (community, RelayProjectionKind_as_str kind, subject_id) (t_projections db)) db).

(** ** Community removal *)
(** [SELECT status FROM operations WHERE agent_id=?1 AND kind IN ('delete_agent',
    'purge_agent') ORDER BY created_at DESC, id DESC LIMIT 1] *)
Definition last_delete_status (agent_id : AgentId) (db : Db) : option OperationStatus :=
  op_status <$> head (sort_by (λ a b, op_le b a)
    (filter (λ op, op_agent_id op = Some agent_id
                   ∧ (op_kind op = DeleteAgent ∨ op_kind op = PurgeAgent)) (operations_of db))).

(** The first loop: every agent of the community is deleted and has finished stopping. *)
Definition check_deleted_agent (id : CommunityConfigId) (db : Db) (p : AgentId * AgentRow)
    : result StorageError AgentId :=
  if negb (bool_decide (spec_desired_state (arow_document p.2) = Deleted))
  then Err (StConflict (String.append "community "
    (String.append (CommunityConfigId_to_string id)
       " cannot be deleted while it still has active agents; delete the remaining agents first")))
  else if negb (bool_decide (last_delete_status p.1 db = Some Succeeded))
  then Err (StConflict (String.append "deleted agent "
    (String.append (AgentId_to_string p.1)
       " has not completed shutdown; retry its delete first")))
  else Ok p.1.

(** The body of the second loop for one agent; [n] counts the UUIDs drawn so far. *)
Definition purge_deleted_agent (id : CommunityConfigId) (now : Z) (fresh : nat → Z)
    (agent_id : AgentId) (n : nat) (db : Db) : result StorageError (nat * Db) :=
  let? (n, db) :=
    (match t_projections db !! (id, "managed_agent", AgentId_to_string agent_id) with
     | Some pj =>
       let scope := mkRelayProjectionScope id (pj_relay_url pj) (pj_owner_pubkey pj)
                      (pj_d_tag pj) in
       let row action := outbox_row action scope (AgentId_to_string agent_id) now in
       let? db := map_err Database
         (sql_enqueue (Uuid_to_string (fresh n)) (row TombstoneManagedAgent) db) in
       let? db := map_err Database
         (sql_enqueue (Uuid_to_string (fresh (n + 1)%nat)) (row ArchiveIdentity) db) in
       Ok ((n + 2)%nat, db)
     | None => Ok (n, db)
     end) in
  let purge_operation := mkOperationId (fresh n) in
  let? db := map_err Database
    (sql_insert_operation
       (mkDurableOperation purge_operation PurgeAgent Succeeded (Some agent_id) None now now
          (String.append "community-delete:" (CommunityConfigId_to_string id))) db) in
  let db := sql_insert_tombstone agent_id now purge_operation db in
  let db := sql_delete_agent agent_id db in
  Ok (S n, db).

Fixpoint purge_deleted_agents (id : CommunityConfigId) (now : Z) (fresh : nat → Z)
    (agents : list AgentId) (n : nat) (db : Db) : result StorageError (nat * Db) :=
  match agents with
  | [] => Ok (n, db)
  | agent_id :: agents' =>
    let? (n, db) := purge_deleted_agent id now fresh agent_id n db in
    purge_deleted_agents id now fresh agents' n db
  end.

(** The persona rows, in primary-key order (the statement gives no order). *)
Definition persona_projections (id : CommunityConfigId) (db : Db)
    : list (CommunityConfigId * string * string * ProjectionRow) :=
  sort_by (λ p q, String.leb p.1.2 q.1.2)
    (filter (λ p, p.1.1.1 = id ∧ p.1.1.2 = "persona") (map_to_list (t_projections db))).

Fixpoint tombstone_personas (id : CommunityConfigId) (now : Z) (fresh : nat → Z)
    (rows : list (CommunityConfigId * string * string * ProjectionRow)) (n : nat) (db : Db)
    : result StorageError Db :=
  match rows with
  | [] => Ok db
  | p :: rows' =>
    let scope := mkRelayProjectionScope id (pj_relay_url p.2) (pj_owner_pubkey p.2)
                   (pj_d_tag p.2) in
    let? db := map_err Database
      (sql_enqueue (Uuid_to_string (fresh n)) (outbox_row TombstonePersona scope p.1.2 now) db) in
    tombstone_personas id now fresh rows' (S n) db
  end.

Definition community_agents (id : CommunityConfigId) (db : Db) : list (AgentId * AgentRow) :=
  agents_by_id (filter (λ p, arow_community p.2 = id) (map_to_list (t_agents db))).

Definition delete_community_with_deleted_agents (id : CommunityConfigId) (now : Z)
    (fresh : nat → Z) (db : Db) : stored (list AgentId) :=
  match t_communities db !! id with
  | None => Err StNotFound
  | Some _ =>
    let? deleted_agents := collect (check_deleted_agent id db) (community_agents id db) in
    let? (n, db) := purge_deleted_agents id now fresh deleted_agents 0 db in
    let? db := tombstone_personas id now fresh (persona_projections id db) n db in
    let? (_, db) := map_err Database (sql_delete_community id db) in
    Ok (deleted_agents, db)
  end.

End Relay.
