(* ===== verification/StoreInv.v ===== *)
(** * Store invariant and reachable databases
    Referential integrity and key consistency of the tables, preserved by every
    [SqliteStore] operation; the evolution of operation records along any run. *)
From stdpp Require Import base gmap strings list sorting relations.
From Stdlib Require Import ZArith Lia String.
From S2P Require Import Prelude RustStr Ids Lifecycle Agent Auth ApiTypes Schema Storage.

(** ** The invariant, table by table *)
Definition communities_ok (cs : gmap CommunityConfigId CommunityRow) : Prop :=
  map_Forall (λ id r, cc_id (crow_document r) = id
                      ∧ CommunityConfig_validate (crow_document r) = Ok tt) cs.

Definition agent_row_ok (cs : gmap CommunityConfigId CommunityRow) (id : AgentId) (r : AgentRow)
    : Prop :=
  spec_id (arow_document r) = id
  ∧ arow_community r = spec_community (arow_document r)
  ∧ is_Some (cs !! arow_community r)
  ∧ AgentSpec_validate (arow_document r) = Ok tt.
Definition agents_ok cs (ag : gmap AgentId AgentRow) : Prop := map_Forall (agent_row_ok cs) ag.

Definition operation_row_ok (ag : gmap AgentId AgentRow) (id : OperationId)
    (op : DurableOperation) : Prop :=
  op_id op = id ∧ ∀ a, op_agent_id op = Some a → is_Some (ag !! a).
Definition operations_ok ag (ops : gmap OperationId DurableOperation) : Prop :=
  map_Forall (operation_row_ok ag) ops.

Definition idempotency_ok (ops : gmap OperationId DurableOperation)
    (ik : gmap (string * string) IdempotencyRow) : Prop :=
  map_Forall (λ _ r, is_Some (ops !! ik_operation_id r)) ik.

Definition retention_ok (ag : gmap AgentId AgentRow) (rt : gmap AgentId AgentRetention) : Prop :=
  map_Forall (λ id _, is_Some (ag !! id)) rt.

Definition drafts_ok (ds : gmap string DraftRow) : Prop :=
  map_Forall (λ id r, dr_id (drow_document r) = id
                      ∧ drow_owner_key r = dr_owner (drow_document r)) ds.

Definition draft_idempotency_ok (ds : gmap string DraftRow)
    (dk : gmap (string * string) DraftIdempotencyRow) : Prop :=
  map_Forall (λ _ r, is_Some (ds !! dk_draft_id r)) dk.

Definition log_lt (a b : LogRow) : Prop := log_sequence a < log_sequence b.
Definition logs_ok (ag : gmap AgentId AgentRow) (logs : list LogRow) (seq : Z) : Prop :=
  StronglySorted log_lt logs
  ∧ Forall (λ r, is_Some (ag !! log_agent_id r) ∧ 0 < log_sequence r ≤ seq) logs
  ∧ NoDup ((λ r, (log_agent_id r, rl_cursor (log_entry r))) <$> logs)
  ∧ 0 ≤ seq.

Definition outbox_ok (ob : gmap string OutboxRow) : Prop :=
  ∀ i j r r', ob !! i = Some r → ob !! j = Some r' → outbox_key r = outbox_key r' → i = j.

Definition audit_ok (au : list AuditRecord) (seq : Z) : Prop :=
  au_sequence <$> au = seqZ 1 seq ∧ 0 ≤ seq.

Record db_ok (db : Db) : Prop := mkDbOk {
  dbok_communities : communities_ok (t_communities db);
  dbok_agents : agents_ok (t_communities db) (t_agents db);
  dbok_operations : operations_ok (t_agents db) (t_operations db);
  dbok_idempotency : idempotency_ok (t_operations db) (t_idempotency db);
  dbok_retention : retention_ok (t_agents db) (t_retention db);
  dbok_drafts : drafts_ok (t_drafts db);
  dbok_draft_idempotency : draft_idempotency_ok (t_drafts db) (t_draft_idempotency db);
  dbok_logs : logs_ok (t_agents db) (t_logs db) (t_log_seq db);
  dbok_outbox : outbox_ok (t_outbox db);
  dbok_audit : audit_ok (t_audit db) (t_audit_seq db)
}.

(** ** Every call that changes the store *)
Inductive StoreCall :=
| CallAppendJournal (entry : ReconciliationJournalEntry)
| CallAppendHealth (entry : HealthHistoryEntry)
| CallEnsureAutoJoin (agent : AgentId) (now : Z)
| CallClearAutoJoin (agent : AgentId)
| CallPutCommunity (config : CommunityConfig) (now : Z)
| CallDeleteCommunity (id : CommunityConfigId)
| CallDeleteCommunityWithAgents (id : CommunityConfigId) (now : Z) (fresh : nat → Z)
| CallRecordProjection (kind : RelayProjectionKind) (subject : string)
    (scope : RelayProjectionScope) (now : Z)
| CallEnqueue (fresh : Z) (action : RelayPublicationAction) (scope : RelayProjectionScope)
    (subject : string) (now : Z)
| CallCompletePublication (id : string)
| CallFailPublication (id error : string) (now : Z)
| CallRemoveProjection (community : CommunityConfigId) (kind : RelayProjectionKind)
    (subject : string)
| CallPutAgent (spec : AgentSpec) (now : Z)
| CallPurgeAgent (id : AgentId)
| CallPutDraft (draft : DraftResource) (now : Z)
| CallDeleteDraft (id : string)
| CallAppendLog (agent : AgentId) (entry : RedactedLogEntry)
| CallClaimReplay (event_id : string) (expires_at now : Z)
| CallCreateOperation (op : DurableOperation)
| CallDeleteOperation (id : OperationId)
| CallTransition (id : OperationId) (next : OperationStatus) (error_code : option ErrorCode)
    (now : Z)
| CallAppendAudit (record : NewAuditRecord)
| CallClaimIdempotency (record : IdempotencyRecord)
| CallAgentCommand (op : DurableOperation) (idem : IdempotencyRecord)
    (mutation : AgentCommandMutation) (draft : option string) (audit : NewAuditRecord)
| CallDraftCommand (draft : DraftResource) (scope key hash : string) (now : Z)
    (audit : NewAuditRecord)
| CallCompletePurge (agent : AgentId) (op : OperationId) (now : Z) (audit : NewAuditRecord).

Section Calls.
Context `{UuidLib}.

Definition run_call (c : StoreCall) (db : Db) : result StorageError Db :=
  match c with
  | CallAppendJournal entry => rmap snd (append_reconciliation_journal entry db)
  | CallAppendHealth entry => rmap snd (append_health_history entry db)
  | CallEnsureAutoJoin a now => rmap snd (ensure_auto_join_enabled_at a now db)
  | CallClearAutoJoin a => rmap snd (clear_auto_join_enabled_at a db)
  | CallPutCommunity config now => rmap snd (put_community config now db)
  | CallDeleteCommunity id => rmap snd (delete_community id db)
  | CallDeleteCommunityWithAgents id now fresh =>
    rmap snd (delete_community_with_deleted_agents id now fresh db)
  | CallRecordProjection kind subject scope now =>
    rmap snd (record_relay_projection kind subject scope now db)
  | CallEnqueue fresh action scope subject now =>
    rmap snd (enqueue_relay_publication fresh action scope subject now db)
  | CallCompletePublication id => rmap snd (complete_relay_publication id db)
  | CallFailPublication id error now => rmap snd (fail_relay_publication id error now db)
  | CallRemoveProjection community kind subject =>
    rmap snd (remove_relay_projection community kind subject db)
  | CallPutAgent spec now => rmap snd (put_agent spec now db)
  | CallPurgeAgent id => rmap snd (purge_agent_row id db)
  | CallPutDraft draft now => rmap snd (put_draft draft now db)
  | CallDeleteDraft id => rmap snd (delete_draft id db)
  | CallAppendLog agent entry => rmap snd (append_redacted_log agent entry db)
  | CallClaimReplay event_id expires_at now =>
    rmap snd (claim_nip98_replay event_id expires_at now db)
  | CallCreateOperation op => rmap snd (create_operation op db)
  | CallDeleteOperation id => rmap snd (delete_operation id db)
  | CallTransition id next error_code now =>
    rmap snd (transition_operation id next error_code now db)
  | CallAppendAudit record => rmap snd (append_audit record db)
  | CallClaimIdempotency record => rmap snd (claim_idempotency record db)
  | CallAgentCommand op idem mutation draft audit =>
    rmap snd (apply_agent_command op idem mutation draft audit db)
  | CallDraftCommand draft scope key hash now audit =>
    rmap snd (apply_draft_command draft scope key hash now audit db)
  | CallCompletePurge agent op now audit => rmap snd (complete_purge agent op now audit db)
  end.

(** A sequence of calls, each with its arguments; a call that fails changes nothing. *)
Definition after_call (db : Db) (c : StoreCall) : Db :=
  match run_call c db with Ok db' => db' | Err _ => db end.
Definition run_calls (cs : list StoreCall) (db : Db) : Db := fold_left after_call cs db.

End Calls.

(** How one operation record may evolve: same identity, kind, origin and correlation,
    a status reached by allowed changes, the agent reference at most lost, and nothing
    else changed once the status is terminal. *)
Definition op_evolves (o o' : DurableOperation) : Prop :=
  op_id o' = op_id o ∧ op_kind o' = op_kind o ∧ op_created_at o' = op_created_at o
  ∧ op_correlation_id o' = op_correlation_id o
  ∧ status_reaches (op_status o) (op_status o')
  ∧ (op_agent_id o' = op_agent_id o ∨ op_agent_id o' = None)
  ∧ (OperationStatus_is_terminal (op_status o) = true →
     op_error_code o' = op_error_code o ∧ op_updated_at o' = op_updated_at o).

(** Evolution of the whole table; rows in [gone] may have been removed. *)
Definition ops_evolve (gone : OperationId → Prop)
    (m m' : gmap OperationId DurableOperation) : Prop :=
  ∀ id o, m !! id = Some o → gone id ∨ ∃ o', m' !! id = Some o' ∧ op_evolves o o'.

(** An idempotency key keeps its request and operation while the operation exists. *)
Definition keys_kept (gone : OperationId → Prop)
    (m m' : gmap (string * string) IdempotencyRow) : Prop :=
  ∀ k row, m !! k = Some row → gone (ik_operation_id row) ∨ m' !! k = Some row.

(** A replay claim stays until it has expired. *)
Definition claims_kept (expired : Z → Prop) (m m' : gmap string Z) : Prop :=
  ∀ id e, m !! id = Some e → expired e ∨ m' !! id = Some e.

(** What a stretch of calls may drop: operations it deletes, replay claims whose expiry
    time has passed. *)
Record Window := mkWindow {
  w_removed : OperationId → Prop;
  w_expired : Z → Prop
}.

(** What the store records and must not lose or rewrite. *)
Record kept (w : Window) (db db' : Db) : Prop := mkKept {
  kept_operations : ops_evolve (w_removed w) (t_operations db) (t_operations db');
  kept_keys : keys_kept (w_removed w) (t_idempotency db) (t_idempotency db');
  kept_claims : claims_kept (w_expired w) (t_nip98 db) (t_nip98 db');
  kept_audit : t_audit db `prefix_of` t_audit db';
  kept_tombstones : t_tombstones db ⊆ t_tombstones db';
  kept_journal : t_journal db `prefix_of` t_journal db';
  kept_health : t_health db `prefix_of` t_health db'
}.

(** The tables [kept] speaks of. *)
Definition history (db : Db) :=
  (t_operations db, t_idempotency db, t_nip98 db, t_audit db, t_tombstones db, t_journal db,
   t_health db).

(** ** Lemmas: statements preserve the invariant *)
(** Unfold the table projections of an updated database. *)
Ltac db_cbn :=
  cbn [set_t_communities set_t_agents set_t_operations set_t_audit set_t_audit_seq
       set_t_idempotency set_t_drafts set_t_draft_idempotency set_t_logs set_t_log_seq
       set_t_nip98 set_t_retention set_t_tombstones set_t_projections set_t_outbox
       set_t_auto_join set_t_journal set_t_journal_seq set_t_health set_t_health_seq
       t_communities t_agents t_operations t_audit t_audit_seq t_idempotency t_drafts
       t_draft_idempotency t_logs t_log_seq t_nip98 t_retention t_tombstones t_projections
       t_outbox t_auto_join t_journal t_journal_seq t_health t_health_seq] in *.
(** [db_ok] of an updated database: the tables that did not change are done. *)
Ltac table_cases Hdb :=
  destruct Hdb; constructor; db_cbn; try assumption.

Lemma op_evolves_refl o : op_evolves o o.
Proof. unfold op_evolves. split_and!; try done. by left. Qed.

Lemma op_evolves_trans o1 o2 o3 : op_evolves o1 o2 → op_evolves o2 o3 → op_evolves o1 o3.
Proof.
  intros (H1&H2&H3&H4&H5&H6&H7) (G1&G2&G3&G4&G5&G6&G7). unfold op_evolves.
  split_and!; try congruence; [by etrans| |].
  - destruct G6 as [->| ->]; [done|by right].
  - intros Ht. destruct (H7 Ht) as [<- <-]. apply G7.
    by rewrite (terminal_reaches _ _ Ht H5).
Qed.

Lemma kept_history gone db db' : history db' = history db → kept gone db db'.
Proof.
  unfold history. intros [= H1 H2 H0 H3 H4 H5 H6]. constructor.
  - rewrite H1. intros id o Ho. right. eauto using op_evolves_refl.
  - rewrite H2. by intros ???; right.
  - rewrite H0. by intros ???; right.
  - by rewrite H3.
  - by rewrite H4.
  - by rewrite H5.
  - by rewrite H6.
Qed.

Lemma kept_refl gone db : kept gone db db.
Proof. by apply kept_history. Qed.

Lemma kept_trans gone db1 db2 db3 : kept gone db1 db2 → kept gone db2 db3 → kept gone db1 db3.
Proof.
  intros [A1 A2 A0 A3 A4 A5 A6] [B1 B2 B0 B3 B4 B5 B6]. constructor; [| | |by etrans..].
  - intros id o Ho. destruct (A1 id o Ho) as [?|(o' & Ho' & He)]; [by left|].
    destruct (B1 id o' Ho') as [?|(o'' & Ho'' & He')]; [by left|].
    right. eauto using op_evolves_trans.
  - intros k row Hk. destruct (A2 k row Hk) as [?|Hk']; [by left|by apply B2].
  - intros id e He. destruct (A0 id e He) as [?|He']; [by left|by apply B0].
Qed.

(** Only the operations changed. *)
Lemma kept_set_operations gone db m :
  ops_evolve (w_removed gone) (t_operations db) m → kept gone db (set_t_operations m db).
Proof. intros Hm. constructor; db_cbn; try done; by intros ???; right. Qed.

Lemma is_Some_insert {K V} `{Countable K} (m : gmap K V) i j v :
  is_Some (m !! j) → is_Some (<[i := v]> m !! j).
Proof. rewrite lookup_insert. case_decide; eauto. Qed.

Lemma agents_ok_communities_insert cs ag id row :
  agents_ok cs ag → agents_ok (<[id := row]> cs) ag.
Proof.
  intros Hok a r Ha. destruct (Hok a r Ha) as (? & ? & ? & ?).
  repeat split; auto using is_Some_insert.
Qed.

Lemma operations_ok_agents_insert ag ops id row :
  operations_ok ag ops → operations_ok (<[id := row]> ag) ops.
Proof.
  intros Hok o op Ho. destruct (Hok o op Ho) as [? Hfk].
  split; [done|]. intros a Ha. apply is_Some_insert. auto.
Qed.

Lemma retention_ok_agents_insert ag rt id row :
  retention_ok ag rt → retention_ok (<[id := row]> ag) rt.
Proof. intros Hok a r Ha. apply is_Some_insert. by apply (Hok a r). Qed.

Lemma logs_ok_agents_insert ag logs seq id row :
  logs_ok ag logs seq → logs_ok (<[id := row]> ag) logs seq.
Proof.
  intros (? & Hf & ? & ?). repeat split; try done. apply (Forall_impl _ _ _ Hf).
  intros r [? ?]. split; [|done]. by apply is_Some_insert.
Qed.

(** Storing an agent row that fits keeps every table consistent. *)
Lemma store_agent_ok db agent now :
  db_ok db → AgentSpec_validate agent = Ok tt →
  is_Some (t_communities db !! spec_community agent) →
  db_ok (set_t_agents (<[spec_id agent := mkAgentRow (spec_community agent) agent now]>
                         (t_agents db)) db).
Proof.
  intros Hdb Hv Hc. table_cases Hdb.
  - apply map_Forall_insert_2; [|done]. by repeat split.
  - by apply operations_ok_agents_insert.
  - by apply retention_ok_agents_insert.
  - by apply logs_ok_agents_insert.
Qed.

Lemma sql_insert_agent_ok db db' agent now :
  db_ok db → AgentSpec_validate agent = Ok tt → sql_insert_agent agent now db = Ok db' → db_ok db'.
Proof.
  unfold sql_insert_agent. intros Hdb Hv H. do 2 (step_in H). injection H as <-.
  apply store_agent_ok; [done|done|]. destruct (t_communities db !! _); [eauto|done].
Qed.

Lemma sql_upsert_agent_ok db db' agent now :
  db_ok db → AgentSpec_validate agent = Ok tt → sql_upsert_agent agent now db = Ok db' → db_ok db'.
Proof.
  unfold sql_upsert_agent. intros Hdb Hv H. step_in H. injection H as <-.
  apply store_agent_ok; [done|done|]. destruct (t_communities db !! _); [eauto|done].
Qed.

Lemma update_agent_transaction_ok db db' agent now :
  db_ok db → AgentSpec_validate agent = Ok tt →
  update_agent_transaction agent now db = Ok db' → db_ok db'.
Proof.
  unfold update_agent_transaction. intros Hdb Hv H. do 2 (step_in H). injection H as <-.
  apply store_agent_ok; [done|done|]. destruct (t_communities db !! _); [eauto|done].
Qed.

(** A surviving reference is to a surviving agent. *)
Lemma null_agent_lookup id op a :
  op_agent_id (null_agent id op) = Some a → op_agent_id op = Some a ∧ a ≠ id.
Proof.
  unfold null_agent. case_bool_decide as Hid; cbn; [done|]. intros Ha. split; [done|].
  intros ->. done.
Qed.

Lemma null_agent_evolves id op : op_evolves op (null_agent id op).
Proof.
  unfold null_agent. case_bool_decide; [|apply op_evolves_refl].
  unfold op_evolves. cbn. split_and!; try done. by right.
Qed.

Lemma StronglySorted_filter {A} (R : relation A) (P : A → Prop) `{∀ x, Decision (P x)} l :
  StronglySorted R l → StronglySorted R (filter P l).
Proof.
  induction 1 as [|x l Hs IH Hx]; [constructor|]. rewrite filter_cons. case_decide; [|done].
  constructor; [done|]. rewrite Forall_forall in Hx |- *. intros y [_ Hy]%list_elem_of_filter.
  by apply Hx.
Qed.

Lemma NoDup_fmap_filter {A B} (f : A → B) (P : A → Prop) `{∀ x, Decision (P x)} l :
  NoDup (f <$> l) → NoDup (f <$> filter P l).
Proof.
  induction l as [|x l IH]; [done|]. rewrite fmap_cons, NoDup_cons, filter_cons.
  intros [Hx Hl]. case_decide; [|auto]. rewrite fmap_cons, NoDup_cons. split; [|auto].
  rewrite list_elem_of_fmap in Hx |- *. intros (y & Hy & [_ Hin]%list_elem_of_filter). eauto.
Qed.

Lemma sql_delete_agent_ok db id : db_ok db → db_ok (sql_delete_agent id db).
Proof.
  unfold sql_delete_agent. destruct (t_agents db !! id) as [arow|] eqn:Eid; [|done].
  intros Hdb. table_cases Hdb.
  - by apply map_Forall_delete.
  - intros o op Ho. rewrite lookup_fmap in Ho.
    destruct (t_operations db !! o) as [op0|] eqn:E0; cbn in Ho; [|done]. simplify_eq.
    destruct (dbok_operations0 o op0 E0) as [Hid Hfk]. split.
    + unfold null_agent. by case_bool_decide.
    + intros a [Ha Hne]%null_agent_lookup. rewrite lookup_delete_ne by done. auto.
  - intros k r Hk. rewrite lookup_fmap, fmap_is_Some. by apply (dbok_idempotency0 k r).
  - intros a r Ha. apply lookup_delete_Some in Ha as [Hne Ha].
    rewrite lookup_delete_ne by done. by apply (dbok_retention0 a r).
  - destruct dbok_logs0 as (Hs & Hf & Hn & Hz). split_and!; [| | |done].
    + by apply StronglySorted_filter.
    + rewrite Forall_forall in Hf |- *. intros r [Hne Hin]%list_elem_of_filter.
      destruct (Hf r Hin). split; [|done]. by rewrite lookup_delete_ne.
    + by apply NoDup_fmap_filter.
Qed.

Lemma sql_delete_agent_kept gone db id : kept gone db (sql_delete_agent id db).
Proof.
  unfold sql_delete_agent. destruct (t_agents db !! id); [|apply kept_refl].
  apply (kept_trans _ _ (set_t_operations (null_agent id <$> t_operations db) db));
    [|by apply kept_history].
  apply kept_set_operations. intros o op Ho. right. exists (null_agent id op).
  rewrite lookup_fmap, Ho. split; [done|apply null_agent_evolves].
Qed.

Lemma sql_insert_operation_ok db db' op :
  db_ok db → sql_insert_operation op db = Ok db' → db_ok db'.
Proof.
  unfold sql_insert_operation. intros Hdb H. do 2 (step_in H). injection H as <-.
  table_cases Hdb.
  - apply map_Forall_insert_2; [|done]. split; [done|]. intros a Ha. rewrite Ha in E0.
    cbn in E0. destruct (t_agents db !! a); [eauto|done].
  - intros k r Hk. apply is_Some_insert. by apply (dbok_idempotency0 k r).
Qed.

Lemma sql_insert_operation_kept gone db db' op :
  sql_insert_operation op db = Ok db' → kept gone db db'.
Proof.
  unfold sql_insert_operation. intros H. do 2 (step_in H). injection H as <-.
  apply kept_set_operations. intros o op' Ho. right. exists op'. split; [|apply op_evolves_refl].
  rewrite lookup_insert_ne; [done|]. intros <-. by rewrite Ho in E.
Qed.

Lemma sql_update_operation_ok db id status code now :
  db_ok db → db_ok (sql_update_operation id status code now db).
Proof.
  unfold sql_update_operation. intros Hdb. table_cases Hdb.
  - intros o op Ho. rewrite lookup_alter in Ho. case_decide as Hd; [|by apply dbok_operations0].
    subst. destruct (t_operations db !! o) as [op0|] eqn:E; cbn in Ho; [|done]. simplify_eq.
    by destruct (dbok_operations0 o op0 E).
  - intros k r Hk. rewrite lookup_alter. case_decide; [rewrite fmap_is_Some; subst|];
      by apply (dbok_idempotency0 k r).
Qed.

Lemma sql_update_operation_kept gone db id op status code now :
  t_operations db !! id = Some op →
  OperationStatus_can_transition_to (op_status op) status = true →
  kept gone db (sql_update_operation id status code now db).
Proof.
  intros Hop Ht. apply kept_set_operations. intros o op' Ho. right.
  rewrite lookup_alter. case_decide as Hd; [|eauto using op_evolves_refl].
  subst. rewrite Ho. cbn. eexists; split; [done|]. simplify_eq. unfold op_evolves. cbn.
  split_and!; try done; [by apply rtc_once|by left|].
  intros Hterm. by rewrite terminal_no_step in Ht.
Qed.

Lemma sql_delete_operation_ok db id : db_ok db → db_ok (sql_delete_operation id db).
Proof.
  unfold sql_delete_operation. intros Hdb. table_cases Hdb.
  - by apply map_Forall_delete.
  - intros k r Hk. apply map_lookup_filter_Some in Hk as [Hk Hne]. cbn in Hne.
    rewrite lookup_delete_ne by done. by apply (dbok_idempotency0 k r).
Qed.

Lemma sql_insert_idempotency_ok db db' s k h o c :
  db_ok db → sql_insert_idempotency s k h o c db = Ok db' → db_ok db'.
Proof.
  unfold sql_insert_idempotency. intros Hdb H. do 2 (step_in H). injection H as <-.
  table_cases Hdb. apply map_Forall_insert_2; [|done]. cbn.
  destruct (t_operations db !! o); [eauto|done].
Qed.

Lemma sql_insert_audit_ok db r : db_ok db → db_ok (sql_insert_audit r db).
Proof.
  unfold sql_insert_audit. intros Hdb. table_cases Hdb. destruct dbok_audit0 as [Hs Hz].
  split; [|lia]. rewrite fmap_app, Hs. cbn. rewrite seqZ_app by lia. f_equal.
  rewrite seqZ_cons, seqZ_nil by lia. f_equal. lia.
Qed.

Lemma insert_audit_ok db db' r : db_ok db → insert_audit r db = Ok db' → db_ok db'.
Proof.
  unfold insert_audit. intros Hdb H. step_in H. injection H as <-. by apply sql_insert_audit_ok.
Qed.

Lemma sql_insert_tombstone_ok db id now op :
  db_ok db → db_ok (sql_insert_tombstone id now op db).
Proof.
  unfold sql_insert_tombstone. destruct (t_tombstones db !! id); [done|].
  intros Hdb. by table_cases Hdb.
Qed.

Lemma sql_upsert_retention_ok db db' id d p :
  db_ok db → sql_upsert_retention id d p db = Ok db' → db_ok db'.
Proof.
  unfold sql_upsert_retention. intros Hdb H. step_in H. injection H as <-. table_cases Hdb.
  apply map_Forall_insert_2; [|done]. destruct (t_agents db !! id); [eauto|done].
Qed.

Lemma delete_retention_ok db id :
  db_ok db → db_ok (set_t_retention (delete id (t_retention db)) db).
Proof. intros Hdb. table_cases Hdb. by apply map_Forall_delete. Qed.

Lemma store_draft_ok db id row :
  db_ok db → dr_id (drow_document row) = id → drow_owner_key row = dr_owner (drow_document row) →
  db_ok (set_t_drafts (<[id := row]> (t_drafts db)) db).
Proof.
  intros Hdb Hid Ho. table_cases Hdb.
  - by apply map_Forall_insert_2.
  - intros k r Hk. apply is_Some_insert. by apply (dbok_draft_idempotency0 k r).
Qed.

Lemma sql_promote_draft_ok db db' id op now :
  db_ok db → sql_promote_draft id op now db = Some db' → db_ok db'.
Proof.
  unfold sql_promote_draft. intros Hdb H. do 2 (step_in H). injection H as <-.
  destruct (dbok_drafts db Hdb id d E) as [? ?]. by apply store_draft_ok.
Qed.

Lemma sql_enqueue_ok db db' id row : db_ok db → sql_enqueue id row db = Ok db' → db_ok db'.
Proof.
  unfold sql_enqueue. intros Hdb H. step_in H; [by simplify_eq|]. step_in H. injection H as <-.
  table_cases Hdb. apply existsb_false_Forall in E. rewrite Forall_forall in E.
  assert (∀ i r, t_outbox db !! i = Some r → outbox_key r ≠ outbox_key row) as Hfresh.
  { intros i r Hi Heq. specialize (E (i, r)). rewrite elem_of_map_to_list in E.
    specialize (E Hi). cbn in E. by apply bool_decide_eq_false in E. }
  intros i j r r' Hi Hj Heq. rewrite lookup_insert_Some in Hi, Hj.
  destruct Hi as [[<- <-]|[_ Hi]], Hj as [[<- <-]|[_ Hj]].
  - done.
  - exfalso. by apply (Hfresh j r').
  - exfalso. by apply (Hfresh i r).
  - by apply (dbok_outbox0 i j r r').
Qed.

Lemma delete_outbox_ok db id : db_ok db → db_ok (set_t_outbox (delete id (t_outbox db)) db).
Proof.
  intros Hdb. table_cases Hdb. intros i j r r' Hi Hj.
  apply lookup_delete_Some in Hi as [_ Hi]. apply lookup_delete_Some in Hj as [_ Hj].
  by apply dbok_outbox0.
Qed.

(** ** Lemmas: operations preserve the invariant *)
Lemma rmap_snd_ok {A} (r : stored A) db' :
  rmap snd r = Ok db' → ∃ a, r = Ok (a, db').
Proof. destruct r as [[a d]|e]; cbn; [|done]. intros [= <-]. eauto. Qed.

Lemma map_err_ok {E F A} (f : E → F) (r : result E A) a : map_err f r = Ok a → r = Ok a.
Proof. destruct r; cbn; [|done]. by intros [= ->]. Qed.

Lemma stored_agent_valid db id agent :
  db_ok db → get_agent id db = Some agent →
  AgentSpec_validate agent = Ok tt ∧ spec_id agent = id.
Proof.
  unfold get_agent. intros Hdb Hg. destruct (t_agents db !! id) as [r|] eqn:E; cbn in Hg; [|discriminate Hg].
  injection Hg as <-. by destruct (dbok_agents db Hdb id r E) as (? & _ & _ & ?).
Qed.

Lemma apply_mutation_ok op mutation db db' :
  db_ok db → apply_mutation op mutation db = Ok db' → db_ok db'.
Proof.
  intros Hdb. destruct mutation as [agent|id changes|id s deadline]; cbn [apply_mutation]; intros H.
  - step_in H. destruct (AgentSpec_validate agent) as [[]|] eqn:Ev; [|done]. cbn in H.
    apply map_err_ok in H. by eapply sql_insert_agent_ok.
  - step_in H. destruct (load_agent_transaction id db); [|done].
    destruct (AgentSpec_validate (apply_changes changes a)) as [[]|] eqn:Ev; [|done]. cbn in H.
    by eapply update_agent_transaction_ok.
  - do 2 (step_in H). unfold load_agent_transaction in H.
    destruct (get_agent id db) as [agent|] eqn:Eg; [|done]. cbn [ok_or] in H.
    destruct (update_agent_transaction _ _ _) as [db1|] eqn:Eu; [|done].
    assert (db_ok db1) as Hdb1.
    { eapply update_agent_transaction_ok; [done| |done].
      change (AgentSpec_validate agent = Ok tt). by apply (stored_agent_valid db id agent). }
    step_in H; [step_in H; apply map_err_ok in H; by eapply sql_upsert_retention_ok|].
    step_in H; simplify_eq; [by apply delete_retention_ok|done].
Qed.

Lemma update_agent_transaction_history agent now db db' :
  update_agent_transaction agent now db = Ok db' → history db' = history db.
Proof. unfold update_agent_transaction. intros H. do 2 (step_in H). by injection H as <-. Qed.

Lemma apply_mutation_history op mutation db db' :
  apply_mutation op mutation db = Ok db' → history db' = history db.
Proof.
  destruct mutation as [agent|id changes|id s deadline]; cbn [apply_mutation]; intros H.
  - step_in H. step_in H. apply map_err_ok in H. unfold sql_insert_agent in H.
    do 2 (step_in H). by injection H as <-.
  - do 3 (step_in H). by apply update_agent_transaction_history in H.
  - do 4 (step_in H). apply update_agent_transaction_history in E2. rewrite <- E2.
    step_in H; [|step_in H; by simplify_eq].
    step_in H. apply map_err_ok in H. unfold sql_upsert_retention in H. step_in H.
    by injection H as <-.
Qed.

Lemma sql_insert_idempotency_kept gone s k h o c db db' :
  sql_insert_idempotency s k h o c db = Ok db' → kept gone db db'.
Proof.
  unfold sql_insert_idempotency. intros H. do 2 (step_in H). injection H as <-.
  constructor; db_cbn; try done; [by apply kept_refl| |by apply kept_refl].
  intros k' row Hk. right. rewrite lookup_insert_ne; [done|]. intros <-. by rewrite Hk in E.
Qed.

Lemma sql_insert_audit_kept gone r db : kept gone db (sql_insert_audit r db).
Proof.
  unfold sql_insert_audit. constructor; db_cbn; try done; [by apply kept_refl..|].
  by apply prefix_app_r.
Qed.

Lemma insert_audit_kept gone r db db' : insert_audit r db = Ok db' → kept gone db db'.
Proof. unfold insert_audit. intros H. step_in H. injection H as <-. apply sql_insert_audit_kept. Qed.

Lemma sql_insert_tombstone_kept gone id now op db :
  kept gone db (sql_insert_tombstone id now op db).
Proof.
  unfold sql_insert_tombstone. destruct (t_tombstones db !! id) eqn:E; [apply kept_refl|].
  constructor; db_cbn; try done; [by apply kept_refl..|]. by apply insert_subseteq.
Qed.

Lemma sql_promote_draft_history id op now db db' :
  sql_promote_draft id op now db = Some db' → history db' = history db.
Proof. unfold sql_promote_draft. intros H. do 2 (step_in H). by injection H as <-. Qed.

(** The fresh branch of [apply_agent_command], statement by statement. *)
Lemma apply_agent_command_fresh op idem mutation draft audit db op' db' :
  apply_agent_command op idem mutation draft audit db = Ok ((op', false), db') →
  t_idempotency db !! (ir_scope idem, ir_key idem) = None
  ∧ op' = op
  ∧ ∃ db1 db2 db3 db4,
      apply_mutation op mutation db = Ok db1
      ∧ sql_insert_operation op db1 = Ok db2
      ∧ sql_insert_idempotency (ir_scope idem) (ir_key idem) (ir_request_hash idem) (op_id op)
          (ir_created_at idem) db2 = Ok db3
      ∧ match draft with
        | Some d => sql_promote_draft d (op_id op) (op_created_at op) db3 = Some db4
        | None => db4 = db3
        end
      ∧ insert_audit audit db4 = Ok db'.
Proof.
  unfold apply_agent_command. intros H. step_in H.
  { by do 2 (step_in H). }
  do 5 (step_in H). injection H as <- <-.
  apply map_err_ok in E1, E2. split_and!; [done|done|].
  do 4 eexists. split_and!; [done|done|done| |done].
  destruct draft; cbn in E3; [|by injection E3 as <-].
  destruct (sql_promote_draft _ _ _ _); cbn in E3; [|done]. by injection E3 as <-.
Qed.

Lemma apply_agent_command_replay op idem mutation draft audit db op' db' :
  apply_agent_command op idem mutation draft audit db = Ok ((op', true), db') →
  db' = db ∧ ∃ row, t_idempotency db !! (ir_scope idem, ir_key idem) = Some row
    ∧ ik_request_hash row = ir_request_hash idem
    ∧ t_operations db !! ik_operation_id row = Some op'.
Proof.
  unfold apply_agent_command. intros H. step_in H.
  - step_in H. destruct (t_operations db !! _) eqn:Eo; [|done]. cbn in H. simplify_eq.
    split; [done|]. eexists. split_and!; [done| |done]. apply negb_false_iff in E0.
    by apply String.eqb_eq.
  - by do 5 (step_in H).
Qed.

Lemma apply_agent_command_ok op idem mutation draft audit db r db' :
  db_ok db → apply_agent_command op idem mutation draft audit db = Ok (r, db') →
  db_ok db' ∧ ∀ gone, kept gone db db'.
Proof.
  intros Hdb H. destruct r as [op' []].
  - apply apply_agent_command_replay in H as [-> _]. split; [done|]. intros. apply kept_refl.
  - apply apply_agent_command_fresh in H as (_ & _ & d1 & d2 & d3 & d4 & H1 & H2 & H3 & H4 & H5).
    assert (history d4 = history d3) as Hd4.
    { destruct draft; [by eapply sql_promote_draft_history|by subst]. }
    split.
    + eapply insert_audit_ok; [|done].
      assert (db_ok d3).
      { eapply sql_insert_idempotency_ok; [|done]. eapply sql_insert_operation_ok; [|done].
        by eapply apply_mutation_ok. }
      destruct draft; [by eapply sql_promote_draft_ok|by subst].
    + intros gone. apply (kept_trans _ _ d1); [by apply kept_history; eapply apply_mutation_history|].
      apply (kept_trans _ _ d2); [by eapply sql_insert_operation_kept|].
      apply (kept_trans _ _ d3); [by eapply sql_insert_idempotency_kept|].
      apply (kept_trans _ _ d4); [by apply kept_history|by eapply insert_audit_kept].
Qed.

Lemma apply_draft_command_ok draft scope key hash now audit db r db' :
  db_ok db → apply_draft_command draft scope key hash now audit db = Ok (r, db') →
  db_ok db' ∧ ∀ gone, kept gone db db'.
Proof.
  unfold apply_draft_command. intros Hdb H. step_in H.
  { do 2 (step_in H). injection H as <- <-. auto using kept_refl. }
  do 3 (step_in H). injection H as <- <-. apply map_err_ok in E0, E1.
  unfold sql_insert_draft in E0. step_in E0. injection E0 as <-.
  unfold sql_insert_draft_idempotency in E1. do 2 (step_in E1). injection E1 as <-.
  split; [|intros gone; eapply kept_trans; [|by eapply insert_audit_kept]; by apply kept_history].
  eapply insert_audit_ok; [|done].
  pose proof (store_draft_ok db (dr_id draft) (mkDraftRow (dr_owner draft) draft None now now)
    Hdb eq_refl eq_refl) as Hd. table_cases Hd.
  apply map_Forall_insert_2; [|done]. cbn. rewrite lookup_insert_eq. eauto.
Qed.

Lemma complete_purge_steps agent id now audit db db' :
  complete_purge agent id now audit db = Ok (tt, db') →
  ∃ op spec db1,
    t_operations db !! id = Some op ∧ op_agent_id op = Some agent ∧ op_kind op = PurgeAgent
    ∧ OperationStatus_can_transition_to (op_status op) Succeeded = true
    ∧ get_agent agent db = Some spec ∧ spec_desired_state spec = Deleted
    ∧ insert_audit audit (sql_update_operation id Succeeded None now db) = Ok db1
    ∧ db' = sql_delete_agent agent (sql_insert_tombstone agent now id db1).
Proof.
  unfold complete_purge. intros H.
  destruct (t_operations db !! id) as [op|] eqn:Eop; [|done].
  destruct (bool_decide _ && bool_decide _) eqn:Eb; [|done].
  apply andb_true_iff in Eb as [Ea Ek]. apply bool_decide_eq_true in Ea, Ek.
  step_in H. destruct (get_agent agent db) as [spec|] eqn:Eg; [|done]. cbn [ok_or] in H.
  do 2 (step_in H). injection H as <-. apply negb_false_iff in E, E0.
  apply bool_decide_eq_true in E0. by do 3 eexists.
Qed.

Lemma complete_purge_ok agent id now audit db r db' :
  db_ok db → complete_purge agent id now audit db = Ok (r, db') →
  db_ok db' ∧ ∀ gone, kept gone db db'.
Proof.
  intros Hdb H. destruct r.
  apply complete_purge_steps in H as (op & spec & d1 & Ho & _ & _ & Ht & _ & _ & Hau & ->).
  split.
  - apply sql_delete_agent_ok, sql_insert_tombstone_ok. eapply insert_audit_ok; [|done].
    by apply sql_update_operation_ok.
  - intros gone. eapply kept_trans; [by eapply sql_update_operation_kept|].
    eapply kept_trans; [|apply sql_delete_agent_kept].
    eapply kept_trans; [|apply sql_insert_tombstone_kept]. by eapply insert_audit_kept.
Qed.

Lemma sql_delete_community_ok id n db db' :
  db_ok db → sql_delete_community id db = Ok (n, db') →
  db_ok db' ∧ history db' = history db.
Proof.
  unfold sql_delete_community. intros Hdb H. step_in H; [|by simplify_eq].
  step_in H. injection H as <- <-. split; [|done]. table_cases Hdb.
  - by apply map_Forall_delete.
  - intros a r Ha. destruct (dbok_agents0 a r Ha) as (? & ? & ? & ?). repeat split; try done.
    rewrite lookup_delete_ne; [done|]. intros ->.
    unfold community_referenced in E0. apply existsb_false_Forall in E0.
    rewrite Forall_forall in E0. specialize (E0 (a, r)).
    rewrite elem_of_map_to_list in E0. specialize (E0 Ha). cbn in E0.
    by apply bool_decide_eq_false in E0.
Qed.

Lemma sql_enqueue_history id row db db' :
  sql_enqueue id row db = Ok db' → history db' = history db.
Proof.
  unfold sql_enqueue. intros H. step_in H; [by injection H as <-|]. step_in H. by injection H as <-.
Qed.

(** One call, or part of one, keeps the invariant and only moves operations forward. *)
Definition sound_step (gone : Window) (db db' : Db) : Prop :=
  db_ok db → db_ok db' ∧ kept gone db db'.

Lemma sound_step_same gone db db' :
  (db_ok db → db_ok db') → history db' = history db → sound_step gone db db'.
Proof. intros Hok Heq Hdb. auto using kept_history. Qed.

Lemma sound_step_trans gone db1 db2 db3 :
  sound_step gone db1 db2 → sound_step gone db2 db3 → sound_step gone db1 db3.
Proof.
  intros H1 H2 Hdb. destruct (H1 Hdb) as [Hdb2 ?]. destruct (H2 Hdb2) as [? ?].
  split; [done|]. by eapply kept_trans.
Qed.

Lemma sql_enqueue_sound gone id row db db' :
  sql_enqueue id row db = Ok db' → sound_step gone db db'.
Proof.
  intros H. apply sound_step_same; [intros; by eapply sql_enqueue_ok|by eapply sql_enqueue_history].
Qed.

Lemma sql_insert_operation_sound gone op db db' :
  sql_insert_operation op db = Ok db' → sound_step gone db db'.
Proof.
  intros H Hdb. split; [by eapply sql_insert_operation_ok|by eapply sql_insert_operation_kept].
Qed.

Lemma sql_delete_agent_sound gone id db : sound_step gone db (sql_delete_agent id db).
Proof. intros Hdb. split; [by apply sql_delete_agent_ok|apply sql_delete_agent_kept]. Qed.

Lemma sql_insert_tombstone_sound gone id now op db :
  sound_step gone db (sql_insert_tombstone id now op db).
Proof.
  intros Hdb. split; [by apply sql_insert_tombstone_ok|apply sql_insert_tombstone_kept].
Qed.

Section CallSoundness.
Context `{UuidLib}.

Lemma purge_deleted_agent_sound gone id now fresh agent n db n' db' :
  purge_deleted_agent id now fresh agent n db = Ok (n', db') → sound_step gone db db'.
Proof.
  unfold purge_deleted_agent. intros Hp. step_in Hp. destruct a as [m d1].
  step_in Hp. injection Hp as <- <-. apply map_err_ok in E0.
  eapply sound_step_trans; [|eapply sound_step_trans;
    [by apply (sql_insert_operation_sound gone _ _ _ E0)|]].
  - step_in E; [|injection E as <- <-; by intros Hdb; auto using kept_refl].
    do 2 (step_in E). injection E as <- <-. apply map_err_ok in E2, E3.
    eapply sound_step_trans; eapply sql_enqueue_sound; eassumption.
  - eapply sound_step_trans; [apply sql_insert_tombstone_sound|apply sql_delete_agent_sound].
Qed.

Lemma purge_deleted_agents_sound gone id now fresh agents n db n' db' :
  purge_deleted_agents id now fresh agents n db = Ok (n', db') → sound_step gone db db'.
Proof.
  revert n db. induction agents as [|a agents IH]; cbn; intros n db Hp.
  { injection Hp as <- <-. intros Hdb. auto using kept_refl. }
  step_in Hp. destruct a0 as [m d1].
  eapply sound_step_trans; [by eapply purge_deleted_agent_sound|by eapply IH].
Qed.

Lemma tombstone_personas_sound gone id now fresh rows n db db' :
  tombstone_personas id now fresh rows n db = Ok db' → sound_step gone db db'.
Proof.
  revert n db. induction rows as [|p rows IH]; cbn; intros n db Hp.
  { injection Hp as <-. intros Hdb. auto using kept_refl. }
  step_in Hp. apply map_err_ok in E.
  eapply sound_step_trans; [by eapply sql_enqueue_sound|by eapply IH].
Qed.

Lemma sql_delete_community_sound gone id n db db' :
  sql_delete_community id db = Ok (n, db') → sound_step gone db db'.
Proof.
  intros Hd Hdb. destruct (sql_delete_community_ok _ _ _ _ Hdb Hd). auto using kept_history.
Qed.

Lemma delete_community_with_deleted_agents_sound gone id now fresh db r db' :
  delete_community_with_deleted_agents id now fresh db = Ok (r, db') → sound_step gone db db'.
Proof.
  unfold delete_community_with_deleted_agents. intros Hd. do 3 (step_in Hd).
  destruct_pairs. do 2 (step_in Hd). destruct_pairs. injection Hd as <- <-. apply map_err_ok in E3.
  eapply sound_step_trans; [by eapply purge_deleted_agents_sound|].
  eapply sound_step_trans; [by eapply tombstone_personas_sound|].
  by eapply sql_delete_community_sound.
Qed.

Lemma put_draft_ok draft now db r db' : put_draft draft now db = Ok (r, db') → db_ok db → db_ok db'.
Proof.
  unfold put_draft. intros [= <- <-] Hdb. apply store_draft_ok; [done| |];
    by destruct (t_drafts db !! dr_id draft).
Qed.

Lemma delete_draft_ok id db r db' : delete_draft id db = Ok (r, db') → db_ok db → db_ok db'.
Proof.
  unfold delete_draft. intros [= <- <-] Hdb. table_cases Hdb.
  - by apply map_Forall_delete.
  - intros k row Hk. apply map_lookup_filter_Some in Hk as [Hk Hne]. cbn in Hne.
    rewrite lookup_delete_ne by done. by apply (dbok_draft_idempotency0 k row).
Qed.

Lemma append_redacted_log_ok agent entry db r db' :
  append_redacted_log agent entry db = Ok (r, db') → db_ok db → db_ok db'.
Proof.
  unfold append_redacted_log. intros Ha Hdb. do 2 (step_in Ha).
  - injection Ha as <- <-. table_cases Hdb. destruct dbok_logs0 as (? & Hf & ? & ?).
    repeat split; [done| |done|lia]. eapply Forall_impl; [exact Hf|]. cbn. intuition lia.
  - step_in Ha. injection Ha as <- <-. table_cases Hdb. destruct dbok_logs0 as (Hs & Hf & Hn & Hz).
    assert (is_Some (t_agents db !! agent)) by (destruct (t_agents db !! agent); [eauto|done]).
    split_and!; [| | |lia].
    + apply StronglySorted_app_2; [|done|repeat constructor]. intros x y Hx Hy.
      apply list_elem_of_singleton in Hy as ->. rewrite Forall_forall in Hf.
      destruct (Hf x Hx). unfold log_lt. cbn. lia.
    + apply Forall_app. split; [|by repeat constructor; cbn; try lia].
      eapply Forall_impl; [exact Hf|]. cbn. intuition lia.
    + rewrite fmap_app. apply NoDup_app. split_and!; [done| |cbn; apply NoDup_singleton].
      intros x Hx Hy. cbn in Hy. apply list_elem_of_singleton in Hy as ->.
      apply list_elem_of_fmap in Hx as (row & Heq & Hin). simplify_eq.
      apply existsb_false_Forall in E0. rewrite Forall_forall in E0. specialize (E0 row Hin).
      cbn in E0. rewrite bool_decide_eq_true_2 in E0 by done.
      rewrite String.eqb_sym in E0. cbn in E0. apply String.eqb_neq in E0. congruence.
Qed.

Lemma fail_relay_publication_ok id error now db r db' :
  fail_relay_publication id error now db = Ok (r, db') → db_ok db → db_ok db'.
Proof.
  unfold fail_relay_publication. intros [= <- <-] Hdb. table_cases Hdb.
  set (f := λ r0, _). assert (∀ r0, outbox_key (f r0) = outbox_key r0) as Hf by done.
  intros i j r1 r2 Hi Hj Heq.
  assert (∀ k x, alter f id (t_outbox db) !! k = Some x →
            ∃ y, t_outbox db !! k = Some y ∧ outbox_key x = outbox_key y) as Hlk.
  { intros k x. rewrite lookup_alter. case_decide; [subst|by eauto].
    intros (y & Hy & ->)%fmap_Some. exists y. split; [exact Hy|]. apply Hf. }
  destruct (Hlk _ _ Hi) as (y1 & Hy1 & Hk1), (Hlk _ _ Hj) as (y2 & Hy2 & Hk2).
  apply (dbok_outbox0 i j y1 y2); congruence.
Qed.

Lemma delete_community_sound gone id r db db' :
  delete_community id db = Ok (r, db') → sound_step gone db db'.
Proof.
  unfold delete_community. intros Hd. step_in Hd. destruct_pairs. step_in Hd.
  injection Hd as <- <-. apply map_err_ok in E. by eapply sql_delete_community_sound.
Qed.

Lemma transition_operation_sound gone id next code now r db db' :
  transition_operation id next code now db = Ok (r, db') → sound_step gone db db'.
Proof.
  unfold transition_operation. intros Ht. do 2 (step_in Ht). injection Ht as <- <-.
  apply negb_false_iff in E0. intros Hdb.
  split; [by apply sql_update_operation_ok|by eapply sql_update_operation_kept].
Qed.

Lemma claim_idempotency_sound gone record r db db' :
  claim_idempotency record db = Ok (r, db') → sound_step gone db db'.
Proof.
  unfold claim_idempotency. intros Hc. step_in Hc; step_in Hc.
  - injection Hc as <- <-. by apply sound_step_same.
  - injection Hc as <- <-. apply map_err_ok in E0.
    intros Hdb. split; [by eapply sql_insert_idempotency_ok|by eapply sql_insert_idempotency_kept].
Qed.

Lemma claim_nip98_replay_sound gone id expires now r db db' :
  (∀ e, e < now → w_expired gone e) →
  claim_nip98_replay id expires now db = Ok (r, db') → sound_step gone db db'.
Proof.
  unfold claim_nip98_replay. intros Hnow Hc Hdb. do 2 (step_in Hc).
  assert (∀ k e, t_nip98 db !! k = Some e → w_expired gone e
            ∨ filter (λ p, ¬ p.2 < now) (t_nip98 db) !! k = Some e) as Hkeep.
  { intros k e Hk. destruct (decide (e < now)); [left; auto|right]. by apply map_lookup_filter_Some. }
  step_in Hc; injection Hc as <- <-; (split; [by table_cases Hdb|]);
    constructor; db_cbn; try done; try by apply kept_refl.
  intros k e Hk. destruct (Hkeep k e Hk) as [?|Hk']; [by left|right].
  rewrite lookup_insert_ne; [done|]. intros ->. by rewrite Hk' in E1.
Qed.

(** Calls that leave [operations] alone and touch one unconstrained table. *)
Ltac simple_call Hr :=
  first [ injection Hr as <- <- | step_in Hr; injection Hr as <- <- ];
  apply sound_step_same; [intros Hdb; by table_cases Hdb|done].

(** What one call may drop. *)
Definition call_window (c : StoreCall) : Window :=
  mkWindow (λ id, c = CallDeleteOperation id)
    (λ e, ∃ id expires now, c = CallClaimReplay id expires now ∧ e < now).

Lemma append_reconciliation_journal_sound gone entry r db db' :
  append_reconciliation_journal entry db = Ok (r, db') → sound_step gone db db'.
Proof.
  unfold append_reconciliation_journal. intros Hr. step_in Hr. injection Hr as <- <-. intros Hdb.
  split; [by table_cases Hdb|]. constructor; db_cbn; try done; [by apply kept_refl..|].
  by apply prefix_app_r.
Qed.
Lemma append_health_history_sound gone entry r db db' :
  append_health_history entry db = Ok (r, db') → sound_step gone db db'.
Proof.
  unfold append_health_history. intros Hr. step_in Hr. injection Hr as <- <-. intros Hdb.
  split; [by table_cases Hdb|]. constructor; db_cbn; try done; [by apply kept_refl..|].
  by apply prefix_app_r.
Qed.
Lemma sql_delete_operation_sound id db :
  sound_step (call_window (CallDeleteOperation id)) db (sql_delete_operation id db).
Proof.
  intros Hdb. split; [by apply sql_delete_operation_ok|].
  unfold sql_delete_operation. constructor; db_cbn; try done; [| |by apply kept_refl].
  - intros o op Ho. destruct (decide (o = id)) as [->|Hne]; [by left|]. right. exists op.
    rewrite lookup_delete_ne by done. auto using op_evolves_refl.
  - intros k row Hk. destruct (decide (ik_operation_id row = id)) as [->|Hne]; [by left|].
    right. by apply map_lookup_filter_Some.
Qed.

Lemma run_call_sound c db db' :
  run_call c db = Ok db' → sound_step (call_window c) db db'.
Proof.
  destruct c; cbn [run_call]; intros [r Hr]%rmap_snd_ok.
  - by eapply append_reconciliation_journal_sound.
  - by eapply append_health_history_sound.
  - unfold ensure_auto_join_enabled_at in Hr. step_in Hr; simple_call Hr.
  - unfold clear_auto_join_enabled_at in Hr. simple_call Hr.
  - unfold put_community in Hr. step_in Hr. injection Hr as <- <-. apply map_err_ok in E.
    destruct a. apply sound_step_same; [intros Hdb; table_cases Hdb|done].
    + by apply map_Forall_insert_2.
    + by apply agents_ok_communities_insert.
  - by eapply delete_community_sound.
  - by eapply delete_community_with_deleted_agents_sound.
  - unfold record_relay_projection in Hr. simple_call Hr.
  - unfold enqueue_relay_publication in Hr. step_in Hr. injection Hr as <- <-.
    apply map_err_ok in E. by eapply sql_enqueue_sound.
  - unfold complete_relay_publication in Hr. injection Hr as <- <-.
    apply sound_step_same; [apply delete_outbox_ok|done].
  - apply sound_step_same; [by eapply fail_relay_publication_ok|by injection Hr as <- <-].
  - unfold remove_relay_projection in Hr. simple_call Hr.
  - unfold put_agent in Hr. do 2 (step_in Hr). injection Hr as <- <-. apply map_err_ok in E, E0.
    destruct a. apply sound_step_same; [intros Hdb; by eapply sql_upsert_agent_ok|].
    unfold sql_upsert_agent in E0. step_in E0. by injection E0 as <-.
  - unfold purge_agent_row in Hr. step_in Hr. injection Hr as <- <-. apply sql_delete_agent_sound.
  - apply sound_step_same; [by eapply put_draft_ok|by injection Hr as <- <-].
  - apply sound_step_same; [by eapply delete_draft_ok|by injection Hr as <- <-].
  - apply sound_step_same; [by eapply append_redacted_log_ok|].
    unfold append_redacted_log in Hr. do 2 (step_in Hr); [by injection Hr as <- <-|].
    step_in Hr. by injection Hr as <- <-.
  - eapply claim_nip98_replay_sound; [|done]. cbn. intros e He. by do 3 eexists.
  - unfold create_operation in Hr. step_in Hr. injection Hr as <- <-. apply map_err_ok in E.
    by eapply sql_insert_operation_sound.
  - unfold delete_operation in Hr. injection Hr as <- <-. apply sql_delete_operation_sound.
  - by eapply transition_operation_sound.
  - unfold append_audit in Hr. step_in Hr. injection Hr as <- <-.
    intros Hdb. split; [by apply sql_insert_audit_ok|apply sql_insert_audit_kept].
  - by eapply claim_idempotency_sound.
  - intros Hdb. destruct (apply_agent_command_ok _ _ _ _ _ _ _ _ Hdb Hr). auto.
  - intros Hdb. destruct (apply_draft_command_ok _ _ _ _ _ _ _ _ _ Hdb Hr). auto.
  - intros Hdb. destruct (complete_purge_ok _ _ _ _ _ _ _ Hdb Hr). auto.
Qed.

End CallSoundness.

Section Runs.
Context `{UuidLib}.

Lemma kept_weaken w w' db db' :
  (∀ id, w_removed w id → w_removed w' id) → (∀ e, w_expired w e → w_expired w' e) →
  kept w db db' → kept w' db db'.
Proof.
  intros Hr He [Ho Hk Hc ????]. constructor; try done.
  - intros id o Hid. destruct (Ho id o Hid); auto.
  - intros k row Hrow. destruct (Hk k row Hrow); auto.
  - intros id e Hid. destruct (Hc id e Hid); auto.
Qed.

Lemma after_call_sound c db : sound_step (call_window c) db (after_call db c).
Proof.
  unfold after_call. destruct (run_call c db) eqn:E; [by apply run_call_sound|].
  by apply sound_step_same.
Qed.

(** What a sequence of calls may drop. *)
Definition calls_window (cs : list StoreCall) : Window :=
  mkWindow (λ id, CallDeleteOperation id ∈ cs)
    (λ e, ∃ id expires now, CallClaimReplay id expires now ∈ cs ∧ e < now).

Lemma run_calls_sound cs db : sound_step (calls_window cs) db (run_calls cs db).
Proof.
  revert db. induction cs as [|c cs IH]; intros db; [by apply sound_step_same|].
  change (run_calls (c :: cs) db) with (run_calls cs (after_call db c)). intros Hdb.
  destruct (after_call_sound c db Hdb) as [Hok Hk]. destruct (IH _ Hok) as [Hok' Hk'].
  split; [done|]. eapply kept_trans; (eapply kept_weaken; [| |done]).
  - intros id ->. left.
  - intros e (id & x & now & -> & Hlt). exists id, x, now. split; [left|done].
  - intros id Hid. by right.
  - intros e (id & x & now & Hin & Hlt). exists id, x, now. split; [by right|done].
Qed.

Lemma empty_db_ok : db_ok empty_db.
Proof.
  constructor; try apply map_Forall_empty.
  - split_and!; [constructor|constructor|apply NoDup_nil_2|done].
  - intros i j r r' Hi. cbn in Hi. by rewrite lookup_empty in Hi.
  - done.
Qed.

(** ** Properties *)

(** C1: the store invariant. Whatever calls are made on a new store, whatever their
    arguments and whichever of them fail, the database is consistent: documents are
    valid and filed under their own identifiers, every foreign key (agent to community,
    operation, log and retention row to agent, key to operation, key to draft) names an
    existing row, log sequences grow and cursors are unique per agent, audit sequences
    are gapless, and the outbox holds no publication twice. *)
Theorem store_invariant (calls : list StoreCall) : db_ok (run_calls calls empty_db).
Proof. apply run_calls_sound, empty_db_ok. Qed.

(** C2: the durable record. Between any two moments of a store's life the audit trail,
    the journal and the health history only grow at their end, tombstones stay, and every
    operation that no call deletes is still there with the same identity, kind and
    correlation, its status moved only by allowed transitions, a terminal one untouched
    but for the reference to an agent that was purged; idempotency keys keep their
    request hash and operation, and NIP-98 replay claims stay until a claim made after
    their expiry. *)
Theorem store_history_is_kept (before after : list StoreCall) :
  let db := run_calls before empty_db in
  kept (calls_window after) db (run_calls after db).
Proof. intros db. apply run_calls_sound, run_calls_sound, empty_db_ok. Qed.

End Runs.
