(* ===== verification/StoreProps.v ===== *)
(** * What the durable store promises (src/src/storage.rs)
    Exactly-once commands, the effect of each mutation, purge, community removal, log
    paging and replay protection, as theorems on the functions of file Storage. *)
From stdpp Require Import base gmap strings list sorting.
From Stdlib Require Import ZArith Lia String.
From S2P Require Import Prelude RustStr Ids Lifecycle Agent Runtime Launch Auth ApiTypes Schema.
From S2P Require Import Storage StoreInv.

(** ** Idempotent commands *)

(** The key a successful command leaves. *)
Definition key_recorded (idem : IdempotencyRecord) (o : DurableOperation) (db : Db) : Prop :=
  ∃ row, t_idempotency db !! (ir_scope idem, ir_key idem) = Some row
    ∧ ik_request_hash row = ir_request_hash idem ∧ ik_operation_id row = op_id o
    ∧ t_operations db !! op_id o = Some o.

Lemma sql_insert_operation_lookup op db db' :
  sql_insert_operation op db = Ok db' → t_operations db' !! op_id op = Some op.
Proof.
  unfold sql_insert_operation. intros H. do 2 (step_in H). injection H as <-. db_cbn.
  apply lookup_insert_eq.
Qed.

Lemma sql_insert_idempotency_lookup s k h o c db db' :
  sql_insert_idempotency s k h o c db = Ok db' →
  t_idempotency db' !! (s, k) = Some (mkIdempotencyRow h o c)
  ∧ t_operations db' = t_operations db.
Proof.
  unfold sql_insert_idempotency. intros H. do 2 (step_in H). injection H as <-. db_cbn.
  split; [apply lookup_insert_eq|done].
Qed.

Lemma insert_audit_tables r db db' :
  insert_audit r db = Ok db' → db' = sql_insert_audit r db.
Proof. unfold insert_audit. intros H. step_in H. by injection H as <-. Qed.

Lemma apply_agent_command_recorded op idem mutation draft audit db r db' :
  db_ok db → apply_agent_command op idem mutation draft audit db = Ok (r, db') →
  key_recorded idem r.1 db'.
Proof.
  intros Hdb H. destruct r as [o []]; cbn [fst].
  - apply apply_agent_command_replay in H as (-> & row & Hk & Hh & Ho). exists row.
    assert (op_id o = ik_operation_id row) as Hid by apply (dbok_operations db Hdb _ _ Ho).
    rewrite Hid. by split_and!.
  - apply apply_agent_command_fresh in H
      as (_ & -> & d1 & d2 & d3 & d4 & _ & H2 & H3 & H4 & H5).
    apply sql_insert_operation_lookup in H2. apply sql_insert_idempotency_lookup in H3 as [Hk Ho].
    assert (history d4 = history d3) as Hd4.
    { destruct draft; [by eapply sql_promote_draft_history|by subst]. }
    unfold history in Hd4. injection Hd4 as Hd4o Hd4k _ _ _ _ _.
    apply insert_audit_tables in H5 as ->. eexists. unfold sql_insert_audit. db_cbn.
    rewrite Hd4k, Hd4o, Ho, Hk. by split_and!.
Qed.

Section ExactlyOnce.
Context `{UuidLib}.

Lemma key_recorded_kept idem o cs db :
  db_ok db → key_recorded idem o db → CallDeleteOperation (op_id o) ∉ cs →
  ∃ o', op_evolves o o' ∧ key_recorded idem o' (run_calls cs db).
Proof.
  intros Hdb (row & Hk & Hh & Hid & Ho) Hcs.
  destruct (run_calls_sound cs db Hdb) as [_ [Kops Kkeys _ _ _ _ _]].
  destruct (Kops _ _ Ho) as [?|(o' & Ho' & He)]; [done|].
  destruct (Kkeys _ _ Hk) as [Hgone|Hk']; [by rewrite Hid in Hgone|].
  exists o'. split; [done|]. exists row. destruct He as (Heq & _). by rewrite Heq.
Qed.

(** C3: commands apply exactly once. After a command succeeded under an idempotency key,
    and whatever else the store did since (short of deleting the operation), repeating
    the key with the same request changes nothing and answers with the same operation in
    its current state; repeating it with a different request is refused as a conflict.
    The repeated call's own operation, mutation and audit record play no role. *)
Theorem commands_apply_exactly_once (op : DurableOperation) (idem : IdempotencyRecord)
    (mutation : AgentCommandMutation) (draft : option string) (audit : NewAuditRecord)
    (db db1 : Db) (r : DurableOperation * bool) (since : list StoreCall)
    (op' : DurableOperation) (idem' : IdempotencyRecord) (mutation' : AgentCommandMutation)
    (draft' : option string) (audit' : NewAuditRecord) :
  db_ok db →
  apply_agent_command op idem mutation draft audit db = Ok (r, db1) →
  CallDeleteOperation (op_id r.1) ∉ since →
  ir_scope idem' = ir_scope idem → ir_key idem' = ir_key idem →
  let db2 := run_calls since db1 in
  let again := apply_agent_command op' idem' mutation' draft' audit' db2 in
  if String.eqb (ir_request_hash idem') (ir_request_hash idem)
  then ∃ o, again = Ok ((o, true), db2) ∧ op_evolves r.1 o
  else again = Err reused_key.
Proof.
  intros Hdb Hc Hs Hsc Hk db2 again.
  destruct (apply_agent_command_ok _ _ _ _ _ _ _ _ Hdb Hc) as [Hdb1 _].
  apply apply_agent_command_recorded in Hc; [|done].
  destruct (key_recorded_kept idem r.1 since db1 Hdb1 Hc Hs)
    as (o' & He & row & Hrow & Hh & Hid & Ho').
  subst again. unfold apply_agent_command. rewrite Hsc, Hk. fold db2 in Hrow, Ho'. rewrite Hrow, Hh.
  rewrite String.eqb_sym. case_match; cbn; [|done]. rewrite Hid, Ho'. cbn. eauto.
Qed.

End ExactlyOnce.

(** A small store: one community, one agent, created by one command. *)
Definition sample_operation (n : Z) (kind : OperationKind) : DurableOperation :=
  mkDurableOperation (mkOperationId n) kind Pending (Some (mkAgentId 7)) None 100 100 "corr".
Definition sample_key (n : Z) (key hash : string) : IdempotencyRecord :=
  mkIdempotencyRecord "unix_uid:0" key hash (mkOperationId n) 100.
Definition sample_audit (n : Z) : NewAuditRecord :=
  mkNewAuditRecord 100 "unix_uid:0" "unix_peer" (Some (mkCommunityConfigId 1))
    (Some (mkOperationId n)) "corr" (Some "key") "agent" "agent" None "accepted" None.
Definition sample_base : list StoreCall := [CallPutCommunity sample_community 1].
Definition sample_create : StoreCall :=
  CallAgentCommand (sample_operation 1 CreateAgent) (sample_key 1 "create" "h1")
    (MutCreate sample_agent) None (sample_audit 1).
Definition sample_db : Db := run_calls (sample_base ++ [sample_create]) empty_db.

Lemma sample_base_ok : db_ok (run_calls sample_base empty_db).
Proof. apply run_calls_sound, empty_db_ok. Qed.
Lemma sample_db_ok : db_ok sample_db.
Proof. apply run_calls_sound, empty_db_ok. Qed.

Lemma commands_apply_exactly_once_witness :
  ∃ db1 o,
    apply_agent_command (sample_operation 1 CreateAgent) (sample_key 1 "create" "h1")
      (MutCreate sample_agent) None (sample_audit 1) (run_calls sample_base empty_db)
    = Ok ((sample_operation 1 CreateAgent, false), db1)
    ∧ apply_agent_command (sample_operation 2 CreateAgent) (sample_key 2 "create" "h1")
        (MutCreate sample_agent) None (sample_audit 2)
        (run_calls [CallTransition (mkOperationId 1) Running None 5] db1)
      = Ok ((o, true), run_calls [CallTransition (mkOperationId 1) Running None 5] db1)
    ∧ op_evolves (sample_operation 1 CreateAgent) o.
Proof.
  destruct (apply_agent_command (sample_operation 1 CreateAgent) (sample_key 1 "create" "h1")
      (MutCreate sample_agent) None (sample_audit 1) (run_calls sample_base empty_db))
    as [[r db1]|] eqn:E; [|vm_compute in E; discriminate E].
  assert (r = (sample_operation 1 CreateAgent, false)) as Hr
    by (vm_compute in E; injection E as <- _; vm_compute; reflexivity).
  destruct (commands_apply_exactly_once _ _ _ _ _ _ _ _
      [CallTransition (mkOperationId 1) Running None 5]
      (sample_operation 2 CreateAgent) (sample_key 2 "create" "h1") (MutCreate sample_agent)
      None (sample_audit 2) sample_base_ok E) as (o & Ho & He).
  - rewrite Hr. intros Hin%list_elem_of_singleton. discriminate Hin.
  - reflexivity.
  - reflexivity.
  - exists db1, o. rewrite Hr in He |- *. split; [reflexivity|]. split; [exact Ho|exact He].
Defined.

(** ** The effect of a command *)

(** The agent document a mutation should leave. *)
Definition intended_agent (mutation : AgentCommandMutation) (db : Db) : option AgentSpec :=
  match mutation with
  | MutCreate agent => Some agent
  | MutUpdate id changes => apply_changes changes <$> get_agent id db
  | MutSetState id s _ => set_desired_state s <$> get_agent id db
  end.

(** The retention rows an operation should leave: deletion starts the clock, enabling
    stops it. *)
Definition intended_retention (op : DurableOperation) (id : AgentId)
    (mutation : AgentCommandMutation) (rt : gmap AgentId AgentRetention)
    : gmap AgentId AgentRetention :=
  match op_kind op, mutation with
  | DeleteAgent, MutSetState _ _ (Some deadline) =>
    <[id := mkAgentRetention (op_created_at op) deadline]> rt
  | EnableAgent, _ => delete id rt
  | _, _ => rt
  end.

(** Tables an agent mutation does not touch. *)
Definition rest_of_agents (db : Db) :=
  (t_communities db, t_drafts db, t_logs db, t_outbox db, t_audit_seq db, history db).

Lemma update_agent_transaction_effect agent now db db' :
  update_agent_transaction agent now db = Ok db' →
  db' = set_t_agents (<[spec_id agent := mkAgentRow (spec_community agent) agent now]>
                        (t_agents db)) db.
Proof. unfold update_agent_transaction. intros H. do 2 (step_in H). by injection H as <-. Qed.

Lemma apply_mutation_effect op mutation db db' :
  db_ok db → apply_mutation op mutation db = Ok db' →
  ∃ agent, intended_agent mutation db = Some agent
    ∧ AgentSpec_validate agent = Ok tt ∧ op_agent_id op = Some (spec_id agent)
    ∧ t_agents db' = <[spec_id agent := mkAgentRow (spec_community agent) agent
                                          (op_created_at op)]> (t_agents db)
    ∧ t_retention db' = intended_retention op (spec_id agent) mutation (t_retention db)
    ∧ rest_of_agents db' = rest_of_agents db.
Proof.
  intros Hdb. destruct mutation as [agent|id changes|id s deadline]; cbn [apply_mutation]; intros H.
  - step_in H. apply orb_false_iff in E as [Ek Ea]. apply negb_false_iff, bool_decide_eq_true in Ek, Ea.
    destruct (AgentSpec_validate agent) as [[]|] eqn:Ev; [|done]. cbn in H. apply map_err_ok in H.
    unfold sql_insert_agent in H. do 2 (step_in H). injection H as <-. exists agent.
    unfold intended_retention. by rewrite Ek.
  - step_in H. apply orb_false_iff in E as [Ek Ea]. apply negb_false_iff, bool_decide_eq_true in Ek, Ea.
    unfold load_agent_transaction in H. destruct (get_agent id db) as [a0|] eqn:Eg; [|done].
    cbn [ok_or] in H. destruct (AgentSpec_validate (apply_changes changes a0)) as [[]|] eqn:Ev; [|done].
    cbn [map_err] in H. apply update_agent_transaction_effect in H as ->.
    exists (apply_changes changes a0). unfold intended_retention. cbn [intended_agent].
    rewrite Eg, Ek. destruct (stored_agent_valid db id a0 Hdb Eg) as [_ Hid].
    split_and!; try done. cbn. by rewrite Hid.
  - do 2 (step_in H). apply orb_false_iff in E0 as [Ea Es].
    apply negb_false_iff, bool_decide_eq_true in Ea, Es. subst s.
    unfold load_agent_transaction in H. destruct (get_agent id db) as [a0|] eqn:Eg; [|done].
    cbn [ok_or] in H. destruct (stored_agent_valid db id a0 Hdb Eg) as [Hv Hid].
    exists (set_desired_state a a0). cbn [intended_agent]. rewrite Eg.
    destruct (update_agent_transaction _ _ _) as [db1|] eqn:Eu; [|done].
    apply update_agent_transaction_effect in Eu as ->. unfold intended_retention.
    case_bool_decide as Hdel; [|case_bool_decide as Hen].
    + rewrite Hdel. destruct deadline as [t|]; [|done]. cbn in H. apply map_err_ok in H.
      unfold sql_upsert_retention in H. step_in H. injection H as <-. cbn.
      split_and!; try done; by rewrite Hid.
    + rewrite Hen. injection H as <-. cbn. split_and!; try done; by rewrite Hid.
    + injection H as <-. cbn. split_and!; try done; [by rewrite Hid|].
      by destruct (op_kind op).
Qed.

(** C26: the effect of a command. A command that is applied (not replayed) leaves exactly
    the agent document its mutation describes, valid and under the operation's agent;
    starts the retention clock when it deletes and clears it when it enables; records the
    operation under a new identifier, appends one audit record, marks the draft it
    promotes, and touches no other agent, community, log or publication. *)
Theorem fresh_command_effect (op op' : DurableOperation) (idem : IdempotencyRecord)
    (mutation : AgentCommandMutation) (draft : option string) (audit : NewAuditRecord)
    (db db' : Db) :
  db_ok db →
  apply_agent_command op idem mutation draft audit db = Ok ((op', false), db') →
  op' = op
  ∧ ∃ agent, intended_agent mutation db = Some agent
    ∧ AgentSpec_validate agent = Ok tt ∧ op_agent_id op = Some (spec_id agent)
    ∧ t_agents db' = <[spec_id agent := mkAgentRow (spec_community agent) agent
                                          (op_created_at op)]> (t_agents db)
    ∧ t_retention db' = intended_retention op (spec_id agent) mutation (t_retention db)
    ∧ t_operations db !! op_id op = None
    ∧ t_operations db' = <[op_id op := op]> (t_operations db)
    ∧ (∃ record, t_audit db' = t_audit db ++ [record]
         ∧ au_sequence record = t_audit_seq db + 1 ∧ au_action record = na_action audit
         ∧ au_operation_id record = na_operation_id audit
         ∧ is_some_and (au_detail record) contains_secret_marker = false)
    ∧ (∀ d, draft = Some d → ∃ row, t_drafts db !! d = Some row
         ∧ drow_promoted_operation_id row = None
         ∧ (drow_promoted_operation_id <$> t_drafts db' !! d) = Some (Some (op_id op)))
    ∧ t_communities db' = t_communities db ∧ t_logs db' = t_logs db ∧ t_outbox db' = t_outbox db.
Proof.
  intros Hdb H.
  apply apply_agent_command_fresh in H as (_ & -> & d1 & d2 & d3 & d4 & H1 & H2 & H3 & H4 & H5).
  split; [done|].
  apply apply_mutation_effect in H1 as (agent & Ha & Hv & Hid & Hag & Hrt & Hrest); [|done].
  unfold rest_of_agents, history in Hrest. injection Hrest as Rc Rd Rl Ro Hseq Rop _ _ Rau _ _ _.
  unfold sql_insert_operation in H2. do 2 (step_in H2). injection H2 as <-.
  unfold sql_insert_idempotency in H3. do 2 (step_in H3). injection H3 as <-.
  unfold insert_audit in H5. destruct (is_some_and _ _) eqn:Esec in H5; [done|]. injection H5 as <-.
  exists agent.
  assert (t_operations db !! op_id op = None) by (rewrite <- Rop; by destruct (t_operations d1 !! op_id op)).
  destruct draft as [d|].
  - unfold sql_promote_draft in H4. do 2 (step_in H4). injection H4 as <-. unfold sql_insert_audit.
    db_cbn. rewrite <- Rop, <- Rc, <- Rl, <- Ro, <- Rau, <- Hseq, <- Rd.
    split_and!; try done; [by rewrite Rop|eexists; by split_and!|].
    intros ? [= <-]. exists d0. rewrite lookup_insert_eq. by split_and!.
  - subst d4. unfold sql_insert_audit. db_cbn.
    rewrite <- Rop, <- Rc, <- Rl, <- Ro, <- Rau, <- Hseq.
    split_and!; try done; [by rewrite Rop|eexists; by split_and!].
Qed.

Lemma fresh_command_effect_witness :
  ∃ op' db', apply_agent_command (sample_operation 2 DeleteAgent) (sample_key 2 "delete" "h2")
      (MutSetState (mkAgentId 7) Deleted (Some 500)) None (sample_audit 2) sample_db
    = Ok ((op', false), db')
    ∧ t_retention db' !! mkAgentId 7 = Some (mkAgentRetention 100 500).
Proof.
  destruct (apply_agent_command (sample_operation 2 DeleteAgent) (sample_key 2 "delete" "h2")
      (MutSetState (mkAgentId 7) Deleted (Some 500)) None (sample_audit 2) sample_db)
    as [[[op' []] db']|] eqn:E; [vm_compute in E; discriminate E| |vm_compute in E; discriminate E].
  exists op', db'. split; [reflexivity|].
  destruct (fresh_command_effect _ _ _ _ _ _ _ _ sample_db_ok E)
    as (_ & agent & _ & _ & Hid & _ & Hrt & _).
  rewrite Hrt. cbn in Hid. injection Hid as <-. reflexivity.
Defined.

(** ** Purge *)

Lemma sql_delete_agent_effect id db :
  is_Some (t_agents db !! id) →
  let db' := sql_delete_agent id db in
  t_agents db' = delete id (t_agents db) ∧ t_retention db' = delete id (t_retention db)
  ∧ t_logs db' = filter (λ r, log_agent_id r ≠ id) (t_logs db)
  ∧ t_operations db' = null_agent id <$> t_operations db
  ∧ t_tombstones db' = t_tombstones db ∧ t_audit db' = t_audit db.
Proof. unfold sql_delete_agent. by intros [row ->]. Qed.

Lemma sql_insert_tombstone_effect id now op db :
  let db' := sql_insert_tombstone id now op db in
  t_agents db' = t_agents db ∧ t_retention db' = t_retention db ∧ t_logs db' = t_logs db
  ∧ t_operations db' = t_operations db ∧ t_audit db' = t_audit db
  ∧ is_Some (t_tombstones db' !! id).
Proof.
  unfold sql_insert_tombstone. destruct (t_tombstones db !! id) eqn:E; db_cbn.
  - by rewrite E.
  - by rewrite lookup_insert_eq.
Qed.

Lemma null_agent_not id op : op_agent_id (null_agent id op) ≠ Some id.
Proof. intros [_ Hne]%null_agent_lookup. done. Qed.

(** What [complete_purge] requires. *)
Definition purge_ready (agent : AgentId) (id : OperationId) (db : Db) : Prop :=
  (∃ op, t_operations db !! id = Some op ∧ op_agent_id op = Some agent
         ∧ op_kind op = PurgeAgent ∧ op_status op = Running)
  ∧ (∃ spec, get_agent agent db = Some spec ∧ spec_desired_state spec = Deleted).

Lemma complete_purge_ready agent id now audit db :
  purge_ready agent id db →
  is_some_and (na_redacted_detail audit) contains_secret_marker = false →
  ∃ db', complete_purge agent id now audit db = Ok (tt, db').
Proof.
  intros [(op & Ho & Ha & Hk & Hs) (spec & Hg & Hd)] Hsec. unfold complete_purge.
  rewrite Ho, Ha, Hk, !bool_decide_eq_true_2 by done. cbn.
  rewrite Hs. cbn. rewrite Hg. cbn. rewrite Hd, bool_decide_eq_true_2 by done. cbn.
  unfold insert_audit. rewrite Hsec. eauto.
Qed.

Lemma complete_purge_needs_ready agent id now audit db db' :
  complete_purge agent id now audit db = Ok (tt, db') → purge_ready agent id db.
Proof.
  intros (op & spec & d1 & Ho & Ha & Hk & Ht & Hg & Hd & _)%complete_purge_steps.
  split; [|eauto]. exists op. split_and!; try done. by destruct (op_status op).
Qed.

(** C25: purge is all or nothing. It goes through exactly when the operation is a running
    purge of a recoverably deleted agent (and the audit detail carries no credential);
    then, in the one step, the operation has succeeded, the agent with its retention and
    log rows is gone, no operation refers to it, its identifier is tombstoned, one audit
    record is added, and every other agent, log row and operation is as it was. *)
Theorem purge_is_atomic (agent : AgentId) (id : OperationId) (now : Z) (audit : NewAuditRecord)
    (db : Db) :
  ((∃ db', complete_purge agent id now audit db = Ok (tt, db')) ↔
   purge_ready agent id db
   ∧ is_some_and (na_redacted_detail audit) contains_secret_marker = false)
  ∧ ∀ db', complete_purge agent id now audit db = Ok (tt, db') →
    (∃ op', t_operations db' !! id = Some op' ∧ op_status op' = Succeeded
            ∧ op_error_code op' = None ∧ op_updated_at op' = now)
    ∧ t_agents db' = delete agent (t_agents db)
    ∧ t_retention db' = delete agent (t_retention db)
    ∧ t_logs db' = filter (λ r, log_agent_id r ≠ agent) (t_logs db)
    ∧ (∀ o op', t_operations db' !! o = Some op' → op_agent_id op' ≠ Some agent)
    ∧ (∀ o, o ≠ id → t_operations db' !! o = null_agent agent <$> t_operations db !! o)
    ∧ is_agent_purged agent db' = true
    ∧ List.length (t_audit db') = S (List.length (t_audit db)).
Proof.
  split.
  - split; [intros [db' H]|intros [? ?]; by apply complete_purge_ready].
    split; [by eapply complete_purge_needs_ready|].
    apply complete_purge_steps in H as (op & spec & d1 & _ & _ & _ & _ & _ & _ & Hau & _).
    unfold insert_audit in Hau. by destruct (is_some_and _ _).
  - intros db' H.
    apply complete_purge_steps in H as (op & spec & d1 & Ho & Ha & _ & _ & Hg & _ & Hau & ->).
    unfold get_agent in Hg. destruct (t_agents db !! agent) as [row|] eqn:Erow; [|done].
    apply insert_audit_tables in Hau as ->.
    destruct (sql_insert_tombstone_effect agent now id
      (sql_insert_audit audit (sql_update_operation id Succeeded None now db)))
      as (Tag & Trt & Tlg & Top & Tau & Ttb).
    set (d2 := sql_insert_tombstone _ _ _ _) in *.
    destruct (sql_delete_agent_effect agent d2) as (Dag & Drt & Dlg & Dop & Dtb & Dau).
    { rewrite Tag. by exists row. }
    rewrite Dag, Drt, Dlg, Dau, Tag, Trt, Tlg, Tau. unfold is_agent_purged. rewrite Dtb, Dop, Top.
    unfold sql_insert_audit, sql_update_operation. db_cbn.
    split_and!; try done.
    + rewrite lookup_fmap, lookup_alter_eq, Ho. cbn. eexists. split; [done|].
      unfold null_agent. by case_bool_decide.
    + intros o op'. rewrite lookup_fmap. intros (op0 & _ & ->)%fmap_Some. apply null_agent_not.
    + intros o Hne. by rewrite lookup_fmap, lookup_alter_ne.
    + by destruct Ttb as [? ->].
    + rewrite length_app. cbn. lia.
Qed.

Definition sample_purging : Db :=
  run_calls [CallAgentCommand (sample_operation 2 PurgeAgent) (sample_key 2 "purge" "h2")
               (MutSetState (mkAgentId 7) Deleted None) None (sample_audit 2);
             CallTransition (mkOperationId 2) Running None 200] sample_db.

Lemma purge_is_atomic_witness :
  ∃ db', complete_purge (mkAgentId 7) (mkOperationId 2) 300 (sample_audit 2) sample_purging
         = Ok (tt, db')
    ∧ t_agents db' = delete (mkAgentId 7) (t_agents sample_purging).
Proof.
  destruct (complete_purge (mkAgentId 7) (mkOperationId 2) 300 (sample_audit 2) sample_purging)
    as [[[] db']|] eqn:E; [|vm_compute in E; discriminate E].
  exists db'. split; [reflexivity|].
  exact (proj1 (proj2 (proj2 (purge_is_atomic _ _ _ _ _) db' E))).
Defined.
