(* ===== verification/StoreQueries.v ===== *)
(** * Reading the store: log pages, replay claims, community removal
    (src/src/storage.rs, and [SqliteReplayGuard] of src/src/transport.rs). *)
From stdpp Require Import base gmap strings list sorting.
From Stdlib Require Import ZArith Lia String.
From S2P Require Import Prelude RustStr Ids Lifecycle Agent Runtime Launch Auth ApiTypes Schema.
From S2P Require Import Storage StoreInv StoreProps.

(** ** Log pages *)

(** The rows of one agent, oldest first. *)
Definition agent_log_rows (agent : AgentId) (db : Db) : list LogRow :=
  List.filter (λ r, bool_decide (log_agent_id r = agent)) (t_logs db).

Lemma elem_of_list_filter_bool {A} (f : A → bool) x l : x ∈ List.filter f l ↔ x ∈ l ∧ f x = true.
Proof. rewrite !list_elem_of_In. apply filter_In. Qed.

Lemma list_filter_all {A} (f : A → bool) l : (∀ x, x ∈ l → f x = true) → List.filter f l = l.
Proof.
  induction l as [|x l IH]; intros Hf; [done|]. cbn. rewrite Hf by left. f_equal. apply IH.
  intros y Hy. apply Hf. by right.
Qed.

Lemma list_filter_and {A} (f g : A → bool) l :
  List.filter (λ x, f x && g x) l = List.filter g (List.filter f l).
Proof.
  induction l as [|x l IH]; [done|]. cbn. destruct (f x); cbn; [|done]. by destruct (g x); rewrite IH.
Qed.

Lemma StronglySorted_list_filter {A} (R : relation A) (f : A → bool) l :
  StronglySorted R l → StronglySorted R (List.filter f l).
Proof.
  induction 1 as [|x l Hs IH Hx]; [constructor|]. cbn. destruct (f x); [|done].
  constructor; [done|]. rewrite Forall_forall in Hx |- *.
  intros y [Hy _]%elem_of_list_filter_bool. auto.
Qed.

(** In rows sorted by sequence, the rows after a given one are those with a larger sequence. *)
Lemma rows_after (rows : list LogRow) i r :
  StronglySorted log_lt rows → rows !! i = Some r →
  List.filter (λ x, log_sequence r <? log_sequence x) rows = drop (S i) rows.
Proof.
  revert i. induction rows as [|x rows IH]; intros i Hs Hi; [done|].
  inversion_clear Hs as [|? ? Hs' Hx]. rewrite Forall_forall in Hx. destruct i as [|i].
  - injection Hi as ->. cbn. rewrite Z.ltb_irrefl. rewrite drop_0. apply list_filter_all.
    intros y Hy%Hx. by apply Z.ltb_lt.
  - cbn in Hi |- *. assert (log_lt x r) as Hlt by by apply Hx, (list_elem_of_lookup_2 _ i).
    unfold log_lt in Hlt. rewrite (proj2 (Z.ltb_ge _ _)) by lia. by apply IH.
Qed.

Lemma find_unique {A} (f : A → bool) l x :
  x ∈ l → f x = true → (∀ y, y ∈ l → f y = true → y = x) → List.find f l = Some x.
Proof.
  intros Hx Hf Hu. destruct (List.find f l) as [y|] eqn:E.
  - apply find_some in E as [Hy Hfy]. f_equal. apply Hu; [by apply list_elem_of_In|done].
  - apply (find_none f l) with x in E; [|by apply list_elem_of_In]. congruence.
Qed.

Lemma cursor_sequence_of agent r db :
  logs_ok (t_agents db) (t_logs db) (t_log_seq db) → r ∈ t_logs db → log_agent_id r = agent →
  cursor_sequence agent (rl_cursor (log_entry r)) db = log_sequence r.
Proof.
  intros (_ & _ & Hnd & _) Hr Ha. unfold cursor_sequence.
  rewrite (find_unique _ _ r); [done|done| |].
  - rewrite bool_decide_eq_true_2 by done. cbn. apply String.eqb_refl.
  - intros y Hy [Hya Hyc]%andb_true_iff. apply bool_decide_eq_true in Hya.
    apply String.eqb_eq in Hyc. apply list_elem_of_lookup in Hr as [i Hi], Hy as [j Hj].
    assert (j = i) as ->; [|congruence].
    apply (NoDup_lookup _ j i (agent, rl_cursor (log_entry r)) Hnd); rewrite list_lookup_fmap;
      [rewrite Hj|rewrite Hi]; cbn; congruence.
Qed.

Section LogPages.
Context `{UuidLib}.

(** Log paging neither skips nor repeats. In any database the store can be in, the
    first page holds the oldest entries of the agent, and the page after an entry's
    cursor holds exactly the entries that follow it, up to the limit, in the order they
    were appended. *)
Theorem log_pages_are_consecutive (calls : list StoreCall) (agent : AgentId) (limit : Z) :
  let db := run_calls calls empty_db in
  let all := log_entry <$> agent_log_rows agent db in
  agent_logs agent None limit db = take (Z.to_nat limit) all
  ∧ ∀ i entry, all !! i = Some entry →
      agent_logs agent (Some (rl_cursor entry)) limit db = take (Z.to_nat limit) (drop (S i) all).
Proof.
  intros db all. assert (db_ok db) as Hdb by apply run_calls_sound, empty_db_ok.
  pose proof (dbok_logs db Hdb) as Hlogs. subst all. split.
  - unfold agent_logs, agent_log_rows. rewrite fmap_take. do 2 f_equal.
    apply List.filter_ext. intros r. apply andb_true_r.
  - intros i entry (r & -> & Hi)%list_lookup_fmap_Some.
    assert (r ∈ t_logs db ∧ log_agent_id r = agent) as [Hr Ha].
    { apply list_elem_of_lookup_2, elem_of_list_filter_bool in Hi as [? Hb].
      by apply bool_decide_eq_true in Hb. }
    unfold agent_logs. rewrite (cursor_sequence_of agent r db Hlogs Hr Ha).
    rewrite list_filter_and. fold (agent_log_rows agent db).
    rewrite (rows_after _ i r); [by rewrite fmap_take, fmap_drop| |done].
    apply StronglySorted_list_filter. apply Hlogs.
Qed.

End LogPages.

Definition sample_logs : list StoreCall :=
  let line c m := CallAppendLog (mkAgentId 7) (mkRedactedLogEntry c 5 "stdout" m) in
  sample_base ++ [sample_create; line "c1" "one"; line "c2" "two"; line "c1" "again";
                  line "c3" "three"].

Lemma log_pages_are_consecutive_witness :
  let db := run_calls sample_logs empty_db in
  rl_redacted_message <$> agent_logs (mkAgentId 7) (Some "c1") 5 db = ["two"; "three"].
Proof.
  intros db.
  rewrite (proj2 (log_pages_are_consecutive sample_logs (mkAgentId 7) 5) 0%nat
             (mkRedactedLogEntry "c1" 5 "stdout" "one")); [|vm_compute; reflexivity].
  vm_compute; reflexivity.
Defined.

(** ** NIP-98 replay protection *)

(** The store behind the guard and the reading of the guard's clock; [unwrap_or(false)]
    turns a storage error into a refusal. *)
Record SqliteReplayGuard := mkSqliteReplayGuard { srg_store : Db; srg_now : Z }.

#[export] Instance sqlite_replay_guard : ReplayGuard SqliteReplayGuard := {|
  claim event_id expires_at self :=
    match claim_nip98_replay event_id expires_at (srg_now self) (srg_store self) with
    | Ok (fresh, db) => (mkSqliteReplayGuard db (srg_now self), fresh)
    | Err _ => (self, false)
    end
|}.

Lemma claim_fresh event_id expires now db db' :
  claim_nip98_replay event_id expires now db = Ok (true, db') →
  expires ≤ i64_max ∧ t_nip98 db' !! event_id = Some expires.
Proof.
  unfold claim_nip98_replay. intros H. do 3 (step_in H). injection H as <-. db_cbn.
  split; [lia|]. apply lookup_insert_eq.
Qed.

Lemma claim_taken event_id expires e now db r db' :
  t_nip98 db !! event_id = Some e → now ≤ e →
  claim_nip98_replay event_id expires now db = Ok (r, db') → r = false.
Proof.
  unfold claim_nip98_replay. intros He Hle H. do 2 (step_in H).
  assert (filter (λ p, ¬ p.2 < now) (t_nip98 db) !! event_id = Some e) as Hk
    by (apply map_lookup_filter_Some; cbn; split; [done|lia]).
  rewrite Hk in H. by injection H as <- _.
Qed.

Section Replay.
Context `{UuidLib}.
Variable parse_event : string → option Event.
Variable verify_event : Event → bool.

(** One authentication against the stored claims, at a request clock and a guard clock. *)
Definition tls_authenticate (authority : Nip98AuthorityPolicy) (event_json method url : string)
    (payload_hash : option string) (now guard_now : Z) (db : Db)
    : Db * result AuthenticationError AuthenticatedPrincipal :=
  let '(g, r) := Nip98AuthorityPolicy_authenticate parse_event verify_event authority event_json
                   method url payload_hash now (mkSqliteReplayGuard db guard_now) in
  (srg_store g, r).

Lemma tls_authenticate_claims authority json method url payload now guard_now db db' p :
  tls_authenticate authority json method url payload now guard_now db = (db', Ok p) →
  ∃ event a, nip98_check parse_event verify_event authority json method url payload now
             = Ok (event, a)
    ∧ claim_nip98_replay (ev_id event)
        (u64_saturating_add (ev_created_at event) (nip98_freshness authority)) guard_now db
      = Ok (true, db').
Proof.
  unfold tls_authenticate, Nip98AuthorityPolicy_authenticate.
  destruct (nip98_check _ _ _ _ _ _ _ _) as [[event a]|]; [|done].
  unfold claim. cbn [sqlite_replay_guard srg_now srg_store].
  destruct (claim_nip98_replay _ _ _ _) as [[[] d]|] eqn:Ec; cbn; try done.
  intros [= <- _]. exists event, a. by rewrite Ec.
Qed.

(** C24: a NIP-98 proof is accepted at most once. After a request was accepted, whatever
    the store did since (including claims for other requests, none later than [now2]), a
    second request carrying the same event is refused at every later time [now2] at which
    the guard reads the same clock value as the request handler: either the event is
    stale, or its claim is still stored. *)
Theorem nip98_proof_accepted_once (authority : Nip98AuthorityPolicy)
    (json1 method1 url1 json2 method2 url2 : string) (payload1 payload2 : option string)
    (event : Event) (now1 guard1 now2 : Z) (db db1 : Db) (p : AuthenticatedPrincipal)
    (since : list StoreCall) :
  db_ok db →
  parse_event json1 = Some event → parse_event json2 = Some event →
  tls_authenticate authority json1 method1 url1 payload1 now1 guard1 db = (db1, Ok p) →
  (∀ id expires now, CallClaimReplay id expires now ∈ since → now ≤ now2) →
  ∃ db3 e, tls_authenticate authority json2 method2 url2 payload2 now2 now2
             (run_calls since db1) = (db3, Err e).
Proof.
  intros Hdb Hp1 Hp2 Hfirst Hclock.
  apply tls_authenticate_claims in Hfirst as (ev & a & Hc1 & Hclaim).
  apply nip98_check_ok in Hc1 as (Hev & _). rewrite Hp1 in Hev. injection Hev as <-.
  destruct (tls_authenticate _ json2 _ _ _ _ _ _) as [db3 [p'|e]] eqn:Hsecond; [|eauto].
  exfalso. apply tls_authenticate_claims in Hsecond as (ev' & a' & Hc2 & Hagain).
  apply nip98_check_ok in Hc2 as (Hev' & _ & _ & Hfresh & _). rewrite Hp2 in Hev'.
  injection Hev' as <-.
  destruct (claim_fresh _ _ _ _ _ Hclaim) as [Hmax Hrow].
  assert (now2 ≤ u64_saturating_add (ev_created_at event) (nip98_freshness authority)) as Hle
    by (revert Hmax; unfold u64_saturating_add, u64_max, i64_max; lia).
  assert (db_ok db1) as Hdb1.
  { eapply (claim_nip98_replay_sound (mkWindow (λ _, False) (λ _, True))); [|done|done]. done. }
  destruct (run_calls_sound since db1 Hdb1) as [_ Hkept].
  destruct (kept_claims _ _ _ Hkept _ _ Hrow) as [(id & x & n & Hin & Hlt)|Hrow'].
  - specialize (Hclock _ _ _ Hin). lia.
  - by pose proof (claim_taken _ _ _ _ _ _ _ Hrow' Hle Hagain).
Qed.

End Replay.

Lemma nip98_proof_accepted_once_witness :
  ∃ db1 p db3 e,
    tls_authenticate (λ _, Some sample_event) (λ _, true) sample_policy "{}" "POST"
      "https://host/v1" (Some "sha") 1030 1030 sample_db = (db1, Ok p)
    ∧ tls_authenticate (λ _, Some sample_event) (λ _, true) sample_policy "{}" "POST"
        "https://host/v1" (Some "sha") 1060 1060
        (run_calls [CallClaimReplay "other" 1090 1031] db1) = (db3, Err e).
Proof.
  destruct (tls_authenticate (λ _, Some sample_event) (λ _, true) sample_policy "{}" "POST"
      "https://host/v1" (Some "sha") 1030 1030 sample_db) as [db1 [p|e]] eqn:E;
    [|vm_compute in E; discriminate E].
  destruct (nip98_proof_accepted_once (λ _, Some sample_event) (λ _, true) sample_policy
    "{}" "POST" "https://host/v1" "{}" "POST" "https://host/v1" (Some "sha") (Some "sha")
    sample_event 1030 1030 1060 sample_db db1 p [CallClaimReplay "other" 1090 1031])
    as (db3 & e & H3).
  - exact sample_db_ok.
  - reflexivity.
  - reflexivity.
  - exact E.
  - intros id x n Hin%list_elem_of_singleton. injection Hin as -> -> ->. lia.
  - exists db1, p, db3, e. split; [reflexivity|exact H3].
Defined.

(** The guard reads its clock after the request handler did. When the second turns in
    between at the end of the window, the stored claim has expired for the guard while
    the event is still fresh for the handler, and the same proof is accepted again. *)
Theorem replay_window_at_clock_tick :
  ∃ db1 p db2 p',
    tls_authenticate (λ _, Some sample_event) (λ _, true) sample_policy "{}" "POST"
      "https://host/v1" (Some "sha") 1030 1030 sample_db = (db1, Ok p)
    ∧ tls_authenticate (λ _, Some sample_event) (λ _, true) sample_policy "{}" "POST"
        "https://host/v1" (Some "sha") 1060 1061 db1 = (db2, Ok p').
Proof.
  destruct (tls_authenticate (λ _, Some sample_event) (λ _, true) sample_policy "{}" "POST"
      "https://host/v1" (Some "sha") 1030 1030 sample_db) as [db1 [p|e]] eqn:E;
    [|vm_compute in E; discriminate E].
  vm_compute in E. injection E as <- <-. do 4 eexists. split; [reflexivity|].
  vm_compute. reflexivity.
Qed.
