(* ===== verification/CommunityRemoval.v ===== *)
(** * Removing a community, and retention (src/src/storage.rs)
    [delete_community_with_deleted_agents]: what it removes and what it refuses; two
    behaviours of deletion that differ from what the code means to do. *)
From stdpp Require Import base gmap strings list sorting.
From Stdlib Require Import ZArith Lia String.
From S2P Require Import Prelude RustStr Ids Lifecycle Agent Runtime Launch Auth ApiTypes Schema.
From S2P Require Import Storage StoreInv StoreProps.

(** Tables the outbox does not share. *)
Definition without_outbox (db : Db) := (t_communities db, t_agents db, t_tombstones db).

Lemma sql_enqueue_tables id row db db' :
  sql_enqueue id row db = Ok db' → without_outbox db' = without_outbox db.
Proof.
  unfold sql_enqueue. intros H. step_in H; [by injection H as <-|]. step_in H. by injection H as <-.
Qed.

Section Removal.
Context `{UuidLib}.

Lemma purge_deleted_agent_effect id now fresh agent n db n' db' :
  purge_deleted_agent id now fresh agent n db = Ok (n', db') →
  t_communities db' = t_communities db ∧ t_agents db' = delete agent (t_agents db)
  ∧ t_tombstones db ⊆ t_tombstones db' ∧ is_Some (t_tombstones db' !! agent).
Proof.
  unfold purge_deleted_agent. intros Hp. step_in Hp. destruct a as [m d1]. step_in Hp.
  injection Hp as <- <-. apply map_err_ok in E0.
  assert (without_outbox d1 = without_outbox db) as Hd1.
  { step_in E; [|by injection E as <- <-]. do 2 (step_in E). injection E as <- <-.
    apply map_err_ok in E2, E3. apply sql_enqueue_tables in E2, E3. congruence. }
  unfold without_outbox in Hd1. injection Hd1 as Hc Ha Ht.
  unfold sql_insert_operation in E0. do 2 (step_in E0). injection E0 as <-. cbn in E2.
  apply negb_false_iff in E2.
  set (d2 := set_t_operations _ d1) in *.
  pose proof (sql_insert_tombstone_kept (mkWindow (λ _, False) (λ _, False)) agent now
                (mkOperationId (fresh m)) d2) as Hk.
  destruct (sql_insert_tombstone_effect agent now (mkOperationId (fresh m)) d2)
    as (Tag & _ & _ & _ & _ & Ttb).
  set (d3 := sql_insert_tombstone _ _ _ _) in *.
  assert (t_communities d3 = t_communities d2) as Tc
    by (subst d3; unfold sql_insert_tombstone; by destruct (t_tombstones d2 !! agent)).
  destruct (sql_delete_agent_effect agent d3) as (Dag & _ & _ & _ & Dtb & _).
  { rewrite Tag. subst d2. db_cbn. by destruct (t_agents d1 !! agent); [eauto|]. }
  assert (t_communities (sql_delete_agent agent d3) = t_communities d3) as ->
    by (unfold sql_delete_agent; by destruct (t_agents d3 !! agent)).
  rewrite Tc, Dag, Tag, Dtb. split_and!; [done|by subst d2; db_cbn; rewrite Ha| |done].
  rewrite <- Ht. exact (kept_tombstones _ _ _ Hk).
Qed.

Lemma purge_deleted_agents_effect id now fresh agents n db n' db' :
  purge_deleted_agents id now fresh agents n db = Ok (n', db') →
  t_communities db' = t_communities db
  ∧ (∀ a, t_agents db' !! a = if bool_decide (a ∈ agents) then None else t_agents db !! a)
  ∧ t_tombstones db ⊆ t_tombstones db' ∧ (∀ a, a ∈ agents → is_Some (t_tombstones db' !! a)).
Proof.
  revert n db. induction agents as [|a0 agents IH]; cbn [purge_deleted_agents]; intros n db Hp.
  { injection Hp as <- <-. split_and!; [done| |done|by intros ??%not_elem_of_nil].
    intros a. by rewrite bool_decide_eq_false_2 by apply not_elem_of_nil. }
  step_in Hp. destruct a as [m d1].
  apply purge_deleted_agent_effect in E as (Hc & Ha & Hsub & Ht).
  apply IH in Hp as (Hc' & Ha' & Hsub' & Ht').
  split_and!; [congruence| |by etrans|].
  - intros a. rewrite Ha', Ha. destruct (decide (a = a0)) as [->|Hne].
    + rewrite lookup_delete_eq, (bool_decide_eq_true_2 (a0 ∈ a0 :: agents)) by left.
      by case_match.
    + rewrite lookup_delete_ne by done.
      by rewrite (bool_decide_ext (a ∈ a0 :: agents) (a ∈ agents)) by set_solver.
  - intros a [->|Hin]%elem_of_cons; [|auto].
    destruct Ht as [row Hrow]. exists row. by eapply lookup_weaken.
Qed.

Lemma tombstone_personas_tables id now fresh rows n db db' :
  tombstone_personas id now fresh rows n db = Ok db' → without_outbox db' = without_outbox db.
Proof.
  revert n db. induction rows as [|p rows IH]; cbn; intros n db Hp; [by injection Hp as <-|].
  step_in Hp. apply map_err_ok, sql_enqueue_tables in E. apply IH in Hp. congruence.
Qed.

Lemma elem_of_community_agents id db a row :
  (a, row) ∈ community_agents id db ↔ t_agents db !! a = Some row ∧ arow_community row = id.
Proof.
  unfold community_agents, agents_by_id. rewrite elem_of_sort_by, list_elem_of_filter.
  rewrite elem_of_map_to_list. cbn. tauto.
Qed.

Lemma check_deleted_agent_ok id db p a :
  check_deleted_agent id db p = Ok a →
  a = p.1 ∧ spec_desired_state (arow_document p.2) = Deleted
  ∧ last_delete_status p.1 db = Some Succeeded.
Proof.
  unfold check_deleted_agent. intros Hc. do 2 (step_in Hc). injection Hc as <-.
  apply negb_false_iff, bool_decide_eq_true in E, E0. done.
Qed.

Lemma check_deleted_agent_err id db p e :
  check_deleted_agent id db p = Err e → ∃ m, e = StConflict m.
Proof. unfold check_deleted_agent. intros Hc. by step_in Hc; [|step_in Hc]; injection Hc as <-; eauto. Qed.

Lemma collect_err {E A B} (f : A → result E B) l e :
  collect f l = Err e → ∃ x, x ∈ l ∧ f x = Err e.
Proof.
  induction l as [|x l IH]; cbn; [done|]. destruct (f x) eqn:Ex.
  - destruct (collect f l) eqn:El; [done|]. intros [= ->]. destruct IH as (y & ? & ?); [done|].
    exists y. split; [by right|done].
  - intros [= ->]. exists x. split; [left|done].
Qed.

Lemma community_agents_checked id db ids a :
  collect (check_deleted_agent id db) (community_agents id db) = Ok ids →
  a ∈ ids ↔ ∃ row, (a, row) ∈ community_agents id db.
Proof.
  intros Hf%collect_ok. split.
  - intros [i Hi]%list_elem_of_lookup.
    destruct (Forall2_lookup_r _ _ _ _ _ Hf Hi) as ([b row] & Hb & Hc).
    apply check_deleted_agent_ok in Hc as (-> & _). exists row. by eapply list_elem_of_lookup_2.
  - intros [row [i Hi]%list_elem_of_lookup].
    destruct (Forall2_lookup_l _ _ _ _ _ Hf Hi) as (b & Hb & Hc).
    apply check_deleted_agent_ok in Hc as (-> & _). by eapply list_elem_of_lookup_2.
Qed.

(** Removing a community purges its agents and nothing else. When it succeeds, every
    agent of the community had been deleted and its latest delete or purge operation had
    succeeded; the community and exactly those agents are gone and the agents are
    tombstoned and reported; the agents and communities that remain are unchanged. An
    existing community with an agent that is not deleted, or whose deletion has not
    succeeded, is refused as a conflict. *)
Theorem remove_community_purges_only_its_agents (id : CommunityConfigId) (now : Z)
    (fresh : nat → Z) (db : Db) :
  (∀ purged db', delete_community_with_deleted_agents id now fresh db = Ok (purged, db') →
     (∀ a, a ∈ purged ↔ ∃ row, t_agents db !! a = Some row ∧ arow_community row = id)
     ∧ (∀ a row, t_agents db !! a = Some row → arow_community row = id →
          spec_desired_state (arow_document row) = Deleted
          ∧ last_delete_status a db = Some Succeeded)
     ∧ t_communities db' = delete id (t_communities db)
     ∧ (∀ a, t_agents db' !! a = if bool_decide (a ∈ purged) then None else t_agents db !! a)
     ∧ (∀ a, a ∈ purged → is_agent_purged a db' = true))
  ∧ (∀ a row, is_Some (t_communities db !! id) → t_agents db !! a = Some row →
       arow_community row = id →
       spec_desired_state (arow_document row) ≠ Deleted
       ∨ last_delete_status a db ≠ Some Succeeded →
       ∃ message, delete_community_with_deleted_agents id now fresh db = Err (StConflict message)).
Proof.
  split.
  - intros purged db' Hd. unfold delete_community_with_deleted_agents in Hd. do 3 (step_in Hd).
    rename a into ids. destruct_pairs. do 2 (step_in Hd). destruct_pairs. injection Hd as <- <-.
    apply map_err_ok in E3. apply tombstone_personas_tables in E2. injection E2 as Pc Pa Pt.
    apply purge_deleted_agents_effect in E1 as (Ac & Aa & _ & At).
    unfold sql_delete_community in E3. rewrite Pc, Ac, E in E3. step_in E3. injection E3 as _ <-.
    db_cbn. rewrite Pa. unfold is_agent_purged. db_cbn. rewrite Pt. split_and!; [| |done|done|].
    + intros x. rewrite (community_agents_checked _ _ _ _ E0). by setoid_rewrite elem_of_community_agents.
    + intros x row Ha Hc. assert ((x, row) ∈ community_agents id db) as [i Hi]%list_elem_of_lookup
        by by apply elem_of_community_agents.
      destruct (Forall2_lookup_l _ _ _ _ _ (collect_ok _ _ _ E0) Hi) as (b & _ & Hb).
      by apply check_deleted_agent_ok in Hb as (_ & ? & ?).
    + intros x Hx. by destruct (At x Hx) as [? ->].
  - intros a row [crow Hc] Ha Hcom Hbad. unfold delete_community_with_deleted_agents. rewrite Hc.
    destruct (collect (check_deleted_agent id db) (community_agents id db)) as [ids|e] eqn:Ecol.
    + exfalso. assert ((a, row) ∈ community_agents id db) as [i Hi]%list_elem_of_lookup
        by by apply elem_of_community_agents.
      destruct (Forall2_lookup_l _ _ _ _ _ (collect_ok _ _ _ Ecol) Hi) as (b & _ & Hb).
      apply check_deleted_agent_ok in Hb as (_ & ? & ?). by destruct Hbad.
    + apply collect_err in Ecol as (p & _ & (m & ->)%check_deleted_agent_err). eauto.
Qed.

End Removal.

Definition sample_deleted : Db :=
  run_calls [CallAgentCommand (sample_operation 2 DeleteAgent) (sample_key 2 "delete" "h2")
               (MutSetState (mkAgentId 7) Deleted (Some 500)) None (sample_audit 2);
             CallTransition (mkOperationId 2) Running None 200;
             CallTransition (mkOperationId 2) Succeeded None 201] sample_db.

Lemma remove_community_purges_only_its_agents_witness :
  ∃ purged db', delete_community_with_deleted_agents (mkCommunityConfigId 1) 300
      (λ n, 1000 + Z.of_nat n) sample_deleted = Ok (purged, db')
    ∧ t_communities db' = delete (mkCommunityConfigId 1) (t_communities sample_deleted).
Proof.
  destruct (delete_community_with_deleted_agents (mkCommunityConfigId 1) 300
      (λ n, 1000 + Z.of_nat n) sample_deleted) as [[purged db']|] eqn:E;
    [|vm_compute in E; discriminate E].
  exists purged, db'. split; [reflexivity|].
  exact (proj1 (proj2 (proj2 (proj1 (remove_community_purges_only_its_agents
    (mkCommunityConfigId 1) 300 (λ n, 1000 + Z.of_nat n) sample_deleted) purged db' E)))).
Defined.

(** A community that agents still refer to is not deleted by [delete_community], but the
    caller is told of an internal database error and not of a conflict: the constraint
    mapping does not know the code SQLite reports for [ON DELETE RESTRICT]. *)
Theorem delete_community_reports_database_error (id : CommunityConfigId) (db : Db)
    (row : CommunityRow) :
  t_communities db !! id = Some row → community_referenced id db = true →
  delete_community id db = Err (Database ConstraintTrigger)
  ∧ ApplicationError_from (Database ConstraintTrigger) = AppInternal.
Proof. intros Hc Hr. unfold delete_community, sql_delete_community. by rewrite Hc, Hr. Qed.
