(* ===== verification/Monad.v ===== *)
(** * Fallible stateful computations
    [M W E A]: a computation over the world [W] that returns [Ok] or [Err] and, either
    way, the world it leaves: what was committed before an error stays. *)
From stdpp Require Import base list.
From S2P Require Import Prelude.

Definition M (W E A : Type) : Type := W → result E A * W.

#[export] Instance M_ret {W E} : MRet (M W E) := λ A a w, (Ok a, w).
#[export] Instance M_bind {W E} : MBind (M W E) := λ A B f m w,
  match m w with (Ok a, w') => f a w' | (Err e, w') => (Err e, w') end.

Section Ops.
Context {W E : Type}.

Definition throw {A} (e : E) : M W E A := λ w, (Err e, w).
Definition of_result {A} (r : result E A) : M W E A := λ w, (r, w).
Definition gets {A} (f : W → A) : M W E A := λ w, (Ok (f w), w).
Definition modify (f : W → W) : M W E unit := λ w, (Ok tt, f w).
Definition M_map_err {F A} (f : E → F) (m : M W E A) : M W F A :=
  λ w, let '(r, w') := m w in (map_err f r, w').

(** Visiting a list in order, collecting the answers. *)
Fixpoint mapM' {A B} (f : A → M W E B) (l : list A) : M W E (list B) :=
  match l with
  | [] => mret []
  | x :: l' => y ← f x; ys ← mapM' f l'; mret (y :: ys)
  end.
Fixpoint forM_ {A} (f : A → M W E unit) (l : list A) : M W E unit :=
  match l with
  | [] => mret tt
  | x :: l' => _ ← f x; forM_ f l'
  end.

End Ops.

(** A part of a larger state, and a computation on the part. *)
Class Has (S W : Type) : Type := { part : W → S; set_part : S → W → W }.
Definition on {S W E A} `{Has S W} (m : M S E A) : M W E A := λ w,
  let '(r, s) := m (part w) in (r, set_part s w).
#[export] Instance has_fst {A B} : Has A (A * B) := {| part := fst; set_part := λ a w, (a, w.2) |}.
#[export] Instance has_snd {A B} : Has B (A * B) := {| part := snd; set_part := λ b w, (w.1, b) |}.

(** ** Lemmas *)
Lemma bind_ok {W E A B} (m : M W E A) (f : A → M W E B) w b w' :
  (m ≫= f) w = (Ok b, w') → ∃ a w1, m w = (Ok a, w1) ∧ f a w1 = (Ok b, w').
Proof. unfold mbind, M_bind. destruct (m w) as [[a|e] w1]; [eauto|done]. Qed.

Lemma bind_run {W E A B} (m : M W E A) (f : A → M W E B) w r w' :
  (m ≫= f) w = (r, w') →
  (∃ e, m w = (Err e, w') ∧ r = Err e) ∨ (∃ a w1, m w = (Ok a, w1) ∧ f a w1 = (r, w')).
Proof. unfold mbind, M_bind. destruct (m w) as [[a|e] w1]; [eauto|]. intros [= <- <-]. eauto. Qed.

Lemma bind_after {W E A B} (m : M W E A) (f : A → M W E B) w a w1 :
  m w = (Ok a, w1) → (m ≫= f) w = f a w1.
Proof. unfold mbind, M_bind. by intros ->. Qed.

(** ** What every run of a computation does to the world *)
Definition always {W E A} (R : W → W → Prop) (m : M W E A) : Prop := ∀ w, R w (m w).2.

Lemma always_run {W E A} (R : W → W → Prop) (m : M W E A) w r w' :
  always R m → m w = (r, w') → R w w'.
Proof. intros Hm E0. specialize (Hm w). by rewrite E0 in Hm. Qed.

Section Always.
Context {W E : Type} (R : W → W → Prop) `{!PreOrder R}.

Lemma always_ret {A} (a : A) : always R (mret a : M W E A).
Proof. intros w. reflexivity. Qed.
Lemma always_bind {A B} (m : M W E A) (f : A → M W E B) :
  always R m → (∀ a, always R (f a)) → always R (m ≫= f).
Proof.
  intros Hm Hf w. specialize (Hm w). unfold mbind, M_bind.
  destruct (m w) as [[a|e] w1]; cbn in *; [|done]. by etrans; [|apply Hf].
Qed.
Lemma always_throw {A} (e : E) : always R (throw e : M W E A).
Proof. intros w. reflexivity. Qed.
Lemma always_of_result {A} (r : result E A) : always R (of_result r : M W E A).
Proof. intros w. reflexivity. Qed.
Lemma always_gets {A} (f : W → A) : always R (gets f : M W E A).
Proof. intros w. reflexivity. Qed.
Lemma always_map_err {F A} (f : E → F) (m : M W E A) : always R m → always R (M_map_err f m).
Proof. intros Hm w. unfold M_map_err. specialize (Hm w). by destruct (m w). Qed.
Lemma always_forM_ {A} (f : A → M W E unit) l : (∀ a, always R (f a)) → always R (forM_ f l).
Proof. intros Hf. induction l; cbn; [apply always_ret|apply always_bind; auto]. Qed.
Lemma always_mapM' {A B} (f : A → M W E B) l : (∀ a, always R (f a)) → always R (mapM' f l).
Proof.
  intros Hf. induction l; cbn; [apply always_ret|]. apply always_bind; [done|]. intros y.
  apply always_bind; [done|]. intros ys. apply always_ret.
Qed.

End Always.

(** Structural steps of an [always] goal; the leaves remain. *)
Ltac always_steps :=
  repeat first
    [ match goal with |- always ?R _ =>
        first [ apply (always_ret R) | apply (always_throw R) | apply (always_of_result R)
              | apply (always_gets R) | apply (always_bind R); [|intros ?] ]
      end
    | match goal with
      | |- always _ (if ?b then _ else _) => destruct b
      | |- always _ (match ?x with _ => _ end) => destruct x
      end
    | progress cbn beta iota ].
