(* ===== verification/Application.v ===== *)
(** * Lifecycle application service (src/src/application.rs)
    [SqliteLifecycleApplication]: commands over the durable store, the injected effects
    ([LifecycleEffects]) and the completion signal. Clock readings and UUID draws are
    successive elements of arbitrary sequences; request serialisation and SHA-256 are
    parameters. *)
From stdpp Require Import base gmap strings list.
From Stdlib Require Import ZArith Lia String.
From S2P Require Import Prelude RustStr Ids Lifecycle Agent Auth ApiTypes Schema Storage StoreInv.
From S2P Require Import Monad.

Definition DEFAULT_RETENTION_SECONDS : Z := 30 * 24 * 60 * 60.

(** The store, the state behind the effects, the completion generation (a [u64]), and how
    many clock readings and UUIDs have been taken. *)
Record World (F : Type) := mkWorld {
  w_db : Db;
  w_fx : F;
  w_generation : Z;
  w_clock : nat;
  w_draws : nat
}.
Arguments mkWorld {F}.
Arguments w_db {F}.
Arguments w_fx {F}.
Arguments w_generation {F}.
Arguments w_clock {F}.
Arguments w_draws {F}.

Definition App (F A : Type) : Type := M (World F) ApplicationError A.

(** The effects trait; an effect may use the store it shares with the application. *)
Class LifecycleEffects (F : Type) := {
  verify_community_join : CommunityConfig → App F unit;
  community_changed : CommunityConfigId → World F → World F;
  community_identity_unreferenced : string → World F → World F;
  community_agents_purged : list AgentId → App F unit;
  fx_create_persona : CreatePersonaRequest → App F PersonaDefinition;
  fx_update_persona : UpdatePersonaRequest → App F PersonaDefinition;
  fx_get_persona : string → App F PersonaDefinition;
  fx_list_personas : App F (list PersonaDefinition);
  fx_delete_persona : string → App F PersonaDefinition;
  prepare_agent_create : AgentId → CreateAgentInput → App F AgentSpec;
  persist_agent_create : AgentSpec → CreateAgentInput → App F unit;
  prepare_agent_update : AgentSpec → UpdateAgentInput → App F unit;
  agent_public_key : AgentId → App F (option string);
  agent_system_prompt_file : AgentId → App F (option string);
  operation_ready : DurableOperation → App F unit
}.

(** The trait's default [prepare_agent_create]. *)
Definition default_prepare_agent_create (id : AgentId) (input : CreateAgentInput)
    : result ApplicationError AgentSpec :=
  let? runtime_id := ok_or (AppInvalid (mkValidationError "runtime_id"
      "is required when no file-backed persona resolver is installed")) (cai_runtime_id input) in
  Ok (mkAgentSpec id (cai_community input) (cai_display_name input)
        (default EmptyString (cai_system_prompt input)) (mkRuntimeSpec runtime_id ∅) Enabled).

(** What [request_hash] is applied to. *)
Inductive HashedRequest :=
| HashCreate (input : CreateAgentInput)
| HashUpdate (request : UpdateAgentRequest)
| HashState (request : ChangeAgentStateRequest)
| HashAgentCommand (request : AgentCommandRequest)
| HashDraft (request : SubmitDraftRequest)
| HashPromote (request : PromoteDraftRequest).

Definition operation_action (kind : OperationKind) : string :=
  match kind with
  | CreateAgent => "agent.create" | UpdateAgent => "agent.update"
  | EnableAgent => "agent.enable" | DisableAgent => "agent.disable"
  | DeleteAgent => "agent.delete" | PurgeAgent => "agent.purge"
  end.

Definition principal_scope (actor : AuthenticatedPrincipal) : string :=
  match ap_principal actor with
  | UnixPeer uid _ _ => String.append "unix_uid:" (show_Z uid)
  | Nip98 pubkey => String.append "nostr:" pubkey
  end.

Definition authentication_method (actor : AuthenticatedPrincipal) : string :=
  match ap_principal actor with UnixPeer _ _ _ => "unix_peer" | Nip98 _ => "nip98" end.

Definition agent_resource (agent : AgentSpec) (purge_after : option Z)
    (public_key system_prompt_file : option string) : AgentResource :=
  mkAgentResource (spec_id agent) (spec_community agent) (spec_display_name agent)
    (spec_system_prompt agent) system_prompt_file (rs_runtime_id (spec_runtime agent))
    (spec_desired_state agent) purge_after public_key.

Definition operation_resource (operation : DurableOperation) : OperationResource :=
  mkOperationResource (op_id operation) (op_kind operation) (op_status operation)
    (op_agent_id operation) (op_correlation_id operation) (op_error_code operation)
    (op_created_at operation) (op_updated_at operation).

(** [matches!(status, Pending | Running)] *)
Definition is_active (s : OperationStatus) : bool :=
  match s with Pending | Running => true | _ => false end.

Record ExecutionPlan := mkExecutionPlan {
  plan_kind : OperationKind;
  plan_agent_id : AgentId;
  plan_community_id : CommunityConfigId;
  plan_mutation : AgentCommandMutation;
  plan_promoted_draft_id : option string;
  plan_wake_immediately : bool
}.

Section Application.
Context `{UuidLib} {F : Type} `{LifecycleEffects F}.
(** [(self.now)()], reading by reading, and [Uuid::now_v7], draw by draw. *)
Variable time : nat → Z.
Variable uuid_at : nat → Z.
(** [serde_json::to_vec] of a request and the hexadecimal SHA-256 of bytes. *)
Variable serde_json_to_vec : HashedRequest → option string.
Variable sha256_hex : string → string.
Variable retention_seconds : Z.

Definition now : App F Z := λ w,
  (Ok (time (w_clock w)),
   mkWorld (w_db w) (w_fx w) (w_generation w) (S (w_clock w)) (w_draws w)).
Definition fresh_uuid : App F Z := λ w,
  (Ok (uuid_at (w_draws w)),
   mkWorld (w_db w) (w_fx w) (w_generation w) (w_clock w) (S (w_draws w))).

(** A store operation with [?]: its error becomes an application error. *)
Definition store {A} (f : Db → stored A) : App F A := λ w,
  match f (w_db w) with
  | Ok (a, db) => (Ok a, mkWorld db (w_fx w) (w_generation w) (w_clock w) (w_draws w))
  | Err e => (Err (ApplicationError_from e), w)
  end.
Definition query {A} (f : Db → A) : App F A := gets (λ w, f (w_db w)).
Definition require {A} (o : option A) : App F A := of_result (ok_or AppNotFound o).

(** ** The completion signal *)
Definition snapshot : App F Z := gets w_generation.
Definition notify : App F unit :=
  modify (λ w, mkWorld (w_db w) (w_fx w) (u64_wrapping_add (w_generation w) 1) (w_clock w)
                 (w_draws w)).

Definition request_hash (value : HashedRequest) : App F string :=
  bytes ← of_result (ok_or AppInternal (serde_json_to_vec value));
  mret (String.append "sha256:" (sha256_hex bytes)).

Definition audit_actor (actor : AuthenticatedPrincipal) : string :=
  match ap_principal actor with
  | UnixPeer uid _ _ => String.append "unix_uid:" (show_Z uid)
  | Nip98 pubkey => String.append "nostr_sha256:" (substring 0 16 (sha256_hex pubkey))
  end.

Definition idempotency_scope (actor : AuthenticatedPrincipal) (kind : OperationKind) : string :=
  String.append (principal_scope actor) (String.append ":" (operation_action kind)).

(** ** Commands *)
Definition execute (actor : AuthenticatedPrincipal) (metadata : CommandMetadata)
    (request : HashedRequest) (plan : ExecutionPlan) : App F OperationResource :=
  t ← now;
  u ← fresh_uuid;
  hash ← request_hash request;
  let operation := mkDurableOperation (mkOperationId u) (plan_kind plan) Pending
                     (Some (plan_agent_id plan)) None t t (md_correlation_id metadata) in
  let idempotency := mkIdempotencyRecord (idempotency_scope actor (plan_kind plan))
                       (md_idempotency_key metadata) hash (op_id operation) t in
  r ← store (apply_agent_command operation idempotency (plan_mutation plan)
               (plan_promoted_draft_id plan)
               (mkNewAuditRecord t (audit_actor actor) (authentication_method actor)
                  (Some (plan_community_id plan)) (Some (op_id operation))
                  (md_correlation_id metadata) (Some (md_idempotency_key metadata))
                  (operation_action (plan_kind plan)) "agent"
                  (Some (AgentId_to_string (plan_agent_id plan))) "accepted" None));
  let '(operation, _) := r in
  _ ← (if plan_wake_immediately plan && is_active (op_status operation)
       then operation_ready operation else mret tt);
  mret (operation_resource operation).

Definition existing_community (agent_id : AgentId) : App F CommunityConfigId :=
  agent ← query (get_agent agent_id);
  agent ← require agent;
  mret (spec_community agent).

Definition audit_reconciliation (operation : DurableOperation) (action outcome : string)
    : App F unit :=
  community ← query (λ db, id ← op_agent_id operation; spec_community <$> get_agent id db);
  t ← now;
  _ ← store (append_audit (mkNewAuditRecord t "system:reconciler" "internal" community
               (Some (op_id operation)) (op_correlation_id operation) None action "agent"
               (AgentId_to_string <$> op_agent_id operation) outcome None));
  mret tt.

Definition start_operation (id : OperationId) : App F unit :=
  operation ← query (get_operation id);
  operation ← require operation;
  t ← now;
  _ ← store (transition_operation id Running None t);
  audit_reconciliation operation "operation.running" "accepted".

Definition complete_operation (id : OperationId) (status : OperationStatus)
    (error_code : option ErrorCode) : App F unit :=
  if is_active status
  then throw (AppInvalid (mkValidationError "status" "completion status must be terminal"))
  else
  operation ← query (get_operation id);
  operation ← require operation;
  if bool_decide (status = Succeeded) && bool_decide (op_kind operation = PurgeAgent) then
    agent_id ← of_result (ok_or (AppConflict "purge operation has no agent")
                            (op_agent_id operation));
    community ← existing_community agent_id;
    t ← now;
    t' ← now;
    _ ← store (complete_purge agent_id id t
                 (mkNewAuditRecord t' "system:reconciler" "internal" (Some community) (Some id)
                    (op_correlation_id operation) None "operation.complete" "agent"
                    (Some (AgentId_to_string agent_id)) "succeeded" None));
    notify
  else
    t ← now;
    _ ← store (transition_operation id status error_code t);
    _ ← audit_reconciliation operation "operation.complete"
          (if bool_decide (status = Succeeded) then "succeeded" else "failed");
    notify.

(** ** Communities *)
Definition app_get_community (id : CommunityConfigId) : App F CommunityConfig :=
  c ← query (get_community id); require c.

Definition join_community (request : JoinCommunityRequest) : App F CommunityConfig :=
  u ← fresh_uuid;
  community ← of_result (map_err AppInvalid
    (let? community := CommunityConfig_new (mkCommunityConfigId u) (jc_display_name request)
                         (jc_relay_url request) in
     with_identity_pubkey community (jc_identity_pubkey request)));
  _ ← verify_community_join community;
  t ← now;
  _ ← store (put_community community t);
  _ ← modify (community_changed (cc_id community));
  mret community.

Definition update_community (request : UpdateCommunityRequest) : App F CommunityConfig :=
  community ← app_get_community (uc_community_id request);
  let community := mkCommunityConfig (cc_id community) (uc_display_name request)
                     (cc_relay_url community) (cc_identity_pubkey community) in
  _ ← of_result (map_err AppInvalid (CommunityConfig_validate community));
  t ← now;
  _ ← store (put_community community t);
  mret community.

Definition app_list_communities : App F (list CommunityConfig) := query list_communities.

(** An upper bound on the UUIDs one removal draws: three per agent, one per persona. *)
Definition removal_draws (db : Db) : nat :=
  (3 * size (t_agents db) + size (t_projections db))%nat.

Definition remove_community (id : CommunityConfigId) : App F CommunityConfig :=
  community ← app_get_community id;
  t ← now;
  purged_agents ← (λ w,
    store (delete_community_with_deleted_agents id t (λ n, uuid_at (w_draws w + n)))
      (mkWorld (w_db w) (w_fx w) (w_generation w) (w_clock w)
         (w_draws w + removal_draws (w_db w))));
  _ ← community_agents_purged purged_agents;
  _ ← modify (community_changed id);
  _ ← (match cc_identity_pubkey community with
       | Some pubkey =>
         communities ← app_list_communities;
         if existsb (λ c, bool_decide (cc_identity_pubkey c = Some pubkey)) communities
         then mret tt else modify (community_identity_unreferenced pubkey)
       | None => mret tt
       end);
  mret community.

(** ** Agents *)
(** The tail [create_agent] and [promote_draft] share: persist the configuration of the
    committed agent, then wake the reconciler while the operation is unfinished. *)
Definition finish_create (agent : AgentSpec) (input : CreateAgentInput)
    (resource : OperationResource) : App F OperationResource :=
  committed_agent_id ← of_result (ok_or AppInternal (or_agent_id resource));
  committed_agent ← (if bool_decide (committed_agent_id = spec_id agent) then mret agent
                     else a ← query (get_agent committed_agent_id); require a);
  _ ← persist_agent_create committed_agent input;
  operation ← query (get_operation (or_id resource));
  _ ← (match operation with
       | Some operation =>
         if is_active (op_status operation) then operation_ready operation else mret tt
       | None => mret tt
       end);
  mret resource.

Definition create_agent (actor : AuthenticatedPrincipal) (metadata : CommandMetadata)
    (input : CreateAgentInput) : App F OperationResource :=
  u ← fresh_uuid;
  agent ← prepare_agent_create (mkAgentId u) input;
  _ ← of_result (map_err AppInvalid (AgentSpec_validate agent));
  resource ← execute actor metadata (HashCreate input)
    (mkExecutionPlan CreateAgent (spec_id agent) (spec_community agent) (MutCreate agent) None
       false);
  finish_create agent input resource.

Definition update_agent (actor : AuthenticatedPrincipal) (request : UpdateAgentRequest)
    : App F OperationResource :=
  current ← query (get_agent (uar_agent_id request));
  current ← require current;
  _ ← prepare_agent_update current (uar_changes request);
  execute actor (uar_metadata request) (HashUpdate request)
    (mkExecutionPlan UpdateAgent (uar_agent_id request) (spec_community current)
       (MutUpdate (uar_agent_id request) (uar_changes request)) None true).

Definition change_agent_state (actor : AuthenticatedPrincipal)
    (request : ChangeAgentStateRequest) : App F OperationResource :=
  kind ← of_result (match csr_desired_state request with
                    | Enabled => Ok EnableAgent
                    | Disabled => Ok DisableAgent
                    | Deleted => Err (AppInvalid (mkValidationError "desired_state"
                                        "deleted state requires delete"))
                    end);
  community ← existing_community (csr_agent_id request);
  execute actor (csr_metadata request) (HashState request)
    (mkExecutionPlan kind (csr_agent_id request) community
       (MutSetState (csr_agent_id request) (csr_desired_state request) None) None true).

(** The deadline of a recoverable delete: kept when the agent is already deleted. *)
Definition retention_deadline (id : AgentId) (agent : AgentSpec) (kind : OperationKind)
    : App F (option Z) :=
  let new_deadline := t ← now; mret (Some (i64_saturating_add t (Z.max retention_seconds 0))) in
  if bool_decide (kind = DeleteAgent) then
    if bool_decide (spec_desired_state agent = Deleted) then
      retention ← query (agent_retention id);
      match retention with Some r => mret (Some (ret_purge_after r)) | None => new_deadline end
    else new_deadline
  else mret None.

Definition deleted_command (actor : AuthenticatedPrincipal) (request : AgentCommandRequest)
    (kind : OperationKind) : App F OperationResource :=
  agent ← query (get_agent (acr_agent_id request));
  agent ← require agent;
  deadline ← retention_deadline (acr_agent_id request) agent kind;
  execute actor (acr_metadata request) (HashAgentCommand request)
    (mkExecutionPlan kind (acr_agent_id request) (spec_community agent)
       (MutSetState (acr_agent_id request) Deleted deadline) None true).

Definition delete_agent (actor : AuthenticatedPrincipal) (request : AgentCommandRequest) :=
  deleted_command actor request DeleteAgent.
Definition purge_agent (actor : AuthenticatedPrincipal) (request : AgentCommandRequest) :=
  deleted_command actor request PurgeAgent.

Definition resource_of (agent : AgentSpec) : App F AgentResource :=
  retention ← query (agent_retention (spec_id agent));
  public_key ← agent_public_key (spec_id agent);
  prompt_file ← agent_system_prompt_file (spec_id agent);
  mret (agent_resource agent (ret_purge_after <$> retention) public_key prompt_file).

Definition app_get_agent (id : AgentId) : App F AgentResource :=
  agent ← query (get_agent id);
  agent ← require agent;
  public_key ← agent_public_key id;
  retention ← query (agent_retention id);
  prompt_file ← agent_system_prompt_file id;
  mret (agent_resource agent (ret_purge_after <$> retention) public_key prompt_file).

Definition app_list_agents (request : ListAgentsRequest) : App F (list AgentResource) :=
  agents ← query (list_agents (lar_community request));
  mapM' resource_of
    (List.filter (λ agent, lar_include_deleted request
                           || negb (bool_decide (spec_desired_state agent = Deleted))) agents).

Definition app_agent_logs (request : AgentLogsRequest) : App F AgentLogsResource :=
  _ ← existing_community (alr_agent_id request);
  entries ← query (agent_logs (alr_agent_id request) (alr_after_cursor request)
                     (alr_limit request));
  mret (mkAgentLogsResource entries (rl_cursor <$> last entries)).

Definition app_get_operation (id : OperationId) : App F OperationResource :=
  operation ← query (get_operation id);
  operation ← require operation;
  mret (operation_resource operation).

(** ** Drafts *)
Definition submit_draft (actor : AuthenticatedPrincipal) (request : SubmitDraftRequest)
    : App F DraftResource :=
  _ ← of_result (map_err AppInvalid (CreateAgentInput_validate (sdr_agent request)));
  u ← fresh_uuid;
  let draft := mkDraftResource (String.append "draft_" (Uuid_simple u))
                 (ownership_key (ap_principal actor)) (sdr_agent request) in
  hash ← request_hash (HashDraft request);
  t ← now;
  t' ← now;
  r ← store (apply_draft_command draft (principal_scope actor)
               (md_idempotency_key (sdr_metadata request)) hash t
               (mkNewAuditRecord t' (audit_actor actor) (authentication_method actor)
                  (Some (cai_community (sdr_agent request))) None
                  (md_correlation_id (sdr_metadata request))
                  (Some (md_idempotency_key (sdr_metadata request)))
                  "draft.submit" "draft" (Some (dr_id draft)) "accepted" None));
  mret r.1.

Definition app_get_draft (id : string) : App F DraftResource :=
  draft ← query (get_draft id); require draft.

Definition promote_draft (actor : AuthenticatedPrincipal) (request : PromoteDraftRequest)
    : App F OperationResource :=
  draft ← app_get_draft (pdr_draft_id request);
  _ ← of_result (map_err AppInvalid (CreateAgentInput_validate (dr_agent draft)));
  u ← fresh_uuid;
  agent ← prepare_agent_create (mkAgentId u) (dr_agent draft);
  _ ← of_result (map_err AppInvalid (AgentSpec_validate agent));
  resource ← execute actor (pdr_metadata request) (HashPromote request)
    (mkExecutionPlan CreateAgent (spec_id agent) (spec_community agent) (MutCreate agent)
       (Some (pdr_draft_id request)) false);
  finish_create agent (dr_agent draft) resource.

(** ** The retention sweep (src/src/main.rs, [enqueue_expired_purges]) *)
Definition app_expired_retained_agents : App F (list AgentId) :=
  t ← now; query (expired_retained_agents t).

Definition sweep_actor : AuthenticatedPrincipal :=
  mkAuthenticatedPrincipal (UnixPeer 0 0 None) Administrator.

Definition sweep_metadata (agent_id : AgentId) (deadline attempt : Z) : CommandMetadata :=
  let id := AgentId_to_string agent_id in
  mkCommandMetadata
    (String.append "retention:" (String.append id (String.append ":"
       (String.append (show_Z deadline) (String.append ":" (show_Z attempt))))))
    (String.append "retention:" (String.append id (String.append ":" (show_Z attempt)))).

Definition enqueue_expired_purges : App F unit :=
  expired ← app_expired_retained_agents;
  forM_ (λ agent_id,
    resource ← app_get_agent agent_id;
    attempt ← now;
    _ ← purge_agent sweep_actor
          (mkAgentCommandRequest
             (sweep_metadata agent_id (default 0 (ar_purge_after resource)) attempt) agent_id);
    mret tt) expired.

End Application.

(** Effects that only record which operations were announced, with the trait's defaults. *)
#[export] Instance inbox_effects : LifecycleEffects (list OperationId) := {|
  verify_community_join _ := mret tt;
  community_changed _ w := w;
  community_identity_unreferenced _ w := w;
  community_agents_purged _ := mret tt;
  fx_create_persona _ := throw AppUnsupported;
  fx_update_persona _ := throw AppUnsupported;
  fx_get_persona _ := throw AppUnsupported;
  fx_list_personas := throw AppUnsupported;
  fx_delete_persona _ := throw AppUnsupported;
  prepare_agent_create id input := of_result (default_prepare_agent_create id input);
  persist_agent_create _ _ := mret tt;
  prepare_agent_update _ _ := mret tt;
  agent_public_key _ := mret None;
  agent_system_prompt_file _ := mret None;
  operation_ready op := λ w,
    (Ok tt, mkWorld (w_db w) (w_fx w ++ [op_id op]) (w_generation w) (w_clock w) (w_draws w))
|}.
