(* ===== verification/AppProps.v ===== *)
(** * What the application service promises (src/src/application.rs)
    Every command is a run of store calls, so the store's invariant and history carry
    over; the effect of commands, replays, completion and the retention sweep. *)
From stdpp Require Import base gmap strings list.
From Stdlib Require Import ZArith Lia String.
From S2P Require Import Prelude RustStr Ids Lifecycle Agent Runtime Launch Auth ApiTypes Schema.
From S2P Require Import Storage StoreInv StoreProps Monad Application.
#[local] Set Warnings "-notation-for-abbreviation".

(** The store changed by calls of its interface, none of which deletes an operation. *)
Definition by_calls `{UuidLib} {F} (w w' : World F) : Prop :=
  ∃ cs, (∀ id, CallDeleteOperation id ∉ cs) ∧ w_db w' = run_calls cs (w_db w).

#[export] Instance by_calls_preorder `{UuidLib} {F} : PreOrder (by_calls (F := F)).
Proof.
  split.
  - intros w. exists []. split; [|done]. intros id. apply not_elem_of_nil.
  - intros w1 w2 w3 (cs1 & Hn1 & H1) (cs2 & Hn2 & H2). exists (cs1 ++ cs2). split.
    + intros id. rewrite elem_of_app. intros [?|?]; naive_solver.
    + rewrite H2, H1. unfold run_calls. by rewrite fold_left_app.
Qed.

(** The world after one store call. *)
Definition stored_by `{UuidLib} {F} (c : StoreCall) (w : World F) : World F :=
  mkWorld (after_call (w_db w) c) (w_fx w) (w_generation w) (w_clock w) (w_draws w).

(** ** Calls that leave the operations alone *)
Definition quiet_call (c : StoreCall) : bool :=
  match c with
  | CallAppendJournal _ | CallAppendHealth _ | CallEnsureAutoJoin _ _ | CallClearAutoJoin _
  | CallPutCommunity _ _ | CallRecordProjection _ _ _ _ | CallEnqueue _ _ _ _ _
  | CallCompletePublication _ | CallFailPublication _ _ _ | CallRemoveProjection _ _ _
  | CallPutAgent _ _ | CallAppendLog _ _ | CallClaimReplay _ _ _ | CallAppendAudit _
  | CallDraftCommand _ _ _ _ _ _ => true
  | _ => false
  end.
Lemma quiet_call_operations `{UuidLib} c db :
  quiet_call c = true → t_operations (after_call db c) = t_operations db.
Proof.
  intros Hq. unfold after_call. destruct (run_call c db) as [db'|e] eqn:E; [|done].
  revert E. destruct c; try discriminate Hq; cbn [run_call]; intros [r Hr]%rmap_snd_ok;
    unfold append_reconciliation_journal, append_health_history, ensure_auto_join_enabled_at,
      clear_auto_join_enabled_at, put_community, record_relay_projection, enqueue_relay_publication,
      complete_relay_publication, fail_relay_publication, remove_relay_projection, put_agent,
      append_redacted_log, claim_nip98_replay, append_audit, apply_draft_command, insert_audit in Hr;
    repeat (step_in Hr; try done); try (by injection Hr as <- <-); injection Hr as <- <-.
  - apply map_err_ok, sql_enqueue_history in E. unfold history in E. by injection E.
  - apply map_err_ok in E0. unfold sql_upsert_agent in E0. step_in E0. by injection E0 as <-.
  - apply map_err_ok in E0, E1. unfold sql_insert_draft in E0. step_in E0. injection E0 as <-.
    unfold sql_insert_draft_idempotency in E1. do 2 (step_in E1). injection E1 as <-.
    step_in E2. by injection E2 as <-.
Qed.

(** A relation on worlds that neither quiet calls nor reading the clock or drawing an
    identifier leave. *)
Class StoreClient `{UuidLib} {F} (Q : World F → World F → Prop) : Prop := {
  client_preorder :: PreOrder Q;
  client_same w w' : w_db w' = w_db w → w_fx w' = w_fx w → Q w w';
  client_call c w : quiet_call c = true → Q w (stored_by c w)
}.
#[export] Instance by_calls_client `{UuidLib} {F} : StoreClient (by_calls (F := F)).
Proof.
  split; [apply _| |].
  - intros w w' Heq _. exists []. split; [|done]. intros id. apply not_elem_of_nil.
  - intros c w Hc. exists [c]. split; [|done]. intros id Hin%list_elem_of_singleton. by subst c.
Qed.
(** What the effects promise to keep. *)
Class EffectsKeep {F} `{LifecycleEffects F} (Q : World F → World F → Prop) : Prop := {
  safe_verify c : always Q (verify_community_join c);
  safe_changed id w : Q w (community_changed id w);
  safe_unreferenced k w : Q w (community_identity_unreferenced k w);
  safe_purged ids : always Q (community_agents_purged ids);
  safe_create_persona r : always Q (fx_create_persona r);
  safe_update_persona r : always Q (fx_update_persona r);
  safe_get_persona id : always Q (fx_get_persona id);
  safe_list_personas : always Q fx_list_personas;
  safe_delete_persona id : always Q (fx_delete_persona id);
  safe_prepare id input : always Q (prepare_agent_create id input);
  safe_persist agent input : always Q (persist_agent_create agent input);
  safe_prepare_update agent changes : always Q (prepare_agent_update agent changes);
  safe_public_key id : always Q (agent_public_key id);
  safe_prompt_file id : always Q (agent_system_prompt_file id);
  safe_ready op : always Q (operation_ready op)
}.
(** The effects use the store only through its calls, and never delete an operation. *)
Class EffectsSafe `{UuidLib} {F} `{LifecycleEffects F} : Prop := effects_safe :: EffectsKeep by_calls.

(** ** What every service call keeps *)
Section Keep.
Context `{UuidLib} {F : Type} `{LifecycleEffects F}.
Context (Q : World F → World F → Prop) `{!StoreClient Q} `{!EffectsKeep Q}.
Variable time : nat → Z.
Variable uuid_at : nat → Z.
Variable serde_json_to_vec : HashedRequest → option string.
Variable sha256_hex : string → string.
Variable retention_seconds : Z.

Lemma keep_now : always Q (now (F := F) time).
Proof. intros w. by apply client_same. Qed.
Lemma keep_fresh : always Q (fresh_uuid (F := F) uuid_at).
Proof. intros w. by apply client_same. Qed.
Lemma keep_notify : always Q (notify (F := F)).
Proof. intros w. by apply client_same. Qed.
Lemma keep_query {A} (f : Db → A) : always Q (query (F := F) f).
Proof. apply always_gets, _. Qed.
Lemma keep_require {A} (o : option A) : always Q (require (F := F) o).
Proof. apply always_of_result, _. Qed.
Lemma keep_request_hash r : always Q (request_hash (F := F) serde_json_to_vec sha256_hex r).
Proof. unfold request_hash. always_steps. Qed.
Lemma keep_changed id : always Q (modify (E := ApplicationError) (community_changed id)).
Proof. intros w. apply safe_changed. Qed.
Lemma keep_unreferenced k : always Q (modify (E := ApplicationError) (community_identity_unreferenced k)).
Proof. intros w. apply safe_unreferenced. Qed.

(** A store operation is one call. *)
Lemma keep_store {A} c (f : Db → stored A) :
  (∀ db, run_call c db = rmap snd (f db)) → (∀ w, Q w (stored_by c w)) → always Q (store (F := F) f).
Proof.
  intros Hc Hq w. unfold store. specialize (Hq w). unfold stored_by, after_call in Hq. rewrite Hc in Hq.
  destruct (f (w_db w)) as [[a db]|e]; [exact Hq|reflexivity].
Qed.
Lemma keep_quiet {A} c (f : Db → stored A) :
  (∀ db, run_call c db = rmap snd (f db)) → quiet_call c = true → always Q (store (F := F) f).
Proof. intros Hc Hq. apply (keep_store c); [done|]. intros w. by apply client_call. Qed.

(** Discharge a store step by naming its call. *)
Ltac store_leaf :=
  lazymatch goal with
  | |- always _ (store (apply_draft_command ?d ?s ?k ?h ?t ?a)) => by apply (keep_quiet (CallDraftCommand d s k h t a))
  | |- always _ (store (append_audit ?r)) => by apply (keep_quiet (CallAppendAudit r))
  | |- always _ (store (put_community ?c ?t)) => by apply (keep_quiet (CallPutCommunity c t))
  end.
Hint Resolve keep_now keep_fresh keep_notify keep_query keep_require keep_request_hash keep_changed
  keep_unreferenced : buzz.
Hint Resolve safe_verify safe_purged safe_create_persona
  safe_update_persona safe_get_persona safe_list_personas safe_delete_persona safe_prepare
  safe_persist safe_prepare_update safe_public_key safe_prompt_file safe_ready : buzz.
Ltac app_steps := always_steps; first [store_leaf | eauto 3 with buzz | idtac].

Lemma keep_existing_community id : always Q (existing_community (F := F) id).
Proof. unfold existing_community. app_steps. Qed.
Lemma keep_audit_reconciliation op action outcome :
  always Q (audit_reconciliation (F := F) time op action outcome).
Proof. unfold audit_reconciliation. app_steps. Qed.
Lemma keep_get_community id : always Q (app_get_community (F := F) id).
Proof. unfold app_get_community. app_steps. Qed.
Lemma keep_get_draft id : always Q (app_get_draft (F := F) id).
Proof. unfold app_get_draft. app_steps. Qed.
Lemma keep_get_operation id : always Q (app_get_operation (F := F) id).
Proof. unfold app_get_operation. app_steps. Qed.
Hint Resolve keep_existing_community keep_audit_reconciliation keep_get_community keep_get_draft : buzz.

Lemma keep_join_community request : always Q (join_community time uuid_at request).
Proof. unfold join_community. app_steps. Qed.
Lemma keep_update_community request : always Q (update_community (F := F) time request).
Proof. unfold update_community. app_steps. Qed.
Lemma keep_remove_community id :
  (∀ t fresh w, Q w (stored_by (CallDeleteCommunityWithAgents id t fresh) w)) →
  always Q (remove_community time uuid_at id).
Proof.
  intros Hr. unfold remove_community. app_steps. intros w. set (w0 := mkWorld _ _ _ _ _).
  transitivity w0; [by apply client_same|].
  match goal with |- Q _ (store (delete_community_with_deleted_agents ?i ?t ?f) _).2 =>
    apply (keep_store (CallDeleteCommunityWithAgents i t f)) end; [done|]. intros w1. apply Hr.
Qed.
Lemma keep_submit_draft actor request :
  always Q (submit_draft (F := F) time uuid_at serde_json_to_vec sha256_hex actor request).
Proof. unfold submit_draft. app_steps. Qed.
Lemma keep_get_agent id : always Q (app_get_agent id).
Proof. unfold app_get_agent. app_steps. Qed.
Lemma keep_list_agents request : always Q (app_list_agents request).
Proof. unfold app_list_agents. app_steps. apply (always_mapM' Q). intros agent. unfold resource_of. app_steps. Qed.
Lemma keep_agent_logs request : always Q (app_agent_logs (F := F) request).
Proof. unfold app_agent_logs. app_steps. Qed.

Lemma keep_finish_create agent input resource : always Q (finish_create agent input resource).
Proof. unfold finish_create. app_steps. Qed.
Hint Resolve keep_finish_create : buzz.

(** The commands that wake the reconciler themselves, once [execute] keeps [Q] for them. *)
#[local] Notation execute_ := (execute time uuid_at serde_json_to_vec sha256_hex).
#[local] Opaque execute.
Section Waking.
Hypothesis keep_execute : ∀ actor metadata request plan,
  plan_wake_immediately plan = true → always Q (execute_ actor metadata request plan).
Lemma keep_update_agent actor request :
  always Q (update_agent time uuid_at serde_json_to_vec sha256_hex actor request).
Proof. unfold update_agent. app_steps; by apply keep_execute. Qed.
Lemma keep_change_agent_state actor request :
  always Q (change_agent_state time uuid_at serde_json_to_vec sha256_hex actor request).
Proof. unfold change_agent_state. app_steps; by apply keep_execute. Qed.
Lemma keep_deleted_command actor request kind :
  always Q (deleted_command time uuid_at serde_json_to_vec sha256_hex retention_seconds
              actor request kind).
Proof. unfold deleted_command, retention_deadline. app_steps; by apply keep_execute. Qed.
Lemma keep_sweep :
  always Q (enqueue_expired_purges time uuid_at serde_json_to_vec sha256_hex retention_seconds).
Proof.
  unfold enqueue_expired_purges, app_expired_retained_agents. app_steps.
  apply (always_forM_ Q). intros id. apply (always_bind Q); [apply keep_get_agent|intros resource].
  apply (always_bind Q); [apply keep_now|intros attempt].
  apply (always_bind Q); [apply keep_deleted_command|intros _; apply (always_ret Q)].
Qed.
End Waking.
(** The commands that create an agent. *)
Section Creating.
Hypothesis keep_execute : ∀ actor metadata request plan,
  plan_kind plan = CreateAgent → always Q (execute_ actor metadata request plan).
Lemma keep_create_agent actor metadata input :
  always Q (create_agent time uuid_at serde_json_to_vec sha256_hex actor metadata input).
Proof. unfold create_agent. app_steps; by apply keep_execute. Qed.
Lemma keep_promote_draft actor request :
  always Q (promote_draft time uuid_at serde_json_to_vec sha256_hex actor request).
Proof. unfold promote_draft. app_steps; by apply keep_execute. Qed.
End Creating.
#[local] Transparent execute.
End Keep.

Section Refinement.
Context `{UuidLib} {F : Type} `{LifecycleEffects F}.

Lemma by_calls_same (w w' : World F) : w_db w' = w_db w → by_calls w w'.
Proof. intros Heq. exists []. split; [|done]. intros id. apply not_elem_of_nil. Qed.
Lemma by_one_call c (w : World F) : (∀ id, c ≠ CallDeleteOperation id) → by_calls w (stored_by c w).
Proof. intros Hno. exists [c]. split; [|done]. intros id Hin%list_elem_of_singleton. by destruct (Hno id). Qed.

Lemma by_calls_sound (w w' : World F) :
  by_calls w w' → db_ok (w_db w) →
  db_ok (w_db w')
  ∧ ops_evolve (λ _, False) (t_operations (w_db w)) (t_operations (w_db w'))
  ∧ keys_kept (λ _, False) (t_idempotency (w_db w)) (t_idempotency (w_db w'))
  ∧ t_audit (w_db w) `prefix_of` t_audit (w_db w')
  ∧ t_tombstones (w_db w) ⊆ t_tombstones (w_db w').
Proof.
  intros (cs & Hno & Heq) Hdb. destruct (run_calls_sound cs (w_db w) Hdb) as [Hok [Ho Hk _ Ha Ht _ _]].
  rewrite Heq. split_and!; try done.
  - intros id o Hid. destruct (Ho id o Hid) as [Hd|?]; [|by right]. by destruct (Hno id).
  - intros k row Hrow. destruct (Hk k row Hrow) as [Hd|?]; [|by right].
    by destruct (Hno (ik_operation_id row)).
Qed.

Variable time : nat → Z.
Variable uuid_at : nat → Z.
Variable serde_json_to_vec : HashedRequest → option string.
Variable sha256_hex : string → string.
Variable retention_seconds : Z.

(** The steps of a command, each store step named by its call. *)
Ltac one_call c := apply (keep_store by_calls c); [done|intros ?; by apply by_one_call].
Ltac call_steps :=
  always_steps;
  lazymatch goal with
  | |- always _ (store (transition_operation ?i ?n ?c ?t)) => one_call (CallTransition i n c t)
  | |- always _ (store (complete_purge ?a ?o ?t ?r)) => one_call (CallCompletePurge a o t r)
  | |- always _ (store (append_audit ?r)) => one_call (CallAppendAudit r)
  | |- always _ (store (apply_agent_command ?o ?i ?m ?d ?a)) => one_call (CallAgentCommand o i m d a)
  | |- always _ (operation_ready _) => apply safe_ready
  | |- always _ _ => intros ?; by apply by_calls_same
  end.
Lemma safe_start_operation id : always by_calls (start_operation (F := F) time id).
Proof. unfold start_operation, audit_reconciliation. call_steps. Qed.
Lemma safe_complete_operation id status code :
  always by_calls (complete_operation (F := F) time id status code).
Proof. unfold complete_operation, audit_reconciliation, existing_community. call_steps. Qed.

Context `{!EffectsSafe}.
Lemma safe_execute actor metadata request plan :
  always by_calls (execute time uuid_at serde_json_to_vec sha256_hex actor metadata request plan).
Proof. unfold execute, request_hash. call_steps. Qed.

(** Every service call that can change state. *)
Inductive AppCall :=
| AppJoin (request : JoinCommunityRequest)
| AppUpdateCommunity (request : UpdateCommunityRequest)
| AppRemoveCommunity (id : CommunityConfigId)
| AppCreatePersona (request : CreatePersonaRequest)
| AppUpdatePersona (request : UpdatePersonaRequest)
| AppDeletePersona (id : string)
| AppCreateAgent (actor : AuthenticatedPrincipal) (metadata : CommandMetadata)
    (input : CreateAgentInput)
| AppUpdateAgent (actor : AuthenticatedPrincipal) (request : UpdateAgentRequest)
| AppChangeState (actor : AuthenticatedPrincipal) (request : ChangeAgentStateRequest)
| AppDeleteAgent (actor : AuthenticatedPrincipal) (request : AgentCommandRequest)
| AppPurgeAgent (actor : AuthenticatedPrincipal) (request : AgentCommandRequest)
| AppSubmitDraft (actor : AuthenticatedPrincipal) (request : SubmitDraftRequest)
| AppPromoteDraft (actor : AuthenticatedPrincipal) (request : PromoteDraftRequest)
| AppStart (id : OperationId)
| AppComplete (id : OperationId) (status : OperationStatus) (error_code : option ErrorCode)
| AppSweep
| AppGetPersona (id : string)
| AppListPersonas
| AppGetAgent (id : AgentId)
| AppListAgents (r : ListAgentsRequest).

(** The world after one service call, whether it succeeded or failed. *)
Definition run_app (w : World F) (c : AppCall) : World F :=
  let cmd {A} (m : App F A) := (m w).2 in
  match c with
  | AppJoin r => cmd (join_community time uuid_at r)
  | AppUpdateCommunity r => cmd (update_community time r)
  | AppRemoveCommunity id => cmd (remove_community time uuid_at id)
  | AppCreatePersona r => cmd (fx_create_persona r)
  | AppUpdatePersona r => cmd (fx_update_persona r)
  | AppDeletePersona id => cmd (fx_delete_persona id)
  | AppCreateAgent actor md input =>
    cmd (create_agent time uuid_at serde_json_to_vec sha256_hex actor md input)
  | AppUpdateAgent actor r =>
    cmd (update_agent time uuid_at serde_json_to_vec sha256_hex actor r)
  | AppChangeState actor r =>
    cmd (change_agent_state time uuid_at serde_json_to_vec sha256_hex actor r)
  | AppDeleteAgent actor r =>
    cmd (delete_agent time uuid_at serde_json_to_vec sha256_hex retention_seconds actor r)
  | AppPurgeAgent actor r =>
    cmd (purge_agent time uuid_at serde_json_to_vec sha256_hex retention_seconds actor r)
  | AppSubmitDraft actor r =>
    cmd (submit_draft time uuid_at serde_json_to_vec sha256_hex actor r)
  | AppPromoteDraft actor r =>
    cmd (promote_draft time uuid_at serde_json_to_vec sha256_hex actor r)
  | AppStart id => cmd (start_operation time id)
  | AppComplete id status code => cmd (complete_operation time id status code)
  | AppSweep => cmd (enqueue_expired_purges time uuid_at serde_json_to_vec sha256_hex
                       retention_seconds)
  | AppGetPersona id => cmd (fx_get_persona id)
  | AppListPersonas => cmd fx_list_personas
  | AppGetAgent id => cmd (app_get_agent id)
  | AppListAgents r => cmd (app_list_agents r)
  end.

Lemma run_app_by_calls w c : by_calls w (run_app w c).
Proof.
  destruct c; cbn [run_app].
  - apply (keep_join_community by_calls).
  - apply (keep_update_community by_calls).
  - apply (keep_remove_community by_calls). intros t fresh v. by apply by_one_call.
  - apply safe_create_persona.
  - apply safe_update_persona.
  - apply safe_delete_persona.
  - apply (keep_create_agent by_calls). intros. apply safe_execute.
  - apply (keep_update_agent by_calls). intros. apply safe_execute.
  - apply (keep_change_agent_state by_calls). intros. apply safe_execute.
  - apply (keep_deleted_command by_calls). intros. apply safe_execute.
  - apply (keep_deleted_command by_calls). intros. apply safe_execute.
  - apply (keep_submit_draft by_calls).
  - apply (keep_promote_draft by_calls). intros. apply safe_execute.
  - apply safe_start_operation.
  - apply safe_complete_operation.
  - apply (keep_sweep by_calls). intros. apply safe_execute.
  - apply safe_get_persona.
  - apply safe_list_personas.
  - apply (keep_get_agent by_calls).
  - apply (keep_list_agents by_calls).
Qed.

Lemma run_apps_by_calls calls w : by_calls w (fold_left run_app calls w).
Proof.
  revert w. induction calls as [|c calls IH]; intros w; cbn; [reflexivity|].
  etrans; [apply run_app_by_calls|apply IH].
Qed.

(** The service refines the store. Any sequence of service calls, successful or not,
    changes the database only by calls of the store's interface; so it keeps the database
    consistent, never loses a stored operation nor an idempotency key, moves
    operations only along the status machine, and only appends to the audit trail. *)
Theorem service_keeps_the_store_sound (calls : list AppCall) (w : World F) :
  db_ok (w_db w) →
  let w' := fold_left run_app calls w in
  db_ok (w_db w')
  ∧ ops_evolve (λ _, False) (t_operations (w_db w)) (t_operations (w_db w'))
  ∧ keys_kept (λ _, False) (t_idempotency (w_db w)) (t_idempotency (w_db w'))
  ∧ t_audit (w_db w) `prefix_of` t_audit (w_db w')
  ∧ t_tombstones (w_db w) ⊆ t_tombstones (w_db w').
Proof. intros Hdb w'. apply by_calls_sound; [apply run_apps_by_calls|done]. Qed.

End Refinement.

(** The recording effects keep their promise. *)
#[export] Instance inbox_safe `{UuidLib} : EffectsSafe (F := list OperationId).
Proof. constructor; intros; try intros w; by apply by_calls_same. Qed.

(** A concrete service: the small store, a clock that ticks, UUIDs from 1000 on. *)
Definition sample_time (n : nat) : Z := 1000 + Z.of_nat n.
Definition sample_uuid (n : nat) : Z := 1000 + Z.of_nat n.
Definition sample_json (r : HashedRequest) : option string :=
  Some (match r with
        | HashCreate i => cai_display_name i
        | HashUpdate _ => "update" | HashState _ => "state" | HashAgentCommand _ => "command"
        | HashDraft _ => "draft" | HashPromote _ => "promote"
        end).
Definition sample_world : World (list OperationId) := mkWorld sample_db [] 0 0 0.
Definition sample_admin : AuthenticatedPrincipal :=
  mkAuthenticatedPrincipal (UnixPeer 0 0 None) Administrator.
Definition sample_metadata (key : string) : CommandMetadata := mkCommandMetadata key "corr".
Definition sample_run (calls : list AppCall) : World (list OperationId) :=
  fold_left (run_app sample_time sample_uuid sample_json id 100) calls sample_world.

Lemma service_keeps_the_store_sound_witness :
  let calls := [AppChangeState sample_admin (mkChangeAgentStateRequest (sample_metadata "k1")
                  (mkAgentId 7) Disabled);
                AppStart (mkOperationId 1000); AppComplete (mkOperationId 1000) Succeeded None] in
  db_ok (w_db (sample_run calls))
  ∧ (op_status <$> t_operations (w_db (sample_run calls)) !! mkOperationId 1000) = Some Succeeded.
Proof.
  intros calls. split.
  - exact (proj1 (service_keeps_the_store_sound sample_time sample_uuid sample_json id 100 calls
                    sample_world sample_db_ok)).
  - vm_compute. reflexivity.
Defined.
