(* ===== verification/AppCommands.v ===== *)
(** * Service commands in detail (src/src/application.rs)
    Replayed commands, recoverable deletion and its deadline, starting and completing
    operations, the retention sweep. *)
From stdpp Require Import base gmap strings list.
From Stdlib Require Import ZArith Lia String.
From S2P Require Import Prelude RustStr Ids Lifecycle Agent Runtime Launch Auth ApiTypes Schema.
From S2P Require Import Storage StoreInv StoreProps Monad Application AppProps.

Section Commands.
Context `{UuidLib} {F : Type} `{LifecycleEffects F} `{!EffectsSafe (F := F)}.
Variable time : nat → Z.
Variable uuid_at : nat → Z.
Variable serde_json_to_vec : HashedRequest → option string.
Variable sha256_hex : string → string.
Variable retention_seconds : Z.

(** The world after the clock reading and the draw [execute] makes. *)
Definition stamped (w : World F) : World F :=
  mkWorld (w_db w) (w_fx w) (w_generation w) (S (w_clock w)) (S (w_draws w)).
Definition with_db (db : Db) (w : World F) : World F :=
  mkWorld db (w_fx w) (w_generation w) (w_clock w) (w_draws w).

Definition hash_of (r : HashedRequest) (bytes : string) : string :=
  String.append "sha256:" (sha256_hex bytes).

(** The store call [execute] makes in [w]. *)
Definition execute_operation (metadata : CommandMetadata) (plan : ExecutionPlan) (w : World F)
    : DurableOperation :=
  mkDurableOperation (mkOperationId (uuid_at (w_draws w))) (plan_kind plan) Pending
    (Some (plan_agent_id plan)) None (time (w_clock w)) (time (w_clock w))
    (md_correlation_id metadata).
Definition execute_key actor (metadata : CommandMetadata) (plan : ExecutionPlan)
    (hash : string) (w : World F) : IdempotencyRecord :=
  mkIdempotencyRecord (idempotency_scope actor (plan_kind plan)) (md_idempotency_key metadata)
    hash (mkOperationId (uuid_at (w_draws w))) (time (w_clock w)).

(** [execute], step by step. *)
Lemma execute_steps actor metadata request plan w bytes :
  serde_json_to_vec request = Some bytes →
  ∃ audit, na_redacted_detail audit = None ∧
  execute time uuid_at serde_json_to_vec sha256_hex actor metadata request plan w =
  match apply_agent_command (execute_operation metadata plan w)
          (execute_key actor metadata plan (hash_of request bytes) w) (plan_mutation plan)
          (plan_promoted_draft_id plan) audit (w_db w) with
  | Ok ((operation, _), db) =>
    (_ ← (if plan_wake_immediately plan && is_active (op_status operation)
          then operation_ready operation else mret tt);
     mret (operation_resource operation)) (with_db db (stamped w))
  | Err e => (Err (ApplicationError_from e), stamped w)
  end.
Proof.
  intros Hb. unfold execute, request_hash.
  eexists. split; [|unfold mbind, M_bind; cbn; rewrite Hb; cbn; unfold store; cbn].
  2:{ match goal with |- context [apply_agent_command ?o ?i ?m ?d ?a ?db] =>
        instantiate (1 := a) end.
      unfold execute_operation, execute_key, hash_of.
      destruct (apply_agent_command _ _ _ _ _ _) as [[[op r] db]|e]; reflexivity. }
  reflexivity.
Qed.

Lemma execute_ok actor metadata request plan w res w1 :
  execute time uuid_at serde_json_to_vec sha256_hex actor metadata request plan w = (Ok res, w1) →
  ∃ bytes audit operation r db,
    serde_json_to_vec request = Some bytes
    ∧ apply_agent_command (execute_operation metadata plan w)
        (execute_key actor metadata plan (hash_of request bytes) w) (plan_mutation plan)
        (plan_promoted_draft_id plan) audit (w_db w) = Ok ((operation, r), db)
    ∧ res = operation_resource operation
    ∧ by_calls (with_db db (stamped w)) w1
    ∧ (plan_wake_immediately plan = false → w1 = with_db db (stamped w)).
Proof.
  intros He. destruct (serde_json_to_vec request) as [bytes|] eqn:Hb.
  - destruct (execute_steps actor metadata request plan w bytes Hb) as (audit & _ & Hx).
    rewrite Hx in He. destruct (apply_agent_command _ _ _ _ _ _) as [[[operation r] db]|e] eqn:Ha;
      [|done]. exists bytes, audit, operation, r, db. rewrite Ha.
    apply bind_ok in He as ([] & w2 & Hw & Hret). injection Hret as <- <-.
    split_and!; try done.
    + destruct (plan_wake_immediately plan && _); [|injection Hw as <-; reflexivity].
      pose proof (safe_ready operation (with_db db (stamped w))) as Hs. by rewrite Hw in Hs.
    + intros Hno. rewrite Hno in Hw. by injection Hw as <-.
  - unfold execute, request_hash, mbind, M_bind in He. cbn in He. by rewrite Hb in He.
Qed.

(** Retrying a command is safe. Once a command was accepted, and after anything the
    service did since, the same actor repeating the same request under the same
    idempotency key gets the same operation back, at its current status, and the database
    and the effects are left untouched (for plans that do not wake the reconciler
    themselves); a different request under that key is refused as a conflict. *)
Theorem retried_command_is_safe (actor : AuthenticatedPrincipal) (metadata : CommandMetadata)
    (request request' : HashedRequest) (plan plan' : ExecutionPlan) (bytes bytes' : string)
    (w w1 w2 : World F) (res : OperationResource) :
  db_ok (w_db w) →
  execute time uuid_at serde_json_to_vec sha256_hex actor metadata request plan w = (Ok res, w1) →
  by_calls w1 w2 →
  serde_json_to_vec request = Some bytes → serde_json_to_vec request' = Some bytes' →
  plan_kind plan' = plan_kind plan → plan_wake_immediately plan' = false →
  let again := execute time uuid_at serde_json_to_vec sha256_hex actor metadata request' plan' w2 in
  w_db again.2 = w_db w2 ∧ w_fx again.2 = w_fx w2
  ∧ if String.eqb (hash_of request' bytes') (hash_of request bytes)
    then ∃ res', again.1 = Ok res' ∧ or_id res' = or_id res
                 ∧ status_reaches (or_status res) (or_status res')
    else again.1 = Err (AppConflict "idempotency key was reused with a different request").
Proof.
  intros Hdb He Hcalls Hb Hb' Hkind Hwake again.
  apply execute_ok in He as (b & audit & operation & r & db & Hb0 & Ha & -> & Hby & _).
  rewrite Hb in Hb0. injection Hb0 as <-.
  destruct (apply_agent_command_ok _ _ _ _ _ _ _ _ Hdb Ha) as [Hdb1 _].
  apply apply_agent_command_recorded in Ha; [|done]. cbn [fst] in Ha.
  destruct (transitivity Hby Hcalls) as (cs & Hno & Hw2). cbn in Hw2.
  destruct (key_recorded_kept _ _ cs db Hdb1 Ha) as (o' & Hev & row & Hrow & Hh & Hid & Ho'); [done|].
  rewrite <- Hw2 in Hrow, Ho'. cbn [execute_key ir_scope ir_key ir_request_hash] in Hrow, Hh.
  destruct (execute_steps actor metadata request' plan' w2 bytes' Hb') as (audit' & _ & Hx).
  subst again. rewrite Hx, Hwake. unfold apply_agent_command. cbn [execute_key ir_scope ir_key ir_request_hash].
  rewrite Hkind, Hrow, Hh, (String.eqb_sym (hash_of request bytes)).
  destruct (String.eqb (hash_of request' bytes') _); cbn [negb]; [|by split_and!].
  rewrite Hid, Ho'. cbn. split_and!; try done. eexists. split; [done|].
  destruct Hev as (Heq & _ & _ & _ & Hst & _). done.
Qed.

(** Announcing an operation wakes the reconciler and does not write to the store. *)
Class WakeOnly : Prop := wake_keeps_db op w : w_db (operation_ready op w).2 = w_db w.

Lemma execute_db `{!WakeOnly} actor metadata request plan w res w1 :
  execute time uuid_at serde_json_to_vec sha256_hex actor metadata request plan w = (Ok res, w1) →
  ∃ hash audit operation r,
    apply_agent_command (execute_operation metadata plan w)
        (execute_key actor metadata plan hash w) (plan_mutation plan)
        (plan_promoted_draft_id plan) audit (w_db w) = Ok ((operation, r), w_db w1)
    ∧ res = operation_resource operation.
Proof.
  intros He. destruct (serde_json_to_vec request) as [bytes|] eqn:Hb.
  - destruct (execute_steps actor metadata request plan w bytes Hb) as (audit & _ & Hx).
    rewrite Hx in He. destruct (apply_agent_command _ _ _ _ _ _) as [[[operation r] db]|e] eqn:Ha;
      [|done]. apply bind_ok in He as ([] & w2 & Hw & Hret). injection Hret as <- <-.
    exists (hash_of request bytes), audit, operation, r. rewrite Ha. split; [|done].
    destruct (plan_wake_immediately plan && _); [|by injection Hw as <-].
    pose proof (wake_keeps_db operation (with_db db (stamped w))) as Hs. rewrite Hw in Hs.
    cbn in Hs. by rewrite Hs.
  - unfold execute, request_hash, mbind, M_bind in He. cbn in He. by rewrite Hb in He.
Qed.

(** The retention deadline a delete should record: the one already running, or a full
    retention period from now. *)
Definition expected_deadline (id : AgentId) (agent : AgentSpec) (w : World F) : Z :=
  match spec_desired_state agent, t_retention (w_db w) !! id with
  | Deleted, Some r => ret_purge_after r
  | _, _ => i64_saturating_add (time (w_clock w)) (Z.max retention_seconds 0)
  end.

Lemma retention_deadline_ok id agent w d w' :
  retention_deadline time retention_seconds id agent DeleteAgent w = (Ok d, w') →
  d = Some (expected_deadline id agent w) ∧ w_db w' = w_db w.
Proof.
  unfold retention_deadline, expected_deadline. rewrite bool_decide_eq_true_2 by done.
  case_bool_decide as Hd.
  - rewrite Hd. unfold mbind, M_bind, query, gets, agent_retention.
    destruct (t_retention (w_db w) !! id); cbn; by intros [= <- <-].
  - unfold mbind, M_bind. cbn. intros [= <- <-]. by destruct (spec_desired_state agent).
Qed.

(** C39: recoverable deletion. Deleting an agent under a new idempotency key marks it
    deleted and leaves a retention row whose deadline is one retention period (never
    negative, saturating at the largest timestamp) from the moment of the first deletion:
    deleting it again while it is deleted does not extend the deadline. *)
Theorem delete_keeps_first_deadline `{!WakeOnly} (actor : AuthenticatedPrincipal)
    (request : AgentCommandRequest) (w w' : World F) (res : OperationResource) :
  db_ok (w_db w) →
  t_idempotency (w_db w) !! (idempotency_scope actor DeleteAgent,
                             md_idempotency_key (acr_metadata request)) = None →
  delete_agent time uuid_at serde_json_to_vec sha256_hex retention_seconds actor request w
    = (Ok res, w') →
  let id := acr_agent_id request in
  ∃ agent r, get_agent id (w_db w) = Some agent
    ∧ (spec_desired_state <$> get_agent id (w_db w')) = Some Deleted
    ∧ t_retention (w_db w') !! id = Some r ∧ ret_purge_after r = expected_deadline id agent w
    ∧ or_status res = Pending ∧ or_kind res = DeleteAgent.
Proof.
  intros Hdb Hnew Hd id. unfold delete_agent, deleted_command in Hd.
  apply bind_ok in Hd as (o & w1 & Hq & Hd). injection Hq as <- <-.
  apply bind_ok in Hd as (agent & w1 & Hq & Hd). unfold require, of_result in Hq.
  injection Hq as Hq <-. fold id in Hq. destruct (get_agent id (w_db w)) as [a|] eqn:Eg; [|done].
  injection Hq as <-. apply bind_ok in Hd as (d & w1 & Hr & Hd). fold id in Hr, Hd.
  apply retention_deadline_ok in Hr as [-> Hw1].
  apply execute_db in Hd as (hash & audit & operation & r & Ha & ->).
  rewrite Hw1 in Ha. destruct r.
  { apply apply_agent_command_replay in Ha as (_ & row & Hrow & _). cbn in Hrow.
    by rewrite Hnew in Hrow. }
  apply apply_agent_command_fresh in Ha as (_ & -> & d1 & d2 & d3 & d4 & K1 & K2 & K3 & K4 & K5).
  apply apply_mutation_effect in K1 as (a' & Hi & _ & Hid & Hag & Hrt & _); [|done].
  cbn in Hi. rewrite Eg in Hi. injection Hi as <-. cbn in Hid. injection Hid as Hid.
  unfold sql_insert_operation in K2. do 2 (step_in K2). injection K2 as <-.
  unfold sql_insert_idempotency in K3. do 2 (step_in K3). injection K3 as <-.
  cbn in K4. subst d4. apply insert_audit_tables in K5 as ->.
  eexists a, _. split; [done|]. unfold get_agent, sql_insert_audit. db_cbn. rewrite Hag, Hrt.
  unfold intended_retention. cbn. rewrite Hid, !lookup_insert_eq. cbn. by split_and!.
Qed.

(** ** Starting and completing *)
Lemma audit_reconciliation_ok op action outcome (w : World F) :
  ∃ w', audit_reconciliation time op action outcome w = (Ok tt, w')
    ∧ t_operations (w_db w') = t_operations (w_db w)
    ∧ List.length (t_audit (w_db w')) = S (List.length (t_audit (w_db w)))
    ∧ w_generation w' = w_generation w.
Proof.
  unfold audit_reconciliation, mbind, M_bind. cbn. unfold store. cbn.
  eexists. split; [reflexivity|]. cbn. rewrite length_app. cbn. split_and!; [done|lia|done].
Qed.

(** The statuses of all operations but one. *)
Definition other_statuses (id : OperationId) (db db' : Db) : Prop :=
  ∀ id', id' ≠ id → op_status <$> t_operations db' !! id' = op_status <$> t_operations db !! id'.
Lemma alter_other_statuses id f db db' :
  t_operations db' = alter f id (t_operations db) → other_statuses id db db'.
Proof. intros E id' Hne. by rewrite E, lookup_alter_ne. Qed.
Lemma complete_purge_status agent id t audit db db' :
  complete_purge agent id t audit db = Ok (tt, db') →
  ∃ op op', t_operations db !! id = Some op
    ∧ OperationStatus_can_transition_to (op_status op) Succeeded = true
    ∧ t_operations db' !! id = Some op' ∧ op_status op' = Succeeded
    ∧ List.length (t_audit db') = S (List.length (t_audit db))
    ∧ other_statuses id db db'.
Proof.
  intros (op & spec & d1 & Ho & Ha & _ & Ht & Hg & _ & Hau & ->)%complete_purge_steps.
  apply insert_audit_tables in Hau as ->.
  destruct (sql_insert_tombstone_effect agent t id
    (sql_insert_audit audit (sql_update_operation id Succeeded None t db)))
    as (Tag & _ & _ & Top & Tau & _).
  set (d2 := sql_insert_tombstone _ _ _ _) in *.
  destruct (sql_delete_agent_effect agent d2) as (_ & _ & _ & Dop & _ & Dau).
  { rewrite Tag. unfold get_agent in Hg. cbn. by destruct (t_agents db !! agent). }
  rewrite Dau, Tau, Dop, Top. eexists op, _. split_and!; [done|done| | | |].
  - cbn. rewrite lookup_fmap, lookup_alter_eq, Ho. reflexivity.
  - unfold null_agent. by case_bool_decide.
  - cbn. rewrite length_app. cbn. lia.
  - intros id' Hne. rewrite Dop, Top. cbn. rewrite lookup_fmap, lookup_alter_ne by done.
    destruct (t_operations db !! id') as [o|]; [|done]. cbn. f_equal. unfold null_agent.
    by case_bool_decide.
Qed.

Lemma complete_operation_effect (id : OperationId) (status : OperationStatus)
    (code : option ErrorCode) (w : World F) :
  match complete_operation time id status code w with
  | (Err _, w') => w_db w' = w_db w ∧ w_generation w' = w_generation w
  | (Ok _, w') =>
    OperationStatus_is_terminal status = true
    ∧ (∃ op op', t_operations (w_db w) !! id = Some op
         ∧ t_operations (w_db w') !! id = Some op'
         ∧ OperationStatus_can_transition_to (op_status op) status = true
         ∧ op_status op' = status)
    ∧ List.length (t_audit (w_db w')) = S (List.length (t_audit (w_db w)))
    ∧ w_generation w' = u64_wrapping_add (w_generation w) 1
    ∧ other_statuses id (w_db w) (w_db w')
  end.
Proof.
  unfold complete_operation. destruct (is_active status) eqn:Eact; [done|].
  unfold mbind at 1, M_bind at 1. cbn [query gets]. unfold get_operation.
  destruct (t_operations (w_db w) !! id) as [op|] eqn:Eop; [|done].
  unfold mbind at 1, M_bind at 1. cbn [require of_result ok_or].
  assert (OperationStatus_is_terminal status = true) as Hterm by by destruct status.
  destruct (bool_decide (status = Succeeded) && bool_decide (op_kind op = PurgeAgent)) eqn:Ep.
  - apply andb_true_iff in Ep as [Es%bool_decide_eq_true _]. subst status.
    unfold mbind, M_bind. destruct (op_agent_id op) as [agent|]; [|done]. cbn.
    unfold existing_community, mbind, M_bind. cbn.
    destruct (get_agent agent (w_db w)) as [spec|]; [|done]. cbn. unfold store. cbn.
    destruct (complete_purge _ _ _ _ _) as [[[] db']|] eqn:Ec; [|done]. cbn.
    apply complete_purge_status in Ec as (op1 & op' & Ho & Ht & Ho' & Hs & Hlen & Hoth).
    rewrite Eop in Ho. injection Ho as <-. split_and!; try done. by exists op, op'.
  - unfold mbind at 1, M_bind at 1. cbn [now]. unfold mbind at 1, M_bind at 1, store. cbn [w_db].
    unfold transition_operation. rewrite Eop.
    destruct (OperationStatus_can_transition_to (op_status op) status) eqn:Et; cbn [negb]; [|done].
    unfold mbind at 1, M_bind at 1.
    match goal with |- context [audit_reconciliation time ?o ?a ?out ?w0] =>
      destruct (audit_reconciliation_ok o a out w0) as (w' & Hw' & Hops & Hlen & Hgen) end.
    rewrite Hw'. cbn in Hops, Hlen, Hgen |- *. rewrite Hgen. split_and!; try done.
    + rewrite Hops. rewrite lookup_alter_eq, Eop. cbn. by exists op; eexists.
    + by apply (alter_other_statuses _ _ _ _ Hops).
Qed.

(** Completing an operation is all or nothing. If it fails nothing is written and no
    waiter is woken; if it succeeds the operation was running (or was cancelled while
    pending), now has exactly the requested terminal status, one audit record was added,
    and the completion generation advanced, so every waiter sees a durable result. *)
Theorem completion_is_durable_before_notify (id : OperationId) (status : OperationStatus)
    (code : option ErrorCode) (w : World F) :
  match complete_operation time id status code w with
  | (Err _, w') => w_db w' = w_db w ∧ w_generation w' = w_generation w
  | (Ok _, w') =>
    OperationStatus_is_terminal status = true
    ∧ (∃ op op', t_operations (w_db w) !! id = Some op
         ∧ t_operations (w_db w') !! id = Some op'
         ∧ OperationStatus_can_transition_to (op_status op) status = true
         ∧ op_status op' = status)
    ∧ List.length (t_audit (w_db w')) = S (List.length (t_audit (w_db w)))
    ∧ w_generation w' = u64_wrapping_add (w_generation w) 1
  end.
Proof.
  pose proof (complete_operation_effect id status code w) as He.
  destruct (complete_operation time id status code w) as [[[]|e] w']; [|done].
  by destruct He as (? & ? & ? & ? & _).
Qed.

(** An operation is claimed once. Starting succeeds exactly when the operation exists
    and is pending; it then is running and the claim is audited. A failed start (the
    operation is missing, already running or finished) writes nothing. *)
Theorem operation_is_claimed_once (id : OperationId) (w : World F) :
  match start_operation time id w with
  | (Err _, w') => w_db w' = w_db w
      ∧ ∀ op, t_operations (w_db w) !! id = Some op → op_status op ≠ Pending
  | (Ok _, w') =>
    (∃ op op', t_operations (w_db w) !! id = Some op ∧ op_status op = Pending
        ∧ t_operations (w_db w') !! id = Some op' ∧ op_status op' = Running ∧ op_id op' = op_id op)
    ∧ List.length (t_audit (w_db w')) = S (List.length (t_audit (w_db w)))
    ∧ other_statuses id (w_db w) (w_db w')
  end.
Proof.
  unfold start_operation. unfold mbind at 1, M_bind at 1. cbn [query gets]. unfold get_operation.
  destruct (t_operations (w_db w) !! id) as [op|] eqn:Eop; [|done].
  unfold mbind at 1, M_bind at 1. cbn [require of_result ok_or].
  unfold mbind at 1, M_bind at 1. cbn [now]. unfold mbind at 1, M_bind at 1, store. cbn [w_db].
  unfold transition_operation. rewrite Eop.
  destruct (op_status op) eqn:Es; cbn [OperationStatus_can_transition_to negb];
    try (split; [done|]; intros op0 [= <-]; by rewrite Es).
  match goal with |- context [audit_reconciliation time ?o ?a ?out ?w0] =>
    destruct (audit_reconciliation_ok o a out w0) as (w' & Hw' & Hops & Hlen & Hgen) end.
  rewrite Hw'. cbn in Hops, Hlen, Hgen |- *. split_and!; [|done|by apply (alter_other_statuses _ _ _ _ Hops)].
  rewrite Hops, lookup_alter_eq, Eop. cbn. by exists op; eexists.
Qed.

(** A running operation can always be failed. *)
Lemma running_can_fail id code op (w : World F) :
  t_operations (w_db w) !! id = Some op → op_status op = Running →
  (complete_operation time id Failed code w).1 = Ok tt.
Proof.
  intros Ho Hs. unfold complete_operation. cbn [is_active].
  unfold mbind at 1, M_bind at 1. cbn [query gets]. unfold get_operation. rewrite Ho.
  unfold mbind at 1, M_bind at 1. cbn [require of_result ok_or].
  rewrite bool_decide_eq_false_2 by done. cbn [andb].
  unfold mbind at 1, M_bind at 1. cbn [now]. unfold mbind at 1, M_bind at 1, store. cbn [w_db].
  unfold transition_operation. rewrite Ho, Hs. cbn [OperationStatus_can_transition_to negb].
  unfold mbind at 1, M_bind at 1.
  match goal with |- context [audit_reconciliation time ?o ?a ?out ?w0] =>
    destruct (audit_reconciliation_ok o a out w0) as (w' & Hw' & _) end.
  by rewrite Hw'.
Qed.

End Commands.

#[export] Instance inbox_wake_only : WakeOnly (F := list OperationId).
Proof. done. Qed.

Definition sample_plan : ExecutionPlan :=
  mkExecutionPlan UpdateAgent (mkAgentId 7) (mkCommunityConfigId 1)
    (MutUpdate (mkAgentId 7) (mkUpdateAgentInput (Some "Renamed") None None None None)) None false.
Definition sample_update : HashedRequest :=
  HashUpdate (mkUpdateAgentRequest (sample_metadata "k") (mkAgentId 7) UpdateAgentInput_default).

Lemma retried_command_is_safe_witness :
  ∃ res w1 res' w2,
    execute sample_time sample_uuid sample_json id sample_admin (sample_metadata "k")
      sample_update sample_plan sample_world = (Ok res, w1)
    ∧ execute sample_time sample_uuid sample_json id sample_admin (sample_metadata "k")
        sample_update sample_plan w1 = (Ok res', w2)
    ∧ or_id res' = or_id res ∧ w_db w2 = w_db w1.
Proof.
  destruct (execute sample_time sample_uuid sample_json id sample_admin (sample_metadata "k")
      sample_update sample_plan sample_world) as [[res|e] w1] eqn:E;
    [|vm_compute in E; discriminate E].
  destruct (retried_command_is_safe sample_time sample_uuid sample_json id sample_admin
    (sample_metadata "k") sample_update sample_update sample_plan sample_plan "update" "update"
    sample_world w1 w1 res sample_db_ok E) as (Hdb & _ & Hres).
  - reflexivity.
  - reflexivity.
  - reflexivity.
  - reflexivity.
  - reflexivity.
  - rewrite String.eqb_refl in Hres. destruct Hres as (res' & Hres' & Hid & _).
    destruct (execute sample_time sample_uuid sample_json id sample_admin (sample_metadata "k")
      sample_update sample_plan w1) as [r w2] eqn:E2. cbn in Hres', Hdb. subst r.
    exists res, w1, res', w2. split; [reflexivity|]. split; [exact E2|]. split; [exact Hid|exact Hdb].
Defined.

Definition sample_command (key : string) : AgentCommandRequest :=
  mkAgentCommandRequest (sample_metadata key) (mkAgentId 7).

Lemma sample_run_ok calls : db_ok (w_db (sample_run calls)).
Proof.
  exact (proj1 (by_calls_sound sample_world _
    (run_apps_by_calls sample_time sample_uuid sample_json id 100 calls sample_world)
    sample_db_ok)).
Qed.

Lemma delete_keeps_first_deadline_witness :
  let w := sample_run [AppDeleteAgent sample_admin (sample_command "d1")] in
  ∃ res w', delete_agent sample_time sample_uuid sample_json id 100 sample_admin
      (sample_command "d2") w = (Ok res, w')
    ∧ (ret_purge_after <$> t_retention (w_db w') !! mkAgentId 7) = Some 1100.
Proof.
  intros w. pose proof (sample_run_ok [AppDeleteAgent sample_admin (sample_command "d1")]) as Hdb.
  fold w in Hdb.
  destruct (delete_agent sample_time sample_uuid sample_json id 100 sample_admin
      (sample_command "d2") w) as [[res|e] w'] eqn:E; [|vm_compute in E; discriminate E].
  exists res, w'. split; [reflexivity|].
  destruct (delete_keeps_first_deadline sample_time sample_uuid sample_json id 100 sample_admin
    (sample_command "d2") w w' res Hdb) as (agent & r & Ha & _ & Hr & Hp & _).
  - vm_compute. reflexivity.
  - exact E.
  - change (mkAgentId 7) with (acr_agent_id (sample_command "d2")). rewrite Hr. cbn. rewrite Hp.
    vm_compute in Ha. injection Ha as <-. vm_compute. reflexivity.
Defined.

(** The retention sweep purges agents that are no longer deleted: an agent that was
    deleted and then disabled keeps its retention row (only enabling removes it), so once
    the deadline passes the sweep marks it deleted again and starts its purge. *)
Theorem sweep_purges_disabled_agent :
  let w := sample_run
    [AppDeleteAgent sample_admin (sample_command "d");
     AppChangeState sample_admin (mkChangeAgentStateRequest (sample_metadata "s") (mkAgentId 7)
       Disabled)] in
  let later n := 5000 + Z.of_nat n in
  let w' := (enqueue_expired_purges later sample_uuid sample_json id 100 w).2 in
  (spec_desired_state <$> get_agent (mkAgentId 7) (w_db w)) = Some Disabled
  ∧ expired_retained_agents 5000 (w_db w) = [mkAgentId 7]
  ∧ (spec_desired_state <$> get_agent (mkAgentId 7) (w_db w')) = Some Deleted
  ∧ ∃ id, (op_kind <$> t_operations (w_db w') !! id) = Some PurgeAgent.
Proof.
  cbn zeta. split_and!; [vm_compute; reflexivity..|]. exists (mkOperationId 1002).
  vm_compute. reflexivity.
Qed.
