(* ===== verification/AppDurability.v ===== *)
(** * Acknowledged operations are durable (src/src/application.rs)
    Every agent command that answers with an operation has committed it, under the
    caller's idempotency key, before it answers; nothing the service does later loses it. *)
From stdpp Require Import base gmap strings list.
From Stdlib Require Import ZArith Lia String.
From S2P Require Import Prelude RustStr Ids Lifecycle Agent Runtime Launch Auth ApiTypes Schema.
From S2P Require Import Storage StoreInv StoreProps Monad Application AppProps AppCommands.

(** The stored operation an answer stands for: same identifier and kind, the status
    answered or a later one, found under the idempotency key. *)
Definition acknowledged (k : string * string) (res : OperationResource) (db : Db) : Prop :=
  ∃ op row, t_operations db !! or_id res = Some op ∧ op_kind op = or_kind res
    ∧ op_correlation_id op = or_correlation_id res ∧ op_created_at op = or_created_at res
    ∧ status_reaches (or_status res) (op_status op)
    ∧ t_idempotency db !! k = Some row ∧ ik_operation_id row = or_id res.

Section Durability.
Context `{UuidLib} {F : Type} `{LifecycleEffects F} `{!EffectsSafe (F := F)}.
Variable time : nat → Z.
Variable uuid_at : nat → Z.
Variable serde_json_to_vec : HashedRequest → option string.
Variable sha256_hex : string → string.
Variable retention_seconds : Z.

Lemma acknowledged_kept k res (w w' : World F) :
  by_calls w w' → db_ok (w_db w) → acknowledged k res (w_db w) → acknowledged k res (w_db w').
Proof.
  intros Hc Hdb (op & row & Ho & Hk & Hco & Hcr & Hs & Hrow & Hid).
  destruct (by_calls_sound w w' Hc Hdb) as (_ & Hops & Hkeys & _).
  destruct (Hops _ _ Ho) as [[]|(o' & Ho' & _ & Hk' & Hcr' & Hco' & Hs' & _)].
  destruct (Hkeys _ _ Hrow) as [[]|Hrow'].
  exists o', row. split_and!; try congruence. by etrans.
Qed.

(** A computation whose answer is acknowledged under [k] when it answers. *)
Definition durable (k : string * string) (m : App F OperationResource) : Prop :=
  ∀ w res w', db_ok (w_db w) → m w = (Ok res, w') →
    db_ok (w_db w') ∧ acknowledged k res (w_db w').

Lemma by_calls_ok (w w' : World F) : by_calls w w' → db_ok (w_db w) → db_ok (w_db w').
Proof. intros Hc Hdb. apply (by_calls_sound w w' Hc Hdb). Qed.

Lemma always_result {A} (m : App F A) w a w' :
  always by_calls m → m w = (Ok a, w') → by_calls w w'.
Proof. intros Hm He. specialize (Hm w). by rewrite He in Hm. Qed.

(** Steps before, and steps after that keep the answer. *)
Lemma durable_bind {A} k (m : App F A) f :
  always by_calls m → (∀ a, durable k (f a)) → durable k (m ≫= f).
Proof.
  intros Hm Hf w res w' Hdb (a & w1 & H1 & H2)%bind_ok.
  eapply Hf; [|exact H2]. eapply by_calls_ok; [|exact Hdb]. by eapply always_result.
Qed.

Lemma durable_then k (m : App F OperationResource) f :
  durable k m → (∀ r, always by_calls (f r)) →
  (∀ r w r' w', f r w = (Ok r', w') → r' = r) → durable k (m ≫= f).
Proof.
  intros Hm Hf Hr w res w' Hdb (r & w1 & H1 & H2)%bind_ok.
  destruct (Hm w r w1 Hdb H1) as [Hdb1 Ha]. apply Hr in H2 as Heq. subst res.
  pose proof (always_result _ _ _ _ (Hf r) H2) as Hc.
  split; [by eapply by_calls_ok|by eapply acknowledged_kept].
Qed.

Lemma durable_execute actor metadata request plan :
  durable (idempotency_scope actor (plan_kind plan), md_idempotency_key metadata)
    (execute time uuid_at serde_json_to_vec sha256_hex actor metadata request plan).
Proof.
  intros w res w' Hdb He.
  apply execute_ok in He as (b & audit & op & r & db & _ & Ha & -> & Hby & _).
  destruct (apply_agent_command_ok _ _ _ _ _ _ _ _ Hdb Ha) as [Hdb1 _].
  apply apply_agent_command_recorded in Ha as (row & Hrow & _ & Hid & Ho); [|done].
  split; [by eapply by_calls_ok|]. apply (acknowledged_kept _ _ _ _ Hby); [done|].
  exists op, row. by split_and!.
Qed.

Lemma finish_create_answers agent input r (w : World F) r' w' :
  finish_create agent input r w = (Ok r', w') → r' = r.
Proof.
  unfold finish_create. intros (a & w1 & _ & Hf)%bind_ok.
  do 4 (apply bind_ok in Hf as (? & ? & _ & Hf)). by injection Hf as <- _.
Qed.

(** ** The commands that answer with an operation *)
Inductive AgentCommand :=
| CmdCreate (metadata : CommandMetadata) (input : CreateAgentInput)
| CmdUpdate (request : UpdateAgentRequest)
| CmdChangeState (request : ChangeAgentStateRequest)
| CmdDelete (request : AgentCommandRequest)
| CmdPurge (request : AgentCommandRequest)
| CmdPromote (request : PromoteDraftRequest).

Definition run_command (actor : AuthenticatedPrincipal) (c : AgentCommand)
    : App F OperationResource :=
  match c with
  | CmdCreate md input => create_agent time uuid_at serde_json_to_vec sha256_hex actor md input
  | CmdUpdate r => update_agent time uuid_at serde_json_to_vec sha256_hex actor r
  | CmdChangeState r => change_agent_state time uuid_at serde_json_to_vec sha256_hex actor r
  | CmdDelete r =>
    delete_agent time uuid_at serde_json_to_vec sha256_hex retention_seconds actor r
  | CmdPurge r =>
    purge_agent time uuid_at serde_json_to_vec sha256_hex retention_seconds actor r
  | CmdPromote r => promote_draft time uuid_at serde_json_to_vec sha256_hex actor r
  end.

(** The operation kind a command asks for, and its idempotency key. *)
Definition command_kind (c : AgentCommand) : OperationKind :=
  match c with
  | CmdCreate _ _ | CmdPromote _ => CreateAgent
  | CmdUpdate _ => UpdateAgent
  | CmdChangeState r =>
    if bool_decide (csr_desired_state r = Enabled) then EnableAgent else DisableAgent
  | CmdDelete _ => DeleteAgent
  | CmdPurge _ => PurgeAgent
  end.
Definition command_key (actor : AuthenticatedPrincipal) (c : AgentCommand) : string * string :=
  (idempotency_scope actor (command_kind c),
   md_idempotency_key
     (match c with
      | CmdCreate md _ => md
      | CmdUpdate r => uar_metadata r
      | CmdChangeState r => csr_metadata r
      | CmdDelete r | CmdPurge r => acr_metadata r
      | CmdPromote r => pdr_metadata r
      end)).

Lemma durable_deleted actor request kind :
  durable (idempotency_scope actor kind, md_idempotency_key (acr_metadata request))
    (deleted_command time uuid_at serde_json_to_vec sha256_hex retention_seconds actor request kind).
Proof.
  unfold deleted_command. apply durable_bind; [apply (keep_query by_calls)|intros o].
  apply durable_bind; [apply (keep_require by_calls)|intros agent].
  apply durable_bind; [|intros d; apply (durable_execute actor (acr_metadata request))].
  unfold retention_deadline. always_steps; solve [apply (keep_now by_calls) | apply (keep_query by_calls)].
Qed.

Lemma durable_create actor metadata request agent input draft :
  durable (idempotency_scope actor CreateAgent, md_idempotency_key metadata)
    (resource ← execute time uuid_at serde_json_to_vec sha256_hex actor metadata request
       (mkExecutionPlan CreateAgent (spec_id agent) (spec_community agent) (MutCreate agent) draft
          false);
     finish_create agent input resource).
Proof.
  apply durable_then; [apply (durable_execute actor metadata)|apply (keep_finish_create by_calls)|
    apply finish_create_answers].
Qed.

Lemma run_command_durable actor c : durable (command_key actor c) (run_command actor c).
Proof.
  destruct c as [md input|r|r|r|r|r]; cbn [run_command]; unfold command_key; cbn [command_kind].
  - unfold create_agent. apply durable_bind; [apply (keep_fresh by_calls)|intros u].
    apply durable_bind; [apply safe_prepare|intros agent].
    apply durable_bind; [apply (always_of_result by_calls)|intros _]. apply durable_create.
  - unfold update_agent. apply durable_bind; [apply (keep_query by_calls)|intros o].
    apply durable_bind; [apply (keep_require by_calls)|intros current].
    apply durable_bind; [apply safe_prepare_update|intros _].
    apply (durable_execute actor (uar_metadata r)).
  - unfold change_agent_state. intros w res w' Hdb (kind & w1 & Hk & Hx)%bind_ok.
    assert (kind = if bool_decide (csr_desired_state r = Enabled) then EnableAgent else DisableAgent)
      as <-.
    { destruct (csr_desired_state r); [by injection Hk as <- _|by injection Hk as <- _|discriminate Hk]. }
    injection Hk as _ <-. revert w res w' Hdb Hx. change (durable (idempotency_scope actor kind,
      md_idempotency_key (csr_metadata r)) (community ← existing_community (csr_agent_id r);
        execute time uuid_at serde_json_to_vec sha256_hex actor (csr_metadata r) (HashState r)
          (mkExecutionPlan kind (csr_agent_id r) community
            (MutSetState (csr_agent_id r) (csr_desired_state r) None) None true))).
    apply durable_bind; [apply (keep_existing_community by_calls)|intros community].
    apply (durable_execute actor (csr_metadata r)).
  - apply (durable_deleted actor r DeleteAgent).
  - apply (durable_deleted actor r PurgeAgent).
  - unfold promote_draft. apply durable_bind; [apply (keep_get_draft by_calls)|intros draft].
    apply durable_bind; [apply (always_of_result by_calls)|intros _].
    apply durable_bind; [apply (keep_fresh by_calls)|intros u].
    apply durable_bind; [apply safe_prepare|intros agent].
    apply durable_bind; [apply (always_of_result by_calls)|intros _]. apply durable_create.
Qed.

(** C6: an acknowledged operation is durable. When any agent command (create, update,
    enable, disable, delete, purge, promote) answers with an operation, that operation is
    in the database under the caller's idempotency key; and after any further sequence of
    service calls it still is, with the same kind, correlation identifier and creation
    time, at the status answered or one the state machine reaches from it. *)
Theorem acknowledged_operation_is_durable (actor : AuthenticatedPrincipal) (c : AgentCommand)
    (w w1 : World F) (res : OperationResource) (calls : list AppCall) :
  db_ok (w_db w) → run_command actor c w = (Ok res, w1) →
  acknowledged (command_key actor c) res
    (w_db (fold_left (run_app time uuid_at serde_json_to_vec sha256_hex retention_seconds) calls w1)).
Proof.
  intros Hdb Hc. destruct (run_command_durable actor c w res w1 Hdb Hc) as [Hdb1 Ha].
  eapply acknowledged_kept; [apply run_apps_by_calls; apply _|exact Hdb1|exact Ha].
Qed.

End Durability.

(** Disabling the sample agent, then running and completing the operation. *)
Lemma acknowledged_operation_is_durable_witness :
  let c := CmdChangeState (mkChangeAgentStateRequest (sample_metadata "k1") (mkAgentId 7) Disabled) in
  let later := [AppStart (mkOperationId 1000); AppComplete (mkOperationId 1000) Succeeded None] in
  ∃ res w1, run_command sample_time sample_uuid sample_json id 100 sample_admin c sample_world
      = (Ok res, w1)
    ∧ or_id res = mkOperationId 1000
    ∧ acknowledged (command_key sample_admin c) res
        (w_db (fold_left (run_app sample_time sample_uuid sample_json id 100) later w1)).
Proof.
  intros c later.
  destruct (run_command sample_time sample_uuid sample_json id 100 sample_admin c sample_world)
    as [[res|e] w1] eqn:E; [|vm_compute in E; discriminate E].
  exists res, w1. split; [reflexivity|]. split.
  - vm_compute in E. injection E as <- _. reflexivity.
  - exact (acknowledged_operation_is_durable sample_time sample_uuid sample_json id 100 sample_admin
             c sample_world w1 res later sample_db_ok E).
Defined.
