(* ===== verification/Completion.v ===== *)
(** * Waiting for an operation to finish (src/src/application.rs)
    [OperationCompletionSignal] and [wait_for_operation_terminal] among other threads: the
    waiting thread takes its steps one at a time, and between any two of them other
    threads make store calls, complete operations (commit first, notify later) and time
    passes. *)
From stdpp Require Import base gmap strings list relations.
From Stdlib Require Import ZArith Lia String.
From S2P Require Import Prelude RustStr Ids Lifecycle Agent Runtime Launch Auth ApiTypes Schema.
From S2P Require Import Storage StoreInv StoreProps Monad Application.

(** ** The waiting thread
    A snapshot is recorded as the number of notifications so far; the code sees that
    number modulo [2^64]. *)
Inductive Waiter :=
| WSnapshot (deadline : Z)
| WRead (deadline notified : Z)
| WDecide (deadline notified : Z) (operation : DurableOperation)
| WWait (deadline notified : Z)
| WDone (deadline : Z) (answer : result ApplicationError OperationResource).

(** What the threads share: the store, the notifications so far, the monotonic clock, and
    how many threads have committed a completion and not yet notified. *)
Record Shared := mkShared { sh_db : Db; sh_notified : Z; sh_now : Z; sh_owed : nat }.

Definition generation (notified : Z) : Z := notified mod 2 ^ 64.

(** [let deadline = Instant::now() + timeout] *)
Definition await_start (timeout : Z) (s : Shared) : Waiter := WSnapshot (sh_now s + timeout).

(** [wait_for_change] returns once the generation differs from the snapshot or the time
    is up; until then the thread is blocked. *)
Definition wait_for_change (deadline notified : Z) (s : Shared) : option Waiter :=
  if negb (generation (sh_notified s) =? generation notified) || (deadline <=? sh_now s)
  then Some (WSnapshot deadline) else None.

(** One step of the loop. *)
Definition wait_for_operation_terminal (id : OperationId) (w : Waiter) (s : Shared)
    : option Waiter :=
  match w with
  | WSnapshot deadline => Some (WRead deadline (sh_notified s))
  | WRead deadline n =>
    Some (match get_operation id (sh_db s) with
          | Some operation => WDecide deadline n operation
          | None => WDone deadline (Err AppNotFound)
          end)
  | WDecide deadline n operation =>
    Some (if OperationStatus_is_terminal (op_status operation) || (deadline <=? sh_now s)
          then WDone deadline (Ok (operation_resource operation))
          else WWait deadline n)
  | WWait deadline n => wait_for_change deadline n s
  | WDone _ _ => None
  end.

(** The thread running alone for [n] steps; a blocked thread stays where it is. *)
Fixpoint run_waiter (id : OperationId) (n : nat) (w : Waiter) (s : Shared) : Waiter :=
  match n with
  | O => w
  | S n => match wait_for_operation_terminal id w s with
           | Some w' => run_waiter id n w' s
           | None => w
           end
  end.

(** ** The other threads *)
(** The store calls that end an operation, which [complete_operation] makes. *)
Definition completes (c : StoreCall) : bool :=
  match c with
  | CallTransition _ next _ _ => OperationStatus_is_terminal next
  | CallCompletePurge _ _ _ _ => true
  | _ => false
  end.

Section System.
Context `{UuidLib}.

Inductive other_step : Shared → Shared → Prop :=
| other_call c s :
    completes c = false → (∀ id, c ≠ CallDeleteOperation id) →
    other_step s (mkShared (after_call (sh_db s) c) (sh_notified s) (sh_now s) (sh_owed s))
| other_commit c s db' :
    completes c = true → run_call c (sh_db s) = Ok db' →
    other_step s (mkShared db' (sh_notified s) (sh_now s) (S (sh_owed s)))
| other_notify s n :
    sh_owed s = S n → other_step s (mkShared (sh_db s) (sh_notified s + 1) (sh_now s) n)
| other_tick s t :
    sh_now s ≤ t → other_step s (mkShared (sh_db s) (sh_notified s) t (sh_owed s)).

Inductive system_step (id : OperationId) : Shared * Waiter → Shared * Waiter → Prop :=
| system_other s s' w : other_step s s' → system_step id (s, w) (s', w)
| system_waiter s w w' :
    wait_for_operation_terminal id w s = Some w' → system_step id (s, w) (s, w').

Definition system_reaches (id : OperationId) : Shared * Waiter → Shared * Waiter → Prop :=
  rtc (system_step id).

End System.

(** ** Only completions end operations *)
Definition terminal (op : DurableOperation) : bool := OperationStatus_is_terminal (op_status op).

(** Every unfinished operation is still there, unfinished. *)
Definition quiet (db db' : Db) : Prop :=
  ∀ id op, t_operations db !! id = Some op → terminal op = false →
    ∃ op', t_operations db' !! id = Some op' ∧ terminal op' = false.

Lemma quiet_same db db' : t_operations db' = t_operations db → quiet db db'.
Proof. intros Heq id op Ho Ht. rewrite Heq. eauto. Qed.

Lemma quiet_trans db1 db2 db3 : quiet db1 db2 → quiet db2 db3 → quiet db1 db3.
Proof. intros H1 H2 id op Ho Ht. destruct (H1 id op Ho Ht) as (o & Ho' & Ht'). eauto. Qed.

Lemma quiet_history db db' : history db' = history db → quiet db db'.
Proof. intros Hh. apply quiet_same. unfold history in Hh. by injection Hh. Qed.

Lemma sql_insert_operation_quiet op db db' :
  sql_insert_operation op db = Ok db' → quiet db db'.
Proof.
  unfold sql_insert_operation. intros Hi id o Ho Ht. do 2 (step_in Hi). injection Hi as <-. db_cbn.
  exists o. rewrite lookup_insert_ne; [done|]. intros <-. by rewrite Ho in E.
Qed.

Lemma sql_delete_agent_quiet id db : quiet db (sql_delete_agent id db).
Proof.
  unfold sql_delete_agent. destruct (t_agents db !! id); [|by apply quiet_same].
  intros i op Ho Ht. db_cbn. exists (null_agent id op). rewrite lookup_fmap, Ho. split; [done|].
  unfold terminal, null_agent in *. by destruct (bool_decide _).
Qed.

Lemma insert_audit_quiet r db db' : insert_audit r db = Ok db' → quiet db db'.
Proof. unfold insert_audit. intros Hi. step_in Hi. injection Hi as <-. by apply quiet_same. Qed.

Lemma sql_insert_tombstone_quiet id now op db : quiet db (sql_insert_tombstone id now op db).
Proof.
  unfold sql_insert_tombstone. destruct (t_tombstones db !! id); by apply quiet_same.
Qed.

Section Quiet.
Context `{UuidLib}.

Lemma sql_enqueue_quiet id row db db' : sql_enqueue id row db = Ok db' → quiet db db'.
Proof. intros Hq. by eapply quiet_history, sql_enqueue_history. Qed.

Lemma purge_deleted_agent_quiet id now fresh agent n db n' db' :
  purge_deleted_agent id now fresh agent n db = Ok (n', db') → quiet db db'.
Proof.
  unfold purge_deleted_agent. intros Hp. step_in Hp. destruct a as [m d1].
  step_in Hp. injection Hp as <- <-. apply map_err_ok in E0.
  eapply quiet_trans; [|eapply quiet_trans; [by apply (sql_insert_operation_quiet _ _ _ E0)|]].
  - step_in E; [|injection E as <- <-; by apply quiet_same].
    do 2 (step_in E). injection E as <- <-. apply map_err_ok in E2, E3.
    eapply quiet_trans; eapply sql_enqueue_quiet; eassumption.
  - eapply quiet_trans; [apply sql_insert_tombstone_quiet|apply sql_delete_agent_quiet].
Qed.

Lemma purge_deleted_agents_quiet id now fresh agents n db n' db' :
  purge_deleted_agents id now fresh agents n db = Ok (n', db') → quiet db db'.
Proof.
  revert n db. induction agents as [|a agents IH]; cbn; intros n db Hp.
  { injection Hp as <- <-. by apply quiet_same. }
  step_in Hp. destruct a0 as [m d1].
  eapply quiet_trans; [by eapply purge_deleted_agent_quiet|by eapply IH].
Qed.

Lemma tombstone_personas_quiet id now fresh rows n db db' :
  tombstone_personas id now fresh rows n db = Ok db' → quiet db db'.
Proof.
  revert n db. induction rows as [|p rows IH]; cbn; intros n db Hp.
  { injection Hp as <-. by apply quiet_same. }
  step_in Hp. apply map_err_ok in E.
  eapply quiet_trans; [by eapply sql_enqueue_quiet|by eapply IH].
Qed.

Lemma sql_delete_community_quiet id n db db' :
  sql_delete_community id db = Ok (n, db') → quiet db db'.
Proof.
  unfold sql_delete_community. intros Hd.
  repeat step_in Hd; injection Hd as <- <-; by apply quiet_same.
Qed.

Lemma delete_community_with_deleted_agents_quiet id now fresh db r db' :
  delete_community_with_deleted_agents id now fresh db = Ok (r, db') → quiet db db'.
Proof.
  unfold delete_community_with_deleted_agents. intros Hd. do 3 (step_in Hd).
  destruct_pairs. do 2 (step_in Hd). destruct_pairs. injection Hd as <- <-. apply map_err_ok in E3.
  eapply quiet_trans; [by eapply purge_deleted_agents_quiet|].
  eapply quiet_trans; [by eapply tombstone_personas_quiet|].
  by eapply sql_delete_community_quiet.
Qed.

Lemma transition_operation_quiet id next code now r db db' :
  OperationStatus_is_terminal next = false →
  transition_operation id next code now db = Ok (r, db') → quiet db db'.
Proof.
  unfold transition_operation. intros Hn Ht i op Ho Hop. do 2 (step_in Ht). injection Ht as <- <-.
  unfold sql_update_operation. db_cbn. rewrite lookup_alter.
  case_decide; [subst|eauto]. rewrite Ho. cbn. eexists. split; [done|]. done.
Qed.

Lemma apply_agent_command_quiet op idem mutation draft audit db r db' :
  apply_agent_command op idem mutation draft audit db = Ok (r, db') → quiet db db'.
Proof.
  destruct r as [o []]; intros Ha.
  - apply apply_agent_command_replay in Ha as (-> & _). by apply quiet_same.
  - apply apply_agent_command_fresh in Ha as (_ & _ & d1 & d2 & d3 & d4 & H1 & H2 & H3 & H4 & H5).
    eapply quiet_trans; [by eapply quiet_history, apply_mutation_history|].
    eapply quiet_trans; [by eapply sql_insert_operation_quiet|].
    assert (quiet d2 d3).
    { unfold sql_insert_idempotency in H3. do 2 (step_in H3). injection H3 as <-.
      by apply quiet_same. }
    eapply quiet_trans; [done|]. eapply quiet_trans; [|by eapply insert_audit_quiet].
    destruct draft; [by eapply quiet_history, sql_promote_draft_history|subst; by apply quiet_same].
Qed.

(** Follow a call that leaves [operations] alone. *)
Ltac quiet_call Hr :=
  repeat step_in Hr;
  injection Hr as <- <-; by apply quiet_same.

Lemma run_call_quiet c db db' :
  completes c = false → (∀ id, c ≠ CallDeleteOperation id) →
  run_call c db = Ok db' → quiet db db'.
Proof.
  intros Hc Hdel. destruct c; cbn [run_call]; intros [r Hr]%rmap_snd_ok.
  - unfold append_reconciliation_journal in Hr. quiet_call Hr.
  - unfold append_health_history in Hr. quiet_call Hr.
  - unfold ensure_auto_join_enabled_at in Hr. quiet_call Hr.
  - unfold clear_auto_join_enabled_at in Hr. quiet_call Hr.
  - unfold put_community in Hr. quiet_call Hr.
  - unfold delete_community in Hr. step_in Hr. destruct_pairs. step_in Hr.
    injection Hr as <- <-. apply map_err_ok in E. by eapply sql_delete_community_quiet.
  - by eapply delete_community_with_deleted_agents_quiet.
  - unfold record_relay_projection in Hr. quiet_call Hr.
  - unfold enqueue_relay_publication in Hr. step_in Hr. injection Hr as <- <-.
    apply map_err_ok in E. by eapply sql_enqueue_quiet.
  - unfold complete_relay_publication in Hr. quiet_call Hr.
  - unfold fail_relay_publication in Hr. quiet_call Hr.
  - unfold remove_relay_projection in Hr. quiet_call Hr.
  - unfold put_agent in Hr. do 2 (step_in Hr). injection Hr as <- <-. apply map_err_ok in E0.
    unfold sql_upsert_agent in E0. step_in E0. injection E0 as <-. by apply quiet_same.
  - unfold purge_agent_row in Hr. step_in Hr. injection Hr as <- <-. apply sql_delete_agent_quiet.
  - unfold put_draft in Hr. quiet_call Hr.
  - unfold delete_draft in Hr. quiet_call Hr.
  - unfold append_redacted_log in Hr. quiet_call Hr.
  - unfold claim_nip98_replay in Hr. quiet_call Hr.
  - unfold create_operation in Hr. step_in Hr. injection Hr as <- <-. apply map_err_ok in E.
    by eapply sql_insert_operation_quiet.
  - by destruct (Hdel id).
  - by eapply transition_operation_quiet.
  - unfold append_audit in Hr. quiet_call Hr.
  - unfold claim_idempotency in Hr. step_in Hr; [quiet_call Hr|]. step_in Hr.
    injection Hr as <- <-. apply map_err_ok in E0. unfold sql_insert_idempotency in E0.
    do 2 (step_in E0). injection E0 as <-. by apply quiet_same.
  - by eapply apply_agent_command_quiet.
  - unfold apply_draft_command in Hr. step_in Hr; [quiet_call Hr|].
    do 3 (step_in Hr). injection Hr as <- <-. apply map_err_ok in E0, E1.
    unfold sql_insert_draft in E0. step_in E0. injection E0 as <-.
    unfold sql_insert_draft_idempotency in E1. do 2 (step_in E1). injection E1 as <-.
    eapply quiet_trans; [|by eapply insert_audit_quiet]. by apply quiet_same.
  - done.
Qed.

End Quiet.

(** ** The invariant of a wait *)
(** A completion that the snapshot [n] misses is announced already, or still will be. *)
Definition told (s : Shared) (n : Z) : Prop := (0 < sh_owed s)%nat ∨ n < sh_notified s.

Definition waiter_ok (id : OperationId) (s : Shared) (op : DurableOperation) (w : Waiter) : Prop :=
  match w with
  | WSnapshot _ => True
  | WRead _ n => n ≤ sh_notified s
  | WDecide _ n o =>
    n ≤ sh_notified s ∧ op_id o = id ∧ op_evolves o op
    ∧ (terminal op = true → terminal o = true ∨ told s n)
  | WWait _ n => n ≤ sh_notified s ∧ (terminal op = true → told s n)
  | WDone d (Ok res) =>
    ∃ o, res = operation_resource o ∧ op_id o = id ∧ op_evolves o op
         ∧ (terminal o = true ∨ d ≤ sh_now s)
  | WDone _ (Err _) => False
  end.
Definition wait_inv (id : OperationId) (s : Shared) (w : Waiter) : Prop :=
  db_ok (sh_db s) ∧ ∃ op, t_operations (sh_db s) !! id = Some op ∧ waiter_ok id s op w.

(** The waiter stands while the others move on: time and notifications only grow, and an
    operation that ends leaves a notification owed. *)
Lemma waiter_ok_change id s s' op op' w :
  op_evolves op op' → sh_now s ≤ sh_now s' → sh_notified s ≤ sh_notified s' →
  (∀ n, n ≤ sh_notified s → told s n → told s' n) →
  (terminal op' = true → terminal op = true ∨ ∀ n, n ≤ sh_notified s → told s' n) →
  waiter_ok id s op w → waiter_ok id s' op' w.
Proof.
  intros He Hnow Hn Htold Hterm Hw. destruct w as [d|d n|d n o|d n|d [res|e]]; cbn in *; try lia; try done.
  - destruct Hw as (Hle & Hid & Hev & Ht).
    split_and!; [lia|done|by eapply op_evolves_trans|]. intros [Hop|Hall]%Hterm; [|auto].
    destruct (Ht Hop); auto.
  - destruct Hw as (Hle & Ht). split; [lia|]. intros [Hop|Hall]%Hterm; auto.
  - destruct Hw as (o & -> & Hid & Hev & Ht). exists o.
    split_and!; [done|done|by eapply op_evolves_trans|]. destruct Ht; [by left|right; lia].
Qed.

Section Wait.
Context `{UuidLib}.

Lemma stored_evolves c db db' id op :
  db_ok db → run_call c db = Ok db' → c ≠ CallDeleteOperation id → t_operations db !! id = Some op →
  db_ok db' ∧ ∃ op', t_operations db' !! id = Some op' ∧ op_evolves op op'.
Proof.
  intros Hdb Hr Hc Ho. destruct (run_call_sound c db db' Hr Hdb) as [Hdb' [Kops _ _ _ _ _ _]].
  split; [done|]. by destruct (Kops id op Ho) as [?|?].
Qed.

Lemma other_step_inv id s s' w : other_step s s' → wait_inv id s w → wait_inv id s' w.
Proof.
  intros Hs (Hdb & op & Ho & Hw). destruct Hs as [c s Hc Hdel|c s db' Hc Hr|s n Hn|s t Ht]; cbn [sh_db].
  - unfold after_call. destruct (run_call c (sh_db s)) as [db'|e] eqn:Er.
    + destruct (stored_evolves c _ _ id op Hdb Er (Hdel id) Ho) as (Hdb' & op' & Ho' & He).
      split; [done|]. exists op'. split; [done|].
      eapply waiter_ok_change; [exact He| | | | |exact Hw]; cbn; try lia; auto.
      intros Ht. left. destruct (terminal op) eqn:Et; [done|].
      destruct (run_call_quiet c _ _ Hc Hdel Er id op Ho Et) as (o & Ho2 & Ht2). cbn in Ho'. congruence.
    + split; [done|]. exists op. split; [done|].
      eapply waiter_ok_change; [apply op_evolves_refl| | | | |exact Hw]; cbn; try lia; auto.
  - assert (c ≠ CallDeleteOperation id) as Hnd by by intros ->.
    destruct (stored_evolves c _ _ id op Hdb Hr Hnd Ho) as (Hdb' & op' & Ho' & He).
    split; [done|]. exists op'. split; [done|].
    eapply waiter_ok_change; [exact He| | | | |exact Hw]; cbn; try lia.
    + intros n _ _. left. cbn. lia.
    + intros _. right. intros n _. left. cbn. lia.
  - split; [done|]. exists op. split; [done|].
    eapply waiter_ok_change; [apply op_evolves_refl| | | | |exact Hw]; cbn; try lia; auto.
    intros m Hm _. right. cbn. lia.
  - split; [done|]. exists op. split; [done|].
    eapply waiter_ok_change; [apply op_evolves_refl| | | | |exact Hw]; cbn; try lia; auto.
Qed.

Lemma waiter_step_inv id s w w' :
  wait_for_operation_terminal id w s = Some w' → wait_inv id s w → wait_inv id s w'.
Proof.
  intros Hs (Hdb & op & Ho & Hw). split; [done|]. exists op. split; [done|].
  destruct w as [d|d n|d n o|d n|d r]; cbn in Hs; [| | | |done].
  - injection Hs as <-. cbn. lia.
  - unfold get_operation in Hs. rewrite Ho in Hs. injection Hs as <-. cbn.
    split_and!; [done|apply (dbok_operations _ Hdb _ _ Ho)|apply op_evolves_refl|by left].
  - destruct Hw as (Hle & Hid & Hev & Ht). destruct (_ || _) eqn:E; injection Hs as <-; cbn.
    + exists o. split_and!; try done. apply orb_true_iff in E as [E|E%Z.leb_le]; auto.
    + split; [done|]. intros Hop. apply orb_false_iff in E as [E _].
      destruct (Ht Hop) as [Hto|]; [|done]. unfold terminal in Hto. congruence.
  - unfold wait_for_change in Hs. step_in Hs. by injection Hs as <-.
Qed.

Lemma wait_inv_reaches id s0 timeout s w :
  db_ok (sh_db s0) → is_Some (t_operations (sh_db s0) !! id) →
  system_reaches id (s0, await_start timeout s0) (s, w) → wait_inv id s w.
Proof.
  intros Hdb [op Ho] Hr.
  assert (∀ p q, system_reaches id p q → wait_inv id p.1 p.2 → wait_inv id q.1 q.2) as Hind.
  { induction 1 as [|x y z Hxy _ IH]; [done|]. intros Hx. apply IH.
    destruct Hxy as [s1 s2 v Hs|s1 v v' Hs]; cbn in *; [by eapply other_step_inv|by eapply waiter_step_inv]. }
  apply (Hind _ _ Hr). split; [done|]. by exists op.
Qed.

(** The deadline is the one computed on entry. *)
Definition waiter_deadline (w : Waiter) : Z :=
  match w with
  | WSnapshot d | WRead d _ | WDecide d _ _ | WWait d _ | WDone d _ => d
  end.
(** Notifications since the snapshot. *)
Definition notified_since (w : Waiter) (s : Shared) : Z :=
  match w with WRead _ n | WDecide _ n _ | WWait _ n => sh_notified s - n | _ => 0 end.

Lemma deadline_kept id s0 w0 s w :
  system_reaches id (s0, w0) (s, w) → waiter_deadline w = waiter_deadline w0.
Proof.
  intros Hr. assert (∀ p q, system_reaches id p q → waiter_deadline q.2 = waiter_deadline p.2) as Hi.
  { induction 1 as [|x y z Hxy _ IH]; [done|]. rewrite IH.
    destruct Hxy as [|s1 v v' Hs]; cbn; [done|].
    destruct v as [d|d n|d n o|d n|d r]; cbn in Hs; [by injection Hs as <-| | | |done].
    - injection Hs as <-. by destruct (get_operation id _).
    - injection Hs as <-. by destruct (_ || _).
    - unfold wait_for_change in Hs. step_in Hs. by injection Hs as <-. }
  exact (Hi _ _ Hr).
Qed.

Lemma generation_differs n m : n < m → m - n < 2 ^ 64 → generation m ≠ generation n.
Proof.
  unfold generation. intros Hlt Hnear Heq.
  pose proof (Z.div_mod m (2 ^ 64) ltac:(lia)). pose proof (Z.div_mod n (2 ^ 64) ltac:(lia)). lia.
Qed.

(** What the loop answers once there is a reason to stop. *)
Definition may_stop (op : DurableOperation) (d : Z) (s : Shared) : bool :=
  terminal op || (d <=? sh_now s).

Lemma run_waiter_done id n d r s : run_waiter id n (WDone d r) s = WDone d r.
Proof. by destruct n. Qed.

Lemma run_waiter_step id n w w' s :
  wait_for_operation_terminal id w s = Some w' → run_waiter id (S n) w s = run_waiter id n w' s.
Proof. cbn. by intros ->. Qed.

Lemma run_from_read id k d n op s :
  t_operations (sh_db s) !! id = Some op → may_stop op d s = true →
  run_waiter id (2 + k) (WRead d n) s = WDone d (Ok (operation_resource op)).
Proof.
  intros Ho Hs. cbn [run_waiter wait_for_operation_terminal Nat.add]. unfold get_operation. rewrite Ho.
  cbn [run_waiter wait_for_operation_terminal]. unfold may_stop, terminal in Hs. rewrite Hs. apply run_waiter_done.
Qed.

Lemma run_from_snapshot id k d op s :
  t_operations (sh_db s) !! id = Some op → may_stop op d s = true →
  run_waiter id (3 + k) (WSnapshot d) s = WDone d (Ok (operation_resource op)).
Proof. intros Ho Hs. by apply (run_from_read id k d (sh_notified s) op s). Qed.

Lemma run_from_wait id k d n op s :
  t_operations (sh_db s) !! id = Some op → may_stop op d s = true →
  (d ≤ sh_now s ∨ (n < sh_notified s ∧ sh_notified s - n < 2 ^ 64)) →
  run_waiter id (4 + k) (WWait d n) s = WDone d (Ok (operation_resource op)).
Proof.
  intros Ho Hs Hwake. cbn [Nat.add run_waiter wait_for_operation_terminal]. unfold wait_for_change.
  assert (negb (generation (sh_notified s) =? generation n) || (d <=? sh_now s) = true) as ->.
  { apply orb_true_iff. destruct Hwake as [Hd|[Hlt Hnear]]; [right; by apply Z.leb_le|left].
    apply negb_true_iff, Z.eqb_neq. by apply generation_differs. }
  by apply (run_from_snapshot id k d op s).
Qed.

(** ** Properties *)

(** Waiting for an operation answers truthfully. Whatever other threads do in
    between, when the wait for a stored operation ends it answers with that operation, at
    a status it really had: a terminal status, which the stored operation then keeps, or,
    only once the time is up, an earlier status of the stored operation. *)
Theorem await_answers_correctly (id : OperationId) (timeout d : Z) (s0 s : Shared)
    (answer : result ApplicationError OperationResource) :
  db_ok (sh_db s0) → is_Some (t_operations (sh_db s0) !! id) →
  system_reaches id (s0, await_start timeout s0) (s, WDone d answer) →
  ∃ res op, answer = Ok res ∧ or_id res = id ∧ t_operations (sh_db s) !! id = Some op
    ∧ (OperationStatus_is_terminal (or_status res) = true ∧ op_status op = or_status res
       ∨ sh_now s0 + timeout ≤ sh_now s ∧ status_reaches (or_status res) (op_status op)).
Proof.
  intros Hdb Ho Hr. pose proof (deadline_kept _ _ _ _ _ Hr) as Hd. cbn in Hd. subst d.
  destruct (wait_inv_reaches id s0 timeout s _ Hdb Ho Hr) as (_ & op & Hop & Hw).
  destruct answer as [res|e]; cbn in Hw; [|done].
  destruct Hw as (o & -> & Hid & (_ & _ & _ & _ & Hst & _) & Hend).
  exists (operation_resource o), op. split_and!; try done.
  destruct Hend as [Ht|Ht]; [left|right; done]. split; [done|].
  by eapply terminal_reaches.
Qed.

(** C35: waiting has no lost wake-up and no overrun. At any moment of a wait, whatever
    happened before: if the stored operation has ended and no thread that ended it still
    has to notify (with fewer than 2^64 notifications since the snapshot), or if the time
    is up, then the waiting thread is not blocked, and its own next steps, at most five,
    end the wait with an answer. *)
Theorem await_never_hangs (id : OperationId) (timeout : Z) (s0 s : Shared) (w : Waiter) :
  db_ok (sh_db s0) → is_Some (t_operations (sh_db s0) !! id) →
  system_reaches id (s0, await_start timeout s0) (s, w) →
  ((∃ op, t_operations (sh_db s) !! id = Some op ∧ terminal op = true) ∧ sh_owed s = O
     ∧ notified_since w s < 2 ^ 64)
  ∨ sh_now s0 + timeout ≤ sh_now s →
  ∃ d res, run_waiter id 5 w s = WDone d (Ok res) ∧ or_id res = id.
Proof.
  intros Hdb Ho Hr Hwhy. pose proof (deadline_kept _ _ _ _ _ Hr) as Hd. cbn in Hd.
  destruct (wait_inv_reaches id s0 timeout s w Hdb Ho Hr) as (Hdb' & op & Hop & Hw).
  pose proof (dbok_operations _ Hdb' _ _ Hop) as [Hid _]. rewrite <- Hd in Hwhy. clear Hd.
  assert (may_stop op (waiter_deadline w) s = true) as Hs.
  { unfold may_stop. apply orb_true_iff.
    destruct Hwhy as [[(o & Ho' & Ht) _]|Hd]; [left; congruence|right; by apply Z.leb_le]. }
  destruct w as [d|d n|d n o|d n|d [res|e]]; cbn [waiter_deadline] in *.
  - change 5%nat with (3 + 2)%nat. rewrite (run_from_snapshot id 2 d op s) by done. eauto.
  - change 5%nat with (2 + 3)%nat. rewrite (run_from_read id 3 d n op s) by done. eauto.
  - destruct Hw as (Hle & Hido & _ & Ht).
    destruct (OperationStatus_is_terminal (op_status o) || (d <=? sh_now s)) eqn:E.
    { rewrite (run_waiter_step id 4 _ (WDone d (Ok (operation_resource o)))) by (cbn; by rewrite E).
      rewrite run_waiter_done. eauto. }
    rewrite (run_waiter_step id 4 _ (WWait d n)) by (cbn; by rewrite E).
    change 4%nat with (4 + 0)%nat. rewrite (run_from_wait id 0 d n op s); [eauto|done|done|]. right.
    apply orb_false_iff in E as [E1 E2%Z.leb_gt].
    destruct Hwhy as [((o' & Ho' & Hop') & Howed & Hnear)|Hd]; [|lia].
    split; [|done]. destruct Ht as [Hto|[?|?]]; [congruence| |lia|done].
    unfold terminal in Hto. congruence.
  - destruct Hw as (Hle & Ht). change 5%nat with (4 + 1)%nat. rewrite (run_from_wait id 1 d n op s); [eauto|done|done|].
    destruct Hwhy as [((o' & Ho' & Hop') & Howed & Hnear)|Hd]; [right|by left].
    split; [|done]. destruct Ht as [?|?]; [congruence|lia|done].
  - destruct Hw as (o & -> & Hido & _). rewrite run_waiter_done. eauto.
  - done.
Qed.


End Wait.

(** A wait for the operation that created the sample agent: the waiter takes its snapshot,
    reads the pending operation and blocks; then the operation runs, succeeds and is
    announced. *)
Definition sample_shared : Shared := mkShared sample_db 0 0 0.
Definition sample_running : Db :=
  after_call sample_db (CallTransition (mkOperationId 1) Running None 200).
Definition sample_succeeded : Db :=
  after_call sample_running (CallTransition (mkOperationId 1) Succeeded None 300).
Definition sample_told : Shared := mkShared sample_succeeded 1 0 0.

Lemma sample_wait_reaches :
  system_reaches (mkOperationId 1) (sample_shared, await_start 100 sample_shared)
    (sample_told, WWait 100 0).
Proof.
  eapply rtc_l; [by apply system_waiter|].
  eapply rtc_l; [apply system_waiter; vm_compute; reflexivity|].
  eapply rtc_l; [apply system_waiter; vm_compute; reflexivity|].
  eapply rtc_l; [apply system_other, (other_call (CallTransition (mkOperationId 1) Running None 200));
    [reflexivity|discriminate]|].
  eapply rtc_l; [apply system_other, (other_commit (CallTransition (mkOperationId 1) Succeeded None 300)
    _ sample_succeeded); [reflexivity|vm_compute; reflexivity]|].
  eapply rtc_l; [apply system_other; by apply (other_notify _ 0)|]. apply rtc_refl.
Qed.

Lemma await_never_hangs_witness :
  ∃ d res, run_waiter (mkOperationId 1) 5 (WWait 100 0) sample_told = WDone d (Ok res)
           ∧ or_id res = mkOperationId 1.
Proof.
  apply (await_never_hangs (mkOperationId 1) 100 sample_shared sample_told (WWait 100 0) sample_db_ok).
  - by eexists.
  - exact sample_wait_reaches.
  - left. split; [|by split]. eexists. split; vm_compute; reflexivity.
Defined.

Lemma await_answers_correctly_witness :
  ∃ answer, system_reaches (mkOperationId 1) (sample_shared, await_start 100 sample_shared)
      (sample_told, WDone 100 answer)
    ∧ ∃ res, answer = Ok res ∧ or_status res = Succeeded.
Proof.
  destruct (run_waiter (mkOperationId 1) 4 (WWait 100 0) sample_told) as [d|d n|d n o|d n|d answer]
    eqn:E; try (vm_compute in E; discriminate E).
  assert (system_reaches (mkOperationId 1) (sample_shared, await_start 100 sample_shared)
      (sample_told, WDone 100 answer)) as Hr.
  { etrans; [exact sample_wait_reaches|]. vm_compute in E. injection E as _ <-.
    do 4 (eapply rtc_l; [apply system_waiter; vm_compute; reflexivity|]). apply rtc_refl. }
  exists answer. split; [exact Hr|].
  destruct (await_answers_correctly (mkOperationId 1) 100 100 sample_shared sample_told answer
    sample_db_ok ltac:(by eexists) Hr) as (res & op & -> & _ & Hop & Hend).
  exists res. split; [reflexivity|]. destruct Hend as [[_ <-]|[Hlate _]].
  - vm_compute in Hop. injection Hop as <-. reflexivity.
  - vm_compute in Hlate. by destruct Hlate.
Defined.
