(* ===== verification/Api.v ===== *)
(** * Lifecycle API (src/src/api.rs [LifecycleHandler], src/src/transport.rs
    [LifecycleJsonRouter])
    Authorization and validation in front of an application service, and the dispatch of
    decoded requests. The service is an interface ([LifecycleApplication]); JSON decoding
    and encoding are parameters. *)
From stdpp Require Import base gmap strings list.
From Stdlib Require Import ZArith Lia String.
From S2P Require Import Prelude RustStr Ids Lifecycle Agent Auth ApiTypes Monad.

(** The [LifecycleApplication] trait, over a world [W]. *)
Class LifecycleApplication (W : Type) := {
  svc_join_community : JoinCommunityRequest → M W ApplicationError CommunityConfig;
  svc_update_community : UpdateCommunityRequest → M W ApplicationError CommunityConfig;
  svc_get_community : CommunityConfigId → M W ApplicationError CommunityConfig;
  svc_list_communities : M W ApplicationError (list CommunityConfig);
  svc_remove_community : CommunityConfigId → M W ApplicationError CommunityConfig;
  svc_create_persona : CreatePersonaRequest → M W ApplicationError PersonaDefinition;
  svc_update_persona : UpdatePersonaRequest → M W ApplicationError PersonaDefinition;
  svc_get_persona : string → M W ApplicationError PersonaDefinition;
  svc_list_personas : M W ApplicationError (list PersonaDefinition);
  svc_delete_persona : string → M W ApplicationError PersonaDefinition;
  svc_create_agent : AuthenticatedPrincipal → CommandMetadata → CreateAgentInput →
    M W ApplicationError OperationResource;
  svc_update_agent : AuthenticatedPrincipal → UpdateAgentRequest →
    M W ApplicationError OperationResource;
  svc_change_agent_state : AuthenticatedPrincipal → ChangeAgentStateRequest →
    M W ApplicationError OperationResource;
  svc_delete_agent : AuthenticatedPrincipal → AgentCommandRequest →
    M W ApplicationError OperationResource;
  svc_purge_agent : AuthenticatedPrincipal → AgentCommandRequest →
    M W ApplicationError OperationResource;
  svc_get_agent : AgentId → M W ApplicationError AgentResource;
  svc_list_agents : ListAgentsRequest → M W ApplicationError (list AgentResource);
  svc_agent_logs : AgentLogsRequest → M W ApplicationError AgentLogsResource;
  svc_get_operation : OperationId → M W ApplicationError OperationResource;
  svc_wait_operation : OperationId → Z → M W ApplicationError OperationResource;
  svc_submit_draft : AuthenticatedPrincipal → SubmitDraftRequest →
    M W ApplicationError DraftResource;
  svc_get_draft : string → M W ApplicationError DraftResource;
  svc_promote_draft : AuthenticatedPrincipal → PromoteDraftRequest →
    M W ApplicationError OperationResource
}.

Inductive LifecycleRouteRequest :=
| RouteJoinCommunity (request : JoinCommunityRequest)
| RouteUpdateCommunity (request : UpdateCommunityRequest)
| RouteGetCommunity (community_id : CommunityConfigId)
| RouteListCommunities
| RouteRemoveCommunity (community_id : CommunityConfigId)
| RouteCreatePersona (request : CreatePersonaRequest)
| RouteUpdatePersona (request : UpdatePersonaRequest)
| RouteGetPersona (persona_id : string)
| RouteListPersonas
| RouteDeletePersona (persona_id : string)
| RouteCreateAgent (request : CreateAgentRequest)
| RouteUpdateAgent (request : UpdateAgentRequest)
| RouteChangeAgentState (request : ChangeAgentStateRequest)
| RouteDeleteAgent (request : AgentCommandRequest)
| RoutePurgeAgent (request : AgentCommandRequest)
| RouteGetAgent (agent_id : AgentId)
| RouteListAgents (request : ListAgentsRequest)
| RouteAgentLogs (request : AgentLogsRequest)
| RouteGetOperation (operation_id : OperationId)
| RouteAwaitOperation (operation_id : OperationId)
| RouteSubmitDraft (request : SubmitDraftRequest)
| RouteGetDraft (draft_id : string)
| RoutePromoteDraft (request : PromoteDraftRequest).

Inductive LifecycleRouteResource :=
| ResCommunity (c : CommunityConfig)
| ResCommunities (cs : list CommunityConfig)
| ResPersona (p : PersonaDefinition)
| ResPersonas (ps : list PersonaDefinition)
| ResOperation (o : OperationResource)
| ResAgent (a : AgentResource)
| ResAgents (l : list AgentResource)
| ResLogs (l : AgentLogsResource)
| ResDraft (d : DraftResource).

Section Handler.
Context {W : Type} `{LifecycleApplication W}.

Definition Api (A : Type) : Type := M W ApiError A.

Definition authorized (actor : AuthenticatedPrincipal) (c : Capability) : Api unit :=
  of_result (map_err api_authorization (authorize actor c None)).
Definition validated (r : result ValidationError unit) : Api unit :=
  of_result (map_err api_validation r).
Definition application {A} (m : M W ApplicationError A) : Api A := M_map_err api_application m.
Definition reject {A} (field reason : string) : Api A :=
  throw (api_validation (mkValidationError field reason)).

Definition h_join_community (fresh : CommunityConfigId) (actor : AuthenticatedPrincipal)
    (request : JoinCommunityRequest) : Api CommunityConfig :=
  _ ← authorized actor ManageCommunity;
  candidate ← of_result (map_err api_validation
    (let? community := CommunityConfig_new fresh (jc_display_name request)
                         (jc_relay_url request) in
     with_identity_pubkey community (jc_identity_pubkey request)));
  _ ← validated (CommunityConfig_validate candidate);
  application (svc_join_community request).

Definition h_update_community (actor : AuthenticatedPrincipal) (request : UpdateCommunityRequest)
    : Api CommunityConfig :=
  _ ← authorized actor ManageCommunity;
  _ ← validated (validate_token "display_name" (uc_display_name request) 120);
  application (svc_update_community request).

Definition h_get_community (actor : AuthenticatedPrincipal) (id : CommunityConfigId)
    : Api CommunityConfig :=
  _ ← authorized actor ReadCommunity; application (svc_get_community id).

Definition h_list_communities (actor : AuthenticatedPrincipal) : Api (list CommunityConfig) :=
  _ ← authorized actor ReadCommunity; application svc_list_communities.

Definition h_remove_community (actor : AuthenticatedPrincipal) (id : CommunityConfigId)
    : Api CommunityConfig :=
  _ ← authorized actor ManageCommunity; application (svc_remove_community id).

Definition h_create_persona (actor : AuthenticatedPrincipal) (request : CreatePersonaRequest)
    : Api PersonaDefinition :=
  _ ← authorized actor CapCreateAgent;
  _ ← validated (validate_token "display_name" (cp_display_name request) 120);
  application (svc_create_persona request).

Definition h_update_persona (actor : AuthenticatedPrincipal) (request : UpdatePersonaRequest)
    : Api PersonaDefinition :=
  _ ← authorized actor CapUpdateAgent;
  _ ← validated (validate_token "persona_id" (up_persona_id request) 120);
  if bool_decide (up_changes request = UpdatePersonaInput_default)
  then reject "changes" "must include at least one field"
  else application (svc_update_persona request).

Definition h_get_persona (actor : AuthenticatedPrincipal) (id : string) : Api PersonaDefinition :=
  _ ← authorized actor ReadAgent; application (svc_get_persona id).

Definition h_list_personas (actor : AuthenticatedPrincipal) : Api (list PersonaDefinition) :=
  _ ← authorized actor ReadAgent; application svc_list_personas.

Definition h_delete_persona (actor : AuthenticatedPrincipal) (id : string)
    : Api PersonaDefinition :=
  _ ← authorized actor CapDeleteAgent; application (svc_delete_persona id).

Definition h_create_agent (actor : AuthenticatedPrincipal) (request : CreateAgentRequest)
    : Api OperationResource :=
  _ ← authorized actor CapCreateAgent;
  _ ← validated (CommandMetadata_validate (car_metadata request));
  _ ← validated (CreateAgentInput_validate (car_agent request));
  application (svc_create_agent actor (car_metadata request) (car_agent request)).

Definition h_update_agent (actor : AuthenticatedPrincipal) (request : UpdateAgentRequest)
    : Api OperationResource :=
  _ ← authorized actor CapUpdateAgent;
  _ ← validated (CommandMetadata_validate (uar_metadata request));
  if bool_decide (uar_changes request = UpdateAgentInput_default)
  then reject "changes" "must include at least one field"
  else
  _ ← validated (UpdateAgentInput_validate (uar_changes request));
  application (svc_update_agent actor request).

Definition h_change_agent_state (actor : AuthenticatedPrincipal)
    (request : ChangeAgentStateRequest) : Api OperationResource :=
  _ ← authorized actor ChangeAgentState;
  _ ← validated (CommandMetadata_validate (csr_metadata request));
  if bool_decide (csr_desired_state request = Deleted)
  then reject "desired_state" "deleted state requires the delete operation"
  else application (svc_change_agent_state actor request).

Definition agent_command (actor : AuthenticatedPrincipal) (request : AgentCommandRequest)
    (capability : Capability) (purge : bool) : Api OperationResource :=
  _ ← authorized actor capability;
  _ ← validated (CommandMetadata_validate (acr_metadata request));
  application (if purge then svc_purge_agent actor request else svc_delete_agent actor request).

Definition h_delete_agent (actor : AuthenticatedPrincipal) (request : AgentCommandRequest) :=
  agent_command actor request CapDeleteAgent false.
Definition h_purge_agent (actor : AuthenticatedPrincipal) (request : AgentCommandRequest) :=
  agent_command actor request CapPurgeAgent true.

Definition h_get_agent (actor : AuthenticatedPrincipal) (id : AgentId) : Api AgentResource :=
  _ ← authorized actor ReadAgent; application (svc_get_agent id).

Definition h_list_agents (actor : AuthenticatedPrincipal) (request : ListAgentsRequest)
    : Api (list AgentResource) :=
  _ ← authorized actor ReadAgent; application (svc_list_agents request).

Definition h_agent_logs (actor : AuthenticatedPrincipal) (request : AgentLogsRequest)
    : Api AgentLogsResource :=
  _ ← authorized actor ReadAgent;
  if (alr_limit request =? 0) || (alr_limit request >? 1000)
  then reject "limit" "must be between 1 and 1000"
  else application (svc_agent_logs request).

Definition h_get_operation (actor : AuthenticatedPrincipal) (id : OperationId)
    : Api OperationResource :=
  _ ← authorized actor ReadAgent; application (svc_get_operation id).

Definition h_await_operation (actor : AuthenticatedPrincipal) (id : OperationId)
    : Api OperationResource :=
  _ ← authorized actor ReadAgent; application (svc_wait_operation id 120).

Definition h_submit_draft (actor : AuthenticatedPrincipal) (request : SubmitDraftRequest)
    : Api DraftResource :=
  _ ← authorized actor SubmitDraft;
  _ ← validated (CommandMetadata_validate (sdr_metadata request));
  _ ← validated (CreateAgentInput_validate (sdr_agent request));
  application (svc_submit_draft actor request).

Definition h_get_draft (actor : AuthenticatedPrincipal) (id : string) : Api DraftResource :=
  draft ← application (svc_get_draft id);
  _ ← of_result (map_err api_authorization (authorize actor ReadDraft (Some (dr_owner draft))));
  mret draft.

Definition h_promote_draft (actor : AuthenticatedPrincipal) (request : PromoteDraftRequest)
    : Api OperationResource :=
  _ ← authorized actor PromoteDraft;
  _ ← validated (CommandMetadata_validate (pdr_metadata request));
  _ ← validated (validate_token "draft_id" (pdr_draft_id request) 200);
  application (svc_promote_draft actor request).

(** ** The router *)
Definition M_map {A B} (f : A → B) (m : Api A) : Api B := a ← m; mret (f a).

(** [match request { .. }] of [LifecycleJsonRouter::handle]; [fresh] is the identifier the
    candidate community of a join request draws. *)
Definition route (fresh : CommunityConfigId) (actor : AuthenticatedPrincipal)
    (request : LifecycleRouteRequest) : Api LifecycleRouteResource :=
  match request with
  | RouteJoinCommunity r => M_map ResCommunity (h_join_community fresh actor r)
  | RouteUpdateCommunity r => M_map ResCommunity (h_update_community actor r)
  | RouteGetCommunity id => M_map ResCommunity (h_get_community actor id)
  | RouteListCommunities => M_map ResCommunities (h_list_communities actor)
  | RouteRemoveCommunity id => M_map ResCommunity (h_remove_community actor id)
  | RouteCreatePersona r => M_map ResPersona (h_create_persona actor r)
  | RouteUpdatePersona r => M_map ResPersona (h_update_persona actor r)
  | RouteGetPersona id => M_map ResPersona (h_get_persona actor id)
  | RouteListPersonas => M_map ResPersonas (h_list_personas actor)
  | RouteDeletePersona id => M_map ResPersona (h_delete_persona actor id)
  | RouteCreateAgent r => M_map ResOperation (h_create_agent actor r)
  | RouteUpdateAgent r => M_map ResOperation (h_update_agent actor r)
  | RouteChangeAgentState r => M_map ResOperation (h_change_agent_state actor r)
  | RouteDeleteAgent r => M_map ResOperation (h_delete_agent actor r)
  | RoutePurgeAgent r => M_map ResOperation (h_purge_agent actor r)
  | RouteGetAgent id => M_map ResAgent (h_get_agent actor id)
  | RouteListAgents r => M_map ResAgents (h_list_agents actor r)
  | RouteAgentLogs r => M_map ResLogs (h_agent_logs actor r)
  | RouteGetOperation id => M_map ResOperation (h_get_operation actor id)
  | RouteAwaitOperation id => M_map ResOperation (h_await_operation actor id)
  | RouteSubmitDraft r => M_map ResDraft (h_submit_draft actor r)
  | RouteGetDraft id => M_map ResDraft (h_get_draft actor id)
  | RoutePromoteDraft r => M_map ResOperation (h_promote_draft actor r)
  end.

Definition api_status (code : ErrorCode) : Z :=
  match code with
  | InvalidRequest => 400 | Unauthorized => 401 | EC_Forbidden => 403 | EC_NotFound => 404
  | EC_Conflict => 409 | EC_Unsupported => 501 | EC_Unavailable => 503 | EC_Internal => 500
  end.

Inductive LifecycleWireResponse :=
| WireOk (resource : LifecycleRouteResource)
| WireError (error : ApiError).

(** [serde_json::from_slice] of a route request. *)
Variable decode : string → option LifecycleRouteRequest.

Definition handle (fresh : CommunityConfigId) (actor : AuthenticatedPrincipal) (bytes : string)
    (w : W) : Z * LifecycleWireResponse * W :=
  let '(result, w) :=
    match decode bytes with
    | Some request => route fresh actor request w
    | None => (Err (mkApiError InvalidRequest "request body is not a valid lifecycle route" None), w)
    end in
  match result with
  | Ok resource => (200, WireOk resource, w)
  | Err error => (api_status (ae_code error), WireError error, w)
  end.

End Handler.
