(* ===== verification/ApiProps.v ===== *)
(** * What the lifecycle API enforces
    Requests are authorized and validated before the service sees them; a draft submitter
    is confined to its drafts, also end to end on the SQLite service. *)
From stdpp Require Import base gmap strings list.
From Stdlib Require Import ZArith Lia String.
From S2P Require Import Prelude RustStr Ids Lifecycle Agent Runtime Launch Auth ApiTypes Schema.
From S2P Require Import Storage StoreInv StoreProps Monad Application AppProps AppCommands Api.

(** The capability each route needs; reading a draft is decided by its owner instead. *)
Definition required_capability (r : LifecycleRouteRequest) : option Capability :=
  match r with
  | RouteJoinCommunity _ | RouteUpdateCommunity _ | RouteRemoveCommunity _ => Some ManageCommunity
  | RouteGetCommunity _ | RouteListCommunities => Some ReadCommunity
  | RouteCreatePersona _ | RouteCreateAgent _ => Some CapCreateAgent
  | RouteUpdatePersona _ | RouteUpdateAgent _ => Some CapUpdateAgent
  | RouteDeletePersona _ | RouteDeleteAgent _ => Some CapDeleteAgent
  | RoutePurgeAgent _ => Some CapPurgeAgent
  | RouteChangeAgentState _ => Some ChangeAgentState
  | RouteGetPersona _ | RouteListPersonas | RouteGetAgent _ | RouteListAgents _
  | RouteAgentLogs _ | RouteGetOperation _ | RouteAwaitOperation _ => Some ReadAgent
  | RouteSubmitDraft _ => Some SubmitDraft
  | RoutePromoteDraft _ => Some PromoteDraft
  | RouteGetDraft _ => None
  end.

(** When a request is well formed. *)
Definition request_valid (fresh : CommunityConfigId) (r : LifecycleRouteRequest) : Prop :=
  match r with
  | RouteJoinCommunity r =>
    ∃ c c', CommunityConfig_new fresh (jc_display_name r) (jc_relay_url r) = Ok c
      ∧ with_identity_pubkey c (jc_identity_pubkey r) = Ok c' ∧ CommunityConfig_validate c' = Ok tt
  | RouteUpdateCommunity r => validate_token "display_name" (uc_display_name r) 120 = Ok tt
  | RouteCreatePersona r => validate_token "display_name" (cp_display_name r) 120 = Ok tt
  | RouteUpdatePersona r => validate_token "persona_id" (up_persona_id r) 120 = Ok tt
      ∧ up_changes r ≠ UpdatePersonaInput_default
  | RouteCreateAgent r => CommandMetadata_validate (car_metadata r) = Ok tt
      ∧ CreateAgentInput_validate (car_agent r) = Ok tt
  | RouteUpdateAgent r => CommandMetadata_validate (uar_metadata r) = Ok tt
      ∧ uar_changes r ≠ UpdateAgentInput_default ∧ UpdateAgentInput_validate (uar_changes r) = Ok tt
  | RouteChangeAgentState r => CommandMetadata_validate (csr_metadata r) = Ok tt
      ∧ csr_desired_state r ≠ Deleted
  | RouteDeleteAgent r | RoutePurgeAgent r => CommandMetadata_validate (acr_metadata r) = Ok tt
  | RouteAgentLogs r => alr_limit r ≠ 0 ∧ alr_limit r ≤ 1000
  | RouteSubmitDraft r => CommandMetadata_validate (sdr_metadata r) = Ok tt
      ∧ CreateAgentInput_validate (sdr_agent r) = Ok tt
  | RoutePromoteDraft r => CommandMetadata_validate (pdr_metadata r) = Ok tt
      ∧ validate_token "draft_id" (pdr_draft_id r) 200 = Ok tt
  | _ => True
  end.

Section ApiProps.
Context {W : Type} `{LifecycleApplication W}.

(** A refusal: the error is the caller's fault and the world is unchanged. *)
Definition refused {A} (r : result ApiError A * W) (w : W) : Prop :=
  ∃ e, r = (Err e, w) ∧ (ae_code e = EC_Forbidden ∨ ae_code e = InvalidRequest).

Lemma refused_map {A B} (f : A → B) (m : Api A) w : refused (m w) w → refused (M_map f m w) w.
Proof.
  intros (e & Hm & Hc). exists e. unfold M_map, mbind, M_bind. by rewrite Hm.
Qed.

Lemma refused_authorized {A} actor c (k : unit → Api A) w :
  authorize actor c None ≠ Ok tt ∨ refused (k tt w) w → refused ((authorized actor c ≫= k) w) w.
Proof.
  unfold authorized, mbind, M_bind, of_result.
  destruct (authorize actor c None) as [[]|e] eqn:E; cbn; [by intros [?|?]|].
  intros _. eexists. split; [done|]. by left.
Qed.

Lemma refused_reject {A} field reason w : refused (reject (A := A) field reason w) w.
Proof. eexists. split; [done|]. by right. Qed.

(** Past authorization, then past each validation, or refused there. *)
Lemma auth_step {A B} (f : A → B) actor c (k : unit → Api A) w (P : Prop) :
  authorize actor c None = Ok tt → refused (k tt w) w ∨ P →
  refused (M_map f (authorized actor c ≫= k) w) w ∨ P.
Proof. intros Ha [Hk|?]; [left|by right]. apply refused_map, refused_authorized. by right. Qed.

Lemma check_value_step {A B} (v : result ValidationError B) (k : B → Api A) w (P : Prop) :
  (∀ b, v = Ok b → refused (k b w) w ∨ P) →
  refused ((of_result (map_err api_validation v) ≫= k) w) w ∨ P.
Proof.
  destruct v as [b|e] eqn:E; intros Hk; [by apply Hk|].
  left. eexists. split; [done|]. by right.
Qed.

Lemma check_step {A} v (k : unit → Api A) w (P : Prop) :
  (v = Ok tt → refused (k tt w) w ∨ P) → refused ((validated v ≫= k) w) w ∨ P.
Proof. intros Hk. apply check_value_step. intros [] Hv. by apply Hk. Qed.

Lemma route_checked (fresh : CommunityConfigId) (actor : AuthenticatedPrincipal)
    (r : LifecycleRouteRequest) (c : Capability) (w : W) :
  required_capability r = Some c →
  refused (route fresh actor r w) w
  ∨ (authorize actor c None = Ok tt ∧ request_valid fresh r).
Proof.
  intros Hc. destruct (authorize actor c None) as [[]|e] eqn:Ea.
  2:{ left. destruct r; cbn in Hc; try discriminate Hc; injection Hc as <-; cbn [route];
      apply refused_map, refused_authorized; left; by rewrite Ea. }
  assert (refused (route fresh actor r w) w ∨ request_valid fresh r) as [?|?]; [|by left|by right].
  destruct r; cbn in Hc; try discriminate Hc; injection Hc as <-; cbn [route request_valid];
    try (by right); apply auth_step; try exact Ea;
    repeat (apply check_step; intros ?); try (by right); try tauto.
  - apply check_value_step. intros c2 Hc2. apply check_step. intros Hv. right.
    destruct (CommunityConfig_new _ _ _) as [c1|e] eqn:E1; [|done]. by exists c1, c2.
  - case_bool_decide; [left; apply refused_reject|by right].
  - case_bool_decide; [left; apply refused_reject|]. apply check_step. intros ?. by right.
  - case_bool_decide; [left; apply refused_reject|by right].
  - destruct (_ || _) eqn:El; [left; apply refused_reject|right]. lia.
Qed.
(** A draft is looked up before its owner is known. *)
Lemma route_get_draft fresh actor id (w : W) :
  match svc_get_draft id w with
  | (Ok d, w1) =>
    authorize actor ReadDraft (Some (dr_owner d)) = Ok tt
      ∧ route fresh actor (RouteGetDraft id) w = (Ok (ResDraft d), w1)
    ∨ authorize actor ReadDraft (Some (dr_owner d)) ≠ Ok tt
      ∧ ∃ e, route fresh actor (RouteGetDraft id) w = (Err e, w1) ∧ ae_code e = EC_Forbidden
  | (Err e, w1) => route fresh actor (RouteGetDraft id) w = (Err (api_application e), w1)
  end.
Proof.
  cbn [route]. unfold M_map, h_get_draft, mbind, M_bind, application, M_map_err.
  destruct (svc_get_draft id w) as [[d|e] w1]; cbn; [|done].
  destruct (authorize actor ReadDraft (Some (dr_owner d))) as [[]|e]; cbn; [by left|].
  right. split; [done|]. by eexists.
Qed.

(** C27: authorization and validation come first. On every route but that of reading a draft,
    either the caller is refused (403 or 400) with the service untouched, or the caller
    holds the capability of the route and the request is well formed. Who may read a draft
    depends on its owner, so that the service looks the draft up first; it is then shown
    exactly to callers that may read drafts of that owner, all others are refused (403). *)
Theorem requests_are_checked_before_the_service (fresh : CommunityConfigId)
    (actor : AuthenticatedPrincipal) (r : LifecycleRouteRequest) (w : W) :
  match required_capability r with
  | Some c =>
    refused (route fresh actor r w) w
    ∨ (authorize actor c None = Ok tt ∧ request_valid fresh r)
  | None => ∃ id, r = RouteGetDraft id
    ∧ match svc_get_draft id w with
      | (Ok d, w1) =>
        authorize actor ReadDraft (Some (dr_owner d)) = Ok tt ∧ route fresh actor r w = (Ok (ResDraft d), w1)
        ∨ authorize actor ReadDraft (Some (dr_owner d)) ≠ Ok tt
          ∧ ∃ e, route fresh actor r w = (Err e, w1) ∧ ae_code e = EC_Forbidden
      | (Err e, w1) => route fresh actor r w = (Err (api_application e), w1)
      end
  end.
Proof.
  destruct (required_capability r) as [c|] eqn:Hc; [by apply route_checked|].
  destruct r; try discriminate Hc. eexists. split; [done|]. apply route_get_draft.
Qed.

End ApiProps.

(** ** The SQLite service behind the API *)
Section SqliteService.
Context `{UuidLib} {F : Type} `{LifecycleEffects F}.
Variable time : nat → Z.
Variable uuid_at : nat → Z.
Variable serde_json_to_vec : HashedRequest → option string.
Variable sha256_hex : string → string.
Variable retention_seconds : Z.
(** [wait_for_operation_terminal], which depends on what other threads do meanwhile. *)
Variable wait : OperationId → Z → App F OperationResource.

Definition sqlite_application : LifecycleApplication (World F) := {|
  svc_join_community := join_community time uuid_at;
  svc_update_community := update_community time;
  svc_get_community := app_get_community;
  svc_list_communities := app_list_communities;
  svc_remove_community := remove_community time uuid_at;
  svc_create_persona := fx_create_persona;
  svc_update_persona := fx_update_persona;
  svc_get_persona := fx_get_persona;
  svc_list_personas := fx_list_personas;
  svc_delete_persona := fx_delete_persona;
  svc_create_agent := create_agent time uuid_at serde_json_to_vec sha256_hex;
  svc_update_agent := update_agent time uuid_at serde_json_to_vec sha256_hex;
  svc_change_agent_state := change_agent_state time uuid_at serde_json_to_vec sha256_hex;
  svc_delete_agent := delete_agent time uuid_at serde_json_to_vec sha256_hex retention_seconds;
  svc_purge_agent := purge_agent time uuid_at serde_json_to_vec sha256_hex retention_seconds;
  svc_get_agent := app_get_agent;
  svc_list_agents := app_list_agents;
  svc_agent_logs := app_agent_logs;
  svc_get_operation := app_get_operation;
  svc_wait_operation := wait;
  svc_submit_draft := submit_draft time uuid_at serde_json_to_vec sha256_hex;
  svc_get_draft := app_get_draft;
  svc_promote_draft := promote_draft time uuid_at serde_json_to_vec sha256_hex
|}.

(** What a draft submission leaves alone. *)
Definition drafts_only (w w' : World F) : Prop :=
  t_agents (w_db w') = t_agents (w_db w) ∧ t_communities (w_db w') = t_communities (w_db w)
  ∧ t_operations (w_db w') = t_operations (w_db w)
  ∧ t_idempotency (w_db w') = t_idempotency (w_db w)
  ∧ t_retention (w_db w') = t_retention (w_db w) ∧ t_outbox (w_db w') = t_outbox (w_db w)
  ∧ t_drafts (w_db w) ⊆ t_drafts (w_db w') ∧ w_fx w' = w_fx w.

#[local] Instance drafts_only_preorder : PreOrder drafts_only.
Proof.
  split; [by intros w; split_and!|]. intros w1 w2 w3 (A1&A2&A3&A4&A5&A6&A7&A8) (B1&B2&B3&B4&B5&B6&B7&B8).
  unfold drafts_only. split_and!; [congruence..|by etrans|congruence].
Qed.

Lemma submit_draft_drafts_only actor r :
  always drafts_only (submit_draft time uuid_at serde_json_to_vec sha256_hex actor r).
Proof.
  unfold submit_draft, request_hash. always_steps; try (intros w; by split_and!).
  intros w. unfold store. destruct (apply_draft_command _ _ _ _ _ _ _) as [[x db]|e] eqn:E;
    [|reflexivity]. cbn. unfold apply_draft_command in E. step_in E.
  { do 2 (step_in E). injection E as <- <-. by split_and!. }
  do 3 (step_in E). injection E as <- <-. apply map_err_ok in E1, E2.
  unfold sql_insert_draft in E1. step_in E1. injection E1 as <-.
  unfold sql_insert_draft_idempotency in E2. do 2 (step_in E2). injection E2 as <-.
  apply insert_audit_tables in E3 as ->. unfold drafts_only. cbn. split_and!; try done.
  apply insert_subseteq. by destruct (t_drafts (w_db w) !! _).
Qed.

Section Confined.
Context {W : Type} `{LifecycleApplication W}.

Lemma route_forbidden fresh actor r c (w : W) :
  required_capability r = Some c → c ≠ SubmitDraft → c ≠ ReadDraft →
  ap_authority actor ≠ Administrator →
  route fresh actor r w = (Err (mkApiError EC_Forbidden "operation is not permitted" None), w).
Proof.
  intros Hc Hs Hr Hadm.
  assert (authorize actor c None = Err AuthForbidden) as Ha.
  { unfold authorize. rewrite bool_decide_eq_false_2 by done. by destruct c. }
  destruct r; cbn in Hc; try discriminate Hc; injection Hc as <-; cbn [route];
    unfold M_map, mbind, M_bind; cbn; try done;
    unfold h_join_community, h_update_community, h_get_community, h_list_communities,
      h_remove_community, h_create_persona, h_update_persona, h_get_persona, h_list_personas,
      h_delete_persona, h_create_agent, h_update_agent, h_change_agent_state, h_delete_agent,
      h_purge_agent, agent_command, h_get_agent, h_list_agents, h_agent_logs, h_get_operation,
      h_await_operation, h_promote_draft, mbind, M_bind, authorized, of_result;
    by rewrite Ha.
Qed.

Lemma submit_draft_route_world fresh actor r (w : W) :
  (route fresh actor (RouteSubmitDraft r) w).2 = w
  ∨ (route fresh actor (RouteSubmitDraft r) w).2 = (svc_submit_draft actor r w).2.
Proof.
  cbn [route]. unfold M_map, h_submit_draft, authorized, validated, mbind, M_bind, of_result,
    application, M_map_err.
  destruct (authorize actor SubmitDraft None) as [[]|]; [|by left]. cbn.
  destruct (CommandMetadata_validate _) as [[]|]; [|by left]. cbn.
  destruct (CreateAgentInput_validate _) as [[]|]; [|by left]. cbn. right.
  by destruct (svc_submit_draft actor r w) as [[?|?] ?].
Qed.

End Confined.

(** C11: a draft submitter is confined to drafts. Whatever bytes a caller without
    administrator authority sends, the service answers and no agent, community, operation,
    retention row or pending publication changes, no existing draft is altered, and no
    effect runs; everything but submitting and reading drafts is answered 403 (or 400 for
    bytes that are no request), and a draft is shown only to its owner. *)
Theorem draft_submitter_is_confined (decode : string → option LifecycleRouteRequest)
    (fresh : CommunityConfigId) (actor : AuthenticatedPrincipal) (bytes : string) (w : World F) :
  ap_authority actor ≠ Administrator →
  let '(status, response, w') := handle (H := sqlite_application) decode fresh actor bytes w in
  drafts_only w w'
  ∧ match decode bytes with
    | Some (RouteSubmitDraft _) => True
    | Some (RouteGetDraft _) =>
      ∀ d, response = WireOk (ResDraft d) → dr_owner d = ownership_key (ap_principal actor)
    | Some _ => status = 403 ∧ w' = w
    | None => status = 400 ∧ w' = w
    end.
Proof.
  intros Hadm. unfold handle. destruct (decode bytes) as [r|]; [|by split_and!].
  destruct r; try (erewrite route_forbidden; [|done|done|done|done]; cbn; by split_and!).
  - destruct (submit_draft_route_world (H1 := sqlite_application) fresh actor request w) as [Hw|Hw];
      destruct (route _ _ _ _) as [[?|?] w']; cbn in Hw; subst w'; split; try done;
      apply submit_draft_drafts_only.
  - cbn [route]. unfold M_map, h_get_draft, mbind, M_bind, application, M_map_err.
    cbn [svc_get_draft sqlite_application]. unfold app_get_draft, mbind, M_bind. cbn.
    destruct (get_draft draft_id (w_db w)) as [d|]; cbn; [|by split_and!].
    unfold authorize. rewrite bool_decide_eq_false_2 by done. cbn.
    case_bool_decide as Hown; cbn; [|by split_and!]. split; [reflexivity|].
    intros d' [= <-]. congruence.
Qed.

End SqliteService.

Lemma draft_submitter_is_confined_witness :
  let actor := mkAuthenticatedPrincipal (UnixPeer 1000 1000 None) DraftSubmitter in
  let r := handle (H := sqlite_application sample_time sample_uuid sample_json id 100
                          (λ _ _, throw AppInternal))
             (λ _, Some (RoutePurgeAgent (sample_command "k"))) (mkCommunityConfigId 9) actor
             "{}" sample_world in
  r.1.1 = 403 ∧ r.2 = sample_world.
Proof.
  intros actor r.
  assert (ap_authority actor ≠ Administrator) as Ha by (intros E; discriminate E).
  pose proof (draft_submitter_is_confined sample_time sample_uuid sample_json id 100
    (λ _ _, throw AppInternal) (λ _, Some (RoutePurgeAgent (sample_command "k")))
    (mkCommunityConfigId 9) actor "{}" sample_world Ha) as Hc.
  fold r in Hc. destruct r as [[st resp] w']. exact (proj2 Hc).
Defined.

Lemma requests_are_checked_before_the_service_witness :
  let request := RouteChangeAgentState (mkChangeAgentStateRequest (sample_metadata "k")
                   (mkAgentId 7) Disabled) in
  required_capability request = Some ChangeAgentState
  ∧ request_valid (mkCommunityConfigId 9) request.
Proof.
  intros request. split; [reflexivity|].
  destruct (requests_are_checked_before_the_service
    (H := sqlite_application sample_time sample_uuid sample_json id 100 (λ _ _, throw AppInternal))
    (mkCommunityConfigId 9) sample_admin request sample_world) as [(e & He & _)|[_ Hv]]; [|exact Hv].
  vm_compute in He. discriminate He.
Defined.
