(* ===== verification/Bytes.v ===== *)
(** * Byte sequences and readers
    Big-endian integers ([to_be_bytes], [from_be_bytes]) and fixed-size blocks
    ([chunks_exact]), input/output errors, and readers that return a file or a socket in
    pieces of any size: shared by the framed protocols and the hash. A byte is an integer
    from 0 to 255. *)
From Stdlib Require Import ZArith Lia String Ascii.
From stdpp Require Import base list strings.
From S2P Require Import Prelude.

(** ** Input/output errors: [io::Error] with the kinds the sources distinguish *)
Inductive ErrorKind : Type :=
| NotFound | AlreadyExists | PermissionDenied | InvalidInput | InvalidData | UnexpectedEof
| Unsupported | ExecutableFileBusy | TimedOut | OtherKind.
#[export] Instance ErrorKind_eq_dec : EqDecision ErrorKind.
Proof. solve_decision. Defined.

Record IoError : Type := mkIoError { io_kind : ErrorKind; io_message : string }.

Definition kind_is (k : ErrorKind) (e : IoError) : bool := bool_decide (io_kind e = k).

(** A reader: what its calls to [read] return, one after the other; a call past the last
    one finds the end of the stream, as does one that returns no bytes. *)
Definition Reader : Type := list (result IoError (list Z)).
Definition good_reads (pieces : list (list Z)) : Reader := map Ok pieces.

(** What follows the last piece: nothing, or a read of no bytes. *)
Definition at_end (rest : Reader) : Prop := rest = [] ∨ ∃ more, rest = Ok [] :: more.

(** [stream.read(&mut buffer)] with room for [n] bytes: what has arrived, up to [n]. *)
Definition read_up_to (n : nat) (s : Reader) : result IoError (list Z) * Reader :=
  match s with
  | [] | Ok [] :: _ => (Ok [], s)
  | Err e :: s => (Err e, s)
  | Ok piece :: s =>
    if (length piece <=? n)%nat then (Ok piece, s)
    else (Ok (take n piece), Ok (drop n piece) :: s)
  end.

(** Reading until [want] bytes have arrived or the stream ends. A read that returns bytes
    returns at least one, so [want] turns are enough. *)
Fixpoint fill (turns want : nat) (acc : list Z) (s : Reader) : result IoError (list Z * Reader) :=
  match want, turns with
  | O, _ | _, O => Ok (acc, s)
  | _, S turns =>
    match read_up_to want s with
    | (Err e, _) => Err e
    | (Ok [], s) => Ok (acc, s)
    | (Ok bytes, s) => fill turns (want - length bytes) (acc ++ bytes) s
    end
  end.
Definition read_fill (want : nat) (s : Reader) : result IoError (list Z * Reader) :=
  fill want want [] s.

(** A stream that delivers [m] in some pieces before its end. *)
Inductive delivers : Reader → list Z → Prop :=
| delivers_end s : at_end s → delivers s []
| delivers_piece p s m : p ≠ [] → delivers s m → delivers (Ok p :: s) (p ++ m).

Definition is_byte (b : Z) : Prop := 0 ≤ b < 256.
Definition bytes_ok (bs : list Z) : Prop := Forall is_byte bs.

(** [value.to_be_bytes()] of an [8 * n]-bit integer, and its inverse. *)
Fixpoint to_be_bytes (n : nat) (v : Z) : list Z :=
  match n with
  | O => []
  | S n => Z.land (Z.shiftr v (8 * Z.of_nat n)) 255 :: to_be_bytes n v
  end.
Definition from_be_bytes (bs : list Z) : Z := fold_left (λ acc b, 256 * acc + b) bs 0.

(** [slice.chunks_exact(n)] for [k] blocks. *)
Fixpoint blocks (n k : nat) (l : list Z) : list (list Z) :=
  match k with
  | O => []
  | S k => take n l :: blocks n k (drop n l)
  end.
Definition chunks_exact (n : nat) (l : list Z) : list (list Z) := blocks n (length l / n) l.

(** ** Lemmas *)
Lemma length_to_be_bytes n v : length (to_be_bytes n v) = n.
Proof. induction n as [|n IH]; cbn; [done|]. by rewrite IH. Qed.

Lemma land_255 v : Z.land v 255 = v mod 256.
Proof. change 255 with (Z.ones 8). by rewrite Z.land_ones. Qed.

Lemma to_be_bytes_ok n v : bytes_ok (to_be_bytes n v).
Proof.
  induction n as [|n IH]; cbn [to_be_bytes]; constructor; [|done].
  unfold is_byte. rewrite land_255. apply Z.mod_pos_bound. lia.
Qed.

Lemma from_be_bytes_acc bs acc :
  fold_left (λ a b, 256 * a + b) bs acc = acc * 256 ^ Z.of_nat (length bs) + from_be_bytes bs.
Proof.
  unfold from_be_bytes. revert acc. induction bs as [|b bs IH]; intros acc; cbn [fold_left length].
  - cbn. lia.
  - rewrite IH, (IH (256 * 0 + b)), Nat2Z.inj_succ, Z.pow_succ_r by lia. ring.
Qed.

Lemma from_be_bytes_cons b bs :
  from_be_bytes (b :: bs) = b * 256 ^ Z.of_nat (length bs) + from_be_bytes bs.
Proof. unfold from_be_bytes at 1. cbn [fold_left]. rewrite from_be_bytes_acc. done. Qed.

Lemma from_be_bytes_bound bs :
  bytes_ok bs → 0 ≤ from_be_bytes bs < 256 ^ Z.of_nat (length bs).
Proof.
  induction 1 as [|b bs Hb Hbs IH]; [cbn; lia|].
  rewrite from_be_bytes_cons. cbn [length]. rewrite Nat2Z.inj_succ, Z.pow_succ_r by lia.
  unfold is_byte in Hb. nia.
Qed.

Lemma pow_256 n : 256 ^ Z.of_nat n = 2 ^ (8 * Z.of_nat n).
Proof. change 256 with (2 ^ 8). by rewrite <- Z.pow_mul_r by lia. Qed.

(** Encoding and decoding. *)
Lemma from_to_be_bytes n v : from_be_bytes (to_be_bytes n v) = v mod 2 ^ (8 * Z.of_nat n).
Proof.
  induction n as [|n IH]; cbn [to_be_bytes]; [by rewrite Z.mod_1_r|].
  rewrite from_be_bytes_cons, length_to_be_bytes, IH, land_255, Z.shiftr_div_pow2 by lia.
  rewrite pow_256. replace (8 * Z.of_nat (S n)) with (8 * Z.of_nat n + 8) by lia.
  rewrite Z.pow_add_r by lia. change (2 ^ 8) with 256.
  rewrite Z.rem_mul_r by lia. ring.
Qed.

Lemma from_to_be_bytes_small n v :
  0 ≤ v < 2 ^ (8 * Z.of_nat n) → from_be_bytes (to_be_bytes n v) = v.
Proof. intros Hv. rewrite from_to_be_bytes. by apply Z.mod_small. Qed.

Lemma from_be_bytes_inj a b :
  bytes_ok a → bytes_ok b → length a = length b → from_be_bytes a = from_be_bytes b → a = b.
Proof.
  intros Ha. revert b. induction Ha as [|x a Hx Ha IH]; intros [|y b] Hb Hlen Heq; try done.
  apply Forall_cons in Hb as [Hy Hb]. injection Hlen as Hlen.
  rewrite !from_be_bytes_cons, Hlen in Heq.
  pose proof (from_be_bytes_bound a Ha) as Ba. pose proof (from_be_bytes_bound b Hb) as Bb.
  rewrite Hlen in Ba. set (p := 256 ^ Z.of_nat (length b)) in *.
  assert (x = y) as -> by nia. f_equal. apply IH; [done..|lia].
Qed.

Lemma length_blocks n k l : length (blocks n k l) = k.
Proof. revert l. induction k as [|k IH]; intros l; cbn; [done|]. by rewrite IH. Qed.

Lemma blocks_add n j k l : blocks n (j + k) l = blocks n j l ++ blocks n k (drop (n * j) l).
Proof.
  revert l. induction j as [|j IH]; intros l; cbn [blocks Nat.add app].
  - by rewrite Nat.mul_0_r.
  - rewrite IH, drop_drop. by replace (n * S j)%nat with (n + n * j)%nat by lia.
Qed.

(** Blocks inside a prefix do not see what follows. *)
Lemma blocks_app n k l m : (n * k ≤ length l)%nat → blocks n k (l ++ m) = blocks n k l.
Proof.
  revert l. induction k as [|k IH]; intros l Hlen; cbn [blocks]; [done|].
  rewrite take_app_le, drop_app_le by lia. rewrite IH; [done|]. rewrite length_drop. lia.
Qed.

(** ** Reading a stream does not depend on how it is cut *)
Lemma read_up_to_delivers s m n :
  (0 < n)%nat → delivers s m →
  ∃ k s', read_up_to n s = (Ok (take k m), s') ∧ (k ≤ n)%nat ∧ (k ≤ length m)%nat
    ∧ delivers s' (drop k m) ∧ (k = 0%nat → m = []).
Proof.
  intros Hn Hd. destruct Hd as [s Hend|p s m Hp Hd].
  - exists O, s. split_and!; [|lia|cbn; lia|by constructor|done].
    by destruct Hend as [->|[more ->]].
  - destruct p as [|b p]; [done|]. cbn [read_up_to].
    destruct (Nat.leb_spec (length (b :: p)) n) as [Hle|Hgt].
    + exists (length (b :: p)), s. rewrite take_app_length, drop_app_length, length_app.
      split_and!; [done|done|lia|done|done].
    + exists n, (Ok (drop n (b :: p)) :: s). rewrite take_app_le, drop_app_le, length_app by lia.
      split_and!; [done|lia|lia| |lia]. constructor; [|done].
      intros Hnil. apply (f_equal length) in Hnil. rewrite length_drop in Hnil. cbn in *. lia.
Qed.

Lemma fill_delivers turns want acc s m :
  (want ≤ turns)%nat → delivers s m →
  ∃ s', fill turns want acc s = Ok (acc ++ take want m, s') ∧ delivers s' (drop want m).
Proof.
  revert want acc s m. induction turns as [|turns IH]; intros want acc s m Hw Hd.
  { assert (want = 0%nat) as -> by lia. exists s. cbn. by rewrite app_nil_r. }
  destruct want as [|want]; [exists s; cbn; by rewrite app_nil_r|].
  destruct (read_up_to_delivers s m (S want)) as (k & s' & Hr & Hk & Hkm & Hd' & H0); [lia|done|].
  cbn [fill]. rewrite Hr. destruct k as [|k].
  - rewrite H0 by done. exists s'. cbn. rewrite app_nil_r. split; [done|]. by rewrite H0 in Hd' by done.
  - destruct m as [|b m]; [cbn in Hkm; lia|]. cbn [take].
    destruct (IH (S want - length (b :: take k m))%nat (acc ++ b :: take k m) s' (drop (S k) (b :: m)))
      as (s2 & Hf & Hd2); [cbn; lia|done|].
    cbn [length] in *. rewrite length_take in *.
    replace (k `min` length m)%nat with k in * by lia.
    exists s2. rewrite Hf. split.
    + rewrite <- app_assoc. do 3 f_equal. change (b :: take k m) with (take (S k) (b :: m)).
      rewrite take_take_drop. by replace (S k + (S want - S k))%nat with (S want) by lia.
    + rewrite drop_drop in Hd2. by replace (S k + (S want - S k))%nat with (S want) in Hd2 by lia.
Qed.

Lemma read_fill_delivers want s m :
  delivers s m →
  ∃ s', read_fill want s = Ok (take want m, s') ∧ delivers s' (drop want m).
Proof. intros Hd. by apply (fill_delivers want want []). Qed.
