(* ===== verification/Reconcile.v ===== *)
(** * Reconciliation (src/src/reconcile.rs)
    Idempotent reconciliation of durable agent intent with local processes. The agent
    repository, the receipt repository and the process supervisor are interfaces; what
    the reconciler relies on is stated as laws over which receipts are stored and which
    processes are alive. *)
From stdpp Require Import base gmap strings list.
From Stdlib Require Import ZArith Lia String.
From S2P Require Import Prelude RustStr Bytes Ids Lifecycle Agent Runtime Launch Auth ApiTypes Schema.
From S2P Require Import Storage Monad.

(** [SupervisorError] *)
Inductive SupervisorError :=
| InvalidSpec (e : ValidationError)
| SecretResolution
| Preflight (message : string)
| ReceiptMismatch
| SupervisorIo (e : IoError)
| SupervisorLockPoisoned
| SupervisorClock.

Class AgentRepository (W : Type) := {
  repo_get_agent : AgentId → M W StorageError (option AgentSpec)
}.

Class ProcessReceiptRepository (W : Type) := {
  get_receipt : AgentId → M W StorageError (option ProcessReceipt);
  put_receipt : ProcessReceipt → M W StorageError unit;
  delete_receipt : AgentId → M W StorageError unit
}.

(** The secrets a start needs are resolved behind the interface. *)
Class ProcessSupervisor (W : Type) := {
  sup_start : LaunchSpec → M W SupervisorError ProcessReceipt;
  sup_inspect : ProcessReceipt → M W SupervisorError ProcessReceipt;
  sup_stop : ProcessReceipt → M W SupervisorError ProcessReceipt
}.

Inductive ReconcileOutcome :=
| Deferred | Unchanged | Adopted | Started | Stopped | FailedPreflight | NoPresence.

Inductive ReconcileError :=
| RecStorage (e : StorageError)
| RecSupervisor (e : SupervisorError)
| OperationAgentMismatch
| MissingLaunch
| LaunchAgentMismatch.

Section Reconciler.
Context {W : Type} `{AgentRepository W} `{ProcessReceiptRepository W} `{ProcessSupervisor W}.

Definition Rec (A : Type) : Type := M W ReconcileError A.
Definition storage {A} (m : M W StorageError A) : Rec A := M_map_err RecStorage m.
Definition supervisor {A} (m : M W SupervisorError A) : Rec A := M_map_err RecSupervisor m.

(** The [match self.supervisor.start(..)] of [ensure_started]. *)
Definition start_process (desired : LaunchSpec) : Rec ReconcileOutcome := λ w,
  match sup_start desired w with
  | (Ok started, w) => (_ ← storage (put_receipt started); mret Started) w
  | (Err (Preflight _), w) => (Ok FailedPreflight, w)
  | (Err (SecretResolution | InvalidSpec _), w) => (Ok NoPresence, w)
  | (Err error, w) => (Err (RecSupervisor error), w)
  end.

Definition ensure_started (desired : LaunchSpec) (receipt : option ProcessReceipt)
    : Rec ReconcileOutcome :=
  match receipt with
  | Some durable =>
    observed ← supervisor (sup_inspect durable);
    _ ← storage (put_receipt observed);
    if can_adopt desired observed then mret Adopted
    else
    _ ← (if negb (ObservedProcessState_is_terminal (pr_observed_state observed)) then
           stopped ← supervisor (sup_stop observed);
           storage (put_receipt stopped)
         else mret tt);
    start_process desired
  | None => start_process desired
  end.

Definition ensure_stopped (agent_id : AgentId) (receipt : option ProcessReceipt)
    : Rec ReconcileOutcome :=
  match receipt with
  | None => mret Unchanged
  | Some durable =>
    observed ← supervisor (sup_inspect durable);
    if ObservedProcessState_is_terminal (pr_observed_state observed) then
      _ ← storage (delete_receipt agent_id);
      mret Unchanged
    else
    stopped ← supervisor (sup_stop observed);
    _ ← storage (put_receipt stopped);
    _ ← storage (delete_receipt agent_id);
    mret Stopped
  end.

Definition reconcile_desired (agent : AgentSpec) (launch : option LaunchSpec)
    : Rec ReconcileOutcome :=
  _ ← of_result (map_err (λ e, RecStorage (invalid_data e)) (AgentSpec_validate agent));
  receipt ← storage (get_receipt (spec_id agent));
  match spec_desired_state agent with
  | Disabled | Deleted => ensure_stopped (spec_id agent) receipt
  | Enabled =>
    desired ← of_result (ok_or MissingLaunch launch);
    if negb (bool_decide (ls_agent_id desired = spec_id agent)) then throw LaunchAgentMismatch
    else ensure_started desired receipt
  end.

Definition reconcile (agent_id : AgentId) (operation : DurableOperation)
    (launch : option LaunchSpec) : Rec ReconcileOutcome :=
  if negb (bool_decide (op_agent_id operation = Some agent_id)) then throw OperationAgentMismatch
  else if bool_decide (op_status operation = Pending) then mret Deferred
  else if OperationStatus_is_terminal (op_status operation) then mret Unchanged
  else if negb (bool_decide (op_status operation = Running)) then mret Deferred
  else
  agent ← storage (repo_get_agent agent_id);
  agent ← of_result (ok_or (RecStorage StNotFound) agent);
  reconcile_desired agent launch.

End Reconciler.

(** ** What the reconciler relies on *)

(** Which process a receipt denotes. *)
Definition process_of (r : ProcessReceipt) : AgentId * string * Z :=
  (pr_agent_id r, pr_launch_id r, pr_pid r).

(** What the supervisor promises. [live] says which processes run; [supervised] is the
    supervisor's own invariant; a receipt is [trusted] when the supervisor can account for
    the process it denotes. *)
Class SupervisorLaws (W : Type) `{ProcessSupervisor W} := {
  live : W → AgentId * string * Z → Prop;
  supervised : W → Prop;
  trusted : W → ProcessReceipt → Prop;

  (** Inspection keeps the receipt's identity and finds a finished process dead. *)
  inspect_law r w r' w' : supervised w → trusted w r → sup_inspect r w = (Ok r', w') →
    supervised w' ∧ trusted w' r' ∧ process_of r' = process_of r
    ∧ (∀ p, live w' p → live w p) ∧ (∀ o, trusted w o → trusted w' o)
    ∧ (ObservedProcessState_is_terminal (pr_observed_state r') = true → ¬ live w' (process_of r));
  (** Stopping ends the process. *)
  stop_law r w r' w' : supervised w → trusted w r → sup_stop r w = (Ok r', w') →
    supervised w' ∧ trusted w' r' ∧ process_of r' = process_of r
    ∧ (∀ p, live w' p → live w p) ∧ (∀ o, trusted w o → trusted w' o)
    ∧ ¬ live w' (process_of r);
  (** Starting creates at most the process its receipt names; a failed start creates none. *)
  start_law l w r w' : supervised w → sup_start l w = (Ok r, w') →
    supervised w' ∧ trusted w' r ∧ pr_agent_id r = ls_agent_id l
    ∧ pr_desired r = LaunchSpec_identity l
    ∧ (∀ p, live w' p → live w p ∨ p = process_of r)
    ∧ (∀ o, pr_agent_id o ≠ ls_agent_id l → trusted w o → trusted w' o);
  start_err_law l w e w' : supervised w → sup_start l w = (Err e, w') →
    supervised w' ∧ (∀ p, live w' p → live w p) ∧ (∀ o, trusted w o → trusted w' o)
}.

(** What the receipt repository promises: [stored_receipt] is the receipt on record. *)
Class ReceiptLaws (W : Type) `{ProcessReceiptRepository W} := {
  stored_receipt : W → AgentId → option ProcessReceipt;
  stored_agent w a r : stored_receipt w a = Some r → pr_agent_id r = a;
  get_receipt_law a w o w' : get_receipt a w = (Ok o, w') →
    o = stored_receipt w a ∧ stored_receipt w' a = stored_receipt w a;
  put_receipt_law r w w' : put_receipt r w = (Ok tt, w') →
    stored_receipt w' (pr_agent_id r) = Some r;
  delete_receipt_law a w w' : delete_receipt a w = (Ok tt, w') → stored_receipt w' a = None
}.

(** Neither disturbs the other. *)
Definition same_records {W} `{ReceiptLaws W} (w w' : W) : Prop :=
  ∀ a, stored_receipt w' a = stored_receipt w a.
Definition same_processes {W} `{SupervisorLaws W} (w w' : W) : Prop :=
  (supervised w → supervised w') ∧ (∀ p, live w' p ↔ live w p)
  ∧ (∀ o, trusted w o → trusted w' o).
Class ReconcileLaws (W : Type) `{SupervisorLaws W} `{ReceiptLaws W} := {
  inspect_records r : always same_records (sup_inspect r);
  stop_records r : always same_records (sup_stop r);
  start_records l : always same_records (sup_start l);
  get_processes a : always same_processes (get_receipt a);
  put_processes r : always same_processes (put_receipt r);
  delete_processes a : always same_processes (delete_receipt a)
}.

(** A supervisor and a repository with states of their own. *)
Section Product.
Context {S R : Type} `{SupervisorLaws S} `{ReceiptLaws R}.

#[export] Instance product_supervisor : ProcessSupervisor (S * R) := {|
  sup_start l := on (S := S) (sup_start l);
  sup_inspect r := on (S := S) (sup_inspect r);
  sup_stop r := on (S := S) (sup_stop r) |}.
#[export] Instance product_receipts : ProcessReceiptRepository (S * R) := {|
  get_receipt a := on (S := R) (get_receipt a);
  put_receipt r := on (S := R) (put_receipt r);
  delete_receipt a := on (S := R) (delete_receipt a) |}.

Lemma on_fst {E A} (m : M S E A) (w : S * R) r w' :
  on (S := S) m w = (r, w') → m w.1 = (r, w'.1) ∧ w'.2 = w.2.
Proof. unfold on. cbn. destruct (m w.1). intros [= <- <-]. done. Qed.
Lemma on_snd {E A} (m : M R E A) (w : S * R) r w' :
  on (S := R) m w = (r, w') → m w.2 = (r, w'.2) ∧ w'.1 = w.1.
Proof. unfold on. cbn. destruct (m w.2). intros [= <- <-]. done. Qed.

#[export, refine] Instance product_supervisor_laws : SupervisorLaws (S * R) := {|
  live w := live w.1; supervised w := supervised w.1; trusted w := trusted w.1 |}.
Proof.
  - intros r w r' w' Hs Ht [Hr _]%on_fst. by apply (inspect_law r w.1 r').
  - intros r w r' w' Hs Ht [Hr _]%on_fst. by apply (stop_law r w.1 r').
  - intros l w r w' Hs [Hr _]%on_fst. by apply (start_law l w.1 r).
  - intros l w e w' Hs [Hr _]%on_fst. by apply (start_err_law l w.1 e).
Defined.
#[export, refine] Instance product_receipt_laws : ReceiptLaws (S * R) := {|
  stored_receipt w := stored_receipt w.2 |}.
Proof.
  - intros w a r. apply stored_agent.
  - intros a w o w' [Hr _]%on_snd. by apply get_receipt_law.
  - intros r w w' [Hr _]%on_snd. by apply (put_receipt_law r w.2).
  - intros a w w' [Hr _]%on_snd. by apply (delete_receipt_law a w.2).
Defined.

Lemma records_on_fst {E A} (m : M S E A) : always same_records (on (W := S * R) m).
Proof. intros w a. cbn. unfold on. cbn. by destruct (m w.1). Qed.
Lemma processes_on_snd {E A} (m : M R E A) : always same_processes (on (W := S * R) m).
Proof. intros w. unfold same_processes, on. cbn. by destruct (m w.2). Qed.
#[export] Instance product_laws : ReconcileLaws (S * R).
Proof. split; intros; (apply records_on_fst || apply processes_on_snd). Qed.
End Product.

Section Properties.
Context {W : Type} `{AgentRepository W} `{ReconcileLaws W}.

(** Every live process of the agent is the one on record, whose receipt the supervisor
    trusts: so there is at most one. *)
Definition accounted (a : AgentId) (w : W) : Prop :=
  supervised w ∧ (∀ r, stored_receipt w a = Some r → trusted w r)
  ∧ ∀ p, live w p → p.1.1 = a → ∃ r, stored_receipt w a = Some r ∧ process_of r = p.
Definition no_process (a : AgentId) (w : W) : Prop := ∀ p, live w p → p.1.1 ≠ a.
(** Nothing is lost track of for the other agents. *)
Definition others_kept (a : AgentId) (w w' : W) : Prop :=
  ∀ o, pr_agent_id o ≠ a → trusted w o → trusted w' o.

#[local] Instance others_kept_preorder a : PreOrder (others_kept a).
Proof. split; [by intros w o|]. intros w1 w2 w3 H12 H23 o Ho Ht. auto. Qed.

Lemma storage_ok {A} (m : M W StorageError A) w a w' :
  storage m w = (Ok a, w') → m w = (Ok a, w').
Proof. unfold storage, M_map_err. destruct (m w) as [[x|e] w0]; cbn; congruence. Qed.
Lemma supervisor_ok {A} (m : M W SupervisorError A) w a w' :
  supervisor m w = (Ok a, w') → m w = (Ok a, w').
Proof. unfold supervisor, M_map_err. destruct (m w) as [[x|e] w0]; cbn; congruence. Qed.

(** The process on record is dead: the agent has none. *)
Lemma accounted_dead a w r :
  accounted a w → stored_receipt w a = Some r → ¬ live w (process_of r) → no_process a w.
Proof.
  intros (_ & _ & Hacc) Hs Hd p Hp Ha. destruct (Hacc p Hp Ha) as (r' & Hr' & <-). congruence.
Qed.
Lemma accounted_none a w : accounted a w → stored_receipt w a = None → no_process a w.
Proof. intros (_ & _ & Hacc) Hs p Hp Ha. destruct (Hacc p Hp Ha) as (r & Hr & _). congruence. Qed.

(** The receipt on record, replaced by one for the same process. *)
Lemma put_ok a r w w' :
  supervised w → trusted w r → pr_agent_id r = a →
  (∀ p, live w p → p.1.1 = a → process_of r = p) → put_receipt r w = (Ok tt, w') →
  accounted a w' ∧ stored_receipt w' a = Some r ∧ (∀ p, live w' p ↔ live w p) ∧ others_kept a w w'.
Proof.
  intros Hs Ht Ha Hp Hput. pose proof (put_receipt_law _ _ _ Hput) as Hst. rewrite Ha in Hst.
  pose proof (put_processes r w) as (Hs' & Hl & Ho). rewrite Hput in Hs', Hl, Ho. cbn in Hs', Hl, Ho.
  split_and!; [|done|done|by intros o _; auto]. split_and!; [auto|by intros r' [= <-]%(eq_trans (eq_sym Hst)); auto|].
  intros p Hlive Hpa. exists r. split; [done|]. apply Hp; [by apply Hl|done].
Qed.

(** Inspecting the receipt on record. *)
Lemma inspect_ok a r w obs w' :
  accounted a w → stored_receipt w a = Some r → sup_inspect r w = (Ok obs, w') →
  accounted a w' ∧ stored_receipt w' a = Some r ∧ trusted w' obs ∧ process_of obs = process_of r
  ∧ (∀ p, live w' p → live w p) ∧ others_kept a w w'
  ∧ (ObservedProcessState_is_terminal (pr_observed_state obs) = true → no_process a w').
Proof.
  intros (Hs & Ht & Hacc) Hst Hi. destruct (inspect_law _ _ _ _ Hs (Ht r Hst) Hi) as (Hs' & Hto & Hpo & Hl & Ho & Hd).
  pose proof (inspect_records r w a) as Hrec. rewrite Hi in Hrec. cbn in Hrec.
  assert (accounted a w') as Hacc'.
  { split_and!; [done|rewrite Hrec; auto|]. rewrite Hrec. auto. }
  split_and!; [done|by rewrite Hrec|done|done|done|by intros o _; auto|].
  intros Hterm. apply (accounted_dead a w' r Hacc'); [by rewrite Hrec|auto].
Qed.

Lemma stop_ok a r obs w stopped w' :
  accounted a w → stored_receipt w a = Some r → trusted w obs → process_of obs = process_of r →
  sup_stop obs w = (Ok stopped, w') →
  supervised w' ∧ trusted w' stopped ∧ pr_agent_id stopped = a ∧ no_process a w'
  ∧ (∀ p, live w' p → live w p) ∧ others_kept a w w'.
Proof.
  intros (Hs & Ht & Hacc) Hst Hto Hpo Hstop.
  destruct (stop_law _ _ _ _ Hs Hto Hstop) as (Hs' & Ht' & Hpo' & Hl & Ho & Hd).
  split_and!; [done|done| | |done|by intros o _; auto].
  - rewrite <- (stored_agent w a r Hst). rewrite Hpo in Hpo'. unfold process_of in Hpo'. congruence.
  - intros p Hp Ha. destruct (Hacc p (Hl p Hp) Ha) as (r' & Hr' & <-). congruence.
Qed.

Lemma start_process_ok a l w outcome w' :
  supervised w → (∀ r, stored_receipt w a = Some r → trusted w r) → no_process a w →
  ls_agent_id l = a → start_process l w = (Ok outcome, w') →
  accounted a w' ∧ others_kept a w w'
  ∧ match outcome with
    | Started => ∃ r, stored_receipt w' a = Some r ∧ pr_desired r = LaunchSpec_identity l
    | FailedPreflight | NoPresence => no_process a w'
    | _ => False
    end.
Proof.
  intros Hs Ht Hno Ha Hst. unfold start_process in Hst.
  pose proof (start_records l w a) as Hrec. destruct (sup_start l w) as [[r|e] w1] eqn:Est.
  - destruct (start_law _ _ _ _ Hs Est) as (Hs1 & Ht1 & Hag & Hdes & Hl & Ho).
    apply bind_ok in Hst as ([] & w2 & Hput%storage_ok & Hret). injection Hret as <- <-.
    rewrite Ha in Hag, Ho. destruct (put_ok a r w1 w2 Hs1 Ht1 Hag) as (Hacc & Hst2 & _ & Ho2); [|done|].
    { intros p [Hp| ->]%Hl Hpa; [|done]. by destruct (Hno p Hp). }
    split_and!; [done|by transitivity w1|]. by exists r.
  - destruct (start_err_law _ _ _ _ Hs Est) as (Hs1 & Hl & Ho). cbn in Hrec.
    assert (no_process a w1) as Hn1 by (intros p Hp%Hl; auto).
    assert (accounted a w1) as Hacc.
    { split_and!; [done|rewrite Hrec; auto|]. intros p Hp Hpa. by destruct (Hn1 p Hp). }
    assert (others_kept a w w1) as Hok by (intros o _; auto).
    destruct e; try discriminate Hst; injection Hst as <- <-; by split_and!.
Qed.

Lemma ensure_stopped_ok a w outcome w' :
  accounted a w → ensure_stopped a (stored_receipt w a) w = (Ok outcome, w') →
  accounted a w' ∧ others_kept a w w' ∧ no_process a w' ∧ stored_receipt w' a = None.
Proof.
  intros Hacc He. unfold ensure_stopped in He. destruct (stored_receipt w a) as [r|] eqn:Hs.
  2:{ injection He as <- <-. split_and!; [done|reflexivity|by apply accounted_none|done]. }
  apply bind_ok in He as (obs & w1 & Hin%supervisor_ok & He).
  destruct (inspect_ok a r w obs w1 Hacc Hs Hin) as (Hacc1 & Hs1 & Hto & Hpo & Hl1 & Ho1 & Hdead).
  assert (∀ v v', supervised v → no_process a v → others_kept a w v →
    delete_receipt a v = (Ok tt, v') →
    accounted a v' ∧ others_kept a w v' ∧ no_process a v' ∧ stored_receipt v' a = None) as Hdel.
  { intros v v' Hsv Hnv Hov Hd. pose proof (delete_receipt_law _ _ _ Hd) as Hnone.
    pose proof (delete_processes a v) as (Hs' & Hl' & Ho'). rewrite Hd in Hs', Hl', Ho'. cbn in Hs', Hl', Ho'.
    assert (no_process a v') as Hn' by (intros p Hp%Hl'; auto).
    split_and!; [|by intros o Hne Ht; auto|done|done].
    split_and!; [auto|by rewrite Hnone|]. intros p Hp Hpa. by destruct (Hn' p Hp). }
  destruct (ObservedProcessState_is_terminal (pr_observed_state obs)).
  - apply bind_ok in He as ([] & w2 & Hd%storage_ok & Hret). injection Hret as <- <-.
    apply (Hdel w1); [by destruct Hacc1|auto|done|done].
  - apply bind_ok in He as (stp & w2 & Hstop%supervisor_ok & He).
    destruct (stop_ok a r obs w1 stp w2 Hacc1 Hs1 Hto Hpo Hstop) as (Hs2 & Ht2 & Ha2 & Hn2 & Hl2 & Ho2).
    apply bind_ok in He as ([] & w3 & Hput%storage_ok & He).
    apply bind_ok in He as ([] & w4 & Hd%storage_ok & Hret). injection Hret as <- <-.
    destruct (put_ok a stp w2 w3 Hs2 Ht2 Ha2) as (Hacc3 & _ & Hl3 & Ho3); [|done|].
    { intros p Hp Hpa. by destruct (Hn2 p Hp). }
    apply (Hdel w3); [by destruct Hacc3|by intros p Hp%Hl3; auto| |done].
    transitivity w2; [by transitivity w1|done].
Qed.

Lemma ensure_started_ok a l w outcome w' :
  accounted a w → ls_agent_id l = a →
  ensure_started l (stored_receipt w a) w = (Ok outcome, w') →
  accounted a w' ∧ others_kept a w w'
  ∧ match outcome with
    | Adopted => (∃ r, stored_receipt w' a = Some r ∧ can_adopt l r = true)
                 ∧ ∀ p, live w' p → live w p
    | Started => ∃ r, stored_receipt w' a = Some r ∧ pr_desired r = LaunchSpec_identity l
    | FailedPreflight | NoPresence => no_process a w'
    | _ => False
    end.
Proof.
  intros Hacc Ha He. unfold ensure_started in He. destruct (stored_receipt w a) as [r|] eqn:Hs.
  2:{ assert (Hacc' := Hacc). destruct Hacc' as (Hsw & Htw & _).
      destruct (start_process_ok a l w outcome w' Hsw Htw (accounted_none a w Hacc Hs) Ha He)
        as (? & ? & Hout). split_and!; [done|done|]. by destruct outcome. }
  apply bind_ok in He as (obs & w1 & Hin%supervisor_ok & He).
  destruct (inspect_ok a r w obs w1 Hacc Hs Hin) as (Hacc1 & Hs1 & Hto & Hpo & Hl1 & Ho1 & Hdead).
  apply bind_ok in He as ([] & w2 & Hput%storage_ok & He).
  assert (pr_agent_id obs = a) as Hao.
  { rewrite <- (stored_agent w a r Hs). unfold process_of in Hpo. congruence. }
  destruct (put_ok a obs w1 w2) as (Hacc2 & Hs2 & Hl2 & Ho2); [by destruct Hacc1|done|done| |done|].
  { destruct Hacc1 as (_ & _ & Hacc1). intros p Hp Hpa. destruct (Hacc1 p Hp Hpa) as (r1 & Hr1 & <-). congruence. }
  destruct (can_adopt l obs) eqn:Ead.
  { injection He as <- <-. split_and!; [done|by transitivity w1|by exists obs|]. intros p Hp%Hl2. auto. }
  apply bind_ok in He as ([] & w3 & Hstop & He).
  assert (supervised w3 ∧ (∀ r, stored_receipt w3 a = Some r → trusted w3 r) ∧ no_process a w3
          ∧ others_kept a w2 w3) as (Hs3 & Ht3 & Hno & Ho3).
  { destruct (ObservedProcessState_is_terminal (pr_observed_state obs)) eqn:Et; cbn in Hstop.
    - injection Hstop as <-. destruct Hacc2 as (? & ? & _). split_and!; [done|done| |done].
      intros p Hp%Hl2. by apply Hdead.
    - apply bind_ok in Hstop as (stp & w4 & Hst%supervisor_ok & Hput2%storage_ok).
      destruct (stop_ok a obs obs w2 stp w4 Hacc2 Hs2) as (Hs4 & Ht4 & Ha4 & Hn4 & Hl4 & Ho4);
        [by apply Hacc2|done|done|].
      destruct (put_ok a stp w4 w3 Hs4 Ht4 Ha4) as ((? & ? & _) & _ & Hl5 & Ho5); [|done|].
      { intros p Hp Hpa. by destruct (Hn4 p Hp). }
      split_and!; [done|done|by intros p Hp%Hl5; auto|by transitivity w4]. }
  destruct (start_process_ok a l w3 outcome w' Hs3 Ht3 Hno Ha He) as (? & ? & Hout).
  split_and!; [done| |by destruct outcome]. transitivity w2; [by transitivity w1|by transitivity w3].
Qed.

Lemma reconcile_desired_ok (agent : AgentSpec) (launch : option LaunchSpec)
    (w w' : W) (outcome : ReconcileOutcome) :
  accounted (spec_id agent) w →
  reconcile_desired agent launch w = (Ok outcome, w') →
  accounted (spec_id agent) w' ∧ others_kept (spec_id agent) w w'
  ∧ match spec_desired_state agent with
    | Disabled | Deleted =>
      no_process (spec_id agent) w' ∧ stored_receipt w' (spec_id agent) = None
    | Enabled => ∃ l, launch = Some l ∧ ls_agent_id l = spec_id agent
      ∧ match outcome with
        | Adopted => (∃ r, stored_receipt w' (spec_id agent) = Some r ∧ can_adopt l r = true)
                     ∧ ∀ p, live w' p → live w p
        | Started => ∃ r, stored_receipt w' (spec_id agent) = Some r
                          ∧ pr_desired r = LaunchSpec_identity l
        | FailedPreflight | NoPresence => no_process (spec_id agent) w'
        | _ => False
        end
    end.
Proof.
  intros Hacc Hr. unfold reconcile_desired in Hr. set (a := spec_id agent) in *.
  apply bind_ok in Hr as ([] & w1 & Hv & Hr). unfold of_result in Hv. injection Hv as _ <-.
  apply bind_ok in Hr as (o & w1 & Hg%storage_ok & Hr).
  destruct (get_receipt_law _ _ _ _ Hg) as [-> Hsame].
  pose proof (get_processes a w) as (Hs' & Hl & Ho). rewrite Hg in Hs', Hl, Ho. cbn in Hs', Hl, Ho.
  assert (accounted a w1) as Hacc1.
  { destruct Hacc as (? & ? & Hacc). split_and!; [auto|rewrite Hsame; auto|]. rewrite Hsame.
    intros p Hp%Hl. auto. }
  assert (others_kept a w w1) as Hok by (intros o _; auto). rewrite <- Hsame in Hr.
  destruct (spec_desired_state agent).
  - apply bind_ok in Hr as (l & w2 & Hd & Hr). unfold of_result in Hd.
    destruct launch as [l'|]; [|done]. injection Hd as <- <-.
    destruct (bool_decide (ls_agent_id l' = a)) eqn:El; [|done]. cbn in Hr.
    apply bool_decide_eq_true in El.
    destruct (ensure_started_ok _ _ _ _ _ Hacc1 El Hr) as (? & ? & Hout).
    split_and!; [done|by transitivity w1|]. exists l'. split_and!; [done|done|].
    destruct outcome; try done. destruct Hout as [? Hlive]. split; [done|]. intros p Hp%Hlive. by apply Hl.
  - destruct (ensure_stopped_ok _ _ _ _ Hacc1 Hr) as (? & ? & ?). split_and!; [done|by transitivity w1|tauto|tauto].
  - destruct (ensure_stopped_ok _ _ _ _ Hacc1 Hr) as (? & ? & ?). split_and!; [done|by transitivity w1|tauto|tauto].
Qed.

(** reconciliation reaches the desired state and leaks no process. If every live
    process of the agent was the one on record, it still is after a reconciliation that
    returns, so the agent never has two, and the receipts of other agents stay as
    trustworthy as they were. For a disabled or deleted agent no process and no
    receipt remain. For an enabled agent: an adopted process is the recorded one, fits
    the launch exactly, and nothing was started; a started one is on record under the
    launch's identity; a failed start leaves no process. *)
Theorem reconciliation_reaches_desired_state (agent : AgentSpec) (launch : option LaunchSpec)
    (w w' : W) (outcome : ReconcileOutcome) :
  accounted (spec_id agent) w →
  reconcile_desired agent launch w = (Ok outcome, w') →
  accounted (spec_id agent) w' ∧ others_kept (spec_id agent) w w'
  ∧ match spec_desired_state agent with
    | Disabled | Deleted =>
      no_process (spec_id agent) w' ∧ stored_receipt w' (spec_id agent) = None
    | Enabled => ∃ l, launch = Some l ∧ ls_agent_id l = spec_id agent
      ∧ match outcome with
        | Adopted => (∃ r, stored_receipt w' (spec_id agent) = Some r ∧ can_adopt l r = true)
                     ∧ ∀ p, live w' p → live w p
        | Started => ∃ r, stored_receipt w' (spec_id agent) = Some r
                          ∧ pr_desired r = LaunchSpec_identity l
        | FailedPreflight | NoPresence => no_process (spec_id agent) w'
        | _ => False
        end
    end.
Proof. apply reconcile_desired_ok. Qed.

(** Only running operations act. An operation of another agent is an error, a pending
    one is deferred and a finished one is never replayed; in all three cases nothing
    (repository, receipts, processes) is touched. *)
Theorem only_running_operations_act (agent_id : AgentId) (operation : DurableOperation)
    (launch : option LaunchSpec) (w : W) :
  op_agent_id operation ≠ Some agent_id ∨ op_status operation ≠ Running →
  reconcile agent_id operation launch w =
    (if bool_decide (op_agent_id operation = Some agent_id)
     then Ok (if bool_decide (op_status operation = Pending) then Deferred else Unchanged)
     else Err OperationAgentMismatch, w).
Proof.
  intros Hcase. unfold reconcile. case_bool_decide as Ha; cbn [negb]; [|done].
  destruct Hcase as [?|Hs]; [done|]. by destruct (op_status operation).
Qed.

End Properties.

(** ** An in-memory fleet: the interfaces can be met *)
Record Fleet := mkFleet {
  fl_agents : gmap AgentId AgentSpec;
  fl_receipts : gmap AgentId ProcessReceipt;
  fl_live : gset (AgentId * string * Z);
  fl_next_pid : Z
}.

#[export] Instance fleet_agents : AgentRepository Fleet := {|
  repo_get_agent a := gets (λ w, fl_agents w !! a)
|}.

(** The receipt on record, if it is the agent's own. *)
Definition fleet_receipt (w : Fleet) (a : AgentId) : option ProcessReceipt :=
  match fl_receipts w !! a with
  | Some r => if bool_decide (pr_agent_id r = a) then Some r else None
  | None => None
  end.

#[export] Instance fleet_receipts : ProcessReceiptRepository Fleet := {|
  get_receipt a := gets (λ w, fleet_receipt w a);
  put_receipt r := modify (λ w, mkFleet (fl_agents w) (<[pr_agent_id r := r]> (fl_receipts w))
                                  (fl_live w) (fl_next_pid w));
  delete_receipt a := modify (λ w, mkFleet (fl_agents w) (delete a (fl_receipts w)) (fl_live w)
                                     (fl_next_pid w))
|}.

#[export] Instance fleet_supervisor : ProcessSupervisor Fleet := {|
  sup_start l w :=
    match LaunchSpec_validate l with
    | Err e => (Err (InvalidSpec e), w)
    | Ok _ => let r := sample_receipt l (fl_next_pid w) Starting in
      (Ok r, mkFleet (fl_agents w) (fl_receipts w) ({[process_of r]} ∪ fl_live w)
               (fl_next_pid w + 1))
    end;
  sup_inspect r w :=
    if bool_decide (process_of r ∈ fl_live w) then
      if ObservedProcessState_is_terminal (pr_observed_state r) then (Err ReceiptMismatch, w)
      else (Ok r, w)
    else (Ok (with_observation r Lost None), w);
  sup_stop r w :=
    (Ok (with_observation r Lost None),
     mkFleet (fl_agents w) (fl_receipts w) (fl_live w ∖ {[process_of r]}) (fl_next_pid w))
|}.

#[export, refine] Instance fleet_supervisor_laws : SupervisorLaws Fleet := {|
  live w p := p ∈ fl_live w; supervised _ := True; trusted _ _ := True
|}.
Proof.
  - intros r w r' w' _ _. cbn. case_bool_decide as Hl.
    + destruct (ObservedProcessState_is_terminal _) eqn:Et; [done|]. intros [= <- <-].
      rewrite Et. by split_and!.
    + intros [= <- <-]. by split_and!.
  - intros r w r' w' _ _ [= <- <-]. cbn. split_and!; try done; set_solver.
  - intros l w r w' _. cbn. destruct (LaunchSpec_validate l); [|done]. intros [= <- <-]. cbn.
    split_and!; try done. set_solver.
  - intros l w e w' _. cbn. destruct (LaunchSpec_validate l); [done|]. by intros [= <- <-].
Defined.

#[export, refine] Instance fleet_receipt_laws : ReceiptLaws Fleet := {|
  stored_receipt := fleet_receipt
|}.
Proof.
  - intros w a r. unfold fleet_receipt. destruct (fl_receipts w !! a); [|done].
    case_bool_decide; congruence.
  - intros a w o w' [= <- <-]. done.
  - intros r w w' [= <-]. unfold fleet_receipt. cbn.
    by rewrite lookup_insert_eq, bool_decide_eq_true_2.
  - intros a w w' [= <-]. unfold fleet_receipt. cbn. by rewrite lookup_delete_eq.
Defined.

#[export] Instance fleet_laws : ReconcileLaws Fleet.
Proof.
  split; intros x w; try done.
  - intros a. cbn. by repeat case_match.
  - intros a. cbn. by repeat case_match.
Qed.

Definition sample_fleet : Fleet := mkFleet {[mkAgentId 7 := sample_agent]} ∅ ∅ 42.

Lemma reconciliation_reaches_desired_state_witness :
  ∃ outcome w', reconcile_desired sample_agent (Some sample_launch) sample_fleet
                = (Ok outcome, w')
    ∧ outcome = Started ∧ accounted (mkAgentId 7) w'.
Proof.
  destruct (reconcile_desired sample_agent (Some sample_launch) sample_fleet)
    as [[outcome|e] w'] eqn:E; [|vm_compute in E; discriminate E].
  exists outcome, w'. split; [reflexivity|]. split.
  - vm_compute in E. injection E as <- _. reflexivity.
  - assert (accounted (spec_id sample_agent) sample_fleet) as Hacc.
    { split; [exact I|]. split; [intros r _; exact I|]. intros p Hp.
      change (p ∈ (∅ : gset (AgentId * string * Z))) in Hp. apply elem_of_empty in Hp. destruct Hp. }
    exact (proj1 (reconciliation_reaches_desired_state _ _ _ _ _ Hacc E)).
Defined.

Lemma only_running_operations_act_witness :
  let op := mkDurableOperation (mkOperationId 1) CreateAgent Succeeded (Some (mkAgentId 7)) None
              1 1 "corr" in
  reconcile (mkAgentId 7) op (Some sample_launch) sample_fleet = (Ok Unchanged, sample_fleet).
Proof.
  intros op. rewrite (only_running_operations_act (mkAgentId 7) op (Some sample_launch)
    sample_fleet).
  - reflexivity.
  - right. intros E. discriminate E.
Defined.
