(* ===== verification/Diagnostics.v ===== *)
(** * Child output redaction (src/src/supervisor.rs)
    A child process holds credentials and may print anything. What is persisted of its
    output is an allow-list of diagnostics; everything else becomes a fixed marker. *)
From stdpp Require Import base gmap strings list.
From Stdlib Require Import ZArith Lia Ascii String.
From S2P Require Import Prelude RustStr.

Definition LF : ascii := "010"%char.
Definition CR : ascii := "013"%char.
Definition space : ascii := " "%char.
Definition cat (l : list string) : string := foldr String.append EmptyString l.

(** ** More of [str] *)
(** [value.lines()]: a line feed ends a line, a carriage return before it is dropped; a
    last line needs no line feed. *)
Definition drop_cr (s : string) : string :=
  match strip_suffix_char CR s with Some r => r | None => s end.
Fixpoint lines_onto (cur s : string) : list string :=
  match s with
  | EmptyString => if str_is_empty cur then [] else [cur]
  | String a s' =>
    if Ascii.eqb a LF then drop_cr cur :: lines_onto EmptyString s'
    else lines_onto (String.append cur (String a EmptyString)) s'
  end.
Definition str_lines (s : string) : list string := lines_onto EmptyString s.

(** [value.split_whitespace()] *)
Definition flush (cur : string) (l : list string) : list string :=
  if str_is_empty cur then l else cur :: l.
Fixpoint words_onto (cur s : string) : list string :=
  match s with
  | EmptyString => flush cur []
  | String a s1 =>
    let more := String.append cur (String a EmptyString) in
    if ws1 a then flush cur (words_onto EmptyString s1)
    else match s1 with
         | EmptyString => words_onto more s1
         | String b s2 =>
           if ws2 a b then flush cur (words_onto EmptyString s2)
           else match s2 with
                | EmptyString => words_onto more s1
                | String c s3 =>
                  if ws3 a b c then flush cur (words_onto EmptyString s3) else words_onto more s1
                end
         end
  end.
Definition split_whitespace (s : string) : list string := words_onto EmptyString s.

(** Decimal digits, at least one. *)
Fixpoint digits_onto (acc : Z) (s : string) : option Z :=
  match s with
  | EmptyString => Some acc
  | String c s' =>
    if is_ascii_digit c then digits_onto (10 * acc + Z.of_N (byte_val c) - 48) s' else None
  end.
Definition parse_digits (s : string) : option Z :=
  if str_is_empty s then None else digits_onto 0 s.

(** [value.parse::<i32>()] and [value.parse::<u32>()] *)
Definition parse_i32 (s : string) : option Z :=
  match s with
  | String "-" s' => v ← parse_digits s'; if v <=? 2 ^ 31 then Some (- v) else None
  | String "+" s' => v ← parse_digits s'; if v <? 2 ^ 31 then Some v else None
  | _ => v ← parse_digits s; if v <? 2 ^ 31 then Some v else None
  end.
Definition parse_u32 (s : string) : option Z :=
  match s with
  | String "+" s' => v ← parse_digits s'; if v <? 2 ^ 32 then Some v else None
  | _ => v ← parse_digits s; if v <? 2 ^ 32 then Some v else None
  end.

(** [value.get(..n)]: [None] past the end or inside a character. *)
Definition get_prefix (n : nat) (s : string) : option string :=
  if bool_decide (String.length s < n)%nat then None
  else match String.get n s with
       | Some c => if in_range 128 191 c then None else Some (substring 0 n s)
       | None => Some (substring 0 n s)
       end.

(** ** Validators *)
Definition valid_error_code (value : string) : bool :=
  negb (str_is_empty value) && (len value <=? 11) && option_is_some (parse_i32 value).

Definition one_of (values : list string) (value : string) : bool :=
  existsb (String.eqb value) values.
Definition valid_task_class : string → bool := one_of ["unauthorized"; "usage_limit"; "no_session"].
Definition valid_task_action : string → bool := one_of ["reauthenticate"; "retry"; "reauthorize"].
Definition valid_task_phase : string → bool := one_of ["task"; "pre_session"; "pre_turn"].
Definition valid_task_rule : string → bool :=
  one_of ["provider_unauthorized"; "provider_usage_limit"; "provider_no_session"].

(** One byte of a timestamp [YYYY-MM-DDTHH:MM:SSZ], by position. *)
Definition retry_at_byte (index : nat) (byte : ascii) : bool :=
  match index with
  | 4%nat | 7%nat => Ascii.eqb byte "-"
  | 10%nat => Ascii.eqb byte "T"
  | 13%nat | 16%nat => Ascii.eqb byte ":"
  | 19%nat => Ascii.eqb byte "Z"
  | _ => is_ascii_digit byte
  end.
Fixpoint all_indexed (p : nat → ascii → bool) (i : nat) (s : string) : bool :=
  match s with
  | EmptyString => true
  | String c s' => p i c && all_indexed p (S i) s'
  end.
Definition valid_retry_at (value : string) : bool :=
  (len value =? 20) && option_is_some (strip_suffix_char "Z" value)
  && all_indexed retry_at_byte 0 value.

Definition valid_retry_after_seconds (value : string) : bool :=
  match parse_u32 value with Some seconds => seconds <=? 604800 | None => false end.

(** ** Extraction *)
Definition numeric_value_after (line marker : string) : option string :=
  '(_, value) ← split_once marker line;
  let value := take_while (λ c, is_ascii_digit c || Ascii.eqb c "-") value in
  if valid_error_code value then Some value else None.

Definition first_some {A B} (f : A → option B) (l : list A) : option B :=
  foldr (λ a rest, match f a with Some b => Some b | None => rest end) None l.

Definition sanitized_retry_at (line : string) : option string :=
  first_some (λ marker,
    '(_, value) ← split_once marker line;
    candidate ← get_prefix 20 value;
    if valid_retry_at candidate then Some candidate else None)
    ["retry_at="; "retry at "; "retry after "].

Definition sanitized_retry_after_seconds (line : string) : option string :=
  first_some (λ marker,
    '(_, value) ← split_once marker line;
    let candidate := take_while is_ascii_digit value in
    if valid_retry_after_seconds candidate then Some candidate else None)
    ["retry_after_seconds="; "retry-after-seconds="].

Definition contains_any (input : string) (needles : list string) : bool :=
  existsb (λ needle, contains_str needle input) needles.

(** ** Diagnostics *)
Record TaskDiagnostic := mkTaskDiagnostic {
  td_class : string; td_code : option string; td_exit_code : option string;
  td_action : string; td_phase : string; td_rule : string;
  td_retry_at : option string; td_retry_after : option string
}.

(** The fields a diagnostic prints, in order. *)
Definition opt_field (key : string) (value : option string) : list string :=
  match value with Some v => [String.append key v] | None => [] end.
Definition task_fields (d : TaskDiagnostic) : list string :=
  [String.append "class=" (td_class d)] ++ opt_field "code=" (td_code d)
  ++ opt_field "exit_code=" (td_exit_code d)
  ++ [String.append "action=" (td_action d); String.append "phase=" (td_phase d);
      String.append "rule=" (td_rule d)]
  ++ opt_field "retry_at=" (td_retry_at d) ++ opt_field "retry_after_seconds=" (td_retry_after d).
Definition format_task (d : TaskDiagnostic) : string :=
  String.append "[CHILD TASK ERROR " (String.append (join_with " " (task_fields d)) "]").

Definition adapter_error (code : string) : string :=
  String.append "[CHILD ADAPTER ERROR code=" (String.append code "]").
Definition process_exit (code : string) : string :=
  String.append "[CHILD PROCESS EXIT code=" (String.append code "]").

(** The eight local variables of [sanitized_structured_task_diagnostic]. *)
Record TaskFields := mkTaskFields {
  tf_class : option string; tf_code : option string; tf_exit_code : option string;
  tf_action : option string; tf_phase : option string; tf_rule : option string;
  tf_retry_at : option string; tf_retry_after : option string
}.
Definition no_fields : TaskFields := mkTaskFields None None None None None None None None.

(** [if field.is_none() && valid(value) => field = Some(value)] *)
Definition set_once (field : option string) (valid : string → bool) (value : string)
    : option (option string) :=
  match field with
  | Some _ => None
  | None => if valid value then Some (Some value) else None
  end.

Definition take_field (f : TaskFields) (field : string) : option TaskFields :=
  '(key, value) ← split_once "=" field;
  let '(mkTaskFields class code exit action phase rule at' after) := f in
  if String.eqb key "class" then
    v ← set_once class valid_task_class value;
    Some (mkTaskFields v code exit action phase rule at' after)
  else if String.eqb key "code" then
    v ← set_once code valid_error_code value;
    Some (mkTaskFields class v exit action phase rule at' after)
  else if String.eqb key "exit_code" then
    v ← set_once exit valid_error_code value;
    Some (mkTaskFields class code v action phase rule at' after)
  else if String.eqb key "action" then
    v ← set_once action valid_task_action value;
    Some (mkTaskFields class code exit v phase rule at' after)
  else if String.eqb key "phase" then
    v ← set_once phase valid_task_phase value;
    Some (mkTaskFields class code exit action v rule at' after)
  else if String.eqb key "rule" then
    v ← set_once rule valid_task_rule value;
    Some (mkTaskFields class code exit action phase v at' after)
  else if String.eqb key "retry_at" then
    v ← set_once at' valid_retry_at value;
    Some (mkTaskFields class code exit action phase rule v after)
  else if String.eqb key "retry_after_seconds" then
    v ← set_once after valid_retry_after_seconds value;
    Some (mkTaskFields class code exit action phase rule at' v)
  else None.

Fixpoint take_fields (f : TaskFields) (fields : list string) : option TaskFields :=
  match fields with
  | [] => Some f
  | x :: fields' => f ← take_field f x; take_fields f fields'
  end.

Definition sanitized_structured_task_diagnostic (line : string) : option string :=
  inner ← strip_prefix "[CHILD TASK ERROR " line;
  inner ← strip_suffix_char "]" inner;
  let fields := split_whitespace inner in
  if bool_decide (fields = []) then None
  else
  f ← take_fields no_fields fields;
  class ← tf_class f; action ← tf_action f; phase ← tf_phase f; rule ← tf_rule f;
  Some (format_task (mkTaskDiagnostic class (tf_code f) (tf_exit_code f) action phase rule
                       (tf_retry_at f) (tf_retry_after f))).

Definition AGENT_ERROR : string := "Agent reported error (code ".
Definition EXITED : string := "process has exited with code ".

(** [(class, action, phase, rule)] by the words of the line. *)
Definition classify (lower : string) : option (string * string * string * string) :=
  if contains_any lower ["unauthorized"; "authentication failed"; "refresh token"; "reauthenticate"]
  then Some ("unauthorized", "reauthenticate", "task", "provider_unauthorized")
  else if contains_any lower
            ["usage limit"; "usage-limit"; "rate limit"; "quota"; "too many requests"]
  then Some ("usage_limit", "retry", "task", "provider_usage_limit")
  else if contains_any lower
            ["no codex session"; "session has not been initialized"; "failed to create session";
             "session creation failed"; "no active session"; "pre-session"; "presession";
             "before turn"; "pre-turn"; "preturn"]
  then Some ("no_session", "retry", "pre_session", "provider_no_session")
  else None.

Definition classified_task_diagnostic (line : string) : option string :=
  let adapter_line := contains_str AGENT_ERROR line || starts_with "agent task failed:" line
                      || starts_with "agent turn failed:" line
                      || starts_with "agent request failed:" line in
  if negb adapter_line then None
  else
  '(class, action, phase, rule) ← classify (to_ascii_lowercase line);
  Some (format_task (mkTaskDiagnostic class (numeric_value_after line AGENT_ERROR)
    (numeric_value_after line EXITED) action phase rule (sanitized_retry_at line)
    (sanitized_retry_after_seconds line))).

Definition INITIALIZATION_ERROR : string := "[CHILD INITIALIZATION ERROR]".
Definition SQLITE_ERROR : string := "[CHILD ERROR class=sqlite_state_initialization_failed]".
Definition REDACTED : string := "[REDACTED CHILD OUTPUT]".

(** A line that is already one of the two numbered diagnostics. *)
Definition is_numbered (line : string) : bool :=
  existsb (λ prefix,
    is_some_and (rest ← strip_prefix prefix line; strip_suffix_char "]" rest) valid_error_code)
    ["[CHILD ADAPTER ERROR code="; "[CHILD PROCESS EXIT code="].

(** The lines of [sanitized_child_diagnostic], which joins them with line feeds. *)
Definition diagnostic_lines (line : string) : option (list string) :=
  let line := trim line in
  if String.eqb line INITIALIZATION_ERROR || String.eqb line SQLITE_ERROR then Some [line]
  else match sanitized_structured_task_diagnostic line with
  | Some diagnostic => Some [diagnostic]
  | None =>
    if is_numbered line then Some [line]
    else if starts_with "agent initialize failed:" line then
      Some ([INITIALIZATION_ERROR]
            ++ opt_field "" (adapter_error <$> numeric_value_after line AGENT_ERROR)
            ++ opt_field "" (process_exit <$> numeric_value_after line EXITED))
    else match classified_task_diagnostic line with
    | Some diagnostic => Some [diagnostic]
    | None =>
      match numeric_value_after line AGENT_ERROR with
      | Some code =>
        Some (adapter_error code :: opt_field "" (process_exit <$> numeric_value_after line EXITED))
      | None =>
        match numeric_value_after line EXITED with
        | Some code => Some [process_exit code]
        | None =>
          if starts_with "Error: failed to initialize sqlite state runtime" line
          then Some [SQLITE_ERROR] else None
        end
      end
    end
  end.

Definition sanitized_child_diagnostic (line : string) : option string :=
  join_with (String LF EmptyString) <$> diagnostic_lines line.

Definition redact_line (line : string) : string :=
  String.append (default REDACTED (sanitized_child_diagnostic line)) (String LF EmptyString).

Definition redact_log (input : string) : string := cat (redact_line <$> str_lines input).

(** ** What a log may say *)
Definition end_line (l : string) : string := String.append l (String LF EmptyString).
Definition text (ls : list string) : string := cat (end_line <$> ls).

(** A diagnostic all of whose fields passed their validators. *)
Definition opt_valid (valid : string → bool) (o : option string) : Prop :=
  ∀ v, o = Some v → valid v = true.
Definition task_ok (d : TaskDiagnostic) : Prop :=
  valid_task_class (td_class d) = true ∧ opt_valid valid_error_code (td_code d)
  ∧ opt_valid valid_error_code (td_exit_code d) ∧ valid_task_action (td_action d) = true
  ∧ valid_task_phase (td_phase d) = true ∧ valid_task_rule (td_rule d) = true
  ∧ opt_valid valid_retry_at (td_retry_at d)
  ∧ opt_valid valid_retry_after_seconds (td_retry_after d).

(** The lines that may be persisted. *)
Inductive safe_line : string → Prop :=
| safe_redacted : safe_line REDACTED
| safe_initialization : safe_line INITIALIZATION_ERROR
| safe_sqlite : safe_line SQLITE_ERROR
| safe_adapter code : valid_error_code code = true → safe_line (adapter_error code)
| safe_exit code : valid_error_code code = true → safe_line (process_exit code)
| safe_task d : task_ok d → safe_line (format_task d).

(** The lines [redact_line] writes. *)
Definition redacted_lines (line : string) : list string :=
  default [REDACTED] (diagnostic_lines line).

(** ** Output is confined to safe lines *)
Lemma cat_app a b : cat (a ++ b) = String.append (cat a) (cat b).
Proof. unfold cat. induction a as [|x a IH]; cbn; [done|]. by rewrite IH, append_assoc. Qed.

Lemma text_app a b : text (a ++ b) = String.append (text a) (text b).
Proof. unfold text. by rewrite fmap_app, cat_app. Qed.

Lemma join_end_line l ls :
  String.append (join_with (String LF EmptyString) (l :: ls)) (String LF EmptyString)
  = text (l :: ls).
Proof.
  revert l. induction ls as [|m ls IH]; intros l.
  - unfold text. cbn. by rewrite append_nil_r.
  - change (text (l :: m :: ls)) with (String.append (end_line l) (text (m :: ls))).
    rewrite <- IH. unfold end_line. cbn [join_with]. by rewrite !append_assoc.
Qed.

Lemma diagnostic_lines_nonempty line ls : diagnostic_lines line = Some ls → ls ≠ [].
Proof.
  unfold diagnostic_lines. intros H. repeat step_in H; injection H as <-; done.
Qed.

Lemma redact_line_text line : redact_line line = text (redacted_lines line).
Proof.
  unfold redact_line, redacted_lines, sanitized_child_diagnostic.
  destruct (diagnostic_lines line) as [ls|] eqn:E; [|done]. cbn.
  destruct ls as [|l ls]; [by apply diagnostic_lines_nonempty in E|]. apply join_end_line.
Qed.

Lemma redact_log_text input :
  redact_log input = text (flat_map redacted_lines (str_lines input)).
Proof.
  unfold redact_log. induction (str_lines input) as [|l ls IH]; [done|].
  cbn [flat_map]. rewrite text_app, <- IH, <- redact_line_text. done.
Qed.

(** Extracted values passed their validators. *)
Lemma numeric_value_after_valid line marker :
  opt_valid valid_error_code (numeric_value_after line marker).
Proof.
  intros v H. unfold numeric_value_after in H. destruct (split_once marker line) as [[a b]|]; [|done].
  cbn in H. step_in H. by injection H as <-.
Qed.

Lemma first_some_elim {A B} (f : A → option B) l b : first_some f l = Some b → ∃ a, f a = Some b.
Proof.
  induction l as [|a l IH]; cbn; [done|]. destruct (f a) as [c|] eqn:E; [|done].
  intros [= <-]. by exists a.
Qed.

Lemma sanitized_retry_at_valid line : opt_valid valid_retry_at (sanitized_retry_at line).
Proof.
  intros v [marker H]%first_some_elim. destruct (split_once marker line) as [[a b]|]; [|done].
  cbn in H. destruct (get_prefix 20 b) as [c|]; [|done]. cbn in H. step_in H. by injection H as <-.
Qed.

Lemma sanitized_retry_after_valid line :
  opt_valid valid_retry_after_seconds (sanitized_retry_after_seconds line).
Proof.
  intros v [marker H]%first_some_elim. destruct (split_once marker line) as [[a b]|]; [|done].
  cbn in H. step_in H. by injection H as <-.
Qed.

Lemma classify_valid lower class action phase rule :
  classify lower = Some (class, action, phase, rule) →
  valid_task_class class = true ∧ valid_task_action action = true
  ∧ valid_task_phase phase = true ∧ valid_task_rule rule = true.
Proof. unfold classify. intros H. repeat step_in H; injection H as <- <- <- <-; done. Qed.

Lemma classified_safe line l : classified_task_diagnostic line = Some l → safe_line l.
Proof.
  unfold classified_task_diagnostic. intros H. step_in H.
  destruct (classify (to_ascii_lowercase line)) as [[[[class action] phase] rule]|] eqn:Ec; [|done].
  cbn -[format_task] in H. injection H as <-. apply classify_valid in Ec as (H1 & H2 & H3 & H4).
  constructor. split_and!; try done.
  - apply numeric_value_after_valid.
  - apply numeric_value_after_valid.
  - apply sanitized_retry_at_valid.
  - apply sanitized_retry_after_valid.
Qed.

(** The fields read from a structured line passed their validators. *)
Definition fields_ok (f : TaskFields) : Prop :=
  opt_valid valid_task_class (tf_class f) ∧ opt_valid valid_error_code (tf_code f)
  ∧ opt_valid valid_error_code (tf_exit_code f) ∧ opt_valid valid_task_action (tf_action f)
  ∧ opt_valid valid_task_phase (tf_phase f) ∧ opt_valid valid_task_rule (tf_rule f)
  ∧ opt_valid valid_retry_at (tf_retry_at f)
  ∧ opt_valid valid_retry_after_seconds (tf_retry_after f).

Lemma set_once_valid field valid value r : set_once field valid value = Some r → opt_valid valid r.
Proof.
  unfold set_once. intros H. step_in H. step_in H. injection H as <-. by intros v [= <-].
Qed.

Lemma take_field_ok f field f' : fields_ok f → take_field f field = Some f' → fields_ok f'.
Proof.
  intros (H1 & H2 & H3 & H4 & H5 & H6 & H7 & H8) H. unfold take_field in H.
  destruct (split_once "=" field) as [[key value]|]; [|done].
  destruct f as [class code exit action phase rule at' after]. cbn -[String.eqb] in H.
  repeat (destruct (String.eqb key _); [destruct (set_once _ _ value) as [v|] eqn:Ev; [|done];
    apply set_once_valid in Ev; injection H as <-; split_and!; done|]).
  done.
Qed.

Lemma take_fields_ok fields f f' : fields_ok f → take_fields f fields = Some f' → fields_ok f'.
Proof.
  revert f. induction fields as [|x fields IH]; intros f Hf H; cbn in H; [by injection H as <-|].
  destruct (take_field f x) as [g|] eqn:E; [|done]. cbn in H.
  eapply IH; [|exact H]. by eapply take_field_ok.
Qed.

Lemma structured_safe line l : sanitized_structured_task_diagnostic line = Some l → safe_line l.
Proof.
  unfold sanitized_structured_task_diagnostic. intros H.
  destruct (strip_prefix _ line) as [inner|]; [|done]. cbn -[take_fields format_task] in H.
  destruct (strip_suffix_char _ inner) as [inner'|]; [|done]. cbn -[take_fields format_task] in H.
  case_bool_decide; [done|].
  destruct (take_fields no_fields _) as [f|] eqn:Ef; [|done].
  apply take_fields_ok in Ef; [|by split_and!].
  destruct f as [[class|] code exit [action|] [phase|] [rule|] at' after]; try discriminate H.
  cbn -[format_task] in H. injection H as <-. constructor.
  destruct Ef as (H1 & H2 & H3 & H4 & H5 & H6 & H7 & H8). cbn in *. split_and!; auto.
Qed.

Lemma strip_suffix_Some c s r :
  strip_suffix_char c s = Some r → s = String.append r (String c EmptyString).
Proof.
  revert r. induction s as [|a s IH]; intros r H; cbn in H; [done|].
  destruct s as [|b s].
  - destruct (Ascii.eqb_spec a c) as [->|]; [|done]. by injection H as <-.
  - destruct (strip_suffix_char c (String b s)) as [r'|] eqn:E; [|done]. injection H as <-.
    cbn. by rewrite (IH r' eq_refl).
Qed.

Lemma numbered_safe line : is_numbered line = true → safe_line line.
Proof.
  unfold is_numbered. cbn [existsb]. rewrite !orb_true_iff. intros [H|[H|H]]; [| |done].
  all: destruct (strip_prefix _ line) as [rest|] eqn:E; [|done]; cbn in H.
  all: destruct (strip_suffix_char _ rest) as [code|] eqn:E2; [|done]; cbn in H.
  all: apply strip_prefix_Some in E; apply strip_suffix_Some in E2; subst rest line.
  - by apply (safe_adapter code).
  - by apply (safe_exit code).
Qed.

Lemma opt_field_safe (mk : string → string) o :
  (∀ c, valid_error_code c = true → safe_line (mk c)) →
  opt_valid valid_error_code o → Forall safe_line (opt_field "" (mk <$> o)).
Proof. intros Hmk Ho. destruct o as [c|]; cbn; [|constructor]. auto. Qed.

(** Every diagnostic is made of safe lines. *)
Lemma diagnostic_lines_safe line ls : diagnostic_lines line = Some ls → Forall safe_line ls.
Proof.
  unfold diagnostic_lines. set (t := trim line). intros H.
  pose proof (numeric_value_after_valid t AGENT_ERROR) as Ha.
  pose proof (numeric_value_after_valid t EXITED) as He.
  step_in H.
  { injection H as <-. apply orb_true_iff in E as [->%String.eqb_eq| ->%String.eqb_eq];
      repeat constructor. }
  step_in H; [injection H as <-; by apply Forall_singleton, (structured_safe t)|].
  step_in H; [injection H as <-; by apply Forall_singleton, numbered_safe|].
  step_in H.
  { injection H as <-. constructor; [constructor|].
    apply Forall_app_2; apply opt_field_safe; auto using safe_adapter, safe_exit. }
  step_in H; [injection H as <-; by apply Forall_singleton, (classified_safe t)|].
  step_in H.
  { injection H as <-. constructor; [constructor; auto|].
    apply opt_field_safe; auto using safe_exit. }
  step_in H; [injection H as <-; apply Forall_singleton, safe_exit; auto|].
  step_in H. injection H as <-. repeat constructor.
Qed.

Lemma redacted_lines_safe line : Forall safe_line (redacted_lines line).
Proof.
  unfold redacted_lines. destruct (diagnostic_lines line) as [ls|] eqn:E; cbn.
  - by eapply diagnostic_lines_safe.
  - repeat constructor.
Qed.

Definition safe_text (t : string) : Prop := ∃ ls, t = text ls ∧ Forall safe_line ls.

Lemma redact_log_safe input : safe_text (redact_log input).
Proof.
  rewrite redact_log_text. eexists. split; [done|].
  induction (str_lines input) as [|l ls IH]; cbn; [constructor|].
  apply Forall_app_2; [apply redacted_lines_safe|done].
Qed.

(** ** Redaction leaves safe lines alone *)
(** Words: non-empty, without white space; [ascii_graphic] bytes are ASCII. *)
Definition word (s : string) : Prop := s ≠ EmptyString ∧ all_bytes ascii_graphic s = true.

Lemma digit_graphic c : is_ascii_digit c = true → ascii_graphic c = true.
Proof. by destruct c as [[] [] [] [] [] [] [] []]; vm_compute. Qed.

Lemma digits_onto_graphic acc s v : digits_onto acc s = Some v → all_bytes ascii_graphic s = true.
Proof.
  revert acc. induction s as [|c s IH]; intros acc H; cbn in H; [done|].
  step_in H. cbn [all_bytes]. rewrite digit_graphic by done. by eapply IH.
Qed.

Lemma parse_digits_word s v : parse_digits s = Some v → word s.
Proof.
  unfold parse_digits. intros H. step_in H. split; [by intros ->|by eapply digits_onto_graphic].
Qed.

Lemma word_cons c s : ascii_graphic c = true → word s → word (String c s).
Proof. intros Hc [_ Hs]. split; [done|]. cbn [all_bytes]. by rewrite Hc. Qed.

Lemma bind_parse_word s (f : Z → option Z) v : (parse_digits s ≫= f) = Some v → word s.
Proof. destruct (parse_digits s) as [d|] eqn:E; [|done]. intros _. by eapply parse_digits_word. Qed.

Lemma parse_i32_word s v : parse_i32 s = Some v → word s.
Proof.
  unfold parse_i32. intros H. destruct s as [|c s]; [done|].
  destruct (decide (c = "-"%char)) as [->|]; [apply word_cons; [done|by eapply bind_parse_word]|].
  destruct (decide (c = "+"%char)) as [->|]; [apply word_cons; [done|by eapply bind_parse_word]|].
  destruct c as [[] [] [] [] [] [] [] []]; try congruence; by eapply bind_parse_word.
Qed.

Lemma parse_u32_word s v : parse_u32 s = Some v → word s.
Proof.
  unfold parse_u32. intros H. destruct s as [|c s]; [done|].
  destruct (decide (c = "+"%char)) as [->|]; [apply word_cons; [done|by eapply bind_parse_word]|].
  destruct c as [[] [] [] [] [] [] [] []]; try congruence; by eapply bind_parse_word.
Qed.

Lemma error_code_word s : valid_error_code s = true → word s.
Proof.
  unfold valid_error_code. rewrite !andb_true_iff. intros [_ H].
  destruct (parse_i32 s) as [v|] eqn:E; [|done]. by eapply parse_i32_word.
Qed.

Lemma retry_after_word s : valid_retry_after_seconds s = true → word s.
Proof.
  unfold valid_retry_after_seconds. destruct (parse_u32 s) as [v|] eqn:E; [|done].
  intros _. by eapply parse_u32_word.
Qed.

Lemma retry_at_byte_graphic i c : retry_at_byte i c = true → ascii_graphic c = true.
Proof.
  assert (∀ d, ascii_graphic d = true → Ascii.eqb c d = true → ascii_graphic c = true) as He.
  { by intros d Hd ->%Ascii.eqb_eq. }
  unfold retry_at_byte. do 20 (destruct i as [|i]; [by (apply He; done) || by apply digit_graphic|]).
  apply digit_graphic.
Qed.

Lemma retry_at_word s : valid_retry_at s = true → word s.
Proof.
  unfold valid_retry_at. rewrite !andb_true_iff. intros [[Hlen _] Hall].
  split; [by intros ->|]. clear Hlen. revert Hall. generalize 0%nat.
  induction s as [|c s IH]; intros i; cbn [all_indexed all_bytes]; [done|].
  rewrite !andb_true_iff. intros [Hc Hs]. split; [by eapply retry_at_byte_graphic|by eapply IH].
Qed.

Definition is_word (s : string) : bool := negb (str_is_empty s) && all_bytes ascii_graphic s.

Lemma one_of_word values s : forallb is_word values = true → one_of values s = true → word s.
Proof.
  unfold one_of. rewrite forallb_forall, existsb_exists. intros Hv (x & Hx & ->%String.eqb_eq).
  apply Hv in Hx. unfold is_word in Hx. apply andb_true_iff in Hx as [Hne Hx].
  split; [by intros ->|done].
Qed.

(** Splitting words joined by spaces. *)
Lemma words_onto_graphic cur w rest :
  all_bytes ascii_graphic w = true →
  words_onto cur (String.append w rest) = words_onto (String.append cur w) rest.
Proof.
  revert cur. induction w as [|a w IH]; intros cur H; [by rewrite append_nil_r|].
  cbn [all_bytes] in H. apply andb_true_iff in H as [Ha Hw].
  assert (words_onto cur (String a (String.append w rest))
          = words_onto (String.append cur (String a EmptyString)) (String.append w rest)) as E.
  { cbn [words_onto]. destruct (ascii_graphic_not_ws a "000" "000" Ha) as [-> _].
    destruct (String.append w rest) as [|b s]; [done|].
    destruct (ascii_graphic_not_ws a b "000" Ha) as (_ & -> & _).
    destruct s as [|c s]; [done|]. by destruct (ascii_graphic_not_ws a b c Ha) as (_ & _ & ->). }
  cbn [String.append]. by rewrite E, IH, append_assoc.
Qed.

Lemma split_whitespace_join ws :
  Forall word ws → split_whitespace (join_with " " ws) = ws.
Proof.
  unfold split_whitespace. induction 1 as [|w ws [Hne Hw] Hws IH]; [done|].
  destruct ws as [|v ws].
  - cbn [join_with]. rewrite <- (append_nil_r w) at 1. rewrite words_onto_graphic by done.
    by destruct w.
  - change (join_with " " (w :: v :: ws))
      with (String.append w (String " " (join_with " " (v :: ws)))).
    rewrite words_onto_graphic by done. destruct w as [|a w]; [done|].
    change (String a w :: words_onto EmptyString (join_with " " (v :: ws)) = String a w :: v :: ws).
    by rewrite IH.
Qed.

Lemma strip_suffix_append c s :
  strip_suffix_char c (String.append s (String c EmptyString)) = Some s.
Proof.
  induction s as [|a s IH]; cbn; [by rewrite Ascii.eqb_refl|].
  destruct (String.append s (String c EmptyString)) as [|b t] eqn:E; [by destruct s|].
  by rewrite IH.
Qed.

(** Text between two graphic bytes has nothing to trim. *)
Lemma trim_bracketed a s b :
  ascii_graphic a = true → ascii_graphic b = true →
  let t := String a (String.append s (String b EmptyString)) in trim t = t.
Proof.
  intros Ha Hb t. unfold trim, trim_end.
  assert (trim_start t = t) as ->.
  { unfold t. cbn [trim_start]. destruct (ascii_graphic_not_ws a "000" "000" Ha) as [-> _].
    destruct (String.append s _) as [|c u]; [done|].
    destruct (ascii_graphic_not_ws a c "000" Ha) as (_ & -> & _).
    destruct u as [|d u]; [done|]. by destruct (ascii_graphic_not_ws a c d Ha) as (_ & _ & ->). }
  assert (str_rev t = String b (str_rev (String a s))) as E.
  { unfold t, str_rev. change (String a (String.append s (String b EmptyString)))
      with (String.append (String a s) (String b EmptyString)). by rewrite rev_onto_append. }
  rewrite E. cbn [trim_start_rev]. destruct (ascii_graphic_not_ws b "000" "000" Hb) as [-> _].
  rewrite <- E. destruct (str_rev (String a s)) as [|c u]; [apply str_rev_involutive|].
  destruct (ascii_graphic_not_ws_end b c "000" Hb) as (-> & _).
  destruct u as [|d u]; [apply str_rev_involutive|].
  destruct (ascii_graphic_not_ws_end b c d Hb) as (_ & ->). apply str_rev_involutive.
Qed.

Lemma lines_onto_line cur l rest :
  all_bytes (λ c, negb (Ascii.eqb c LF)) l = true →
  lines_onto cur (String.append l (String LF rest))
  = drop_cr (String.append cur l) :: lines_onto EmptyString rest.
Proof.
  revert cur. induction l as [|a l IH]; intros cur H; [by rewrite append_nil_r|].
  cbn [all_bytes] in H. apply andb_true_iff in H as [Ha%negb_true_iff Hl].
  cbn [String.append lines_onto]. by rewrite Ha, IH, append_assoc.
Qed.

(** A line that reads back as itself. *)
Definition plain_line (l : string) : Prop :=
  all_bytes (λ c, negb (Ascii.eqb c LF)) l = true ∧ drop_cr l = l.

Lemma str_lines_text ls : Forall plain_line ls → str_lines (text ls) = ls.
Proof.
  unfold str_lines. induction 1 as [|l ls [Hlf Hcr] Hls IH]; [done|].
  change (text (l :: ls)) with (String.append (end_line l) (text ls)).
  unfold end_line. rewrite append_assoc. cbn [String.append].
  rewrite lines_onto_line by done. cbn [String.append]. by rewrite Hcr, IH.
Qed.

Definition line_byte (c : ascii) : bool := ascii_graphic c || Ascii.eqb c space.

Lemma strip_suffix_other c d s :
  c ≠ d → strip_suffix_char c (String.append s (String d EmptyString)) = None.
Proof.
  intros Hne. induction s as [|a s IH]; cbn.
  - by destruct (Ascii.eqb_spec d c) as [->|].
  - destruct (String.append s (String d EmptyString)) as [|b t] eqn:E; [by destruct s|]. by rewrite IH.
Qed.

Lemma plain_bracket s :
  all_bytes line_byte s = true → plain_line (String.append s "]").
Proof.
  intros Hs. split; [|unfold drop_cr; by rewrite strip_suffix_other].
  rewrite all_bytes_append. rewrite andb_true_iff. split; [|done].
  revert Hs. apply all_bytes_impl. intros c.
  by destruct c as [[] [] [] [] [] [] [] []]; vm_compute.
Qed.

Lemma word_line_bytes w : word w → all_bytes line_byte w = true.
Proof.
  intros [_ H]. revert H. apply all_bytes_impl. unfold line_byte. by intros c ->.
Qed.

Lemma join_line_bytes ws : Forall word ws → all_bytes line_byte (join_with " " ws) = true.
Proof.
  induction 1 as [|w ws Hw Hws IH]; [done|]. destruct ws as [|v ws]; [by apply word_line_bytes|].
  change (join_with " " (w :: v :: ws))
    with (String.append w (String " " (join_with " " (v :: ws)))).
  rewrite all_bytes_append, word_line_bytes by done. cbn [all_bytes]. by rewrite IH.
Qed.

Lemma word_append k v : all_bytes ascii_graphic k = true → word v → word (String.append k v).
Proof.
  intros Hk [Hne Hv]. split; [by destruct k, v|]. by rewrite all_bytes_append, Hk, Hv.
Qed.

Lemma opt_field_words k valid o :
  all_bytes ascii_graphic k = true → (∀ v, valid v = true → word v) → opt_valid valid o →
  Forall word (opt_field k o).
Proof.
  intros Hk Hw Ho. destruct o as [v|]; cbn; [|constructor].
  apply Forall_singleton, word_append; auto.
Qed.

Lemma one_of_key_word k values v :
  all_bytes ascii_graphic k = true → forallb is_word values = true → one_of values v = true →
  word (String.append k v).
Proof. intros Hk Hv H. apply word_append; [done|]. by eapply one_of_word. Qed.

Lemma task_fields_words d : task_ok d → Forall word (task_fields d).
Proof.
  intros (H1 & H2 & H3 & H4 & H5 & H6 & H7 & H8). unfold task_fields.
  repeat first [apply Forall_app_2 | apply Forall_cons_2 | apply Forall_nil_2].
  - by refine (one_of_key_word _ _ _ _ _ H1).
  - by refine (opt_field_words _ _ _ _ error_code_word H2).
  - by refine (opt_field_words _ _ _ _ error_code_word H3).
  - by refine (one_of_key_word _ _ _ _ _ H4).
  - by refine (one_of_key_word _ _ _ _ _ H5).
  - by refine (one_of_key_word _ _ _ _ _ H6).
  - by refine (opt_field_words _ _ _ _ retry_at_word H7).
  - by refine (opt_field_words _ _ _ _ retry_after_word H8).
Qed.

Lemma safe_line_plain l : safe_line l → plain_line l.
Proof.
  destruct 1 as [| | |code Hc|code Hc|d Hd]; try done.
  - unfold adapter_error. rewrite <- append_assoc. apply plain_bracket.
    rewrite all_bytes_append. by rewrite (word_line_bytes code) by by apply error_code_word.
  - unfold process_exit. rewrite <- append_assoc. apply plain_bracket.
    rewrite all_bytes_append. by rewrite (word_line_bytes code) by by apply error_code_word.
  - unfold format_task. rewrite <- append_assoc. apply plain_bracket.
    rewrite all_bytes_append. by rewrite join_line_bytes by by apply task_fields_words.
Qed.

(** Reading back the fields of a diagnostic. *)
Lemma take_fields_task d :
  task_ok d →
  take_fields no_fields (task_fields d)
  = Some (mkTaskFields (Some (td_class d)) (td_code d) (td_exit_code d) (Some (td_action d))
            (Some (td_phase d)) (Some (td_rule d)) (td_retry_at d) (td_retry_after d)).
Proof.
  destruct d as [class code exit action phase rule at' after].
  intros (H1 & H2 & H3 & H4 & H5 & H6 & H7 & H8). cbn [td_class td_code td_exit_code td_action
    td_phase td_rule td_retry_at td_retry_after] in *.
  destruct code as [c|], exit as [e|], at' as [t|], after as [n|].
  all: repeat (progress cbn -[valid_task_class valid_task_action valid_task_phase valid_task_rule
             valid_error_code valid_retry_at valid_retry_after_seconds];
    rewrite ?H1, ?H4, ?H5, ?H6, ?(H2 _ eq_refl), ?(H3 _ eq_refl), ?(H7 _ eq_refl),
    ?(H8 _ eq_refl)).
  all: done.
Qed.

Lemma structured_task d :
  task_ok d → sanitized_structured_task_diagnostic (format_task d) = Some (format_task d).
Proof.
  intros Hd. unfold sanitized_structured_task_diagnostic.
  assert (strip_prefix "[CHILD TASK ERROR " (format_task d)
          = Some (String.append (join_with " " (task_fields d)) "]")) as ->
    by apply strip_prefix_append.
  cbn [mbind option_bind].
  rewrite strip_suffix_append. cbn [mbind option_bind].
  rewrite split_whitespace_join by by apply task_fields_words.
  rewrite bool_decide_eq_false_2 by by destruct d.
  rewrite take_fields_task by done. by destruct d.
Qed.

Lemma trim_wrapped a p s :
  ascii_graphic a = true →
  let t := String.append (String a p) (String.append s "]") in trim t = t.
Proof.
  intros Ha. cbn [String.append]. rewrite <- append_assoc. by apply trim_bracketed.
Qed.

(** A diagnostic is its own diagnostic. *)
Lemma redacted_lines_fixed l : safe_line l → redacted_lines l = [l].
Proof.
  intros Hl. unfold redacted_lines, diagnostic_lines.
  destruct Hl as [| | |code Hc|code Hc|d Hd].
  1-3: vm_compute; reflexivity.
  - assert (trim (adapter_error code) = adapter_error code) as ->.
    { by apply trim_wrapped. }
    assert (is_numbered (adapter_error code) = true) as ->.
    { unfold is_numbered, adapter_error. cbn [existsb]. rewrite strip_prefix_append.
      cbn [mbind option_bind]. rewrite strip_suffix_append. cbn. by rewrite Hc. }
    done.
  - assert (trim (process_exit code) = process_exit code) as ->.
    { by apply trim_wrapped. }
    assert (is_numbered (process_exit code) = true) as ->.
    { unfold is_numbered, process_exit. cbn [existsb]. rewrite (strip_prefix_append "[CHILD PROCESS EXIT code=").
      cbn [mbind option_bind]. rewrite strip_suffix_append. cbn. by rewrite Hc. }
    done.
  - assert (trim (format_task d) = format_task d) as ->.
    { by apply trim_wrapped. }
    by rewrite structured_task.
Qed.

Lemma redact_log_fixed t : safe_text t → redact_log t = t.
Proof.
  intros (ls & -> & Hls). rewrite redact_log_text.
  rewrite str_lines_text by (eapply Forall_impl; [exact Hls|apply safe_line_plain]).
  f_equal. induction Hls as [|l ls Hl Hls IH]; [done|]. cbn [flat_map].
  by rewrite redacted_lines_fixed, IH.
Qed.

(** ** Properties *)

(** C33: redaction confines a child's output. For every input, the redacted text is a
    sequence of lines each of which is one of the fixed markers, or a diagnostic whose
    every field passed its validator (error codes are 32-bit integers of at most 11
    bytes, classes, actions, phases and rules come from fixed lists, retry times are
    timestamps or at most 604800 seconds); and redacting it again changes nothing. *)
Theorem redaction_is_confined (input : string) :
  (∃ ls, redact_log input = text ls ∧ Forall safe_line ls)
  ∧ redact_log (redact_log input) = redact_log input.
Proof.
  split; [apply redact_log_safe|]. apply redact_log_fixed, redact_log_safe.
Qed.
