(* ===== verification/LogCapture.v ===== *)
(** * Log capture (src/src/supervisor.rs)
    The thread that drains a child's output stream, line by line with a bounded buffer,
    and the log file it appends to, which is rotated into numbered segments. The theorems
    relate the byte-by-byte drain to a line-wise specification and bound the files. *)
From stdpp Require Import base gmap strings list.
From Stdlib Require Import ZArith Lia Ascii String.
From S2P Require Import Prelude RustStr Diagnostics.

(** ** [String::from_utf8_lossy]
    Every maximal invalid piece becomes U+FFFD. *)
Definition REPLACEMENT : string := String (bt 239) (String (bt 191) (String (bt 189) EmptyString)).
Definition continuation (c : ascii) : bool := in_range 128 191 c.
Definition second_of_three (a b : ascii) : bool :=
  (in_range 224 224 a && in_range 160 191 b)
  || (in_range 225 236 a && continuation b)
  || (in_range 237 237 a && in_range 128 159 b)
  || (in_range 238 239 a && continuation b).
Definition second_of_four (a b : ascii) : bool :=
  (in_range 240 240 a && in_range 144 191 b)
  || (in_range 241 243 a && continuation b)
  || (in_range 244 244 a && in_range 128 143 b).

Fixpoint from_utf8_lossy (s : string) : string :=
  match s with
  | EmptyString => EmptyString
  | String a s1 =>
    if in_range 0 127 a then String a (from_utf8_lossy s1)
    else
    match s1 with
    | EmptyString => REPLACEMENT
    | String b s2 =>
      if in_range 194 223 a && continuation b then String a (String b (from_utf8_lossy s2))
      else if second_of_three a b then
        match s2 with
        | EmptyString => REPLACEMENT
        | String c s3 =>
          if continuation c then String a (String b (String c (from_utf8_lossy s3)))
          else String.append REPLACEMENT (from_utf8_lossy s2)
        end
      else if second_of_four a b then
        match s2 with
        | EmptyString => REPLACEMENT
        | String c s3 =>
          if continuation c then
            match s3 with
            | EmptyString => REPLACEMENT
            | String d s4 =>
              if continuation d then String a (String b (String c (String d (from_utf8_lossy s4))))
              else String.append REPLACEMENT (from_utf8_lossy s3)
            end
          else String.append REPLACEMENT (from_utf8_lossy s2)
        end
      else String.append REPLACEMENT (from_utf8_lossy s1)
    end
  end.

(** ** The drain
    [append] stands for [append_sanitized_log]: the log afterwards, and whether the call
    succeeded. *)
Definition MAX_DIAGNOSTIC_LINE_BYTES : Z := 4096.

Record DrainState := mkDrainState { dn_pending : string; dn_discarding : bool }.

(** One byte: the new state and what is appended, if anything. *)
Definition drain_byte (s : DrainState) (byte : ascii) : DrainState * option string :=
  if dn_discarding s then
    (mkDrainState (dn_pending s) (negb (Ascii.eqb byte LF)), None)
  else if Ascii.eqb byte LF then
    (mkDrainState EmptyString false, Some (redact_log (from_utf8_lossy (dn_pending s))))
  else if len (dn_pending s) <? MAX_DIAGNOSTIC_LINE_BYTES then
    (mkDrainState (String.append (dn_pending s) (String byte EmptyString)) false, None)
  else (mkDrainState EmptyString true, Some (end_line REDACTED)).

(** How a stream ends: closed, or a failed read. *)
Inductive StreamEnd := EndOfFile | ReadFailed.

Section Drain.
Context {L : Type} (append : L → string → L * bool).

(** The bytes of one read; [None] when the thread returned because an append failed. *)
Fixpoint drain_bytes (log : L) (s : DrainState) (bytes : string) : L * option DrainState :=
  match bytes with
  | EmptyString => (log, Some s)
  | String b bytes' =>
    let '(s, out) := drain_byte s b in
    match out with
    | None => drain_bytes log s bytes'
    | Some t =>
      let '(log, ok) := append log t in
      if ok then drain_bytes log s bytes' else (log, None)
    end
  end.

(** The reads, then the end of the stream. *)
Fixpoint drain_reads (log : L) (s : DrainState) (reads : list string) (e : StreamEnd) : L :=
  match reads with
  | [] =>
    match e with
    | EndOfFile =>
      if negb (dn_discarding s) && negb (str_is_empty (dn_pending s))
      then (append log (redact_log (from_utf8_lossy (dn_pending s)))).1 else log
    | ReadFailed => log
    end
  | r :: reads' =>
    let '(log, s) := drain_bytes log s r in
    match s with Some s => drain_reads log s reads' e | None => log end
  end.

Definition spawn_log_drain (log : L) (reads : list string) (e : StreamEnd) : L :=
  drain_reads log (mkDrainState EmptyString false) reads e.

(** Appending in order until a call fails. *)
Fixpoint append_all (log : L) (ts : list string) : L :=
  match ts with
  | [] => log
  | t :: ts' => let '(log, ok) := append log t in if ok then append_all log ts' else log
  end.

End Drain.

(** ** The log file
    [path], its metadata file, and the rotated segments with theirs. *)
Record LogProvenance := mkLogProvenance {
  lp_stream : string; lp_launch_id : string; lp_pid : option Z; lp_generation : string;
  lp_started_at_unix_ms : Z; lp_ended_at_unix_ms : option Z;
  lp_captured_bytes : Z; lp_stored_bytes : Z; lp_truncated_bytes : Z; lp_dropped_bytes : Z;
  lp_redaction : string
}.

(** A metadata file that parses, or one that does not. *)
Inductive MetaFile := Provenance (p : LogProvenance) | Unparsed (bytes : string).

Record LogFiles := mkLogFiles {
  lf_current : string;
  lf_meta : option MetaFile;
  lf_segments : gmap nat string;
  lf_segment_meta : gmap nat MetaFile
}.

(** The loop that looks for a free segment number. *)
Fixpoint free_segment (fuel : nat) (segments : gmap nat string) (segment : nat) : option nat :=
  match fuel with
  | O => None
  | S fuel => match segments !! segment with
              | None => Some segment
              | Some _ => free_segment fuel segments (S segment)
              end
  end.

Definition provenance_of (m : option MetaFile) : option LogProvenance :=
  match m with Some (Provenance p) => Some p | _ => None end.

Definition restarted (now : Z) (p : LogProvenance) : LogProvenance :=
  mkLogProvenance (lp_stream p) (lp_launch_id p) (lp_pid p) (lp_generation p) now None 0 0 0 0
    (lp_redaction p).

Definition rotate (now : Z) (f : LogFiles) : option LogFiles :=
  segment ← free_segment (S (size (lf_segments f))) (lf_segments f) 0;
  Some (mkLogFiles EmptyString
          (Provenance ∘ restarted now <$> provenance_of (lf_meta f))
          (<[segment := lf_current f]> (lf_segments f))
          (match lf_meta f with
           | Some m => <[segment := m]> (lf_segment_meta f)
           | None => lf_segment_meta f
           end)).

Definition count_bytes (captured stored truncated dropped : Z) (p : LogProvenance) : LogProvenance :=
  mkLogProvenance (lp_stream p) (lp_launch_id p) (lp_pid p) (lp_generation p)
    (lp_started_at_unix_ms p) (lp_ended_at_unix_ms p)
    (u64_saturating_add (lp_captured_bytes p) captured)
    (u64_saturating_add (lp_stored_bytes p) stored)
    (u64_saturating_add (lp_truncated_bytes p) truncated)
    (u64_saturating_add (lp_dropped_bytes p) dropped) (lp_redaction p).

Definition update_log_provenance (captured stored truncated dropped : Z) (m : option MetaFile)
    : option MetaFile :=
  match m with
  | Some (Provenance p) => Some (Provenance (count_bytes captured stored truncated dropped p))
  | _ => m
  end.

(** [&sanitized[sanitized.len() - keep..]] *)
Definition last_bytes (keep : Z) (s : string) : string :=
  substring (String.length s - Z.to_nat keep) (Z.to_nat keep) s.

(** Without input/output errors; [now] is the clock a rotation reads. *)
Definition append_sanitized_log (now max_bytes : Z) (f : LogFiles) (sanitized : string)
    : option LogFiles :=
  f ← (if max_bytes <? u64_saturating_add (len (lf_current f)) (len sanitized)
       then rotate now f else Some f);
  let keep := Z.min max_bytes (len sanitized) in
  Some (mkLogFiles (String.append (lf_current f) (last_bytes keep sanitized))
          (update_log_provenance (len sanitized) keep (len sanitized - keep) 0 (lf_meta f))
          (lf_segments f) (lf_segment_meta f)).

(** [read_log_tail]: the end of the file, redacted again. *)
Definition read_log_tail (max_read_bytes : Z) (file : option string) : string :=
  match file with
  | None => EmptyString
  | Some bytes => redact_log (from_utf8_lossy (last_bytes (Z.min max_read_bytes (len bytes)) bytes))
  end.

(** ** The line-wise specification *)
(** What is appended for one line of the stream. *)
Definition captured_line (l : string) : string :=
  if len l <=? MAX_DIAGNOSTIC_LINE_BYTES then redact_log (from_utf8_lossy l) else end_line REDACTED.

(** The text after the last line feed is appended if the stream was closed and it is not
    empty; overlong, it is reported as soon as it is. *)
Definition captured_rest (e : StreamEnd) (l : string) : list string :=
  match e with
  | EndOfFile => if str_is_empty l then [] else [captured_line l]
  | ReadFailed => if len l <=? MAX_DIAGNOSTIC_LINE_BYTES then [] else [captured_line l]
  end.

Fixpoint captured_pieces (e : StreamEnd) (pieces : list string) : list string :=
  match pieces with
  | [] => []
  | [l] => captured_rest e l
  | l :: pieces' => captured_line l :: captured_pieces e pieces'
  end.
Definition captured (e : StreamEnd) (stream : string) : list string :=
  captured_pieces e (split_char LF stream).

(** ** The drain implements the specification *)
(** What a state still appends at the end of the stream, and for bytes to come. *)
Definition finish (e : StreamEnd) (s : DrainState) : list string :=
  match e with
  | EndOfFile => if negb (dn_discarding s) && negb (str_is_empty (dn_pending s))
                 then [redact_log (from_utf8_lossy (dn_pending s))] else []
  | ReadFailed => []
  end.
Fixpoint emitted (e : StreamEnd) (s : DrainState) (bytes : string) : list string :=
  match bytes with
  | EmptyString => finish e s
  | String b bytes' =>
    let '(s, out) := drain_byte s b in
    match out with Some t => t :: emitted e s bytes' | None => emitted e s bytes' end
  end.

Lemma drain_bytes_emitted {L} (append : L → string → L * bool) e s r rest log :
  append_all append log (emitted e s (String.append r rest))
  = let '(log', s') := drain_bytes append log s r in
    match s' with
    | Some s' => append_all append log' (emitted e s' rest)
    | None => log'
    end.
Proof.
  revert log s. induction r as [|b r IH]; intros log s; [done|].
  cbn [String.append emitted drain_bytes]. destruct (drain_byte s b) as [s' [t|]]; [|apply IH].
  cbn [append_all]. destruct (append log t) as [log' []]; [apply IH|done].
Qed.

Lemma drain_reads_emitted {L} (append : L → string → L * bool) e s reads log :
  drain_reads append log s reads e = append_all append log (emitted e s (cat reads)).
Proof.
  revert log s. induction reads as [|r reads IH]; intros log s.
  - cbn. destruct e; cbn; [|done]. destruct (negb _ && negb _); [|done]. cbn.
    by destruct (append log _) as [log' []].
  - cbn [drain_reads]. change (cat (r :: reads)) with (String.append r (cat reads)).
    rewrite drain_bytes_emitted. destruct (drain_bytes append log s r) as [log' [s'|]]; [apply IH|done].
Qed.

Lemma contains_char_snoc c s b :
  contains_char c s = false → Ascii.eqb b c = false →
  contains_char c (String.append s (String b EmptyString)) = false.
Proof.
  intros Hs Hb. rewrite contains_char_append, Hs. unfold contains_char. cbn.
  by rewrite Ascii.eqb_sym, Hb.
Qed.

Lemma captured_line_feed e l rest :
  contains_char LF l = false →
  captured e (String.append l (String LF rest)) = captured_line l :: captured e rest.
Proof.
  intros Hl. unfold captured. rewrite split_char_cons by done.
  destruct (split_char LF rest) as [|x xs] eqn:E; [|done].
  destruct rest as [|a rest]; [done|]. cbn in E. destruct (Ascii.eqb a LF); [done|].
  by destruct (split_char LF rest).
Qed.

Lemma captured_last e l : contains_char LF l = false → captured e l = captured_rest e l.
Proof. intros Hl. unfold captured. by rewrite split_char_free. Qed.

Lemma len_snoc s b : len (String.append s (String b EmptyString)) = len s + 1.
Proof. apply len_append. Qed.

Lemma append_snoc s b rest :
  String.append s (String b rest) = String.append (String.append s (String b EmptyString)) rest.
Proof. by rewrite append_assoc. Qed.

(** In the middle of a line, and after an overlong one. *)
Lemma emitted_captured e bytes :
  (∀ p, contains_char LF p = false → len p ≤ MAX_DIAGNOSTIC_LINE_BYTES →
        emitted e (mkDrainState p false) bytes = captured e (String.append p bytes))
  ∧ (∀ l, contains_char LF l = false → MAX_DIAGNOSTIC_LINE_BYTES < len l →
        end_line REDACTED :: emitted e (mkDrainState EmptyString true) bytes
        = captured e (String.append l bytes)).
Proof.
  induction bytes as [|b bytes [IHp IHl]]; split; intros p Hp Hlen.
  - rewrite append_nil_r, captured_last by done. destruct e; cbn; unfold captured_line.
    + destruct (str_is_empty p); [done|]. cbn. by rewrite (proj2 (Z.leb_le _ _)).
    + by rewrite (proj2 (Z.leb_le _ _)).
  - rewrite append_nil_r, captured_last by done.
    destruct e; cbn; unfold captured_line; rewrite (proj2 (Z.leb_gt _ _)) by done; [|done].
    destruct p; [by vm_compute in Hlen|done].
  - cbn [emitted]. unfold drain_byte. cbn [dn_discarding dn_pending].
    destruct (Ascii.eqb b LF) eqn:Eb.
    + apply Ascii.eqb_eq in Eb as ->. rewrite captured_line_feed by done.
      rewrite IHp by done. unfold captured_line.
      by rewrite (proj2 (Z.leb_le _ _)).
    + rewrite (append_snoc p b bytes). pose proof (len_snoc p b) as Hs.
      destruct (Z.ltb_spec (len p) MAX_DIAGNOSTIC_LINE_BYTES).
      * apply IHp; [by apply contains_char_snoc|lia].
      * apply IHl; [by apply contains_char_snoc|lia].
  - cbn [emitted]. unfold drain_byte. cbn [dn_discarding dn_pending].
    destruct (Ascii.eqb b LF) eqn:Eb; cbn [negb].
    + apply Ascii.eqb_eq in Eb as ->. rewrite captured_line_feed, IHp by done.
      unfold captured_line. by rewrite (proj2 (Z.leb_gt _ _)).
    + rewrite (append_snoc p b bytes). apply IHl; [by apply contains_char_snoc|].
      rewrite len_snoc. lia.
Qed.

Lemma spawn_log_drain_captured {L} (append : L → string → L * bool) log reads e :
  spawn_log_drain append log reads e = append_all append log (captured e (cat reads)).
Proof.
  unfold spawn_log_drain. rewrite drain_reads_emitted. f_equal.
  by apply (proj1 (emitted_captured e (cat reads)) EmptyString).
Qed.

Lemma captured_line_safe l : safe_text (captured_line l).
Proof.
  unfold captured_line. destruct (_ <=? _); [apply redact_log_safe|].
  exists [REDACTED]. split; [done|]. repeat constructor.
Qed.

Lemma captured_safe e stream : Forall safe_text (captured e stream).
Proof.
  unfold captured. induction (split_char LF stream) as [|l pieces IH]; [constructor|].
  destruct pieces as [|m pieces].
  - cbn. destruct e; cbn; destruct (_ : bool); repeat constructor; apply captured_line_safe.
  - cbn [captured_pieces] in *. constructor; [apply captured_line_safe|exact IH].
Qed.

(** ** Rotation *)
Lemma free_segment_None fuel segments k :
  free_segment fuel segments k = None → ∀ i, (k ≤ i < k + fuel)%nat → is_Some (segments !! i).
Proof.
  revert k. induction fuel as [|fuel IH]; intros k H i Hi; [lia|]. cbn in H.
  destruct (segments !! k) as [c|] eqn:E; [|done].
  destruct (decide (i = k)) as [->|]; [by exists c|]. apply (IH _ H). lia.
Qed.

Lemma free_segment_Some fuel segments k n :
  free_segment fuel segments k = Some n →
  (k ≤ n)%nat ∧ segments !! n = None ∧ ∀ i, (k ≤ i < n)%nat → is_Some (segments !! i).
Proof.
  revert k. induction fuel as [|fuel IH]; intros k H; [done|]. cbn in H.
  destruct (segments !! k) as [c|] eqn:E.
  - apply IH in H as (Hk & Hn & Hi). split_and!; [lia|done|]. intros i Hki.
    destruct (decide (i = k)) as [->|]; [by exists c|]. apply Hi. lia.
  - injection H as <-. split_and!; [lia|done|lia].
Qed.

(** The search ends: among one more number than there are segments, one is free. *)
Lemma free_segment_total segments :
  is_Some (free_segment (S (size segments)) segments 0).
Proof.
  destruct (free_segment _ _ _) as [n|] eqn:E; [by exists n|].
  assert (set_seq 0 (S (size segments)) ⊆ dom segments) as Hsub.
  { intros i Hi%elem_of_set_seq. apply elem_of_dom.
    apply (free_segment_None _ _ _ E). lia. }
  apply subseteq_size in Hsub. rewrite size_set_seq, size_dom in Hsub. lia.
Qed.

(** The rotated segments are [segs], in order, numbered from 0. *)
Definition segments_are (f : LogFiles) (segs : list string) : Prop :=
  ∀ i, lf_segments f !! i = segs !! i.

Lemma rotate_segments now f segs :
  segments_are f segs →
  ∃ f', rotate now f = Some f' ∧ lf_current f' = EmptyString
        ∧ segments_are f' (segs ++ [lf_current f]).
Proof.
  intros Hs. unfold rotate. destruct (free_segment_total (lf_segments f)) as [n En].
  rewrite En. cbn [mbind option_bind]. eexists. split_and!; [done|done|].
  apply free_segment_Some in En as (_ & Hn & Hi).
  assert (n = List.length segs) as ->.
  { rewrite Hs in Hn. apply lookup_ge_None in Hn.
    destruct (decide (n = List.length segs)) as [|Hne]; [done|].
    destruct (Hi (List.length segs)) as [c Hc]; [lia|]. rewrite Hs in Hc.
    apply lookup_lt_Some in Hc. lia. }
  intros i. cbn. destruct (decide (i = List.length segs)) as [->|Hne].
  - by rewrite lookup_insert_eq, lookup_app_r, Nat.sub_diag.
  - rewrite lookup_insert_ne, Hs by done.
    destruct (decide (i < List.length segs)%nat); [by rewrite lookup_app_l|].
    rewrite lookup_app_r by lia. rewrite lookup_ge_None_2 by lia.
    symmetry. apply lookup_ge_None_2. cbn. lia.
Qed.

Lemma substring_all s n : n = String.length s → substring 0 n s = s.
Proof. intros ->. induction s as [|c s IH]; cbn; [done|]. by rewrite IH. Qed.

Lemma last_bytes_all s : last_bytes (len s) s = s.
Proof.
  unfold last_bytes, len. rewrite Nat2Z.id, Nat.sub_diag. by apply substring_all.
Qed.

(** A log holding the texts [ts]: they fill the segments and the current file in order,
    each whole, and no file is larger than allowed. *)
Definition holds_texts (max_bytes : Z) (f : LogFiles) (ts : list string) : Prop :=
  ∃ groups last,
    segments_are f (cat <$> groups) ∧ lf_current f = cat last
    ∧ ts = mjoin groups ++ last
    ∧ Forall (λ g, len (cat g) ≤ max_bytes) groups ∧ len (cat last) ≤ max_bytes.

Lemma append_holds now max_bytes f ts t :
  0 ≤ max_bytes < u64_max → len t ≤ max_bytes → holds_texts max_bytes f ts →
  ∃ f', append_sanitized_log now max_bytes f t = Some f' ∧ holds_texts max_bytes f' (ts ++ [t]).
Proof.
  intros Hmax Ht (groups & last & Hseg & Hcur & -> & Hg & Hl). unfold append_sanitized_log.
  rewrite (Z.min_r max_bytes) by done. rewrite last_bytes_all.
  pose proof (len_nonneg (lf_current f)). pose proof (len_nonneg t).
  destruct (Z.ltb_spec max_bytes (u64_saturating_add (len (lf_current f)) (len t))) as [Hbig|Hsmall].
  - destruct (rotate_segments now f _ Hseg) as (f1 & -> & Hc1 & Hs1). cbn [mbind option_bind].
    eexists. split; [done|]. exists (groups ++ [last]), [t].
    unfold segments_are in *. cbn [lf_current lf_segments]. rewrite Hc1. cbn.
    rewrite append_nil_r, fmap_app. split_and!; [intros i; by rewrite Hs1, Hcur|done| |
      apply Forall_app_2; [done|by apply Forall_singleton]|done].
    rewrite join_app. cbn. by rewrite app_nil_r.
  - cbn [mbind option_bind]. eexists. split; [done|]. exists groups, (last ++ [t]).
    unfold segments_are in *. cbn [lf_current lf_segments]. rewrite Hcur, cat_app. cbn.
    rewrite append_nil_r. split_and!; [done|done|by rewrite app_assoc|done|].
    rewrite len_append, <- Hcur. unfold u64_saturating_add in Hsmall. lia.
Qed.

Section Capture.
Context (clock : LogFiles → Z) (max_bytes : Z).

(** [append_sanitized_log] as the drain calls it. *)
Definition append_to_log (f : LogFiles) (t : string) : LogFiles * bool :=
  match append_sanitized_log (clock f) max_bytes f t with
  | Some f' => (f', true)
  | None => (f, false)
  end.

Lemma append_all_holds f ts us :
  0 ≤ max_bytes < u64_max → Forall (λ t, len t ≤ max_bytes) us → holds_texts max_bytes f ts →
  holds_texts max_bytes (append_all append_to_log f us) (ts ++ us).
Proof.
  intros Hmax Hus. revert f ts. induction Hus as [|t us Ht Hus IH]; intros f ts Hf.
  - by rewrite app_nil_r.
  - cbn [append_all]. unfold append_to_log at 1.
    destruct (append_holds (clock f) max_bytes f ts t Hmax Ht Hf) as (f' & -> & Hf').
    specialize (IH f' _ Hf'). by rewrite <- app_assoc in IH.
Qed.
End Capture.

Definition empty_log : LogFiles := mkLogFiles EmptyString None ∅ ∅.

Lemma empty_log_holds max_bytes : 0 ≤ max_bytes → holds_texts max_bytes empty_log [].
Proof. intros H. by exists [], []. Qed.

Lemma safe_text_app a b : safe_text a → safe_text b → safe_text (String.append a b).
Proof.
  intros (la & -> & Ha) (lb & -> & Hb). exists (la ++ lb). rewrite text_app.
  split; [done|]. by apply Forall_app_2.
Qed.

Lemma safe_text_cat ts : Forall safe_text ts → safe_text (cat ts).
Proof.
  induction 1 as [|t ts Ht Hts IH]; [by exists []|]. by apply (safe_text_app t (cat ts)).
Qed.

(** Files that hold safe texts are safe texts. *)
Lemma holds_safe max_bytes f ts :
  holds_texts max_bytes f ts → Forall safe_text ts →
  safe_text (lf_current f) ∧ (∀ i s, lf_segments f !! i = Some s → safe_text s)
  ∧ len (lf_current f) ≤ max_bytes ∧ (∀ i s, lf_segments f !! i = Some s → len s ≤ max_bytes).
Proof.
  intros (groups & last & Hseg & -> & -> & Hg & Hl) Hts. apply Forall_app in Hts as [Hts Hlast].
  assert (∀ i s, lf_segments f !! i = Some s → ∃ g, s = cat g ∧ groups !! i = Some g) as Hi.
  { intros i s. rewrite Hseg, list_lookup_fmap. destruct (groups !! i) as [g|]; [|done].
    intros [= <-]. by exists g. }
  split_and!; [by apply safe_text_cat| |done|].
  - intros i s (g & -> & Hg')%Hi. apply safe_text_cat. rewrite Forall_forall in Hts |- *.
    intros x Hx. apply Hts. apply list_elem_of_join. exists g. split; [done|].
    by eapply list_elem_of_lookup_2.
  - intros i s (g & -> & Hg')%Hi. by eapply (Forall_lookup_1 _ groups i) in Hg.
Qed.

(** ** Properties *)

(** C34: the drain captures a child's output line by line. However the stream is cut into
    reads and whatever appending to the log does (a failed append ends the capture), the
    drain appends, in order, one redacted text per line of the stream: a line of at most
    4096 bytes is decoded and redacted, a longer one is replaced by the marker, and an
    unterminated last line is included when the stream closes. Every text it appends
    consists of safe lines, and so does whatever [read_log_tail] reads back from a file,
    wherever the tail is cut. *)
Theorem drain_captures_lines {L : Type} (append : L → string → L * bool) (log : L)
    (reads : list string) (e : StreamEnd) :
  spawn_log_drain append log reads e = append_all append log (captured e (cat reads))
  ∧ Forall safe_text (captured e (cat reads))
  ∧ ∀ max_read_bytes file, safe_text (read_log_tail max_read_bytes file).
Proof.
  split; [apply spawn_log_drain_captured|]. split; [apply captured_safe|].
  intros max_read_bytes [bytes|]; [apply redact_log_safe|by exists []].
Qed.

(** A child's log is complete and bounded. Draining a stream into an empty log, with
    every captured text within the size limit, leaves the captured texts, whole and in
    order, in the segments numbered from 0 and then the current file; no file exceeds the
    limit, and each file holds only safe lines. *)
Theorem captured_log_is_complete (clock : LogFiles → Z) (max_bytes : Z) (reads : list string)
    (e : StreamEnd) :
  0 ≤ max_bytes < u64_max →
  Forall (λ t, len t ≤ max_bytes) (captured e (cat reads)) →
  let f := spawn_log_drain (append_to_log clock max_bytes) empty_log reads e in
  (∃ groups last, segments_are f (cat <$> groups) ∧ lf_current f = cat last
     ∧ captured e (cat reads) = mjoin groups ++ last)
  ∧ safe_text (lf_current f) ∧ (∀ i s, lf_segments f !! i = Some s → safe_text s)
  ∧ len (lf_current f) ≤ max_bytes ∧ (∀ i s, lf_segments f !! i = Some s → len s ≤ max_bytes).
Proof.
  intros Hmax Hts f. assert (holds_texts max_bytes f (captured e (cat reads))) as Hf.
  { unfold f. rewrite spawn_log_drain_captured. apply (append_all_holds _ _ empty_log []); try done.
    apply empty_log_holds. lia. }
  split; [|by eapply holds_safe; [|apply captured_safe]].
  destruct Hf as (groups & last & Hseg & Hcur & Hts' & _). by exists groups, last.
Qed.

(** A stream with a secret, an error with a code, and an unterminated line, in two reads
    that cut a line; 30 bytes a file. *)
Definition sample_reads : list string :=
  [String.append "token=abc" (String.append (String LF EmptyString) "process has exited with");
   String.append " code 3" (String LF "rest")].

Lemma captured_log_is_complete_witness :
  captured EndOfFile (cat sample_reads)
    = [end_line REDACTED; end_line (process_exit "3"); end_line REDACTED]
  ∧ lf_segments (spawn_log_drain (append_to_log (λ _, 0) 30) empty_log sample_reads EndOfFile) !! 1%nat
    = Some (end_line (process_exit "3"))
  ∧ len (lf_current (spawn_log_drain (append_to_log (λ _, 0) 30) empty_log sample_reads EndOfFile)) ≤ 30.
Proof.
  assert (captured EndOfFile (cat sample_reads)
    = [end_line REDACTED; end_line (process_exit "3"); end_line REDACTED]) as E
    by (vm_compute; reflexivity).
  split; [exact E|]. split; [vm_compute; reflexivity|].
  refine (proj1 (proj2 (proj2 (proj2
    (captured_log_is_complete (λ _, 0) 30 sample_reads EndOfFile _ _))))).
  - unfold u64_max. lia.
  - rewrite E. repeat constructor; vm_compute; discriminate.
Defined.
