(* ===== verification/Sha256.v ===== *)
(** * SHA-256 (provider_discovery.rs)
    The hash that identifies a provider executable: [compress] and [sha256_reader] as the
    source writes them (a message schedule updated in place, a pending buffer filled by
    reads of any size), against the hash of FIPS 180-4 on the whole message. *)
From Stdlib Require Import ZArith Lia String Ascii.
From stdpp Require Import base list strings.
From S2P Require Import Prelude RustStr Bytes.
#[local] Open Scope Z_scope.

(** ** 32-bit words *)
Definition w32 (x : Z) : Z := Z.land x (Z.ones 32).
Definition wrapping_add (x y : Z) : Z := w32 (x + y).
Definition rotate_right (x n : Z) : Z := w32 (Z.lor (Z.shiftr x n) (Z.shiftl x (32 - n))).
Definition not32 (x : Z) : Z := Z.lxor x (Z.ones 32).

Definition INITIAL : list Z :=
  [0x6a09e667; 0xbb67ae85; 0x3c6ef372; 0xa54ff53a; 0x510e527f; 0x9b05688c; 0x1f83d9ab;
   0x5be0cd19].
(** The table of the source, in decimal. *)
Definition K : list Z :=
  [1116352408; 1899447441; 3049323471; 3921009573; 961987163; 1508970993; 2453635748;
   2870763221; 3624381080; 310598401; 607225278; 1426881987; 1925078388; 2162078206;
   2614888103; 3248222580; 3835390401; 4022224774; 264347078; 604807628; 770255983; 1249150122;
   1555081692; 1996064986; 2554220882; 2821834349; 2952996808; 3210313671; 3336571891;
   3584528711; 113926993; 338241895; 666307205; 773529912; 1294757372; 1396182291; 1695183700;
   1986661051; 2177026350; 2456956037; 2730485921; 2820302411; 3259730800; 3345764771;
   3516065817; 3600352804; 4094571909; 275423344; 430227734; 506948616; 659060556; 883997877;
   958139571; 1322822218; 1537002063; 1747873779; 1955562222; 2024104815; 2227730452;
   2361852424; 2428436474; 2756734187; 3204031479; 3329325298].

(** [array[index]], always in range where it is used. *)
Definition at_ (l : list Z) (i : nat) : Z := nth i l 0.

(** ** [compress]: the message schedule, the rounds, the feed-forward *)
Definition first_words (block : list Z) : list Z :=
  map from_be_bytes (take 16 (chunks_exact 4 block)).

Definition load_words (block : list Z) : list Z :=
  fst (fold_left
         (λ '(words, index) word, (<[index:=word]> words, S index))
         (first_words block) (replicate 64 0, O)).

Definition schedule_word (words : list Z) (index : nat) : Z :=
  let s0 := Z.lxor (Z.lxor (rotate_right (at_ words (index - 15)) 7)
                           (rotate_right (at_ words (index - 15)) 18))
                   (Z.shiftr (at_ words (index - 15)) 3) in
  let s1 := Z.lxor (Z.lxor (rotate_right (at_ words (index - 2)) 17)
                           (rotate_right (at_ words (index - 2)) 19))
                   (Z.shiftr (at_ words (index - 2)) 10) in
  wrapping_add (wrapping_add (wrapping_add (at_ words (index - 16)) s0)
                             (at_ words (index - 7))) s1.

Definition extend_words (words : list Z) : list Z :=
  fold_left (λ words index, <[index:=schedule_word words index]> words) (seq 16 48) words.

Record Regs : Type :=
  mkRegs { ra : Z; rb : Z; rc : Z; rd : Z; re : Z; rf : Z; rg : Z; rh : Z }.

Definition round (words : list Z) (r : Regs) (index : nat) : Regs :=
  let '(mkRegs a b c d e f g h) := r in
  let sum1 := Z.lxor (Z.lxor (rotate_right e 6) (rotate_right e 11)) (rotate_right e 25) in
  let choice := Z.lxor (Z.land e f) (Z.land (not32 e) g) in
  let temp1 := wrapping_add (wrapping_add (wrapping_add (wrapping_add h sum1) choice)
                                          (at_ K index)) (at_ words index) in
  let sum0 := Z.lxor (Z.lxor (rotate_right a 2) (rotate_right a 13)) (rotate_right a 22) in
  let majority := Z.lxor (Z.lxor (Z.land a b) (Z.land a c)) (Z.land b c) in
  let temp2 := wrapping_add sum0 majority in
  mkRegs (wrapping_add temp1 temp2) a b c (wrapping_add d temp1) e f g.

Definition regs_of (state : list Z) : Regs :=
  mkRegs (at_ state 0) (at_ state 1) (at_ state 2) (at_ state 3)
         (at_ state 4) (at_ state 5) (at_ state 6) (at_ state 7).
Definition regs_list (r : Regs) : list Z :=
  [ra r; rb r; rc r; rd r; re r; rf r; rg r; rh r].

Definition compress (state block : list Z) : list Z :=
  let words := extend_words (load_words block) in
  let r := fold_left (round words) (seq 0 64) (regs_of state) in
  zip_with wrapping_add state (regs_list r).

(** ** [sha256_reader] *)
Record Hasher : Type := mkHasher { h_state : list Z; h_pending : list Z; h_total : Z }.

Definition too_large : IoError := mkIoError InvalidData "provider is too large".
Definition u64_checked_add (a b : Z) : option Z :=
  if a + b <=? u64_max then Some (a + b) else None.
Definition u64_checked_mul (a b : Z) : option Z :=
  if a * b <=? u64_max then Some (a * b) else None.

(** One read: count the bytes, append them, consume the complete blocks. *)
Definition absorb (h : Hasher) (bytes : list Z) : result IoError Hasher :=
  let? total := ok_or too_large (u64_checked_add (h_total h) (Z.of_nat (length bytes))) in
  let pending := h_pending h ++ bytes in
  let complete := (length pending / 64 * 64)%nat in
  let state := fold_left compress (chunks_exact 64 (take complete pending)) (h_state h) in
  Ok (mkHasher state (drop complete pending) total).

Fixpoint read_loop (h : Hasher) (reader : Reader) : result IoError Hasher :=
  match reader with
  | [] => Ok h
  | Err e :: _ => Err e
  | Ok [] :: _ => Ok h
  | Ok bytes :: reader => let? h := absorb h bytes in read_loop h reader
  end.

(** [while pending.len() % 64 != 56 { pending.push(0) }], at most 64 turns. *)
Fixpoint pad_loop (fuel : nat) (pending : list Z) : option (list Z) :=
  if (length pending mod 64 =? 56)%nat then Some pending
  else match fuel with
       | O => None
       | S fuel => pad_loop fuel (pending ++ [0])
       end.

Definition digest_bytes (state : list Z) : list Z := flat_map (to_be_bytes 4) state.

Definition finish_digest (h : Hasher) : result IoError (option (list Z)) :=
  let? bit_length := ok_or too_large (u64_checked_mul (h_total h) 8) in
  Ok (match pad_loop 63 (h_pending h ++ [0x80]) with
      | None => None
      | Some pending =>
        let pending := pending ++ to_be_bytes 8 bit_length in
        Some (digest_bytes (fold_left compress (chunks_exact 64 pending) (h_state h)))
      end).

(** [None] would mean that the padding loop had not ended. *)
Definition sha256_reader (reader : Reader) : result IoError (option (list Z)) :=
  let? h := read_loop (mkHasher INITIAL [] 0) reader in finish_digest h.

Definition HEX : string := "0123456789abcdef".
Definition hex_nibble (n : Z) : ascii :=
  match String.get (Z.to_nat n) HEX with Some c => c | None => "0"%char end.
Fixpoint hex_digest (digest : list Z) : string :=
  match digest with
  | [] => EmptyString
  | byte :: digest =>
    String (hex_nibble (Z.shiftr byte 4)) (String (hex_nibble (Z.land byte 15)) (hex_digest digest))
  end.

(** ** The reference: FIPS 180-4 on a whole message *)
(** The schedule W, one word at a time after the sixteen words of the block. *)
Fixpoint schedule_from (n : nat) (words : list Z) : list Z :=
  match n with
  | O => words
  | S n => schedule_from n (words ++ [schedule_word words (length words)])
  end.
Definition schedule (block : list Z) : list Z :=
  schedule_from 48 (map from_be_bytes (blocks 4 16 block)).

Definition hash_block (state block : list Z) : list Z :=
  zip_with wrapping_add state
    (regs_list (fold_left (round (schedule block)) (seq 0 64) (regs_of state))).

(** The message, a one bit, the least number of zeros that leaves room for the bit length
    in the last block, and the bit length. *)
Definition pad (m : list Z) : list Z :=
  m ++ [0x80] ++ replicate (Z.to_nat ((55 - Z.of_nat (length m)) mod 64)) 0
    ++ to_be_bytes 8 (8 * Z.of_nat (length m)).

Definition sha256 (m : list Z) : list Z :=
  digest_bytes (fold_left hash_block (chunks_exact 64 (pad m)) INITIAL).

(** ** The schedule updated in place is the schedule of the standard *)
Lemma at_app_l l m i : (i < length l)%nat → at_ (l ++ m) i = at_ l i.
Proof. intros Hi. unfold at_. by apply app_nth1. Qed.

Lemma schedule_word_app words rest i :
  (16 ≤ i ≤ length words)%nat → schedule_word (words ++ rest) i = schedule_word words i.
Proof. intros Hi. unfold schedule_word. by rewrite !at_app_l by lia. Qed.

Lemma insert_after (l rest : list Z) x y : <[length l:=x]> (l ++ y :: rest) = (l ++ [x]) ++ rest.
Proof. rewrite insert_app_r_alt by done. by rewrite Nat.sub_diag, <- app_assoc. Qed.

Lemma load_words_prefix l pre n :
  fst (fold_left (λ '(words, index) word, (<[index:=word]> words, S index))
         l (pre ++ replicate (length l + n) 0, length pre)) = pre ++ l ++ replicate n 0.
Proof.
  revert pre. induction l as [|x l IH]; intros pre; cbn [fold_left length Nat.add]; [done|].
  rewrite replicate_S, insert_after.
  replace (S (length pre)) with (length (pre ++ [x])) by (rewrite length_app; cbn; lia).
  rewrite IH. by rewrite <- app_assoc.
Qed.

Lemma length_first_words block : length block = 64%nat → length (first_words block) = 16%nat.
Proof.
  intros Hl. unfold first_words, chunks_exact. rewrite Hl.
  by rewrite length_map, length_take, length_blocks.
Qed.

Lemma load_words_spec block :
  length block = 64%nat → load_words block = first_words block ++ replicate 48 0.
Proof.
  intros Hl. pose proof (load_words_prefix (first_words block) [] 48) as H.
  rewrite length_first_words in H by done. exact H.
Qed.

Lemma extend_words_spec n words :
  (16 ≤ length words)%nat →
  fold_left (λ words index, <[index:=schedule_word words index]> words)
    (seq (length words) n) (words ++ replicate n 0) = schedule_from n words.
Proof.
  revert words. induction n as [|n IH]; intros words Hw; cbn [seq fold_left schedule_from].
  - by rewrite app_nil_r.
  - rewrite replicate_S, insert_after, schedule_word_app by lia.
    replace (S (length words)) with
      (length (words ++ [schedule_word words (length words)])) by (rewrite length_app; cbn; lia).
    apply IH. rewrite length_app. cbn. lia.
Qed.

Lemma compress_is_hash_block state block :
  length block = 64%nat → compress state block = hash_block state block.
Proof.
  intros Hl. unfold compress, hash_block. do 4 f_equal.
  rewrite load_words_spec by done. unfold extend_words.
  pose proof (length_first_words block Hl) as Hw.
  rewrite <- Hw at 1.
  rewrite extend_words_spec by lia. unfold schedule. f_equal.
  unfold first_words, chunks_exact. rewrite Hl. by rewrite take_ge by (by rewrite length_blocks).
Qed.

(** ** Block-wise processing does not depend on how the input is cut *)
Lemma blocks_take n k l : blocks n k (take (n * k) l) = blocks n k l.
Proof.
  revert l. induction k as [|k IH]; intros l; cbn [blocks]; [done|].
  rewrite take_take, skipn_firstn_comm.
  replace (n `min` (n * S k))%nat with n by lia.
  replace (n * S k - n)%nat with (n * k)%nat by lia. by rewrite IH.
Qed.

Lemma chunks_exact_take n l :
  (0 < n)%nat → chunks_exact n (take (length l / n * n) l) = chunks_exact n l.
Proof.
  intros Hn. unfold chunks_exact. rewrite length_take.
  pose proof (Nat.Div0.mul_div_le (length l) n) as Hle.
  replace ((length l / n * n) `min` length l)%nat with (length l / n * n)%nat by lia.
  rewrite Nat.div_mul by lia. rewrite Nat.mul_comm. apply blocks_take.
Qed.

Lemma chunks_exact_app n l m :
  (0 < n)%nat →
  chunks_exact n (l ++ m) = chunks_exact n l ++ chunks_exact n (drop (length l / n * n) l ++ m).
Proof.
  intros Hn. unfold chunks_exact. set (q := (length l / n)%nat).
  assert (n * q ≤ length l)%nat as Hq by (unfold q; apply Nat.Div0.mul_div_le).
  assert (length (l ++ m) / n = q + length (drop (q * n) l ++ m) / n)%nat as ->.
  { rewrite !length_app, length_drop.
    replace (length l + length m)%nat with (q * n + (length l - q * n + length m))%nat by lia.
    by rewrite Nat.div_add_l by lia. }
  rewrite blocks_add, blocks_app by done. f_equal.
  by rewrite drop_app_le, (Nat.mul_comm n q) by lia.
Qed.

(** ** The state of the reader after a message *)
Definition hashed (m : list Z) : Hasher :=
  mkHasher (fold_left compress (chunks_exact 64 m) INITIAL)
    (drop (length m / 64 * 64) m) (Z.of_nat (length m)).

Lemma absorb_hashed m bytes :
  absorb (hashed m) bytes
  = if Z.of_nat (length (m ++ bytes)) <=? u64_max then Ok (hashed (m ++ bytes)) else Err too_large.
Proof.
  unfold absorb, hashed, u64_checked_add. cbn [h_total h_state h_pending].
  rewrite (length_app m bytes), Nat2Z.inj_add.
  destruct (_ <=? u64_max); cbn [ok_or]; [|done]. f_equal.
  rewrite chunks_exact_take by lia. rewrite <- fold_left_app, <- chunks_exact_app by lia.
  f_equal.
  assert (64 * (length m / 64) ≤ length m)%nat as Hq by apply Nat.Div0.mul_div_le.
  rewrite <- (drop_app_le m bytes) by lia.
  rewrite drop_drop, length_drop, (length_app m bytes). f_equal.
  replace (length m + length bytes)%nat
    with (length m / 64 * 64 + (length m + length bytes - length m / 64 * 64))%nat at 2 by lia.
  rewrite Nat.div_add_l by lia. lia.
Qed.

Lemma read_loop_pieces m pieces rest :
  Forall (λ p, p ≠ []) pieces →
  Z.of_nat (length (m ++ mjoin pieces)) ≤ u64_max →
  read_loop (hashed m) (good_reads pieces ++ rest) = read_loop (hashed (m ++ mjoin pieces)) rest.
Proof.
  intros Hp. revert m. induction Hp as [|p pieces Hne Hp IH]; intros m Hlen.
  - by rewrite app_nil_r.
  - cbn [good_reads map app read_loop]. destruct p as [|b p]; [done|].
    change (mjoin ((b :: p) :: pieces)) with ((b :: p) ++ mjoin pieces) in *.
    rewrite app_assoc in *. rewrite absorb_hashed.
    rewrite (proj2 (Z.leb_le _ _)) by (rewrite length_app in Hlen; lia).
    by apply IH.
Qed.

Lemma read_loop_too_large m pieces rest :
  Forall (λ p, p ≠ []) pieces →
  Z.of_nat (length m) ≤ u64_max < Z.of_nat (length (m ++ mjoin pieces)) →
  read_loop (hashed m) (good_reads pieces ++ rest) = Err too_large.
Proof.
  intros Hp. revert m. induction Hp as [|p pieces Hne Hp IH]; intros m Hlen.
  - rewrite app_nil_r in Hlen. lia.
  - cbn [good_reads map app read_loop]. destruct p as [|b p]; [done|].
    change (mjoin ((b :: p) :: pieces)) with ((b :: p) ++ mjoin pieces) in *.
    rewrite app_assoc in Hlen. rewrite absorb_hashed.
    destruct (Z.leb_spec (Z.of_nat (length (m ++ b :: p))) u64_max); [|done].
    apply IH. lia.
Qed.

Lemma read_loop_end h rest : at_end rest → read_loop h rest = Ok h.
Proof. by intros [->|[more ->]]. Qed.

(** ** Padding *)
Ltac solve_mod := zify; Z.to_euclidean_division_equations; lia.

Lemma mod_64_56 n : (n mod 64 = 56)%nat ↔ (56 - Z.of_nat n) mod 64 = 0.
Proof.
  rewrite <- Nat2Z.inj_iff, Nat2Z.inj_mod. change (Z.of_nat 64) with 64. split; solve_mod.
Qed.

Lemma pad_loop_total fuel l :
  (Z.to_nat ((56 - Z.of_nat (length l)) mod 64) ≤ fuel)%nat →
  pad_loop fuel l = Some (l ++ replicate (Z.to_nat ((56 - Z.of_nat (length l)) mod 64)) 0).
Proof.
  revert l. induction fuel as [|fuel IH]; intros l Hf; cbn [pad_loop];
    destruct (Nat.eqb_spec (length l mod 64) 56) as [E|E]; rewrite mod_64_56 in E.
  1,3: by rewrite E, app_nil_r.
  - exfalso. solve_mod.
  - assert ((56 - Z.of_nat (length (l ++ [0]))) mod 64 = (56 - Z.of_nat (length l)) mod 64 - 1
            ∧ 0 < (56 - Z.of_nat (length l)) mod 64) as [Heq Hpos].
    { rewrite length_app. cbn [length]. solve_mod. }
    rewrite IH by lia. rewrite Heq, <- app_assoc. do 2 f_equal.
    change ([0] ++ ?x) with (0 :: x). rewrite <- replicate_S. f_equal. lia.
Qed.

Lemma length_pad m : ∃ k, length (pad m) = (64 * k)%nat.
Proof.
  unfold pad. rewrite !length_app, length_replicate, length_to_be_bytes. cbn [length].
  exists (Z.to_nat ((Z.of_nat (length m) + 1 + (55 - Z.of_nat (length m)) mod 64 + 8) / 64)).
  solve_mod.
Qed.

Lemma blocks_lengths n k l : (n * k ≤ length l)%nat → Forall (λ b, length b = n) (blocks n k l).
Proof.
  revert l. induction k as [|k IH]; intros l Hl; cbn [blocks]; constructor.
  - rewrite length_take. lia.
  - apply IH. rewrite length_drop. lia.
Qed.

Lemma fold_compress bs state :
  Forall (λ b, length b = 64%nat) bs → fold_left compress bs state = fold_left hash_block bs state.
Proof.
  intros Hb. revert state. induction Hb as [|b bs Hb _ IH]; intros state; cbn; [done|].
  by rewrite compress_is_hash_block, IH by done.
Qed.

Lemma finish_hashed m :
  finish_digest (hashed m)
  = if 8 * Z.of_nat (length m) <=? u64_max then Ok (Some (sha256 m)) else Err too_large.
Proof.
  unfold finish_digest, u64_checked_mul, hashed. cbn [h_total h_state h_pending]. rewrite Z.mul_comm.
  destruct (_ <=? u64_max); cbn [ok_or]; [|done]. do 2 f_equal.
  assert (64 * (length m / 64) ≤ length m)%nat as Hq by apply Nat.Div0.mul_div_le.
  assert ((56 - Z.of_nat (length (drop (length m / 64 * 64) m ++ [128]))) mod 64
          = (55 - Z.of_nat (length m)) mod 64) as Hz.
  { rewrite length_app, length_drop. cbn [length]. solve_mod. }
  rewrite pad_loop_total.
  - f_equal. unfold sha256. f_equal. rewrite Hz, <- fold_left_app.
    rewrite <- !app_assoc, <- chunks_exact_app by lia.
    apply fold_compress. apply blocks_lengths. apply Nat.Div0.mul_div_le.
  - rewrite Hz. pose proof (Z.mod_pos_bound (55 - Z.of_nat (length m)) 64). lia.
Qed.

(** ** Digests *)
Lemma length_fold_hash_block bs st :
  length st = 8%nat → length (fold_left hash_block bs st) = 8%nat.
Proof.
  revert st. induction bs as [|b bs IH]; intros st Hs; cbn [fold_left]; [done|].
  apply IH. unfold hash_block. by rewrite length_zip_with, Hs.
Qed.

Lemma digest_bytes_type st :
  length (digest_bytes st) = (4 * length st)%nat ∧ bytes_ok (digest_bytes st).
Proof.
  unfold digest_bytes, bytes_ok. induction st as [|w st [IH1 IH2]]; cbn [flat_map]; [done|]. split.
  - rewrite length_app, length_to_be_bytes, IH1. cbn [length]. lia.
  - apply Forall_app. split; [apply to_be_bytes_ok|done].
Qed.

(** Hexadecimal digits: a character for every half byte, read back by its position. *)
Definition hex_value (c : ascii) : Z :=
  if is_ascii_digit c then Z.of_N (byte_val c) - 48 else Z.of_N (byte_val c) - 87.
Fixpoint unhex (s : string) : list Z :=
  match s with
  | String a (String b s) => hex_value a * 16 + hex_value b :: unhex s
  | _ => []
  end.

Lemma hex_nibble_spec n :
  0 ≤ n < 16 →
  hex_value (hex_nibble n) = n
  ∧ (is_ascii_digit (hex_nibble n) || is_lower_hex_letter (hex_nibble n)) = true.
Proof.
  intros Hn.
  assert (forallb (λ n, (hex_value (hex_nibble n) =? n)
            && (is_ascii_digit (hex_nibble n) || is_lower_hex_letter (hex_nibble n))) (seqZ 0 16) = true)
    as Hall by (vm_compute; reflexivity).
  rewrite forallb_forall in Hall. specialize (Hall n).
  rewrite <- list_elem_of_In, elem_of_seqZ, andb_true_iff, Z.eqb_eq in Hall. apply Hall. lia.
Qed.

Lemma byte_nibbles b :
  is_byte b →
  0 ≤ Z.shiftr b 4 < 16 ∧ 0 ≤ Z.land b 15 < 16 ∧ b = Z.shiftr b 4 * 16 + Z.land b 15.
Proof.
  unfold is_byte. intros Hb. change 15 with (Z.ones 4).
  rewrite Z.shiftr_div_pow2, Z.land_ones by lia. change (2 ^ 4) with 16.
  pose proof (Z.div_mod b 16). pose proof (Z.mod_pos_bound b 16).
  pose proof (Z.div_pos b 16). pose proof (Z.div_lt_upper_bound b 16 16). lia.
Qed.

Lemma unhex_hex digest : bytes_ok digest → unhex (hex_digest digest) = digest.
Proof.
  induction 1 as [|b digest Hb _ IH]; cbn [hex_digest unhex]; [done|].
  destruct (byte_nibbles b Hb) as (Hhi & Hlo & Heq).
  rewrite (proj1 (hex_nibble_spec _ Hhi)), (proj1 (hex_nibble_spec _ Hlo)), IH. by rewrite <- Heq.
Qed.

Lemma hex_digest_text digest :
  bytes_ok digest →
  len (hex_digest digest) = 2 * Z.of_nat (length digest)
  ∧ all_bytes (λ c, is_ascii_digit c || is_lower_hex_letter c) (hex_digest digest) = true.
Proof.
  unfold len. induction 1 as [|b digest Hb _ [IH1 IH2]]; cbn [hex_digest all_bytes String.length length]; [done|].
  destruct (byte_nibbles b Hb) as (Hhi & Hlo & _).
  rewrite (proj2 (hex_nibble_spec _ Hhi)), (proj2 (hex_nibble_spec _ Hlo)), IH2. split; [lia|done].
Qed.

(** Numerals: the value of a text in base 16 and of bytes in base 256. *)
Definition lower_hex (c : ascii) : bool := is_ascii_digit c || is_lower_hex_letter c.
Fixpoint numeral (s : string) (acc : Z) : Z :=
  match s with String c s => numeral s (acc * 16 + hex_value c) | EmptyString => acc end.
Fixpoint big_endian (bytes : list Z) (acc : Z) : Z :=
  match bytes with b :: bytes => big_endian bytes (acc * 256 + b) | [] => acc end.

Lemma numeral_hex digest acc : bytes_ok digest → numeral (hex_digest digest) acc = big_endian digest acc.
Proof.
  intros Hb. revert acc. induction Hb as [|b digest Hb _ IH]; intros acc; cbn [hex_digest numeral big_endian]; [done|].
  destruct (byte_nibbles b Hb) as (Hhi & Hlo & Heq).
  rewrite (proj1 (hex_nibble_spec _ Hhi)), (proj1 (hex_nibble_spec _ Hlo)), IH. f_equal. lia.
Qed.
Lemma hex_value_range c : lower_hex c = true → 0 ≤ hex_value c < 16.
Proof. destruct c as [[] [] [] [] [] [] [] []]; vm_compute; intros; (discriminate || by split). Qed.
Lemma hex_nibble_value c : lower_hex c = true → hex_nibble (hex_value c) = c.
Proof. destruct c as [[] [] [] [] [] [] [] []]; vm_compute; intros; (discriminate || reflexivity). Qed.
(** Texts of one length differ in value when they differ. *)
Lemma numeral_inj acc acc' s t :
  String.length s = String.length t → all_bytes lower_hex s = true → all_bytes lower_hex t = true →
  0 ≤ acc → 0 ≤ acc' → numeral s acc = numeral t acc' → acc = acc' ∧ s = t.
Proof.
  revert acc acc' t. induction s as [|a s IH]; intros acc acc' [|b t]; cbn [numeral all_bytes String.length]; try done.
  intros [= Hl] [Ha Hs]%andb_true_iff [Hb Ht]%andb_true_iff H0 H1 Hv.
  pose proof (hex_value_range a Ha). pose proof (hex_value_range b Hb).
  apply IH in Hv as [Hacc ->]; [|done|done|done|lia|lia].
  assert (acc = acc') as -> by lia. assert (hex_value a = hex_value b) as Hab by lia. split; [done|]. f_equal.
  by rewrite <- (hex_nibble_value a Ha), Hab, hex_nibble_value.
Qed.

Lemma sha256_reader_pieces pieces rest :
  Forall (λ p, p ≠ []) pieces → at_end rest → 8 * Z.of_nat (length (mjoin pieces)) ≤ u64_max →
  sha256_reader (good_reads pieces ++ rest) = Ok (Some (sha256 (mjoin pieces))).
Proof.
  intros Hp Hend Hlen. unfold sha256_reader. change (mkHasher INITIAL [] 0) with (hashed []).
  rewrite read_loop_pieces by (done || (cbn; lia)).
  rewrite read_loop_end, finish_hashed by done. by rewrite (proj2 (Z.leb_le _ _)) by done.
Qed.

Lemma sha256_reader_whole m :
  8 * Z.of_nat (length m) ≤ u64_max → sha256_reader [Ok m] = Ok (Some (sha256 m)).
Proof.
  intros Hm. destruct m as [|b m].
  - apply (sha256_reader_pieces [] [Ok []]); [done|right; by eexists|done].
  - pose proof (sha256_reader_pieces [b :: m] []) as Hs. cbn [good_reads map app] in Hs.
    change (mjoin [b :: m]) with ((b :: m) ++ []) in Hs. rewrite app_nil_r in Hs.
    apply Hs; [by repeat constructor|by left|done].
Qed.

(** ** Properties *)
(** C36: hashing a provider executable computes SHA-256 of its bytes, whatever sizes the
    reads have: for any way [pieces] to deliver a message before the end of the file the
    result is the FIPS 180-4 hash of the concatenation, computed by a padding loop that
    ends; a message whose bit length does not fit 64 bits is refused, never hashed with a
    wrapped length; and a read error is returned. *)
Theorem sha256_reader_is_sha256 pieces rest :
  Forall (λ p, p ≠ []) pieces →
  let m := mjoin pieces in
  (at_end rest → 8 * Z.of_nat (length m) ≤ u64_max →
   sha256_reader (good_reads pieces ++ rest) = Ok (Some (sha256 m)))
  ∧ (at_end rest → u64_max < 8 * Z.of_nat (length m) →
     sha256_reader (good_reads pieces ++ rest) = Err too_large)
  ∧ (∀ e more, rest = Err e :: more → Z.of_nat (length m) ≤ u64_max →
     sha256_reader (good_reads pieces ++ rest) = Err e).
Proof.
  intros Hp m. split; [by apply sha256_reader_pieces|].
  unfold sha256_reader. change (mkHasher INITIAL [] 0) with (hashed []). split.
  - intros Hend Hlen. destruct (Z.le_gt_cases (Z.of_nat (length m)) u64_max).
    + rewrite read_loop_pieces, read_loop_end, finish_hashed by done.
      by rewrite (proj2 (Z.leb_gt _ _)) by done.
    + rewrite read_loop_too_large; [done..|]. by split.
  - intros e more -> Hlen. by rewrite read_loop_pieces by done.
Qed.

Lemma sha256_reader_is_sha256_witness :
  (let m := [97; 98; 99] in
   sha256_reader [Ok [97]; Ok [98; 99]; Ok []] = Ok (Some (sha256 m)))
  ∧ hex_digest (sha256 [97; 98; 99])
    = "ba7816bf8f01cfea414140de5dae2223b00361a396177a9cb410ff61f20015ad"%string.
Proof.
  split; [|vm_compute; reflexivity]. intros m.
  apply (sha256_reader_is_sha256 [[97]; [98; 99]] [Ok []]).
  - repeat constructor; discriminate.
  - right. by eexists.
  - vm_compute. discriminate.
Defined.

(** C40: the text of a digest is its hexadecimal form and no other. It has two characters
    from [0-9a-f] for every byte and, read as a numeral in base 16 (the first character the
    most significant), has the value of the bytes in base 256; and it is the only text of
    which this holds. Two digests with the same text are the same; that of a message has
    64 characters. *)
Theorem digest_text_is_faithful (digest : list Z) :
  bytes_ok digest →
  len (hex_digest digest) = 2 * Z.of_nat (length digest)
  ∧ all_bytes lower_hex (hex_digest digest) = true
  ∧ numeral (hex_digest digest) 0 = big_endian digest 0
  ∧ (∀ s, len s = 2 * Z.of_nat (length digest) → all_bytes lower_hex s = true →
       numeral s 0 = big_endian digest 0 → s = hex_digest digest)
  ∧ (∀ d, bytes_ok d → hex_digest d = hex_digest digest → d = digest)
  ∧ (∀ m, digest = sha256 m → len (hex_digest digest) = 64).
Proof.
  intros Hb. destruct (hex_digest_text _ Hb) as [Ht Hc]. pose proof (numeral_hex digest 0 Hb) as Hn.
  split_and!; [done..| | |].
  - intros s Hl Hs Hv. apply (numeral_inj 0 0); [|done|done|lia|lia|congruence].
    unfold len in *. lia.
  - intros d Hd Heq. by rewrite <- (unhex_hex d Hd), Heq, unhex_hex.
  - intros m ->. rewrite Ht. unfold sha256.
    rewrite (proj1 (digest_bytes_type _)), length_fold_hash_block by done. done.
Qed.
Lemma digest_text_is_faithful_witness :
  numeral (hex_digest [0x1f; 0xa0]) 0 = 0x1fa0 ∧ "1fa0"%string = hex_digest [0x1f; 0xa0].
Proof.
  destruct (digest_text_is_faithful [0x1f; 0xa0]) as (_ & _ & Hn & Hu & _).
  - repeat constructor; discriminate.
  - split; [rewrite Hn; reflexivity|]. apply Hu; reflexivity.
Defined.

(** ** The constants
    FIPS 180-4 defines them from the first sixty-four primes: the first thirty-two bits of
    the fractions of their cube roots. *)
Definition is_prime (n : nat) : bool :=
  (2 <=? n)%nat && forallb (λ d, negb (n mod d =? 0)%nat) (seq 2 (n - 2)).
Definition first_primes : list nat := List.filter is_prime (seq 2 310).
Definition cube_root_fraction (p : nat) (k : Z) : bool :=
  existsb (λ whole, let c := whole * 2 ^ 32 + k in
                    (c ^ 3 <=? Z.of_nat p * 2 ^ 96) && (Z.of_nat p * 2 ^ 96 <? (c + 1) ^ 3))
          [1; 2; 3; 4; 5; 6].
Lemma round_constants_are_cube_roots :
  List.length K = 64%nat ∧ List.length first_primes = 64%nat
  ∧ forallb (λ e : nat * Z, cube_root_fraction e.1 e.2 && (0 <=? e.2) && (e.2 <? 2 ^ 32))
      (combine first_primes K) = true.
Proof. vm_compute. auto. Qed.
