(* ===== verification/Discovery.v ===== *)
(** * Trusted provider discovery (provider_discovery.rs)
    The scan of administrator-supplied directories for [buzz-backend-*] executables. The
    file system is an interface to one snapshot of it; the trust policy is the
    administrator's. The theorems characterise the result exactly: which executables are
    returned, in which order, and which error stops the scan. *)
From Stdlib Require Import ZArith Lia String Ascii Sorted.
From stdpp Require Import base gmap list strings sorting.
From S2P Require Import Prelude RustStr LogCapture Bytes Sha256.
#[local] Open Scope Z_scope.

Definition PREFIX : string := "buzz-backend-".

Record ProviderCandidate : Type := mkCandidate {
  pc_id : string; pc_canonical_path : string; pc_sha256 : list Z
}.
Definition sha256_hex (c : ProviderCandidate) : string := hex_digest (pc_sha256 c).

Inductive DiscoveryError : Type :=
| DiscoveryIo (e : IoError)
| Duplicate (id : string).

Definition valid_provider_id (id : string) : bool :=
  match id with
  | EmptyString => false
  | String b rest =>
    (is_ascii_lowercase b || is_ascii_digit b)
    && all_bytes (λ b, is_ascii_lowercase b || is_ascii_digit b
                       || (Ascii.eqb b "_" || Ascii.eqb b "-")) rest
  end.

Definition provider_id_from_filename (name : string) : option string :=
  match strip_prefix PREFIX name with
  | None => None
  | Some raw => if str_is_empty raw then None else Some raw
  end.

(** ** The file system: what the scan asks of it *)
Record Metadata : Type := mkMetadata { md_is_file : bool; md_is_dir : bool; md_mode : Z }.
Record DirEntry : Type := mkEntry { de_file_name : string; de_path : string }.

Class FileSystem : Type := {
  canonicalize : string → result IoError string;
  read_dir : string → result IoError (list (result IoError DirEntry));
  metadata : string → result IoError Metadata;
  open_file : string → result IoError Reader
}.

Section Scan.
Context `{FileSystem} (is_trusted : string → string → list Z → bool).

Definition is_executable (path : string) : bool :=
  match metadata path with
  | Ok m => md_is_file m && negb (Z.land (md_mode m) 73 (* 0o111 *) =? 0)
  | Err _ => false
  end.

Definition path_is_file (path : string) : bool :=
  match metadata path with Ok m => md_is_file m | Err _ => false end.

(** A padding loop that did not end would be a digest that is no value; see
    [sha256_reader_is_sha256]. *)
Definition sha256_file (path : string) : result IoError (list Z) :=
  let? reader := open_file path in
  let? digest := sha256_reader reader in
  Ok (default [] digest).

(** The body of the inner loop up to the trust decision: [None] is a [continue]. *)
Definition examine (entry : DirEntry) : result IoError (option ProviderCandidate) :=
  let name := from_utf8_lossy (de_file_name entry) in
  match provider_id_from_filename name with
  | None => Ok None
  | Some id =>
    if negb (valid_provider_id id) || negb (is_executable (de_path entry)) then Ok None
    else
      let? canonical_path := canonicalize (de_path entry) in
      if negb (path_is_file canonical_path) then Ok None
      else
        let? sha256 := sha256_file canonical_path in
        if negb (is_trusted id canonical_path sha256) then Ok None
        else Ok (Some (mkCandidate id canonical_path sha256))
  end.

(** [candidates] in the order they were pushed, and [ids]. *)
Definition Found : Type := (list ProviderCandidate * gset string)%type.

Fixpoint scan_entries (entries : list (result IoError DirEntry)) (found : Found)
  : result DiscoveryError Found :=
  match entries with
  | [] => Ok found
  | entry :: entries =>
    let? entry := map_err DiscoveryIo entry in
    let? candidate := map_err DiscoveryIo (examine entry) in
    match candidate with
    | None => scan_entries entries found
    | Some c =>
      if decide (pc_id c ∈ found.2) then Err (Duplicate (pc_id c))
      else scan_entries entries (found.1 ++ [c], {[pc_id c]} ∪ found.2)
    end
  end.

Fixpoint scan_directories (directories : list string) (found : Found)
  : result DiscoveryError Found :=
  match directories with
  | [] => Ok found
  | directory :: directories =>
    match canonicalize directory with
    | Err error =>
      if kind_is NotFound error then scan_directories directories found
      else Err (DiscoveryIo error)
    | Ok directory =>
      let? entries := map_err DiscoveryIo (read_dir directory) in
      let? found := scan_entries entries found in
      scan_directories directories found
    end
  end.

Definition candidate_le (l r : ProviderCandidate) : bool := String.leb (pc_id l) (pc_id r).

Definition discover_trusted (directories : list string)
  : result DiscoveryError (list ProviderCandidate) :=
  let? found := scan_directories directories ([], ∅) in
  Ok (sort_by candidate_le found.1).

(** ** Specification *)
(** The entries the scan sees, in order; a directory that does not exist has none. *)
Inductive listing : list string → list DirEntry → Prop :=
| listing_nil : listing [] []
| listing_absent d ds e es :
    canonicalize d = Err e → io_kind e = NotFound → listing ds es → listing (d :: ds) es
| listing_dir d p ds es here :
    canonicalize d = Ok p → read_dir p = Ok (map Ok here) →
    listing ds es → listing (d :: ds) (here ++ es).

(** The trusted executables among [es], in order. *)
Inductive accepted : list DirEntry → list ProviderCandidate → Prop :=
| accepted_nil : accepted [] []
| accepted_skip e es cs : examine e = Ok None → accepted es cs → accepted (e :: es) cs
| accepted_take e es c cs :
    examine e = Ok (Some c) → accepted es cs → accepted (e :: es) (c :: cs).

(** What makes an entry a trusted provider. *)
Definition trusted_provider (e : DirEntry) (c : ProviderCandidate) : Prop :=
  from_utf8_lossy (de_file_name e) = String.append PREFIX (pc_id c)
  ∧ valid_provider_id (pc_id c) = true
  ∧ is_executable (de_path e) = true
  ∧ canonicalize (de_path e) = Ok (pc_canonical_path c)
  ∧ path_is_file (pc_canonical_path c) = true
  ∧ sha256_file (pc_canonical_path c) = Ok (pc_sha256 c)
  ∧ is_trusted (pc_id c) (pc_canonical_path c) (pc_sha256 c) = true.

(** ** Lemmas *)
Lemma strip_prefix_id name id :
  provider_id_from_filename name = Some id ↔ name = String.append PREFIX id ∧ id ≠ EmptyString.
Proof.
  unfold provider_id_from_filename. split.
  - intros Hid. destruct (strip_prefix PREFIX name) as [raw|] eqn:E; [|done].
    apply strip_prefix_Some in E. destruct raw; [done|]. by injection Hid as <-.
  - intros [-> Hne]. rewrite strip_prefix_append. by destruct id.
Qed.

Lemma examine_trusted e c : examine e = Ok (Some c) ↔ trusted_provider e c.
Proof.
  unfold examine, trusted_provider. split.
  - destruct (provider_id_from_filename _) as [id|] eqn:Eid; [|done].
    apply strip_prefix_id in Eid as [Ename _].
    destruct (valid_provider_id id) eqn:Ev; [|done].
    destruct (is_executable (de_path e)) eqn:Ex; [|done]. cbn [negb orb].
    destruct (canonicalize (de_path e)) as [p|] eqn:Ec; [|done].
    destruct (path_is_file p) eqn:Ef; [|done]. cbn [negb].
    destruct (sha256_file p) as [d|] eqn:Es; [|done].
    destruct (is_trusted id p d) eqn:Et; [|done]. intros [= <-]. by split_and!.
  - destruct c as [id p d]. cbn. intros (Ename & Ev & Ex & Ec & Ef & Es & Et).
    rewrite (proj2 (strip_prefix_id _ id)) by (split; [done|]; intros ->; done).
    by rewrite Ev, Ex, Ec, Ef, Es, Et.
Qed.

Definition ids_of (cs : list ProviderCandidate) : gset string := list_to_set (map pc_id cs).

Lemma ids_of_snoc cs c : ids_of (cs ++ [c]) = {[pc_id c]} ∪ ids_of cs.
Proof. unfold ids_of. rewrite map_app, list_to_set_app_L. cbn. set_solver. Qed.

(** The scan, from candidates with distinct ids: it returns all of them, or stops at the
    first repeated id. *)
Lemma scan_entries_app here more found :
  scan_entries (here ++ more) found
  = let? found := scan_entries here found in scan_entries more found.
Proof.
  revert found. induction here as [|e here IH]; intros found; cbn [app scan_entries]; [done|].
  destruct (map_err DiscoveryIo e) as [e'|]; [|done].
  destruct (map_err DiscoveryIo (examine e')) as [[c|]|]; [|apply IH|done].
  destruct (decide _); [done|]. apply IH.
Qed.

Lemma scan_entries_ok es cs found :
  NoDup (map pc_id cs) →
  scan_entries (map Ok es) (cs, ids_of cs) = Ok found ↔
  ∃ new, accepted es new ∧ NoDup (map pc_id (cs ++ new)) ∧ found = (cs ++ new, ids_of (cs ++ new)).
Proof.
  revert cs. induction es as [|e es IH]; intros cs Hnd; cbn [map scan_entries map_err].
  - split.
    + intros [= <-]. exists []. rewrite app_nil_r. split_and!; [constructor|done..].
    + intros (new & Ha & _ & ->). inversion Ha; subst. by rewrite app_nil_r.
  - destruct (examine e) as [[c|]|err] eqn:Ee; cbn [map_err].
    + case_decide as Hin; cbn [fst snd] in *.
      * split; [done|]. intros (new & Ha & Hnd' & _). inversion Ha; subst; [congruence|].
        assert (c0 = c) as -> by congruence. exfalso.
        rewrite map_app in Hnd'. apply NoDup_app in Hnd' as (_ & Hd & _).
        apply (Hd (pc_id c)); [|cbn; left]. unfold ids_of in Hin. set_solver.
      * rewrite <- ids_of_snoc. rewrite IH.
        { split.
          - intros (new & Ha & Hnd' & ->). exists (c :: new).
            rewrite <- app_assoc in *. split_and!; [by constructor|done..].
          - intros (new & Ha & Hnd' & ->). inversion Ha; subst; [congruence|].
            assert (c0 = c) as -> by congruence. exists cs0. rewrite <- app_assoc. done. }
        rewrite map_app. apply NoDup_app. split_and!; [done| |apply NoDup_singleton].
        intros x Hx Hx'%list_elem_of_singleton. subst. apply Hin. unfold ids_of. set_solver.
    + rewrite IH by done. split; intros (new & Ha & Hrest); exists new; (split; [|done]).
      * by constructor.
      * inversion Ha; subst; [done|congruence].
    + split; [done|]. intros (new & Ha & _). inversion Ha; congruence.
Qed.

Lemma scan_entries_all_ok entries found found' :
  scan_entries entries found = Ok found' → ∃ here, entries = map Ok here.
Proof.
  revert found. induction entries as [|e entries IH]; intros found; cbn [scan_entries].
  - by exists [].
  - destruct e as [e|]; [|done]. cbn [map_err].
    destruct (examine e) as [[c|]|]; cbn [map_err]; [case_decide; [done|]| |done];
      intros [here ->]%IH; by exists (e :: here).
Qed.

Lemma accepted_app es1 es2 cs :
  accepted (es1 ++ es2) cs ↔ ∃ cs1 cs2, cs = cs1 ++ cs2 ∧ accepted es1 cs1 ∧ accepted es2 cs2.
Proof.
  revert cs. induction es1 as [|e es1 IH]; intros cs; cbn [app]; split.
  - intros Ha. exists [], cs. by repeat split; [constructor|].
  - intros (cs1 & cs2 & -> & H1 & H2). by inversion H1.
  - intros Ha. inversion Ha as [|? ? ? He Ha'|? ? c ? He Ha']; subst;
      apply IH in Ha' as (cs1 & cs2 & -> & H1 & H2).
    + exists cs1, cs2. by repeat split; [constructor|].
    + exists (c :: cs1), cs2. by repeat split; [constructor|].
  - intros (cs1 & cs2 & -> & H1 & H2).
    inversion H1 as [|? ? ? He Ha'|? ? c ? He Ha']; subst; cbn; constructor; try done;
      apply IH; by repeat eexists.
Qed.

Lemma NoDup_ids_prefix a b : NoDup (map pc_id (a ++ b)) → NoDup (map pc_id a).
Proof. rewrite map_app. by intros [? _]%NoDup_app. Qed.

Lemma scan_entries_accepted here cs new :
  accepted here new → NoDup (map pc_id (cs ++ new)) →
  scan_entries (map Ok here) (cs, ids_of cs) = Ok (cs ++ new, ids_of (cs ++ new)).
Proof. intros Ha Hnd. apply scan_entries_ok; [by eapply NoDup_ids_prefix|eauto]. Qed.

Lemma scan_directories_ok ds cs found :
  NoDup (map pc_id cs) →
  scan_directories ds (cs, ids_of cs) = Ok found ↔
  ∃ es new, listing ds es ∧ accepted es new ∧ NoDup (map pc_id (cs ++ new))
            ∧ found = (cs ++ new, ids_of (cs ++ new)).
Proof.
  revert cs. induction ds as [|d ds IH]; intros cs Hnd; cbn [scan_directories].
  { split.
    - intros [= <-]. exists [], []. rewrite app_nil_r. by repeat split; [constructor..|].
    - intros (es & new & Hl & Ha & _ & ->). inversion Hl; subst. inversion Ha; subst.
      by rewrite app_nil_r. }
  destruct (canonicalize d) as [p|err] eqn:Ec.
  - destruct (read_dir p) as [entries|err] eqn:Er; cbn [map_err].
    2:{ split; [done|]. intros (es & new & Hl & _). inversion Hl; congruence. }
    split.
    + destruct (scan_entries entries _) as [found1|] eqn:E1; [|done].
      destruct (scan_entries_all_ok _ _ _ E1) as [here ->].
      apply scan_entries_ok in E1 as (new1 & Ha1 & Hnd1 & ->); [|done].
      rewrite IH by done. intros (es & new & Hl & Ha & Hnd2 & ->).
      exists (here ++ es), (new1 ++ new). rewrite <- app_assoc in *. split_and!; [|..|done].
      * by eapply listing_dir.
      * apply accepted_app. eauto.
      * done.
    + intros (es & new & Hl & Ha & Hnd2 & ->).
      inversion Hl as [|? ? ? ? Hc|? p' ? es' here Hc Hr Hl']; subst; [congruence|].
      assert (p' = p) as -> by congruence. rewrite Hr in Er. injection Er as <-.
      apply accepted_app in Ha as (cs1 & cs2 & -> & Ha1 & Ha2). rewrite app_assoc in Hnd2.
      pose proof (NoDup_ids_prefix _ _ Hnd2) as Hnd1. rewrite (scan_entries_accepted here cs cs1) by done.
      rewrite IH by done. exists es', cs2. by rewrite <- app_assoc in *.
  - unfold kind_is. case_bool_decide as Hk.
    + rewrite IH by done. split; intros (es & new & Hl & Hrest).
      * exists es, new. split; [by eapply listing_absent|done].
      * inversion Hl as [|? ? ? ? ? ? Hl'|]; subst; [|congruence]. by exists es, new.
    + split; [done|]. intros (es & new & Hl & _). inversion Hl; congruence.
Qed.

(** A repeated id stops the scan. *)
Lemma scan_entries_duplicate es cs pre c post :
  accepted es (pre ++ c :: post) → NoDup (map pc_id (cs ++ pre)) →
  pc_id c ∈ map pc_id (cs ++ pre) →
  scan_entries (map Ok es) (cs, ids_of cs) = Err (Duplicate (pc_id c)).
Proof.
  remember (pre ++ c :: post) as new eqn:Hnew. intros Ha. revert cs pre Hnew.
  induction Ha as [|e es new He Ha IH|e es c' new He Ha IH]; intros cs pre Hnew Hnd Hin;
    cbn [map scan_entries map_err].
  - by destruct pre.
  - rewrite He. cbn [map_err]. by eapply IH.
  - rewrite He. cbn [map_err fst snd]. destruct pre as [|c1 pre]; cbn in Hnew; injection Hnew as -> ->.
    + rewrite app_nil_r in *. rewrite decide_True; [done|]. unfold ids_of. set_solver.
    + rewrite decide_False.
      * rewrite <- ids_of_snoc. apply (IH _ pre); [done|..]; by rewrite <- app_assoc.
      * unfold ids_of. rewrite map_app in Hnd. apply NoDup_app in Hnd as (_ & Hd & _).
        intros Hc. apply (Hd (pc_id c1)); [set_solver|cbn; left].
Qed.

Lemma scan_directories_duplicate ds es cs pre c post :
  listing ds es → accepted es (pre ++ c :: post) → NoDup (map pc_id (cs ++ pre)) →
  pc_id c ∈ map pc_id (cs ++ pre) →
  scan_directories ds (cs, ids_of cs) = Err (Duplicate (pc_id c)).
Proof.
  intros Hl. revert cs pre. induction Hl as [|d ds err es Hc Hk Hl IH|d p ds es here Hc Hr Hl IH];
    intros cs pre Ha Hnd Hin; cbn [scan_directories].
  - inversion Ha. by destruct pre.
  - rewrite Hc. unfold kind_is. rewrite bool_decide_eq_true_2 by done. by eapply IH.
  - rewrite Hc, Hr. cbn [map_err].
    apply accepted_app in Ha as (cs1 & cs2 & Hcut & Ha1 & Ha2).
    destruct (app_eq_inv _ _ _ _ Hcut) as [(k & -> & ->)|(k & -> & Hk)].
    + rewrite app_assoc in Hnd. pose proof (NoDup_ids_prefix _ _ Hnd).
      rewrite (scan_entries_accepted here cs cs1) by done.
      apply (IH _ k); [done..|]. by rewrite <- app_assoc.
    + destruct k as [|c' k]; cbn in Hk.
      * subst. rewrite app_nil_r in *. rewrite (scan_entries_accepted here cs pre) by done.
        apply (IH _ []); [done|..]; by rewrite app_nil_r.
      * injection Hk as <- ->. by rewrite (scan_entries_duplicate here cs pre c k).
Qed.

Lemma accepted_elem es cs c :
  accepted es cs → c ∈ cs ↔ ∃ e, e ∈ es ∧ trusted_provider e c.
Proof.
  induction 1 as [|e es cs He Ha IH|e es c' cs He Ha IH].
  - split; [by intros ?%not_elem_of_nil|by intros (? & ?%not_elem_of_nil & _)].
  - rewrite IH. split; intros (e' & Hin & Ht); [exists e'; split; [by right|done]|].
    apply elem_of_cons in Hin as [->|Hin]; [|eauto].
    apply examine_trusted in Ht. congruence.
  - rewrite elem_of_cons, IH. split.
    + intros [->|(e' & Hin & Ht)]; [exists e; split; [left|by apply examine_trusted]|].
      exists e'. split; [by right|done].
    + intros (e' & Hin & Ht). apply elem_of_cons in Hin as [->|Hin]; [left|right; eauto].
      apply examine_trusted in Ht. congruence.
Qed.
End Scan.

(** ** The byte order on ids *)
Lemma ascii_compare_N a b : Ascii.compare a b = N.compare (N_of_ascii a) (N_of_ascii b).
Proof. done. Qed.

Lemma leb_cons a s b t :
  String.leb (String a s) (String b t) = true ↔
  (N_of_ascii a < N_of_ascii b)%N ∨ a = b ∧ String.leb s t = true.
Proof.
  unfold String.leb. cbn [String.compare]. rewrite ascii_compare_N.
  destruct (N.compare_spec (N_of_ascii a) (N_of_ascii b)) as [E|L|G].
  - apply (f_equal ascii_of_N) in E. rewrite !ascii_N_embedding in E. subst b.
    split; [by right|]. intros [?|[_ ?]]; [lia|done].
  - split; [by left|done].
  - split; [done|]. intros [?|[-> _]]; lia.
Qed.

Lemma leb_trans a b c : String.leb a b = true → String.leb b c = true → String.leb a c = true.
Proof.
  revert b c. induction a as [|x a IH]; intros [|y b] [|z c]; try done.
  rewrite !leb_cons. intros [?|[-> ?]] [?|[-> ?]]; [left; lia|left; lia|left; lia|right; eauto].
Qed.

Lemma leb_strict a b : String.leb a b = true → a ≠ b → String.ltb a b = true.
Proof.
  unfold String.leb, String.ltb. intros Hle Hne. destruct (String.compare a b) eqn:E; [|done..].
  by apply String.compare_eq_iff in E.
Qed.

#[export] Instance candidate_le_trans : Transitive (λ a b, candidate_le a b = true).
Proof. intros a b c. unfold candidate_le. apply leb_trans. Qed.
#[export] Instance candidate_le_total : Total (λ a b, candidate_le a b = true).
Proof. intros a b. unfold candidate_le. apply String.leb_total. Qed.

Lemma sorted_strictly cs :
  NoDup (map pc_id cs) →
  StronglySorted (λ l r, String.ltb (pc_id l) (pc_id r) = true) (sort_by candidate_le cs).
Proof.
  intros Hnd.
  assert (StronglySorted (λ a b, candidate_le a b = true) (sort_by candidate_le cs)) as Hs.
  { apply (StronglySorted_merge_sort (λ a b, candidate_le a b = true)). }
  assert (NoDup (map pc_id (sort_by candidate_le cs))) as Hnd'.
  { by rewrite (sort_by_perm candidate_le cs). }
  revert Hs Hnd'. generalize (sort_by candidate_le cs) as l.
  induction l as [|c l IH]; intros Hs Hn; [constructor|].
  apply StronglySorted_inv in Hs as [Hs Hc]. cbn in Hn. apply NoDup_cons in Hn as [Hc' Hn].
  constructor; [by apply IH|]. apply Forall_forall. intros d Hd.
  apply leb_strict; [by apply (proj1 (Forall_forall _ _) Hc)|].
  intros Heq. apply Hc'. rewrite Heq. by apply list_elem_of_fmap_2.
Qed.

(** ** Properties *)
Section Properties.
Context `{FileSystem} (is_trusted : string → string → list Z → bool).

(** C37: discovery returns exactly the trusted executables. When it succeeds, what it
    returns are the entries of the listed directories whose name is [buzz-backend-] and a
    valid id, that are executable regular files, and that the policy trusts under that id
    for the canonical path and the SHA-256 of its bytes; they come strictly ordered by id,
    so no id is returned twice. When every entry can be examined, discovery succeeds if
    the trusted ids are distinct and otherwise names the first id that repeats. *)
Theorem discovery_is_exact directories :
  (∀ cs, discover_trusted is_trusted directories = Ok cs →
     StronglySorted (λ l r, String.ltb (pc_id l) (pc_id r) = true) cs
     ∧ ∃ es, listing directories es
        ∧ ∀ c, c ∈ cs ↔ ∃ e, e ∈ es ∧ trusted_provider is_trusted e c)
  ∧ (∀ es found, listing directories es → accepted is_trusted es found →
       NoDup (map pc_id found) →
       discover_trusted is_trusted directories = Ok (sort_by candidate_le found))
  ∧ (∀ es pre c post, listing directories es → accepted is_trusted es (pre ++ c :: post) →
       NoDup (map pc_id pre) → pc_id c ∈ map pc_id pre →
       discover_trusted is_trusted directories = Err (Duplicate (pc_id c))).
Proof.
  unfold discover_trusted. change (@nil ProviderCandidate, @empty (gset string) _) with
    (@nil ProviderCandidate, ids_of []). split_and!.
  - intros cs Hd. destruct (scan_directories _ _ _) as [found|] eqn:E; [|done].
    injection Hd as <-.
    apply scan_directories_ok in E as (es & new & Hl & Ha & Hnd & ->); [|constructor].
    cbn [app fst] in *. split; [by apply sorted_strictly|]. exists es. split; [done|].
    intros c. rewrite elem_of_sort_by. by apply accepted_elem.
  - intros es found Hl Ha Hnd.
    rewrite (proj2 (scan_directories_ok is_trusted directories [] (found, ids_of found)
               NoDup_nil_2)); [done|by exists es, found].
  - intros es pre c post Hl Ha Hnd Hin.
    by rewrite (scan_directories_duplicate _ _ es [] pre c post).
Qed.
End Properties.

(** A file system with two directories and one trusted executable. *)
#[local] Instance example_fs : FileSystem := {
  canonicalize p :=
    if String.eqb p "/missing" then Err (mkIoError NotFound "") else Ok p;
  read_dir p :=
    Ok [Ok (mkEntry "buzz-backend-reference" "/p/buzz-backend-reference");
        Ok (mkEntry "notes.txt" "/p/notes.txt")];
  metadata p := Ok (mkMetadata true false 448);
  open_file p := Ok [Ok [97; 98]; Ok [99]]
}.

Lemma discovery_is_exact_witness :
  let trust := λ (id path : string) (d : list Z),
    String.eqb (hex_digest d)
      "ba7816bf8f01cfea414140de5dae2223b00361a396177a9cb410ff61f20015ad" in
  let c := mkCandidate "reference" "/p/buzz-backend-reference" (sha256 [97; 98; 99]) in
  discover_trusted trust ["/missing"; "/p"] = Ok [c]
  ∧ StronglySorted (λ l r, String.ltb (pc_id l) (pc_id r) = true) [c].
Proof.
  intros trust c.
  assert (discover_trusted trust ["/missing"; "/p"] = Ok [c]) as Hd
    by (vm_compute; reflexivity).
  split; [exact Hd|]. apply (discovery_is_exact trust ["/missing"; "/p"]). exact Hd.
Defined.
