(* ===== verification/Codec.v ===== *)
(** * Byte codecs
    Encodings of values as bytes that decode back, in front of any other bytes. They stand
    in for [serde_json] where an interface to it is shown to be satisfiable. *)
From Stdlib Require Import ZArith Lia String Ascii.
From stdpp Require Import base list strings.
From S2P Require Import Prelude RustStr Bytes.
#[local] Open Scope Z_scope.

Class Codec (A : Type) : Type := {
  enc : A → list Z;
  dec : list Z → option (A * list Z)
}.
Class CodecLaws (A : Type) `{Codec A} : Prop :=
  dec_enc (a : A) rest : dec (enc a ++ rest) = Some (a, rest).

Definition from_slice {A} `{Codec A} (l : list Z) : option A :=
  match dec l with Some (a, []) => Some a | _ => None end.
Lemma from_slice_enc {A} `{CodecLaws A} (a : A) : from_slice (enc a) = Some a.
Proof. unfold from_slice. rewrite <- (app_nil_r (enc a)). by rewrite dec_enc. Qed.

(** ** Integers: a sign, a digit for every bit, a mark *)
Fixpoint enc_pos (p : positive) : list Z :=
  match p with xH => [2] | xO p => 0 :: enc_pos p | xI p => 1 :: enc_pos p end.
Fixpoint dec_pos (l : list Z) : option (positive * list Z) :=
  match l with
  | [] => None
  | b :: l =>
    if b =? 2 then Some (xH, l)
    else match dec_pos l with
         | Some (p, rest) => Some (if b =? 0 then xO p else xI p, rest)
         | None => None
         end
  end.
Lemma dec_enc_pos p rest : dec_pos (enc_pos p ++ rest) = Some (p, rest).
Proof. induction p as [p IH|p IH|]; cbn; [by rewrite IH..|done]. Qed.

#[export] Instance Z_codec : Codec Z := {
  enc z := match z with Z0 => [0] | Zpos p => 1 :: enc_pos p | Zneg p => 2 :: enc_pos p end;
  dec l :=
    match l with
    | [] => None
    | t :: l =>
      if t =? 0 then Some (0, l)
      else match dec_pos l with
           | Some (p, rest) => Some (if t =? 1 then Zpos p else Zneg p, rest)
           | None => None
           end
    end
}.
#[export] Instance Z_codec_laws : CodecLaws Z.
Proof. intros [|p|p] rest; cbn; [done|by rewrite dec_enc_pos..]. Qed.

(** ** Strings: every byte behind a one, a zero at the end *)
Fixpoint enc_string (s : string) : list Z :=
  match s with
  | EmptyString => [0]
  | String c s => 1 :: Z.of_N (byte_val c) :: enc_string s
  end.
Fixpoint dec_string (l : list Z) : option (string * list Z) :=
  match l with
  | t :: l =>
    if t =? 0 then Some (EmptyString, l)
    else match l with
         | b :: l =>
           match dec_string l with
           | Some (s, rest) => Some (String (bt (Z.to_N b)) s, rest)
           | None => None
           end
         | [] => None
         end
  | [] => None
  end.
#[export] Instance string_codec : Codec string := { enc := enc_string; dec := dec_string }.
#[export] Instance string_codec_laws : CodecLaws string.
Proof.
  intros s rest. induction s as [|c s IH]; [done|]. cbn in *. rewrite IH.
  by rewrite N2Z.id, ascii_N_embedding.
Qed.

(** ** Pairs, options, and what is isomorphic to them *)
#[export] Instance prod_codec {A B} `{Codec A, Codec B} : Codec (A * B) := {
  enc p := enc p.1 ++ enc p.2;
  dec l :=
    match dec l with
    | Some (a, l) => match dec l with Some (b, l) => Some ((a, b), l) | None => None end
    | None => None
    end
}.
#[export] Instance prod_codec_laws {A B} `{CodecLaws A, CodecLaws B} : CodecLaws (A * B).
Proof. intros [a b] rest. cbn. by rewrite <- app_assoc, !dec_enc. Qed.

#[export] Instance option_codec {A} `{Codec A} : Codec (option A) := {
  enc o := match o with Some a => 1 :: enc a | None => [0] end;
  dec l :=
    match l with
    | [] => None
    | t :: l =>
      if t =? 0 then Some (None, l)
      else match dec l with Some (a, l) => Some (Some a, l) | None => None end
    end
}.
#[export] Instance option_codec_laws {A} `{CodecLaws A} : CodecLaws (option A).
Proof. intros [a|] rest; cbn; [by rewrite dec_enc|done]. Qed.

#[export] Instance sum_codec {A B} `{Codec A, Codec B} : Codec (A + B) := {
  enc s := match s with inl a => 0 :: enc a | inr b => 1 :: enc b end;
  dec l :=
    match l with
    | [] => None
    | t :: l =>
      if t =? 0 then match dec l with Some (a, l) => Some (inl a, l) | None => None end
      else match dec l with Some (b, l) => Some (inr b, l) | None => None end
    end
}.
#[export] Instance sum_codec_laws {A B} `{CodecLaws A, CodecLaws B} : CodecLaws (A + B).
Proof. intros [a|b] rest; cbn; by rewrite dec_enc. Qed.

Definition iso_codec {A B} `{Codec B} (to : A → B) (back : B → A) : Codec A := {|
  enc a := enc (to a);
  dec l := match dec l with Some (b, l) => Some (back b, l) | None => None end
|}.
Lemma iso_codec_laws {A B} `{CodecLaws B} (to : A → B) (back : B → A) :
  (∀ a, back (to a) = a) → @CodecLaws A (iso_codec to back).
Proof. intros Hiso a rest. cbn. by rewrite dec_enc, Hiso. Qed.
