(* ===== verification/Fs.v ===== *)
(** * A file system
    The calls of [std::fs] the sources make, over a map from paths to nodes. A path is its
    components, as [Path] compares them; each entry is named by one path, so that a
    symbolic link matters where the sources look for one, as the last component. Every call
    may fail: the state carries the faults still to come, an error and how much of a write
    happens before it. *)
From Stdlib Require Import ZArith Lia String Ascii.
From stdpp Require Import base gmap list strings.
From S2P Require Import Prelude RustStr Bytes Monad.
#[local] Open Scope Z_scope.

Record Path : Type := mkPath { p_absolute : bool; p_components : list string }.
#[export] Instance Path_eq_dec : EqDecision Path.
Proof. solve_decision. Defined.
#[export] Instance Path_countable : Countable Path.
Proof.
  refine (inj_countable' (λ p, (p_absolute p, p_components p)) (λ '(a, c), mkPath a c) _).
  by intros [].
Defined.

(** [path.join(name)] for a single component, [path.parent()], [path.file_name()]. *)
Definition join (p : Path) (name : string) : Path :=
  mkPath (p_absolute p) (p_components p ++ [name]).
Definition parent (p : Path) : option Path :=
  match p_components p with
  | [] => None
  | c :: comps => Some (mkPath (p_absolute p) (removelast (c :: comps)))
  end.
Definition file_name (p : Path) : option string := last (p_components p).

(** [path.extension()]: what follows the last dot, unless the name starts with it. *)
Fixpoint after_last_dot (s : string) : option (string * string) :=
  match s with
  | EmptyString => None
  | String c s =>
    match after_last_dot s with
    | Some (stem, ext) => Some (String c stem, ext)
    | None => if Ascii.eqb c "." then Some (EmptyString, s) else None
    end
  end.
Definition extension (p : Path) : option string :=
  match file_name p ≫= after_last_dot with
  | Some (String _ _, ext) => Some ext
  | _ => None
  end.

Inductive NodeKind : Type := RegularFile | Directory | Socket | Symlink (target : Path).
#[export] Instance NodeKind_eq_dec : EqDecision NodeKind.
Proof. solve_decision. Defined.

Record Node : Type := mkNode {
  n_kind : NodeKind; n_mode : Z; n_uid : Z; n_data : string
}.

Record Fs : Type := mkFs {
  fs_nodes : gmap Path Node;
  fs_faults : list (option (IoError * nat));
  fs_uid : Z  (** the owner of what this process creates *)
}.

Definition IO (A : Type) : Type := M Fs IoError A.
Definition set_nodes (f : gmap Path Node → gmap Path Node) (s : Fs) : Fs :=
  mkFs (f (fs_nodes s)) (fs_faults s) (fs_uid s).

(** A call: the fault that is due, with what it leaves behind, or the call itself. *)
Definition call {A} (partial : nat → Fs → Fs) (m : IO A) : IO A := λ s,
  match fs_faults s with
  | Some (e, n) :: rest => (Err e, partial n (mkFs (fs_nodes s) rest (fs_uid s)))
  | None :: rest => m (mkFs (fs_nodes s) rest (fs_uid s))
  | [] => m s
  end.
Definition atomic_call {A} : IO A → IO A := call (λ _ s, s).

Definition not_found : IoError := mkIoError NotFound "no such file or directory".
Definition node_at (p : Path) : IO Node := λ s,
  match fs_nodes s !! p with Some n => (Ok n, s) | None => (Err not_found, s) end.
Definition kind_at (p : Path) (s : Fs) : option NodeKind := n_kind <$> fs_nodes s !! p.
Definition is_kind (k : NodeKind) (n : Node) : bool := bool_decide (n_kind n = k).

Definition is_symlink (n : Node) : bool :=
  match n_kind n with Symlink _ => true | _ => false end.

(** Following symbolic links, up to the kernel's limit of forty. *)
Fixpoint follow (links : nat) (p : Path) : IO Node :=
  n ← node_at p;
  match n_kind n, links with
  | Symlink target, S links => follow links target
  | Symlink _, O => throw (mkIoError OtherKind "too many levels of symbolic links")
  | _, _ => mret n
  end.
Definition MAX_SYMLINKS : nat := 40.

Definition symlink_metadata (p : Path) : IO Node := atomic_call (node_at p).
Definition metadata (p : Path) : IO Node := atomic_call (follow MAX_SYMLINKS p).
Definition path_exists (p : Path) : IO bool := λ s,
  match metadata p s with (Ok _, s) => (Ok true, s) | (Err _, s) => (Ok false, s) end.
Definition read_file (p : Path) : IO string :=
  atomic_call (n ← follow MAX_SYMLINKS p;
               if is_kind Directory n then throw (mkIoError OtherKind "is a directory")
               else mret (n_data n)).

(** [PathBuf::from(text)] and [path.canonicalize()]: the real path of what is there. *)
Definition path_of_string (text : string) : Path :=
  mkPath (starts_with "/" text)
    (List.filter (λ c, negb (str_is_empty c || String.eqb c ".")) (split_char "/" text)).
Fixpoint resolve_dots (done comps : list string) : list string :=
  match comps with
  | [] => done
  | c :: comps =>
    if String.eqb c ".." then resolve_dots (removelast done) comps
    else resolve_dots (done ++ [c]) comps
  end.
Fixpoint real_path (links : nat) (p : Path) : IO Path :=
  n ← node_at p;
  match n_kind n, links with
  | Symlink target, S links => real_path links target
  | Symlink _, O => throw (mkIoError OtherKind "too many levels of symbolic links")
  | _, _ => mret p
  end.
Definition canonicalize (p : Path) : IO Path :=
  atomic_call (real_path MAX_SYMLINKS (mkPath (p_absolute p) (resolve_dots [] (p_components p)))).

Definition child_of (dir p : Path) : bool := bool_decide (parent p = Some dir).
Definition children (dir : Path) (s : Fs) : list Path :=
  map fst (List.filter (λ e, child_of dir e.1) (map_to_list (fs_nodes s))).
Definition read_directory (dir : Path) : IO (list Path) :=
  atomic_call (n ← follow MAX_SYMLINKS dir;
               if is_kind Directory n then gets (children dir)
               else throw (mkIoError OtherKind "not a directory")).

Definition remove_file (p : Path) : IO unit :=
  atomic_call (n ← node_at p;
               if is_kind Directory n then throw (mkIoError OtherKind "is a directory")
               else modify (set_nodes (delete p))).

(** [fs::set_permissions] and [chown] change what the path leads to. *)
Definition with_mode (m : Z) (n : Node) : Node := mkNode (n_kind n) m (n_uid n) (n_data n).
Definition with_owner (uid : Z) (n : Node) : Node := mkNode (n_kind n) (n_mode n) uid (n_data n).
Definition change_target (f : Node → Node) (p : Path) : IO unit :=
  atomic_call (q ← real_path MAX_SYMLINKS p; modify (set_nodes (alter f q))).
Definition set_permissions (p : Path) (mode : Z) : IO unit := change_target (with_mode mode) p.
Definition chown (p : Path) (uid : Z) : IO unit := change_target (with_owner uid) p.

(** The directory and its ancestors; what exists is left alone. *)
Fixpoint prefixes (done comps : list string) : list (list string) :=
  match comps with
  | [] => []
  | c :: comps => (done ++ [c]) :: prefixes (done ++ [c]) comps
  end.
Definition new_dir (s : Fs) : Node := mkNode Directory 493 (* 0o755 *) (fs_uid s) "".
Definition ensure_dir (p : Path) : IO unit := λ s,
  match fs_nodes s !! p with
  | None => (Ok tt, set_nodes (<[p:=new_dir s]>) s)
  | Some n => if is_kind RegularFile n || is_kind Socket n
              then (Err (mkIoError AlreadyExists "file exists"), s) else (Ok tt, s)
  end.
Definition create_dir_all (p : Path) : IO unit :=
  atomic_call (forM_ (λ comps, ensure_dir (mkPath (p_absolute p) comps))
                     (prefixes [] (p_components p))).

Definition insert_absent (p : Path) (n : Node) : IO unit := λ s,
  match fs_nodes s !! p with
  | Some _ => (Err (mkIoError AlreadyExists "file exists"), s)
  | None => (Ok tt, set_nodes (<[p:=n]>) s)
  end.

(** [OpenOptions::new().create_new(true).write(true).mode(mode).open(path)]. *)
Definition create_new (p : Path) (mode : Z) : IO unit :=
  atomic_call (λ s, insert_absent p (mkNode RegularFile mode (fs_uid s) "") s).

(** [file.write_all(data)] at the end of an open file; a fault leaves a prefix. *)
Definition append_data (d : string) (n : Node) : Node :=
  mkNode (n_kind n) (n_mode n) (n_uid n) (String.append (n_data n) d).
Definition write_all (p : Path) (data : string) : IO unit :=
  call (λ k, set_nodes (alter (append_data (String.substring 0 k data)) p))
       (modify (set_nodes (alter (append_data data) p))).
Definition sync_all (p : Path) : IO unit := atomic_call (mret tt).

(** [hard_link] never replaces its target; [rename] does. *)
Definition hard_link (from to : Path) : IO unit :=
  atomic_call (n ← node_at from; insert_absent to n).
Definition rename (from to : Path) : IO unit :=
  atomic_call (n ← node_at from; modify (set_nodes (λ m, <[to:=n]> (delete from m)))).

(** ** Preparing a socket path
    The signer and the lifecycle transport do the same with their own errors: the parent
    must be a directory whose mode has none of [mask]; a socket that is left over is
    removed, and nothing else. *)
Section SocketPath.
Context {E : Type} (mask : Z) (missing insecure occupied : E) (io : IoError → E).

Definition clear_socket (path : Path) : M Fs E unit := λ s,
  match symlink_metadata path s with
  | (Ok metadata, s) =>
    if is_kind Socket metadata then M_map_err io (remove_file path) s else (Err occupied, s)
  | (Err error, s) => if kind_is NotFound error then (Ok tt, s) else (Err (io error), s)
  end.

Definition prepare_socket_at (path : Path) : M Fs E unit :=
  match parent path with
  | None => throw missing
  | Some parent =>
    metadata ← M_map_err io (metadata parent);
    if negb (is_kind Directory metadata) || negb (Z.land (n_mode metadata) mask =? 0)
    then throw insecure
    else clear_socket path
  end.
End SocketPath.

(** [Drop for SocketGuard]. *)
Definition drop_socket_guard (path : Path) (s : Fs) : Fs :=
  match symlink_metadata path s with
  | (Ok metadata, s) => if is_kind Socket metadata then (remove_file path s).2 else s
  | (Err _, s) => s
  end.

(** ** Lemmas *)
(** Calls without a fault due. *)
Lemma call_quiet {A} partial (m : IO A) s : fs_faults s = [] → call partial m s = m s.
Proof. unfold call. by intros ->. Qed.

Lemma join_inj p a b : join p a = join p b → a = b.
Proof. unfold join. intros [= H]. by simplify_list_eq. Qed.

Lemma join_last p q a b : join p a = join q b → a = b.
Proof. unfold join. intros [= _ E]. by apply app_inj_tail in E as [_ ->]. Qed.
Lemma parent_join p a : parent (join p a) = Some p.
Proof.
  destruct p as [abs comps]. unfold parent, join. cbn [p_components p_absolute].
  pose proof (removelast_last comps a) as Hlast.
  destruct (comps ++ [a]) eqn:E; [by destruct comps|]. by rewrite Hlast.
Qed.

Lemma join_neq p a : join p a ≠ p.
Proof.
  destruct p as [abs comps]. unfold join. cbn. intros [= H].
  apply (f_equal List.length) in H. rewrite length_app in H. cbn in H. lia.
Qed.

Lemma after_last_dot_app stem ext :
  contains_char "." ext = false →
  after_last_dot (String.append stem (String "." ext)) = Some (stem, ext).
Proof.
  intros Hext.
  assert (after_last_dot ext = None) as Hnone.
  { apply contains_char_false in Hext. induction ext as [|c ext IH]; [done|].
    cbn [all_bytes after_last_dot] in *. apply andb_true_iff in Hext as [Hc Hr].
    rewrite (IH Hr), Ascii.eqb_sym. by apply negb_true_iff in Hc as ->. }
  induction stem as [|c stem IH]; cbn; [by rewrite Hnone|]. cbn in IH. by rewrite IH.
Qed.

Lemma extension_join p stem ext :
  stem ≠ EmptyString → contains_char "." ext = false →
  extension (join p (String.append stem (String "." ext))) = Some ext.
Proof.
  intros Hs He. unfold extension, file_name, join. cbn [p_components].
  rewrite last_snoc. cbn [mbind option_bind]. rewrite after_last_dot_app by done.
  by destruct stem.
Qed.

Lemma elem_of_children dir p s :
  p ∈ children dir s ↔ parent p = Some dir ∧ is_Some (fs_nodes s !! p).
Proof.
  unfold children. rewrite list_elem_of_In, in_map_iff. split.
  - intros ([q n] & <- & Hin). apply filter_In in Hin as [Hin Hc]. cbn in *.
    apply list_elem_of_In, elem_of_map_to_list in Hin. apply bool_decide_eq_true in Hc. eauto.
  - intros [Hp [n Hn]]. exists (p, n). split; [done|]. apply filter_In. split.
    + by apply list_elem_of_In, elem_of_map_to_list.
    + unfold child_of. cbn. by apply bool_decide_eq_true_2.
Qed.

(** ** What calls do to the tree, whatever faults they meet *)
Definition nodes_kept (s s' : Fs) : Prop := fs_nodes s' = fs_nodes s.
#[export] Instance nodes_kept_preorder : PreOrder nodes_kept.
Proof. split; [done|]. intros a b c. unfold nodes_kept. congruence. Qed.

Lemma always_atomic_call {A} R (m : IO A) :
  (∀ s s', nodes_kept s s' → R s s') → (∀ s s' s'', nodes_kept s s' → R s' s'' → R s s'') →
  always R m → always R (atomic_call m).
Proof.
  intros Hk Ht Hm s. unfold atomic_call, call. destruct (fs_faults s) as [|[[e n]|] rest].
  - apply Hm.
  - by apply Hk.
  - eapply Ht; [|apply Hm]. done.
Qed.

Lemma kept_atomic_call {A} (m : IO A) : always nodes_kept m → always nodes_kept (atomic_call m).
Proof. apply always_atomic_call; [done|]. intros. by etrans. Qed.

Lemma kept_node_at p : always nodes_kept (node_at p).
Proof. intros s. unfold node_at. by destruct (fs_nodes s !! p). Qed.
Lemma kept_follow k p : always nodes_kept (follow k p).
Proof.
  revert p. induction k as [|k IH]; intros p; cbn [follow];
    (apply (always_bind nodes_kept); [apply kept_node_at|]; intros n);
    destruct (n_kind n); try apply (always_ret nodes_kept); [apply (always_throw nodes_kept)|apply IH].
Qed.
Lemma node_at_state p s : (node_at p s).2 = s.
Proof. unfold node_at. by destruct (fs_nodes s !! p). Qed.
Lemma follow_state k p s : (follow k p s).2 = s.
Proof.
  revert p. induction k as [|k IH]; intros p; cbn [follow]; unfold mbind, M_bind;
    pose proof (node_at_state p s); destruct (node_at p s) as [[n|] s1]; cbn in *; subst; try done;
    destruct (n_kind n); (done || apply IH).
Qed.
Lemma kept_metadata p : always nodes_kept (metadata p).
Proof. apply kept_atomic_call, kept_follow. Qed.
Lemma kept_symlink_metadata p : always nodes_kept (symlink_metadata p).
Proof. apply kept_atomic_call, kept_node_at. Qed.
Lemma kept_read_file p : always nodes_kept (read_file p).
Proof.
  apply kept_atomic_call, (always_bind nodes_kept); [apply kept_follow|]. intros n.
  destruct (is_kind Directory n); [apply (always_throw nodes_kept)|apply (always_ret nodes_kept)].
Qed.
Lemma kept_read_directory p : always nodes_kept (read_directory p).
Proof.
  apply kept_atomic_call, (always_bind nodes_kept); [apply kept_follow|]. intros n.
  destruct (is_kind Directory n); [apply (always_gets nodes_kept)|apply (always_throw nodes_kept)].
Qed.
Lemma kept_path_exists p : always nodes_kept (path_exists p).
Proof.
  intros s. unfold path_exists. pose proof (kept_metadata p s). by destruct (metadata p s) as [[]].
Qed.
#[export] Hint Resolve kept_metadata kept_symlink_metadata kept_read_file kept_read_directory
  kept_path_exists : buzz.

(** Only [p] may change. *)
Definition only_at (p : Path) (s s' : Fs) : Prop :=
  ∀ q, q ≠ p → fs_nodes s' !! q = fs_nodes s !! q.
#[export] Instance only_at_preorder p : PreOrder (only_at p).
Proof.
  split; [done|]. intros a b c Hab Hbc q Hq. rewrite Hbc by done. by apply Hab.
Qed.
Lemma kept_only_at p s s' : nodes_kept s s' → only_at p s s'.
Proof. unfold nodes_kept, only_at. by intros ->. Qed.

Lemma remove_file_effect p s :
  (remove_file p s).1 = Ok tt ∧ fs_nodes (remove_file p s).2 = delete p (fs_nodes s)
    ∧ is_Some (fs_nodes s !! p)
  ∨ (∃ e, (remove_file p s).1 = Err e) ∧ nodes_kept s (remove_file p s).2.
Proof.
  unfold remove_file, atomic_call, call, mbind, M_bind, node_at.
  destruct (fs_faults s) as [|[[e n]|] rest]; cbn; [|right; split; [by eexists|done]|].
  all: destruct (fs_nodes s !! p) as [n|] eqn:E; cbn; [|right; split; [by eexists|done]].
  all: destruct (is_kind Directory n); cbn; [right; split; [by eexists|done]|].
  all: left; split_and!; [done|done|by eexists].
Qed.

Lemma symlink_metadata_ok p s n s' :
  symlink_metadata p s = (Ok n, s') → fs_nodes s' !! p = Some n.
Proof.
  unfold symlink_metadata, atomic_call, call, node_at.
  destruct (fs_faults s) as [|[[e k]|] rest]; cbn; [|done|];
    destruct (fs_nodes s !! p) eqn:E; try done; intros [= <- <-]; done.
Qed.

Lemma node_at_quiet p s : fs_faults s = [] → symlink_metadata p s = node_at p s.
Proof. apply call_quiet. Qed.

(** Preparing a socket path removes at most a socket, whatever fails; when nothing fails
    and it succeeds, the parent is a directory without the forbidden bits and the path is
    free. *)
Lemma prepare_socket_at_safe {E} mask (missing insecure occupied : E) io path s :
  let '(r, s') := prepare_socket_at mask missing insecure occupied io path s in
  (nodes_kept s s'
   ∨ (∃ n, fs_nodes s !! path = Some n ∧ n_kind n = Socket)
     ∧ fs_nodes s' = delete path (fs_nodes s))
  ∧ (fs_faults s = [] → r = Ok tt →
     fs_nodes s' !! path = None
     ∧ ∃ dir n, parent path = Some dir ∧ follow MAX_SYMLINKS dir s = (Ok n, s)
        ∧ n_kind n = Directory ∧ Z.land (n_mode n) mask = 0).
Proof.
  unfold prepare_socket_at. destruct (parent path) as [dir|]; [|by split; [left|]].
  unfold mbind at 1, M_bind at 1, M_map_err at 1.
  pose proof (kept_metadata dir s) as Hk. destruct (metadata dir s) as [[n|e] s1] eqn:Em; cbn in *;
    [|by split; [left|]].
  destruct (negb _ || negb _) eqn:Ec; [by split; [left|]|].
  apply orb_false_iff in Ec as [Hdir Hmode].
  apply negb_false_iff, bool_decide_eq_true in Hdir. apply negb_false_iff, Z.eqb_eq in Hmode.
  assert (fs_faults s = [] → s1 = s ∧ follow MAX_SYMLINKS dir s = (Ok n, s)) as Hq.
  { intros Hf. unfold metadata, atomic_call in Em. rewrite call_quiet in Em by done.
    pose proof (follow_state MAX_SYMLINKS dir s) as Hs. rewrite Em in Hs. cbn in Hs. by subst. }
  unfold clear_socket. pose proof (kept_symlink_metadata path s1) as Hk2.
  assert (fs_faults s1 = [] → symlink_metadata path s1 = node_at path s1) as Hn
    by apply node_at_quiet.
  unfold nodes_kept in Hk.
  destruct (symlink_metadata path s1) as [[m|e] s2] eqn:Es; cbn in Hk2.
  - assert (fs_nodes s2 !! path = Some m) as Hm by (by apply symlink_metadata_ok in Es).
    destruct (is_kind Socket m) eqn:Ek; [apply bool_decide_eq_true in Ek|by split; [left; etrans|]].
    unfold M_map_err. destruct (remove_file_effect path s2) as [(Hr & Hd & _)|[[e He] Hd]];
      destruct (remove_file path s2) as [r s3]; cbn in *; subst r; cbn.
    + split.
      * right. unfold nodes_kept in Hk2. rewrite Hk2, Hk in Hd, Hm. eauto.
      * intros Hf _. rewrite Hd, lookup_delete_eq. split; [done|]. exists dir, n.
        by destruct (Hq Hf).
    + split; [left; etrans; [|done]; by etrans|done].
  - destruct (kind_is NotFound e); [|by split; [left; etrans|]]. split; [left; by etrans|].
    intros Hf _. destruct (Hq Hf) as [-> Hfol].
    specialize (Hn Hf). unfold node_at in Hn.
    destruct (fs_nodes s !! path) eqn:Ep; [done|]. injection Hn as -> ->.
    split; [done|]. by exists dir, n.
Qed.

(** ** Single calls: what a success did, and that a failure did nothing *)
Lemma atomic_call_ok {A} (m : IO A) s a s' :
  atomic_call m s = (Ok a, s') → ∃ s0, nodes_kept s s0 ∧ fs_uid s0 = fs_uid s ∧ m s0 = (Ok a, s').
Proof.
  unfold atomic_call, call. destruct (fs_faults s) as [|[[e n]|] rest] eqn:Ef; [|done|].
  - intros Hm. exists s. by split_and!.
  - intros Hm. eexists. by split_and!; [| |exact Hm].
Qed.

Lemma create_new_ok p mode s s' :
  create_new p mode s = (Ok tt, s') →
  fs_nodes s !! p = None ∧ fs_nodes s' = <[p:=mkNode RegularFile mode (fs_uid s) ""]> (fs_nodes s).
Proof.
  intros (s0 & Hk & Hu & Hm)%atomic_call_ok. unfold insert_absent, nodes_kept in *.
  rewrite Hk, Hu in Hm. destruct (fs_nodes s !! p); [done|]. injection Hm as <-. cbn. by rewrite Hk.
Qed.
Lemma only_at_create_new p mode : always (only_at p) (create_new p mode).
Proof.
  apply always_atomic_call.
  - intros ??. apply kept_only_at.
  - intros s s' s'' Hk Ho. etrans; [by apply kept_only_at|done].
  - intros s. unfold insert_absent. destruct (fs_nodes s !! p); [done|].
    intros q Hq. cbn. by rewrite lookup_insert_ne.
Qed.

Lemma write_all_ok p d s s' :
  write_all p d s = (Ok tt, s') → fs_nodes s' = alter (append_data d) p (fs_nodes s).
Proof.
  unfold write_all, call. destruct (fs_faults s) as [|[[e n]|] rest]; [|done|]; by intros [= <-].
Qed.
Lemma only_at_write_all p d : always (only_at p) (write_all p d).
Proof.
  intros s. unfold write_all, call.
  destruct (fs_faults s) as [|[[e n]|] rest]; intros q Hq; cbn; by rewrite lookup_alter_ne.
Qed.

Lemma kept_sync_all p : always nodes_kept (sync_all p).
Proof. apply kept_atomic_call, (always_ret nodes_kept). Qed.

Lemma rename_ok from to s s' :
  rename from to s = (Ok tt, s') →
  ∃ n, fs_nodes s !! from = Some n ∧ fs_nodes s' = <[to:=n]> (delete from (fs_nodes s)).
Proof.
  intros (s0 & Hk & _ & Hm)%atomic_call_ok. apply bind_ok in Hm as (n & s1 & Hn & Hm).
  unfold node_at in Hn. unfold nodes_kept in Hk. rewrite Hk in Hn.
  destruct (fs_nodes s !! from) as [n'|]; [|done]. injection Hn as -> <-. injection Hm as <-.
  exists n. cbn. by rewrite Hk.
Qed.
Lemma rename_err from to s e s' : rename from to s = (Err e, s') → nodes_kept s s'.
Proof.
  unfold rename, atomic_call, call, mbind, M_bind, node_at, nodes_kept.
  destruct (fs_faults s) as [|[[e' k]|] rest]; cbn.
  - destruct (fs_nodes s !! from); [done|]. by intros [= _ <-].
  - by intros [= _ <-].
  - destruct (fs_nodes s !! from); [done|]. by intros [= _ <-].
Qed.
Lemma only_at_remove_file p : always (only_at p) (remove_file p).
Proof.
  intros s. destruct (remove_file_effect p s) as [(_ & Hd & _)|[_ Hk]]; [|by apply kept_only_at].
  intros q Hq. by rewrite Hd, lookup_delete_ne.
Qed.

(** Creating directories: what exists stays, what is new is a directory, no deeper than
    asked for. *)
Definition dirs_grow (depth : nat) (s s' : Fs) : Prop :=
  ∀ q, fs_nodes s' !! q = fs_nodes s !! q
       ∨ fs_nodes s !! q = None ∧ (List.length (p_components q) ≤ depth)%nat
         ∧ ∃ n, fs_nodes s' !! q = Some n ∧ n_kind n = Directory.
#[export] Instance dirs_grow_preorder d : PreOrder (dirs_grow d).
Proof.
  split; [by intros s q; left|]. intros a b c Hab Hbc q.
  destruct (Hab q) as [Eab|(Na & La & n & Nb & Kn)], (Hbc q) as [Ebc|(Nb' & Lb & m & Nc & Km)].
  - left. congruence.
  - right. split; [congruence|]. eauto.
  - right. split_and!; [done..|]. exists n. split; [congruence|done].
  - congruence.
Qed.
Lemma prefixes_length done comps c :
  c ∈ prefixes done comps → (List.length c ≤ List.length done + List.length comps)%nat.
Proof.
  revert done. induction comps as [|x comps IH]; intros done; cbn.
  - by intros ?%not_elem_of_nil.
  - intros [->|Hc]%elem_of_cons; [rewrite length_app; cbn; lia|].
    specialize (IH _ Hc). rewrite length_app in IH. cbn in IH. lia.
Qed.
Lemma create_dir_all_grow p : always (dirs_grow (List.length (p_components p))) (create_dir_all p).
Proof.
  apply always_atomic_call.
  - intros s s' Hk q. left. by rewrite Hk.
  - intros s s' s'' Hk Hg q. specialize (Hg q). by rewrite Hk in Hg.
  - assert (∀ c, c ∈ prefixes [] (p_components p) → (List.length c ≤ List.length (p_components p))%nat)
      as Hlen by (intros c; apply prefixes_length).
    revert Hlen. generalize (prefixes [] (p_components p)) as l. induction l as [|c l IH]; intros Hlen.
    + cbn. apply (always_ret (dirs_grow _)).
    + cbn. apply (always_bind (dirs_grow _)); [|intros _; apply IH; set_solver].
      intros s q. unfold ensure_dir.
      destruct (fs_nodes s !! mkPath (p_absolute p) c) as [n|] eqn:E.
      { destruct (is_kind RegularFile n || is_kind Socket n); by left. }
      cbn. destruct (decide (q = mkPath (p_absolute p) c)) as [->|Hne].
      * right. rewrite lookup_insert_eq. split_and!; [done|cbn; apply Hlen; set_solver|by eexists].
      * left. by rewrite lookup_insert_ne.
Qed.

(** ** Changing what a path leads to *)
Definition plain_at (p : Path) (s : Fs) : Prop :=
  ∀ n, fs_nodes s !! p = Some n → is_symlink n = false.
(** A node that is no link is its own target. *)
Lemma real_path_plain k p s :
  plain_at p s →
  real_path k p s = (match fs_nodes s !! p with Some _ => Ok p | None => Err not_found end, s).
Proof.
  intros Hp. unfold plain_at in Hp. destruct k; cbn [real_path]; unfold mbind, M_bind, node_at;
    (destruct (fs_nodes s !! p) as [n|]; [|done]);
    specialize (Hp n eq_refl); unfold is_symlink in Hp; by destruct (n_kind n).
Qed.
Lemma alter_insert_lookup (f : Node → Node) (p : Path) (m : gmap Path Node) n :
  m !! p = Some n → alter f p m = <[p := f n]> m.
Proof.
  intros Hn. apply map_eq. intros q. destruct (decide (q = p)) as [->|Hne].
  - by rewrite lookup_alter_eq, Hn, lookup_insert_eq.
  - by rewrite lookup_alter_ne, lookup_insert_ne.
Qed.
Lemma change_target_plain f p s :
  plain_at p s →
  match (change_target f p s).1 with
  | Ok _ => ∃ n, fs_nodes s !! p = Some n
              ∧ fs_nodes (change_target f p s).2 = <[p := f n]> (fs_nodes s)
  | Err _ => nodes_kept s (change_target f p s).2
  end.
Proof.
  intros Hp. unfold change_target, atomic_call, call, mbind, M_bind.
  destruct s as [nodes faults me]. cbn [fs_faults fs_nodes fs_uid] in *.
  destruct faults as [|[[e k]|] rest]; [|done|];
    (rewrite real_path_plain by exact Hp); cbn [fs_nodes];
    destruct (nodes !! p) as [n|] eqn:En; try done; exists n; (split; [done|]);
    cbn; by apply alter_insert_lookup.
Qed.
Lemma change_target_quiet f p s n :
  fs_faults s = [] → fs_nodes s !! p = Some n → is_symlink n = false →
  (change_target f p s).1 = Ok tt ∧ fs_faults (change_target f p s).2 = [].
Proof.
  intros Hf Hn Hl. unfold change_target, atomic_call. rewrite call_quiet by done.
  unfold mbind, M_bind. rewrite real_path_plain by (intros m Hm; congruence). by rewrite Hn.
Qed.
Lemma only_at_change_target f p s : plain_at p s → only_at p s (change_target f p s).2.
Proof.
  intros Hp. pose proof (change_target_plain f p s Hp) as He.
  destruct (change_target f p s) as [[[]|e] s1]; cbn in *; [|by apply kept_only_at].
  destruct He as (n & _ & He). intros q Hq. by rewrite He, lookup_insert_ne.
Qed.
Lemma real_path_state k p s : (real_path k p s).2 = s.
Proof.
  revert p. induction k as [|k IH]; intros p; cbn [real_path]; unfold mbind, M_bind;
    pose proof (node_at_state p s); destruct (node_at p s) as [[n|] s1]; cbn in *; subst; try done;
    destruct (n_kind n); (done || apply IH).
Qed.
(** Wherever the path leads, at most one entry is changed, by [f]. *)
Lemma change_target_alters f p s :
  nodes_kept s (change_target f p s).2 ∨ ∃ q, fs_nodes (change_target f p s).2 = alter f q (fs_nodes s).
Proof.
  unfold change_target, atomic_call, call, mbind, M_bind.
  destruct (fs_faults s) as [|[[e k]|] rest]; [|by left|].
  - pose proof (real_path_state MAX_SYMLINKS p s) as Hs.
    destruct (real_path MAX_SYMLINKS p s) as [[q|e] s1]; cbn in *; subst s1; [right; by exists q|by left].
  - pose proof (real_path_state MAX_SYMLINKS p (mkFs (fs_nodes s) rest (fs_uid s))) as Hs.
    destruct (real_path MAX_SYMLINKS p _) as [[q|e] s1]; cbn in *; subst s1; [right; by exists q|by left].
Qed.

(** ** What reading finds *)
(** The node a path leads to. *)
Fixpoint target_of (links : nat) (m : gmap Path Node) (p : Path) : option Node :=
  n ← m !! p;
  match n_kind n, links with
  | Symlink target, S links => target_of links m target
  | Symlink _, O => None
  | _, _ => Some n
  end.
Definition leads_to (s : Fs) (p : Path) (n : Node) : Prop :=
  target_of MAX_SYMLINKS (fs_nodes s) p = Some n.

Lemma follow_target k p s n s' :
  follow k p s = (Ok n, s') ↔ s' = s ∧ target_of k (fs_nodes s) p = Some n.
Proof.
  revert p. induction k as [|k IH]; intros p; cbn [follow target_of];
    unfold mbind, M_bind, option_bind, node_at; destruct (fs_nodes s !! p) as [m|];
    try (split; [done|by intros []]).
  - destruct (n_kind m); cbn; split; (try by intros [= <- <-]); (try by intros [-> [= ->]]);
      by intros [].
  - destruct (n_kind m); [..|apply IH]; cbn; split;
      (try by intros [= <- <-]); by intros [-> [= ->]].
Qed.

Lemma leads_to_kept s s' p n : nodes_kept s s' → leads_to s' p n ↔ leads_to s p n.
Proof. unfold nodes_kept, leads_to. by intros ->. Qed.

Lemma read_file_ok p s d s' :
  read_file p s = (Ok d, s') → ∃ n, leads_to s p n ∧ n_data n = d ∧ n_kind n ≠ Directory.
Proof.
  intros (s0 & Hk & _ & Hm)%atomic_call_ok. apply bind_ok in Hm as (n & s1 & Hf & Hm).
  apply follow_target in Hf as [-> Hf]. exists n. split.
  - by apply (leads_to_kept s s0).
  - unfold is_kind in Hm. case_bool_decide as Hd; [done|]. by injection Hm as ->.
Qed.
Lemma read_file_quiet p s n :
  fs_faults s = [] → leads_to s p n → n_kind n ≠ Directory → read_file p s = (Ok (n_data n), s).
Proof.
  intros Hf Hl Hk. unfold read_file, atomic_call. rewrite call_quiet by done.
  unfold mbind, M_bind. rewrite (proj2 (follow_target _ p s n s)) by done.
  unfold is_kind. by rewrite bool_decide_eq_false_2.
Qed.
Lemma read_directory_ok p s l s' :
  read_directory p s = (Ok l, s') → l = children p s.
Proof.
  intros (s0 & Hk & _ & Hm)%atomic_call_ok. apply bind_ok in Hm as (n & s1 & Hf & Hm).
  apply follow_target in Hf as [-> Hf]. destruct (is_kind Directory n); [|done].
  injection Hm as <- _. unfold children. by rewrite Hk.
Qed.
Lemma leads_to_plain s p n :
  fs_nodes s !! p = Some n → is_symlink n = false → leads_to s p n.
Proof.
  intros Hn Hs. unfold leads_to, target_of. cbn. rewrite Hn. cbn. unfold is_symlink in Hs.
  by destruct (n_kind n).
Qed.

(** Visiting files without changing them. *)
Lemma mapM_kept {E A B} (f : A → M Fs E B) l s ys s' :
  (∀ x, always nodes_kept (f x)) → mapM' f l s = (Ok ys, s') →
  nodes_kept s s'
  ∧ ∀ x, x ∈ l → ∃ y s1 s2, y ∈ ys ∧ nodes_kept s s1 ∧ f x s1 = (Ok y, s2).
Proof.
  intros Hf. revert s ys. induction l as [|x l IH]; intros s ys; cbn [mapM'].
  - intros [= <- <-]. split; [done|]. by intros x ?%not_elem_of_nil.
  - intros (y & s1 & Hx & Hm)%bind_ok. apply bind_ok in Hm as (ys' & s2 & Hl & Hm).
    injection Hm as <- <-. pose proof (Hf x s) as Hk. rewrite Hx in Hk. cbn in Hk.
    destruct (IH s1 ys' Hl) as [Hk' Hall]. split; [by etrans|].
    intros x' [->|Hin]%elem_of_cons.
    + exists y, s, s1. split_and!; [left|done|done].
    + destruct (Hall x' Hin) as (y' & t1 & t2 & Hy & Ht & Hfx).
      exists y', t1, t2. split_and!; [by right|by etrans|done].
Qed.
