(* ===== verification/Signer.v ===== *)
(** * The constrained signer (signer.rs, signer_ipc.rs)
    The one operation of the signer, its framed protocol, and the Unix socket it is served
    on. Keys, NIP-OA and the JSON encoding are interfaces; the reads of the socket return
    what has arrived, in pieces of any size. *)
From Stdlib Require Import ZArith Lia String Ascii.
From stdpp Require Import base gmap list strings.
From S2P Require Import Prelude RustStr Ids Lifecycle Agent Bytes Codec Monad Fs.
#[local] Open Scope Z_scope.

Definition MAX_SIGNER_FRAME_BYTES : Z := 16 * 1024.
Definition AUTHORIZE_AGENT_ACTION : string := "authorize_agent".

Record AuthorizeAgentRequest : Type := mkAuthorizeRequest {
  ar_action : string; ar_community_config_id : CommunityConfigId; ar_relay_url : Url;
  ar_agent_pubkey : string; ar_conditions : string
}.
Record AuthorizeAgentResponse : Type := mkAuthorizeResponse {
  as_owner_pubkey : string; as_agent_pubkey : string;
  as_community_config_id : CommunityConfigId; as_relay_url : Url; as_auth_tag : string
}.

Inductive SignerErrorCode : Type :=
| MalformedFrame | FrameTooLarge | InvalidRequest | ActionNotAllowed | CommunityNotAllowed
| RelayNotAllowed | AgentNotAllowed | ConditionsNotAllowed | AuthorizationFailed.
Record SignerError : Type := signer_error { se_code : SignerErrorCode; se_message : string }.

Inductive SignerIpcResponse : Type :=
| Authorized (response : AuthorizeAgentResponse)
| SignerRefused (error : SignerError).

Record SignerPolicy : Type := mkSignerPolicy {
  sp_community_config_id : CommunityConfigId; sp_relay_url : Url;
  sp_agent_pubkey : string; sp_conditions : string
}.

(** ** Keys and encodings *)
Class SignerKeys : Type := {
  Keys : Type;
  PublicKey : Type;
  public_key_eq_dec :: EqDecision PublicKey;
  public_key : Keys → PublicKey;
  to_hex : PublicKey → string;
  PublicKey_from_str : string → option PublicKey;
  compute_auth_tag : Keys → PublicKey → string → option string
}.
Class SignerJson : Type := {
  request_from_slice : list Z → option AuthorizeAgentRequest;
  request_to_vec : AuthorizeAgentRequest → list Z;
  response_from_slice : list Z → option SignerIpcResponse;
  response_to_vec : SignerIpcResponse → list Z
}.
(** [serde_json] reads back what it wrote, and writes bytes. *)
Class SignerJsonLaws `{SignerJson} : Prop := {
  request_round_trip r : request_from_slice (request_to_vec r) = Some r;
  response_round_trip r : response_from_slice (response_to_vec r) = Some r
}.

(** ** Frames: a big-endian length and the payload *)
Definition decode_frame (frame : list Z) : result SignerError (list Z) :=
  ensure negb (List.length frame <? 4)%nat
  else signer_error MalformedFrame "frame header is invalid" in
  let payload_length := from_be_bytes (take 4 frame) in
  ensure negb (MAX_SIGNER_FRAME_BYTES <? payload_length)
  else signer_error FrameTooLarge "frame exceeds the maximum size" in
  ensure (Z.of_nat (List.length frame) =? payload_length + 4)
  else signer_error MalformedFrame "frame length does not match its payload" in
  Ok (drop 4 frame).

(** [(payload.len() as u32).to_be_bytes()] and the payload. *)
Definition encode_frame (payload : list Z) : list Z :=
  to_be_bytes 4 (Z.of_nat (List.length payload)) ++ payload.

(** ** [DisposableSigner] *)
Section Signer.
Context `{SignerKeys} `{SignerJson}.

Record DisposableSigner : Type := mkSigner { ds_owner_keys : Keys; ds_policy : SignerPolicy }.

Definition from_owner_keys (owner_keys : Keys) (policy : SignerPolicy)
  : result SignerError DisposableSigner :=
  let? agent := ok_or (signer_error InvalidRequest "agent public key is invalid")
                      (PublicKey_from_str (sp_agent_pubkey policy)) in
  ensure negb (bool_decide (public_key owner_keys = agent))
  else signer_error InvalidRequest "owner and agent identities must be distinct" in
  Ok (mkSigner owner_keys policy).

(** [generate]: fresh owner and agent keys, and the policy that names the agent. *)
Definition generate (owner_keys agent_keys : Keys) (community_config_id : CommunityConfigId)
    (relay_url : Url) (conditions : string) : DisposableSigner :=
  mkSigner owner_keys
    (mkSignerPolicy community_config_id relay_url (to_hex (public_key agent_keys)) conditions).

Definition authorize_agent (self : DisposableSigner) (request : AuthorizeAgentRequest)
  : result SignerError AuthorizeAgentResponse :=
  let policy := ds_policy self in
  ensure String.eqb (ar_action request) AUTHORIZE_AGENT_ACTION
  else signer_error ActionNotAllowed "requested action is not allowed" in
  ensure bool_decide (ar_community_config_id request = sp_community_config_id policy)
  else signer_error CommunityNotAllowed "requested community is not allowed" in
  ensure bool_decide (ar_relay_url request = sp_relay_url policy)
  else signer_error RelayNotAllowed "requested relay is not allowed" in
  ensure String.eqb (ar_agent_pubkey request) (sp_agent_pubkey policy)
  else signer_error AgentNotAllowed "requested agent is not allowed" in
  ensure String.eqb (ar_conditions request) (sp_conditions policy)
  else signer_error ConditionsNotAllowed "requested conditions are not allowed" in
  let? agent_pubkey := ok_or (signer_error InvalidRequest "agent public key is invalid")
                             (PublicKey_from_str (ar_agent_pubkey request)) in
  let? auth_tag := ok_or (signer_error AuthorizationFailed "authorization could not be produced")
                         (compute_auth_tag (ds_owner_keys self) agent_pubkey
                                           (ar_conditions request)) in
  Ok (mkAuthorizeResponse (to_hex (public_key (ds_owner_keys self))) (ar_agent_pubkey request)
        (ar_community_config_id request) (ar_relay_url request) auth_tag).

Definition respond (self : DisposableSigner) (frame : list Z) : SignerIpcResponse :=
  match decode_frame frame with
  | Ok payload =>
    match request_from_slice payload with
    | Some request =>
      match authorize_agent self request with
      | Ok response => Authorized response
      | Err error => SignerRefused error
      end
    | None => SignerRefused (signer_error InvalidRequest "request JSON is invalid")
    end
  | Err error => SignerRefused error
  end.
Definition handle_frame (self : DisposableSigner) (frame : list Z) : list Z :=
  encode_frame (response_to_vec (respond self frame)).

Definition encode_authorize_request (request : AuthorizeAgentRequest) : list Z :=
  encode_frame (request_to_vec request).

Definition decode_signer_response (frame : list Z) : result SignerError SignerIpcResponse :=
  let? payload := decode_frame frame in
  ok_or (signer_error InvalidRequest "response JSON is invalid") (response_from_slice payload).

(** ** signer_ipc.rs *)
(** The four header bytes, and as much of an acceptable payload as arrives. *)
Definition read_bounded_frame (stream : Reader) : result IoError (list Z * Reader) :=
  let? (header, stream) := read_fill 4 stream in
  if (List.length header <? 4)%nat then Ok (header, stream)
  else
    let payload_length := from_be_bytes header in
    if MAX_SIGNER_FRAME_BYTES <? payload_length then Ok (header, stream)
    else
      let? (payload, stream) := read_fill (Z.to_nat payload_length) stream in
      Ok (header ++ payload, stream).

(** What is written to the stream; an error of a read ends the connection without. *)
Definition serve_connection (self : DisposableSigner) (stream : Reader)
  : result IoError (list Z * Reader) :=
  let? (frame, stream) := read_bounded_frame stream in
  Ok (handle_frame self frame, stream).
End Signer.

Inductive SignerIpcError : Type :=
| MissingParent | InsecureParentPermissions | PathOccupied
| SignerTask (message : string) | SignerIo (e : IoError).

Definition prepare_socket_path : Path → M Fs SignerIpcError unit :=
  prepare_socket_at 63 (* 0o077 *) MissingParent InsecureParentPermissions PathOccupied SignerIo.

(** ** Lemmas *)
Lemma take_to_be_bytes n v l : take n (to_be_bytes n v ++ l) = to_be_bytes n v.
Proof. by rewrite take_app_length' by (symmetry; apply length_to_be_bytes). Qed.
Lemma drop_to_be_bytes n v l : drop n (to_be_bytes n v ++ l) = l.
Proof. by rewrite drop_app_length' by (symmetry; apply length_to_be_bytes). Qed.

Lemma length_encode_frame p : List.length (encode_frame p) = (4 + List.length p)%nat.
Proof. unfold encode_frame. by rewrite length_app, length_to_be_bytes. Qed.

Definition fits (payload : list Z) : Prop :=
  Z.of_nat (List.length payload) ≤ MAX_SIGNER_FRAME_BYTES.

Lemma header_of_encode p more :
  fits p → from_be_bytes (take 4 (encode_frame p ++ more)) = Z.of_nat (List.length p).
Proof.
  unfold fits, MAX_SIGNER_FRAME_BYTES, encode_frame. intros Hp.
  rewrite <- app_assoc, take_to_be_bytes, from_to_be_bytes_small; [done|]. cbn. lia.
Qed.

Lemma decode_encode_frame p : fits p → decode_frame (encode_frame p) = Ok p.
Proof.
  intros Hp. unfold decode_frame. pose proof (header_of_encode p [] Hp) as Hh.
  rewrite app_nil_r in Hh. rewrite Hh, length_encode_frame.
  unfold fits in Hp. destruct (Z.ltb_spec MAX_SIGNER_FRAME_BYTES (Z.of_nat (List.length p))); [lia|].
  cbn [Nat.ltb Nat.leb Nat.add negb]. rewrite (proj2 (Z.eqb_eq _ _)) by lia.
  unfold encode_frame. by rewrite drop_to_be_bytes.
Qed.

(** A frame that decodes is the encoding of its payload. *)
Lemma split_header m :
  bytes_ok m → (4 ≤ List.length m)%nat →
  m = to_be_bytes 4 (from_be_bytes (take 4 m)) ++ drop 4 m.
Proof.
  intros Hm Hl. rewrite <- (take_drop 4 m) at 1. f_equal.
  assert (bytes_ok (take 4 m)) as Ht by by apply Forall_take.
  assert (List.length (take 4 m) = 4%nat) as Hlt by (rewrite length_take; lia).
  pose proof (from_be_bytes_bound _ Ht) as Hb. rewrite Hlt in Hb.
  apply from_be_bytes_inj; [done|apply to_be_bytes_ok|by rewrite length_to_be_bytes|].
  rewrite from_to_be_bytes_small; [done|]. cbn in *. lia.
Qed.

Lemma decode_frame_ok frame payload :
  bytes_ok frame → decode_frame frame = Ok payload ↔ frame = encode_frame payload ∧ fits payload.
Proof.
  intros Hb. split; [|intros [-> Hp]; by apply decode_encode_frame].
  unfold decode_frame. destruct (Nat.ltb_spec (List.length frame) 4) as [|Hl]; [done|]. cbn [negb].
  destruct (Z.ltb_spec MAX_SIGNER_FRAME_BYTES (from_be_bytes (take 4 frame))) as [|Hmax]; [done|].
  destruct (Z.eqb_spec (Z.of_nat (List.length frame)) (from_be_bytes (take 4 frame) + 4)) as [He|];
    [|done]. cbn. intros [= <-].
  assert (Z.of_nat (List.length (drop 4 frame)) = from_be_bytes (take 4 frame)) as Hp
    by (rewrite length_drop; lia).
  unfold encode_frame, fits. rewrite Hp. split; [by apply split_header|done].
Qed.

(** ** What one connection reads *)
Definition frame_length (m : list Z) : nat :=
  if (List.length m <? 4)%nat then List.length m
  else if MAX_SIGNER_FRAME_BYTES <? from_be_bytes (take 4 m) then 4
  else 4 + Z.to_nat (from_be_bytes (take 4 m)).

Lemma read_bounded_frame_delivers s m :
  delivers s m →
  ∃ s', read_bounded_frame s = Ok (take (frame_length m) m, s')
        ∧ delivers s' (drop (frame_length m) m).
Proof.
  intros Hd. unfold read_bounded_frame, frame_length.
  destruct (read_fill_delivers 4 s m Hd) as (s1 & -> & Hd1). cbn beta iota.
  rewrite length_take. destruct (Nat.ltb_spec (List.length m) 4) as [Hl|Hl].
  - rewrite (proj2 (Nat.ltb_lt _ _)) by lia. exists s1. rewrite drop_ge in Hd1 by lia.
    by rewrite !take_ge, drop_ge by lia.
  - rewrite (proj2 (Nat.ltb_ge _ _)) by lia.
    destruct (Z.ltb_spec MAX_SIGNER_FRAME_BYTES (from_be_bytes (take 4 m))); [by exists s1|].
    destruct (read_fill_delivers (Z.to_nat (from_be_bytes (take 4 m))) s1 _ Hd1)
      as (s2 & -> & Hd2). exists s2. rewrite drop_drop in Hd2. by rewrite <- take_take_drop.
Qed.

Lemma decode_frame_of_stream m payload :
  bytes_ok m →
  decode_frame (take (frame_length m) m) = Ok payload ↔
  fits payload ∧ ∃ more, m = encode_frame payload ++ more.
Proof.
  intros Hb. rewrite decode_frame_ok by (by apply Forall_take). split.
  - intros [Ht Hp]. split; [done|]. exists (drop (frame_length m) m). by rewrite <- Ht, take_drop.
  - intros [Hp [more ->]]. split; [|done]. apply take_app_length'.
    unfold frame_length. rewrite header_of_encode by done.
    rewrite length_app, length_encode_frame. cbn [Nat.add Nat.ltb Nat.leb].
    unfold fits in Hp.
    destruct (Z.ltb_spec MAX_SIGNER_FRAME_BYTES (Z.of_nat (List.length payload))); lia.
Qed.

(** ** Authorization *)
Section Properties.
Context `{SignerKeys} `{SignerJson}.

Definition allowed (policy : SignerPolicy) (r : AuthorizeAgentRequest) : Prop :=
  r = mkAuthorizeRequest AUTHORIZE_AGENT_ACTION (sp_community_config_id policy)
        (sp_relay_url policy) (sp_agent_pubkey policy) (sp_conditions policy).

(** The one response a signer gives. *)
Definition granted (self : DisposableSigner) (response : AuthorizeAgentResponse) : Prop :=
  let policy := ds_policy self in
  ∃ agent tag,
    PublicKey_from_str (sp_agent_pubkey policy) = Some agent
    ∧ compute_auth_tag (ds_owner_keys self) agent (sp_conditions policy) = Some tag
    ∧ response = mkAuthorizeResponse (to_hex (public_key (ds_owner_keys self)))
                   (sp_agent_pubkey policy) (sp_community_config_id policy)
                   (sp_relay_url policy) tag.

Lemma authorize_agent_ok self request response :
  authorize_agent self request = Ok response ↔
  allowed (ds_policy self) request ∧ granted self response.
Proof.
  unfold authorize_agent, allowed, granted. split.
  - destruct request as [action community relay agent conditions]. cbn.
    destruct (String.eqb_spec action AUTHORIZE_AGENT_ACTION) as [->|]; [|done].
    do 2 (case_bool_decide; [subst|done]).
    destruct (String.eqb_spec agent (sp_agent_pubkey (ds_policy self))) as [->|]; [|done].
    destruct (String.eqb_spec conditions (sp_conditions (ds_policy self))) as [->|]; [|done].
    destruct (PublicKey_from_str _) as [pk|]; [|done]. cbn.
    destruct (compute_auth_tag _ _ _) as [tag|] eqn:Et; [|done]. cbn. intros [= <-].
    split; [done|]. by exists pk, tag.
  - intros [-> (pk & tag & Hpk & Ht & ->)]. cbn.
    rewrite !String.eqb_refl, !bool_decide_eq_true_2, Hpk by done. cbn. by rewrite Ht.
Qed.

Lemma respond_authorized self frame response :
  respond self frame = Authorized response ↔
  granted self response ∧ ∃ payload request,
    decode_frame frame = Ok payload ∧ request_from_slice payload = Some request
    ∧ allowed (ds_policy self) request.
Proof.
  unfold respond. split.
  - destruct (decode_frame frame) as [payload|]; [|done].
    destruct (request_from_slice payload) as [request|] eqn:Er; [|done].
    destruct (authorize_agent self request) as [r|] eqn:Ea; [|done]. intros [= ->].
    apply authorize_agent_ok in Ea as [Ha Hg]. eauto 6.
  - intros (Hg & payload & request & -> & -> & Ha).
    by rewrite (proj2 (authorize_agent_ok self request response)).
Qed.

Lemma frame_length_bound m : Z.of_nat (frame_length m) ≤ 4 + MAX_SIGNER_FRAME_BYTES.
Proof.
  unfold frame_length, MAX_SIGNER_FRAME_BYTES.
  destruct (Nat.ltb_spec (List.length m) 4); [lia|].
  destruct (Z.ltb_spec (16 * 1024) (from_be_bytes (take 4 m))); lia.
Qed.

Lemma respond_oversize self m :
  (4 ≤ List.length m)%nat → MAX_SIGNER_FRAME_BYTES < from_be_bytes (take 4 m) →
  frame_length m = 4%nat
  ∧ respond self (take (frame_length m) m)
    = SignerRefused (signer_error FrameTooLarge "frame exceeds the maximum size").
Proof.
  intros Hl Hmax. assert (frame_length m = 4%nat) as Hf.
  { unfold frame_length. by rewrite (proj2 (Nat.ltb_ge _ _)), (proj2 (Z.ltb_lt _ _)) by lia. }
  split; [done|]. rewrite Hf. unfold respond, decode_frame.
  rewrite length_take, take_take, (proj2 (Nat.ltb_ge _ _)) by lia. cbn [negb Nat.min].
  by rewrite (proj2 (Z.ltb_lt _ _)) by done.
Qed.

Lemma respond_truncated self m :
  (List.length m < 4)%nat
  ∨ (4 ≤ List.length m)%nat ∧ from_be_bytes (take 4 m) ≤ MAX_SIGNER_FRAME_BYTES
    ∧ Z.of_nat (List.length m) < 4 + from_be_bytes (take 4 m) →
  ∃ message, respond self (take (frame_length m) m)
             = SignerRefused (signer_error MalformedFrame message).
Proof.
  unfold respond, decode_frame. intros [Hl|(Hl & Hmax & Hshort)].
  - rewrite length_take, (proj2 (Nat.ltb_lt _ _)) by lia. by eexists.
  - assert (take (frame_length m) m = m) as ->.
    { apply take_ge. unfold frame_length.
      rewrite (proj2 (Nat.ltb_ge _ _)), (proj2 (Z.ltb_ge _ _)) by lia. lia. }
    rewrite (proj2 (Nat.ltb_ge _ _)), (proj2 (Z.ltb_ge _ _)) by lia. cbn [negb].
    rewrite (proj2 (Z.eqb_neq _ _)) by lia. by eexists.
Qed.

(** C14: one connection to the signer. Whatever bytes a client sends and however the
    socket cuts them, the server reads at most one frame of at most the limit and answers
    with one frame, which the client decodes. The answer is an authorization exactly when
    what was sent starts with the frame of a request for the policy's action, community,
    relay, agent and conditions; it is then the authorization of the policy's agent under
    its conditions by the owner's key, and no other. An oversize claim is refused after
    its four header bytes, and a frame that ends early is malformed. *)
Theorem signer_serves_only_its_policy `{!SignerJsonLaws} self stream m :
  bytes_ok m → delivers stream m →
  ∃ out stream' response,
    serve_connection self stream = Ok (out, stream')
    ∧ delivers stream' (drop (frame_length m) m)
    ∧ Z.of_nat (frame_length m) ≤ 4 + MAX_SIGNER_FRAME_BYTES
    ∧ out = encode_frame (response_to_vec response)
    ∧ (fits (response_to_vec response) → decode_signer_response out = Ok response)
    ∧ (∀ r, response = Authorized r ↔
        granted self r ∧ ∃ payload more request,
          m = encode_frame payload ++ more ∧ fits payload
          ∧ request_from_slice payload = Some request ∧ allowed (ds_policy self) request)
    ∧ ((4 ≤ List.length m)%nat → MAX_SIGNER_FRAME_BYTES < from_be_bytes (take 4 m) →
       frame_length m = 4%nat
       ∧ response = SignerRefused (signer_error FrameTooLarge "frame exceeds the maximum size"))
    ∧ ((List.length m < 4)%nat
       ∨ (4 ≤ List.length m)%nat ∧ from_be_bytes (take 4 m) ≤ MAX_SIGNER_FRAME_BYTES
         ∧ Z.of_nat (List.length m) < 4 + from_be_bytes (take 4 m) →
       ∃ message, response = SignerRefused (signer_error MalformedFrame message)).
Proof.
  intros Hb Hd. destruct (read_bounded_frame_delivers stream m Hd) as (s' & Hr & Hd').
  exists (handle_frame self (take (frame_length m) m)), s', (respond self (take (frame_length m) m)).
  unfold serve_connection. rewrite Hr. split_and!; try done.
  - apply frame_length_bound.
  - intros Hfit. unfold decode_signer_response, handle_frame.
    rewrite decode_encode_frame, response_round_trip by done. done.
  - intros r. rewrite respond_authorized. split; intros [Hg Hp]; (split; [done|]).
    + destruct Hp as (payload & request & Hdec & Hreq & Ha).
      apply decode_frame_of_stream in Hdec as [Hfit [more Hm]]; [|done].
      by exists payload, more, request.
    + destruct Hp as (payload & more & request & Hm & Hfit & Hreq & Ha).
      exists payload, request. split; [|done]. apply decode_frame_of_stream; eauto.
  - apply respond_oversize.
  - apply respond_truncated.
Qed.

(** The owner and the agent of a signer made from owner keys are distinct. *)
Lemma from_owner_keys_distinct owner policy self :
  from_owner_keys owner policy = Ok self →
  self = mkSigner owner policy
  ∧ PublicKey_from_str (sp_agent_pubkey policy) ≠ Some (public_key owner).
Proof.
  unfold from_owner_keys. destruct (PublicKey_from_str _) as [agent|]; [|done]. cbn.
  case_bool_decide as Hne; cbn; [done|]. intros [= <-]. split; [done|]. congruence.
Qed.
End Properties.

(** ** The interfaces can be met *)
#[local] Instance url_codec : Codec Url :=
  iso_codec (λ u, (url_scheme u, url_host_str u, url_username u, url_password u, url_query u,
                   url_fragment u, url_as_str u))
            (λ '(u1, u2, u3, u4, u5, u6, u7), mkUrl u1 u2 u3 u4 u5 u6 u7).
#[local] Instance url_codec_laws : CodecLaws Url.
Proof. apply iso_codec_laws. by intros []. Qed.

#[local] Instance request_codec : Codec AuthorizeAgentRequest :=
  iso_codec (λ r, (ar_action r, community_uuid (ar_community_config_id r), ar_relay_url r,
                   ar_agent_pubkey r, ar_conditions r))
            (λ '(a, c, u, k, cs), mkAuthorizeRequest a (mkCommunityConfigId c) u k cs).
#[local] Instance request_codec_laws : CodecLaws AuthorizeAgentRequest.
Proof. apply iso_codec_laws. by intros [? [] ? ? ?]. Qed.

Definition code_number (c : SignerErrorCode) : Z :=
  match c with
  | MalformedFrame => 0 | FrameTooLarge => 1 | InvalidRequest => 2 | ActionNotAllowed => 3
  | CommunityNotAllowed => 4 | RelayNotAllowed => 5 | AgentNotAllowed => 6
  | ConditionsNotAllowed => 7 | AuthorizationFailed => 8
  end.
Definition code_of_number (n : Z) : SignerErrorCode :=
  nth (Z.to_nat n)
    [MalformedFrame; FrameTooLarge; InvalidRequest; ActionNotAllowed; CommunityNotAllowed;
     RelayNotAllowed; AgentNotAllowed; ConditionsNotAllowed] AuthorizationFailed.

#[local] Instance response_codec : Codec SignerIpcResponse :=
  iso_codec (λ r, match r with
                  | Authorized r => inl (as_owner_pubkey r, as_agent_pubkey r,
                      community_uuid (as_community_config_id r), as_relay_url r, as_auth_tag r)
                  | SignerRefused e => inr (code_number (se_code e), se_message e)
                  end)
            (λ s, match s with
                  | inl (o, a, c, u, t) =>
                    Authorized (mkAuthorizeResponse o a (mkCommunityConfigId c) u t)
                  | inr (n, m) => SignerRefused (signer_error (code_of_number n) m)
                  end).
#[local] Instance response_codec_laws : CodecLaws SignerIpcResponse.
Proof. apply iso_codec_laws. by intros [[? ? [] ? ?]|[[] ?]]. Qed.

#[local] Instance codec_json : SignerJson := {
  request_from_slice := from_slice; request_to_vec := enc;
  response_from_slice := from_slice; response_to_vec := enc
}.
#[local] Instance codec_json_laws : SignerJsonLaws.
Proof. split; intros r; apply from_slice_enc. Qed.

(** Keys are numbers, a public key is its owner's number, tags are the texts they sign. *)
#[local] Instance toy_keys : SignerKeys := {
  Keys := Z; PublicKey := Z; public_key k := k; to_hex := show_Z;
  PublicKey_from_str s := Some (len s);
  compute_auth_tag owner agent conditions := Some conditions
}.

Definition toy_request : AuthorizeAgentRequest :=
  mkAuthorizeRequest AUTHORIZE_AGENT_ACTION (mkCommunityConfigId 1) sample_url "a" "kind=9".
Definition toy_signer : DisposableSigner :=
  mkSigner 7 (mkSignerPolicy (mkCommunityConfigId 1) sample_url "a" "kind=9").
Definition toy_stream : Reader :=
  let m := encode_authorize_request toy_request in
  [Ok (take 2 m); Ok (drop 2 m ++ [123])].

Lemma signer_serves_only_its_policy_witness :
  ∃ out stream',
    serve_connection toy_signer toy_stream = Ok (out, stream')
    ∧ decode_signer_response out
      = Ok (Authorized (mkAuthorizeResponse "7" "a" (mkCommunityConfigId 1) sample_url "kind=9")).
Proof.
  set (m := encode_authorize_request toy_request ++ [123]).
  assert (bytes_ok m) as Hb.
  { apply (bool_decide_unpack _). vm_compute. exact I. }
  assert (delivers toy_stream m) as Hd.
  { set (e := encode_authorize_request toy_request).
    assert (m = take 2 e ++ (drop 2 e ++ [123]) ++ []) as -> by (vm_compute; reflexivity).
    apply delivers_piece; [vm_compute; discriminate|].
    apply delivers_piece; [vm_compute; discriminate|]. constructor. by left. }
  destruct (signer_serves_only_its_policy toy_signer toy_stream m Hb Hd)
    as (out & s' & response & Hs & _ & _ & Hout & Hdec & Hauth & _).
  exists out, s'. split; [exact Hs|].
  assert (response = Authorized
            (mkAuthorizeResponse "7" "a" (mkCommunityConfigId 1) sample_url "kind=9")) as ->.
  { apply Hauth. split; [by exists 1, "kind=9"%string|].
    exists (request_to_vec toy_request), [123], toy_request. split_and!.
    - reflexivity.
    - vm_compute. discriminate.
    - apply request_round_trip.
    - reflexivity. }
  apply Hdec. vm_compute. discriminate.
Defined.
