(* ===== verification/Json.v ===== *)
(** * JSON values
    [serde_json::Value] and the methods the sources call on it. An object is its entries
    in key order, as the crate's [BTreeMap] keeps them; a number is an unsigned, negative
    or double-precision one, as the crate parses it. *)
From Stdlib Require Import ZArith Lia String Ascii SpecFloat.
From stdpp Require Import base list strings.
From S2P Require Import Prelude RustStr.
#[local] Open Scope Z_scope.
#[local] Set Warnings "-register-all".

Inductive Number : Type :=
| PosInt (n : Z)   (** a [u64] *)
| NegInt (n : Z)   (** a negative [i64] *)
| Float (f : spec_float).

Inductive Json : Type :=
| Null
| JBool (b : bool)
| JNumber (n : Number)
| JString (s : string)
| JArray (items : list Json)
| JObject (entries : list (string * Json)).

(** ** Accessors *)
Definition is_object (v : Json) : bool := match v with JObject _ => true | _ => false end.
Definition is_array (v : Json) : bool := match v with JArray _ => true | _ => false end.
Definition is_string (v : Json) : bool := match v with JString _ => true | _ => false end.
Definition is_number (v : Json) : bool := match v with JNumber _ => true | _ => false end.
Definition is_boolean (v : Json) : bool := match v with JBool _ => true | _ => false end.
Definition is_null (v : Json) : bool := match v with Null => true | _ => false end.

Definition as_object (v : Json) : option (list (string * Json)) :=
  match v with JObject o => Some o | _ => None end.
Definition as_array (v : Json) : option (list Json) :=
  match v with JArray a => Some a | _ => None end.
Definition as_str (v : Json) : option string :=
  match v with JString s => Some s | _ => None end.
Definition as_bool (v : Json) : option bool :=
  match v with JBool b => Some b | _ => None end.
Definition as_i64 (v : Json) : option Z :=
  match v with
  | JNumber (PosInt n) => if n <=? i64_max then Some n else None
  | JNumber (NegInt n) => Some n
  | _ => None
  end.
Definition as_u64 (v : Json) : option Z :=
  match v with JNumber (PosInt n) => Some n | _ => None end.

(** [n as f64]: to the nearest double. *)
Definition f64_of_Z (n : Z) : spec_float := binary_normalize 53 1024 n 0 false.
Definition as_f64 (v : Json) : option spec_float :=
  match v with
  | JNumber (PosInt n) | JNumber (NegInt n) => Some (f64_of_Z n)
  | JNumber (Float f) => Some f
  | _ => None
  end.

(** [object.get(key)], and [value.get(key)] of any value. *)
Fixpoint get (key : string) (entries : list (string * Json)) : option Json :=
  match entries with
  | [] => None
  | (k, v) :: entries => if String.eqb k key then Some v else get key entries
  end.
Definition contains_key (key : string) (entries : list (string * Json)) : bool :=
  option_is_some (get key entries).
Definition keys (entries : list (string * Json)) : list string := map fst entries.
Definition field (key : string) (v : Json) : option Json :=
  match v with JObject o => get key o | _ => None end.

(** ** Equality, as [PartialEq] derives it: a double equals a double *)
Definition number_eqb (a b : Number) : bool :=
  match a, b with
  | PosInt m, PosInt n | NegInt m, NegInt n => m =? n
  | Float f, Float g => SFeqb f g
  | _, _ => false
  end.
Fixpoint json_eqb (a b : Json) : bool :=
  match a, b with
  | Null, Null => true
  | JBool x, JBool y => Bool.eqb x y
  | JNumber m, JNumber n => number_eqb m n
  | JString s, JString t => String.eqb s t
  | JArray xs, JArray ys =>
    (fix go xs ys :=
       match xs, ys with
       | [], [] => true
       | x :: xs, y :: ys => json_eqb x y && go xs ys
       | _, _ => false
       end) xs ys
  | JObject xs, JObject ys =>
    (fix go xs ys :=
       match xs, ys with
       | [], [] => true
       | (k, x) :: xs, (l, y) :: ys => String.eqb k l && json_eqb x y && go xs ys
       | _, _ => false
       end) xs ys
  | _, _ => false
  end.

(** ** Lemmas *)
Lemma get_Some key o v : get key o = Some v → (key, v) ∈ o.
Proof.
  induction o as [|[k w] o IH]; cbn; [done|].
  destruct (String.eqb_spec k key) as [->|]; [intros [= ->]; left|intros ?; right; auto].
Qed.
Lemma contains_key_elem key o : contains_key key o = true ↔ key ∈ keys o.
Proof.
  unfold contains_key, keys. induction o as [|[k w] o IH]; cbn.
  - split; [done|]. by intros ?%not_elem_of_nil.
  - destruct (String.eqb_spec k key) as [->|Hne]; rewrite elem_of_cons.
    + split; [by left|done].
    + rewrite IH. split; [by right|]. by intros [->|].
Qed.
