(* ===== verification/Events.v ===== *)
(** * Relay event stream of the operator CLI (src/src/events.rs)
    The deduplicating cursor and the reconnecting session loop, run against a script of
    what the relay and the shutdown signal do: connection attempts that fail, subscriptions
    that fail, and sessions that deliver messages until they end. What is printed and sent is
    kept as messages here; [EventsCli] renders them as JSON. *)
From stdpp Require Import base gmap strings list.
From Stdlib Require Import ZArith Lia String.
From S2P Require Import Prelude RustStr Json.

Definition RECONNECT_OVERLAP_SECONDS : Z := 300.
Definition MAX_DEDUP_IDS : nat := 4096.

(** ** The cursor *)
Record EventCursor := mkEventCursor {
  ec_since : Z;
  ec_seen_ids : gset string;
  ec_seen_order : list string
}.

Definition EventCursor_new (since : Z) : EventCursor := mkEventCursor since ∅ [].

(** A [nostr::Event]: the hexadecimal form of its identifier, and its JSON. *)
Record StreamEvent := mkStreamEvent { sv_id : string; sv_json : Json }.

Definition EventCursor_accept (self : EventCursor) (event : StreamEvent) : EventCursor * bool :=
  let id := sv_id event in
  if bool_decide (id ∈ ec_seen_ids self) then (self, false)
  else
  let ids := {[id]} ∪ ec_seen_ids self in
  let order := ec_seen_order self ++ [id] in
  if bool_decide (MAX_DEDUP_IDS < List.length order)%nat then
    match order with
    | expired :: rest => (mkEventCursor (ec_since self) (ids ∖ {[expired]}) rest, true)
    | [] => (mkEventCursor (ec_since self) ids order, true)
    end
  else (mkEventCursor (ec_since self) ids order, true).

(** ** The session loop *)
Inductive RelayMessage :=
| RelayEvent (subscription_id : string) (event : StreamEvent)
| RelayEose (subscription_id : string)
| RelayClosed (subscription_id message : string)
| RelayNotice (message : string)
| RelayAuth (challenge : string)
| RelayOk (event_id : string) (accepted : bool) (message : string)
| RelayCount (subscription_id : string) (count : Z).

(** What [output] is given, and the subscriptions sent, by their [since]. *)
Inductive Output :=
| OutMessage (m : RelayMessage)
| OutError (message : string)
| OutRequest (since : Z).

(** The shutdown signal changes, to stop or not; a closed channel is a signal to stop. *)
Inductive SessionTurn :=
| SessionMessage (m : RelayMessage)
| SessionSignal (stop : bool).
(** How a session goes: what [select] completes with, then the error [next] ends it with. *)
Record Session := mkSession { se_turns : list SessionTurn; se_error : string }.

Inductive StreamWait := WaitElapsed | WaitSignalled (stop : bool).
Definition stream_wait_or_shutdown (w : StreamWait) : bool :=
  match w with WaitElapsed => false | WaitSignalled stop => stop end.

(** One turn of the outer loop. *)
Inductive Attempt :=
| SignalWhileConnecting (stop : bool)
| ConnectFails (error : string) (wait : StreamWait)
| SendFails (clock : Z) (error : string) (wait : StreamWait)
| Connected (clock : Z) (session : Session) (wait : StreamWait).

(** Loop variables; the backoff is in seconds. *)
Record StreamState := mkStreamState {
  st_backoff : Z;
  st_cursor : EventCursor;
  st_first_connection : bool
}.

Definition stream_start : StreamState := mkStreamState 1 (EventCursor_new 0) true.

(** [backoff.saturating_mul(2).min(Duration::from_secs(30))] *)
Definition next_backoff (b : Z) : Z := Z.min (2 * b) 30.

Definition with_since (since : Z) (c : EventCursor) : EventCursor :=
  mkEventCursor since (ec_seen_ids c) (ec_seen_order c).

Definition subscribe_since (first : bool) (clock : Z) : Z :=
  if first then clock else u64_saturating_sub clock RECONNECT_OVERLAP_SECONDS.

(** The inner loop: deliver messages until the subscription is closed or fails, or the
    stream is told to stop. *)
Fixpoint run_session (turns : list SessionTurn) (error : string) (cursor : EventCursor)
    : EventCursor * list Output * bool :=
  match turns with
  | [] => (cursor, [OutError error], false)
  | SessionSignal true :: _ => (cursor, [], true)
  | SessionSignal false :: turns' => run_session turns' error cursor
  | SessionMessage m :: turns' =>
    let deliver cursor :=
      match m with
      | RelayClosed _ _ => (cursor, [OutMessage m], false)
      | _ => let '(cursor, out, stopped) := run_session turns' error cursor in
             (cursor, OutMessage m :: out, stopped)
      end in
    match m with
    | RelayEvent _ event =>
      let '(cursor, fresh) := EventCursor_accept cursor event in
      if negb fresh then run_session turns' error cursor else deliver cursor
    | _ => deliver cursor
    end
  end.

(** One turn: what is printed and sent, how long it then waits, the state it leaves, and
    whether the stream returns. *)
Record Turn := mkTurn { tn_state : StreamState; tn_out : list Output; tn_waits : list Z; tn_return : bool }.
Definition wait_then_retry (wait : StreamWait) (backoff : Z) (s : StreamState) (out : list Output) : Turn :=
  mkTurn (mkStreamState (next_backoff backoff) (st_cursor s) (st_first_connection s)) out [backoff]
         (stream_wait_or_shutdown wait).
Definition run_attempt (a : Attempt) (s : StreamState) : Turn :=
  match a with
  | SignalWhileConnecting stop => mkTurn s [] [] stop
  | ConnectFails error wait => wait_then_retry wait (st_backoff s) s [OutError error]
  | SendFails clock error wait =>
    let since := subscribe_since (st_first_connection s) clock in
    wait_then_retry wait (st_backoff s) (mkStreamState (st_backoff s) (with_since since (st_cursor s)) false)
      [OutRequest since; OutError error]
  | Connected clock session wait =>
    let since := subscribe_since (st_first_connection s) clock in
    let '(cursor, out, stopped) :=
      run_session (se_turns session) (se_error session) (with_since since (st_cursor s)) in
    let s := mkStreamState 1 cursor false in
    if stopped then mkTurn s (OutRequest since :: out) [] true
    else wait_then_retry wait 1 s (OutRequest since :: out)
  end.

(** [run_with_initial_since_and_clock]: [true] when it returned (always [Ok]) before the
    script ended. *)
Fixpoint run_stream (attempts : list Attempt) (s : StreamState) : StreamState * list Output * list Z * bool :=
  match attempts with
  | [] => (s, [], [], false)
  | a :: attempts' =>
    let turn := run_attempt a s in
    if tn_return turn then (tn_state turn, tn_out turn, tn_waits turn, true)
    else
      let '(s, outs, waits, returned) := run_stream attempts' (tn_state turn) in
      (s, tn_out turn ++ outs, tn_waits turn ++ waits, returned)
  end.

(** ** Lemmas *)
(** The set and the queue hold the same identifiers, each once, at most [MAX_DEDUP_IDS]. *)
Definition cursor_ok (c : EventCursor) : Prop :=
  (∀ x, x ∈ ec_seen_ids c ↔ x ∈ ec_seen_order c)
  ∧ NoDup (ec_seen_order c) ∧ (List.length (ec_seen_order c) ≤ MAX_DEDUP_IDS)%nat.

(** The last [n] elements. *)
Definition last_n {A} (n : nat) (l : list A) : list A := drop (List.length l - n) l.

Lemma last_n_app_one {A} n (l : list A) x :
  (0 < n)%nat → last_n n (l ++ [x]) = drop (List.length (last_n n l) + 1 - n) (last_n n l) ++ [x].
Proof.
  intros Hn. unfold last_n. rewrite !length_app, length_drop. cbn.
  rewrite drop_app_le by lia. f_equal. rewrite drop_drop. f_equal. lia.
Qed.

Lemma last_n_length {A} n (l : list A) : (List.length (last_n n l) ≤ n)%nat.
Proof. unfold last_n. rewrite length_drop. lia. Qed.

(** Accepting a new identifier keeps the last [MAX_DEDUP_IDS]. *)
Lemma accept_spec c e :
  cursor_ok c →
  let id := sv_id e in
  let '(c', fresh) := EventCursor_accept c e in
  cursor_ok c'
  ∧ fresh = negb (bool_decide (id ∈ ec_seen_order c))
  ∧ ec_seen_order c' =
      if fresh then drop (List.length (ec_seen_order c) + 1 - MAX_DEDUP_IDS) (ec_seen_order c) ++ [id]
      else ec_seen_order c.
Proof.
  intros (Hset & Hnd & Hlen). unfold EventCursor_accept. set (id := sv_id e). clearbody id. clear e. cbv zeta.
  case_bool_decide as Hin.
  { rewrite bool_decide_eq_true_2 by by apply Hset. done. }
  rewrite (bool_decide_eq_false_2 (id ∈ ec_seen_order c)) by by rewrite <- Hset.
  assert (id ∉ ec_seen_order c) as Hnin by by rewrite <- Hset.
  assert (NoDup (ec_seen_order c ++ [id])) as Hnd'.
  { apply NoDup_app. split_and!; [done| |apply NoDup_singleton].
    intros x Hx Heq%list_elem_of_singleton. by subst. }
  rewrite length_app. cbn [List.length].
  case_bool_decide as Hbig.
  - destruct (ec_seen_order c) as [|e rest] eqn:Eo; [cbn in Hbig; unfold MAX_DEDUP_IDS in Hbig; lia|].
    cbn [app] in *. apply NoDup_cons in Hnd' as [He Hnd'].
    cbn [List.length] in *. replace (S (List.length rest) + 1 - MAX_DEDUP_IDS)%nat with 1%nat by lia.
    cbn [negb]. split_and!; [|done|done]. split_and!; cbn; [|done|rewrite length_app; cbn; lia].
    intros x. rewrite elem_of_difference, elem_of_union, !elem_of_singleton, Hset.
    rewrite elem_of_app, list_elem_of_singleton, elem_of_cons.
    assert ((e ∉ rest) ∧ e ≠ id) as [He1 He2]
      by (rewrite elem_of_app, list_elem_of_singleton in He; tauto).
    split; [tauto|]. intros [Hx| ->]; split; try tauto; congruence.
  - replace (List.length (ec_seen_order c) + 1 - MAX_DEDUP_IDS)%nat with 0%nat by lia.
    cbn [negb drop]. split_and!; [|done|done]. split_and!; cbn; [|done|rewrite length_app; cbn; lia].
    intros x. rewrite elem_of_union, elem_of_singleton, Hset, elem_of_app, list_elem_of_singleton.
    tauto.
Qed.

(** The event identifiers printed, and those read: a closed subscription is read no
    further, nor one whose stream was told to stop. *)
Definition delivered (out : list Output) : list string :=
  omap (λ o, match o with OutMessage (RelayEvent _ e) => Some (sv_id e) | _ => None end) out.

Fixpoint read_ids (turns : list SessionTurn) : list string :=
  match turns with
  | [] | SessionSignal true :: _ | SessionMessage (RelayClosed _ _) :: _ => []
  | SessionMessage (RelayEvent _ e) :: turns' => sv_id e :: read_ids turns'
  | _ :: turns' => read_ids turns'
  end.
Definition attempt_ids (a : Attempt) : list string :=
  match a with Connected _ session _ => read_ids (se_turns session) | _ => [] end.

(** Whether an attempt is told to stop, and the attempts that are made. *)
Fixpoint session_stops (turns : list SessionTurn) : bool :=
  match turns with
  | [] | SessionMessage (RelayClosed _ _) :: _ => false
  | SessionSignal true :: _ => true
  | _ :: turns' => session_stops turns'
  end.
Definition attempt_stops (a : Attempt) : bool :=
  match a with
  | SignalWhileConnecting stop => stop
  | ConnectFails _ wait | SendFails _ _ wait => stream_wait_or_shutdown wait
  | Connected _ session wait => session_stops (se_turns session) || stream_wait_or_shutdown wait
  end.
Fixpoint performed (attempts : list Attempt) : list Attempt :=
  match attempts with
  | [] => []
  | a :: attempts' => a :: (if attempt_stops a then [] else performed attempts')
  end.

(** Equal identifiers are more than [MAX_DEDUP_IDS] deliveries apart. *)
Definition spaced (d : list string) : Prop :=
  ∀ i j x, (i < j)%nat → d !! i = Some x → d !! j = Some x → (MAX_DEDUP_IDS < j - i)%nat.

Lemma spaced_app_one d id : spaced d → id ∉ last_n MAX_DEDUP_IDS d → spaced (d ++ [id]).
Proof.
  intros Hd Hid i j x Hij Hi Hj.
  assert (j < List.length (d ++ [id]))%nat as Hlt by by eapply lookup_lt_Some.
  rewrite length_app in Hlt. cbn in Hlt.
  rewrite lookup_app_l in Hi by lia.
  destruct (decide (j = List.length d)) as [->|Hne].
  - rewrite lookup_app_r, Nat.sub_diag in Hj by lia. injection Hj as <-.
    destruct (decide (MAX_DEDUP_IDS < List.length d - i)%nat) as [|Hnear]; [done|].
    destruct Hid. unfold last_n. apply list_elem_of_lookup.
    exists (i - (List.length d - MAX_DEDUP_IDS))%nat. rewrite lookup_drop. rewrite <- Hi.
    f_equal. lia.
  - rewrite lookup_app_l in Hj by lia. by apply (Hd i j x).
Qed.

(** What holds of the cursor after the deliveries [d]. *)
Definition tracks (c : EventCursor) (d : list string) : Prop :=
  cursor_ok c ∧ ec_seen_order c = last_n MAX_DEDUP_IDS d ∧ spaced d.

Lemma accept_tracks c d e :
  tracks c d →
  let '(c', fresh) := EventCursor_accept c e in
  tracks c' (if fresh then d ++ [sv_id e] else d) ∧ (fresh = false → sv_id e ∈ d).
Proof.
  intros (Hok & Ho & Hs). pose proof (accept_spec c e Hok) as Ha. cbv zeta in Ha.
  destruct (EventCursor_accept c e) as [c' fresh]. destruct Ha as (Hok' & Hf & Ho').
  rewrite Ho in Hf, Ho'. destruct fresh.
  - symmetry in Hf. apply negb_true_iff, bool_decide_eq_false in Hf.
    split; [|done]. split_and!; [done| |by apply spaced_app_one].
    rewrite Ho', last_n_app_one by (unfold MAX_DEDUP_IDS; lia). done.
  - split; [by split_and!|]. intros _. symmetry in Hf.
    apply negb_false_iff, bool_decide_eq_true in Hf. unfold last_n in Hf.
    apply list_elem_of_lookup in Hf as [i Hi]. rewrite lookup_drop in Hi.
    by eapply list_elem_of_lookup_2.
Qed.

(** What a session does to the deliveries so far. *)
Definition session_result (turns : list SessionTurn) (d : list string) (r : EventCursor * list Output * bool) : Prop :=
  let '(c', out, stopped) := r in
  tracks c' (d ++ delivered out) ∧ (∀ x, x ∈ read_ids turns → x ∈ d ++ delivered out)
  ∧ stopped = session_stops turns.

Lemma run_session_tracks turns error c d :
  tracks c d → session_result turns d (run_session turns error c).
Proof.
  assert (∀ turns c d, tracks c d → read_ids turns = [] → ∀ out, delivered out = [] →
            session_result turns d (c, out, session_stops turns)) as Hend.
  { intros ts c' d' Ht Hr out Ho. unfold session_result. rewrite Ho, app_nil_r, Hr.
    split_and!; [done| |done]. by intros x Hx%not_elem_of_nil. }
  revert c d. induction turns as [|t turns IH]; intros c d Ht; cbn [run_session]; [by apply (Hend [])|].
  destruct t as [[sub e|sub|sub msg|msg|ch|eid acc msg|sub n]|[]];
    try (specialize (IH c d Ht); destruct (run_session turns error c) as [[c' out] stopped]; exact IH).
  - pose proof (accept_tracks c d e Ht) as Ha. destruct (EventCursor_accept c e) as [c1 fresh].
    destruct Ha as [Ht1 Hold]. destruct fresh; cbn [negb].
    + specialize (IH c1 _ Ht1). destruct (run_session turns error c1) as [[c' out] stopped].
      unfold session_result in *. rewrite <- app_assoc in IH. destruct IH as (Ht' & Hread & Hst).
      split_and!; [done| |done].
      cbn [read_ids]. intros x [->|Hx]%elem_of_cons; [|by apply Hread].
      change (delivered (OutMessage (RelayEvent sub e) :: out)) with (sv_id e :: delivered out). set_solver.
    + specialize (IH c1 d Ht1). destruct (run_session turns error c1) as [[c' out] stopped].
      destruct IH as (Ht' & Hread & Hst). split_and!; [done| |done]. cbn [read_ids].
      intros x [->|Hx]%elem_of_cons; [|by apply Hread]. apply elem_of_app. left. auto.
  - by apply (Hend (SessionMessage (RelayClosed sub msg) :: turns)).
  - by apply (Hend (SessionSignal true :: turns)).
Qed.

Lemma tracks_since c d since : tracks c d → tracks (with_since since c) d.
Proof. by intros. Qed.

(** The subscriptions of a stream ask from the time of connecting, later ones from
    [RECONNECT_OVERLAP_SECONDS] before it. *)
Definition requested (out : list Output) : list Z :=
  omap (λ o, match o with OutRequest since => Some since | _ => None end) out.
Definition attempt_clock (a : Attempt) : option Z :=
  match a with SendFails clock _ _ | Connected clock _ _ => Some clock | _ => None end.
Fixpoint sinces (first : bool) (clocks : list Z) : list Z :=
  match clocks with [] => [] | c :: clocks => subscribe_since first c :: sinces false clocks end.

Lemma session_requests turns error c : requested (run_session turns error c).1.2 = [].
Proof.
  revert c. induction turns as [|t turns IH]; intros c; cbn [run_session]; [done|].
  destruct t as [[sub e|sub|sub msg|msg|ch|eid acc msg|sub n]|[]]; [destruct (EventCursor_accept c e) as [c1 []]; cbn [negb]|..];
    try (specialize (IH c1) || specialize (IH c)); try destruct (run_session _ _ _) as [[c' out] stopped]; done.
Qed.

Lemma run_attempt_tracks a s d :
  tracks (st_cursor s) d → 1 ≤ st_backoff s ≤ 30 →
  let turn := run_attempt a s in
  tracks (st_cursor (tn_state turn)) (d ++ delivered (tn_out turn))
  ∧ 1 ≤ st_backoff (tn_state turn) ≤ 30 ∧ Forall (λ b, 1 ≤ b ≤ 30) (tn_waits turn)
  ∧ (∀ x, x ∈ attempt_ids a → x ∈ d ++ delivered (tn_out turn))
  ∧ tn_return turn = attempt_stops a
  ∧ requested (tn_out turn) = sinces (st_first_connection s) (option_list (attempt_clock a))
  ∧ st_first_connection (tn_state turn) = st_first_connection s && option_is_none (attempt_clock a).
Proof.
  intros Ht Hb. destruct a as [stop|error w|clock error w|clock session w]; cbn -[run_session].
  1-3: rewrite app_nil_r; unfold next_backoff; split_and!;
    [done|lia|lia|repeat constructor; lia|by intros x Hx%not_elem_of_nil|done|done|by rewrite ?andb_true_r, ?andb_false_r].
  set (c := with_since _ _). assert (tracks c d) as Hc by by apply tracks_since.
  pose proof (run_session_tracks (se_turns session) (se_error session) c d Hc) as Hr.
  pose proof (session_requests (se_turns session) (se_error session) c) as Hq.
  destruct (run_session _ _ c) as [[c' out] stopped]. destruct Hr as (Ht' & Hread & ->). cbn [fst snd] in Hq.
  destruct (session_stops (se_turns session)); cbn [tn_state tn_out tn_waits tn_return wait_then_retry st_backoff];
    (split_and!; [done|unfold next_backoff; cbn; lia..|repeat constructor; lia|done|done| |by rewrite andb_false_r]);
    (change (requested (OutRequest _ :: out)) with (subscribe_since (st_first_connection s) clock :: requested out));
    by rewrite Hq.
Qed.

Lemma run_stream_tracks attempts s d :
  tracks (st_cursor s) d → 1 ≤ st_backoff s ≤ 30 →
  let '(s', out, waits, returned) := run_stream attempts s in
  tracks (st_cursor s') (d ++ delivered out) ∧ Forall (λ b, 1 ≤ b ≤ 30) waits
  ∧ (∀ a x, a ∈ performed attempts → x ∈ attempt_ids a → x ∈ d ++ delivered out)
  ∧ requested out = sinces (st_first_connection s) (omap attempt_clock (performed attempts)).
Proof.
  revert s d. induction attempts as [|a attempts IH]; intros s d Ht Hb; cbn [run_stream performed].
  { cbn. rewrite app_nil_r. split_and!; [done|constructor| |done]. by intros a x Ha%not_elem_of_nil. }
  pose proof (run_attempt_tracks a s d Ht Hb) as Ha. cbv zeta in Ha |- *.
  destruct (run_attempt a s) as [s1 out waits ret]. cbn [tn_state tn_out tn_waits tn_return] in *.
  destruct Ha as (Ht1 & Hb1 & Hw & Hr & -> & Hq & Hf). destruct (attempt_stops a).
  { split_and!; [done..| |].
    - by intros b x ->%list_elem_of_singleton; apply Hr.
    - rewrite Hq. cbn. by destruct (attempt_clock a). }
  specialize (IH s1 _ Ht1 Hb1). destruct (run_stream attempts s1) as [[[s' outs] waits'] returned].
  destruct IH as (Ht' & Hws & Hrs & Hqs). unfold delivered, requested in *. rewrite !omap_app, app_assoc.
  split_and!; [done|by apply Forall_app| |].
  - intros b x [->|Hin]%elem_of_cons Hx; [|by eapply Hrs]. apply elem_of_app. left. auto.
  - rewrite Hq, Hqs, Hf. cbn. by destruct (attempt_clock a), (st_first_connection s).
Qed.

(** ** Properties *)

(** The event stream prints every event it reads and does not promptly repeat any. Over any
    sequence of connections, failures, messages and signals (from a new stream): every event
    read by an attempt that is made is printed; two prints of the same event are more than
    4096 event prints apart; the cursor never remembers more than 4096 identifiers; every wait
    before a reconnection is between 1 and 30 seconds; and the subscriptions ask for events
    from the first connection on, the later ones with an overlap of 300 seconds. *)
Theorem event_stream_is_deduplicated (attempts : list Attempt) :
  let '(s, out, waits, _) := run_stream attempts stream_start in
  spaced (delivered out)
  ∧ (∀ a x, a ∈ performed attempts → x ∈ attempt_ids a → x ∈ delivered out)
  ∧ (List.length (ec_seen_order (st_cursor s)) ≤ MAX_DEDUP_IDS)%nat
  ∧ (∀ x, x ∈ ec_seen_ids (st_cursor s) ↔ x ∈ ec_seen_order (st_cursor s))
  ∧ Forall (λ b, 1 ≤ b ≤ 30) waits
  ∧ requested out = sinces true (omap attempt_clock (performed attempts)).
Proof.
  assert (tracks (st_cursor stream_start) []) as Ht.
  { split_and!; [|done|by intros i j x _ Hi]. split_and!; cbn; [set_solver|apply NoDup_nil_2|lia]. }
  pose proof (run_stream_tracks attempts stream_start [] Ht ltac:(cbn; lia)) as Hr.
  destruct (run_stream attempts stream_start) as [[[s out] waits] returned].
  destruct Hr as (((Hset & Hnd & Hlen) & Ho & Hs) & Hw & Hread & Hq). by split_and!.
Qed.

Lemma run_attempt_stops a s : tn_return (run_attempt a s) = attempt_stops a.
Proof.
  destruct a as [stop|error w|clock error w|clock session w]; [done..|]. cbn -[run_session].
  assert (∀ turns error c, (run_session turns error c).2 = session_stops turns) as Hst.
  { intros turns error. induction turns as [|t turns IH]; intros c; cbn [run_session session_stops]; [done|].
    destruct t as [[sub e|sub|sub msg|msg|ch|eid acc msg|sub n]|[]]; [destruct (EventCursor_accept c e) as [c1 []]; cbn [negb]|..];
      try (specialize (IH c1) || specialize (IH c)); try destruct (run_session _ _ _) as [[c' out] stopped]; done. }
  specialize (Hst (se_turns session) (se_error session)
                (with_since (subscribe_since (st_first_connection s) clock) (st_cursor s))).
  destruct (run_session _ _ _) as [[c' out] stopped]. cbn in Hst. subst stopped.
  by destruct (session_stops (se_turns session)).
Qed.

(** A stream that is told to stop returns there: it returns if and only if one of the
    attempts is told to stop, and what it does until then does not depend on the attempts that
    would follow. *)
Theorem stream_stops_when_told (attempts : list Attempt) (s : StreamState) :
  let '(_, returned) := run_stream attempts s in
  returned = existsb attempt_stops attempts
  ∧ (returned = true → ∀ later, run_stream (performed attempts ++ later) s = run_stream attempts s).
Proof.
  revert s. induction attempts as [|a attempts IH]; intros s; [done|].
  cbn [run_stream performed existsb]. cbv zeta. rewrite run_attempt_stops. destruct (attempt_stops a) eqn:Ea.
  { split; [done|]. intros _ later. cbn [app run_stream]. cbv zeta. by rewrite run_attempt_stops, Ea. }
  specialize (IH (tn_state (run_attempt a s))).
  destruct (run_stream attempts _) as [[[s' outs] waits] returned] eqn:Er. cbn [orb]. destruct IH as [-> IH].
  split; [done|]. intros Hret later. cbn [app run_stream]. cbv zeta. by rewrite run_attempt_stops, Ea, IH.
Qed.
