(* ===== verification/Provider.v ===== *)
(** * The provider protocol: configuration, secrets, negotiation (provider.rs)
    What a provider may advertise, what configuration is sent to it, what counts as a
    secret and how secrets are removed from its error text. The letter case of characters
    outside ASCII is a parameter. *)
From Stdlib Require Import ZArith Lia String Ascii SpecFloat.
From stdpp Require Import base gmap list strings.
From S2P Require Import Prelude RustStr Bytes Json.
#[local] Open Scope Z_scope.

Definition PROVIDER_PROTOCOL_VERSION : Z := 1.
Definition PROVIDER_LIFECYCLE_PROTOCOL_VERSION : Z := 1.

Inductive ProviderLifecycleAction : Type :=
| PDeploy | PInspect | PLogs | PEnable | PDisable | PDelete.
#[export] Instance ProviderLifecycleAction_eq_dec : EqDecision ProviderLifecycleAction.
Proof. solve_decision. Defined.

Inductive LifecycleSupport : Type := Supported | UnsupportedAction.
Definition lifecycle_support (action : ProviderLifecycleAction) : LifecycleSupport :=
  match action with
  | PDeploy => Supported
  | PInspect | PLogs | PEnable | PDisable | PDelete => UnsupportedAction
  end.

(** [lifecycle_actions] is a [BTreeSet]: its elements. *)
Record ProviderCapabilities : Type := mkCapabilities {
  lifecycle_protocol_version : option Z;
  lifecycle_actions : list ProviderLifecycleAction
}.
Record ProviderInfo : Type := mkProviderInfo {
  pi_ok : bool; pi_name : string; pi_version : string; pi_protocol_version : Z;
  pi_description : string; pi_config_schema : Json; pi_capabilities : ProviderCapabilities
}.

Inductive ProviderError : Type :=
| ProviderIo (e : IoError)
| ProviderTimeout | OutputLimit | InputLimit | ExecutableLimit | InvalidJson | InvalidInfo
| IdentityMismatch (expected actual : string)
| TrustBinding
| UnsupportedProtocol (actual : Z)
| UnsupportedLifecycleProtocol (actual : Z)
| ProviderFailed (message : string)
| MissingAgentId
| Payload
| UnsupportedSchema (what : string)
| InvalidConfig (what : string)
| UnsupportedLifecycle (action : ProviderLifecycleAction)
| SecretEnvironment (key : string).

Definition has_action (a : ProviderLifecycleAction) (c : ProviderCapabilities) : bool :=
  bool_decide (a ∈ lifecycle_actions c).

Definition ProviderInfo_validate (self : ProviderInfo) : result ProviderError unit :=
  ensure negb (negb (pi_ok self)
               || str_is_empty (trim (pi_name self))
               || str_is_empty (trim (pi_version self))
               || str_is_empty (trim (pi_description self))
               || negb (is_object (pi_config_schema self)))
  else InvalidInfo in
  ensure pi_protocol_version self =? PROVIDER_PROTOCOL_VERSION
  else UnsupportedProtocol (pi_protocol_version self) in
  let? _ :=
    match lifecycle_protocol_version (pi_capabilities self) with
    | Some actual =>
      ensure actual =? PROVIDER_LIFECYCLE_PROTOCOL_VERSION
      else UnsupportedLifecycleProtocol actual in Ok tt
    | None =>
      match lifecycle_actions (pi_capabilities self) with
      | [] => Ok tt
      | _ :: _ => Err InvalidInfo
      end
    end in
  ensure negb (has_action PDeploy (pi_capabilities self)) else InvalidInfo in
  Ok tt.

(** ** Secret-shaped keys *)
(** [key.chars()]: the bytes of each character. *)
Fixpoint chars (s : string) : list string :=
  match s with
  | EmptyString => []
  | String a s =>
    match chars s with
    | (String b c as x) :: rest =>
      if in_range 128 191 b then String a x :: rest else String a EmptyString :: x :: rest
    | rest => String a EmptyString :: rest
    end
  end.

Class LetterCase : Type := {
  unicode_uppercase : string → bool;  (** of a character outside ASCII *)
  unicode_lowercase : string → bool
}.

Section Secrets.
Context `{LetterCase}.

Definition char_is_uppercase (c : string) : bool :=
  match c with String a EmptyString => is_ascii_uppercase a | _ => unicode_uppercase c end.
Definition char_is_lowercase (c : string) : bool :=
  match c with String a EmptyString => is_ascii_lowercase a | _ => unicode_lowercase c end.
Definition is_separator (c : string) : bool :=
  String.eqb c "_" || String.eqb c "-" || String.eqb c ".".

Definition word_text (current : list string) : string :=
  to_ascii_lowercase (join_with "" current).
Definition push_word (words : list string) (current : list string) : list string :=
  match current with [] => words | _ :: _ => words ++ [word_text current] end.

(** The loop over the characters: [words] and [current] so far. *)
Fixpoint split_words (characters : list string) (words current : list string) : list string :=
  match characters with
  | [] => push_word words current
  | c :: rest =>
    if is_separator c then split_words rest (push_word words current) []
    else
      let starts_word :=
        char_is_uppercase c
        && (is_some_and (last current) char_is_lowercase
            || (is_some_and (last current) char_is_uppercase
                && is_some_and (head rest) char_is_lowercase)) in
      if starts_word then split_words rest (words ++ [word_text current]) [c]
      else split_words rest words (current ++ [c])
  end.

Definition FORBIDDEN : list string := ["secret"; "password"; "token"; "credential"; "key"].
Definition secret_shaped_key (key : string) : bool :=
  let words := split_words (chars key) [] [] in
  existsb (λ forbidden, existsb (String.eqb forbidden) words) FORBIDDEN.

(** ** [validate_provider_config] *)
(** [config_len] is the length of the serialised configuration. *)
Definition validate_provider_config (config_len : Json → Z) (config : Json)
  : result ProviderError unit :=
  let? object := ok_or Payload (as_object config) in
  ensure negb ((20 <? Z.of_nat (List.length object)) || (65536 <? config_len config))
  else Payload in
  for_each (λ '(key, value),
              ensure negb (secret_shaped_key key || is_array value || is_object value)
              else Payload in Ok tt) object.

(** ** [collect_strings] and [redact] *)
Fixpoint collect_value (value : Json) : list string :=
  match value with
  | JString s => if str_is_empty s then [] else [s]
  | JArray items => flat_map collect_value items
  | JObject object => flat_map (λ '(_, value), collect_value value) object
  | _ => []
  end.

Definition secret_field (key : string) : bool :=
  secret_shaped_key key
  || existsb (String.eqb key) ["auth_tag"; "system_prompt"; "env"; "env_vars"; "policy_env"].

Fixpoint visit (value : Json) : list string :=
  match value with
  | JArray items => flat_map visit items
  | JObject object =>
    flat_map (λ '(key, value), if secret_field key then collect_value value else visit value) object
  | _ => []
  end.

Fixpoint dedup (l : list string) : list string :=
  match l with
  | a :: (b :: _) as rest => if String.eqb a b then dedup rest else a :: dedup rest
  | _ => l
  end.

(** Longest first, neighbours that are equal once. *)
Definition collect_strings (value : Json) : list string :=
  dedup (sort_by (λ a b, len b <=? len a) (visit value)).

(** [text.replace(from, to)] for a non-empty [from]; every replacement consumes a byte, so
    the length of the text bounds their number. *)
Fixpoint replace_n (n : nat) (from to text : string) : string :=
  match n with
  | O => text
  | S n =>
    match split_once from text with
    | None => text
    | Some (before, after) =>
      String.append before (String.append to (replace_n n from to after))
    end
  end.
Definition replace (from to text : string) : string :=
  replace_n (String.length text) from to text.

Definition REDACTED : string := "[REDACTED]".
Definition redact (input : string) (secrets : list string) : string :=
  fold_left (λ text secret, replace secret REDACTED text) secrets input.
End Secrets.

(** ** [validate_supported_schema] *)
Definition SCHEMA_KEYS : list string :=
  ["type"; "properties"; "required"; "additionalProperties"; "title"; "description"].
Definition PROPERTY_KEYS : list string :=
  ["type"; "title"; "description"; "default"; "enum"; "minimum"; "maximum"].
Definition PROPERTY_TYPES : list string := ["string"; "number"; "integer"; "boolean"; "null"].
Definition str_in (l : list string) (s : string) : bool := existsb (String.eqb s) l.

Definition known_keys (known : list string) (object : list (string * Json))
  : result ProviderError unit :=
  for_each (λ key, ensure str_in known key else UnsupportedSchema key in Ok tt) (keys object).

Definition supported_property (property : Json) : result ProviderError unit :=
  let? property := ok_or (UnsupportedSchema "property") (as_object property) in
  let? _ := known_keys PROPERTY_KEYS property in
  let? _ :=
    match get "type" property ≫= as_str with
    | Some kind =>
      ensure str_in PROPERTY_TYPES kind
      else UnsupportedSchema (String.append "property type " kind) in Ok tt
    | None => Err (UnsupportedSchema "property type")
    end in
  ensure negb (is_some_and (get "enum" property) (λ v, negb (is_array v)))
  else UnsupportedSchema "enum" in
  ensure negb (is_some_and (get "minimum" property) (λ v, negb (is_number v))
               || is_some_and (get "maximum" property) (λ v, negb (is_number v)))
  else UnsupportedSchema "numeric bound" in
  Ok tt.

Definition validate_supported_schema (schema : Json) : result ProviderError unit :=
  let? object := ok_or (UnsupportedSchema "root must be an object") (as_object schema) in
  let? _ := known_keys SCHEMA_KEYS object in
  ensure negb (is_some_and (get "type" object) (λ v, negb (json_eqb v (JString "object"))))
  else UnsupportedSchema "root type" in
  let? _ :=
    match get "required" object with
    | Some required =>
      let? values := ok_or (UnsupportedSchema "required") (as_array required) in
      ensure negb (existsb (λ v, negb (is_string v)) values)
      else UnsupportedSchema "required" in Ok tt
    | None => Ok tt
    end in
  ensure negb (is_some_and (get "additionalProperties" object) (λ v, negb (is_boolean v)))
  else UnsupportedSchema "additionalProperties" in
  match get "properties" object with
  | None => Ok tt
  | Some properties =>
    let? properties := ok_or (UnsupportedSchema "properties") (as_object properties) in
    for_each supported_property (map snd properties)
  end.

(** ** [validate_config_against_schema] *)
Definition valid_type (kind : option string) (value : Json) : bool :=
  match kind with
  | None => false
  | Some kind =>
    if String.eqb kind "string" then is_string value
    else if String.eqb kind "number" then is_number value
    else if String.eqb kind "integer" then
      option_is_some (as_i64 value) || option_is_some (as_u64 value)
    else if String.eqb kind "boolean" then is_boolean value
    else if String.eqb kind "null" then is_null value
    else false
  end.

Definition outside_bounds (property : list (string * Json)) (value : Json) : bool :=
  is_some_and (as_f64 value) (λ number,
    is_some_and (get "minimum" property ≫= as_f64) (λ minimum, SFltb number minimum)
    || is_some_and (get "maximum" property ≫= as_f64) (λ maximum, SFltb maximum number)).

Definition format_field (before key after : string) : string :=
  String.append before (String.append key after).

Definition check_field (properties : option (list (string * Json))) (entry : string * Json)
  : result ProviderError unit :=
  let '(key, value) := entry in
  match (properties ≫= get key) ≫= as_object with
  | None => Ok tt
  | Some property =>
    ensure valid_type (get "type" property ≫= as_str) value
    else InvalidConfig (format_field "field " key " has wrong type") in
    ensure negb (is_some_and (get "enum" property ≫= as_array)
                             (λ allowed, negb (existsb (json_eqb value) allowed)))
    else InvalidConfig (format_field "field " key " is not an allowed value") in
    ensure negb (outside_bounds property value)
    else InvalidConfig (format_field "field " key " is outside bounds") in
    Ok tt
  end.

Fixpoint filter_map {A B} (f : A → option B) (l : list A) : list B :=
  match l with
  | [] => []
  | a :: l => match f a with Some b => b :: filter_map f l | None => filter_map f l end
  end.

Definition validate_config_against_schema (schema config : Json) : result ProviderError unit :=
  let? _ := validate_supported_schema schema in
  (** [schema.as_object().expect(..)] *)
  let schema := default [] (as_object schema) in
  let? config := ok_or (InvalidConfig "must be an object") (as_object config) in
  let? _ :=
    match get "required" schema ≫= as_array with
    | Some required =>
      for_each (λ key, ensure contains_key key config
                       else InvalidConfig (String.append "missing required field " key) in Ok tt)
               (filter_map as_str required)
    | None => Ok tt
    end in
  let properties := get "properties" schema ≫= as_object in
  let? _ :=
    if is_some_and (get "additionalProperties" schema) (λ v, json_eqb v (JBool false)) then
      for_each (λ key,
        ensure is_some_and properties (contains_key key)
        else InvalidConfig (String.append "unknown field " key) in Ok tt) (keys config)
    else Ok tt in
  for_each (check_field properties) config.

(** ** Configuration: what is accepted *)
Lemma ensure_ok {E A} (c : bool) (e : E) (k : result E A) a :
  (ensure c else e in k) = Ok a ↔ c = true ∧ k = Ok a.
Proof. destruct c; split; [by split|by intros [_ ?]|done|by intros [? _]]. Qed.
Lemma ensure_tt {E} (c : bool) (e : E) : (ensure c else e in Ok tt) = Ok tt ↔ c = true.
Proof. rewrite ensure_ok. by split; [intros []|]. Qed.

Lemma bind_tt {E A} (r : result E unit) (k : result E A) a :
  (let? _ := r in k) = Ok a ↔ r = Ok tt ∧ k = Ok a.
Proof. destruct r as [[]|e]; split; [by split|by intros [_ ?]|done|by intros [? _]]. Qed.

Lemma some_and_negb {A} (o : option A) f :
  negb (is_some_and o (λ v, negb (f v))) = true ↔ ∀ v, o = Some v → f v = true.
Proof.
  destruct o as [v|]; cbn; [|by split; [intros _ v [=]|]].
  rewrite negb_involutive. split; [by intros ? w [= <-]|]. intros Hv. by apply Hv.
Qed.

(** The meaning of a schema: every required field is there; with
    [additionalProperties: false] every field is declared; every declared field has its
    type, is one of its enumeration, and lies within its bounds. *)
Definition field_conforms (property : list (string * Json)) (value : Json) : Prop :=
  valid_type (get "type" property ≫= as_str) value = true
  ∧ (∀ allowed, get "enum" property = Some (JArray allowed) →
       ∃ v, v ∈ allowed ∧ json_eqb value v = true)
  ∧ (∀ number minimum, as_f64 value = Some number → get "minimum" property ≫= as_f64 = Some minimum →
       SFltb number minimum = false)
  ∧ (∀ number maximum, as_f64 value = Some number → get "maximum" property ≫= as_f64 = Some maximum →
       SFltb maximum number = false).

Definition conforms (schema config : list (string * Json)) : Prop :=
  (∀ required key, get "required" schema = Some (JArray required) → JString key ∈ required →
     key ∈ keys config)
  ∧ (get "additionalProperties" schema = Some (JBool false) →
     ∀ key, key ∈ keys config →
       ∃ properties, get "properties" schema = Some (JObject properties) ∧ key ∈ keys properties)
  ∧ (∀ properties key value property,
       get "properties" schema = Some (JObject properties) → (key, value) ∈ config →
       get key properties = Some (JObject property) → field_conforms property value).

Lemma as_array_Some o l : o ≫= as_array = Some l ↔ o = Some (JArray l).
Proof. destruct o as [[]|]; cbn; split; congruence. Qed.
Lemma as_object_Some o l : o ≫= as_object = Some l ↔ o = Some (JObject l).
Proof. destruct o as [[]|]; cbn; split; congruence. Qed.

Lemma elem_of_filter_map {A B} (f : A → option B) l b :
  b ∈ filter_map f l ↔ ∃ a, a ∈ l ∧ f a = Some b.
Proof.
  induction l as [|x l IH]; cbn.
  - split; [by intros ?%not_elem_of_nil|by intros (? & ?%not_elem_of_nil & _)].
  - destruct (f x) as [y|] eqn:Hx; [rewrite elem_of_cons|]; rewrite IH; split.
    + intros [->|(a & Ha & Hf)]; [exists x; split; [left|done]|exists a; split; [by right|done]].
    + intros (a & [->|Ha]%elem_of_cons & Hf); [left; congruence|right; eauto].
    + intros (a & Ha & Hf). exists a. split; [by right|done].
    + intros (a & [->|Ha]%elem_of_cons & Hf); [congruence|eauto].
Qed.

Lemma existsb_elem {A} (f : A → bool) l : existsb f l = true ↔ ∃ x, x ∈ l ∧ f x = true.
Proof. rewrite existsb_exists. by setoid_rewrite list_elem_of_In. Qed.

Lemma outside_bounds_false property value :
  outside_bounds property value = false ↔
  (∀ number minimum, as_f64 value = Some number → get "minimum" property ≫= as_f64 = Some minimum →
       SFltb number minimum = false)
  ∧ (∀ number maximum, as_f64 value = Some number → get "maximum" property ≫= as_f64 = Some maximum →
       SFltb maximum number = false).
Proof.
  unfold outside_bounds. destruct (as_f64 value) as [x|]; cbn; [|by split; [split; intros ? ? [=]|]].
  rewrite orb_false_iff. apply Morphisms_Prop.and_iff_morphism.
  - destruct (get "minimum" property ≫= as_f64) as [lo|]; cbn; [|by split; [intros _ ? ? _ [=]|]].
    split; [by intros ? ? ? [= <-] [= <-]|]. intros Hb. by apply Hb.
  - destruct (get "maximum" property ≫= as_f64) as [hi|]; cbn; [|by split; [intros _ ? ? _ [=]|]].
    split; [by intros ? ? ? [= <-] [= <-]|]. intros Hb. by apply Hb.
Qed.

Lemma check_field_ok properties key value :
  check_field properties (key, value) = Ok tt ↔
  ∀ property, properties ≫= get key = Some (JObject property) → field_conforms property value.
Proof.
  unfold check_field.
  destruct ((properties ≫= get key) ≫= as_object) as [property|] eqn:E.
  - apply as_object_Some in E. rewrite !ensure_ok, !negb_true_iff, outside_bounds_false.
    unfold field_conforms. split.
    + intros (Ht & He & Hb & _) p Hp. assert (p = property) as -> by congruence.
      split_and!; [done| |apply Hb..]. intros allowed Ha.
      rewrite Ha in He. cbn in He. apply negb_false_iff, existsb_elem in He. done.
    + intros Hall. destruct (Hall property E) as (Ht & He & Hlo & Hhi).
      split_and!; [done| |done..].
      destruct (get "enum" property ≫= as_array) as [allowed|] eqn:Ea; [|done].
      apply as_array_Some in Ea. cbn. apply negb_false_iff, existsb_elem. by apply He.
  - split; [|done]. intros _ p Hp. rewrite Hp in E. done.
Qed.

Lemma json_eqb_false v : json_eqb v (JBool false) = true ↔ v = JBool false.
Proof. by destruct v as [|[]| | | |]. Qed.

(** A provider's configuration is checked against its schema exactly. For a schema
    of the supported subset, a configuration object is accepted if and only if it has
    every required field, no undeclared field when those are excluded, and every declared
    field with its type, its enumeration and its bounds (compared as doubles); a schema
    outside the subset is refused whatever the configuration. *)
Theorem config_matches_schema schema config :
  validate_config_against_schema (JObject schema) (JObject config) = Ok tt ↔
  validate_supported_schema (JObject schema) = Ok tt ∧ conforms schema config.
Proof.
  unfold validate_config_against_schema, conforms. rewrite bind_tt.
  change (default [] (as_object (JObject schema))) with schema. cbn [as_object ok_or].
  apply and_iff_compat_l. rewrite !bind_tt. apply Morphisms_Prop.and_iff_morphism.
  { split.
    - intros Hr required key Hg Hin. rewrite Hg in Hr. cbn in Hr.
      rewrite for_each_ok in Hr. apply contains_key_elem, ensure_tt with (e := InvalidConfig
        (String.append "missing required field " key)). apply Hr.
      apply elem_of_filter_map. by exists (JString key).
    - intros Hr. destruct (get "required" schema ≫= as_array) as [required|] eqn:E; [|done].
      apply as_array_Some in E. apply for_each_ok. intros key Hin.
      apply elem_of_filter_map in Hin as ([] & Hin & [= ->]).
      apply ensure_tt, contains_key_elem. by eapply Hr. }
  apply Morphisms_Prop.and_iff_morphism.
  { split.
    - intros Ha Hg key Hin. rewrite Hg in Ha. cbn in Ha. rewrite for_each_ok in Ha.
      specialize (Ha key Hin). rewrite ensure_tt in Ha.
      destruct (get "properties" schema ≫= as_object) as [ps|] eqn:E; [|done].
      apply as_object_Some in E. exists ps. split; [done|]. by apply contains_key_elem.
    - intros Ha. destruct (get "additionalProperties" schema) as [v|]; [|done]. cbn.
      destruct (json_eqb v (JBool false)) eqn:E; [|done]. apply json_eqb_false in E as ->.
      apply for_each_ok. intros key Hin. apply ensure_tt.
      destruct (Ha eq_refl key Hin) as (ps & Hps & Hk). rewrite Hps. cbn.
      by apply contains_key_elem. }
  rewrite for_each_ok. split.
  - intros Hall ps key value property Hps Hin Hp. specialize (Hall _ Hin).
    rewrite check_field_ok in Hall. apply Hall. by rewrite Hps.
  - intros Hall [key value] Hin. apply check_field_ok. intros property Hp.
    destruct (get "properties" schema ≫= as_object) as [ps|] eqn:E; [|done].
    apply as_object_Some in E. by eapply Hall.
Qed.

(** ** Redaction *)
Definition occurs (s text : string) : Prop :=
  ∃ a b, text = String.append a (String.append s b).

Lemma occurs_contains s text : occurs s text ↔ contains_str s text = true.
Proof.
  unfold contains_str, occurs. split.
  - intros (a & b & ->). induction a as [|c a IH]; cbn [String.append].
    + assert (strip_prefix s (String.append s b) = Some b) as Hs by apply strip_prefix_append.
      destruct (String.append s b) as [|c t] eqn:E; cbn; by rewrite Hs.
    + cbn [split_once]. destruct (strip_prefix s _); [done|].
      destruct (split_once s _) as [[]|]; done.
  - destruct (split_once s text) as [[a b]|] eqn:E; [|done]. intros _.
    apply split_once_Some in E. eauto.
Qed.

Lemma occurs_nil s : occurs s EmptyString → s = EmptyString.
Proof. intros (a & b & H). by destruct a, s. Qed.

Lemma occurs_extend s a text b : occurs s text → occurs s (String.append a (String.append text b)).
Proof.
  intros (x & y & ->). exists (String.append a x), (String.append y b).
  by rewrite !append_assoc.
Qed.
Lemma occurs_app_l s text b : occurs s text → occurs s (String.append text b).
Proof. apply (occurs_extend s EmptyString). Qed.
Lemma occurs_app_r s a text : occurs s text → occurs s (String.append a text).
Proof. intros Ho. rewrite <- (append_nil_r text). by apply occurs_extend. Qed.

(** A piece without [c] does not reach over a [c]. *)
Lemma prefix_before c s y a b :
  contains_char c s = false → String.append s y = String.append a (String c b) →
  ∃ z, a = String.append s z.
Proof.
  rewrite contains_char_false. revert a. induction s as [|d s IH]; intros a Hs Heq; [by exists a|].
  cbn in Hs. apply andb_true_iff in Hs as [Hd Hs]. apply negb_true_iff, Ascii.eqb_neq in Hd.
  destruct a as [|e a]; cbn in Heq; injection Heq as -> Heq; [done|].
  destruct (IH a Hs Heq) as [z ->]. by exists z.
Qed.

Lemma occurs_around c s a b :
  contains_char c s = false → s ≠ EmptyString →
  occurs s (String.append a (String c b)) → occurs s a ∨ occurs s b.
Proof.
  intros Hc Hne (x & y & Heq). revert x Heq. induction a as [|d a IH]; intros [|e x] Heq.
  - destruct (prefix_before c s y EmptyString b Hc) as [z Hz]; [done|]. by destruct s.
  - injection Heq as -> ->. right. by exists x, y.
  - destruct (prefix_before c s y (String d a) b Hc) as [z Hz]; [done|].
    left. rewrite Hz. by exists EmptyString, z.
  - injection Heq as -> Heq. destruct (IH x Heq) as [Ho|Ho]; [|by right].
    left. by apply (occurs_app_r s (String e EmptyString)).
Qed.

(** Texts that the marker cannot help to re-create: not part of it, without it, and neither
    beginning with an end of it nor ending with a beginning of it. Every other text may show
    up again where a marker meets what is left of the input. *)
Fixpoint splits (s : string) : list (string * string) :=
  match s with
  | EmptyString => []
  | String c s => (String c EmptyString, s) :: map (λ p, (String c p.1, p.2)) (splits s)
  end.
Definition ends_with (t s : string) : bool :=
  existsb (λ p, String.eqb p.2 t) (("", s) :: splits s).
Definition unforgeable (s : string) : bool :=
  negb (str_is_empty s) && negb (contains_str REDACTED s) && negb (contains_str s REDACTED)
  && forallb (λ p, negb (ends_with p.1 s) && (str_is_empty p.2 || negb (starts_with p.2 s)))
       (splits REDACTED).

Lemma in_splits a b : a ≠ EmptyString → (a, b) ∈ splits (String.append a b).
Proof.
  induction a as [|c a IH]; intros Ha; [done|]. cbn. destruct a as [|d a]; [left|].
  right. apply list_elem_of_fmap. exists (String d a, b). split; [done|]. by apply IH.
Qed.
Lemma ends_with_append a t : ends_with t (String.append a t) = true.
Proof.
  unfold ends_with. apply existsb_exists. destruct a as [|c a].
  - exists (EmptyString, t). split; [by left|apply String.eqb_refl].
  - exists (String c a, t). split; [right; apply list_elem_of_In, in_splits; done|apply String.eqb_refl].
Qed.
Lemma starts_with_append t s : starts_with t (String.append t s) = true.
Proof.
  unfold starts_with. induction t as [|c t IH]; [by destruct s|]. cbn. by destruct (Ascii.ascii_dec c c).
Qed.
Lemma unforgeable_parts s u v :
  unforgeable s = true → String.append u v = REDACTED → u ≠ EmptyString →
  (∀ x, s ≠ String.append x u) ∧ (v ≠ EmptyString → ∀ y, s ≠ String.append v y).
Proof.
  unfold unforgeable. rewrite !andb_true_iff. intros (_ & Hall) Huv Hu.
  rewrite forallb_forall in Hall. specialize (Hall (u, v)). cbn [fst snd] in Hall.
  destruct (andb_prop _ _ (Hall ltac:(rewrite <- Huv; by apply list_elem_of_In, in_splits))) as [He Hs].
  split.
  - intros x ->. by rewrite ends_with_append in He.
  - intros Hv y ->. rewrite starts_with_append in Hs. by destruct v.
Qed.

(** Two ways to cut a text. *)
Lemma append_cut a b c d :
  String.append a b = String.append c d →
  (∃ m, c = String.append a m ∧ b = String.append m d) ∨ (∃ m, a = String.append c m ∧ d = String.append m b).
Proof.
  revert c. induction a as [|x a IH]; intros c Heq; [left; by exists c|].
  destruct c as [|y c]; [right; by exists (String x a)|]. cbn in Heq. injection Heq as -> Heq.
  destruct (IH c Heq) as [(m & -> & ->)|(m & -> & ->)]; [left|right]; by exists m.
Qed.
Lemma occurs_around_marker s a b :
  unforgeable s = true → occurs s (String.append a (String.append REDACTED b)) → occurs s a ∨ occurs s b.
Proof.
  intros Hs (x & y & Heq). assert (Hp := Hs). unfold unforgeable in Hp.
  rewrite !andb_true_iff, !negb_true_iff in Hp. destruct Hp as (((Hne & Hin) & Hout) & _).
  assert (¬ occurs REDACTED s) as Hno by (intros Ho%occurs_contains; congruence).
  assert (¬ occurs s REDACTED) as Hno' by (intros Ho%occurs_contains; congruence).
  apply append_cut in Heq as [(m & -> & Heq)|(m & -> & Heq)].
  - (* the occurrence begins in the marker or behind it *)
    apply append_cut in Heq as [(k & -> & ->)|(k & Hk & Heq)]; [right; by exists k, y|].
    apply append_cut in Heq as [(z & -> & ->)|(z & -> & ->)]; [destruct Hno'; by exists m, z|].
    destruct (str_is_empty k) eqn:Ek; [destruct k; [|done]; right; by exists EmptyString, y|].
    destruct (str_is_empty m) eqn:Em.
    + destruct m; [|done]. cbn in Hk. subst k. destruct Hno. by exists EmptyString, z.
    + destruct (unforgeable_parts _ m k Hs (eq_sym Hk)) as [_ Hsuf]; [by intros ->|].
      destruct (Hsuf ltac:(by intros ->) z eq_refl).
  - (* it begins before the marker *)
    apply append_cut in Heq as [(k & -> & ->)|(k & -> & Heq)]; [left; exists x, k; done|].
    destruct (str_is_empty k) eqn:Ek.
    { destruct k; [|done]. left. exists x, EmptyString. by rewrite !append_nil_r. }
    apply append_cut in Heq as [(z & -> & ->)|(z & Hz & ->)].
    + destruct Hno. exists m, z. done.
    + destruct (unforgeable_parts _ k z Hs (eq_sym Hz)) as [Hpre _]; [by intros ->|].
      by destruct (Hpre m).
Qed.

Lemma ends_with_inv t s : ends_with t s = true → ∃ x, s = String.append x t.
Proof.
  unfold ends_with. intros ([a b] & Hin & Heq)%existsb_exists. apply String.eqb_eq in Heq. cbn in Heq. subst b.
  destruct Hin as [[= <- <-]|Hin]; [by exists EmptyString|]. exists a. revert a Hin.
  induction s as [|c s IH]; intros a; [done|]. intros [[= <- <-]|Hin]; [done|].
  apply in_map_iff in Hin as ([a' b'] & [= <- <-] & Hin). cbn. by rewrite <- (IH a' Hin).
Qed.
Lemma starts_with_inv t s : starts_with t s = true → ∃ x, s = String.append t x.
Proof.
  unfold starts_with. revert s. induction t as [|c t IH]; intros s; [by exists s|]. destruct s as [|d s]; [done|].
  cbn. destruct (Ascii.ascii_dec c d) as [->|]; [|done]. intros (x & ->)%IH. by exists x.
Qed.
Ltac each_split Hp :=
  apply list_elem_of_In in Hp; cbn in Hp;
  repeat (destruct Hp as [Hp|Hp]; [first [discriminate Hp|injection Hp; clear Hp; intros; subst]|]); try destruct Hp.
(** A text is one when it meets none of the marker's proper ends and beginnings. *)
Lemma unforgeable_intro s :
  s ≠ EmptyString → contains_str REDACTED s = false → contains_str s REDACTED = false →
  (∀ u v, (u, v) ∈ splits REDACTED → v ≠ EmptyString → ends_with u s = false ∧ starts_with v s = false) →
  unforgeable s = true.
Proof.
  intros Hne Hin Hout Hsp. unfold unforgeable. rewrite Hin, Hout. destruct s as [|c s]; [done|].
  set (t := String c s) in *. cbn [str_is_empty negb andb]. apply forallb_forall. intros [u v] Hp%list_elem_of_In.
  cbn [fst snd]. destruct v as [|d v].
  - cbn [str_is_empty orb]. rewrite andb_true_r. apply negb_true_iff. destruct (ends_with u t) eqn:E; [|done].
    apply ends_with_inv in E as [x Hx]. rewrite <- Hin. symmetry. apply occurs_contains.
    assert (u = REDACTED) as <-.
    { by each_split Hp. }
    exists x, EmptyString. by rewrite append_nil_r.
  - destruct (Hsp u (String d v) Hp) as [-> ->]; done.
Qed.

(** A text without brackets is one, unless it is part of the marker's word. *)
Lemma unforgeable_plain s :
  s ≠ EmptyString → contains_char "[" s = false → contains_char "]" s = false →
  contains_str s REDACTED = false → unforgeable s = true.
Proof.
  intros Hne Ho Hc Hout. apply unforgeable_intro; [done| |done|].
  - destruct (contains_str REDACTED s) eqn:E; [|done]. apply occurs_contains in E as (a & b & ->).
    by rewrite contains_char_append, orb_true_r in Ho.
  - intros u v Hp Hv. split.
    + destruct (ends_with u s) eqn:E; [|done]. apply ends_with_inv in E as [x ->].
      rewrite contains_char_append in Ho. apply orb_false_iff in Ho as [_ Ho]. by each_split Hp.
    + destruct (starts_with v s) eqn:E; [|done]. apply starts_with_inv in E as [x ->].
      rewrite contains_char_append in Hc. apply orb_false_iff in Hc as [Hc _]. by each_split Hp.
Qed.

Fixpoint last_char (s : string) : option ascii :=
  match s with
  | EmptyString => None
  | String c s => match last_char s with Some d => Some d | None => Some c end
  end.
Lemma last_char_append s t : t ≠ EmptyString → last_char (String.append s t) = last_char t.
Proof.
  intros Ht. induction s as [|c s IH]; [done|]. cbn. rewrite IH. destruct t as [|d t]; [done|]. cbn.
  by destruct (last_char t).
Qed.
(** So is a list of texts as JSON shows it, such as an authorization tag, unless it contains
    the marker. *)
Definition QUOTE : ascii := "034".
Definition shown_list (inner : string) : string :=
  String "[" (String QUOTE (String.append inner (String QUOTE "]"))).
Lemma unforgeable_list inner :
  contains_str REDACTED (shown_list inner) = false → unforgeable (shown_list inner) = true.
Proof.
  intros Hin. assert (last_char (shown_list inner) = Some "]"%char) as Hl.
  { exact (last_char_append (String "[" (String QUOTE inner)) (String QUOTE "]") ltac:(done)). }
  apply unforgeable_intro; [done|done|done|]. intros u v Hp Hv. split.
  - destruct (ends_with u _) eqn:E; [|done]. apply ends_with_inv in E as [x Hx]. rewrite Hx in Hl.
    each_split Hp; by rewrite last_char_append in Hl.
  - by each_split Hp.
Qed.

Lemma split_once_first t text a b :
  t ≠ EmptyString → split_once t text = Some (a, b) → ¬ occurs t a.
Proof.
  intros Hne. revert a. induction text as [|c text IH]; intros a; cbn [split_once];
    destruct (strip_prefix t _) as [rest|] eqn:Ep.
  1,3: intros [= <- <-] Hocc%occurs_nil; done.
  - done.
  - destruct (split_once t text) as [[a' b']|] eqn:Es; [|done]. intros [= <- ->].
    pose proof (split_once_Some _ _ _ _ Es) as Htext.
    intros ([|d x] & y & Heq); cbn in Heq.
    + rewrite Htext in Ep.
      replace (String c (String.append a' (String.append t b)))
        with (String.append t (String.append y (String.append t b))) in Ep.
      * by rewrite strip_prefix_append in Ep.
      * change (String c (String.append a' ?r)) with (String.append (String c a') r).
        by rewrite Heq, append_assoc.
    + injection Heq as -> ->. apply (IH _ eq_refl). by exists x, y.
Qed.

Lemma replace_keeps_out s t n text :
  unforgeable s = true → ¬ occurs s text → ¬ occurs s (replace_n n t REDACTED text).
Proof.
  intros Hs. revert text. induction n as [|n IH]; intros text Hno; cbn [replace_n]; [done|].
  destruct (split_once t text) as [[a b]|] eqn:E; [|done].
  apply split_once_Some in E as ->.
  intros [Ha|Hb]%occurs_around_marker; [| |done].
  - apply Hno. by apply occurs_app_l.
  - apply (IH b); [|done]. intros Hb'. apply Hno. apply occurs_app_r. by apply occurs_app_r.
Qed.

Lemma replace_removes s n text :
  unforgeable s = true → (String.length text ≤ n)%nat → ¬ occurs s (replace_n n s REDACTED text).
Proof.
  intros Hs. assert (s ≠ EmptyString) as Hne by (by intros ->). revert text.
  induction n as [|n IH]; intros text Hlen; cbn [replace_n].
  - destruct text; [|cbn in Hlen; lia]. by intros ?%occurs_nil.
  - destruct (split_once s text) as [[a b]|] eqn:E.
    + intros [Ha|Hb]%occurs_around_marker; [| |done].
      * by eapply split_once_first.
      * apply (IH b); [|done]. apply split_once_Some in E as ->.
        rewrite !length_append in Hlen. destruct s; [done|]. cbn in Hlen. lia.
    + intros Ho%occurs_contains. unfold contains_str in Ho. by rewrite E in Ho.
Qed.

Lemma redact_removes input secrets s :
  unforgeable s = true → s ∈ secrets → ¬ occurs s (redact input secrets).
Proof.
  intros Hs. unfold redact. revert input. induction secrets as [|t secrets IH]; intros input Hin.
  { by apply not_elem_of_nil in Hin. }
  cbn [fold_left]. apply elem_of_cons in Hin as [<-|Hin]; [|by apply IH].
  assert (¬ occurs s (replace s REDACTED input)) as Hno by (by apply replace_removes).
  clear IH. revert Hno. generalize (replace s REDACTED input) as text.
  induction secrets as [|t secrets IH]; intros text Hno; cbn [fold_left]; [done|].
  apply IH. by apply replace_keeps_out.
Qed.

(** ** What counts as a secret of a request *)
Inductive text_in : Json → string → Prop :=
| text_here s : s ≠ EmptyString → text_in (JString s) s
| text_item items v s : v ∈ items → text_in v s → text_in (JArray items) s
| text_field o k v s : (k, v) ∈ o → text_in v s → text_in (JObject o) s.

Section SecretTexts.
Context `{LetterCase}.

(** A text below a field whose key is secret-shaped or one of the protected names. *)
Inductive secret_text : Json → string → Prop :=
| secret_item items v s : v ∈ items → secret_text v s → secret_text (JArray items) s
| secret_below o k v s :
    (k, v) ∈ o → secret_field k = false → secret_text v s → secret_text (JObject o) s
| secret_here o k v s :
    (k, v) ∈ o → secret_field k = true → text_in v s → secret_text (JObject o) s.

Lemma elem_of_flat_map {A B} (f : A → list B) l x b : x ∈ l → b ∈ f x → b ∈ flat_map f l.
Proof. rewrite !list_elem_of_In. intros Hx Hb. apply in_flat_map. eauto. Qed.

Lemma text_in_collect v s : text_in v s → s ∈ collect_value v.
Proof.
  induction 1 as [s Hne|items v s Hin _ IH|o k v s Hin _ IH]; cbn.
  - destruct s; [done|]. left.
  - by eapply elem_of_flat_map.
  - by eapply (elem_of_flat_map _ o (k, v)).
Qed.
Lemma secret_text_visit v s : secret_text v s → s ∈ visit v.
Proof.
  induction 1 as [items v s Hin _ IH|o k v s Hin Hk _ IH|o k v s Hin Hk Ht]; cbn.
  - by eapply elem_of_flat_map.
  - eapply (elem_of_flat_map _ o (k, v)); [done|]. cbn. by rewrite Hk.
  - eapply (elem_of_flat_map _ o (k, v)); [done|]. cbn. rewrite Hk. by apply text_in_collect.
Qed.

Lemma elem_of_dedup l s : s ∈ dedup l ↔ s ∈ l.
Proof.
  induction l as [|a l IH]; [done|]. cbn [dedup]. destruct l as [|b l]; [done|].
  destruct (String.eqb_spec a b) as [->|]; rewrite ?elem_of_cons, IH, ?elem_of_cons; set_solver.
Qed.

Lemma secret_text_collected v s : secret_text v s → s ∈ collect_strings v.
Proof.
  intros Hs. unfold collect_strings. apply elem_of_dedup, elem_of_sort_by. by apply secret_text_visit.
Qed.

(** No secret of a request is left in redacted text. *)
Lemma redacted_text_has_no_secret request input s :
  secret_text request s → unforgeable s = true →
  contains_str s (redact input (collect_strings request)) = false.
Proof.
  intros Hs Hc. destruct (contains_str s _) eqn:E; [|done]. apply occurs_contains in E.
  exfalso. revert E. apply redact_removes; [done|]. by apply secret_text_collected.
Qed.
End SecretTexts.
