(* ===== verification/ProviderHost.v ===== *)
(** * The provider host (provider.rs)
    Staging of trusted bytes, the invocation of a provider process, negotiation,
    deployment and lifecycle calls. A process is an oracle: for the binary's bytes, the
    environment and the request it gives what the host observes, which may depend on every
    earlier invocation. JSON encoding is an interface. *)
From Stdlib Require Import ZArith Lia String Ascii.
From stdpp Require Import base gmap list strings.
From S2P Require Import Prelude RustStr LogCapture Bytes Monad Sha256 Discovery Json Provider.
#[local] Open Scope Z_scope.

Definition PROVIDER_INPUT_CAP : Z := 1024 * 1024.
Definition PROVIDER_EXECUTABLE_CAP : Z := 64 * 1024 * 1024.

(** ** Bounded reads *)
(** [reader.take(limit).read_to_end(..)] and [io::copy] from it. *)
Fixpoint copy_up_to (limit : Z) (reader : Reader) : result IoError (list Z) :=
  if limit <=? 0 then Ok [] else
  match reader with
  | [] | Ok [] :: _ => Ok []
  | Err e :: _ => Err e
  | Ok piece :: reader =>
    let n := Z.of_nat (List.length piece) in
    if limit <=? n then Ok (take (Z.to_nat limit) piece)
    else let? more := copy_up_to (limit - n) reader in Ok (piece ++ more)
  end.

(** [spawn_bounded_reader]: the whole stream, or [OutputLimit] when it is longer. *)
Definition bounded_read (reader : option Reader) (cap : Z) : result ProviderError (list Z) :=
  match reader with
  | Some reader =>
    match copy_up_to (cap + 1) reader with
    | Ok bytes => if Z.of_nat (List.length bytes) <=? cap then Ok bytes else Err OutputLimit
    | Err error => Err (ProviderIo error)
    end
  | None => Ok []
  end.

(** ** Staging: [copy_into_sealed_file] *)
Record StagedProvider : Type := mkStaged { st_bytes : list Z; st_sha256 : list Z }.

(** [open]: what opening the source gives; [seal]: adding the seals. The staged file is
    read back whole, in one piece. *)
Definition copy_into_sealed_file (open : result IoError Reader) (seal : option IoError)
    (trusted_sha256 : list Z) : result ProviderError StagedProvider :=
  let? input := map_err ProviderIo open in
  let? output := map_err ProviderIo (copy_up_to (PROVIDER_EXECUTABLE_CAP + 1) input) in
  ensure Z.of_nat (List.length output) <=? PROVIDER_EXECUTABLE_CAP else ExecutableLimit in
  let? sha256 := map_err ProviderIo (sha256_reader [Ok output]) in
  let sha256 := default [] sha256 in
  ensure bool_decide (sha256 = trusted_sha256) else TrustBinding in
  match seal with
  | Some e => Err (ProviderIo e)
  | None => Ok (mkStaged output sha256)
  end.

(** ** [invoke] *)
(** One turn of the loop that waits for the process: [try_wait], and whether the deadline
    has passed; it has passed after the last turn. *)
Record Poll : Type := mkPoll { poll_status : result IoError (option bool); poll_late : bool }.

(** A message of a helper thread, or the deadline. *)
Definition Received (A : Type) : Type := option A.

Record ProcessRun : Type := mkRun {
  run_spawn : list (option IoError);  (** what successive [spawn] calls return *)
  run_polls : list Poll;
  run_stdin : Received (result IoError unit);
  run_stdout : Received (option Reader);
  run_stderr : Received (option Reader)
}.

Record Invocation : Type := mkInvocation {
  iv_binary : list Z; iv_environment : gmap string string; iv_request : list Z
}.

Definition MAX_EXECUTABLE_BUSY_RETRIES : nat := 5.

(** [spawn_provider]: retried while the executable is busy; a list that ends stands for
    spawning that succeeds. *)
Fixpoint spawn_provider (retries : nat) (spawns : list (option IoError)) : result IoError unit :=
  match spawns with
  | [] | None :: _ => Ok tt
  | Some error :: spawns =>
    if kind_is ExecutableFileBusy error then
      match retries with
      | S retries => spawn_provider retries spawns
      | O => Err error
      end
    else Err error
  end.

Fixpoint wait_status (polls : list Poll) : result ProviderError bool :=
  match polls with
  | [] => Err ProviderTimeout
  | p :: polls =>
    match poll_status p with
    | Err e => Err (ProviderIo e)
    | Ok (Some success) => Ok success
    | Ok None => if poll_late p then Err ProviderTimeout else wait_status polls
    end
  end.

Definition receive_before_deadline {A} (r : Received A) : result ProviderError A :=
  ok_or ProviderTimeout r.

Class ProviderWire : Type := {
  to_vec : Json → option (list Z);
  from_slice_value : list Z → option Json;
  info_from_value : Json → option ProviderInfo;
  run_process : list Invocation → Invocation → ProcessRun
}.

Definition bytes_text (l : list Z) : string :=
  fold_right (λ b s, String (bt (Z.to_N b)) s) EmptyString l.

Section Host.
Context `{LetterCase} `{ProviderWire}.

(** Every invocation that spawned a process, in order. *)
Definition Host (A : Type) : Type := M (list Invocation) ProviderError A.

(** The response of a process that ended. *)
Definition read_outcome (stdout_cap stderr_cap : Z) (secrets : list string) (run : ProcessRun)
    (success : bool) : result ProviderError Json :=
  let? written := receive_before_deadline (run_stdin run) in
  let? _ := map_err ProviderIo written in
  let? out := receive_before_deadline (run_stdout run) in
  let? stdout := bounded_read out stdout_cap in
  let? err := receive_before_deadline (run_stderr run) in
  let? stderr := bounded_read err stderr_cap in
  ensure success
  else ProviderFailed (redact (from_utf8_lossy (bytes_text stderr)) secrets) in
  let? response := ok_or InvalidJson (from_slice_value stdout) in
  ensure is_some_and (field "ok" response) (λ v, json_eqb v (JBool true))
  else ProviderFailed
         (redact (default "unknown provider error"%string (field "error" response ≫= as_str))
                 secrets) in
  Ok response.

Definition invoke (binary : list Z) (request : Json) (stdout_cap stderr_cap : Z)
    (environment : gmap string string) : Host Json := λ history,
  match to_vec request with
  | None => (Err InvalidJson, history)
  | Some request_bytes =>
    if PROVIDER_INPUT_CAP <? Z.of_nat (List.length request_bytes) then (Err InputLimit, history)
    else
      let secrets := collect_strings request in
      let invocation := mkInvocation binary environment request_bytes in
      let run := run_process history invocation in
      match spawn_provider MAX_EXECUTABLE_BUSY_RETRIES (run_spawn run) with
      | Err e => (Err (ProviderIo e), history)
      | Ok tt =>
        (let? success := wait_status (run_polls run) in
         read_outcome stdout_cap stderr_cap secrets run success,
         history ++ [invocation])
      end
  end.

(** ** [ProviderHost] *)
Record ProviderHostConfig : Type := mkHostConfig {
  hc_staging_absolute : bool; hc_info_timeout : Z; hc_deploy_timeout : Z;
  hc_stdout_cap : Z; hc_stderr_cap : Z; hc_environment : gmap string string
}.

(** [ProviderHost::new] up to the staging directory. *)
Definition ProviderHost_new (config : ProviderHostConfig) : result ProviderError unit :=
  ensure negb (negb (hc_staging_absolute config) || (hc_info_timeout config =? 0)
               || (hc_deploy_timeout config =? 0) || (hc_stdout_cap config =? 0)
               || (hc_stderr_cap config =? 0))
  else ProviderIo (mkIoError InvalidInput "invalid provider host config") in
  match find (λ '(key, _), secret_shaped_key key) (btree_iter (hc_environment config)) with
  | Some (key, _) => Err (SecretEnvironment key)
  | None => Ok tt
  end.

Record NegotiatedProvider : Type := mkNegotiated {
  np_id : string; np_info : ProviderInfo; np_staged_sha256 : string; np_staged : StagedProvider;
  np_stdout_cap : Z; np_stderr_cap : Z; np_environment : gmap string string
}.

Record ProviderDescriptor : Type := mkDescriptor {
  pd_provider_id : string; pd_provider_version : string; pd_protocol : Z; pd_provider_description : string;
  pd_config_schema : Json; pd_capabilities : ProviderCapabilities; pd_staged_sha256 : string
}.
Definition descriptor (self : NegotiatedProvider) : ProviderDescriptor :=
  mkDescriptor (np_id self) (pi_version (np_info self)) (pi_protocol_version (np_info self))
    (pi_description (np_info self)) (pi_config_schema (np_info self))
    (pi_capabilities (np_info self)) (np_staged_sha256 self).

(** [request_id]: the fresh identifier of the call. *)
Definition info_request (request_id : string) : Json :=
  JObject [("op", JString "info"); ("request_id", JString request_id)].

Definition negotiate (config : ProviderHostConfig) (candidate : ProviderCandidate)
    (open : result IoError Reader) (seal : option IoError) (request_id : string)
  : Host NegotiatedProvider :=
  staged ← of_result (copy_into_sealed_file open seal (pc_sha256 candidate));
  response ← invoke (st_bytes staged) (info_request request_id)
               (hc_stdout_cap config) (hc_stderr_cap config) (hc_environment config);
  info ← of_result (ok_or InvalidInfo (info_from_value response));
  _ ← of_result (ProviderInfo_validate info);
  _ ← of_result (ensure String.eqb (pi_name info) (pc_id candidate)
                 else IdentityMismatch (pc_id candidate) (pi_name info) in Ok tt);
  _ ← of_result (validate_supported_schema (pi_config_schema info));
  mret (mkNegotiated (pc_id candidate) info (hex_digest (st_sha256 staged)) staged
          (hc_stdout_cap config) (hc_stderr_cap config) (hc_environment config)).

Definition deploy_request (request_id : string) (agent provider_config : Json) : Json :=
  JObject [("agent", agent); ("op", JString "deploy"); ("provider_config", provider_config);
           ("request_id", JString request_id)].

(** [config_len]: the length of a serialised configuration, from [to_vec]. *)
Definition config_len (config : Json) : Z :=
  match to_vec config with Some bytes => Z.of_nat (List.length bytes) | None => 65537 end.

Definition response_agent_id (response : Json) : option string :=
  match field "agent_id" response ≫= as_str with
  | Some agent_id => if str_is_empty agent_id then None else Some agent_id
  | None => None
  end.

(** [build_payload] is the closure; [None] is its error. *)
Definition deploy_idempotent (self : NegotiatedProvider) (request_id : string)
    (build_payload : unit → option (Json * Json)) : Host string :=
  _ ← of_result (ensure negb (str_is_empty request_id || (200 <? len request_id)) else Payload
                 in Ok tt);
  payload ← of_result (ok_or Payload (build_payload tt));
  _ ← of_result (validate_provider_config config_len payload.2);
  _ ← of_result (validate_config_against_schema (pi_config_schema (np_info self)) payload.2);
  response ← invoke (st_bytes (np_staged self)) (deploy_request request_id payload.1 payload.2)
               (np_stdout_cap self) (np_stderr_cap self) (np_environment self);
  of_result (ok_or MissingAgentId (response_agent_id response)).

Definition action_name (action : ProviderLifecycleAction) : string :=
  match action with
  | PDeploy => "deploy" | PInspect => "inspect" | PLogs => "logs" | PEnable => "enable"
  | PDisable => "disable" | PDelete => "delete"
  end.

Definition lifecycle (self : NegotiatedProvider) (action : ProviderLifecycleAction)
    (request_id : string) : Host Json :=
  if bool_decide (action = PDeploy) || negb (has_action action (pi_capabilities (np_info self)))
  then throw (UnsupportedLifecycle action)
  else invoke (st_bytes (np_staged self))
         (JObject [("op", JString (action_name action)); ("request_id", JString request_id)])
         (np_stdout_cap self) (np_stderr_cap self) (np_environment self).
End Host.

(** ** Lemmas *)
Lemma copy_up_to_delivers limit s m :
  delivers s m → copy_up_to limit s = Ok (take (Z.to_nat limit) m).
Proof.
  intros Hd. revert limit. induction Hd as [s Hend|p s m Hp Hd IH]; intros limit.
  - rewrite take_nil. destruct Hend as [->|[more ->]]; cbn; by destruct (limit <=? 0).
  - cbn [copy_up_to]. destruct (Z.leb_spec limit 0).
    { by rewrite Z2Nat.nonpos by done. }
    destruct p as [|b p]; [done|]. set (q := b :: p).
    destruct (Z.leb_spec limit (Z.of_nat (List.length q))).
    + rewrite take_app_le by lia. done.
    + rewrite IH, take_app_ge by lia. do 3 f_equal. lia.
Qed.

(** A stream is returned whole when it fits and refused when it does not. *)
Lemma bounded_read_exact s m cap :
  0 ≤ cap → delivers s m →
  bounded_read (Some s) cap = if Z.of_nat (List.length m) <=? cap then Ok m else Err OutputLimit.
Proof.
  intros Hcap Hd. unfold bounded_read. rewrite (copy_up_to_delivers _ _ m) by done.
  rewrite length_take. destruct (Z.leb_spec (Z.of_nat (List.length m)) cap).
  - rewrite take_ge by lia. by rewrite (proj2 (Z.leb_le _ _)) by lia.
  - by rewrite (proj2 (Z.leb_gt _ _)) by lia.
Qed.

Lemma copy_into_sealed_file_ok open seal trusted staged :
  copy_into_sealed_file open seal trusted = Ok staged →
  sha256 (st_bytes staged) = trusted ∧ st_sha256 staged = trusted
  ∧ Z.of_nat (List.length (st_bytes staged)) ≤ PROVIDER_EXECUTABLE_CAP
  ∧ seal = None.
Proof.
  unfold copy_into_sealed_file. destruct open as [input|]; [|done]. cbn [map_err].
  destruct (copy_up_to _ input) as [output|]; [|done]. cbn [map_err].
  destruct (Z.leb_spec (Z.of_nat (List.length output)) PROVIDER_EXECUTABLE_CAP) as [Hle|]; [|done].
  rewrite sha256_reader_whole
    by (unfold PROVIDER_EXECUTABLE_CAP, u64_max in *; lia).
  cbn [map_err default]. change (default [] (Some ?x)) with x.
  case_bool_decide as Ht; [|done]. destruct seal; [done|]. intros [= <-]. done.
Qed.

Section Properties.
Context `{LetterCase} `{ProviderWire}.

(** The call a request stands for, when it is within the limits. *)
Definition sends (binary : list Z) (environment : gmap string string) (request : Json)
    (call : Invocation) : Prop :=
  ∃ bytes, to_vec request = Some bytes ∧ Z.of_nat (List.length bytes) ≤ PROVIDER_INPUT_CAP
    ∧ call = mkInvocation binary environment bytes.

Lemma invoke_history binary request out err env h :
  let '(r, h') := invoke binary request out err env h in
  (h' = h ∧ ∃ e, r = Err e) ∨ ∃ call, sends binary env request call ∧ h' = h ++ [call].
Proof.
  unfold invoke, sends. destruct (to_vec request) as [bytes|]; [|left; by eauto].
  destruct (Z.ltb_spec PROVIDER_INPUT_CAP (Z.of_nat (List.length bytes))); [left; by eauto|].
  destruct (spawn_provider _ _) as [[]|e]; [|left; by eauto]. right. eauto 6.
Qed.

Lemma read_outcome_error oc ec secrets run success m :
  read_outcome oc ec secrets run success = Err (ProviderFailed m) →
  ∃ input, m = redact input secrets.
Proof.
  unfold read_outcome. destruct (run_stdin run) as [[[]|]|]; [|done..]. cbn.
  destruct (run_stdout run) as [o|]; [|done]. cbn.
  destruct (bounded_read o oc) as [stdout|e] eqn:Eo.
  2:{ unfold bounded_read in Eo. destruct o as [r|]; [|done].
      destruct (copy_up_to _ r); [destruct (_ <=? _); [done|]|]; by injection Eo as <-. }
  destruct (run_stderr run) as [o'|]; [|done]. cbn.
  destruct (bounded_read o' ec) as [stderr|e] eqn:Ee.
  2:{ unfold bounded_read in Ee. destruct o' as [r|]; [|done].
      destruct (copy_up_to _ r); [destruct (_ <=? _); [done|]|]; by injection Ee as <-. }
  destruct success; [|intros [= <-]; by eexists].
  destruct (from_slice_value stdout) as [response|]; [|done]. cbn.
  destruct (is_some_and _ _); [done|]. intros [= <-]. by eexists.
Qed.

Lemma of_result_bind {A B} (r : result ProviderError A) (f : A → Host B) h :
  (of_result r ≫= f) h = match r with Ok a => f a h | Err e => (Err e, h) end.
Proof. by destruct r. Qed.

(** No process was started. *)
Ltac failed_early := split; [left; split; [done|by eexists]|done].

(** A deployment: which process is started, if any, and with what. *)
Definition deploy_call (self : NegotiatedProvider) (request_id : string)
    (payload : option (Json * Json)) (call : Invocation) : Prop :=
  ∃ agent config,
    payload = Some (agent, config)
    ∧ validate_provider_config config_len config = Ok tt
    ∧ validate_config_against_schema (pi_config_schema (np_info self)) config = Ok tt
    ∧ sends (st_bytes (np_staged self)) (np_environment self)
        (deploy_request request_id agent config) call.

Lemma deploy_history self request_id build h :
  let '(r, h') := deploy_idempotent self request_id build h in
  ((h' = h ∧ ∃ e, r = Err e) ∨ ∃ call, deploy_call self request_id (build tt) call ∧ h' = h ++ [call])
  ∧ ∀ agent_id, r = Ok agent_id → agent_id ≠ EmptyString.
Proof.
  unfold deploy_idempotent, deploy_call. rewrite of_result_bind.
  destruct (str_is_empty request_id || _); cbn; [failed_early|].
  rewrite of_result_bind. destruct (build tt) as [[agent config]|]; cbn; [|failed_early].
  rewrite of_result_bind.
  destruct (validate_provider_config config_len config) as [[]|] eqn:E1; [|failed_early].
  rewrite of_result_bind.
  destruct (validate_config_against_schema _ config) as [[]|] eqn:E2; [|failed_early].
  unfold mbind, M_bind.
  pose proof (invoke_history (st_bytes (np_staged self)) (deploy_request request_id agent config)
    (np_stdout_cap self) (np_stderr_cap self) (np_environment self) h) as Hi.
  destruct (invoke _ _ _ _ _ h) as [[response|e] h'].
  - destruct Hi as [[_ [e ?]]|(call & Hc & ->)]; [done|]. cbn. split.
    + right. exists call. split; [|done]. by exists agent, config.
    + intros agent_id. unfold response_agent_id.
      destruct (field "agent_id" response ≫= as_str) as [[|c a]|]; [done| |done].
      by intros [= <-].
  - split; [|done]. destruct Hi as [[-> _]|(call & Hc & ->)]; [left; split; [done|by eexists]|].
    right. exists call. split; [|done]. by exists agent, config.
Qed.

(** C20: only bytes with the approved hash are ever executed. Negotiating with a trusted
    candidate starts at most one process, from bytes whose SHA-256 is the one the policy
    approved (never the file as it is by then), with the configured environment and an
    [info] request. A provider that results has the candidate's id and name, a valid
    description and a supported schema; and deploying through it starts at most one process,
    again from the approved bytes, only after the payload was built and its configuration
    passed both checks, and returns a non-empty agent id. *)
Theorem provider_runs_only_trusted_bytes config candidate open seal request_id h :
  let '(r, h') := negotiate config candidate open seal request_id h in
  (h' = h ∨ ∃ call, h' = h ++ [call] ∧ sha256 (iv_binary call) = pc_sha256 candidate
     ∧ iv_environment call = hc_environment config
     ∧ to_vec (info_request request_id) = Some (iv_request call))
  ∧ ∀ provider, r = Ok provider →
    np_id provider = pc_id candidate ∧ pi_name (np_info provider) = pc_id candidate
    ∧ np_staged_sha256 provider = hex_digest (pc_sha256 candidate)
    ∧ ProviderInfo_validate (np_info provider) = Ok tt
    ∧ validate_supported_schema (pi_config_schema (np_info provider)) = Ok tt
    ∧ ∀ id build h1,
        let '(r1, h2) := deploy_idempotent provider id build h1 in
        (h2 = h1 ∨ ∃ call, h2 = h1 ++ [call] ∧ sha256 (iv_binary call) = pc_sha256 candidate
           ∧ deploy_call provider id (build tt) call)
        ∧ ∀ agent_id, r1 = Ok agent_id → agent_id ≠ EmptyString.
Proof.
  unfold negotiate. rewrite of_result_bind.
  destruct (copy_into_sealed_file open seal (pc_sha256 candidate)) as [staged|] eqn:Es;
    [|by split; [left|]].
  apply copy_into_sealed_file_ok in Es as (Hsha & Hst & _ & _).
  unfold mbind at 1, M_bind at 1.
  pose proof (invoke_history (st_bytes staged) (info_request request_id) (hc_stdout_cap config)
    (hc_stderr_cap config) (hc_environment config) h) as Hi.
  destruct (invoke _ _ _ _ _ h) as [r h'].
  assert (h' = h ∨ ∃ call, h' = h ++ [call] ∧ sha256 (iv_binary call) = pc_sha256 candidate
     ∧ iv_environment call = hc_environment config
     ∧ to_vec (info_request request_id) = Some (iv_request call)) as Hh.
  { destruct Hi as [[-> _]|(call & (bytes & Hb & _ & ->) & ->)]; [by left|right].
    by eexists. }
  destruct r as [response|]; [|by split].
  cbn beta iota. rewrite of_result_bind. destruct (info_from_value response) as [info|]; [|by split]. cbn [ok_or].
  cbn beta iota. rewrite of_result_bind. destruct (ProviderInfo_validate info) as [[]|] eqn:Ev; [|by split].
  cbn beta iota. rewrite of_result_bind. destruct (String.eqb_spec (pi_name info) (pc_id candidate)); [|by split].
  cbn beta iota. rewrite of_result_bind. destruct (validate_supported_schema _) as [[]|] eqn:Esch; [|by split].
  split; [done|]. intros provider [= <-]. cbn -[deploy_idempotent]. rewrite Hst.
  split_and!; [done..|]. intros id build h1.
  match goal with |- context [deploy_idempotent ?p] => set (np := p) end.
  pose proof (deploy_history np id build h1) as Hd.
  destruct (deploy_idempotent np id build h1) as [r1 h2]. destruct Hd as [Hd Hid]. split; [|done].
  destruct Hd as [[-> _]|(call & Hc & ->)]; [by left|right]. exists call. split_and!; [done| |done].
  destruct Hc as (agent & cfg & _ & _ & _ & bytes & _ & _ & ->). done.
Qed.

(** C21: what a provider says about its failure is redacted. When an invocation fails with
    the provider's own text, whether from its standard error or its response, no text found
    below a secret-shaped or protected field of the request remains in it, as far as putting
    [[REDACTED]] in its place can achieve that: the text must not be a part of this marker
    or contain it, nor begin as the marker ends or end as it begins ([unforgeable]). Texts
    without brackets, but for parts of the marker's word, and the JSON lists that
    authorization tags are, but for lists that contain the marker, are all of this kind. *)
Theorem provider_errors_carry_no_secret binary request oc ec env h m h' s :
  invoke binary request oc ec env h = (Err (ProviderFailed m), h') →
  secret_text request s →
  unforgeable s = true
    ∨ (s ≠ EmptyString ∧ contains_char "[" s = false ∧ contains_char "]" s = false ∧ contains_str s REDACTED = false)
    ∨ (∃ inner, s = shown_list inner ∧ contains_str REDACTED s = false) →
  contains_str s m = false.
Proof.
  intros Hi Hs Hkind.
  assert (unforgeable s = true) as Hc.
  { destruct Hkind as [?|[(? & ? & ? & ?)|(inner & -> & ?)]];
      [done|by apply unforgeable_plain|by apply unforgeable_list]. } unfold invoke in Hi. destruct (to_vec request) as [bytes|]; [|done].
  destruct (PROVIDER_INPUT_CAP <? _); [done|].
  destruct (spawn_provider _ _) as [[]|e]; [|done]. injection Hi as Hi _.
  destruct (wait_status _) as [success|e] eqn:Ew.
  - apply read_outcome_error in Hi as [input ->]. by apply redacted_text_has_no_secret.
  - exfalso. injection Hi as ->. revert Ew. generalize (run_polls (run_process h
      (mkInvocation binary env bytes))) as polls.
    induction polls as [|p polls IH]; cbn; [done|].
    destruct (poll_status p) as [[success|]|]; [done| |done]. by destruct (poll_late p).
Qed.
End Properties.

(** A provider that fails and repeats the authorization tag it was sent. *)
Definition echoed_tag : string := shown_list "auth".
#[local] Instance ascii_case : LetterCase :=
  {| unicode_uppercase _ := false; unicode_lowercase _ := false |}.
#[local] Instance echo_wire : ProviderWire := {|
  to_vec _ := Some [123; 125];
  from_slice_value _ := Some Null;
  info_from_value _ := None;
  run_process _ _ := mkRun [] [mkPoll (Ok None) false; mkPoll (Ok (Some false)) false]
    (Some (Ok tt)) (Some None)
    (Some (Some [Ok (bytes_of "bad "); Ok (bytes_of (String.append echoed_tag "!"))]))
|}.

Lemma provider_errors_carry_no_secret_witness :
  let request := JObject [("agent", JObject [("auth_tag", JString echoed_tag)])] in
  invoke [] request 10 100 ∅ [] = (Err (ProviderFailed "bad [REDACTED]!"), [mkInvocation [] ∅ [123; 125]])
  ∧ contains_str echoed_tag "bad [REDACTED]!" = false.
Proof.
  intros request.
  assert (invoke [] request 10 100 ∅ []
          = (Err (ProviderFailed "bad [REDACTED]!"), [mkInvocation [] ∅ [123; 125]])) as Hi
    by (vm_compute; reflexivity).
  split; [exact Hi|].
  apply (provider_errors_carry_no_secret _ _ _ _ _ _ _ _ echoed_tag Hi).
  - apply (secret_below _ "agent" (JObject [("auth_tag", JString echoed_tag)])).
    + left.
    + vm_compute. reflexivity.
    + apply (secret_here _ "auth_tag" (JString echoed_tag)).
      * left.
      * vm_compute. reflexivity.
      * constructor. discriminate.
  - right. right. exists "auth". split; [reflexivity|vm_compute; reflexivity].
Defined.
