(* ===== verification/ProviderReconcile.v ===== *)
(** * Provider deployment, once per request (provider_reconcile.rs)
    The coordinator that records an intent before it deploys. The repository is the
    interface the source documents: [begin] inserts if absent, [complete] compares and
    sets. [deploy_once] is the composition of three steps, and the theorems hold for any
    interleaving of the steps of any number of callers, including callers that stop. *)
From Stdlib Require Import ZArith Lia String Ascii.
From stdpp Require Import base gmap list strings.
From S2P Require Import Prelude RustStr Bytes Monad Json Provider ProviderHost.
#[local] Open Scope Z_scope.

Record ProviderDeploymentIntent : Type := mkIntent {
  in_request_id : string; in_provider_id : string; in_staged_sha256 : string
}.
Record ProviderDeploymentReceipt : Type := mkDeployReceipt {
  dr_request_id : string; dr_provider_id : string; dr_staged_sha256 : string;
  dr_external_agent_id : string
}.
#[export] Instance intent_eq_dec : EqDecision ProviderDeploymentIntent.
Proof. solve_decision. Defined.

Inductive BeginDeployment : Type :=
| Acquired
| InFlight (existing : ProviderDeploymentIntent)
| Complete (receipt : ProviderDeploymentReceipt).

Inductive ProviderReconcileError (E : Type) : Type :=
| ReconcileProvider (e : ProviderError)
| ReconcileStorage (e : E)
| RecordMismatch
| InFlightRequiresReconciliation.
Arguments ReconcileProvider {E}.
Arguments ReconcileStorage {E}.
Arguments RecordMismatch {E}.
Arguments InFlightRequiresReconciliation {E}.

(** ** The repository *)
(** A stored record, by request id. *)
Inductive DeploymentRecord : Type :=
| Pending (intent : ProviderDeploymentIntent)
| Finished (receipt : ProviderDeploymentReceipt).

Class ProviderDeploymentRepository (R E : Type) : Type := {
  begin : R → ProviderDeploymentIntent → result E BeginDeployment * R;
  complete : R → ProviderDeploymentReceipt → result E ProviderDeploymentReceipt * R;
  records : R → gmap string DeploymentRecord  (** what is stored, for the laws *)
}.

(** What the trait's documentation requires. A call that fails may or may not have taken
    effect. *)
Class DeploymentRepositoryLaws {R E} `{ProviderDeploymentRepository R E} : Prop := {
  begin_law r i :
    let id := in_request_id i in
    let '(a, r') := begin r i in
    match a with
    | Ok Acquired => records r !! id = None ∧ records r' = <[id:=Pending i]> (records r)
    | Ok (InFlight x) => records r !! id = Some (Pending x) ∧ records r' = records r
    | Ok (Complete x) => records r !! id = Some (Finished x) ∧ records r' = records r
    | Err _ => records r' = records r
               ∨ records r !! id = None ∧ records r' = <[id:=Pending i]> (records r)
    end;
  complete_law r x :
    let id := dr_request_id x in
    let i := mkIntent id (dr_provider_id x) (dr_staged_sha256 x) in
    let '(a, r') := complete r x in
    match a with
    | Ok stored => records r !! id = Some (Pending i) ∧ stored = x
                   ∧ records r' = <[id:=Finished x]> (records r)
    | Err _ => records r' = records r
               ∨ records r !! id = Some (Pending i) ∧ records r' = <[id:=Finished x]> (records r)
    end
}.

Section Coordinator.
Context {R E : Type} `{ProviderDeploymentRepository R E} `{LetterCase} `{ProviderWire}.

Definition validate_intent (actual expected : ProviderDeploymentIntent)
  : result (ProviderReconcileError E) unit :=
  if bool_decide (actual = expected) then Ok tt else Err RecordMismatch.

Definition validate_receipt (receipt : ProviderDeploymentReceipt)
    (expected : ProviderDeploymentIntent) : result (ProviderReconcileError E) unit :=
  if String.eqb (dr_request_id receipt) (in_request_id expected)
     && String.eqb (dr_provider_id receipt) (in_provider_id expected)
     && String.eqb (dr_staged_sha256 receipt) (in_staged_sha256 expected)
     && negb (str_is_empty (dr_external_agent_id receipt))
  then Ok tt else Err RecordMismatch.

(** One call of [deploy_once]: its arguments. *)
Record Request : Type := mkRequest {
  rq_id : string; rq_provider : NegotiatedProvider; rq_build : unit → option (Json * Json)
}.
Definition intent_of (q : Request) : ProviderDeploymentIntent :=
  mkIntent (rq_id q) (np_id (rq_provider q)) (np_staged_sha256 (rq_provider q)).
Definition receipt_of (q : Request) (external_agent_id : string) : ProviderDeploymentReceipt :=
  mkDeployReceipt (rq_id q) (np_id (rq_provider q)) (np_staged_sha256 (rq_provider q))
    external_agent_id.

Definition Answer : Type := result (ProviderReconcileError E) ProviderDeploymentReceipt.

(** How far a call has come: it holds the intent, it has deployed, it has returned. *)
Inductive Progress : Type :=
| Started
| Holding
| Deployed (external_agent_id : string)
| Returned (answer : Answer).

(** Up to and including [begin]. *)
Definition begin_step (q : Request) (repo : R) : Progress * R :=
  if str_is_empty (rq_id q) || (200 <? len (rq_id q)) then
    (Returned (Err (ReconcileProvider Payload)), repo)
  else
    match begin repo (intent_of q) with
    | (Err e, repo) => (Returned (Err (ReconcileStorage e)), repo)
    | (Ok Acquired, repo) => (Holding, repo)
    | (Ok (InFlight existing), repo) =>
      (Returned (let? _ := validate_intent existing (intent_of q) in
                 Err InFlightRequiresReconciliation), repo)
    | (Ok (Complete receipt), repo) =>
      (Returned (let? _ := validate_receipt receipt (intent_of q) in Ok receipt), repo)
    end.

(** The external deployment. *)
Definition deploy_step (q : Request) (history : list Invocation) : Progress * list Invocation :=
  match deploy_idempotent (rq_provider q) (rq_id q) (rq_build q) history with
  | (Ok external_agent_id, history) => (Deployed external_agent_id, history)
  | (Err e, history) => (Returned (Err (ReconcileProvider e)), history)
  end.

(** [complete] and the answer. *)
Definition complete_step (q : Request) (external_agent_id : string) (repo : R) : Progress * R :=
  match complete repo (receipt_of q external_agent_id) with
  | (Err e, repo) => (Returned (Err (ReconcileStorage e)), repo)
  | (Ok stored, repo) =>
    (Returned (let? _ := validate_receipt stored (intent_of q) in Ok stored), repo)
  end.

(** [deploy_once]: the three of them. *)
Definition deploy_once (q : Request) (repo : R) (history : list Invocation)
  : Progress * R * list Invocation :=
  match begin_step q repo with
  | (Holding, repo) =>
    match deploy_step q history with
    | (Deployed id, history) =>
      let '(p, repo) := complete_step q id repo in (p, repo, history)
    | (p, history) => (p, repo, history)
    end
  | (p, repo) => (p, repo, history)
  end.

(** ** Any number of callers, one step at a time *)
Record System : Type := mkSystem {
  sys_repo : R;
  sys_history : list Invocation;
  sys_deploys : list string;  (** the request ids of external deployments, in order *)
  sys_callers : list (Request * Progress)
}.

Definition advance (i : nat) (s : System) : System :=
  match sys_callers s !! i with
  | None => s
  | Some (q, p) =>
    match p with
    | Started =>
      let '(p, repo) := begin_step q (sys_repo s) in
      mkSystem repo (sys_history s) (sys_deploys s) (<[i:=(q, p)]> (sys_callers s))
    | Holding =>
      let '(p, history) := deploy_step q (sys_history s) in
      mkSystem (sys_repo s) history (sys_deploys s ++ [rq_id q]) (<[i:=(q, p)]> (sys_callers s))
    | Deployed id =>
      let '(p, repo) := complete_step q id (sys_repo s) in
      mkSystem repo (sys_history s) (sys_deploys s) (<[i:=(q, p)]> (sys_callers s))
    | Returned _ => s
    end
  end.
Definition run_system (schedule : list nat) (s : System) : System :=
  fold_left (λ s i, advance i s) schedule s.

Definition initial (repo : R) (requests : list Request) : System :=
  mkSystem repo [] [] (map (λ q, (q, Started)) requests).

(** ** Invariant *)
Definition holder (c : Request * Progress) : option string :=
  match c with (q, Holding) => Some (rq_id q) | _ => None end.
Definition tokens (s : System) : list string :=
  filter_map holder (sys_callers s) ++ sys_deploys s.

Definition caller_ok (repo : R) (c : Request * Progress) : Prop :=
  match c with
  | (q, Returned (Ok receipt)) =>
    records repo !! rq_id q = Some (Finished receipt)
    ∧ receipt = receipt_of q (dr_external_agent_id receipt)
  | _ => True
  end.

(** What is stored stays, and a finished record is never changed. *)
Definition records_grow (a b : gmap string DeploymentRecord) : Prop :=
  ∀ id, (is_Some (a !! id) → is_Some (b !! id))
        ∧ ∀ x, a !! id = Some (Finished x) → b !! id = Some (Finished x).

(** From the records [from]: a request id is held or deployed at most once, only if it was
    not recorded before, and then it is recorded now. *)
Record system_ok (from : gmap string DeploymentRecord) (s : System) : Prop := {
  ok_once : NoDup (tokens s);
  ok_recorded id : id ∈ tokens s → is_Some (records (sys_repo s) !! id) ∧ from !! id = None;
  ok_grow : records_grow from (records (sys_repo s));
  ok_callers c : c ∈ sys_callers s → caller_ok (sys_repo s) c;
  ok_history : (List.length (sys_history s) ≤ List.length (sys_deploys s))%nat
}.

Context `{!DeploymentRepositoryLaws}.

#[local] Instance records_grow_preorder : PreOrder records_grow.
Proof.
  split; [done|]. intros a b c Hab Hbc id. split.
  - intros Ha. by apply Hbc, Hab.
  - intros x Hx. by apply Hbc, Hab.
Qed.

Lemma grow_insert_absent a id rec : a !! id = None → records_grow a (<[id:=rec]> a).
Proof.
  intros Hn j. destruct (decide (j = id)) as [->|Hne]; [rewrite Hn; split; [by intros []|done]|].
  by rewrite lookup_insert_ne by done.
Qed.
Lemma grow_insert_pending a id i rec : a !! id = Some (Pending i) → records_grow a (<[id:=rec]> a).
Proof.
  intros Hp j. destruct (decide (j = id)) as [->|Hne].
  - rewrite lookup_insert_eq, Hp. by split; [eexists|].
  - by rewrite lookup_insert_ne by done.
Qed.

Lemma begin_grows r i : records_grow (records r) (records (begin r i).2).
Proof.
  pose proof (begin_law r i) as Hl. destruct (begin r i) as [[[]|] r']; cbn in *.
  - destruct Hl as [Hn ->]. by apply grow_insert_absent.
  - by destruct Hl as [_ ->].
  - by destruct Hl as [_ ->].
  - destruct Hl as [->|[Hn ->]]; [done|]. by apply grow_insert_absent.
Qed.
Lemma complete_grows r x : records_grow (records r) (records (complete r x).2).
Proof.
  pose proof (complete_law r x) as Hl. destruct (complete r x) as [[]r']; cbn in *.
  - destruct Hl as (Hp & _ & ->). by eapply grow_insert_pending.
  - destruct Hl as [->|[Hp ->]]; [done|]. by eapply grow_insert_pending.
Qed.

Lemma caller_ok_grow r r' c :
  records_grow (records r) (records r') → caller_ok r c → caller_ok r' c.
Proof.
  intros Hg. destruct c as [q [| |id|[receipt|e]]]; cbn; try done. intros [Hr Hid].
  split; [|done]. by apply Hg.
Qed.

Lemma validate_receipt_ok receipt q :
  validate_receipt receipt (intent_of q) = Ok tt →
  receipt = receipt_of q (dr_external_agent_id receipt) ∧ dr_external_agent_id receipt ≠ EmptyString.
Proof.
  unfold validate_receipt. destruct (_ && _) eqn:Ec; [|done]. intros _.
  rewrite !andb_true_iff, !String.eqb_eq, negb_true_iff in Ec. destruct Ec as [[[K1 K2] K3] K4].
  destruct receipt as [a b c d]. cbn in *. subst. split; [done|]. by intros ->.
Qed.

(** Replacing caller [i]. *)
Lemma filter_map_app {A B} (f : A → option B) l l' :
  filter_map f (l ++ l') = filter_map f l ++ filter_map f l'.
Proof. induction l as [|a l IH]; cbn; [done|]. destruct (f a); [|done]. cbn. by rewrite IH. Qed.

Lemma insert_split {A} (l : list A) i x y :
  l !! i = Some x → ∃ l1 l2, l = l1 ++ x :: l2 ∧ <[i:=y]> l = l1 ++ y :: l2.
Proof.
  intros Hi. exists (take i l), (drop (S i) l). split; [by rewrite take_drop_middle|].
  apply insert_take_drop. by apply lookup_lt_Some in Hi.
Qed.

(** A caller that moves without coming to hold or having held an intent. *)
Lemma system_ok_quiet from s i q p p' repo :
  system_ok from s → sys_callers s !! i = Some (q, p) → holder (q, p) = None →
  holder (q, p') = None → records_grow (records (sys_repo s)) (records repo) →
  caller_ok repo (q, p') →
  system_ok from (mkSystem repo (sys_history s) (sys_deploys s) (<[i:=(q, p')]> (sys_callers s))).
Proof.
  intros [K1 K2 K3 K4 K5] Hi Hp Hp' Hg Hc.
  destruct (insert_split _ i _ (q, p') Hi) as (l1 & l2 & Hl & Hl').
  assert (tokens (mkSystem repo (sys_history s) (sys_deploys s) (<[i:=(q, p')]> (sys_callers s)))
          = tokens s) as Ht.
  { unfold tokens. cbn [sys_callers sys_deploys]. rewrite Hl', Hl, !filter_map_app.
    cbn [filter_map]. by rewrite Hp, Hp'. }
  split; cbn [sys_repo sys_history sys_deploys sys_callers]; [by rewrite Ht| | | |done].
  - intros id Hid. rewrite Ht in Hid. destruct (K2 id Hid). split; [by apply Hg|done].
  - by etrans.
  - intros c Hin. rewrite Hl' in Hin. rewrite Hl in K4.
    apply elem_of_app in Hin as [Hin|[->|Hin]%elem_of_cons]; [|done|];
      (eapply caller_ok_grow; [done|]); apply K4; set_solver.
Qed.

Lemma system_ok_begin from s i q repo :
  system_ok from s → sys_callers s !! i = Some (q, Started) →
  begin (sys_repo s) (intent_of q) = (Ok Acquired, repo) →
  system_ok from
    (mkSystem repo (sys_history s) (sys_deploys s) (<[i:=(q, Holding)]> (sys_callers s))).
Proof.
  intros [K1 K2 K3 K4 K5] Hi Hb. destruct (insert_split _ i _ (q, Holding) Hi) as (l1 & l2 & Hl & Hl').
  pose proof (begin_law (sys_repo s) (intent_of q)) as Hlaw. rewrite Hb in Hlaw. cbn in Hlaw.
  destruct Hlaw as [Hnone Hrec].
  assert (records_grow (records (sys_repo s)) (records repo)) as Hg
    by (rewrite Hrec; by apply grow_insert_absent).
  assert (tokens (mkSystem repo (sys_history s) (sys_deploys s) (<[i:=(q, Holding)]> (sys_callers s)))
          ≡ₚ rq_id q :: tokens s) as Ht.
  { unfold tokens. cbn. rewrite Hl', Hl, !filter_map_app. cbn. by rewrite <- !app_assoc, Permutation_middle. }
  split; cbn [sys_repo sys_history sys_deploys sys_callers]; [| | | |done].
  - rewrite Ht. constructor; [|done]. intros [[? Hs] _]%K2. congruence.
  - intros id Hid. rewrite Ht in Hid. apply elem_of_cons in Hid as [->|Hid].
    + rewrite Hrec, lookup_insert_eq. split; [by eexists|].
      destruct (from !! rq_id q) eqn:Ef; [|done].
      destruct (proj1 (K3 (rq_id q))) as [? Hs]; [by rewrite Ef|congruence].
    + destruct (K2 id Hid). split; [by apply Hg|done].
  - by etrans.
  - intros c Hin. rewrite Hl' in Hin. rewrite Hl in K4.
    apply elem_of_app in Hin as [Hin|[->|Hin]%elem_of_cons]; [|done|];
      (eapply caller_ok_grow; [done|]); apply K4; set_solver.
Qed.

Lemma deploy_step_facts q history :
  holder (q, (deploy_step q history).1) = None
  ∧ (∀ repo, caller_ok repo (q, (deploy_step q history).1))
  ∧ (List.length (deploy_step q history).2 ≤ S (List.length history))%nat.
Proof.
  unfold deploy_step.
  pose proof (deploy_history (rq_provider q) (rq_id q) (rq_build q) history) as Hd.
  destruct (deploy_idempotent _ _ _ history) as [[id|e] h']; cbn; (split_and!; [done..|]);
    destruct Hd as [[[-> _]|(call & _ & ->)] _]; rewrite ?length_app; cbn; lia.
Qed.

Lemma system_ok_deploy from s i q :
  system_ok from s → sys_callers s !! i = Some (q, Holding) →
  let '(p, history) := deploy_step q (sys_history s) in
  system_ok from
    (mkSystem (sys_repo s) history (sys_deploys s ++ [rq_id q]) (<[i:=(q, p)]> (sys_callers s))).
Proof.
  intros [K1 K2 K3 K4 K5] Hi. destruct (deploy_step_facts q (sys_history s)) as (Hh & Hc & Hlen).
  destruct (deploy_step q (sys_history s)) as [p history]. cbn [fst snd] in Hh, Hc, Hlen.
  destruct (insert_split _ i _ (q, p) Hi) as (l1 & l2 & Hl & Hl').
  assert (tokens (mkSystem (sys_repo s) history (sys_deploys s ++ [rq_id q])
                    (<[i:=(q, p)]> (sys_callers s))) ≡ₚ tokens s) as Ht.
  { unfold tokens. cbn [sys_callers sys_deploys]. rewrite Hl', Hl, !filter_map_app.
    cbn [filter_map]. rewrite Hh. cbn [holder]. rewrite <- !app_assoc.
    apply Permutation_app_head. rewrite (Permutation_app_comm (sys_deploys s)).
    symmetry. apply Permutation_middle. }
  split; cbn [sys_repo sys_history sys_deploys sys_callers]; [by rewrite Ht| |done| |].
  - intros id Hid. rewrite Ht in Hid. by apply K2.
  - intros c Hin. rewrite Hl' in Hin. rewrite Hl in K4.
    apply elem_of_app in Hin as [Hin|[->|Hin]%elem_of_cons]; [|done|]; apply K4; set_solver.
  - rewrite length_app. cbn. lia.
Qed.

Lemma begin_step_facts q repo :
  let '(p, repo') := begin_step q repo in
  records_grow (records repo) (records repo')
  ∧ (p = Holding ∧ begin repo (intent_of q) = (Ok Acquired, repo')
     ∨ holder (q, p) = None ∧ caller_ok repo' (q, p)).
Proof.
  unfold begin_step. destruct (_ || _); [by split; [|right]|].
  pose proof (begin_grows repo (intent_of q)) as Hg.
  pose proof (begin_law repo (intent_of q)) as Hl.
  destruct (begin repo (intent_of q)) as [[[|x|x]|e] repo'] eqn:Eb; cbn in Hg, Hl;
    (split; [done|]); [by left|right; split; [done|]..].
  - by destruct (validate_intent x (intent_of q)) as [[]|].
  - destruct (validate_receipt x (intent_of q)) as [[]|] eqn:Ev; [|done]. cbn.
    apply validate_receipt_ok in Ev as [Hv _]. destruct Hl as [Hl ->]. done.
  - done.
Qed.

Lemma complete_step_facts q id repo :
  let '(p, repo') := complete_step q id repo in
  records_grow (records repo) (records repo') ∧ holder (q, p) = None ∧ caller_ok repo' (q, p).
Proof.
  unfold complete_step. pose proof (complete_grows repo (receipt_of q id)) as Hg.
  pose proof (complete_law repo (receipt_of q id)) as Hl.
  destruct (complete repo (receipt_of q id)) as [[stored|e] repo'] eqn:Eb; cbn in Hg, Hl; [|done].
  split_and!; [done..|]. destruct (validate_receipt stored (intent_of q)) as [[]|] eqn:Ev; [|done]. cbn.
  apply validate_receipt_ok in Ev as [Hv _]. destruct Hl as (_ & -> & Hr).
  by rewrite Hr, lookup_insert_eq.
Qed.

Lemma advance_ok from i s : system_ok from s → system_ok from (advance i s).
Proof.
  intros Hs. unfold advance. destruct (sys_callers s !! i) as [[q p]|] eqn:Hi; [|done].
  destruct p as [| |id|answer]; [| | |done].
  - pose proof (begin_step_facts q (sys_repo s)) as Hf.
    destruct (begin_step q (sys_repo s)) as [p repo].
    destruct Hf as [Hg [[-> Hb]|[Hh Hc]]]; [by apply system_ok_begin|].
    by apply system_ok_quiet with (p := Started).
  - pose proof (system_ok_deploy from s i q Hs Hi) as Hd. by destruct (deploy_step q _).
  - pose proof (complete_step_facts q id (sys_repo s)) as Hf.
    destruct (complete_step q id (sys_repo s)) as [p repo]. destruct Hf as (Hg & Hh & Hc).
    by apply system_ok_quiet with (p := Deployed id).
Qed.

Lemma run_system_ok from schedule s : system_ok from s → system_ok from (run_system schedule s).
Proof.
  revert s. induction schedule as [|i schedule IH]; intros s Hs; [done|].
  apply IH. by apply advance_ok.
Qed.

Lemma initial_ok repo requests : system_ok (records repo) (initial repo requests).
Proof.
  assert (tokens (initial repo requests) = []) as Ht.
  { unfold tokens. cbn. rewrite app_nil_r. by induction requests. }
  split; [by rewrite Ht; constructor| |done| |done].
  - rewrite Ht. by intros ? ?%not_elem_of_nil.
  - intros c Hc. cbn in Hc. apply list_elem_of_fmap in Hc as (q & -> & _). done.
Qed.

(** Three steps of a single caller are [deploy_once]. *)
Lemma three_steps q repo :
  let s := run_system [0; 0; 0]%nat (initial repo [q]) in
  ∃ p, sys_callers s = [(q, p)] ∧ deploy_once q repo [] = (p, sys_repo s, sys_history s)
       ∧ ∃ answer, p = Returned answer.
Proof.
  unfold run_system, initial, deploy_once. cbn -[begin_step deploy_step complete_step].
  pose proof (begin_step_facts q repo) as Hb.
  destruct (begin_step q repo) as [p r] eqn:Eb. cbn -[deploy_step complete_step].
  unfold begin_step in Eb. destruct p as [| |id|answer].
  - exfalso. destruct (_ || _); [done|]. destruct (begin _ _) as [[[]|] ?]; by injection Eb.
  - pose proof (deploy_step_facts q []) as Hd.
    destruct (deploy_step q []) as [p h] eqn:Ed. cbn -[complete_step].
    unfold deploy_step in Ed. destruct p as [| |id|answer].
    + exfalso. destruct (deploy_idempotent _ _ _ _) as [[]?]; by injection Ed.
    + exfalso. destruct (deploy_idempotent _ _ _ _) as [[]?]; by injection Ed.
    + destruct (complete_step q id r) as [p r2] eqn:Ec. cbn. exists p. split_and!; [done..|].
      unfold complete_step in Ec. destruct (complete _ _) as [[]?]; injection Ec as <- _; by eexists.
    + by eauto.
  - exfalso. destruct (_ || _); [done|]. destruct (begin _ _) as [[[]|] ?]; by injection Eb.
  - by eauto.
Qed.

(** C13: a request id is deployed at most once. Whatever the callers, their number and the
    interleaving of their steps (one that stops is never scheduled again), every request
    id is given to a provider at most once, never when it was recorded before, in flight
    or complete, and at most one process is started for it. Callers that return a receipt
    for the same id return the same one, which is the stored one and names their provider
    and the bytes that were staged. A caller that is not interrupted computes
    [deploy_once], and it returns. *)
Theorem deployment_happens_at_most_once repo requests schedule :
  let s := run_system schedule (initial repo requests) in
  NoDup (sys_deploys s)
  ∧ (∀ id, id ∈ sys_deploys s → records repo !! id = None)
  ∧ (List.length (sys_history s) ≤ List.length (sys_deploys s))%nat
  ∧ (∀ q1 r1 q2 r2, (q1, Returned (Ok r1)) ∈ sys_callers s → (q2, Returned (Ok r2)) ∈ sys_callers s →
       rq_id q1 = rq_id q2 → r1 = r2)
  ∧ (∀ q r, (q, Returned (Ok r)) ∈ sys_callers s →
       records (sys_repo s) !! rq_id q = Some (Finished r)
       ∧ r = receipt_of q (dr_external_agent_id r))
  ∧ (∀ q, ∃ p, sys_callers (run_system [0; 0; 0]%nat (initial repo [q])) = [(q, Returned p)]
               ∧ (deploy_once q repo []).1.1 = Returned p).
Proof.
  intros s. destruct (run_system_ok (records repo) schedule (initial repo requests)) as
    [K1 K2 K3 K4 K5]; [apply initial_ok|]. fold s in K1, K2, K3, K4, K5.
  unfold tokens in K1, K2. split_and!.
  - by apply NoDup_app in K1 as (_ & _ & ?).
  - intros id Hid. apply K2. set_solver.
  - done.
  - intros q1 r1 q2 r2 Hq1 Hq2 Heq. destruct (K4 _ Hq1) as [R1 _]. destruct (K4 _ Hq2) as [R2 _].
    rewrite Heq in R1. congruence.
  - intros q r Hq. apply (K4 _ Hq).
  - intros q. destruct (three_steps q repo) as (p & Hc & Hd & answer & ->).
    exists answer. by rewrite Hd.
Qed.
End Coordinator.

(** ** The laws can be met: a map *)
#[local] Instance map_repository : ProviderDeploymentRepository (gmap string DeploymentRecord) unit := {
  begin r i :=
    match r !! in_request_id i with
    | None => (Ok Acquired, <[in_request_id i:=Pending i]> r)
    | Some (Pending x) => (Ok (InFlight x), r)
    | Some (Finished x) => (Ok (Complete x), r)
    end;
  complete r x :=
    match r !! dr_request_id x with
    | Some (Pending i) =>
      if decide (i = mkIntent (dr_request_id x) (dr_provider_id x) (dr_staged_sha256 x))
      then (Ok x, <[dr_request_id x:=Finished x]> r) else (Err tt, r)
    | _ => (Err tt, r)
    end;
  records r := r
}.
#[local] Instance map_repository_laws : @DeploymentRepositoryLaws _ unit map_repository.
Proof.
  split.
  - intros r i. cbn. destruct (r !! in_request_id i) as [[x|x]|] eqn:E; by rewrite ?E.
  - intros r x. cbn. destruct (r !! dr_request_id x) as [[i|y]|] eqn:E; [|by left..].
    case_decide as Hi; [|by left]. subst i. by split_and!.
Qed.

(** A provider that answers with an agent id. *)
#[local] Instance no_letters : LetterCase :=
  {| unicode_uppercase _ := false; unicode_lowercase _ := false |}.
#[local] Instance deploying_wire : ProviderWire := {|
  to_vec _ := Some [123; 125];
  from_slice_value _ := Some (JObject [("agent_id", JString "x1"); ("ok", JBool true)]);
  info_from_value _ := None;
  run_process _ _ := mkRun [] [mkPoll (Ok (Some true)) false] (Some (Ok tt)) (Some None) (Some None)
|}.
Definition sample_provider : NegotiatedProvider :=
  mkNegotiated "reference"
    (mkProviderInfo true "reference" "1" 1 "d" (JObject []) (mkCapabilities None []))
    "00" (mkStaged [] []) 10 10 ∅.
Definition sample_request : Request :=
  mkRequest "op-1" sample_provider (λ _, Some (Null, JObject [])).

(** Two callers of one id, interleaved: one deployment, and one receipt. *)
Lemma deployment_happens_at_most_once_witness :
  let s := run_system [0; 1; 0; 0; 1]%nat
             (initial (∅ : gmap string DeploymentRecord) [sample_request; sample_request]) in
  NoDup (sys_deploys s) ∧ sys_deploys s = ["op-1"] ∧ List.length (sys_history s) = 1%nat
  ∧ map snd (sys_callers s)
    = [Returned (Ok (mkDeployReceipt "op-1" "reference" "00" "x1"));
       Returned (Err InFlightRequiresReconciliation)].
Proof.
  intros s. split_and!; [|vm_compute; reflexivity..].
  apply (deployment_happens_at_most_once (∅ : gmap string DeploymentRecord)
           [sample_request; sample_request] [0; 1; 0; 0; 1]%nat).
Defined.
