(* ===== verification/AgentFiles.v ===== *)
(** * Agent and persona files (agent_files.rs)
    The repository of human-editable JSON documents: one file per agent and per persona,
    written atomically, over the file system of [Fs] and an interface to the JSON
    encoding. *)
From Stdlib Require Import ZArith Lia String Ascii.
From stdpp Require Import base gmap list strings.
From S2P Require Import Prelude RustStr Ids Lifecycle Agent Bytes Diagnostics LogCapture Monad Fs.
#[local] Open Scope Z_scope.

Definition DEFAULT_AGENT_PARALLELISM : Z := 10.

Record AgentFileStore : Type := mkAgentFileStore { store_root : Path }.

Record AgentCreateFileOptions : Type := mkCreateFileOptions {
  co_display_name : string; co_persona_id : option string; co_system_prompt : option string;
  co_system_prompt_file : option string; co_runtime : option RuntimeId;
  co_filesystem_user : option string
}.

Inductive AgentFileError : Type :=
| FileIo (e : IoError)
| FileJson
| FileValidation (e : ValidationError)
| PersonaNotFound (id : string)
| PersonaReferenced (persona_id agents : string)
| RuntimeRequired (id : string)
| StandaloneRuntimeRequired
| AgentIdMismatch (expected found : AgentId)
| SystemPromptFile (path message : string).

Record ResolvedAgentConfig : Type := mkResolvedAgentConfig {
  rac_spec : AgentSpec; rac_persona_id : option string; rac_avatar_url : option string;
  rac_model : option string; rac_provider : option string; rac_filesystem : FilesystemConfig;
  rac_agent_args : list string; rac_parallelism : Z; rac_respond_to : RespondToMode;
  rac_respond_to_allowlist : list string; rac_idle_timeout_seconds : option Z;
  rac_max_turn_duration_seconds : option Z
}.

Definition newline_text : string := String LF EmptyString.

(** [serde_json] of the two document types. *)
Class DocumentJson : Type := {
  agent_to_json : AgentConfigFile → string;
  agent_of_json : string → option AgentConfigFile;
  persona_to_json : PersonaDefinition → string;
  persona_of_json : string → option PersonaDefinition
}.
(** ** Paths *)
Definition agents_dir (self : AgentFileStore) : Path := join (store_root self) "agents".
Definition personas_dir (self : AgentFileStore) : Path := join (store_root self) "personas".
Definition document_name (stem : string) : string := String.append stem ".json".

Section Store.
Context `{UuidLib} `{DocumentJson}.

Definition FileM (A : Type) : Type := M Fs AgentFileError A.
Definition io {A} (m : IO A) : FileM A := M_map_err FileIo m.
Definition validation {A} (r : result ValidationError A) : FileM A :=
  of_result (map_err FileValidation r).
Definition json {A} (o : option A) : FileM A := of_result (ok_or FileJson o).

Definition AgentFileStore_new (root : Path) : FileM AgentFileStore :=
  let store := mkAgentFileStore root in
  _ ← io (create_dir_all (agents_dir store));
  _ ← io (create_dir_all (personas_dir store));
  mret store.

Definition agent_path (self : AgentFileStore) (id : AgentId) : Path :=
  join (agents_dir self) (document_name (AgentId_to_string id)).

Definition persona_id_char (c : ascii) : bool :=
  is_ascii_alphanumeric c || Ascii.eqb c "-" || Ascii.eqb c "_".
Definition persona_path (self : AgentFileStore) (id : string) : result AgentFileError Path :=
  if str_is_empty id || negb (all_bytes persona_id_char id)
  then Err (FileValidation (mkValidationError "persona_id"
              "must contain only letters, numbers, '-' or '_'"))
  else Ok (join (personas_dir self) (document_name id)).

(** ** Reading *)
Definition load_agent (self : AgentFileStore) (id : AgentId) : FileM AgentConfigFile :=
  bytes ← io (read_file (agent_path self id));
  value ← json (agent_of_json bytes);
  if negb (bool_decide (acf_id value = id)) then throw (AgentIdMismatch id (acf_id value))
  else _ ← validation (AgentConfigFile_validate value); mret value.

Definition load_persona (self : AgentFileStore) (id : string) : FileM PersonaDefinition :=
  path ← of_result (persona_path self id);
  found ← io (path_exists path);
  if negb found then throw (PersonaNotFound id)
  else
    bytes ← io (read_file path);
    value ← json (persona_of_json bytes);
    _ ← validation (PersonaDefinition_validate value);
    if negb (String.eqb (pd_id value) id)
    then throw (FileValidation (mkValidationError "persona.id" "must match the persona filename"))
    else mret value.

Definition is_document (p : Path) : bool := bool_decide (extension p = Some "json").

Definition list_personas (self : AgentFileStore) : FileM (list PersonaDefinition) :=
  entries ← io (read_directory (personas_dir self));
  values ← mapM' (λ path,
             bytes ← io (read_file path);
             value ← json (persona_of_json bytes);
             _ ← validation (PersonaDefinition_validate value);
             mret value) (List.filter is_document entries);
  mret (sort_by (λ a b, String.leb (pd_id a) (pd_id b)) values).

Definition ensure_persona_removable (self : AgentFileStore) (id : string)
  : FileM PersonaDefinition :=
  persona ← load_persona self id;
  entries ← io (read_directory (agents_dir self));
  values ← mapM' (λ path, bytes ← io (read_file path); json (agent_of_json bytes))
             (List.filter is_document entries);
  let linked := map (λ v, AgentId_to_string (acf_id v))
                  (List.filter (λ v, bool_decide (acf_persona_id v = Some id)) values) in
  match linked with
  | [] => mret persona
  | _ :: _ => throw (PersonaReferenced id (join_with ", " (sort_by String.leb linked)))
  end.

(** ** Writing *)
(** A temporary file [tmp] beside the document (removed when it is dropped unpersisted),
    made durable and renamed over it. *)
Definition drop_temporary (tmp : Path) {A} (m : IO A) : IO A := λ s,
  match m s with
  | (Ok a, s) => (Ok a, s)
  | (Err e, s) => (Err e, (remove_file tmp s).2)
  end.
Definition persist_document (tmp path : Path) (payload : string) : IO unit :=
  _ ← write_all tmp payload;
  _ ← write_all tmp newline_text;
  _ ← sync_all tmp;
  rename tmp path.
Definition atomic_pretty_json (path : Path) (tmp payload : string) : FileM unit :=
  parent ← of_result (ok_or (FileIo (mkIoError InvalidInput "path has no parent")) (parent path));
  _ ← io (create_dir_all parent);
  let tmp := join parent tmp in
  _ ← io (create_new tmp 384 (* 0o600 *));
  io (drop_temporary tmp (persist_document tmp path payload)).

Definition write_agent (self : AgentFileStore) (tmp : string) (value : AgentConfigFile) : FileM unit :=
  _ ← validation (AgentConfigFile_validate value);
  atomic_pretty_json (agent_path self (acf_id value)) tmp (agent_to_json value).

Definition write_persona (self : AgentFileStore) (tmp : string) (value : PersonaDefinition)
  : FileM unit :=
  _ ← validation (PersonaDefinition_validate value);
  path ← of_result (persona_path self (pd_id value));
  atomic_pretty_json path tmp (persona_to_json value).

Definition remove_persona (self : AgentFileStore) (id : string) : FileM PersonaDefinition :=
  persona ← ensure_persona_removable self id;
  path ← of_result (persona_path self id);
  _ ← io (remove_file path);
  mret persona.

(** Removing what is not there is no error. *)
Definition remove_agent (self : AgentFileStore) (id : AgentId) : FileM unit := λ s,
  match remove_file (agent_path self id) s with
  | (Ok tt, s) => (Ok tt, s)
  | (Err error, s) => if kind_is NotFound error then (Ok tt, s) else (Err (FileIo error), s)
  end.

Definition ensure_agent_file (self : AgentFileStore) (tmp : string) (spec : AgentSpec) : FileM unit :=
  found ← io (path_exists (agent_path self (spec_id spec)));
  if (found : bool) then mret tt
  else write_agent self tmp
    (mkAgentConfigFile (spec_id spec) (spec_display_name spec) None None
       (if str_is_empty (spec_system_prompt spec) then None else Some (spec_system_prompt spec))
       None (Some (rs_runtime_id (spec_runtime spec))) None None
       (rs_environment (spec_runtime spec)) (mkFilesystemConfig None) AutoJoinDisabled []
       DEFAULT_AGENT_PARALLELISM OwnerOnly [] None None).

(** ** Resolution *)
Definition nonblank (value : option string) : option string :=
  match value with
  | Some v => let trimmed := trim v in if str_is_empty trimmed then None else Some trimmed
  | None => None
  end.

Definition prompt_error {A} (path what : string) (e : IoError) : result AgentFileError A :=
  Err (SystemPromptFile path (String.append what (io_message e))).
Definition or_prompt_error {A} (path what : string) (m : IO A) : FileM A := λ s,
  match m s with (Ok a, s) => (Ok a, s) | (Err e, s) => (prompt_error path what e, s) end.

Definition is_utf8 (bytes : string) : bool := String.eqb (from_utf8_lossy bytes) bytes.

Definition resolve_system_prompt (file : AgentConfigFile) : FileM string :=
  match nonblank (acf_system_prompt file) with
  | Some prompt => mret prompt
  | None =>
    match acf_system_prompt_file file with
    | None => mret EmptyString
    | Some path =>
      resolved ← or_prompt_error path "cannot resolve file: " (canonicalize (path_of_string path));
      metadata ← or_prompt_error path "cannot inspect file: " (metadata resolved);
      if negb (is_kind RegularFile metadata)
      then throw (SystemPromptFile path "path is not a regular file")
      else
        bytes ← or_prompt_error path "cannot read file: " (read_file resolved);
        if is_utf8 bytes then mret (trim bytes)
        else throw (SystemPromptFile path "file is not valid UTF-8")
    end
  end.

Definition positive_only (v : option Z) : option Z :=
  match v with Some n => if 0 <? n then Some n else None | None => None end.

Definition option_or {A} (a b : option A) : option A := match a with Some _ => a | None => b end.

(** Runtime, prompt, model, provider and environment: the persona's where one is linked. *)
Definition effective_fields (self : AgentFileStore) (file : AgentConfigFile)
  : FileM (RuntimeId * string * option string * option string * gmap string string) :=
  match acf_persona_id file with
  | Some persona_id =>
    persona ← load_persona self persona_id;
    runtime ← of_result (ok_or (RuntimeRequired persona_id)
                                (option_or (acf_runtime file) (pd_runtime persona)));
    mret (runtime, trim (pd_system_prompt persona), nonblank (pd_model persona),
          nonblank (pd_provider persona), acf_environment file ∪ pd_environment persona)
  | None =>
    runtime ← of_result (ok_or StandaloneRuntimeRequired (acf_runtime file));
    prompt ← resolve_system_prompt file;
    mret (runtime, prompt, nonblank (acf_model file), nonblank (acf_provider file),
          acf_environment file)
  end.

Definition resolve (self : AgentFileStore) (file : AgentConfigFile)
    (community_config_id : CommunityConfigId) (desired_state : DesiredAgentState)
  : FileM ResolvedAgentConfig :=
  _ ← validation (AgentConfigFile_validate file);
  fields ← effective_fields self file;
  let '(runtime_id, system_prompt, model, provider, environment) := fields in
  let spec := mkAgentSpec (acf_id file) community_config_id (acf_display_name file) system_prompt
                (mkRuntimeSpec runtime_id environment) desired_state in
  _ ← validation (AgentSpec_validate spec);
  mret (mkResolvedAgentConfig spec (acf_persona_id file) (acf_avatar_url file) model provider
          (acf_filesystem file) (acf_agent_args file) (acf_parallelism file) (acf_respond_to file)
          (map to_ascii_lowercase (acf_respond_to_allowlist file))
          (positive_only (acf_idle_timeout_seconds file))
          (positive_only (acf_max_turn_duration_seconds file))).

Definition build_create_file (self : AgentFileStore) (id : AgentId)
    (options : AgentCreateFileOptions) : FileM AgentConfigFile :=
  defaults ←
    match co_persona_id options with
    | Some pid =>
      p ← load_persona self pid;
      mret (pd_avatar_url p, default DEFAULT_AGENT_PARALLELISM (pd_parallelism p),
            default OwnerOnly (pd_respond_to p), pd_respond_to_allowlist p,
            Some (pd_system_prompt p))
    | None =>
      mret (None, DEFAULT_AGENT_PARALLELISM, OwnerOnly, [], co_system_prompt options)
    end;
  let '(avatar_url, parallelism, respond_to, respond_to_allowlist, prompt_snapshot) := defaults in
  let file := mkAgentConfigFile id (co_display_name options) (co_persona_id options) avatar_url
                prompt_snapshot (co_system_prompt_file options) (co_runtime options) None None ∅
                (mkFilesystemConfig (co_filesystem_user options)) AutoJoinDisabled [] parallelism
                respond_to respond_to_allowlist None None in
  _ ← validation (AgentConfigFile_validate file);
  mret file.
End Store.

(** ** ASCII is UTF-8 *)
Definition ascii_text (s : string) : Prop := all_bytes (in_range 0 127) s = true.
Lemma ascii_utf8 s : ascii_text s → is_utf8 s = true.
Proof.
  unfold ascii_text, is_utf8. intros Hs. apply String.eqb_eq. induction s as [|c s IH]; [done|].
  cbn [all_bytes] in Hs. apply andb_true_iff in Hs as [Hc Hs]. cbn [from_utf8_lossy]. rewrite Hc. f_equal. auto.
Qed.

(** ** Writing a document *)
Definition new_document (uid : Z) (payload : string) : Node :=
  mkNode RegularFile 384 uid (String.append payload newline_text).

(** The body that works on the temporary file: it leaves everything else alone until the
    rename, which puts the whole document in place. *)
Lemma persist_document_effect tmp path payload s :
  tmp ≠ path → fs_nodes s !! tmp = Some (mkNode RegularFile 384 (fs_uid s) "") →
  let '(r, s') := persist_document tmp path payload s in
  match r with
  | Ok _ => fs_nodes s' = <[path:=new_document (fs_uid s) payload]> (delete tmp (fs_nodes s))
  | Err _ => only_at tmp s s'
  end.
Proof.
  intros Hne Htmp. unfold persist_document, mbind, M_bind.
  pose proof (only_at_write_all tmp payload s) as O1.
  destruct (write_all tmp payload s) as [[[]|e] s1] eqn:E1; cbn [snd] in O1; [|done].
  pose proof (only_at_write_all tmp newline_text s1) as O2.
  destruct (write_all tmp newline_text s1) as [[[]|e] s2] eqn:E2; cbn [snd] in O2; [|by etrans].
  pose proof (kept_sync_all tmp s2) as O3.
  destruct (sync_all tmp s2) as [[[]|e] s3] eqn:E3; cbn [snd] in O3;
    [|by etrans; [|etrans; [|apply kept_only_at]]].
  assert (only_at tmp s s3) as Ho by (by etrans; [|etrans; [|apply kept_only_at]]).
  destruct (rename tmp path s3) as [[[]|e] s4] eqn:E4;
    [|by etrans; [|eapply kept_only_at, rename_err]].
  apply rename_ok in E4 as (n & Hn & ->). apply write_all_ok in E1, E2.
  assert (n = new_document (fs_uid s) payload) as ->.
  { unfold nodes_kept in O3. rewrite O3, E2, E1, !lookup_alter_eq, Htmp in Hn.
    by injection Hn as <-. }
  apply map_eq. intros q. destruct (decide (q = path)) as [->|Hq]; [by rewrite !lookup_insert_eq|].
  rewrite !lookup_insert_ne by done. destruct (decide (q = tmp)) as [->|Ht].
  - by rewrite !lookup_delete_eq.
  - rewrite !lookup_delete_ne by done. by apply Ho.
Qed.

(** What a document write may do to the tree. *)
Definition document_written (path tmp : Path) (payload : string) (r : result AgentFileError unit)
    (s s' : Fs) : Prop :=
  (∀ q, q ≠ path → q ≠ tmp → is_Some (fs_nodes s !! q) → fs_nodes s' !! q = fs_nodes s !! q)
  ∧ match r with
    | Ok _ => fs_nodes s' !! path = Some (new_document (fs_uid s) payload) ∧ fs_nodes s' !! tmp = None
    | Err _ => fs_nodes s' !! path = fs_nodes s !! path
    end.

Lemma fs_uid_atomic {A} (m : IO A) s :
  (∀ s, fs_uid (m s).2 = fs_uid s) → fs_uid (atomic_call m s).2 = fs_uid s.
Proof.
  intros Hm. unfold atomic_call, call. destruct (fs_faults s) as [|[[e n]|] rest]; [done..|].
  by rewrite Hm.
Qed.
Lemma fs_uid_create_dir_all p s : fs_uid (create_dir_all p s).2 = fs_uid s.
Proof.
  apply fs_uid_atomic. generalize (prefixes [] (p_components p)) as l.
  induction l as [|c l IH]; intros s0; cbn; [done|]. unfold mbind, M_bind, ensure_dir.
  destruct (fs_nodes s0 !! _) as [n|]; [|by rewrite IH].
  destruct (is_kind RegularFile n || is_kind Socket n); [done|]. by rewrite IH.
Qed.

Lemma fs_uid_create_new p mode s : fs_uid (create_new p mode s).2 = fs_uid s.
Proof.
  apply fs_uid_atomic. intros s0. unfold insert_absent. by destruct (fs_nodes s0 !! p).
Qed.

Lemma atomic_pretty_json_effect path tmp payload dir s :
  parent path = Some dir → join dir tmp ≠ path →
  (List.length (p_components dir) < List.length (p_components path))%nat →
  let '(r, s') := atomic_pretty_json path tmp payload s in
  document_written path (join dir tmp) payload r s s'.
Proof.
  intros Hp Hne Hlen. unfold atomic_pretty_json. rewrite Hp. cbn [ok_or]. cbv zeta.
  unfold mbind, M_bind, of_result. cbv beta iota. set (t := join dir tmp).
  unfold io, M_map_err.
  pose proof (create_dir_all_grow dir s) as Hg. pose proof (fs_uid_create_dir_all dir s) as Hu.
  destruct (create_dir_all dir s) as [r1 s1] eqn:E1. cbn [snd] in Hg, Hu.
  assert (∀ q, is_Some (fs_nodes s !! q) → fs_nodes s1 !! q = fs_nodes s !! q) as Hold.
  { intros q [n Hn]. destruct (Hg q) as [->|[Hnone _]]; [done|congruence]. }
  assert (fs_nodes s1 !! path = fs_nodes s !! path) as Hpath.
  { destruct (Hg path) as [->|(_ & Hl & _)]; [done|lia]. }
  destruct r1 as [[]|e]; cbn [map_err]; [|by split; [auto|]].
  pose proof (only_at_create_new t 384 s1) as Ho.
  destruct (create_new t 384 s1) as [[[]|e] s2] eqn:E2; cbn [map_err]; cbv beta iota zeta; cbn [snd] in Ho;
    [|split; [intros q Hq Ht Hs; rewrite Ho by done; auto|by rewrite Ho by done]].
  assert (fs_uid s2 = fs_uid s) as Hu2.
  { pose proof (fs_uid_create_new t 384 s1) as Hx. rewrite E2 in Hx. cbn in Hx. congruence. }
  apply create_new_ok in E2 as [_ E2].
  unfold drop_temporary.
  pose proof (persist_document_effect t path payload s2 Hne) as Hb.
  destruct (persist_document t path payload s2) as [[[]|e] s3]; cbn [map_err];
    cbv beta iota; unfold document_written.
  - rewrite Hb by (by rewrite Hu2, E2, lookup_insert_eq, Hu). rewrite Hu2. split.
    + intros q Hq Ht Hs. rewrite lookup_insert_ne, lookup_delete_ne by done.
      rewrite Ho by done. auto.
    + rewrite lookup_insert_eq, lookup_insert_ne, lookup_delete_eq by done. done.
  - assert (only_at t s2 s3) as Hb' by (apply Hb; by rewrite Hu2, E2, lookup_insert_eq, Hu).
    pose proof (only_at_remove_file t s3) as Hr. cbn [snd].
    split; [intros q Hq Ht Hs|]; rewrite Hr, Hb', Ho by done; auto.
Qed.

(** ** Properties *)
Section Properties.
Context `{UuidLib} `{DocumentJson}.

Lemma agent_path_parent store id :
  parent (agent_path store id) = Some (agents_dir store)
  ∧ (List.length (p_components (agents_dir store))
     < List.length (p_components (agent_path store id)))%nat.
Proof.
  unfold agent_path. rewrite parent_join. split; [done|]. cbn. rewrite !length_app. cbn. lia.
Qed.

(** C30: an agent document is replaced atomically and reads back. Whatever call fails and
    however much of a write happens first, after [write_agent] the document is the old one
    or the complete new one, the new one exactly when the call succeeded, and no other
    file that existed has changed. After a success, loading the agent gives the value that
    was written, given that the JSON encoding reads back what it wrote. *)
Theorem agent_files_are_written_atomically store tmp value s :
  agent_of_json (String.append (agent_to_json value) newline_text) = Some value →
  join (agents_dir store) tmp ≠ agent_path store (acf_id value) →
  let '(r, s') := write_agent store tmp value s in
  (∀ q, q ≠ agent_path store (acf_id value) → q ≠ join (agents_dir store) tmp →
     is_Some (fs_nodes s !! q) → fs_nodes s' !! q = fs_nodes s !! q)
  ∧ match r with
    | Ok _ => fs_nodes s' !! join (agents_dir store) tmp = None
              ∧ (fs_faults s' = [] → load_agent store (acf_id value) s' = (Ok value, s'))
    | Err _ => fs_nodes s' !! agent_path store (acf_id value)
               = fs_nodes s !! agent_path store (acf_id value)
    end.
Proof.
  intros Hjson Hne. destruct (agent_path_parent store (acf_id value)) as [Hp Hl].
  unfold write_agent, validation. unfold mbind, M_bind, of_result.
  destruct (AgentConfigFile_validate value) as [[]|e] eqn:Ev; cbn [map_err]; cbv beta iota;
    [|by split].
  pose proof (atomic_pretty_json_effect _ tmp (agent_to_json value) _ s Hp Hne Hl) as Heff.
  destruct (atomic_pretty_json _ tmp (agent_to_json value) s) as [[[]|e] s'];
    destruct Heff as [Hold Hres]; (split; [done|]); [|done].
  destruct Hres as [Hnode Htmp]. split; [done|]. intros Hf.
  unfold load_agent, mbind, M_bind, io, M_map_err.
  rewrite (read_file_quiet _ _ (new_document (fs_uid s) (agent_to_json value)));
    [|done|by apply leads_to_plain|done].
  cbn [map_err n_data new_document json of_result]. rewrite Hjson. cbn.
  rewrite bool_decide_eq_true_2 by done. cbn. unfold validation, of_result, mbind, M_bind.
  by rewrite Ev.
Qed.

(** ** Removing personas *)
Lemma kept_load_persona store id : always nodes_kept (load_persona store id).
Proof.
  unfold load_persona, io, json, validation. always_steps; auto with buzz.
  all: apply (always_map_err nodes_kept); auto with buzz.
Qed.

Lemma bind_of_result {E A B} (r : result E A) (f : A → M Fs E B) s b s' :
  (of_result r ≫= f) s = (Ok b, s') → ∃ a, r = Ok a ∧ f a s = (Ok b, s').
Proof. destruct r; [by eauto|done]. Qed.

Lemma M_map_err_ok {E F A} (f : E → F) (m : M Fs E A) s a s' :
  M_map_err f m s = (Ok a, s') → m s = (Ok a, s').
Proof. unfold M_map_err. destruct (m s) as [[]]; cbn; [|done]. by intros [= <- <-]. Qed.

Lemma load_persona_ok store id s p s' :
  load_persona store id s = (Ok p, s') →
  PersonaDefinition_validate p = Ok tt ∧ pd_id p = id
  ∧ persona_path store id = Ok (join (personas_dir store) (document_name id)).
Proof.
  intros (path & Hpath & Hm)%bind_of_result. apply bind_ok in Hm as (found & s1 & _ & Hm).
  destruct found; [|done]. apply bind_ok in Hm as (bytes & s2 & _ & Hm).
  apply bind_ok in Hm as (value & s3 & _ & Hm). apply bind_of_result in Hm as ([] & Hv & Hm).
  destruct (PersonaDefinition_validate value) as [[]|] eqn:Ev; [|done].
  destruct (String.eqb_spec (pd_id value) id) as [<-|]; [|done]. injection Hm as <- _.
  unfold persona_path in *. destruct (str_is_empty _ || _); [done|]. done.
Qed.

(** The documents of the agents directory, as they are on disk. *)
Definition agent_document (store : AgentFileStore) (s : Fs) (q : Path) (v : AgentConfigFile) : Prop :=
  parent q = Some (agents_dir store) ∧ extension q = Some "json"
  ∧ ∃ n, fs_nodes s !! q ≠ None ∧ leads_to s q n ∧ agent_of_json (n_data n) = Some v.

Lemma kept_read_agent path : always nodes_kept (bytes ← io (read_file path); json (agent_of_json bytes)).
Proof.
  unfold io, json. always_steps. apply (always_map_err nodes_kept). auto with buzz.
Qed.

Lemma kept_ensure_persona_removable store id : always nodes_kept (ensure_persona_removable store id).
Proof.
  unfold ensure_persona_removable. apply (always_bind nodes_kept); [apply kept_load_persona|].
  intros persona. apply (always_bind nodes_kept);
    [apply (always_map_err nodes_kept); auto with buzz|]. intros entries.
  apply (always_bind nodes_kept); [apply (always_mapM' nodes_kept), kept_read_agent|]. intros values.
  cbv zeta. case_match; [apply (always_ret nodes_kept)|apply (always_throw nodes_kept)].
Qed.

Lemma ensure_persona_removable_ok store id s p s' :
  ensure_persona_removable store id s = (Ok p, s') →
  (∃ s1, load_persona store id s = (Ok p, s1))
  ∧ ∀ q v, agent_document store s q v → acf_persona_id v ≠ Some id.
Proof.
  intros (persona & s1 & Hp & Hm)%bind_ok. apply bind_ok in Hm as (entries & s2 & He & Hm).
  apply bind_ok in Hm as (values & s3 & Hv & Hm).
  pose proof (kept_load_persona store id s) as K1. rewrite Hp in K1. cbn in K1.
  apply M_map_err_ok in He. pose proof (kept_read_directory (agents_dir store) s1) as K2.
  rewrite He in K2. cbn in K2. apply read_directory_ok in He.
  apply mapM_kept in Hv as [K3 Hall]; [|apply kept_read_agent].
  destruct (map _ _) eqn:El; [|done]. injection Hm as <- _. split; [by eauto|].
  intros q v (Hpar & Hext & n & Hin & Hl & Hj) Hid.
  assert (q ∈ List.filter is_document entries) as Hq.
  { apply list_elem_of_In, filter_In. split.
    - apply list_elem_of_In. rewrite He, elem_of_children. split; [done|]. rewrite K1.
      by apply not_eq_None_Some.
    - unfold is_document. by apply bool_decide_eq_true_2. }
  destruct (Hall q Hq) as (y & t1 & t2 & Hy & Kt & Hr).
  apply bind_ok in Hr as (bytes & t3 & Hr & Hb). apply M_map_err_ok, read_file_ok in Hr as (n' & Hl' & <- & _).
  apply (leads_to_kept s t1) in Hl'; [|by etrans; [|etrans]].
  assert (n' = n) as -> by (unfold leads_to in *; congruence).
  unfold json in Hb. rewrite Hj in Hb. injection Hb as <- _.
  assert (AgentId_to_string (acf_id v)
          ∈ map (λ v, AgentId_to_string (acf_id v))
              (List.filter (λ v, bool_decide (acf_persona_id v = Some id)) values)) as Hcontra.
  { apply (list_elem_of_fmap_2' _ _ v); [|done]. apply list_elem_of_In, filter_In. split.
    - by apply list_elem_of_In.
    - by apply bool_decide_eq_true_2. }
  rewrite El in Hcontra. by apply not_elem_of_nil in Hcontra.
Qed.

(** A persona in use cannot be removed. If removal succeeds, every document of the
    agents directory was read, none names the persona, and exactly the persona's file is
    gone; otherwise no file is touched. In particular, while some agent document names the
    persona, removal fails and its file stays. *)
Theorem referenced_personas_are_kept store id s :
  let '(r, s') := remove_persona store id s in
  match r with
  | Ok persona =>
    pd_id persona = id ∧ PersonaDefinition_validate persona = Ok tt
    ∧ fs_nodes s' = delete (join (personas_dir store) (document_name id)) (fs_nodes s)
    ∧ ∀ q v, agent_document store s q v → acf_persona_id v ≠ Some id
  | Err _ => fs_nodes s' = fs_nodes s
  end.
Proof.
  unfold remove_persona. unfold mbind at 1, M_bind at 1.
  pose proof (kept_ensure_persona_removable store id s) as K1.
  destruct (ensure_persona_removable store id s) as [[persona|e] s1] eqn:E1; cbn [snd] in K1; [|done].
  apply ensure_persona_removable_ok in E1 as [[s2 Hp] Hall].
  apply load_persona_ok in Hp as (Hv & Hid & Hpath). rewrite Hpath.
  unfold mbind, M_bind, mret, M_ret, of_result, io, M_map_err.
  destruct (remove_file_effect (join (personas_dir store) (document_name id)) s1)
    as [(Hr & Hd & _)|[[e Hr] Hk]];
    destruct (remove_file _ s1) as [r s3]; cbn in Hr; subst r; cbn [map_err]; cbv beta iota.
  - cbn in Hd. rewrite Hd, K1. done.
  - cbn in Hk. by rewrite Hk, K1.
Qed.
End Properties.

(** Writing the sample agent into an empty tree, with a fault in the first write and then
    without. *)
#[local] Instance sample_json : DocumentJson := {|
  agent_to_json _ := "{}"; agent_of_json _ := Some sample_config_file;
  persona_to_json _ := "{}"; persona_of_json _ := None
|}.
Definition sample_store : AgentFileStore := mkAgentFileStore (mkPath true ["srv"]).
Definition sample_fs (faults : list (option (IoError * nat))) : Fs := mkFs ∅ faults 1000.

Lemma agent_files_are_written_atomically_witness :
  let broken := write_agent sample_store ".tmp1" sample_config_file
                  (sample_fs [None; None; Some (mkIoError OtherKind "disk full", 1%nat)]) in
  let good := write_agent sample_store ".tmp1" sample_config_file (sample_fs []) in
  broken.1 = Err (FileIo (mkIoError OtherKind "disk full"))
  ∧ fs_nodes broken.2 !! agent_path sample_store (acf_id sample_config_file) = None
  ∧ good.1 = Ok tt
  ∧ load_agent sample_store (acf_id sample_config_file) good.2 = (Ok sample_config_file, good.2).
Proof.
  assert (∀ faults,
    let '(r, s') := write_agent sample_store ".tmp1" sample_config_file (sample_fs faults) in
    match r with
    | Ok _ => fs_faults s' = [] →
      load_agent sample_store (acf_id sample_config_file) s' = (Ok sample_config_file, s')
    | Err _ => fs_nodes s' !! agent_path sample_store (acf_id sample_config_file) = None
    end) as Hw.
  { intros faults.
    pose proof (agent_files_are_written_atomically sample_store ".tmp1" sample_config_file
                  (sample_fs faults) eq_refl) as Ht.
    destruct (write_agent _ _ _ _) as [[[]|e] s']; apply Ht; vm_compute; discriminate. }
  intros broken good.
  pose proof (Hw [None; None; Some (mkIoError OtherKind "disk full", 1%nat)]) as H1. fold broken in H1.
  pose proof (Hw []) as H2. fold good in H2.
  assert (broken.1 = Err (FileIo (mkIoError OtherKind "disk full"))) as B1 by (vm_compute; reflexivity).
  assert (good.1 = Ok tt ∧ fs_faults good.2 = []) as [B2 F2] by (vm_compute; split; reflexivity).
  clearbody broken good. destruct broken as [r1 s1], good as [r2 s2]. cbn [fst snd] in *. subst r1 r2.
  split_and!; [reflexivity|exact H1|reflexivity|exact (H2 F2)].
Defined.
