(* ===== verification/Custody.v ===== *)
(** * Key custody (custody.rs)
    Owner-only files that hold one secret per agent: provisioning, loading and purging over
    the file system of [Fs]. Keys are an interface. The theorems show that a stored secret
    is never replaced, and that what is provisioned is what is loaded. *)
From Stdlib Require Import ZArith Lia String Ascii.
From stdpp Require Import base gmap list strings.
From S2P Require Import Prelude RustStr Ids Lifecycle Agent Bytes LogCapture Monad Fs AgentFiles.
#[local] Open Scope Z_scope.

Definition SECRET_HEX_BYTES : Z := 64.

Record CustodiedIdentity : Type := mkCustodied { ci_agent_id : AgentId; ci_public_key : string }.

Inductive CustodyError : Type :=
| CustodyIo (e : IoError)
| UnsafeRoot
| WrongOwner
| UnsafeSecret
| InvalidSecret.

Record FilesystemAgentIdentityCustody : Type := mkCustody {
  fc_root : Path; fc_expected_owner_uid : Z
}.

(** [nostr::Keys]: a secret and the public key of it. *)
Class SecretKeys : Type := {
  SecretKey : Type;
  Keys_parse : string → option SecretKey;
  to_secret_hex : SecretKey → string;
  public_key_hex : SecretKey → string
}.
Section Custody.
Context `{UuidLib} `{SecretKeys}.

Definition CustodyM (A : Type) : Type := M Fs CustodyError A.
Definition cio {A} (m : IO A) : CustodyM A := M_map_err CustodyIo m.

Definition prepare_root (self : FilesystemAgentIdentityCustody) : CustodyM unit :=
  _ ← cio (create_dir_all (fc_root self));
  metadata ← cio (symlink_metadata (fc_root self));
  if negb (is_kind Directory metadata) || is_symlink metadata then throw UnsafeRoot
  else if negb (n_uid metadata =? fc_expected_owner_uid self) then throw WrongOwner
  else cio (set_permissions (fc_root self) 448 (* 0o700 *)).

Definition secret_path (self : FilesystemAgentIdentityCustody) (agent_id : AgentId) : Path :=
  join (fc_root self) (String.append (AgentId_to_string agent_id) ".secret").

(** [take(65).read_to_string(..)]. *)
Definition read_secret_text (path : Path) : IO string :=
  data ← read_file path;
  let text := String.substring 0 65 data in
  if is_utf8 text then mret text
  else throw (mkIoError InvalidData "stream did not contain valid UTF-8").

Definition read_keys (self : FilesystemAgentIdentityCustody) (path : Path) : CustodyM SecretKey :=
  metadata ← cio (symlink_metadata path);
  if negb (is_kind RegularFile metadata) || is_symlink metadata
     || negb (n_uid metadata =? fc_expected_owner_uid self)
     || negb (Z.land (n_mode metadata) 63 (* 0o077 *) =? 0)
  then throw UnsafeSecret
  else
    secret ← cio (read_secret_text path);
    if negb (len secret =? SECRET_HEX_BYTES) || negb (all_bytes is_ascii_hexdigit secret)
    then throw InvalidSecret
    else of_result (ok_or InvalidSecret (Keys_parse secret)).

(** The new secret is complete and durable before it gets its name, and the name is given
    only if it is free. *)
Definition link_secret (temporary path : Path) : CustodyM unit := λ s,
  match hard_link temporary path s with
  | (Ok tt, s) => (Ok tt, s)
  | (Err error, s) =>
    if kind_is AlreadyExists error then (Ok tt, s)
    else (Err (CustodyIo error), (remove_file temporary s).2)
  end.

(** [keys]: what [Keys::generate] draws; [unique]: the fresh part of the temporary name. *)
Definition store_secret (self : FilesystemAgentIdentityCustody) (agent_id : AgentId)
    (keys : SecretKey) (unique : string) : CustodyM SecretKey :=
  let path := secret_path self agent_id in
  let temporary := join (fc_root self)
        (String.append "." (String.append (AgentId_to_string agent_id)
           (String.append "." (String.append unique ".tmp")))) in
  _ ← cio (create_new temporary 384 (* 0o600 *));
  _ ← cio (write_all temporary (to_secret_hex keys));
  _ ← cio (sync_all temporary);
  _ ← link_secret temporary path;
  _ ← cio (remove_file temporary);
  read_keys self path.

Definition read_or_store (self : FilesystemAgentIdentityCustody) (agent_id : AgentId)
    (keys : SecretKey) (unique : string) : CustodyM SecretKey := λ s,
  match read_keys self (secret_path self agent_id) s with
  | (Ok keys, s) => (Ok keys, s)
  | (Err (CustodyIo error), s) =>
    if kind_is NotFound error then store_secret self agent_id keys unique s
    else (Err (CustodyIo error), s)
  | (Err error, s) => (Err error, s)
  end.
Definition provision (self : FilesystemAgentIdentityCustody) (agent_id : AgentId)
    (keys : SecretKey) (unique : string) : CustodyM CustodiedIdentity :=
  _ ← prepare_root self;
  keys ← read_or_store self agent_id keys unique;
  mret (mkCustodied agent_id (public_key_hex keys)).

Definition load (self : FilesystemAgentIdentityCustody) (agent_id : AgentId) : CustodyM SecretKey :=
  _ ← prepare_root self;
  read_keys self (secret_path self agent_id).

Definition remove_secret (path : Path) : CustodyM unit := λ s,
  match remove_file path s with
  | (Ok tt, s) => (Ok tt, s)
  | (Err error, s) => if kind_is NotFound error then (Ok tt, s) else (Err (CustodyIo error), s)
  end.
Definition purge (self : FilesystemAgentIdentityCustody) (agent_id : AgentId) : CustodyM unit :=
  _ ← prepare_root self;
  remove_secret (secret_path self agent_id).

(** ** What is at the path of a secret *)
(** The entry at [p] is left alone. *)
Definition entry_kept (p : Path) (s s' : Fs) : Prop := fs_nodes s' !! p = fs_nodes s !! p.
#[local] Instance entry_kept_preorder p : PreOrder (entry_kept p).
Proof. split; [done|]. intros a b c. unfold entry_kept. congruence. Qed.
(** If there is an entry, it is left alone. *)
Definition entry_stays (p : Path) (s s' : Fs) : Prop :=
  is_Some (fs_nodes s !! p) → fs_nodes s' !! p = fs_nodes s !! p.
#[local] Instance entry_stays_preorder p : PreOrder (entry_stays p).
Proof.
  split; [done|]. intros a b c Hab Hbc Ha. rewrite Hbc; [by apply Hab|]. by rewrite Hab.
Qed.
Lemma kept_stays p s s' : entry_kept p s s' → entry_stays p s s'.
Proof. by intros H1 _. Qed.
Lemma nodes_entry p s s' : nodes_kept s s' → entry_kept p s s'.
Proof. unfold nodes_kept, entry_kept. by intros ->. Qed.
Lemma only_at_entry p q s s' : q ≠ p → only_at q s s' → entry_kept p s s'.
Proof. intros Hne Ho. apply Ho. done. Qed.

Lemma always_weaken {E A} (R S : Fs → Fs → Prop) (m : M Fs E A) :
  (∀ s s', R s s' → S s s') → always R m → always S m.
Proof. intros HRS Hm s. by apply HRS. Qed.

Lemma secret_path_depth self id :
  (List.length (p_components (fc_root self)) < List.length (p_components (secret_path self id)))%nat
  ∧ fc_root self ≠ secret_path self id.
Proof.
  split; [cbn; rewrite length_app; cbn; lia|]. intros Heq. symmetry in Heq. by apply join_neq in Heq.
Qed.

(** Securing the root changes the root only: it was checked not to be a link. *)
Lemma only_at_secure_root self : always (only_at (fc_root self))
  (metadata ← cio (symlink_metadata (fc_root self));
   if negb (is_kind Directory metadata) || is_symlink metadata then throw UnsafeRoot
   else if negb (n_uid metadata =? fc_expected_owner_uid self) then throw WrongOwner
   else cio (set_permissions (fc_root self) 448)).
Proof.
  intros s. unfold mbind, M_bind, cio, M_map_err. pose proof (kept_symlink_metadata (fc_root self) s) as Hk.
  destruct (symlink_metadata (fc_root self) s) as [[n|e] s1] eqn:E; cbn in Hk; [|by apply kept_only_at].
  apply symlink_metadata_ok in E. etrans; [by apply kept_only_at|]. cbn [map_err].
  destruct (negb _ || _) eqn:Ec; [reflexivity|]. apply orb_false_iff in Ec as [_ Hl].
  destruct (negb _); [reflexivity|].
  pose proof (only_at_change_target (with_mode 448) (fc_root self) s1) as Ho.
  unfold set_permissions. destruct (change_target _ _ s1). apply Ho. intros m Hm. congruence.
Qed.
Lemma prepare_root_entry self id : always (entry_kept (secret_path self id)) (prepare_root self).
Proof.
  destruct (secret_path_depth self id) as [Hd Hne]. set (p := secret_path self id) in *.
  unfold prepare_root, cio. apply (always_bind (entry_kept p)).
  { apply (always_map_err (entry_kept p)). eapply always_weaken; [|apply create_dir_all_grow].
    intros s s' Hg. unfold entry_kept. destruct (Hg p) as [->|(_ & Hl & _)]; [done|lia]. }
  intros _ s. apply (only_at_entry p (fc_root self)); [done|]. apply only_at_secure_root.
Qed.

(** A file that may hold a secret, and the key in it. *)
Definition holds_key (self : FilesystemAgentIdentityCustody) (p : Path) (s : Fs) (k : SecretKey) : Prop :=
  ∃ n, fs_nodes s !! p = Some n ∧ n_kind n = RegularFile ∧ n_uid n = fc_expected_owner_uid self
       ∧ Z.land (n_mode n) 63 = 0 ∧ Keys_parse (String.substring 0 65 (n_data n)) = Some k.

Lemma kept_read_keys self p : always nodes_kept (read_keys self p).
Proof.
  unfold read_keys, cio, read_secret_text. always_steps.
  - apply (always_map_err nodes_kept). auto with buzz.
  - apply (always_map_err nodes_kept). always_steps. auto with buzz.
Qed.

Lemma read_keys_ok self p s k s' :
  read_keys self p s = (Ok k, s') → nodes_kept s s' ∧ holds_key self p s k.
Proof.
  intros Hr. pose proof (kept_read_keys self p s) as Hk. rewrite Hr in Hk. cbn in Hk.
  split; [done|]. apply bind_ok in Hr as (n & s1 & Hm & Hr). apply M_map_err_ok in Hm.
  pose proof (kept_symlink_metadata p s) as K1. rewrite Hm in K1. cbn in K1.
  apply symlink_metadata_ok in Hm. unfold nodes_kept in K1. rewrite K1 in Hm.
  destruct (_ || _) eqn:Ec; [done|]. rewrite !orb_false_iff, !negb_false_iff in Ec.
  destruct Ec as [[[Hkind Hsym] Huid] Hmode].
  apply bool_decide_eq_true in Hkind. apply Z.eqb_eq in Huid, Hmode.
  apply bind_ok in Hr as (secret & s2 & Hs & Hr). apply M_map_err_ok in Hs.
  apply bind_ok in Hs as (data & s3 & Hf & Hs).
  apply read_file_ok in Hf as (n' & Hl & <- & _).
  assert (leads_to s1 p n) as Hl' by (apply leads_to_plain; [by rewrite K1|done]).
  assert (n' = n) as -> by (unfold leads_to in *; congruence).
  cbv zeta in Hs. destruct (is_utf8 _); [|done]. injection Hs as <- _.
  destruct (_ || _); [done|]. destruct (Keys_parse _) as [k'|] eqn:Ek; [|done].
  injection Hr as -> _. exists n. done.
Qed.

Lemma holds_key_det self p s t k k' :
  fs_nodes t !! p = fs_nodes s !! p → holds_key self p s k → holds_key self p t k' → k' = k.
Proof.
  intros Heq (n & Hn & _ & _ & _ & Hk) (n' & Hn' & _ & _ & _ & Hk'). rewrite Heq in Hn'. congruence.
Qed.

Lemma insert_absent_stays p n : always (entry_stays p) (insert_absent p n).
Proof.
  intros s. unfold insert_absent. destruct (fs_nodes s !! p) eqn:E; [done|].
  intros Hs. cbn. by rewrite E in Hs.
Qed.
Lemma hard_link_stays from to : always (entry_stays to) (hard_link from to).
Proof.
  apply always_atomic_call.
  - intros s s' Hk. apply kept_stays, nodes_entry. done.
  - intros s s' s'' Hk Hs. etrans; [|done]. by apply kept_stays, nodes_entry.
  - apply (always_bind (entry_stays to)).
    + eapply always_weaken; [|apply kept_node_at]. intros ?? Hk. by apply kept_stays, nodes_entry.
    + intros n. apply insert_absent_stays.
Qed.

Lemma temporary_neq self id unique :
  join (fc_root self) (String.append "." (String.append (AgentId_to_string id)
     (String.append "." (String.append unique ".tmp")))) ≠ secret_path self id.
Proof. intros Heq%join_inj. cbn in Heq. unfold typed_id_display in Heq. cbn in Heq. done. Qed.

Lemma link_secret_stays tmp path : tmp ≠ path → always (entry_stays path) (link_secret tmp path).
Proof.
  intros Hne s. unfold link_secret. pose proof (hard_link_stays tmp path s) as Hs.
  destruct (hard_link tmp path s) as [[[]|e] s1]; cbn in *; [done|].
  destruct (kind_is AlreadyExists e); [done|]. cbn. etrans; [done|].
  apply kept_stays, (only_at_entry path tmp); [done|]. apply only_at_remove_file.
Qed.

Lemma store_secret_stays self id keys unique :
  always (entry_stays (secret_path self id)) (store_secret self id keys unique).
Proof.
  unfold store_secret, cio. pose proof (temporary_neq self id unique) as Hne.
  set (t := join (fc_root self) _) in *. set (p := secret_path self id) in *. cbv zeta.
  assert (∀ {A} (m : IO A), always (only_at t) m → always (entry_stays p) (M_map_err CustodyIo m)) as Hat.
  { intros A m Hm. apply (always_map_err (entry_stays p)). eapply always_weaken; [|exact Hm].
    intros ?? Ho. by apply kept_stays, (only_at_entry p t). }
  apply (always_bind (entry_stays p)); [apply Hat, only_at_create_new|intros []].
  apply (always_bind (entry_stays p)); [apply Hat, only_at_write_all|intros []].
  apply (always_bind (entry_stays p)).
  { apply Hat. eapply always_weaken; [|apply kept_sync_all]. intros ??. apply kept_only_at. }
  intros []. apply (always_bind (entry_stays p)); [by apply link_secret_stays|intros []].
  apply (always_bind (entry_stays p)); [apply Hat, only_at_remove_file|intros []].
  eapply always_weaken; [|apply kept_read_keys]. intros ?? Hk. by apply kept_stays, nodes_entry.
Qed.

Lemma read_or_store_entry self id keys unique s :
  let '(r, s') := read_or_store self id keys unique s in
  entry_stays (secret_path self id) s s'
  ∧ ∀ k, r = Ok k → holds_key self (secret_path self id) s' k.
Proof.
  unfold read_or_store. pose proof (kept_read_keys self (secret_path self id) s) as K1.
  destruct (read_keys self (secret_path self id) s) as [[k|e] s1] eqn:E1; cbn in K1.
  - split; [by apply kept_stays, nodes_entry|]. intros k' [= <-].
    apply read_keys_ok in E1 as [Hk (n & Hn & Hrest)]. exists n. split; [|done]. by rewrite Hk.
  - assert (entry_stays (secret_path self id) s s1) as Hs by (by apply kept_stays, nodes_entry).
    destruct e as [e| | | |]; [|done..]. destruct (kind_is NotFound e); [|done].
    pose proof (store_secret_stays self id keys unique s1) as Hst.
    destruct (store_secret self id keys unique s1) as [r s2] eqn:E2; cbn in Hst.
    split; [by etrans|]. intros k ->.
    do 5 (apply bind_ok in E2 as (? & ? & _ & E2)).
    apply read_keys_ok in E2 as [Hk (n & Hn & Hrest)]. exists n. split; [|done]. by rewrite Hk.
Qed.

Lemma provision_entry self id keys unique s :
  let '(r, s') := provision self id keys unique s in
  entry_stays (secret_path self id) s s'
  ∧ ∀ ident, r = Ok ident → ∃ k, holds_key self (secret_path self id) s' k
      ∧ ident = mkCustodied id (public_key_hex k).
Proof.
  unfold provision, mbind, M_bind. pose proof (prepare_root_entry self id s) as Hp.
  destruct (prepare_root self s) as [[[]|e] s1]; cbn in Hp; [|by split; [apply kept_stays|]].
  pose proof (read_or_store_entry self id keys unique s1) as Hr.
  destruct (read_or_store self id keys unique s1) as [[k|e] s2]; destruct Hr as [Hs Hk].
  - split; [etrans; [by apply kept_stays|done]|]. intros ident [= <-]. exists k. auto.
  - split; [etrans; [by apply kept_stays|done]|done].
Qed.

(** C15: the identity of an agent is stable. Whatever fails, provisioning never replaces or
    removes a stored secret. When it succeeds, the secret is in a regular file of the
    expected owner that nobody else can access, and as long as that file stays every later
    load and every later provisioning that succeeds gives that same identity, even one
    that lost a race or was told by a fault that nothing was there. *)
Theorem custodied_identity_is_stable self id keys unique s :
  let path := secret_path self id in
  let '(r, s') := provision self id keys unique s in
  (∀ n, fs_nodes s !! path = Some n → fs_nodes s' !! path = Some n)
  ∧ ∀ ident, r = Ok ident →
    (∃ n, fs_nodes s' !! path = Some n ∧ n_kind n = RegularFile
          ∧ n_uid n = fc_expected_owner_uid self ∧ Z.land (n_mode n) 63 = 0)
    ∧ ∀ t, fs_nodes t !! path = fs_nodes s' !! path →
      (∀ key t', load self id t = (Ok key, t') → public_key_hex key = ci_public_key ident)
      ∧ (∀ keys2 unique2 ident2 t',
           provision self id keys2 unique2 t = (Ok ident2, t') → ident2 = ident).
Proof.
  intros path. pose proof (provision_entry self id keys unique s) as Hp.
  destruct (provision self id keys unique s) as [r s']. destruct Hp as [Hst Hr]. split.
  - intros n Hn. unfold entry_stays in Hst. fold path in Hst. rewrite Hst; [done|by eexists].
  - intros ident Hok. destruct (Hr ident Hok) as (k & Hk & ->). fold path in Hk. split.
    { destruct Hk as (n & Hn & H1 & H2 & H3 & _). eauto. }
    intros t Ht. split.
    + intros key t' Hl. apply bind_ok in Hl as ([] & t1 & Hp & Hl).
      pose proof (prepare_root_entry self id t) as He. rewrite Hp in He. cbn in He.
      apply read_keys_ok in Hl as [_ Hk']. cbn.
      rewrite (holds_key_det self path s' t1 k key); [done| |done|done].
      unfold entry_kept in He. fold path in He. congruence.
    + intros keys2 unique2 ident2 t' Hp2.
      pose proof (provision_entry self id keys2 unique2 t) as He. rewrite Hp2 in He.
      destruct He as [He Hi]. destruct (Hi ident2 eq_refl) as (k2 & Hk2 & ->).
      fold path in He, Hk2. do 2 f_equal. apply (holds_key_det self path s' t'); [|done..].
      rewrite He; [done|]. rewrite Ht. destruct Hk as (n & Hn & _). by eexists.
Qed.
End Custody.

(** In an empty tree, without faults, the key that was drawn is provisioned and loaded. *)
#[local] Instance text_keys : SecretKeys := {|
  SecretKey := string; Keys_parse s := Some s; to_secret_hex k := k; public_key_hex k := k
|}.
Example fresh_identity_is_the_drawn_key :
  let custody := mkCustody (mkPath true ["var"; "identities"]) 1000 in
  let '(r, s) := provision custody (mkAgentId 5) sample_pubkey "u1" (mkFs ∅ [] 1000) in
  r = Ok (mkCustodied (mkAgentId 5) sample_pubkey)
  ∧ (load custody (mkAgentId 5) s).1 = Ok sample_pubkey
  ∧ (provision custody (mkAgentId 5) "other" "u2" s).1 = r
  ∧ (load custody (mkAgentId 5) (purge custody (mkAgentId 5) s).2).1
    = Err (CustodyIo not_found).
Proof. vm_compute. split_and!; reflexivity. Qed.
