(* ===== verification/Transport.v ===== *)
(** * Lifecycle transport (transport.rs, and the accept loop of signer_ipc.rs)
    Frames on the Unix socket, one connection of it, the TLS route, and the loop that
    accepts connections. The request handler is any function on a world; base64 decoding,
    JSON encoding of responses and authentication of TLS requests are parameters. *)
From Stdlib Require Import ZArith Lia String Ascii.
From stdpp Require Import base gmap list strings.
From S2P Require Import Prelude RustStr Ids Lifecycle Agent LogCapture Bytes Sha256 Monad Fs Auth ApiTypes Api AgentFiles ProviderHost.
#[local] Open Scope Z_scope.

Definition MAX_LIFECYCLE_REQUEST_BYTES : Z := 1024 * 1024.
Definition MAX_LIFECYCLE_RESPONSE_BYTES : Z := 1024 * 1024.
Definition MAX_UNIX_CONNECTIONS : nat := 64.

Inductive TransportError : Type :=
| SocketMissingParent | InsecureParent | SocketPathOccupied
| RequestTooLarge | ResponseTooLarge
| TransportTask (message : string)
| IoTimeout
| TlsConfiguration (message : string)
| TransportAuthentication (e : AuthenticationError)
| TransportIo (e : IoError).

(** ** Frames *)
Definition early_eof : IoError := mkIoError UnexpectedEof "early eof".

(** [stream.read_exact(n)]: all of it, or an error. *)
Definition read_exact (n : nat) (stream : Reader) : result IoError (list Z * Reader) :=
  let? (bytes, stream) := read_fill n stream in
  if (List.length bytes <? n)%nat then Err early_eof else Ok (bytes, stream).

Definition read_frame (stream : Reader) : result TransportError (list Z * Reader) :=
  let? (header, stream) := map_err TransportIo (read_exact 4 stream) in
  let length := from_be_bytes header in
  ensure length <=? MAX_LIFECYCLE_REQUEST_BYTES else RequestTooLarge in
  map_err TransportIo (read_exact (Z.to_nat length) stream).

(** What is put on the wire. *)
Definition write_frame (response : list Z) : result TransportError (list Z) :=
  let length := Z.of_nat (List.length response) in
  ensure length <=? u32_max else ResponseTooLarge in
  Ok (to_be_bytes 4 length ++ response).

(** ** One Unix connection *)
Record HandlerResponse : Type := mkHandlerResponse { hr_status : Z; hr_body : list Z }.
Definition Handler (W : Type) : Type :=
  AuthenticatedPrincipal → list Z → W → HandlerResponse * W.

(** What the operating system contributes: the peer's credentials, the bytes, and whether
    each timed step ends in time and succeeds. *)
Record Connection : Type := mkConnection {
  cn_peer : result IoError UnixPeerCredentials;
  cn_stream : Reader;
  cn_read_timely : bool;
  cn_write : option (option IoError)  (** [None]: timed out; [Some None]: written *)
}.

Section Server.
Context {W : Type} (handler : Handler W) (to_vec : LifecycleWireResponse → option (list Z)).

Definition unauthorized_response : LifecycleWireResponse :=
  WireError (mkApiError Unauthorized "principal is not authorized" None).

(** [write_frame] and [shutdown]: what the client gets. The refusal is sent without a
    timeout of its own; that its write ends late is then the system's error. *)
Definition send (timed : bool) (connection : Connection) (body : list Z)
  : result TransportError (list Z) :=
  let? frame := write_frame body in
  match cn_write connection with
  | Some None => Ok frame
  | Some (Some e) => Err (TransportIo e)
  | None => if timed then Err IoTimeout else Err (TransportIo (mkIoError TimedOut ""))
  end.

Definition serve_unix_connection (authority : UnixAuthorityPolicy) (connection : Connection) (w : W)
  : result TransportError (list Z) * W :=
  match cn_peer connection with
  | Err e => (Err (TransportIo e), w)
  | Ok credentials =>
    match (if cn_read_timely connection then read_frame (cn_stream connection) else Err IoTimeout) with
    | Err e => (Err e, w)
    | Ok (request, _) =>
      match UnixAuthorityPolicy_authenticate authority credentials with
      | Err _ =>
        match to_vec unauthorized_response with
        | None => (Err (TransportTask "serialization"), w)
        | Some body => (send false connection body, w)
        end
      | Ok actor =>
        let '(response, w) := handler actor request w in
        if MAX_LIFECYCLE_RESPONSE_BYTES <? Z.of_nat (List.length (hr_body response))
        then (Err ResponseTooLarge, w)
        else (send true connection (hr_body response), w)
      end
    end
  end.

(** ** The TLS route *)
Record TlsRequest : Type := mkTlsRequest {
  tr_method : string; tr_uri : string; tr_authorization : option string; tr_body : list Z
}.
Definition text_response (status : Z) (text : string) : Z * list Z :=
  (status, bytes_of text).

(** [origin.trim_end_matches('/')] *)
Definition canonical_origin (origin : string) : string :=
  trim_end_slash origin.

Definition payload_hash (body : list Z) : option string :=
  match body with [] => None | _ :: _ => Some (hex_digest (sha256 body)) end.

(** [authenticate]: the NIP-98 authenticator with its replay store in the world, at the
    clock of the request; [panics]: the handler's task was lost. *)
Definition tls_route (base64_decode : string → option (list Z))
    (authenticate : string → string → string → option string → W →
                    result AuthenticationError AuthenticatedPrincipal * W)
    (origin : string) (panics : bool) (request : TlsRequest) (w : W) : (Z * list Z) * W :=
  match tr_authorization request with
  | None => (text_response 401 "missing NIP-98 authorization", w)
  | Some header =>
    match strip_prefix "Nostr " header with
    | None => (text_response 401 "invalid NIP-98 authorization", w)
    | Some encoded_event =>
      match base64_decode encoded_event with
      | None => (text_response 401 "invalid NIP-98 authorization", w)
      | Some event =>
        let event_json := bytes_text event in
        if negb (is_utf8 event_json)
        then (text_response 401 "invalid NIP-98 authorization", w)
        else
          match authenticate event_json (tr_method request)
                  (String.append (canonical_origin origin) (tr_uri request))
                  (payload_hash (tr_body request)) w with
          | (Err UnknownPrincipal, w) => (text_response 403 "principal is not authorized", w)
          | (Err _, w) => (text_response 401 "invalid NIP-98 authorization", w)
          | (Ok actor, w) =>
            let '(response, w) := handler actor (tr_body request) w in
            if panics then (text_response 500 "request handler failed", w)
            else if MAX_LIFECYCLE_RESPONSE_BYTES <? Z.of_nat (List.length (hr_body response))
            then (text_response 500 "response exceeds limit", w)
            else ((if (100 <=? hr_status response) && (hr_status response <=? 999)
                   then hr_status response else 500, hr_body response), w)
          end
      end
    end
  end.
End Server.

(** [LifecycleJsonRouter::handle]: the handler the daemon installs. *)
Fixpoint double_quoted (s : string) : string :=
  match s with
  | EmptyString => EmptyString
  | String c s => String (if Ascii.eqb c "'" then bt 34 else c) (double_quoted s)
  end.
Definition SERIALIZATION_FAILED : string :=
  double_quoted "{'status':'error','value':{'code':'internal','message':'response serialization failed'}}".
Definition json_router {W} `{LifecycleApplication W} (decode : string → option LifecycleRouteRequest)
    (to_vec : LifecycleWireResponse → option (list Z)) (fresh : CommunityConfigId) : Handler W :=
  λ actor bytes w,
  let '(status, response, w) := handle decode fresh actor (bytes_text bytes) w in
  (mkHandlerResponse status (default (text_response 500 SERIALIZATION_FAILED).2 (to_vec response)), w).

Definition prepare_socket : Path → M Fs TransportError unit :=
  prepare_socket_at 18 (* 0o022 *) SocketMissingParent InsecureParent SocketPathOccupied TransportIo.

(** ** Accepting connections: the [select!] loop of both socket servers *)
Inductive LoopEvent : Type :=
| ShutdownChanged (stop : bool)  (** the sender is gone, or the flag is set *)
| Accepted (result : option IoError)
| Completed (panic : option string).

Inductive LoopState : Type :=
| Serving (connections : nat)
| LoopEnded (result : option TransportError).

(** A branch is polled only under its guard. *)
Definition loop_enabled (limit : nat) (e : LoopEvent) (connections : nat) : bool :=
  match e with
  | ShutdownChanged _ => true
  | Accepted _ => (connections <? limit)%nat
  | Completed _ => (0 <? connections)%nat
  end.
Definition loop_step (limit : nat) (s : LoopState) (e : LoopEvent) : LoopState :=
  match s with
  | LoopEnded _ => s
  | Serving connections =>
    if negb (loop_enabled limit e connections) then s
    else
      match e with
      | ShutdownChanged stop => if stop then LoopEnded None else s
      | Accepted (Some e) => LoopEnded (Some (TransportIo e))
      | Accepted None => Serving (S connections)
      | Completed (Some message) => LoopEnded (Some (TransportTask message))
      | Completed None => Serving (connections - 1)
      end
  end.
Definition accept_loop (limit : nat) (events : list LoopEvent) : LoopState :=
  fold_left (loop_step limit) events (Serving 0).

(** ** Lemmas *)
Lemma read_exact_delivers n s m :
  delivers s m →
  if (n <=? List.length m)%nat
  then ∃ s', read_exact n s = Ok (take n m, s') ∧ delivers s' (drop n m)
  else read_exact n s = Err early_eof.
Proof.
  intros Hd. unfold read_exact. destruct (read_fill_delivers n s m Hd) as (s' & -> & Hd').
  rewrite length_take. destruct (Nat.leb_spec n (List.length m)).
  - rewrite (proj2 (Nat.ltb_ge _ _)) by lia. by exists s'.
  - by rewrite (proj2 (Nat.ltb_lt _ _)) by lia.
Qed.

(** What a stream must start with to be a request. *)
Definition framed (payload m : list Z) : Prop :=
  Z.of_nat (List.length payload) ≤ MAX_LIFECYCLE_REQUEST_BYTES
  ∧ ∃ more, m = to_be_bytes 4 (Z.of_nat (List.length payload)) ++ payload ++ more.

Lemma read_frame_complete s m payload :
  delivers s m → framed payload m → ∃ s', read_frame s = Ok (payload, s').
Proof.
  intros Hd [Hmax [more Hm]]. unfold read_frame.
  pose proof (read_exact_delivers 4 s m Hd) as H4.
  assert (4 ≤ List.length m)%nat as Hl by (rewrite Hm, length_app, length_to_be_bytes; lia).
  rewrite (proj2 (Nat.leb_le _ _)) in H4 by done. destruct H4 as (s1 & -> & Hd1). cbn [map_err].
  assert (take 4 m = to_be_bytes 4 (Z.of_nat (List.length payload))) as ->
    by (rewrite Hm; apply take_app_length'; by rewrite length_to_be_bytes).
  assert (drop 4 m = payload ++ more) as Hdrop
    by (rewrite Hm; apply drop_app_length'; by rewrite length_to_be_bytes).
  rewrite Hdrop in Hd1. unfold MAX_LIFECYCLE_REQUEST_BYTES in *.
  rewrite from_to_be_bytes_small by (cbn; lia).
  rewrite (proj2 (Z.leb_le _ _)) by done. rewrite Nat2Z.id.
  pose proof (read_exact_delivers (List.length payload) s1 _ Hd1) as Hp.
  rewrite length_app, (proj2 (Nat.leb_le _ _)) in Hp by lia. destruct Hp as (s2 & -> & _).
  rewrite take_app_length. cbn. by eexists.
Qed.

Lemma read_frame_sound s m payload s' :
  bytes_ok m → delivers s m → read_frame s = Ok (payload, s') → framed payload m.
Proof.
  intros Hb Hd. unfold read_frame. pose proof (read_exact_delivers 4 s m Hd) as H4.
  destruct (Nat.leb_spec 4 (List.length m)) as [Hl|Hl]; [|by rewrite H4].
  destruct H4 as (s1 & -> & Hd1). cbn [map_err].
  assert (bytes_ok (take 4 m)) as Ht by by apply Forall_take.
  pose proof (from_be_bytes_bound _ Ht) as Hbound. set (n := from_be_bytes (take 4 m)) in *.
  destruct (Z.leb_spec n MAX_LIFECYCLE_REQUEST_BYTES) as [Hmax|]; [|done].
  pose proof (read_exact_delivers (Z.to_nat n) s1 _ Hd1) as Hp.
  destruct (Nat.leb_spec (Z.to_nat n) (List.length (drop 4 m))) as [Hn|Hn]; [|by rewrite Hp].
  destruct Hp as (s2 & -> & _). cbn. intros [= <- _].
  assert (Z.of_nat (List.length (take (Z.to_nat n) (drop 4 m))) = n) as Hlen
    by (rewrite length_take; lia).
  unfold framed. rewrite Hlen. split; [done|]. exists (drop (Z.to_nat n) (drop 4 m)).
  rewrite take_drop. rewrite <- (take_drop 4 m) at 1. f_equal.
  apply from_be_bytes_inj; [done|apply to_be_bytes_ok| |].
  - rewrite length_take, length_to_be_bytes. lia.
  - fold n. rewrite length_take in Hbound. rewrite from_to_be_bytes_small; [done|].
    replace (4 `min` List.length m)%nat with 4%nat in Hbound by lia. cbn in *. lia.
Qed.

(** The client reads the body back. *)
Lemma write_frame_reads_back body frame :
  Z.of_nat (List.length body) ≤ MAX_LIFECYCLE_RESPONSE_BYTES → write_frame body = Ok frame →
  ∃ s', read_frame [Ok frame] = Ok (body, s').
Proof.
  intros Hmax. unfold write_frame. destruct (_ <=? u32_max); [|done]. intros [= <-].
  apply (read_frame_complete _ (to_be_bytes 4 (Z.of_nat (List.length body)) ++ body)).
  - rewrite <- (app_nil_r (_ ++ body)). constructor; [|constructor; by left]. done.
  - split; [done|]. exists []. by rewrite app_nil_r.
Qed.

Lemma write_frame_small body :
  Z.of_nat (List.length body) ≤ MAX_LIFECYCLE_RESPONSE_BYTES → ∃ frame, write_frame body = Ok frame.
Proof.
  intros Hmax. unfold write_frame, MAX_LIFECYCLE_RESPONSE_BYTES, u32_max in *.
  rewrite (proj2 (Z.leb_le _ _)) by lia. by eexists.
Qed.

Section Properties.
Context {W : Type} (handler : Handler W) (to_vec : LifecycleWireResponse → option (list Z)).

Lemma serve_unix_world authority c w :
  let '(r, w') := serve_unix_connection handler to_vec authority c w in
  w' = w ∨ ∃ credentials actor payload rest,
    cn_peer c = Ok credentials ∧ UnixAuthorityPolicy_authenticate authority credentials = Ok actor
    ∧ read_frame (cn_stream c) = Ok (payload, rest) ∧ w' = (handler actor payload w).2.
Proof.
  unfold serve_unix_connection. destruct (cn_peer c) as [credentials|]; [|by left].
  destruct (cn_read_timely c); [|by left].
  destruct (read_frame (cn_stream c)) as [[payload rest]|]; [|by left].
  destruct (UnixAuthorityPolicy_authenticate authority credentials) as [actor|] eqn:Ea.
  - destruct (handler actor payload w) as [response w'] eqn:Eh.
    destruct (_ <? _); right; exists credentials, actor, payload, rest; by rewrite Eh.
  - destruct (to_vec _); by left.
Qed.

(** C29: one connection to the lifecycle socket. However its bytes are cut, a connection
    reaches the handler at most once, only for a known peer, and only with the payload of
    a complete frame within the limit that the stream starts with; anything else leaves
    the world alone, and an incomplete or oversize frame is an error. A known peer whose
    frame is complete gets the handler's body in a frame that reads back to it; an unknown
    one gets the refusal, after its request was consumed. *)
Theorem unix_connection_is_exact authority credentials stream m w :
  bytes_ok m → delivers stream m →
  let c := mkConnection (Ok credentials) stream true (Some None) in
  let '(r, w') := serve_unix_connection handler to_vec authority c w in
  (∀ payload, framed payload m →
     match UnixAuthorityPolicy_authenticate authority credentials with
     | Ok actor =>
       let '(response, w1) := handler actor payload w in
       w' = w1
       ∧ (Z.of_nat (List.length (hr_body response)) ≤ MAX_LIFECYCLE_RESPONSE_BYTES →
          ∃ frame rest, r = Ok frame ∧ read_frame [Ok frame] = Ok (hr_body response, rest))
     | Err _ =>
       w' = w
       ∧ ∀ body, to_vec unauthorized_response = Some body →
           Z.of_nat (List.length body) ≤ MAX_LIFECYCLE_RESPONSE_BYTES →
           ∃ frame rest, r = Ok frame ∧ read_frame [Ok frame] = Ok (body, rest)
     end)
  ∧ ((∀ payload, ¬ framed payload m) → w' = w ∧ ∃ e, r = Err e).
Proof.
  intros Hb Hd c. unfold serve_unix_connection. cbn [cn_peer cn_read_timely cn_stream c].
  destruct (read_frame stream) as [[payload rest]|e] eqn:Er.
  - assert (framed payload m) as Hf by (by eapply read_frame_sound).
    assert (∀ p, framed p m → p = payload) as Huniq.
    { intros p Hp. destruct (read_frame_complete stream m p Hd Hp) as [? Hp']. congruence. }
    destruct (UnixAuthorityPolicy_authenticate authority credentials) as [actor|].
    + destruct (handler actor payload w) as [response w1] eqn:Eh.
      destruct (Z.ltb_spec MAX_LIFECYCLE_RESPONSE_BYTES (Z.of_nat (List.length (hr_body response))));
        (split; [|intros Hno; by destruct (Hno payload)]); intros p ->%Huniq; rewrite Eh;
        (split; [done|]); intros Hle; [lia|].
      destruct (write_frame_small _ Hle) as [frame Hw].
      destruct (write_frame_reads_back _ _ Hle Hw) as [s' Hrb].
      exists frame, s'. unfold send. by rewrite Hw.
    + destruct (to_vec unauthorized_response) as [body|];
        (split; [|intros Hno; by destruct (Hno payload)]); intros p _; (split; [done|]); [|done].
      intros b [= <-] Hle. destruct (write_frame_small _ Hle) as [frame Hw].
      destruct (write_frame_reads_back _ _ Hle Hw) as [s' Hrb].
      exists frame, s'. unfold send. by rewrite Hw.
  - split; [|by eauto]. intros payload Hf.
    destruct (read_frame_complete stream m payload Hd Hf) as [? Hr]. congruence.
Qed.

(** C28: the TLS route lets nothing through without a proof for this very request. Unless
    the authorization header decodes to an event that the authenticator accepts for this
    method, this URL below the canonical origin, and the hash of this body, the answer is
    401 or 403 and the handler does not run; if it does, the handler runs once with the
    authenticated principal and the body, and its own status and body are answered unless
    they are out of range or too long. *)
Theorem tls_route_requires_a_proof base64_decode authenticate origin panics request w :
  let '(response, w') := tls_route handler base64_decode authenticate origin panics request w in
  let url := String.append (canonical_origin origin) (tr_uri request) in
  ((response.1 = 401 ∨ response.1 = 403)
   ∧ (w' = w ∨ ∃ event e, authenticate event (tr_method request) url
                            (payload_hash (tr_body request)) w = (Err e, w')))
  ∨ ∃ encoded event actor w1,
      tr_authorization request = Some (String.append "Nostr " encoded)
      ∧ base64_decode encoded = Some event ∧ is_utf8 (bytes_text event) = true
      ∧ authenticate (bytes_text event) (tr_method request) url
          (payload_hash (tr_body request)) w = (Ok actor, w1)
      ∧ w' = (handler actor (tr_body request) w1).2
      ∧ (response = ((handler actor (tr_body request) w1).1.(hr_status),
                     (handler actor (tr_body request) w1).1.(hr_body))
         ∨ response.1 = 500).
Proof.
  unfold tls_route. destruct (tr_authorization request) as [header|]; [|left; auto].
  destruct (strip_prefix "Nostr " header) as [encoded|] eqn:Es; [|left; auto].
  apply strip_prefix_Some in Es as ->.
  destruct (base64_decode encoded) as [event|] eqn:Eb; [|left; auto].
  destruct (is_utf8 (bytes_text event)) eqn:Eu; cbn [negb]; [|left; auto].
  destruct (authenticate _ _ _ _ w) as [[actor|e] w1] eqn:Ea.
  - destruct (handler actor (tr_body request) w1) as [response w2] eqn:Eh.
    destruct panics; [|destruct (_ <? _); [|destruct (_ && _)]];
      right; exists encoded, event, actor, w1; rewrite Eh; split_and!; auto.
  - destruct e; left; split; eauto.
Qed.
End Properties.

(** ** The accept loop *)
Lemma loop_step_bounded limit c e k :
  (c ≤ limit)%nat → loop_step limit (Serving c) e = Serving k → (k ≤ limit)%nat.
Proof.
  intros Hc. unfold loop_step, loop_enabled. destruct e as [stop|r|r].
  - destruct stop; cbn; [done|]. by intros [= <-].
  - destruct (Nat.ltb_spec c limit); cbn; [|by intros [= <-]].
    destruct r; [done|]. intros [= <-]. lia.
  - destruct (0 <? c)%nat; cbn [negb]; [|by intros [= <-]].
    destruct r; [done|]. intros [= <-]. lia.
Qed.
Lemma accept_loop_bounded limit events n :
  accept_loop limit events = Serving n → (n ≤ limit)%nat.
Proof.
  unfold accept_loop. assert (∀ s, (∀ k, s = Serving k → (k ≤ limit)%nat) →
    ∀ k, fold_left (loop_step limit) events s = Serving k → (k ≤ limit)%nat) as Hinv.
  { induction events as [|e events IH]; intros s Hs; cbn [fold_left]; [done|]. apply IH.
    destruct s as [c|]; [|done]. intros k. by apply loop_step_bounded, Hs. }
  apply Hinv. intros k [= <-]. lia.
Qed.
Lemma accept_loop_stops limit events :
  ShutdownChanged true ∈ events → ∃ r, accept_loop limit events = LoopEnded r.
Proof.
  unfold accept_loop. generalize (Serving 0) as s. induction events as [|e events IH]; intros s Hin.
  { by apply not_elem_of_nil in Hin. }
  cbn. apply elem_of_cons in Hin as [<-|Hin]; [|by apply IH].
  assert (∀ r l, fold_left (loop_step limit) l (LoopEnded r) = LoopEnded r) as Hend
    by (intros r l; by induction l).
  destruct s as [c|r]; cbn; rewrite Hend; by eexists.
Qed.

(** A handler that answers with the request and counts its calls, reached through three
    pieces. *)
Definition echo_handler : Handler nat := λ _ bytes n, (mkHandlerResponse 200 bytes, S n).

Lemma unix_connection_is_exact_witness :
  let c := mkConnection (Ok (mkUnixPeerCredentials 0 0 None))
             [Ok [0; 0]; Ok [0; 3; 97; 98]; Ok [99]] true (Some None) in
  ∃ frame rest,
    serve_unix_connection echo_handler (λ _, None) (mkUnixAuthorityPolicy [0] []) c 0%nat
    = (Ok frame, 1%nat)
    ∧ read_frame [Ok frame] = Ok ([97; 98; 99], rest).
Proof.
  intros c.
  assert (bytes_ok [0; 0; 0; 3; 97; 98; 99]) as Hb
    by (repeat constructor; unfold is_byte; lia).
  assert (delivers [Ok [0; 0]; Ok [0; 3; 97; 98]; Ok [99]] [0; 0; 0; 3; 97; 98; 99]) as Hd.
  { apply (delivers_piece [0; 0] _ [0; 3; 97; 98; 99]); [done|].
    apply (delivers_piece [0; 3; 97; 98] _ [99]); [done|].
    apply (delivers_piece [99] _ []); [done|]. constructor. by left. }
  pose proof (unix_connection_is_exact echo_handler (λ _, None) (mkUnixAuthorityPolicy [0] [])
                (mkUnixPeerCredentials 0 0 None) _ _ 0%nat Hb Hd) as Ht.
  cbv zeta in Ht. fold c in Ht.
  destruct (serve_unix_connection echo_handler _ _ c 0%nat) as [r w'].
  destruct Ht as [Ht _]. specialize (Ht [97; 98; 99]). cbn -[read_frame] in Ht.
  destruct Ht as [-> Hr].
  - split; [vm_compute; discriminate|]. by exists [].
  - destruct Hr as (frame & rest & -> & Hrb); [vm_compute; discriminate|]. by exists frame, rest.
Defined.
