(* ===== verification/Servers.v ===== *)
(** * The socket servers (signer_ipc.rs and transport.rs, [run])
    Both servers prepare the path, bind it, restrict or open its mode, accept connections
    until they are told to stop, and remove the socket when they return. *)
From Stdlib Require Import ZArith Lia String Ascii.
From stdpp Require Import base gmap list strings.
From S2P Require Import Prelude RustStr Bytes Monad Auth Fs Signer Transport.
#[local] Open Scope Z_scope.

Definition MAX_CONCURRENT_CONNECTIONS : nat := 32.

(** [UnixListener::bind]: a new socket, with the mode [0o777] less the umask. *)
Definition bind_socket (umask : Z) (path : Path) : IO unit :=
  atomic_call (λ s, insert_absent path (mkNode Socket (Z.ldiff 511 umask) (fs_uid s) "") s).

Section Run.
Variables (umask : Z) (path : Path) (events : list LoopEvent).

(** [None]: still accepting connections. *)
Definition signer_loop_result (r : option TransportError) : result SignerIpcError unit :=
  match r with
  | None => Ok tt
  | Some (TransportTask message) => Err (SignerTask message)
  | Some (TransportIo e) => Err (SignerIo e)
  | Some _ => Err (SignerTask "")
  end.
(** [SignerIpcServer::run] *)
Definition signer_server_run (s : Fs) : option (result SignerIpcError unit) * Fs :=
  match prepare_socket_path path s with
  | (Err e, s) => (Some (Err e), s)
  | (Ok _, s) =>
    match bind_socket umask path s with
    | (Err e, s) => (Some (Err (SignerIo e)), s)
    | (Ok _, s) =>
      match set_permissions path 384 (* 0o600 *) s with
      | (Err e, s) => (Some (Err (SignerIo e)), drop_socket_guard path s)
      | (Ok _, s) =>
        match accept_loop MAX_CONCURRENT_CONNECTIONS events with
        | Serving _ => (None, s)
        | LoopEnded r => (Some (signer_loop_result r), drop_socket_guard path s)
        end
      end
    end
  end.
(** [UnixLifecycleServer::run]: the guard is made after the mode is set. *)
Definition lifecycle_server_run (s : Fs) : option (result TransportError unit) * Fs :=
  match prepare_socket path s with
  | (Err e, s) => (Some (Err e), s)
  | (Ok _, s) =>
    match bind_socket umask path s with
    | (Err e, s) => (Some (Err (TransportIo e)), s)
    | (Ok _, s) =>
      match set_permissions path 438 (* 0o666 *) s with
      | (Err e, s) => (Some (Err (TransportIo e)), s)
      | (Ok _, s) =>
        match accept_loop MAX_UNIX_CONNECTIONS events with
        | Serving _ => (None, s)
        | LoopEnded r => (Some (match r with None => Ok tt | Some e => Err e end), drop_socket_guard path s)
        end
      end
    end
  end.
End Run.

(** ** Lemmas *)
(** Only the socket's path changes, and nothing but a socket is removed from it. *)
Definition socket_only (path : Path) (s s' : Fs) : Prop :=
  only_at path s s' ∧ ∀ n, fs_nodes s !! path = Some n → n_kind n ≠ Socket → fs_nodes s' !! path = Some n.
Lemma kept_socket_only path s s' : nodes_kept s s' → socket_only path s s'.
Proof. intros Hk. split; [by apply kept_only_at|]. unfold nodes_kept in Hk. by rewrite Hk. Qed.
Lemma socket_only_trans path s s1 s' : socket_only path s s1 → socket_only path s1 s' → socket_only path s s'.
Proof. intros [Ha Hb] [Hc Hd]. split; [intros q Hq; by rewrite Hc, Ha|auto]. Qed.

Lemma prepare_socket_only {E} mask (missing insecure occupied : E) io path s :
  socket_only path s (prepare_socket_at mask missing insecure occupied io path s).2.
Proof.
  pose proof (prepare_socket_at_safe mask missing insecure occupied io path s) as Hs.
  destruct (prepare_socket_at _ _ _ _ _ path s) as [r s']. cbn. destruct Hs as [[Hk|((n & Hn & Hk) & Hd)] _].
  - by apply kept_socket_only.
  - split; [intros q Hq; by rewrite Hd, lookup_delete_ne|]. intros m Hm. congruence.
Qed.

(** A socket at the path, whose removal leaves nothing there. *)
Definition bound (path : Path) (mode : Z) (s s' : Fs) : Prop :=
  fs_nodes s !! path = None
  ∧ fs_nodes s' = <[path := mkNode Socket mode (fs_uid s) ""]> (fs_nodes s) ∧ (fs_faults s = [] → fs_faults s' = []).
Lemma bind_socket_effect umask path s :
  match bind_socket umask path s with
  | (Ok _, s') => bound path (Z.ldiff 511 umask) s s'
  | (Err _, s') => nodes_kept s s'
  end.
Proof.
  unfold bind_socket, atomic_call, call, insert_absent.
  destruct (fs_faults s) as [|[[e k]|] rest] eqn:Ef; cbn; try done;
    destruct (fs_nodes s !! path) eqn:En; cbn; try done; unfold bound; rewrite Ef; by split_and!.
Qed.
Lemma chmod_socket path mode mode' s s1 :
  bound path mode s s1 →
  match set_permissions path mode' s1 with
  | (Ok _, s2) => bound path mode' s s2
  | (Err _, s2) => bound path mode s s2 ∧ fs_faults s ≠ []
  end.
Proof.
  intros (Hn & H1 & Hf). assert (fs_nodes s1 !! path = Some (mkNode Socket mode (fs_uid s) "")) as Hat
    by (by rewrite H1, lookup_insert_eq).
  assert (plain_at path s1) as Hp by (intros n; rewrite Hat; by intros [= <-]).
  pose proof (change_target_plain (with_mode mode') path s1 Hp) as He.
  assert (fs_faults s = [] → (change_target (with_mode mode') path s1).1 = Ok tt
          ∧ fs_faults (change_target (with_mode mode') path s1).2 = []) as Hq
    by (intros Hs; by apply (change_target_quiet _ _ _ _ (Hf Hs) Hat)).
  unfold set_permissions. destruct (change_target (with_mode mode') path s1) as [[[]|e] s2]; cbn in He, Hq.
  - destruct He as (n & En & He). rewrite Hat in En. injection En as <-. split_and!; [done| |intros Hs; by apply Hq].
    rewrite He, H1. cbn. by rewrite insert_insert_eq.
  - split; [|intros Hs; by destruct (Hq Hs)]. unfold nodes_kept in He. split_and!; [done|by rewrite He|].
    intros Hs. by destruct (Hq Hs).
Qed.
Lemma bound_socket_only path mode s s' : bound path mode s s' → socket_only path s s'.
Proof.
  intros (Hn & He & _). split; [intros q Hq; by rewrite He, lookup_insert_ne|]. rewrite Hn. done.
Qed.
(** Dropping the guard removes it again. *)
Lemma guard_removes path mode s s' :
  bound path mode s s' →
  let s'' := drop_socket_guard path s' in
  socket_only path s s'' ∧ (fs_faults s = [] → fs_nodes s'' !! path = None).
Proof.
  intros Hb. pose proof (bound_socket_only _ _ _ _ Hb) as [Ho _]. destruct Hb as (Hn & He & Hf). cbv zeta.
  assert (only_at path s' (drop_socket_guard path s')) as Hd.
  { unfold drop_socket_guard. pose proof (kept_symlink_metadata path s') as Hk.
    destruct (symlink_metadata path s') as [[m|e] s1]; cbn in Hk; [|by apply kept_only_at].
    destruct (is_kind Socket m); [|by apply kept_only_at].
    intros q Hq. rewrite (only_at_remove_file path s1 q Hq). unfold nodes_kept in Hk. by rewrite Hk. }
  split; [split; [intros q Hq; by rewrite Hd, Ho|by rewrite Hn]|]. intros Hs. unfold drop_socket_guard.
  rewrite node_at_quiet by auto. unfold node_at. rewrite He, lookup_insert_eq. cbn.
  unfold remove_file, atomic_call. rewrite call_quiet by auto. unfold mbind, M_bind, node_at.
  rewrite He, lookup_insert_eq. unfold is_kind; cbn [n_kind]. rewrite bool_decide_eq_true_2, bool_decide_eq_false_2 by done. cbn. by rewrite lookup_delete_eq.
Qed.

(** ** Properties *)
(** What a server may do to the files: [serving] with the given mode, or returned. *)
Definition confined {E} (path : Path) (mode : Z) (s : Fs) (r : option (result E unit) * Fs) : Prop :=
  let '(ended, s') := r in
  socket_only path s s'
  ∧ (ended = None → ∃ uid, fs_nodes s' !! path = Some (mkNode Socket mode uid ""))
  ∧ (fs_faults s = [] → ended ≠ None →
     fs_nodes s' !! path = None ∨ fs_nodes s' !! path = fs_nodes s !! path).

Section Confined.
Variables (umask : Z) (path : Path) (events : list LoopEvent).

Lemma prepared_confined {E} mask (missing insecure occupied : E) io mode s e s1 :
  prepare_socket_at mask missing insecure occupied io path s = (Err e, s1) →
  confined (E := E) path mode s (Some (Err e), s1).
Proof.
  intros Hp. pose proof (prepare_socket_only mask missing insecure occupied io path s) as Ho. rewrite Hp in Ho.
  split_and!; [done|done|]. intros Hf _.
  pose proof (prepare_socket_at_safe mask missing insecure occupied io path s) as Hs. rewrite Hp in Hs.
  destruct Hs as [[Hk|(_ & Hd)] _]; [right; unfold nodes_kept in Hk; by rewrite Hk|left; by rewrite Hd, lookup_delete_eq].
Qed.

(** After binding, the rest of either server. *)
Lemma bound_confined {E} (r : result E unit) mode mode' s s1 s2 guarded :
  socket_only path s s1 → (fs_faults s = [] → fs_faults s1 = []) → bound path mode s1 s2 →
  (guarded = false → fs_faults s ≠ []) →
  confined path mode' s (Some r, if guarded then drop_socket_guard path s2 else s2).
Proof.
  intros Ho Hf Hb Hg. destruct (guard_removes path mode s1 s2 Hb) as [Hd Hn]. destruct guarded.
  - split_and!; [by eapply socket_only_trans|done|]. intros Hs _. left. by apply Hn, Hf.
  - split_and!; [eapply socket_only_trans; [done|]; by eapply bound_socket_only|done|].
    intros Hs. by destruct (Hg eq_refl).
Qed.
Lemma prepare_quiet {E} mask (missing insecure occupied : E) io s :
  fs_faults s = [] → fs_faults (prepare_socket_at mask missing insecure occupied io path s).2 = [].
Proof.
  intros Hs. unfold prepare_socket_at. destruct (parent path) as [dir|]; [|done].
  unfold mbind, M_bind, M_map_err, metadata, atomic_call. rewrite call_quiet by done.
  pose proof (follow_state MAX_SYMLINKS dir s) as Hfs. destruct (follow _ dir s) as [[n|e] s1]; cbn in Hfs; subst; [|done].
  cbn. destruct (_ || _); [done|]. unfold clear_socket. rewrite node_at_quiet by done. unfold node_at.
  destruct (fs_nodes s !! path) as [m|] eqn:En; [|by destruct (kind_is NotFound not_found)].
  destruct (is_kind Socket m) eqn:Ek; [|done]. unfold M_map_err, remove_file, atomic_call. rewrite call_quiet by done.
  unfold mbind, M_bind, node_at. rewrite En. apply bool_decide_eq_true in Ek. unfold is_kind. by rewrite Ek.
Qed.

(** What both servers do, for a mode, errors and a result of the loop. *)
Lemma server_confined {E} mask (missing insecure occupied : E) io mode (guarded : bool) limit (f : option TransportError → result E unit) s :
  confined path mode s
    match prepare_socket_at mask missing insecure occupied io path s with
    | (Err e, s) => (Some (Err e), s)
    | (Ok _, s) =>
      match bind_socket umask path s with
      | (Err e, s) => (Some (Err (io e)), s)
      | (Ok _, s) =>
        match set_permissions path mode s with
        | (Err e, s) => (Some (Err (io e)), if guarded then drop_socket_guard path s else s)
        | (Ok _, s) =>
          match accept_loop limit events with
          | Serving _ => (None, s)
          | LoopEnded r => (Some (f r), drop_socket_guard path s)
          end
        end
      end
    end.
Proof.
  pose proof (prepare_socket_only mask missing insecure occupied io path s) as Ho.
  pose proof (prepare_quiet mask missing insecure occupied io s) as Hq.
  pose proof (prepare_socket_at_safe mask missing insecure occupied io path s) as Hsafe.
  destruct (prepare_socket_at _ _ _ _ _ path s) as [[[]|e] s1] eqn:Ep; [|by eapply prepared_confined].
  cbn [snd] in Ho, Hq. destruct Hsafe as [_ Hfree]. pose proof (bind_socket_effect umask path s1) as Hb.
  destruct (bind_socket umask path s1) as [[[]|e] s2].
  2: { unfold nodes_kept in Hb. split_and!; [eapply socket_only_trans; [done|]; by apply kept_socket_only|done|].
       intros Hs _. left. rewrite Hb. by apply Hfree. }
  pose proof (chmod_socket path _ mode s1 s2 Hb) as Hc.
  destruct (set_permissions path mode s2) as [[[]|e] s3].
  2: { destruct Hc as [Hc Hne]. eapply bound_confined; [done..|]. intros _ Hs. auto. }
  destruct (accept_loop limit events) as [n|r].
  - split_and!; [eapply socket_only_trans; [done|]; by eapply bound_socket_only| |done].
    intros _. destruct Hc as (_ & He & _). exists (fs_uid s1). by rewrite He, lookup_insert_eq.
  - by apply (bound_confined (f r) mode mode s s1 s3 true).
Qed.

(** Both servers keep to their socket, whatever fails: no other path changes and what is not
    a socket is left where it is. While they serve, the path is a socket with mode 0o600 or
    0o666; when they return and no call to the file system failed, no socket is left. *)
Theorem servers_keep_to_their_socket (s : Fs) :
  confined path 384 s (signer_server_run umask path events s)
  ∧ confined path 438 s (lifecycle_server_run umask path events s).
Proof.
  split; [exact (server_confined _ _ _ _ _ _ true _ signer_loop_result s)|].
  exact (server_confined _ _ _ _ _ _ false _ (λ r, match r with None => Ok tt | Some e => Err e end) s).
Qed.

(** Told to stop, they return. *)
Theorem servers_stop (s : Fs) :
  ShutdownChanged true ∈ events →
  (signer_server_run umask path events s).1 ≠ None ∧ (lifecycle_server_run umask path events s).1 ≠ None.
Proof.
  intros Hin. unfold signer_server_run, lifecycle_server_run.
  destruct (accept_loop_stops MAX_CONCURRENT_CONNECTIONS events Hin) as [r1 ->].
  destruct (accept_loop_stops MAX_UNIX_CONNECTIONS events Hin) as [r2 ->].
  split.
  - destruct (prepare_socket_path path s) as [[?|?] s1]; [|done]. destruct (bind_socket umask path s1) as [[?|?] s2]; [|done].
    by destruct (set_permissions path 384 s2) as [[?|?] s3].
  - destruct (prepare_socket path s) as [[?|?] s1]; [|done]. destruct (bind_socket umask path s1) as [[?|?] s2]; [|done].
    by destruct (set_permissions path 438 s2) as [[?|?] s3].
Qed.
End Confined.

(** The lifecycle server makes its guard after it has set the mode: when setting it fails, the
    socket stays behind; the signer's is removed. *)
Theorem failed_chmod_leaves_a_socket :
  let path := mkPath true ["run"; "api.sock"] in
  let dir := mkNode Directory 448 0 "" in
  let s := mkFs {[mkPath true ["run"] := dir]} [None; None; None; Some (mkIoError OtherKind "chmod", 0%nat)] 0 in
  n_kind <$> fs_nodes (lifecycle_server_run 0 path [] s).2 !! path = Some Socket
  ∧ fs_nodes (signer_server_run 0 path [] s).2 !! path = None.
Proof. vm_compute. split; reflexivity. Qed.
