(* ===== verification/RelayAdapter.v ===== *)
(** * Community sessions and the relay adapter (community_session.rs, relay_adapter.rs)
    Readiness of a community from signed presence events, and the adapter that keeps a
    relay connection for it, run against a script of what the network, the clock and the
    shutdown signal do. What the adapter reports and how long it waits is its output. *)
From Stdlib Require Import ZArith Lia String Ascii.
From stdpp Require Import base gmap list strings.
From S2P Require Import Prelude RustStr Ids Lifecycle Agent.
#[local] Open Scope Z_scope.

Definition INITIAL_READINESS_TIMEOUT_SECONDS : Z := 30.
Definition PRESENCE_EXPIRY_SECONDS : Z := 180.

(** ** Sessions *)
Inductive RelayConnectionState : Type := Disconnected | ConnectedState | AuthenticatedState.
#[export] Instance RelayConnectionState_eq_dec : EqDecision RelayConnectionState.
Proof. solve_decision. Defined.
Inductive CommunityReadiness : Type := PendingReadiness | Ready | Degraded.
#[export] Instance CommunityReadiness_eq_dec : EqDecision CommunityReadiness.
Proof. solve_decision. Defined.

Inductive CommunitySessionError : Type :=
| InvalidRelayUrl | AuthorizationRejected | InvalidConnectionTransition | InvalidSignature
| UnexpectedAgent | UnexpectedEventKind | NotOnlinePresence | FuturePresence | ExpiredPresence
| OutOfOrderPresence.

Record CommunitySessionKey : Type := mkSessionKey {
  sk_community_config_id : CommunityConfigId; sk_relay_url : Url
}.
Record CommunitySession : Type := mkCommunitySession {
  cs_key : CommunitySessionKey;
  cs_expected_agent : string;
  cs_connection : RelayConnectionState;
  cs_authorization_verified : bool;
  cs_readiness_started_at_seconds : Z;
  cs_last_online_presence_at_seconds : option Z
}.

(** A received event, and what [buzz_core] says about events. *)
Record PresenceEvent : Type := mkPresence {
  pe_pubkey : string; pe_kind : Z; pe_content : string; pe_created_at : Z
}.
Class BuzzCore : Type := {
  verify_event : PresenceEvent → bool;
  KIND_PRESENCE_UPDATE : Z;
  ONLINE : string
}.

Definition set_connection (c : RelayConnectionState) (s : CommunitySession) : CommunitySession :=
  mkCommunitySession (cs_key s) (cs_expected_agent s) c (cs_authorization_verified s)
    (cs_readiness_started_at_seconds s) (cs_last_online_presence_at_seconds s).

Section Session.
Context `{BuzzCore}.

(** [reparse]: [Url::parse(relay_url.as_str())]. *)
Definition CommunitySession_new (reparse : string → option Url)
    (community_config_id : CommunityConfigId) (relay_url : Url) (expected_agent : string)
    (now_seconds : Z) : result CommunitySessionError CommunitySession :=
  ensure negb (negb (String.eqb (url_scheme relay_url) "ws" || String.eqb (url_scheme relay_url) "wss")
               || option_is_none (url_host_str relay_url)
               || negb (str_is_empty (url_username relay_url))
               || option_is_some (url_password relay_url))
  else InvalidRelayUrl in
  let? normalized := ok_or InvalidRelayUrl (reparse (url_as_str relay_url)) in
  Ok (mkCommunitySession (mkSessionKey community_config_id normalized) expected_agent
        Disconnected false now_seconds None).

Definition verify_authorization (verify : CommunityConfigId → string → string → bool)
    (authorization : string) (self : CommunitySession) : result CommunitySessionError CommunitySession :=
  ensure verify (sk_community_config_id (cs_key self)) (cs_expected_agent self) authorization
  else AuthorizationRejected in
  Ok (mkCommunitySession (cs_key self) (cs_expected_agent self) (cs_connection self) true
        (cs_readiness_started_at_seconds self) (cs_last_online_presence_at_seconds self)).

Definition connected (self : CommunitySession) : CommunitySession :=
  set_connection ConnectedState self.
Definition authenticated (self : CommunitySession) : result CommunitySessionError CommunitySession :=
  ensure bool_decide (cs_connection self = ConnectedState) else InvalidConnectionTransition in
  Ok (set_connection AuthenticatedState self).
Definition disconnected (self : CommunitySession) : CommunitySession :=
  set_connection Disconnected self.

Definition observe_presence (event : PresenceEvent) (now_seconds : Z) (self : CommunitySession)
  : result CommunitySessionError CommunitySession :=
  ensure verify_event event else InvalidSignature in
  ensure String.eqb (pe_pubkey event) (cs_expected_agent self) else UnexpectedAgent in
  ensure pe_kind event =? KIND_PRESENCE_UPDATE else UnexpectedEventKind in
  ensure String.eqb (pe_content event) ONLINE else NotOnlinePresence in
  let event_seconds := pe_created_at event in
  ensure event_seconds <=? now_seconds else FuturePresence in
  ensure u64_saturating_sub now_seconds event_seconds <=? PRESENCE_EXPIRY_SECONDS
  else ExpiredPresence in
  ensure negb (is_some_and (cs_last_online_presence_at_seconds self)
                           (λ previous, event_seconds <? previous))
  else OutOfOrderPresence in
  Ok (mkCommunitySession (cs_key self) (cs_expected_agent self) (cs_connection self)
        (cs_authorization_verified self) (cs_readiness_started_at_seconds self)
        (Some event_seconds)).

Definition readiness (self : CommunitySession) (now_seconds : Z) : CommunityReadiness :=
  let presence_current :=
    is_some_and (cs_last_online_presence_at_seconds self) (λ seen,
      (seen <=? now_seconds) && (u64_saturating_sub now_seconds seen <=? PRESENCE_EXPIRY_SECONDS)) in
  if cs_authorization_verified self && bool_decide (cs_connection self = AuthenticatedState)
     && presence_current
  then Ready
  else if u64_saturating_sub now_seconds (cs_readiness_started_at_seconds self)
          <? INITIAL_READINESS_TIMEOUT_SECONDS
  then PendingReadiness else Degraded.

(** ** The adapter *)
Record RelayAdapterConfig : Type := mkRelayConfig {
  rc_tick_interval : Z; rc_initial_backoff : Z; rc_max_backoff : Z
}.
Inductive RelayAdapterError : Type :=
| InvalidAdapterConfig | AuthorizationNotVerified | SessionError (e : CommunitySessionError).
Inductive RelayAdapterState : Type :=
| StConnecting | StConnected | StAuthenticated | StPresenceSubscriptionSent | StReplayComplete
| StClosed | StDisconnected | StBackoff.

Definition RelayAdapterConfig_validate (self : RelayAdapterConfig) : result RelayAdapterError unit :=
  ensure negb ((rc_tick_interval self =? 0) || (rc_initial_backoff self =? 0)
               || (rc_max_backoff self <? rc_initial_backoff self))
  else InvalidAdapterConfig in Ok tt.

(** [Duration::MAX] bounds the saturating product; a cap is a [Duration] itself. *)
Definition doubled_capped (current cap : Z) : Z := Z.min (2 * current) cap.

(** What the observer is told, and the waits. *)
Inductive Observation : Type :=
| ObsState (s : RelayAdapterState)
| ObsReadiness (now : Z) (r : CommunityReadiness)
| ObsError (message : string)
| ObsWait (duration : Z).

(** [wait_or_shutdown]: the sleep ends, or the signal changes, to stop or not. *)
Inductive Waited : Type := Slept | SignalDuringWait (stop : bool).
Definition wait_or_shutdown (w : Waited) : bool :=
  match w with Slept => false | SignalDuringWait stop => stop end.

Inductive AdapterMessage : Type :=
| MsgEvent (event : PresenceEvent)
| MsgEose
| MsgOther.

(** One turn of the inner loop: the clock at its head, and which branch is taken. *)
Inductive InnerBranch : Type :=
| OnSignal (stop : bool)
| OnMessage (now : Z) (m : AdapterMessage)
| OnError (error : string)
| OnTick.
Record InnerTurn : Type := mkInnerTurn { it_now : Z; it_branch : InnerBranch }.

(** One turn of the outer loop. The script ends where the loop finds the signal set. *)
Inductive OuterTurn : Type :=
| SignalDuringConnect (stop : bool)
| ConnectFails (error : string) (wait : Waited)
| SubscribeFails (error : string) (wait : Waited)
| SessionRuns (turns : list InnerTurn).

Definition session_error_text (e : CommunitySessionError) : string :=
  match e with
  | InvalidRelayUrl => "relay URL must be a credential-free ws or wss URL with a host"
  | AuthorizationRejected => "configured community authorization was rejected"
  | InvalidConnectionTransition => "invalid relay connection state transition"
  | InvalidSignature => "presence event signature or ID is invalid"
  | UnexpectedAgent => "presence event was not signed by the expected agent"
  | UnexpectedEventKind => "event is not a Buzz presence update"
  | NotOnlinePresence => "presence status is not online"
  | FuturePresence => "presence event timestamp is in the future"
  | ExpiredPresence => "presence event has already expired"
  | OutOfOrderPresence => "presence event is older than the last observation"
  end.

Definition drive_relay_message (message : AdapterMessage) (now : Z) (session : CommunitySession)
  : CommunitySession * list Observation :=
  let '(session, errors) :=
    match message with
    | MsgEvent event =>
      match observe_presence event now session with
      | Ok session => (session, [])
      | Err e => (session, [ObsError (session_error_text e)])
      end
    | _ => (session, [])
    end in
  (session, errors ++ [ObsReadiness now (readiness session now)]).

(** How the inner loop ends: by shutdown, by an error, or not yet where its script ends. *)
Inductive InnerEnd : Type := InnerReturned | InnerBroke | InnerRunning.

Fixpoint inner_loop (turns : list InnerTurn) (session : CommunitySession)
  : InnerEnd * CommunitySession * list Observation :=
  match turns with
  | [] => (InnerRunning, session, [])
  | t :: turns =>
    let head := ObsReadiness (it_now t) (readiness session (it_now t)) in
    match it_branch t with
    | OnSignal stop =>
      if stop then (InnerReturned, disconnected session, [head; ObsState StClosed])
      else let '(e, session, obs) := inner_loop turns session in (e, session, head :: obs)
    | OnMessage now m =>
      let replay := match m with MsgEose => [ObsState StReplayComplete] | _ => [] end in
      let '(session, driven) := drive_relay_message m now session in
      let '(e, session, obs) := inner_loop turns session in
      (e, session, head :: replay ++ driven ++ obs)
    | OnError error =>
      (InnerBroke, disconnected session,
       [head; ObsError error; ObsState StDisconnected; ObsState StBackoff])
    | OnTick =>
      let '(e, session, obs) := inner_loop turns session in (e, session, head :: obs)
    end
  end.

Inductive Flow : Type :=
| Continue (session : CommunitySession) (backoff : Z)
| Return (result : result RelayAdapterError unit) (session : CommunitySession)
| StillRunning (session : CommunitySession).

(** A failed attempt: report, wait, double. *)
Definition back_off (config : RelayAdapterConfig) (wait : Waited) (backoff : Z)
    (session : CommunitySession) : Flow :=
  if wait_or_shutdown wait then Return (Ok tt) session
  else Continue session (doubled_capped backoff (rc_max_backoff config)).

Definition outer_turn (config : RelayAdapterConfig) (t : OuterTurn) (session : CommunitySession)
    (backoff : Z) : Flow * list Observation :=
  let start := ObsState StConnecting in
  match t with
  | SignalDuringConnect stop =>
    (if stop then Return (Ok tt) (disconnected session) else Continue session backoff, [start])
  | ConnectFails error wait =>
    let session := disconnected session in
    (back_off config wait backoff session,
     [start; ObsState StDisconnected; ObsError error; ObsState StBackoff; ObsWait backoff])
  | SubscribeFails error wait =>
    match authenticated (connected session) with
    | Err e => (Return (Err (SessionError e)) (connected session), [start; ObsState StConnected])
    | Ok session =>
      let session := disconnected session in
      (back_off config wait backoff session,
       [start; ObsState StConnected; ObsState StAuthenticated; ObsError error;
        ObsState StDisconnected; ObsState StBackoff; ObsWait backoff])
    end
  | SessionRuns turns =>
    match authenticated (connected session) with
    | Err e => (Return (Err (SessionError e)) (connected session), [start; ObsState StConnected])
    | Ok session =>
      let '(e, session, obs) := inner_loop turns session in
      (match e with
       | InnerReturned => Return (Ok tt) session
       | InnerBroke => Continue session (rc_initial_backoff config)
       | InnerRunning => StillRunning session
       end,
       [start; ObsState StConnected; ObsState StAuthenticated; ObsState StPresenceSubscriptionSent]
         ++ obs)
    end
  end.

Fixpoint outer_loop (config : RelayAdapterConfig) (script : list OuterTurn)
    (session : CommunitySession) (backoff : Z)
  : option (result RelayAdapterError unit) * CommunitySession * list Observation :=
  match script with
  | [] => (Some (Ok tt), session, [])
  | t :: script =>
    match outer_turn config t session backoff with
    | (Return r session, obs) => (Some r, session, obs)
    | (StillRunning session, obs) => (None, session, obs)
    | (Continue session backoff, obs) =>
      let '(r, session, more) := outer_loop config script session backoff in
      (r, session, obs ++ more)
    end
  end.

Definition run_adapter (config : RelayAdapterConfig) (script : list OuterTurn)
    (session : CommunitySession)
  : option (result RelayAdapterError unit) * CommunitySession * list Observation :=
  match RelayAdapterConfig_validate config with
  | Err e => (Some (Err e), session, [])
  | Ok tt =>
    if negb (cs_authorization_verified session) then (Some (Err AuthorizationNotVerified), session, [])
    else outer_loop config script session (rc_initial_backoff config)
  end.

(** The subscription of a session. *)
Record PresenceSubscription : Type := mkSubscription {
  sub_id : string; sub_author : string; sub_kind : Z; sub_since : Z; sub_limit : Z
}.
Definition presence_subscription `{UuidLib} (session : CommunitySession) (now_seconds : Z)
  : PresenceSubscription :=
  mkSubscription
    (String.append "community-presence-"
       (CommunityConfigId_to_string (sk_community_config_id (cs_key session))))
    (cs_expected_agent session) KIND_PRESENCE_UPDATE
    (u64_saturating_sub now_seconds PRESENCE_EXPIRY_SECONDS) 1.

Lemma authenticated_connected s :
  authenticated (connected s) = Ok (set_connection AuthenticatedState (connected s)).
Proof. unfold authenticated. cbn. by rewrite bool_decide_eq_true_2. Qed.

(** ** Readiness *)
(** Events of the script, and those that say the expected agent is online. *)
Definition inner_events (t : InnerTurn) : list (Z * PresenceEvent) :=
  match it_branch t with OnMessage now (MsgEvent e) => [(now, e)] | _ => [] end.
Definition script_events (script : list OuterTurn) : list (Z * PresenceEvent) :=
  flat_map (λ t, match t with SessionRuns turns => flat_map inner_events turns | _ => [] end) script.

Definition genuine (agent : string) (now : Z) (e : PresenceEvent) : Prop :=
  verify_event e = true ∧ pe_pubkey e = agent ∧ pe_kind e = KIND_PRESENCE_UPDATE
  ∧ pe_content e = ONLINE ∧ pe_created_at e ≤ now.

Section Seen.
Context (agent : string) (events : list (Z * PresenceEvent)) (verified : bool).

(** The session only knows presence it was shown. *)
Record informed (s : CommunitySession) : Prop := {
  inf_agent : cs_expected_agent s = agent;
  inf_verified : cs_authorization_verified s = verified;
  inf_presence t : cs_last_online_presence_at_seconds s = Some t →
    ∃ now e, (now, e) ∈ events ∧ genuine agent now e ∧ pe_created_at e = t
}.

(** What a report of readiness says. *)
Definition justified (o : Observation) : Prop :=
  match o with
  | ObsReadiness now Ready =>
    verified = true
    ∧ ∃ seen e, (seen, e) ∈ events ∧ genuine agent seen e
      ∧ pe_created_at e ≤ now ≤ pe_created_at e + PRESENCE_EXPIRY_SECONDS
  | _ => True
  end.

Lemma readiness_justified s now : informed s → justified (ObsReadiness now (readiness s now)).
Proof.
  intros [Ha Hv Hp]. unfold readiness, justified.
  destruct (_ && _) eqn:Ec; [|by destruct (_ <? _)].
  rewrite !andb_true_iff in Ec. destruct Ec as [[Hauth _] Hcur].
  destruct (cs_last_online_presence_at_seconds s) as [t|]; [|done]. cbn in Hcur.
  apply andb_true_iff in Hcur as [Hle Hexp]. apply Z.leb_le in Hle, Hexp.
  split; [congruence|]. destruct (Hp t eq_refl) as (seen & e & Hin & Hg & <-).
  exists seen, e. split_and!; [done..|]. unfold u64_saturating_sub in Hexp. lia.
Qed.

Lemma informed_connection c s : informed s → informed (set_connection c s).
Proof. intros [Ha Hv Hp]. by split. Qed.

Lemma observe_presence_informed e now s s' :
  (now, e) ∈ events → informed s → observe_presence e now s = Ok s' → informed s'.
Proof.
  intros Hin [Ha Hv Hp]. unfold observe_presence.
  destruct (verify_event e) eqn:Ev; [|done].
  destruct (String.eqb_spec (pe_pubkey e) (cs_expected_agent s)); [|done].
  destruct (Z.eqb_spec (pe_kind e) KIND_PRESENCE_UPDATE); [|done].
  destruct (String.eqb_spec (pe_content e) ONLINE); [|done].
  destruct (Z.leb_spec (pe_created_at e) now); [|done]. destruct (_ <=? _); [|done].
  destruct (negb _); [|done]. intros [= <-]. split; [done..|]. cbn. intros t [= <-].
  exists now, e. split_and!; [done| |done]. by rewrite <- Ha.
Qed.

Lemma drive_informed m now s :
  (∀ e, m = MsgEvent e → (now, e) ∈ events) → informed s →
  informed (drive_relay_message m now s).1 ∧ Forall justified (drive_relay_message m now s).2.
Proof.
  intros Hin Hs. unfold drive_relay_message. destruct m as [e| |]; cbn.
  - destruct (observe_presence e now s) as [s'|err] eqn:Eo; cbn.
    + assert (informed s') as Hs' by (eapply observe_presence_informed; eauto).
      split; [done|]. constructor; [by apply readiness_justified|constructor].
    + split; [done|]. constructor; [done|]. constructor; [by apply readiness_justified|constructor].
  - split; [done|]. constructor; [by apply readiness_justified|constructor].
  - split; [done|]. constructor; [by apply readiness_justified|constructor].
Qed.

Lemma inner_loop_informed turns s :
  (∀ p, p ∈ flat_map inner_events turns → p ∈ events) → informed s →
  informed (inner_loop turns s).1.2 ∧ Forall justified (inner_loop turns s).2.
Proof.
  revert s. induction turns as [|t turns IH]; intros s Hin Hs; cbn [inner_loop]; [by split|].
  assert (∀ s, informed s → informed (inner_loop turns s).1.2 ∧ Forall justified (inner_loop turns s).2)
    as IH'.
  { intros s' Hs'. apply IH; [|done]. intros p Hp. apply Hin. cbn. apply elem_of_app. by right. }
  pose proof (readiness_justified s (it_now t) Hs) as Hhead.
  destruct (it_branch t) as [[]|now m|err|] eqn:Eb.
  - split; [by apply informed_connection|]. by repeat constructor.
  - destruct (IH' s Hs) as [H1 H2]. destruct (inner_loop turns s) as [[e s'] obs]. split; [done|].
    by constructor.
  - destruct (drive_informed m now s) as [H1 H2].
    { intros e ->. apply Hin. cbn. unfold inner_events. rewrite Eb. apply elem_of_app. left. left. }
    { done. }
    destruct (drive_relay_message m now s) as [s1 driven]. destruct (IH' s1 H1) as [H3 H4].
    destruct (inner_loop turns s1) as [[e s'] obs]. cbn in *. split; [done|].
    constructor; [done|]. apply Forall_app. split; [destruct m; by repeat constructor|].
    by apply Forall_app.
  - split; [by apply informed_connection|]. by repeat constructor.
  - destruct (IH' s Hs) as [H1 H2]. destruct (inner_loop turns s) as [[e s'] obs]. split; [done|].
    by constructor.
Qed.

Definition flow_informed (f : Flow) : Prop :=
  match f with Continue s _ | Return _ s | StillRunning s => informed s end.

Lemma outer_turn_informed config t s backoff :
  (∀ p, p ∈ script_events [t] → p ∈ events) → informed s →
  flow_informed (outer_turn config t s backoff).1 ∧ Forall justified (outer_turn config t s backoff).2.
Proof.
  intros Hin Hs. destruct t as [[]|err w|err w|turns]; cbn [outer_turn].
  - split; [by apply informed_connection|]. by repeat constructor.
  - split; [done|]. by repeat constructor.
  - split; [|by repeat constructor]. unfold back_off.
    destruct (wait_or_shutdown w); by apply informed_connection.
  - rewrite authenticated_connected. split; [|by repeat constructor]. unfold back_off.
    destruct (wait_or_shutdown w); by repeat apply informed_connection.
  - rewrite authenticated_connected.
    destruct (inner_loop_informed turns (set_connection AuthenticatedState (connected s))) as [H1 H2].
    { intros p Hp. apply Hin. cbn. by rewrite app_nil_r. }
    { by repeat apply informed_connection. }
    destruct (inner_loop turns _) as [[e s'] obs]. split; [by destruct e|].
    by repeat constructor.
Qed.

Lemma outer_loop_informed config script s backoff :
  (∀ p, p ∈ script_events script → p ∈ events) → informed s →
  Forall justified (outer_loop config script s backoff).2.
Proof.
  revert s backoff. induction script as [|t script IH]; intros s backoff Hin Hs; cbn [outer_loop];
    [constructor|].
  destruct (outer_turn_informed config t s backoff) as [H1 H2]; [|done|].
  { intros p Hp. apply Hin. cbn in *. rewrite app_nil_r in Hp. apply elem_of_app. by left. }
  destruct (outer_turn config t s backoff) as [[s' b|r s'|s'] obs]; cbn in *; [|done..].
  specialize (IH s' b). destruct (outer_loop config script s' b) as [[r s''] more]. cbn in *.
  apply Forall_app. split; [done|]. apply IH; [|done]. intros p Hp. apply Hin. apply elem_of_app. by right.
Qed.
End Seen.

(** ** Waits *)
Definition wait_within (config : RelayAdapterConfig) (o : Observation) : Prop :=
  match o with
  | ObsWait d => rc_initial_backoff config ≤ d ≤ rc_max_backoff config
  | _ => True
  end.
Definition no_wait (o : Observation) : Prop := match o with ObsWait _ => False | _ => True end.

Lemma drive_no_wait m now s : Forall no_wait (drive_relay_message m now s).2.
Proof.
  unfold drive_relay_message. destruct m as [e| |]; cbn; [|by repeat constructor..].
  destruct (observe_presence e now s); cbn; by repeat constructor.
Qed.
Lemma inner_loop_no_wait turns s : Forall no_wait (inner_loop turns s).2.
Proof.
  revert s. induction turns as [|t turns IH]; intros s; cbn [inner_loop]; [constructor|].
  destruct (it_branch t) as [[]|now m|err|].
  - by repeat constructor.
  - specialize (IH s). destruct (inner_loop turns s) as [[]]. by constructor.
  - pose proof (drive_no_wait m now s) as Hd. destruct (drive_relay_message m now s) as [s1 driven].
    specialize (IH s1). destruct (inner_loop turns s1) as [[]]. constructor; [done|].
    apply Forall_app. split; [destruct m; by repeat constructor|]. by apply Forall_app.
  - by repeat constructor.
  - specialize (IH s). destruct (inner_loop turns s) as [[]]. by constructor.
Qed.

Lemma no_wait_within config o : no_wait o → wait_within config o.
Proof. by destruct o. Qed.

(** Observation by observation. *)
Ltac each_obs := repeat (apply Forall_cons_2; [first [done | cbn; lia]|]); apply Forall_nil_2.

Lemma outer_turn_waits config t s backoff :
  rc_initial_backoff config ≤ backoff ≤ rc_max_backoff config → 0 ≤ rc_initial_backoff config →
  Forall (wait_within config) (outer_turn config t s backoff).2
  ∧ match (outer_turn config t s backoff).1 with
    | Continue _ b => rc_initial_backoff config ≤ b ≤ rc_max_backoff config
    | _ => True
    end.
Proof.
  intros Hb H0. destruct t as [[]|err w|err w|turns]; cbn [outer_turn].
  - split; [|done]. each_obs.
  - split; [|done]. each_obs.
  - split; [each_obs|]. unfold back_off, doubled_capped.
    destruct (wait_or_shutdown w); [done|]. cbn [fst]. lia.
  - rewrite authenticated_connected. split; [each_obs|]. unfold back_off, doubled_capped.
    destruct (wait_or_shutdown w); [done|]. cbn [fst]. lia.
  - rewrite authenticated_connected.
    pose proof (inner_loop_no_wait turns (set_connection AuthenticatedState (connected s))) as Hn.
    destruct (inner_loop turns _) as [[e s'] obs]. cbn in Hn. split.
    + do 4 (apply Forall_cons_2; [done|]). eapply Forall_impl; [exact Hn|]. apply no_wait_within.
    + destruct e; [done| |done]. cbn. lia.
Qed.

Lemma outer_loop_waits config script s backoff :
  rc_initial_backoff config ≤ backoff ≤ rc_max_backoff config → 0 ≤ rc_initial_backoff config →
  Forall (wait_within config) (outer_loop config script s backoff).2.
Proof.
  revert s backoff. induction script as [|t script IH]; intros s backoff Hb H0; cbn [outer_loop];
    [constructor|].
  destruct (outer_turn_waits config t s backoff Hb H0) as [H1 H2].
  destruct (outer_turn config t s backoff) as [[s' b|r s'|s'] obs]; cbn in *; [|done..].
  specialize (IH s' b H2 H0). destruct (outer_loop config script s' b) as [[r s''] more].
  by apply Forall_app.
Qed.

(** ** Properties *)
(** C32: a community is reported ready only on fresh, signed presence. Over any run of the
    adapter from a session that has seen none, whatever the network and the clock do, a
    report of readiness at a time means that the authorization was verified and that the
    relay delivered an event, valid and signed by the expected agent, of the presence kind
    and saying online, that was not from the future when it arrived and is at most three
    minutes old at that time. An unverified session is never connected, and every wait lies
    between the initial and the maximal backoff. *)
Theorem readiness_needs_fresh_presence config script session :
  cs_last_online_presence_at_seconds session = None → 0 ≤ rc_initial_backoff config →
  let '(r, _, observed) := run_adapter config script session in
  (∀ now, ObsReadiness now Ready ∈ observed →
     cs_authorization_verified session = true
     ∧ ∃ seen e, (seen, e) ∈ script_events script ∧ genuine (cs_expected_agent session) seen e
       ∧ pe_created_at e ≤ now ≤ pe_created_at e + PRESENCE_EXPIRY_SECONDS)
  ∧ (cs_authorization_verified session = false → observed = [] ∧ ∃ e, r = Some (Err e))
  ∧ (∀ d, ObsWait d ∈ observed → rc_initial_backoff config ≤ d ≤ rc_max_backoff config).
Proof.
  intros Hnone H0. unfold run_adapter, RelayAdapterConfig_validate.
  destruct (negb _) eqn:Ev; cbn.
  2:{ split_and!; [by intros ? ?%not_elem_of_nil|by eauto|by intros ? ?%not_elem_of_nil]. }
  rewrite negb_true_iff, !orb_false_iff in Ev. destruct Ev as [_ Hmax]. apply Z.ltb_ge in Hmax.
  destruct (cs_authorization_verified session) eqn:Ea; cbn.
  2:{ split_and!; [by intros ? ?%not_elem_of_nil|by eauto|by intros ? ?%not_elem_of_nil]. }
  pose proof (outer_loop_informed (cs_expected_agent session) (script_events script) true config script
    session (rc_initial_backoff config)) as Hj.
  pose proof (outer_loop_waits config script session (rc_initial_backoff config)) as Hw.
  destruct (outer_loop config script session _) as [[r s'] observed]. cbn in Hj, Hw.
  split_and!; [|done|].
  - intros now Hin. split; [done|].
    assert (Forall (justified (cs_expected_agent session) (script_events script) true) observed) as Hall.
    { apply Hj; [done|]. split; [done..|]. intros t Ht. congruence. }
    rewrite Forall_forall in Hall. by destruct (Hall _ Hin).
  - intros d Hin. assert (Forall (wait_within config) observed) as Hall by (apply Hw; lia).
    rewrite Forall_forall in Hall. apply (Hall _ Hin).
Qed.

(** A relay that closes every stream at once is reconnected to without any wait: for
    any number of such connections in a row the adapter reports a backoff after each and
    connects again at once, although its documentation promises exponential backoff. *)
Theorem stream_errors_skip_the_backoff config session n now error :
  RelayAdapterConfig_validate config = Ok tt → cs_authorization_verified session = true →
  let script := replicate n (SessionRuns [mkInnerTurn now (OnError error)]) in
  let '(r, _, observed) := run_adapter config script session in
  r = Some (Ok tt)
  ∧ List.length (List.filter (λ o, match o with ObsState StConnecting => true | _ => false end) observed) = n
  ∧ List.length (List.filter (λ o, match o with ObsState StBackoff => true | _ => false end) observed) = n
  ∧ Forall no_wait observed.
Proof.
  intros Hv Ha script. unfold run_adapter. rewrite Hv, Ha. cbn [negb].
  generalize (rc_initial_backoff config) at 1 as b. clear Ha. revert session.
  unfold script. clear script. induction n as [|n IH]; intros session b; cbn; [by repeat constructor|].
  rewrite authenticated_connected. cbn.
  specialize (IH (disconnected (set_connection AuthenticatedState (connected session)))
                 (rc_initial_backoff config)).
  destruct (outer_loop config _ _ _) as [[r s'] observed]. destruct IH as (-> & H1 & H2 & H3).
  cbn. rewrite H1, H2. by repeat constructor.
Qed.
End Session.

(** ** Samples *)
#[local] Instance sample_core : BuzzCore :=
  {| verify_event _ := true; KIND_PRESENCE_UPDATE := 20001; ONLINE := "online" |}.
Definition sample_session : CommunitySession :=
  mkCommunitySession (mkSessionKey (mkCommunityConfigId 1) sample_url) "agent" Disconnected true 0 None.
Definition sample_relay_config : RelayAdapterConfig := mkRelayConfig 1 1 30.
Definition sample_presence : PresenceEvent := mkPresence "agent" 20001 "online" 90.

(** A failed connection, then a session that sees the agent online. *)
Lemma readiness_needs_fresh_presence_witness :
  let script := [ConnectFails "refused" Slept;
                 SessionRuns [mkInnerTurn 95 (OnMessage 100 (MsgEvent sample_presence))]] in
  let '(_, _, observed) := run_adapter sample_relay_config script sample_session in
  ObsReadiness 100 Ready ∈ observed ∧ ObsWait 1 ∈ observed
  ∧ ∃ seen e, (seen, e) ∈ script_events script ∧ genuine "agent" seen e
      ∧ pe_created_at e ≤ 100 ≤ pe_created_at e + PRESENCE_EXPIRY_SECONDS.
Proof.
  intros script.
  assert (cs_last_online_presence_at_seconds sample_session = None) as Hnone by reflexivity.
  assert (0 ≤ rc_initial_backoff sample_relay_config) as H0 by (cbn; lia).
  pose proof (readiness_needs_fresh_presence sample_relay_config script sample_session Hnone H0) as Ht.
  destruct (run_adapter sample_relay_config script sample_session) as [[r s'] observed] eqn:E.
  vm_compute in E. injection E as _ _ <-.
  assert (ObsReadiness 100 Ready ∈ [ObsState StConnecting; ObsState StDisconnected;
    ObsError "refused"; ObsState StBackoff; ObsWait 1; ObsState StConnecting; ObsState StConnected;
    ObsState StAuthenticated; ObsState StPresenceSubscriptionSent; ObsReadiness 95 Degraded;
    ObsReadiness 100 Ready]) as Hin by (do 10 right; left).
  split_and!; [exact Hin|do 4 right; left|].
  destruct Ht as [Ht _]. by destruct (Ht 100 Hin).
Defined.

Lemma stream_errors_skip_the_backoff_witness :
  let '(r, _, observed) :=
    run_adapter sample_relay_config
      (replicate 3 (SessionRuns [mkInnerTurn 0 (OnError "closed")])) sample_session in
  r = Some (Ok tt) ∧ Forall no_wait observed.
Proof.
  assert (RelayAdapterConfig_validate sample_relay_config = Ok tt) as Hv by reflexivity.
  assert (cs_authorization_verified sample_session = true) as Ha by reflexivity.
  pose proof (stream_errors_skip_the_backoff sample_relay_config sample_session 3 0 "closed" Hv Ha) as Ht.
  cbv zeta in Ht. destruct (run_adapter _ _ _) as [[r s'] observed].
  split; [apply Ht|apply Ht].
Defined.
