(* ===== verification/Nostr.v ===== *)
(** * Nostr events over HTTP
    What [relay_projection.rs] and [community_join.rs] use of the nostr, buzz-sdk and
    reqwest crates: signed events, requests to a relay and the NIP-98 header both files
    build. Signing, encoding and the network are interfaces; the network is a state that
    every request may change. *)
From Stdlib Require Import ZArith Lia String Ascii.
From stdpp Require Import base gmap list strings.
From S2P Require Import Prelude RustStr Bytes Sha256 Monad Custody Json Agent.
#[local] Open Scope Z_scope.

Record NostrEvent : Type := mkNostrEvent {
  ne_pubkey : string; ne_created_at : Z; ne_kind : Z; ne_tags : list (list string);
  ne_content : string
}.

Class NostrLib `{SecretKeys} : Type := {
  (** [Tag::parse], [EventBuilder::new(kind, content).tags(..).sign_with_keys(..)] at a time. *)
  tag_parse : list string → result string (list string);
  sign_event : Z → Z → list (list string) → string → SecretKey → result string NostrEvent;
  event_as_json : NostrEvent → string;
  base64_encode : string → string;
  (** [serde_json]: of a value, of a list of events and of a list of strings. *)
  to_json : Json → option string;
  events_of_json : string → option (list NostrEvent);
  strings_of_json : string → option (list string);
  (** [buzz_sdk::nip_oa] and [build_archive_identity_request], an unsigned event. *)
  nip_oa_auth_tag : SecretKey → string → string → result string string;
  nip_oa_parse_auth_tag : string → result string (list string);
  valid_public_key : string → bool;
  archive_identity_request : string → list string → result string (Z * list (list string) * string)
}.

(** What the theorems use of the crates' documentation. *)
Class NostrLaws `{NostrLib} : Prop := {
  tag_parse_nonempty name values : tag_parse (name :: values) = Ok (name :: values);
  sign_event_ok time kind tags content keys e :
    sign_event time kind tags content keys = Ok e →
    e = mkNostrEvent (public_key_hex keys) time kind tags content
}.

Record HttpRequest : Type := mkHttpRequest {
  hq_method : string; hq_url : string; hq_headers : list (string * string); hq_body : string
}.
(** A response's status and its text, which may fail to arrive. *)
Record HttpResponse : Type := mkHttpResponse { hs_status : Z; hs_text : result string string }.
Record RequestError : Type := mkRequestError {
  re_timeout : bool; re_connect : bool; re_text : string
}.

(** The network, the clock and the random numbers. *)
Class Outside (R : Type) : Type := {
  build_client : M R string unit;
  send_request : HttpRequest → M R RequestError HttpResponse;
  draw_uuid : R → string * R;
  timestamp : R → Z * R
}.

(** [status.is_success()] *)
Definition is_success (status : Z) : bool := (200 <=? status) && (status <=? 299).

Definition KIND_HTTP_AUTH : Z := 27235.

Section Requests.
Context `{NostrLib} {R : Type} `{Outside R} {E : Type}.

Definition draw {A} (f : R → A * R) : M R E A := λ r, let '(a, r) := f r in (Ok a, r).

(** [EventBuilder .. sign_with_keys]: stamped with the time of signing. *)
Definition sign_now (invalid : string → E) (kind : Z) (tags : list (list string)) (content : string)
    (keys : SecretKey) : M R E NostrEvent :=
  time ← draw timestamp;
  of_result (map_err invalid (sign_event time kind tags content keys)).

(** [nip98_auth_header], [build_nip98_auth_header] *)
Definition nip98_auth_header (invalid : string → E) (keys : SecretKey) (method url body : string)
    : M R E string :=
  let payload_hash := hex_digest (sha256 (bytes_of body)) in
  nonce ← draw draw_uuid;
  u ← of_result (map_err invalid (tag_parse ["u"; url]));
  m ← of_result (map_err invalid (tag_parse ["method"; method]));
  p ← of_result (map_err invalid (tag_parse ["payload"; payload_hash]));
  n ← of_result (map_err invalid (tag_parse ["nonce"; nonce]));
  event ← sign_now invalid KIND_HTTP_AUTH [u; m; p; n] EmptyString keys;
  mret (String.append "Nostr " (base64_encode (event_as_json event))).
End Requests.

(** [relay_http_base_url] *)
Definition relay_http_base_url (relay_url : Url) : string :=
  let value := trim_end_slash (url_as_str relay_url) in
  match strip_prefix "wss://" value with
  | Some suffix => String.append "https://" suffix
  | None =>
    match strip_prefix "ws://" value with
    | Some suffix => String.append "http://" suffix
    | None => value
    end
  end.

(** ** The exchanges of a run
    The network with every request and its answer written down. *)
Definition Exchange : Type := HttpRequest * result RequestError HttpResponse.
Definition Logged (R : Type) : Type := R * list Exchange.
#[export] Instance logged_outside {R} `{Outside R} : Outside (Logged R) := {
  build_client := λ '(r, log), let '(x, r) := build_client r in (x, (r, log));
  send_request := λ q '(r, log), let '(x, r) := send_request q r in (x, (r, log ++ [(q, x)]));
  draw_uuid := λ '(r, log), let '(x, r) := draw_uuid r in (x, (r, log));
  timestamp := λ '(r, log), let '(x, r) := timestamp r in (x, (r, log))
}.

(** [q] is authenticated by [keys]: its header carries a signed event naming its URL,
    method and the hash of its body. *)
Definition authenticated_by `{NostrLib} (keys : SecretKey) (q : HttpRequest) : Prop :=
  ∃ time nonce,
    ("Authorization", String.append "Nostr " (base64_encode (event_as_json
       (mkNostrEvent (public_key_hex keys) time KIND_HTTP_AUTH
          [["u"; hq_url q]; ["method"; hq_method q];
           ["payload"; hex_digest (sha256 (bytes_of (hq_body q)))]; ["nonce"; nonce]]
          EmptyString)))) ∈ hq_headers q.

Section Exchanges.
Context `{NL : NostrLib} `{!NostrLaws} {R : Type} `{Outside R} {E : Type}.
Implicit Types w : Logged R.

(** A computation that sends nothing. *)
Definition quiet (w w' : Logged R) : Prop := w'.2 = w.2.
#[export] Instance quiet_preorder : PreOrder quiet.
Proof. split; unfold quiet; [done|]. intros ???; congruence. Qed.

Lemma quiet_draw {A} (f : Logged R → A * Logged R) :
  (∀ w, quiet w (f w).2) → always quiet (draw (E := E) f).
Proof. intros Hf w. specialize (Hf w). unfold draw. by destruct (f w). Qed.
Lemma quiet_uuid w : quiet w (draw_uuid w).2.
Proof. destruct w as [r log]. cbn. by destruct (draw_uuid r). Qed.
Lemma quiet_timestamp w : quiet w (timestamp w).2.
Proof. destruct w as [r log]. cbn. by destruct (timestamp r). Qed.
Lemma quiet_client : always quiet (build_client (R := Logged R)).
Proof. intros [r log]. cbn. by destruct (build_client r). Qed.

Lemma quiet_sign invalid kind tags content keys :
  always quiet (sign_now (R := Logged R) (E := E) invalid kind tags content keys).
Proof.
  apply (always_bind quiet); [apply quiet_draw, quiet_timestamp|]. intros time.
  apply (always_of_result quiet).
Qed.
Lemma quiet_header invalid keys method url body :
  always quiet (nip98_auth_header (R := Logged R) (E := E) invalid keys method url body).
Proof.
  unfold nip98_auth_header. always_steps; apply quiet_draw; solve [apply quiet_uuid|apply quiet_timestamp].
Qed.

Lemma sign_now_ok invalid kind tags content keys (w : Logged R) e w' :
  sign_now (E := E) invalid kind tags content keys w = (Ok e, w') →
  ∃ time, e = mkNostrEvent (public_key_hex keys) time kind tags content.
Proof.
  intros (time & w1 & _ & H2)%bind_ok. exists time. unfold of_result in H2.
  injection H2 as Hs _. destruct (sign_event time kind tags content keys) eqn:Es; [|done].
  injection Hs as ->. by eapply sign_event_ok.
Qed.

Lemma nip98_auth_header_ok invalid keys method url body (w : Logged R) h w' :
  nip98_auth_header (E := E) invalid keys method url body w = (Ok h, w') →
  ∃ time nonce, h = String.append "Nostr " (base64_encode (event_as_json
    (mkNostrEvent (public_key_hex keys) time KIND_HTTP_AUTH
       [["u"; url]; ["method"; method]; ["payload"; hex_digest (sha256 (bytes_of body))];
        ["nonce"; nonce]] EmptyString))).
Proof.
  unfold nip98_auth_header. intros (nonce & w1 & _ & Hh)%bind_ok.
  rewrite !tag_parse_nonempty in Hh. cbn [map_err] in Hh.
  repeat (apply bind_ok in Hh as (? & ? & Heq & Hh); injection Heq as <- <-).
  apply bind_ok in Hh as (e & w2 & (time & ->)%sign_now_ok & Hh). injection Hh as <- _. eauto.
Qed.

Lemma nip98_auth_header_err invalid keys method url body (w : Logged R) e w' :
  nip98_auth_header (E := E) invalid keys method url body w = (Err e, w') → ∃ m, e = invalid m.
Proof.
  unfold nip98_auth_header, draw, of_result, mbind, M_bind. cbv zeta.
  destruct (draw_uuid w) as [nonce w1]. rewrite !tag_parse_nonempty. cbn [map_err].
  unfold sign_now, draw, of_result, mbind, M_bind. destruct (timestamp w1) as [time w2].
  match goal with |- context [sign_event ?a ?b ?c ?d ?k] => destruct (sign_event a b c d k) end;
    cbn; [done|]. intros [= <- <-]. eauto.
Qed.

End Exchanges.

(** ** A library for examples: texts as keys and encodings *)
Definition sample_keys : SecretKeys := {|
  SecretKey := string; Keys_parse := Some; to_secret_hex := id;
  public_key_hex := String.append "public-"
|}.
Definition sample_nostr : @NostrLib sample_keys := {|
  tag_parse := Ok;
  sign_event := λ time kind tags content keys,
    Ok (mkNostrEvent (@public_key_hex sample_keys keys) time kind tags content);
  event_as_json := ne_content; base64_encode := id; to_json := λ _, Some "text";
  events_of_json := λ text,
    Some (if String.eqb text "members"
          then [mkNostrEvent "relay" 0 13534 [["member"; "public-owner"]] ""] else []);
  strings_of_json := λ _, None;
  nip_oa_auth_tag := λ _ _ _, Err "unused"; nip_oa_parse_auth_tag := λ _, Err "unused";
  valid_public_key := λ _, true; archive_identity_request := λ _ _, Err "unused"
|}.
Lemma sample_laws : @NostrLaws sample_keys sample_nostr.
Proof. split; [done|]. intros * [= <-]. done. Qed.
