(* ===== verification/RelayProjection.v ===== *)
(** * Relay projections (relay_projection.rs)
    The events that describe managed agents and personas to a community's relay: read what
    the relay has, and publish only what differs. *)
From Stdlib Require Import ZArith Lia String Ascii.
From stdpp Require Import base gmap list strings.
From S2P Require Import Prelude RustStr Ids Lifecycle Agent Bytes Sha256 Monad Json Provider.
From S2P Require Import AgentFiles Custody Nostr.
#[local] Open Scope Z_scope.

Inductive RelayProjectionError : Type :=
| ProjectionTransport (message : string)
| ProjectionRejected (message : string)
| ProjectionInvalid (message : string).

Definition KIND_PROFILE : Z := 0.
Definition KIND_DELETE : Z := 5.
(** [buzz_core::kind]. *)
Class BuzzKinds : Type := { KIND_MANAGED_AGENT : Z; KIND_PERSONA : Z }.

(** [persona_d_tag]: over the characters of the name. *)
Definition d_tag_byte (c : ascii) : bool :=
  is_ascii_lowercase c || is_ascii_digit c || Ascii.eqb c "_" || Ascii.eqb c "-".
Definition d_tag_char (c : string) : ascii :=
  match c with
  | String a EmptyString => let a := ascii_lower a in if d_tag_byte a then a else "-"%char
  | _ => "-"%char
  end.
Definition starts_alphanumeric (s : string) : bool :=
  match s with String c _ => is_ascii_alphanumeric c | EmptyString => false end.
Definition persona_d_tag (raw : string) : string :=
  let out := String.string_of_list_ascii (map d_tag_char (chars raw)) in
  let out := if negb (starts_alphanumeric out) then String "a" out else out in
  String.substring 0 64 out.

(** ** Contents: a field that is absent is left out *)
Definition json_opt (key : string) (value : option string) : list (string * Json) :=
  match value with Some v => [(key, JString v)] | None => [] end.
Definition json_list (key : string) (values : list string) : list (string * Json) :=
  match values with [] => [] | _ :: _ => [(key, JArray (map JString values))] end.

(** [ManagedAgentEventContent] as [sync_managed_agent] fills it. *)
Definition managed_agent_content (resolved : ResolvedAgentConfig) : Json :=
  let linked := option_is_some (rac_persona_id resolved) in
  let prompt := spec_system_prompt (rac_spec resolved) in
  JObject ([("name", JString (spec_display_name (rac_spec resolved)))]
    ++ json_opt "persona_id" (rac_persona_id resolved)
    ++ json_opt "system_prompt"
         (if negb linked && negb (str_is_empty prompt) then Some prompt else None)
    ++ json_opt "model" (if negb linked then rac_model resolved else None)
    ++ json_opt "provider" (if negb linked then rac_provider resolved else None)
    ++ [("parallelism", JNumber (PosInt (rac_parallelism resolved)));
        ("respond_to", JString (RespondToMode_as_str (rac_respond_to resolved)))]
    ++ json_list "respond_to_allowlist" (rac_respond_to_allowlist resolved)).

(** [PersonaEventContent] as [sync_persona] fills it. *)
Definition persona_content (persona : PersonaDefinition) : Json :=
  JObject ([("display_name", JString (pd_display_name persona));
            ("system_prompt", JString (pd_system_prompt persona))]
    ++ json_opt "avatar_url" (pd_avatar_url persona)
    ++ json_opt "runtime" (runtime_id_str <$> pd_runtime persona)
    ++ json_opt "model" (pd_model persona)
    ++ json_opt "provider" (pd_provider persona)
    ++ json_list "name_pool" (pd_name_pool persona)
    ++ json_opt "respond_to" (RespondToMode_as_str <$> pd_respond_to persona)
    ++ json_list "respond_to_allowlist" (pd_respond_to_allowlist persona)
    ++ match pd_parallelism persona with
       | Some n => [("parallelism", JNumber (PosInt n))]
       | None => []
       end).

(** The profile, without its nulls. *)
Definition profile_content (file : AgentConfigFile) : Json :=
  JObject (("display_name", JString (acf_display_name file))
             :: json_opt "picture" (acf_avatar_url file)).

(** The filter of a query: authors, kinds, a [d] tag, one event. *)
Definition latest_filter (author : string) (kind : Z) (d_tag : option string) : Json :=
  JObject ((match d_tag with Some d => [("#d", JArray [JString d])] | None => [] end)
    ++ [("authors", JArray [JString author]); ("kinds", JArray [JNumber (PosInt kind)]);
        ("limit", JNumber (PosInt 1))]).

Definition SERIALIZATION : string := "could not serialize".

Section Projection.
Context `{NostrLib} `{BuzzKinds} {R : Type} `{Outside R}.

Definition ProjectionM (A : Type) : Type := M R RelayProjectionError A.

Definition serialized (value : Json) : ProjectionM string :=
  of_result (ok_or (ProjectionInvalid SERIALIZATION) (to_json value)).
Definition client : ProjectionM unit := M_map_err ProjectionTransport build_client.
Definition transported {A} (m : M R RequestError A) : ProjectionM A :=
  M_map_err (λ e, ProjectionTransport (re_text e)) m.
Definition parsed_tag (tag : list string) : ProjectionM (list string) :=
  of_result (map_err ProjectionInvalid (tag_parse tag)).

Definition query_latest (api_base : string) (keys : SecretKey) (filter : Json)
    : ProjectionM (option NostrEvent) :=
  let url := String.append api_base "/query" in
  body ← serialized (JArray [filter]);
  auth ← nip98_auth_header ProjectionInvalid keys "POST" url body;
  response ← transported (send_request (mkHttpRequest "POST" url
               [("Authorization", auth); ("Content-Type", "application/json")] body));
  text ← of_result (map_err ProjectionTransport (hs_text response));
  if negb (is_success (hs_status response)) then throw (ProjectionRejected text)
  else
  events ← of_result (ok_or (ProjectionInvalid "invalid events") (events_of_json text));
  mret (head events).

Definition submit_event (api_base : string) (keys : SecretKey) (event : NostrEvent)
    (auth_tag : option string) : ProjectionM unit :=
  let url := String.append api_base "/events" in
  let body := event_as_json event in
  auth ← nip98_auth_header ProjectionInvalid keys "POST" url body;
  let headers := [("Authorization", auth); ("Content-Type", "application/json")]
                   ++ match auth_tag with Some t => [("x-auth-tag", t)] | None => [] end in
  response ← transported (send_request (mkHttpRequest "POST" url headers body));
  if is_success (hs_status response) then mret tt
  else throw (ProjectionRejected (match hs_text response with Ok t => t | Err _ => EmptyString end)).

Definition has_content (content : string) (event : NostrEvent) : bool :=
  String.eqb (ne_content event) content.

Definition sync_profile (api_base : string) (owner_keys agent_keys : SecretKey)
    (file : AgentConfigFile) : ProjectionM unit :=
  content ← serialized (profile_content file);
  current ← query_latest api_base owner_keys
              (latest_filter (public_key_hex agent_keys) KIND_PROFILE None);
  if is_some_and current (has_content content) then mret tt
  else
  auth_tag ← of_result (map_err ProjectionInvalid
               (nip_oa_auth_tag owner_keys (public_key_hex agent_keys) "kind=0"));
  tag ← of_result (map_err ProjectionInvalid (nip_oa_parse_auth_tag auth_tag));
  event ← sign_now ProjectionInvalid KIND_PROFILE [tag] content agent_keys;
  submit_event api_base agent_keys event (Some auth_tag).

Definition sync_agent_profile (relay_url : Url) (owner_keys agent_keys : SecretKey)
    (file : AgentConfigFile) : ProjectionM unit :=
  _ ← client;
  sync_profile (relay_http_base_url relay_url) owner_keys agent_keys file.

Definition sync_managed_agent (api_base : string) (owner_keys agent_keys : SecretKey)
    (resolved : ResolvedAgentConfig) : ProjectionM unit :=
  content ← serialized (managed_agent_content resolved);
  let agent_pubkey := public_key_hex agent_keys in
  current ← query_latest api_base owner_keys
              (latest_filter (public_key_hex owner_keys) KIND_MANAGED_AGENT (Some agent_pubkey));
  if is_some_and current (has_content content) then mret tt
  else
  d ← parsed_tag ["d"; agent_pubkey];
  event ← sign_now ProjectionInvalid KIND_MANAGED_AGENT [d] content owner_keys;
  submit_event api_base owner_keys event None.

Definition sync_managed_agent_projection (relay_url : Url) (owner_keys agent_keys : SecretKey)
    (resolved : ResolvedAgentConfig) : ProjectionM unit :=
  _ ← client;
  sync_managed_agent (relay_http_base_url relay_url) owner_keys agent_keys resolved.

(** [tag.first() == "shared" && tag.get(1) == "true"] *)
Definition is_shared_tag (tag : list string) : bool :=
  match tag with name :: value :: _ => String.eqb name "shared" && String.eqb value "true"
               | _ => false end.
Definition persona_unchanged (content : string) (shared : bool) (event : NostrEvent) : bool :=
  has_content content event && Bool.eqb (existsb is_shared_tag (ne_tags event)) shared.

Definition sync_persona (relay_url : Url) (owner_keys : SecretKey) (persona : PersonaDefinition)
    : ProjectionM unit :=
  _ ← client;
  let api_base := relay_http_base_url relay_url in
  let d_tag := persona_d_tag (pd_id persona) in
  content ← serialized (persona_content persona);
  current ← query_latest api_base owner_keys
              (latest_filter (public_key_hex owner_keys) KIND_PERSONA (Some d_tag));
  if is_some_and current (persona_unchanged content (pd_shared persona)) then mret tt
  else
  d ← parsed_tag ["d"; d_tag];
  shared ← (if pd_shared persona then t ← parsed_tag ["shared"; "true"]; mret [t] else mret []);
  event ← sign_now ProjectionInvalid KIND_PERSONA (d :: shared) content owner_keys;
  submit_event api_base owner_keys event None.

Definition tombstone_coordinate (relay_url : Url) (owner_keys : SecretKey) (kind : Z) (d_tag : string)
    : ProjectionM unit :=
  _ ← client;
  let api_base := relay_http_base_url relay_url in
  let coordinate := String.append (show_Z kind) (String.append ":"
                      (String.append (public_key_hex owner_keys) (String.append ":" d_tag))) in
  tag ← parsed_tag ["a"; coordinate];
  event ← sign_now ProjectionInvalid KIND_DELETE [tag] EmptyString owner_keys;
  submit_event api_base owner_keys event None.

Definition tombstone_managed_agent (relay_url : Url) (owner_keys : SecretKey) (agent_pubkey : string)
    : ProjectionM unit :=
  tombstone_coordinate relay_url owner_keys KIND_MANAGED_AGENT agent_pubkey.
Definition tombstone_persona (relay_url : Url) (owner_keys : SecretKey) (persona_id : string)
    : ProjectionM unit :=
  tombstone_coordinate relay_url owner_keys KIND_PERSONA (persona_d_tag persona_id).

Definition archive_identity (relay_url : Url) (owner_keys : SecretKey) (agent_pubkey : string)
    : ProjectionM unit :=
  if negb (valid_public_key agent_pubkey) then throw (ProjectionInvalid "invalid public key")
  else
  auth_json ← of_result (map_err ProjectionInvalid
                (nip_oa_auth_tag owner_keys agent_pubkey EmptyString));
  parts ← of_result (ok_or (ProjectionInvalid "invalid auth tag") (strings_of_json auth_json));
  if negb (Nat.eqb (List.length parts) 4)
  then throw (ProjectionInvalid "archive auth tag must have four elements")
  else
  request ← of_result (map_err ProjectionInvalid (archive_identity_request agent_pubkey parts));
  let '(kind, tags, content) := request in
  event ← sign_now ProjectionInvalid kind tags content owner_keys;
  _ ← client;
  submit_event (relay_http_base_url relay_url) owner_keys event None.
End Projection.

(** ** What is exchanged with the relay *)
Definition answered `{NostrLib} (x : Exchange) (current : option NostrEvent) : Prop :=
  ∃ response text events, x.2 = Ok response ∧ is_success (hs_status response) = true
    ∧ hs_text response = Ok text ∧ events_of_json text = Some events ∧ current = head events.
Definition accepted (x : Exchange) : Prop :=
  ∃ response, x.2 = Ok response ∧ is_success (hs_status response) = true.
Definition posted `{NostrLib} (keys : SecretKey) (url body : string) (x : Exchange) : Prop :=
  hq_method x.1 = "POST" ∧ hq_url x.1 = url ∧ hq_body x.1 = body ∧ authenticated_by keys x.1.

(** A synchronisation that answers [Ok] asked the relay for its latest event and, when that
    one does not carry the projection, posted it; no other request was made. *)
Record synchronised `{NostrLib} (keys : SecretKey) (api_base : string) (filter : Json)
    (unchanged : NostrEvent → bool) (kind : Z) (tags : list (list string)) (content : string)
    (xs : list Exchange) : Prop := {
  sync_exchanges : ∃ body x current,
    to_json (JArray [filter]) = Some body
    ∧ posted keys (String.append api_base "/query") body x ∧ answered x current
    ∧ if is_some_and current unchanged then xs = [x]
      else ∃ y time, xs = [x; y] ∧ accepted y
             ∧ posted keys (String.append api_base "/events")
                 (event_as_json (mkNostrEvent (public_key_hex keys) time kind tags content)) y
}.

Section Exchanged.
Context `{NL : NostrLib} `{!NostrLaws} `{BuzzKinds} {R : Type} `{Outside R}.
Implicit Types w : Logged R.

Lemma map_err_inv {W E F A} (f : E → F) (m : M W E A) s r s' :
  M_map_err f m s = (r, s') → ∃ r0, m s = (r0, s') ∧ r = map_err f r0.
Proof. unfold M_map_err. destruct (m s) as [r0 s1]. intros [= <- <-]. eauto. Qed.

(** A step that sends nothing: it fails, or the rest follows. *)
Lemma bind_quiet {E A B} (m : M (Logged R) E A) (f : A → M (Logged R) E B) w r w' :
  always quiet m → (m ≫= f) w = (r, w') →
  (∃ e, r = Err e ∧ w'.2 = w.2) ∨ ∃ a w1, m w = (Ok a, w1) ∧ w1.2 = w.2 ∧ f a w1 = (r, w').
Proof.
  intros Hq Hb. specialize (Hq w). unfold mbind, M_bind, quiet in *.
  destruct (m w) as [[a|e] w1]; cbn in *; [right; eauto|left]. injection Hb as <- <-. eauto.
Qed.

Lemma send_logged q w r w' :
  transported (send_request q) w = (r, w') →
  ∃ x, w'.2 = w.2 ++ [(q, x)] ∧ r = map_err (λ e, ProjectionTransport (re_text e)) x.
Proof.
  destruct w as [s log]. intros (r0 & Hs & ->)%map_err_inv. cbn in Hs.
  destruct (send_request q s) as [x s1]. injection Hs as <- <-. eauto.
Qed.

Lemma quiet_serialized value : always quiet (serialized (R := Logged R) value).
Proof. apply (always_of_result quiet). Qed.
Lemma quiet_client_step : always quiet (client (R := Logged R)).
Proof. apply (always_map_err quiet), quiet_client. Qed.

Lemma authenticated_head keys method url body headers h :
  (∃ time nonce, h = String.append "Nostr " (base64_encode (event_as_json
    (mkNostrEvent (public_key_hex keys) time KIND_HTTP_AUTH
       [["u"; url]; ["method"; method]; ["payload"; hex_digest (sha256 (bytes_of body))];
        ["nonce"; nonce]] EmptyString)))) →
  authenticated_by keys (mkHttpRequest method url (("Authorization", h) :: headers) body).
Proof. intros (time & nonce & ->). exists time, nonce. left. Qed.

Lemma query_latest_log api_base keys filter w res w' :
  query_latest api_base keys filter w = (res, w') →
  (∃ e, res = Err e ∧ w'.2 = w.2)
  ∨ ∃ body x, to_json (JArray [filter]) = Some body ∧ w'.2 = w.2 ++ [x]
      ∧ posted keys (String.append api_base "/query") body x
      ∧ ∀ current, res = Ok current → answered x current.
Proof.
  unfold query_latest. cbv zeta. intros Hr.
  apply (bind_quiet _ _ _ _ _ (quiet_serialized _)) in Hr as [?|(body & w1 & Hj & Hq1 & Hr)]; [by left|].
  apply (bind_quiet _ _ _ _ _ (quiet_header _ _ _ _ _))
    in Hr as [(e & -> & Hq)|(h & w2 & Hh & Hq2 & Hr)].
  - left. exists e. split; [done|congruence].
  - apply nip98_auth_header_ok in Hh. right.
    unfold serialized, of_result in Hj. injection Hj as Hj _.
    destruct (to_json (JArray [filter])) as [b|]; [|done]. injection Hj as ->.
    unfold mbind, M_bind in Hr.
    destruct (transported _ w2) as [r3 w3] eqn:Hs. apply send_logged in Hs as (x & Hlog & ->).
    eexists body, (_, x). split; [done|].
    assert (w' = w3 ∧ ∀ current, res = Ok current →
      answered (mkHttpRequest "POST" (String.append api_base "/query")
        [("Authorization", h); ("Content-Type", "application/json")] body, x) current)
      as [-> Hans].
    { destruct x as [[status text]|e]; cbn in Hr; [|by injection Hr as <- <-].
      destruct text as [text|e]; cbn in Hr; [|by injection Hr as <- <-].
      destruct (is_success status) eqn:Es; cbn in Hr; [|by injection Hr as <- <-].
      destruct (events_of_json text) as [events|] eqn:Ee; cbn in Hr; [|by injection Hr as <- <-].
      injection Hr as <- <-. split; [done|]. intros current [= <-].
      by eexists _, text, events. }
    split_and!; [by rewrite Hlog, Hq2, Hq1|split_and!; [done..|]|exact Hans]. by apply authenticated_head.
Qed.

Lemma submit_event_log api_base keys event tag w res w' :
  submit_event api_base keys event tag w = (res, w') →
  (∃ e, res = Err e ∧ w'.2 = w.2)
  ∨ ∃ x, w'.2 = w.2 ++ [x]
      ∧ posted keys (String.append api_base "/events") (event_as_json event) x
      ∧ (res = Ok tt → accepted x).
Proof.
  unfold submit_event. cbv zeta. intros Hr.
  apply (bind_quiet _ _ _ _ _ (quiet_header _ _ _ _ _)) in Hr as [?|(h & w1 & Hh & Hq & Hr)];
    [by left|]. right. apply nip98_auth_header_ok in Hh. unfold mbind, M_bind in Hr.
  destruct (transported _ w1) as [r2 w2] eqn:Hs. apply send_logged in Hs as (x & Hlog & ->).
  eexists (_, x).
  assert (w' = w2 ∧ (res = Ok tt → ∃ response, x = Ok response
            ∧ is_success (hs_status response) = true)) as [-> Hans].
  { destruct x as [[status text]|e]; cbn in Hr; [|by injection Hr as <- <-].
    destruct (is_success status) eqn:Es; injection Hr as <- <-; [|done]. eauto. }
  split_and!; [by rewrite Hlog, Hq|split_and!; [done..|]|exact Hans].
  by apply authenticated_head.
Qed.

(** Asking, comparing, signing and posting, once the tags are there. *)
Definition sync_tail api_base keys filter unchanged kind tags content
    : M (Logged R) RelayProjectionError unit :=
  current ← query_latest api_base keys filter;
  if is_some_and current unchanged then mret tt
  else event ← sign_now ProjectionInvalid kind tags content keys;
       submit_event api_base keys event None.

Lemma sync_tail_log api_base keys filter unchanged kind tags content w res w' :
  sync_tail api_base keys filter unchanged kind tags content w = (res, w') →
  ∃ xs, w'.2 = w.2 ++ xs ∧ (List.length xs ≤ 2)%nat
    ∧ Forall (λ x, authenticated_by keys x.1) xs
    ∧ (res = Ok tt → synchronised keys api_base filter unchanged kind tags content xs).
Proof.
  unfold sync_tail, mbind, M_bind. destruct (query_latest _ _ _ w) as [rq w1] eqn:Hq.
  intros Hr. apply query_latest_log in Hq as [(e & -> & Hlog)|(body & x & Hj & Hlog & Hpost & Hans)].
  { injection Hr as <- <-. exists []. rewrite app_nil_r. split_and!; [done|cbn; lia|done|done]. }
  destruct rq as [current|e].
  2: { injection Hr as <- <-. exists [x]. split_and!; [done|cbn; lia| |done].
       constructor; [apply Hpost|done]. }
  specialize (Hans current eq_refl). destruct (is_some_and current unchanged) eqn:Eu.
  { injection Hr as <- <-. exists [x]. split_and!; [done|cbn; lia| |].
    - constructor; [apply Hpost|done].
    - intros _. constructor. exists body, x, current. by rewrite Eu. }
  destruct (sign_now _ _ _ _ _ w1) as [re w2] eqn:Hs.
  pose proof (quiet_sign ProjectionInvalid kind tags content keys w1) as Hqs.
  rewrite Hs in Hqs. cbn in Hqs. destruct re as [event|e].
  2: { injection Hr as <- <-. exists [x]. rewrite Hqs. split_and!; [done|cbn; lia| |done].
       constructor; [apply Hpost|done]. }
  apply sign_now_ok in Hs as (time & ->).
  apply submit_event_log in Hr as [(e & -> & Hl)|(y & Hl & Hpy & Hacc)].
  { exists [x]. rewrite Hl, Hqs. split_and!; [done|cbn; lia| |done].
    constructor; [apply Hpost|done]. }
  exists [x; y]. rewrite Hl, Hqs, Hlog, <- app_assoc. split_and!; [done|cbn; lia| |].
  { constructor; [apply Hpost|]. constructor; [apply Hpy|done]. }
  intros Hok. constructor. exists body, x, current. rewrite Eu. split_and!; [done..|].
  exists y, time. auto.
Qed.
(** After a client and the content, [sync_tail] remains. *)
Lemma sync_log value f api_base keys filter unchanged kind tags w res w' :
  (∀ content w1, f content w1
     = sync_tail api_base keys filter (unchanged content) kind tags content w1) →
  (_ ← client; content ← serialized value; f content) w = (res, w') →
  ∃ xs, w'.2 = w.2 ++ xs ∧ (List.length xs ≤ 2)%nat
    ∧ Forall (λ x, authenticated_by keys x.1) xs
    ∧ (res = Ok tt → ∃ content, to_json value = Some content
         ∧ synchronised keys api_base filter (unchanged content) kind tags content xs).
Proof.
  intros Hf Hr.
  assert ((∃ e, res = Err e ∧ w'.2 = w.2) →
    ∃ xs, w'.2 = w.2 ++ xs ∧ (List.length xs ≤ 2)%nat
    ∧ Forall (λ x, authenticated_by keys x.1) xs
    ∧ (res = Ok tt → ∃ content, to_json value = Some content
         ∧ synchronised keys api_base filter (unchanged content) kind tags content xs)) as Hfail.
  { intros (e & -> & Hl). exists []. rewrite app_nil_r. split_and!; [done|cbn; lia|done|done]. }
  apply (bind_quiet _ _ _ _ _ quiet_client_step) in Hr as [?|([] & w1 & _ & Hq1 & Hr)]; [by apply Hfail|].
  apply (bind_quiet _ _ _ _ _ (quiet_serialized _)) in Hr as [(e & -> & Hq)|(content & w2 & Hj & Hq2 & Hr)].
  { apply Hfail. exists e. split; [done|]. by rewrite Hq, Hq1. }
  rewrite Hf in Hr. apply sync_tail_log in Hr as (xs & Hl & Hlen & Hauth & Hok).
  exists xs. rewrite Hl, Hq2, Hq1. split_and!; [done..|]. intros Hres. exists content.
  split; [|auto]. unfold serialized, of_result in Hj. injection Hj as Hj _.
  destruct (to_json value); [by injection Hj as ->|done].
Qed.

(** Synchronising an agent's or a persona's projection makes at most two requests, all
    authenticated by the owner's key for their URL and body. When it succeeds it has asked
    the relay for the latest event under the projection's coordinate and, unless that one
    already carries the same content (and sharing, for a persona), posted exactly one event
    with that content and coordinate, signed by the owner, which the relay accepted. *)
Theorem projections_are_published_when_different relay_url owner agent resolved persona w :
  let api_base := relay_http_base_url relay_url in
  let owner_key := public_key_hex owner in
  (∀ res w', sync_managed_agent_projection relay_url owner agent resolved w = (res, w') →
   ∃ xs, w'.2 = w.2 ++ xs ∧ (List.length xs ≤ 2)%nat
     ∧ Forall (λ x, authenticated_by owner x.1) xs
     ∧ (res = Ok tt → ∃ content, to_json (managed_agent_content resolved) = Some content
          ∧ synchronised owner api_base
              (latest_filter owner_key KIND_MANAGED_AGENT (Some (public_key_hex agent)))
              (has_content content) KIND_MANAGED_AGENT [["d"; public_key_hex agent]] content xs))
  ∧ (∀ res w', sync_persona relay_url owner persona w = (res, w') →
     ∃ xs, w'.2 = w.2 ++ xs ∧ (List.length xs ≤ 2)%nat
       ∧ Forall (λ x, authenticated_by owner x.1) xs
       ∧ (res = Ok tt → ∃ content, to_json (persona_content persona) = Some content
            ∧ synchronised owner api_base
                (latest_filter owner_key KIND_PERSONA (Some (persona_d_tag (pd_id persona))))
                (persona_unchanged content (pd_shared persona)) KIND_PERSONA
                (["d"; persona_d_tag (pd_id persona)]
                   :: (if pd_shared persona then [["shared"; "true"]] else [])) content xs)).
Proof.
  cbv zeta. split; intros res w' Hr; (eapply sync_log; [|exact Hr]); intros content w1;
    unfold sync_tail, mbind, M_bind; destruct (query_latest _ _ _ w1) as [[current|e] w2];
    try done; cbv beta.
  - destruct (is_some_and _ _); [done|]. unfold parsed_tag, of_result.
    by rewrite tag_parse_nonempty.
  - destruct (is_some_and _ _); [done|]. unfold parsed_tag, of_result.
    rewrite tag_parse_nonempty. cbn [map_err]. destruct (pd_shared persona); [|done].
    by rewrite tag_parse_nonempty.
Qed.

End Exchanged.

(** ** Names of coordinates *)
Lemma chars_ascii s :
  all_bytes (in_range 0 127) s = true →
  chars s = map (λ c, String c EmptyString) (String.list_ascii_of_string s).
Proof.
  induction s as [|a s IH]; [done|]. cbn [all_bytes chars]. intros [Ha Hs]%andb_true_iff.
  rewrite (IH Hs). destruct s as [|b s]; [done|]. cbn [String.list_ascii_of_string map].
  cbn [all_bytes] in Hs. apply andb_true_iff in Hs as [Hb _].
  assert (in_range 128 191 b = false) as ->; [|done].
  unfold in_range in *. apply andb_true_iff in Hb as [_ Hb]. apply N.leb_le in Hb.
  apply andb_false_iff. left. apply N.leb_gt. lia.
Qed.

Lemma d_tag_byte_kept c : d_tag_byte c = true → d_tag_char (String c EmptyString) = c.
Proof. destruct c as [[] [] [] [] [] [] [] []]; cbn; done. Qed.
Lemma d_tag_byte_ascii c : d_tag_byte c = true → in_range 0 127 c = true.
Proof. destruct c as [[] [] [] [] [] [] [] []]; cbn; done. Qed.
Lemma d_tag_char_byte c : d_tag_byte (d_tag_char c) = true.
Proof.
  unfold d_tag_char. destruct c as [|a [|]]; try done. cbv zeta.
  destruct (d_tag_byte (ascii_lower a)) eqn:E; done.
Qed.
Lemma all_bytes_substring p n s : all_bytes p s = true → all_bytes p (String.substring 0 n s) = true.
Proof.
  revert n. induction s as [|c s IH]; intros [|n]; cbn; try done.
  intros [-> Hs]%andb_true_iff. by apply IH.
Qed.
Lemma substring_short n s : (String.length s ≤ n)%nat → String.substring 0 n s = s.
Proof. revert n. induction s as [|c s IH]; intros [|n]; cbn; try done; [lia|]. intros. rewrite IH; [done|lia]. Qed.
Lemma substring_length n s : (String.length (String.substring 0 n s) ≤ n)%nat.
Proof. revert n. induction s as [|c s IH]; intros [|n]; cbn; try lia. specialize (IH n). lia. Qed.

Definition well_formed_d_tag (s : string) : Prop :=
  starts_alphanumeric s = true ∧ all_bytes d_tag_byte s = true ∧ (String.length s ≤ 64)%nat.

Lemma d_tag_kept s : all_bytes d_tag_byte s = true →
  String.string_of_list_ascii (map d_tag_char (chars s)) = s.
Proof.
  intros Hs. rewrite chars_ascii by (eapply all_bytes_impl; [|exact Hs]; apply d_tag_byte_ascii).
  rewrite map_map. induction s as [|c s IH]; [done|]. cbn [all_bytes] in Hs.
  apply andb_true_iff in Hs as [Hc Hs].
  cbn [String.list_ascii_of_string map String.string_of_list_ascii].
  by rewrite (IH Hs), (d_tag_byte_kept c Hc).
Qed.

(** The coordinate of a persona is never empty, at most 64 bytes of [a-z0-9_-] that start
    with a letter or digit; and a name of that form, such as a UUID, is its own coordinate,
    so that normalising twice changes nothing. *)
Theorem persona_d_tag_is_normal raw :
  well_formed_d_tag (persona_d_tag raw)
  ∧ (well_formed_d_tag raw → persona_d_tag raw = raw)
  ∧ persona_d_tag (persona_d_tag raw) = persona_d_tag raw.
Proof.
  assert (∀ s, well_formed_d_tag s → persona_d_tag s = s) as Hfix.
  { intros s (Hst & Hb & Hl). unfold persona_d_tag. cbv zeta. rewrite (d_tag_kept s Hb), Hst.
    by apply substring_short. }
  assert (well_formed_d_tag (persona_d_tag raw)) as Hwf; [|by split_and!; auto].
  unfold persona_d_tag. cbv zeta. set (out := String.string_of_list_ascii _).
  assert (all_bytes d_tag_byte out = true) as Hout.
  { subst out. induction (chars raw) as [|c l IH]; cbn; [done|]. by rewrite d_tag_char_byte. }
  clearbody out. split_and!.
  - destruct (starts_alphanumeric out) eqn:Es; cbn [negb]; [|done]. by destruct out.
  - apply all_bytes_substring. by destruct (starts_alphanumeric out).
  - apply substring_length.
Qed.

(** ** A relay without events *)
#[local] Existing Instances sample_keys sample_nostr sample_laws.
#[local] Instance sample_kinds : BuzzKinds := {| KIND_MANAGED_AGENT := 30177; KIND_PERSONA := 30175 |}.
#[local] Instance sample_outside : Outside unit := {|
  build_client := mret tt;
  send_request := λ _, mret (mkHttpResponse 200 (Ok "[]"));
  draw_uuid := λ w, ("nonce", w); timestamp := λ w, (7, w)
|}.
Definition sample_relay : Url := mkUrl "wss" (Some "relay") "" None None None "wss://relay/".
Definition sample_persona : PersonaDefinition :=
  mkPersonaDefinition "_Ops" "Ops" None "prompt" None None None [] ∅ None [] None false true true.

Lemma projections_are_published_when_different_witness :
  let run := sync_persona (R := Logged unit) sample_relay "owner" sample_persona ((), []) in
  run.1 = Ok tt ∧ List.length run.2.2 = 2%nat
  ∧ ∃ content, synchronised "owner" "https://relay"
      (latest_filter "public-owner" 30175 (Some "a_ops")) (persona_unchanged content true) 30175
      [["d"; "a_ops"]; ["shared"; "true"]] content run.2.2.
Proof.
  intros run. assert (run.1 = Ok tt) as Hok by (vm_compute; reflexivity).
  split; [done|]. split; [vm_compute; reflexivity|].
  destruct (projections_are_published_when_different (NL := sample_nostr) (R := unit)
    sample_relay ("owner" : string) ("owner" : string)
    (mkResolvedAgentConfig (mkAgentSpec (mkAgentId 1) (mkCommunityConfigId 1) "a" "p"
       (mkRuntimeSpec (mkRuntimeId "r") ∅) Enabled) None None None None (mkFilesystemConfig None)
       [] 1 OwnerOnly [] None None) sample_persona ((), [])) as [_ Hp].
  destruct (Hp run.1 run.2) as (xs & Hxs & _ & _ & Hsync); [exact (surjective_pairing run)|].
  destruct (Hsync Hok) as (content & _ & Hs). exists content. cbn [snd app] in Hxs. rewrite Hxs.
  exact Hs.
Defined.
