(* ===== verification/CommunityJoin.v ===== *)
(** * Joining a community (community_join.rs)
    The community's identity key is read from custody, the relay's information document
    and, where the relay restricts membership, the membership list. *)
From Stdlib Require Import ZArith Lia String Ascii.
From stdpp Require Import base gmap list strings.
From S2P Require Import Prelude RustStr Ids Lifecycle Agent Bytes Sha256 LogCapture Monad Fs Json.
From S2P Require Import AgentFiles Custody Nostr.
#[local] Open Scope Z_scope.

(** [fs::read_to_string] *)
Definition read_to_string (path : Path) : IO string :=
  data ← read_file path;
  if is_utf8 data then mret data
  else throw (mkIoError InvalidData "stream did not contain valid UTF-8").

(** The key a community's identity is filed under: every component that needs it reads
    [<pubkey>.secret], parses it and compares the public keys. *)
Inductive IdentityError : Type := IdentityIo (e : IoError) | IdentityUnparsed | IdentityMismatch.
Definition identity_file (root : Path) (pubkey : string) : Path :=
  join root (String.append pubkey ".secret").
Definition identity_keys `{SecretKeys} (root : Path) (pubkey : string) : M Fs IdentityError SecretKey :=
  secret ← M_map_err IdentityIo (read_to_string (identity_file root pubkey));
  keys ← of_result (ok_or IdentityUnparsed (Keys_parse (trim secret)));
  if negb (eq_ignore_ascii_case (public_key_hex keys) pubkey) then throw IdentityMismatch
  else mret keys.

Inductive CommunityJoinError : Type :=
| Unreachable (message : string)
| MembershipDenied
| InvalidResponse.

Definition KIND_NIP43_MEMBERSHIP_LIST : Z := 13534.

Definition classify_request_error (error : RequestError) : CommunityJoinError :=
  if re_timeout error then Unreachable "request timed out"
  else if re_connect error then Unreachable "could not connect to relay"
  else Unreachable "network error".

Definition classify_status (status : Z) : CommunityJoinError :=
  if (status =? 401) || (status =? 403) then MembershipDenied else InvalidResponse.

Definition membership_tag (pubkey : string) (tag : list string) : bool :=
  match tag with
  | name :: candidate :: _ =>
    (String.eqb name "member" || String.eqb name "p") && eq_ignore_ascii_case candidate pubkey
  | _ => false
  end.
Definition membership_snapshot_contains (event : NostrEvent) (pubkey : string) : bool :=
  existsb (membership_tag pubkey) (ne_tags event).

Section Verify.
Context `{NostrLib} {R : Type} `{Outside R}.
(** [response.json()] into [RelayInformationDocument]: its [supported_nips]. *)
Variable info_of_json : string → option (list Z).

Definition JoinM (A : Type) : Type := M (Fs * R) CommunityJoinError A.

(** A request and its answer, when the status is a success. *)
Definition exchange (request : HttpRequest) : M R CommunityJoinError HttpResponse :=
  response ← M_map_err classify_request_error (send_request request);
  if negb (is_success (hs_status response)) then throw (classify_status (hs_status response))
  else mret response.
Definition response_json {A} (parse : string → option A) (response : HttpResponse)
    : M R CommunityJoinError A :=
  of_result (match hs_text response with
             | Ok text => ok_or InvalidResponse (parse text)
             | Err _ => Err InvalidResponse
             end).

Definition membership_filter : Json :=
  JObject [("kinds", JArray [JNumber (PosInt KIND_NIP43_MEMBERSHIP_LIST)]);
           ("limit", JNumber (PosInt 1))].

(** From the information document on. *)
Definition check_membership (keys : SecretKey) (api_base : string) : M R CommunityJoinError unit :=
  response ← exchange (mkHttpRequest "GET" (String.append api_base "/info")
               [("Accept", "application/nostr+json")] EmptyString);
  info ← response_json info_of_json response;
  if negb (existsb (Z.eqb 43) info) then mret tt
  else
  let query_url := String.append api_base "/query" in
  body ← of_result (ok_or InvalidResponse (to_json (JArray [membership_filter])));
  auth ← nip98_auth_header (λ _, InvalidResponse) keys "POST" query_url body;
  response ← exchange (mkHttpRequest "POST" query_url
               [("Authorization", auth); ("Content-Type", "application/json")] body);
  events ← response_json events_of_json response;
  match events with
  | [] => mret tt
  | snapshot :: _ =>
    if membership_snapshot_contains snapshot (public_key_hex keys) then mret tt
    else throw MembershipDenied
  end.

(** [DesktopCommunityJoinVerifier::verify] *)
Definition verify (custody_root : Path) (community : CommunityConfig) : JoinM unit :=
  pubkey ← of_result (ok_or InvalidResponse (cc_identity_pubkey community));
  keys ← on (M_map_err (λ _, InvalidResponse) (identity_keys custody_root pubkey));
  on (check_membership keys (relay_http_base_url (cc_relay_url community))).
End Verify.

(** ** The key on file *)
Section Identity.
Context `{SecretKeys}.

Definition holds_identity (root : Path) (pubkey : string) (s : Fs) (keys : SecretKey) : Prop :=
  ∃ n, leads_to s (identity_file root pubkey) n ∧ Keys_parse (trim (n_data n)) = Some keys
    ∧ eq_ignore_ascii_case (public_key_hex keys) pubkey = true.

Lemma kept_read_to_string p : always nodes_kept (read_to_string p).
Proof. unfold read_to_string. always_steps. auto with buzz. Qed.
Lemma kept_identity_keys root pubkey : always nodes_kept (identity_keys root pubkey).
Proof.
  unfold identity_keys. always_steps. apply (always_map_err nodes_kept), kept_read_to_string.
Qed.
Lemma identity_keys_ok root pubkey s keys s' :
  identity_keys root pubkey s = (Ok keys, s') → holds_identity root pubkey s keys.
Proof.
  intros (secret & s1 & Hs & Hr)%bind_ok. apply M_map_err_ok, bind_ok in Hs as (d & s2 & Hf & Hs).
  apply read_file_ok in Hf as (n & Hl & <- & _).
  destruct (is_utf8 _); [|done]. injection Hs as <- <-.
  apply bind_ok in Hr as (k & s3 & Hk & Hr). injection Hk as Hk <-.
  destruct (Keys_parse _) as [k0|] eqn:Ek; [|done]. injection Hk as ->.
  destruct (eq_ignore_ascii_case _ _) eqn:Eq; cbn in Hr; [|done]. injection Hr as <- _.
  by exists n.
Qed.
End Identity.

(** ** Who is admitted *)
Section Admission.
Context `{NL : NostrLib} `{!NostrLaws} {R : Type} `{Outside R}.
Variable info_of_json : string → option (list Z).
Implicit Types w : Logged R.

(** The answer [x] parses as [a]. *)
Definition answers {A} (parse : string → option A) (x : Exchange) (a : A) : Prop :=
  ∃ response text, x.2 = Ok response ∧ is_success (hs_status response) = true
    ∧ hs_text response = Ok text ∧ parse text = Some a.

Lemma exchange_log q w res w' :
  exchange q w = (res, w') →
  ∃ x, w'.2 = w.2 ++ [(q, x)]
    ∧ (∀ response, res = Ok response → x = Ok response ∧ is_success (hs_status response) = true)
    ∧ (res = Err MembershipDenied → ∃ response, x = Ok response
         ∧ (hs_status response = 401 ∨ hs_status response = 403)).
Proof.
  destruct w as [r log]. unfold exchange, M_map_err, mbind, M_bind. cbn [send_request logged_outside].
  destruct (send_request q r) as [x r']. intros Hr. exists x. destruct x as [response|e]; cbn in Hr.
  - destruct (is_success (hs_status response)) eqn:Es; cbn in Hr; injection Hr as <- <-.
    + split_and!; [done| |done]. by intros ? [= <-].
    + split_and!; [done|done|]. unfold classify_status. intros [= Hd]. exists response.
      split; [done|]. destruct (Z.eqb_spec (hs_status response) 401); [by left|].
      destruct (Z.eqb_spec (hs_status response) 403); [by right|done].
  - injection Hr as <- <-. split_and!; [done|done|]. unfold classify_request_error.
    by destruct (re_timeout e), (re_connect e).
Qed.

Lemma response_json_result {A} (parse : string → option A) q response w res w' :
  response_json (R := Logged R) parse response w = (res, w') →
  is_success (hs_status response) = true →
  w' = w ∧ (∀ a, res = Ok a → answers parse (q, Ok response) a) ∧ res ≠ Err MembershipDenied.
Proof.
  unfold response_json, of_result. intros [= <- <-] Hs. split; [done|].
  destruct (hs_text response) as [text|e] eqn:Et; [|done].
  destruct (parse text) as [a|] eqn:Ep; [|done]. split; [|done]. intros ? [= <-].
  by exists response, text.
Qed.

(** The relay refused: by its status, or by a list without the key. *)
Definition refused (keys : SecretKey) (x : Exchange) : Prop :=
  (∃ response, x.2 = Ok response ∧ (hs_status response = 401 ∨ hs_status response = 403))
  ∨ ∃ snapshot events, answers events_of_json x (snapshot :: events)
      ∧ membership_snapshot_contains snapshot (public_key_hex keys) = false.
(** The relay is open, keeps no list, or lists the key. *)
Definition admitted_by (keys : SecretKey) (api_base : string) (xs : list Exchange) : Prop :=
  ∃ x nips rest, xs = x :: rest ∧ hq_url x.1 = String.append api_base "/info"
    ∧ answers info_of_json x nips
    ∧ ((43 ∉ nips) ∧ rest = []
       ∨ 43 ∈ nips ∧ ∃ y events, rest = [y] ∧ hq_url y.1 = String.append api_base "/query"
           ∧ authenticated_by keys y.1 ∧ answers events_of_json y events
           ∧ (events = [] ∨ ∃ snapshot others, events = snapshot :: others
                ∧ membership_snapshot_contains snapshot (public_key_hex keys) = true)).

Lemma nips_43 nips : existsb (Z.eqb 43) nips = true ↔ 43 ∈ nips.
Proof.
  rewrite existsb_exists, list_elem_of_In. split; [|by exists 43].
  by intros (n & Hin & ->%Z.eqb_eq).
Qed.

(** The membership list is asked for with the community's own key. *)
Definition query_list (keys : SecretKey) (query_url : string) : M (Logged R) CommunityJoinError unit :=
  body ← of_result (ok_or InvalidResponse (to_json (JArray [membership_filter])));
  auth ← nip98_auth_header (λ _, InvalidResponse) keys "POST" query_url body;
  response ← exchange (mkHttpRequest "POST" query_url
               [("Authorization", auth); ("Content-Type", "application/json")] body);
  events ← response_json events_of_json response;
  match events with
  | [] => mret tt
  | snapshot :: _ =>
    if membership_snapshot_contains snapshot (public_key_hex keys) then mret tt
    else throw MembershipDenied
  end.

Lemma query_list_log keys url w res w' :
  query_list keys url w = (res, w') →
  ∃ xs, w'.2 = w.2 ++ xs
    ∧ (res = Ok tt → ∃ y events, xs = [y] ∧ hq_url y.1 = url ∧ authenticated_by keys y.1
         ∧ answers events_of_json y events
         ∧ (events = [] ∨ ∃ snapshot others, events = snapshot :: others
              ∧ membership_snapshot_contains snapshot (public_key_hex keys) = true))
    ∧ (res = Err MembershipDenied → ∃ y, xs = [y] ∧ refused keys y).
Proof.
  unfold query_list, mbind, M_bind, of_result at 1.
  destruct (to_json _) as [body|]; cbn [ok_or].
  2: { intros [= <- <-]. exists []. by rewrite app_nil_r. }
  pose proof (quiet_header (λ _, InvalidResponse) keys "POST" url body w) as Hq.
  destruct (nip98_auth_header _ keys "POST" url body w) as [[h|e] w1] eqn:Eh; cbn in Hq.
  2: { intros [= <- <-]. exists []. rewrite Hq, app_nil_r. split_and!; [done..|]. intros [= ->].
       by apply nip98_auth_header_err in Eh as [? [=]]. }
  apply nip98_auth_header_ok in Eh.
  set (q := mkHttpRequest _ _ _ _). assert (authenticated_by keys q) as Hauth.
  { destruct Eh as (time & nonce & ->). exists time, nonce. left. }
  assert (hq_url q = url) as Hurl by done. clearbody q. clear Eh.
  destruct (exchange q w1) as [rx w2] eqn:Ex.
  apply exchange_log in Ex as (x & Hlog & Hok & Hden). rewrite Hq in Hlog.
  destruct rx as [response|e].
  2: { intros [= <- <-]. exists [(q, x)]. split_and!; [done|done|]. intros [= ->].
       eexists. split; [done|]. left. by apply Hden. }
  destruct (Hok response eq_refl) as [-> Hs]. clear Hok Hden.
  destruct (response_json events_of_json response w2) as [re w3] eqn:Ej.
  destruct (response_json_result events_of_json q response w2 re w3 Ej Hs) as (-> & Hans & Hnd).
  intros Hr. exists [(q, Ok response)].
  destruct re as [[|snapshot others]|e]; cbn in Hr.
  - injection Hr as <- <-. split_and!; [done| |done]. intros _.
    exists (q, Ok response), []. split_and!; auto.
  - specialize (Hans _ eq_refl).
    destruct (membership_snapshot_contains _ _) eqn:Em; injection Hr as <- <-;
      (split_and!; [done| |]); try done; intros _.
    + exists (q, Ok response), (snapshot :: others). split_and!; eauto.
    + eexists. split; [done|]. right. by exists snapshot, others.
  - injection Hr as <- <-. split_and!; [done|done|]. intros [= ->]. done.
Qed.

Lemma check_membership_log keys api_base w res w' :
  check_membership info_of_json keys api_base w = (res, w') →
  ∃ xs, w'.2 = w.2 ++ xs
    ∧ (res = Ok tt → admitted_by keys api_base xs)
    ∧ (res = Err MembershipDenied → ∃ xs' y, xs = xs' ++ [y] ∧ refused keys y).
Proof.
  unfold check_membership. cbv zeta. fold (query_list keys (String.append api_base "/query")).
  unfold mbind, M_bind. set (q := mkHttpRequest "GET" _ _ _).
  assert (hq_url q = String.append api_base "/info") as Hurl by done. clearbody q.
  destruct (exchange q w) as [rx w1] eqn:Ex. apply exchange_log in Ex as (x & Hlog & Hok & Hden).
  destruct rx as [response|e].
  2: { intros [= <- <-]. exists [(q, x)]. split_and!; [done|done|]. intros [= ->].
       eexists [], _. split; [done|]. left. by apply Hden. }
  destruct (Hok response eq_refl) as [-> Hs]. clear Hok Hden.
  destruct (response_json info_of_json response w1) as [re w2] eqn:Ej.
  destruct (response_json_result info_of_json q response w1 re w2 Ej Hs) as (-> & Hans & Hnd).
  destruct re as [nips|e].
  2: { intros [= <- <-]. exists [(q, Ok response)]. split_and!; [done|done|]. by intros [= ->]. }
  specialize (Hans nips eq_refl). destruct (existsb (Z.eqb 43) nips) eqn:E43; cbn [negb].
  - apply nips_43 in E43. intros Hr.
    apply (query_list_log keys (String.append api_base "/query")) in Hr as (xs & Hl & Hyes & Hno).
    exists ((q, Ok response) :: xs). rewrite Hl, Hlog, <- app_assoc. split_and!; [done| |].
    + intros (y & events & -> & Hu & Ha & He & Hm)%Hyes.
      exists (q, Ok response), nips, [y]. split_and!; [done..|]. right. split; [done|].
      exists y, events. auto.
    + intros (y & -> & Href)%Hno. by exists [(q, Ok response)], y.
  - intros [= <- <-]. exists [(q, Ok response)]. split_and!; [done| |done]. intros _.
    exists (q, Ok response), nips, []. split_and!; [done..|]. left. split; [|done].
    rewrite <- nips_43. by rewrite E43.
Qed.

(** A community join that is verified was checked with the identity key on file for the
    community, whose public key is the one the community names: the relay answered its
    information document without NIP-43, or answered the membership query, sent with that
    key, with no list or with a list that names the key. A join is denied only on a 401 or
    403 or by a list that does not name the key. Nothing in the file system changes. *)
Theorem joins_follow_the_membership_list root community s w res s' w' :
  verify info_of_json root community (s, w) = (res, (s', w')) →
  fs_nodes s' = fs_nodes s
  ∧ ∃ xs, w'.2 = w.2 ++ xs
    ∧ (res = Ok tt → ∃ pubkey keys, cc_identity_pubkey community = Some pubkey
         ∧ holds_identity root pubkey s keys
         ∧ admitted_by keys (relay_http_base_url (cc_relay_url community)) xs)
    ∧ (res = Err MembershipDenied → ∃ pubkey keys xs' y, cc_identity_pubkey community = Some pubkey
         ∧ holds_identity root pubkey s keys ∧ xs = xs' ++ [y] ∧ refused keys y).
Proof.
  unfold verify, on, mbind, M_bind, of_result. cbn [part set_part has_fst has_snd fst snd].
  destruct (cc_identity_pubkey community) as [pubkey|]; cbn [ok_or].
  2: { intros [= <- <- <-]. split; [done|]. exists []. by rewrite app_nil_r. }
  pose proof (kept_identity_keys root pubkey s) as Hk. unfold M_map_err.
  destruct (identity_keys root pubkey s) as [[keys|e] s1] eqn:Ek; cbn in Hk |- *.
  2: { intros [= <- <- <-]. split; [done|]. exists []. by rewrite app_nil_r. }
  apply identity_keys_ok in Ek. destruct (check_membership _ _ _ w) as [r w1] eqn:Ec.
  intros [= <- <- <-]. split; [done|]. apply check_membership_log in Ec as (xs & Hl & Hyes & Hno).
  exists xs. split_and!; [done| |].
  - intros Hok. exists pubkey, keys. auto.
  - intros (xs' & y & -> & Hr)%Hno. exists pubkey, keys, xs', y. auto.
Qed.
End Admission.

(** ** A relay with a membership list *)
#[local] Existing Instances sample_keys sample_nostr sample_laws.
#[local] Instance member_relay : Outside unit := {|
  build_client := mret tt;
  send_request := λ q, mret (mkHttpResponse 200
    (Ok (if String.eqb (hq_method q) "GET" then "info" else "members")));
  draw_uuid := λ w, ("nonce", w); timestamp := λ w, (7, w)
|}.
Definition sample_community : CommunityConfig :=
  mkCommunityConfig (mkCommunityConfigId 1) "team"
    (mkUrl "wss" (Some "relay") "" None None None "wss://relay/") (Some "public-owner").
Definition identity_root : Path := mkPath true ["ids"].
Definition identity_fs : Fs :=
  mkFs {[ identity_file identity_root "public-owner" := mkNode RegularFile 384 0 "owner" ]} [] 0.

Lemma joins_follow_the_membership_list_witness :
  let run := verify (R := Logged unit) (λ _, Some [1; 43]) identity_root sample_community
               (identity_fs, ((), [])) in
  run.1 = Ok tt
  ∧ ∃ keys : string, admitted_by (H := sample_keys) (λ _, Some [1; 43]) keys "https://relay" run.2.2.2
      ∧ holds_identity identity_root "public-owner" identity_fs keys.
Proof.
  intros run. assert (run.1 = Ok tt) as Hok by (vm_compute; reflexivity). split; [done|].
  destruct run as [res [s' w']] eqn:Er. cbn [fst snd] in *.
  destruct (joins_follow_the_membership_list (NL := sample_nostr) (R := unit) (λ _, Some [1; 43])
    identity_root sample_community identity_fs ((), []) res s' w' Er) as (_ & xs & Hxs & Hyes & _).
  destruct (Hyes Hok) as (pubkey & keys & Hp & Hh & Ha). injection Hp as <-.
  exists keys. split; [|done]. cbn [snd app] in Hxs. rewrite Hxs. exact Ha.
Defined.
