(* ===== verification/Daemon.v ===== *)
(** * The daemon's configuration and accounts (main.rs)
    Arguments, configuration checks, Unix accounts, the directories of an agent, the
    secrets of a launch and the environment its resolved configuration adds. *)
From Stdlib Require Import ZArith Lia String Ascii Sorted.
From stdpp Require Import base gmap list strings sorting.
From S2P Require Import Prelude RustStr Ids Lifecycle Agent Runtime Launch Auth ApiTypes Schema.
From S2P Require Import Diagnostics Bytes Sha256 Monad Application Fs Reconcile Signer.
From S2P Require Import AgentFiles Custody CommunityJoin.
#[local] Open Scope Z_scope.

Inductive DaemonError : Type :=
| Usage
| InvalidConfig (message : string)
| InvalidOwnerSecret
| Task (message : string)
| DaemonIo (e : IoError)
| DaemonJson
| DaemonStorage (e : StorageError)
| DaemonAgentFile (e : AgentFileError)
| DaemonCatalog (e : CatalogError)
| DaemonLaunch (e : LaunchResolutionError)
| DaemonSupervisor (e : SupervisorError)
| DaemonReconcile (e : ReconcileError)
| DaemonApplication (e : ApplicationError)
| DaemonSigner (e : SignerError)
| DaemonCustody (e : CustodyError).

(** ** Configuration *)
Record TlsApiConfig : Type := mkTlsApiConfig {
  tls_address : string; tls_certificate_pem : Path; tls_private_key_pem : Path;
  tls_canonical_origin : string; tls_administrator_pubkeys : list string;
  tls_draft_submitter_pubkeys : list string; tls_freshness_seconds : Z
}.
Record LifecycleApiConfig : Type := mkLifecycleApiConfig {
  la_unix_socket : Path; la_administrator_uids : list Z; la_draft_submitter_uids : list Z;
  la_retention_seconds : Z; la_tls : option TlsApiConfig
}.
Definition default_lifecycle_api : LifecycleApiConfig :=
  mkLifecycleApiConfig (path_of_string "/run/buzz-server/lifecycle.sock") [0] []
    DEFAULT_RETENTION_SECONDS None.

Record DaemonConfig : Type := mkDaemonConfig {
  dc_state_database : Path;
  dc_log_directory : Path;
  dc_working_directory : Path;
  dc_kms_key_id : option string;
  dc_default_filesystem : FilesystemConfig;
  dc_signer_conditions : string;
  dc_runtime_catalog : list RuntimeCatalogEntry;
  dc_harness : ExecutableIdentity;
  dc_harness_arguments : list string;
  dc_restart : RestartPolicy;
  dc_health : HealthPolicy;
  dc_lifecycle_api : LifecycleApiConfig
}.

(** [path.starts_with(root)]: by components. *)
Definition starts_with_path (root p : Path) : bool :=
  Bool.eqb (p_absolute p) (p_absolute root)
  && bool_decide (p_components root `prefix_of` p_components p).

Definition STATE_ROOT : Path := path_of_string "/var/lib/buzz-server".
Definition LOG_ROOT : Path := path_of_string "/var/log/buzz-server".

Definition tls_incomplete (tls : TlsApiConfig) : bool :=
  str_is_empty (trim (tls_canonical_origin tls))
  || bool_decide (tls_administrator_pubkeys tls = [])
  || (tls_freshness_seconds tls =? 0)
  || negb (p_absolute (tls_certificate_pem tls))
  || negb (p_absolute (tls_private_key_pem tls)).

Definition DaemonConfig_validate (self : DaemonConfig) : result DaemonError unit :=
  let api := dc_lifecycle_api self in
  let? _ := map_err DaemonCatalog (RuntimeCatalog_validate (dc_runtime_catalog self)) in
  ensure negb (is_some_and (dc_kms_key_id self) (λ value, str_is_empty (trim value)))
  else InvalidConfig "identity_custody.kms_key_id must not be empty" in
  let? _ := map_err (λ e, InvalidConfig (ValidationError_to_string e))
              (FilesystemConfig_validate (dc_default_filesystem self)) in
  let? _ := for_each (λ path, ensure p_absolute path
                              else InvalidConfig "all daemon paths must be absolute" in Ok tt)
              [dc_state_database self; dc_log_directory self; dc_working_directory self;
               la_unix_socket api] in
  ensure negb (la_retention_seconds api <? 0)
  else InvalidConfig "lifecycle_api.retention_seconds must not be negative" in
  ensure negb (bool_decide (la_administrator_uids api = []))
  else InvalidConfig "lifecycle_api requires at least one administrator UID" in
  let? _ := (match la_tls api with
             | Some tls => ensure negb (tls_incomplete tls)
                           else InvalidConfig "lifecycle_api TLS configuration is incomplete" in Ok tt
             | None => Ok tt
             end) in
  for_each (λ '(field, path, root, shown),
      ensure starts_with_path root path
      else InvalidConfig (String.append field (String.append " must remain inside "
             (String.append shown " under the packaged systemd sandbox"))) in Ok tt)
    [("state_database", dc_state_database self, STATE_ROOT, "/var/lib/buzz-server");
     ("log_directory", dc_log_directory self, LOG_ROOT, "/var/log/buzz-server");
     ("working_directory", dc_working_directory self, STATE_ROOT, "/var/lib/buzz-server")].

Definition MAX_CONFIG_BYTES : Z := 1024 * 1024.

(** [DaemonConfig::load], for any decoding of the file. *)
Definition DaemonConfig_load (decode : string → option DaemonConfig) (path : Path)
    : M Fs DaemonError DaemonConfig :=
  node ← M_map_err DaemonIo (metadata path);
  if len (n_data node) >? MAX_CONFIG_BYTES then throw (InvalidConfig "config exceeds 1 MiB")
  else
  text ← M_map_err DaemonIo (read_file path);
  config ← of_result (ok_or DaemonJson (decode text));
  _ ← of_result (DaemonConfig_validate config);
  mret config.

(** [parse_args_from] *)
Definition parse_args_from (arguments : list string) : result DaemonError (Path * bool) :=
  match arguments with
  | [] => Err Usage
  | value :: arguments =>
    let? check_only := (if String.eqb value "--check-config" then Ok true
                        else if String.eqb value "--config" then Ok false else Err Usage) in
    match arguments with
    | [path] => Ok (path_of_string path, check_only)
    | _ => Err Usage
    end
  end.

(** ** Accounts *)
Definition AGENT_GROUP : string := "buzz-agent".
Definition DEFAULT_AGENT_USER : string := "buzz-agent".
Definition PASSWD : Path := path_of_string "/etc/passwd".
Definition GROUPS : Path := path_of_string "/etc/group".

Definition AccountM (A : Type) : Type := M Fs DaemonError A.
Definition account_file (path : Path) : AccountM string := M_map_err DaemonIo (read_to_string path).
Definition does_not_exist (what name : string) : DaemonError :=
  InvalidConfig (String.append what (String.append name " does not exist")).

(** The first line that names the account and has enough fields. *)
Fixpoint find_entry (name : string) (min_fields : nat) (lines : list string) : option (list string) :=
  match lines with
  | [] => None
  | line :: lines =>
    let fields := split_char ":" line in
    if bool_decide (head fields = Some name) && (min_fields <=? List.length fields)%nat
    then Some fields else find_entry name min_fields lines
  end.
Definition nth_field (n : nat) (fields : list string) : string := nth n fields EmptyString.
Definition parsed_id (what : string) (text : string) : result DaemonError Z :=
  ok_or (InvalidConfig what) (parse_u32 text).

Definition resolve_user_in (passwd name : string) : result DaemonError (Z * Z) :=
  match find_entry name 4 (str_lines passwd) with
  | None => Err (does_not_exist "runtime user " name)
  | Some fields =>
    let? uid := parsed_id "runtime user has invalid uid" (nth_field 2 fields) in
    let? gid := parsed_id "runtime user has invalid gid" (nth_field 3 fields) in
    Ok (uid, gid)
  end.
Definition resolve_user (name : string) : AccountM (Z * Z) :=
  passwd ← account_file PASSWD; of_result (resolve_user_in passwd name).

Definition resolve_user_home (name : string) : AccountM Path :=
  passwd ← account_file PASSWD;
  of_result (match find_entry name 6 (str_lines passwd) with
             | None => Err (does_not_exist "runtime user " name)
             | Some fields =>
               let home := nth_field 5 fields in
               if starts_with "/" home && negb (str_is_empty home) then Ok (path_of_string home)
               else Err (InvalidConfig "runtime user has invalid home directory")
             end).

Definition resolve_group (name : string) : AccountM Z :=
  groups ← account_file GROUPS;
  of_result (match find_entry name 3 (str_lines groups) with
             | None => Err (does_not_exist "required group " name)
             | Some fields => parsed_id "group has invalid gid" (nth_field 2 fields)
             end).

(** [fields[3].split(',').any(|member| member == user)] *)
Definition lists_member (user : string) (fields : list string) : bool :=
  bool_decide (user ∈ split_char "," (nth_field 3 fields)).

Definition user_in_group (user : string) (user_gid : Z) (group : string) : AccountM bool :=
  groups ← account_file GROUPS;
  of_result (match find_entry group 4 (str_lines groups) with
             | None => Err (does_not_exist "required group " group)
             | Some fields =>
               let? group_gid := parsed_id "group has invalid gid" (nth_field 2 fields) in
               Ok ((user_gid =? group_gid) || lists_member user fields)
             end).

(** The groups that list the user, after the primary one, without repetition, sorted. *)
Fixpoint collect_groups (user : string) (lines : list string) (gids : list Z)
    : result DaemonError (list Z) :=
  match lines with
  | [] => Ok gids
  | line :: lines =>
    let fields := split_char ":" line in
    if (4 <=? List.length fields)%nat && lists_member user fields then
      let? gid := parsed_id "group has invalid gid" (nth_field 2 fields) in
      collect_groups user lines (if bool_decide (gid ∈ gids) then gids else gids ++ [gid])
    else collect_groups user lines gids
  end.
Definition resolve_user_groups (user : string) (primary_gid : Z) : AccountM (list Z) :=
  groups ← account_file GROUPS;
  gids ← of_result (collect_groups user (str_lines groups) [primary_gid]);
  mret (sort_by Z.leb gids).

Definition selected_agent_user (configured_user default_user : option string) : string :=
  match configured_user with
  | Some user => user
  | None => default DEFAULT_AGENT_USER default_user
  end.

Definition ensure_agent_user (configured_user default_user : option string)
    : AccountM (string * (Z * Z) * Path) :=
  let user := selected_agent_user configured_user default_user in
  identity ← M_map_err (λ _, does_not_exist "filesystem user " user) (resolve_user user);
  agent_gid ← resolve_group AGENT_GROUP;
  member ← user_in_group user identity.2 AGENT_GROUP;
  if negb member
  then throw (InvalidConfig (String.append "filesystem user " (String.append user
                (String.append " must already belong to " AGENT_GROUP))))
  else
  home ← resolve_user_home user;
  mret (user, (identity.1, agent_gid), home).

(** ** Names, paths and secrets *)
Definition env_name_start (c : ascii) : bool := is_ascii_uppercase c || Ascii.eqb c "_".
Definition env_name_char (c : ascii) : bool := env_name_start c || is_ascii_digit c.
Definition valid_env_name (name : string) : bool :=
  match name with String c rest => env_name_start c && all_bytes env_name_char rest
                | EmptyString => false end.

(** A path as text. *)
Definition path_text (p : Path) : string :=
  String.append (if p_absolute p then "/" else "") (join_with "/" (p_components p)).
Definition path_string (p : Path) : result DaemonError string :=
  if is_utf8 (path_text p) then Ok (path_text p) else Err (InvalidConfig "paths must be UTF-8").

Definition secret_generation (value : string) : string :=
  String.append "sha256:" (hex_digest (sha256 (bytes_of value))).

Definition INTERNAL_AUTHORIZATION_REFERENCE : string := "internal:signer-issued-authorization".
Definition INTERNAL_AGENT_KEY_REFERENCE : string := "internal:custodied-agent-private-key".

Record EnvironmentSecrets : Type := mkEnvironmentSecrets {
  es_authorization : string; es_agent_private_key : option string
}.
(** [SecretResolver::resolve]; [var] is the daemon's environment. *)
Definition resolve_secret (var : string → option string) (self : EnvironmentSecrets)
    (reference : SecretRef) : result SupervisorError string :=
  if String.eqb (sref_key reference) INTERNAL_AUTHORIZATION_REFERENCE
  then Ok (es_authorization self)
  else if String.eqb (sref_key reference) INTERNAL_AGENT_KEY_REFERENCE
  then ok_or SecretResolution (es_agent_private_key self)
  else ensure valid_env_name (sref_key reference) else SecretResolution in
  ok_or SecretResolution (var (sref_key reference)).

Section Layout.
Context `{UuidLib}.
Record AgentFilesystemLayout : Type := mkLayout {
  lay_receipt : Path; lay_workspace : Path; lay_runtime : Path; lay_launch_id : string
}.
Definition state_parent (config : DaemonConfig) : result DaemonError Path :=
  ok_or (InvalidConfig "state database has no parent") (parent (dc_state_database config)).
Definition agent_state_root (state : Path) (agent_id : AgentId) : Path :=
  join (join state "agents") (AgentId_to_string agent_id).
Definition launch_id_of (agent_id : AgentId) : string :=
  String.append "agent-" (AgentId_to_string agent_id).
Definition dynamic_agent_layout (config : DaemonConfig) (agent_id : AgentId)
    : result DaemonError AgentFilesystemLayout :=
  let? state := state_parent config in
  let state_root := agent_state_root state agent_id in
  Ok (mkLayout (join state_root "process-receipt.json") (join state_root "workspace")
        (join state_root "runtime") (launch_id_of agent_id)).
End Layout.

(** ** The environment of a launch *)
Definition apply_acp_pool_environment (environment : gmap string string) (parallelism : Z)
    : gmap string string :=
  <["BUZZ_ACP_LAZY_POOL" := "true"]> (<["BUZZ_ACP_AGENTS" := show_Z parallelism]> environment).

Definition insert_some (key : string) (value : option string) (env : gmap string string)
    : gmap string string :=
  match value with Some v => <[key := v]> env | None => env end.
(** [environment.entry(key).or_insert_with(..)] *)
Definition entry_or_insert (key value : string) (env : gmap string string) : gmap string string :=
  match env !! key with Some _ => env | None => <[key := value]> env end.

Definition with_launch (arguments : list string) (env : gmap string string) (l : LaunchSpec)
    : LaunchSpec :=
  mkLaunchSpec (ls_launch_id l) (ls_agent_id l) (ls_role l) (ls_harness l) (ls_harness_arguments l)
    (mkResolvedRuntime (rr_runtime_id (ls_runtime l)) (rr_executable (ls_runtime l)) arguments
       (rr_preflight (ls_runtime l)))
    env (ls_secret_environment l) (ls_working_directory l) (ls_workspace_path l)
    (ls_runtime_path l) (ls_process_group_id l) (ls_restart l) (ls_health l).

Definition resolved_environment (resolved : ResolvedAgentConfig) (env : gmap string string)
    : gmap string string :=
  let env := <["BUZZ_ACP_DISPLAY_NAME" := spec_display_name (rac_spec resolved)]> env in
  let prompt := spec_system_prompt (rac_spec resolved) in
  let env := if negb (str_is_empty prompt) then <["BUZZ_ACP_SYSTEM_PROMPT" := prompt]> env else env in
  let env := apply_acp_pool_environment env (rac_parallelism resolved) in
  let env := <["BUZZ_ACP_RESPOND_TO" := RespondToMode_as_str (rac_respond_to resolved)]> env in
  let env := (match rac_respond_to_allowlist resolved with
              | [] => env
              | allowlist => <["BUZZ_ACP_RESPOND_TO_ALLOWLIST" := join_with "," allowlist]> env
              end) in
  let env := insert_some "BUZZ_ACP_IDLE_TIMEOUT" (show_Z <$> rac_idle_timeout_seconds resolved) env in
  let env := insert_some "BUZZ_ACP_MAX_TURN_DURATION"
               (show_Z <$> rac_max_turn_duration_seconds resolved) env in
  let env := (match rac_model resolved with
              | Some value =>
                entry_or_insert "BUZZ_AGENT_MODEL" value (<["BUZZ_ACP_MODEL" := value]> env)
              | None => env
              end) in
  match rac_provider resolved with
  | Some value => entry_or_insert "BUZZ_AGENT_PROVIDER" value env
  | None => env
  end.
Definition apply_resolved_agent_environment (resolved : ResolvedAgentConfig) (launch : LaunchSpec)
    : LaunchSpec :=
  with_launch
    (match rac_agent_args resolved with [] => rr_arguments (ls_runtime launch) | args => args end)
    (resolved_environment resolved (ls_environment launch)) launch.

(** ** Errors and operations between components *)
Definition agent_file_application_error (error : AgentFileError) : ApplicationError :=
  match error with
  | FileValidation error => AppInvalid error
  | PersonaNotFound _ => AppNotFound
  | PersonaReferenced persona_id agents =>
    AppConflict (String.append "persona " (String.append persona_id
      (String.append " is still used by agents " (String.append agents "; purge those agents first"))))
  | RuntimeRequired id =>
    AppInvalid (mkValidationError "runtime_id"
      (String.append "persona " (String.append id " has no runtime; provide --runtime")))
  | StandaloneRuntimeRequired =>
    AppInvalid (mkValidationError "runtime_id" "is required when no persona is selected")
  | SystemPromptFile path message =>
    AppInvalid (mkValidationError "system_prompt_file"
      (String.append path (String.append ": " message)))
  | _ => AppInternal
  end.

Definition store_operation (resource : OperationResource) : DurableOperation :=
  mkDurableOperation (or_id resource) (or_kind resource) (or_status resource) (or_agent_id resource)
    (or_error_code resource) (or_created_at resource) (or_updated_at resource)
    (or_correlation_id resource).

(** ** Lemmas *)
Lemma account_file_ok path s text s' :
  account_file path s = (Ok text, s') →
  nodes_kept s s' ∧ ∃ n, leads_to s path n ∧ n_data n = text.
Proof.
  intros Hr. pose proof (kept_read_to_string path s) as Hk. apply M_map_err_ok in Hr.
  rewrite Hr in Hk. split; [done|]. apply bind_ok in Hr as (d & s1 & Hf & Hr).
  apply read_file_ok in Hf as (n & Hl & <- & _). destruct (is_utf8 _); [|done].
  injection Hr as <- _. eauto.
Qed.
Lemma account_file_text path s s' text text' t t' :
  account_file path s = (Ok text, s') → account_file path t = (Ok text', t') →
  nodes_kept s t → text' = text.
Proof.
  intros (_ & n & Hl & <-)%account_file_ok (_ & n' & Hl' & <-)%account_file_ok Hk.
  apply (leads_to_kept s t) in Hl'; [|done]. unfold leads_to in *. congruence.
Qed.

(** The line of [/etc/group] that makes [user] a member of [gid]. *)
Definition member_line (user : string) (gid : Z) (line : string) : Prop :=
  let fields := split_char ":" line in
  (4 ≤ List.length fields)%nat ∧ lists_member user fields = true
  ∧ parse_u32 (nth_field 2 fields) = Some gid.

Lemma collect_groups_ok user lines gids gids' :
  NoDup gids → collect_groups user lines gids = Ok gids' →
  NoDup gids' ∧ ∀ g, g ∈ gids' ↔ g ∈ gids ∨ ∃ line, line ∈ lines ∧ member_line user g line.
Proof.
  revert gids. induction lines as [|line lines IH]; intros gids Hnd Hr; cbn [collect_groups] in Hr; cbv zeta in Hr.
  { injection Hr as <-. split; [done|]. intros g. split; [by left|].
    intros [?|(line & Hl & _)]; [done|]. by apply not_elem_of_nil in Hl. }
  destruct (_ && _) eqn:Ec.
  - apply andb_true_iff in Ec as [Hlen Hmem]. apply Nat.leb_le in Hlen. unfold parsed_id in Hr.
    destruct (parse_u32 _) as [gid|] eqn:Eg; cbn in Hr; [|done].
    set (next := if bool_decide (gid ∈ gids) then gids else gids ++ [gid]) in Hr.
    assert (NoDup next ∧ ∀ g, g ∈ next ↔ g ∈ gids ∨ g = gid) as [Hnd' Hnext].
    { subst next. case_bool_decide as Hin.
      - split; [done|]. intros g. split; [by left|]. by intros [?| ->].
      - split; [|intros g; by rewrite elem_of_app, list_elem_of_singleton].
        apply NoDup_app. split_and!; [done| |apply NoDup_singleton].
        intros g Hg ->%list_elem_of_singleton. done. }
    destruct (IH next Hnd' Hr) as [Hres Hin]. split; [done|]. intros g. rewrite Hin, Hnext.
    split.
    + intros [[?| ->]|(l & Hl & Hm)]; [by left| |]; right.
      * exists line. split; [left|]. done.
      * exists l. split; [by right|done].
    + intros [?|(l & [->|Hl]%elem_of_cons & Hm)]; [by left; left| |right; eauto].
      destruct Hm as (_ & _ & Hg). left. right. congruence.
  - destruct (IH gids Hnd Hr) as [Hres Hin]. split; [done|]. intros g. rewrite Hin.
    split; (intros [?|(l & Hl & Hm)]; [by left|]); right.
    + exists l. split; [by right|done].
    + apply elem_of_cons in Hl as [->|Hl]; [|eauto]. exfalso. destruct Hm as (Hlen & Hmem & _).
      apply Nat.leb_le in Hlen. by rewrite Hlen, Hmem in Ec.
Qed.

(** The supplementary groups of an agent's process are exactly its primary group and the
    groups that list the user, each once, in increasing order. *)
Theorem agent_groups_are_exact user gid s gids s' :
  resolve_user_groups user gid s = (Ok gids, s') →
  StronglySorted Z.lt gids
  ∧ ∃ text, account_file GROUPS s = (Ok text, s')
    ∧ ∀ g, g ∈ gids ↔ g = gid ∨ ∃ line, line ∈ str_lines text ∧ member_line user g line.
Proof.
  intros (text & s1 & Ht & Hr)%bind_ok. apply bind_ok in Hr as (gs & s2 & Hc & Hr).
  injection Hc as Hc <-. injection Hr as <- <-.
  apply collect_groups_ok in Hc as [Hnd Hin]; [|apply NoDup_singleton]. split.
  - assert (StronglySorted (λ a b, Z.leb a b = true) (sort_by Z.leb gs)) as Hs.
    { assert (Transitive (λ a b, Z.leb a b = true)) by (intros a b c; rewrite !Z.leb_le; lia).
      assert (Total (λ a b, Z.leb a b = true)) by (intros a b; rewrite !Z.leb_le; lia).
      apply (StronglySorted_merge_sort (λ a b, Z.leb a b = true)). }
    rewrite <- (sort_by_perm Z.leb gs) in Hnd. revert Hs Hnd. generalize (sort_by Z.leb gs).
    induction l as [|g l IH]; [constructor|]. intros [Hs Hf]%StronglySorted_inv [Hg Hl]%NoDup_cons.
    constructor; [auto|]. apply Forall_forall. intros x Hx. rewrite Forall_forall in Hf.
    apply Hf in Hx as Hle. apply Z.leb_le in Hle. assert (x ≠ g) by (intros ->; done). lia.
  - exists text. split; [done|]. intros g. rewrite elem_of_sort_by, Hin.
    by rewrite list_elem_of_singleton.
Qed.

(** An agent's process runs under an account of [/etc/passwd] that belongs to the agents'
    group, and with that group. *)
Theorem agent_account_belongs_to_the_group configured dflt s user uid gid home s' :
  ensure_agent_user configured dflt s = (Ok (user, (uid, gid), home), s') →
  user = selected_agent_user configured dflt ∧ p_absolute home = true
  ∧ ∃ passwd groups fields primary, account_file PASSWD s = (Ok passwd, (account_file PASSWD s).2)
    ∧ resolve_user_in passwd user = Ok (uid, primary)
    ∧ find_entry AGENT_GROUP 3 (str_lines groups) = Some fields
    ∧ parse_u32 (nth_field 2 fields) = Some gid
    ∧ ∃ entry group_gid, find_entry AGENT_GROUP 4 (str_lines groups) = Some entry
      ∧ parse_u32 (nth_field 2 entry) = Some group_gid
      ∧ (primary = group_gid ∨ lists_member user entry = true).
Proof.
  intros Hr. unfold ensure_agent_user in Hr. cbv zeta in Hr.
  set (u := selected_agent_user configured dflt) in *.
  apply bind_ok in Hr as ([uid0 primary] & s1 & Hu & Hr). apply M_map_err_ok in Hu.
  apply bind_ok in Hu as (passwd & s0 & Hp & Hu). injection Hu as Hu <-.
  apply bind_ok in Hr as (gid0 & s2 & Hg & Hr). apply bind_ok in Hg as (groups & s3 & Hgf & Hg).
  injection Hg as Hg <-. destruct (find_entry AGENT_GROUP 3 _) as [fields|] eqn:Ef; [|done].
  unfold parsed_id in Hg. destruct (parse_u32 (nth_field 2 fields)) as [g|] eqn:Eg; [|done].
  injection Hg as <-. apply bind_ok in Hr as (member & s4 & Hm & Hr).
  apply bind_ok in Hm as (groups' & s5 & Hgf' & Hm). injection Hm as Hm <-.
  assert (groups' = groups) as ->.
  { eapply account_file_text; [exact Hgf|exact Hgf'|]. by apply account_file_ok in Hgf as [? _]. }
  destruct (find_entry AGENT_GROUP 4 _) as [entry|] eqn:Ee; [|done]. unfold parsed_id in Hm.
  destruct (parse_u32 (nth_field 2 entry)) as [gg|] eqn:Egg; [|done]. injection Hm as <-.
  cbn [snd] in Hr. destruct ((primary =? gg) || lists_member u entry) eqn:Em; cbn [negb] in Hr; [|done].
  apply bind_ok in Hr as (h & s6 & Hh & Hr). injection Hr as <- <- <- <- <-.
  apply bind_ok in Hh as (pw & s7 & _ & Hh). injection Hh as Hh _.
  destruct (find_entry _ 6 _) as [hf|]; [|done]. cbv zeta in Hh.
  destruct (starts_with "/" _ && _) eqn:Eh; [|done]. injection Hh as <-.
  apply andb_true_iff in Eh as [Eh _]. split_and!; [done|exact Eh|].
  exists passwd, groups, fields, primary. rewrite Hp. cbn. split_and!; try done.
  exists entry, gg. split_and!; try done. apply orb_true_iff in Em as [->%Z.eqb_eq|]; auto.
Qed.

(** ** What a resolved configuration adds to a launch *)
Definition managed_environment_keys : list string :=
  ["BUZZ_ACP_DISPLAY_NAME"; "BUZZ_ACP_SYSTEM_PROMPT"; "BUZZ_ACP_LAZY_POOL"; "BUZZ_ACP_AGENTS";
   "BUZZ_ACP_RESPOND_TO"; "BUZZ_ACP_RESPOND_TO_ALLOWLIST"; "BUZZ_ACP_IDLE_TIMEOUT";
   "BUZZ_ACP_MAX_TURN_DURATION"; "BUZZ_ACP_MODEL"; "BUZZ_AGENT_MODEL"; "BUZZ_AGENT_PROVIDER"].

Lemma lookup_insert_some_ne k key v env : k ≠ key → insert_some key v env !! k = env !! k.
Proof. intros Hne. destruct v; cbn; [by rewrite lookup_insert_ne|done]. Qed.
Lemma lookup_entry_ne k key v env : k ≠ key → entry_or_insert key v env !! k = env !! k.
Proof. intros Hne. unfold entry_or_insert. destruct (env !! key); [done|by rewrite lookup_insert_ne]. Qed.
Lemma lookup_entry_some key v env old : env !! key = Some old → entry_or_insert key v env = env.
Proof. unfold entry_or_insert. by intros ->. Qed.

Ltac env_lookup :=
  repeat first
    [ rewrite lookup_insert_ne by done | rewrite lookup_insert_some_ne by done
    | rewrite lookup_entry_ne by done | rewrite lookup_insert_eq
    | match goal with |- context [match ?x with _ => _ end !! _] => destruct x eqn:?; cbn beta iota end ].

(** The harness is told the agent's display name, pool size, that the pool is lazy, and
    whom to answer; a model or provider the environment already names is kept; and every
    variable outside the managed ones is left as it was. *)
Theorem resolved_environment_is_complete resolved launch :
  let after := apply_resolved_agent_environment resolved launch in
  let env := ls_environment after in
  env !! "BUZZ_ACP_DISPLAY_NAME" = Some (spec_display_name (rac_spec resolved))
  ∧ env !! "BUZZ_ACP_AGENTS" = Some (show_Z (rac_parallelism resolved))
  ∧ env !! "BUZZ_ACP_LAZY_POOL" = Some "true"
  ∧ env !! "BUZZ_ACP_RESPOND_TO" = Some (RespondToMode_as_str (rac_respond_to resolved))
  ∧ (∀ k, k ∉ managed_environment_keys → env !! k = ls_environment launch !! k)
  ∧ (∀ k v, k = "BUZZ_AGENT_MODEL" ∨ k = "BUZZ_AGENT_PROVIDER" →
       ls_environment launch !! k = Some v → env !! k = Some v)
  ∧ ls_secret_environment after = ls_secret_environment launch
  ∧ ls_agent_id after = ls_agent_id launch.
Proof.
  cbv zeta. unfold apply_resolved_agent_environment, resolved_environment, apply_acp_pool_environment.
  cbn [ls_environment with_launch ls_secret_environment ls_agent_id]. cbv zeta.
  split_and!; try done.
  1-4: by env_lookup.
  - intros k Hk. unfold managed_environment_keys in Hk. rewrite !not_elem_of_cons in Hk.
    destruct_and! Hk. by env_lookup.
  - intros k v [->| ->] Hv; env_lookup; try done;
      (erewrite lookup_entry_some; [|env_lookup; exact Hv]); env_lookup; done.
Qed.

(** ** The path check *)
Definition sample_config (working_directory : string) : DaemonConfig :=
  mkDaemonConfig (path_of_string "/var/lib/buzz-server/state.db")
    (path_of_string "/var/log/buzz-server") (path_of_string working_directory) None
    (mkFilesystemConfig None) "" [sample_runtime]
    (mkExecutableIdentity "/opt/harness" "harness" "1.0.0" None) [] (mkRestartPolicy Never 0 0 0 0)
    (HealthProcess 1000) default_lifecycle_api.

(** The check that configured paths remain inside the packaged directories compares
    components and does not look at [..]: this configuration is accepted, and its working
    directory lies outside. *)
Theorem path_check_admits_parent_components :
  let config := sample_config "/var/lib/buzz-server/../../../srv" in
  DaemonConfig_validate config = Ok tt
  ∧ mkPath true (resolve_dots [] (p_components (dc_working_directory config)))
    = path_of_string "/srv".
Proof. vm_compute. split; reflexivity. Qed.
