(* ===== verification/Receipts.v ===== *)
(** * The receipt file (main.rs, [ReceiptFile])
    The durable record of an agent's process: the latest receipt, replaced by a rename, and
    a history to which every revision is appended. *)
From Stdlib Require Import ZArith Lia String Ascii.
From stdpp Require Import base gmap list strings.
From S2P Require Import Prelude RustStr Ids Lifecycle Agent Runtime Launch Auth ApiTypes Schema.
From S2P Require Import Bytes Monad Fs AgentFiles Custody.
#[local] Open Scope Z_scope.

(** ** Opening files for writing
    The entry a path leads to, or where it would be created. *)
Fixpoint open_path (links : nat) (p : Path) : IO Path := λ s,
  match fs_nodes s !! p with
  | None => (Ok p, s)
  | Some n =>
    match n_kind n, links with
    | Symlink target, S links => open_path links target s
    | Symlink _, O => (Err (mkIoError OtherKind "too many levels of symbolic links"), s)
    | Directory, _ => (Err (mkIoError OtherKind "is a directory"), s)
    | _, _ => (Ok p, s)
    end
  end.
Definition with_data (d : string) (n : Node) : Node := mkNode (n_kind n) (n_mode n) (n_uid n) d.
Definition new_file (s : Fs) : Node := mkNode RegularFile 420 (* 0o644 *) (fs_uid s) "".
Definition reset_entry (reset : Node → Node) (q : Path) : IO unit := λ s,
  (Ok tt, set_nodes (<[q := match fs_nodes s !! q with Some n => reset n | None => new_file s end]>) s).
Definition open_at (reset : Node → Node) (p : Path) : IO Path :=
  atomic_call (q ← open_path MAX_SYMLINKS p; _ ← reset_entry reset q; mret q).
(** [create(true).truncate(true)] and [create(true).append(true)]. *)
Definition open_truncate : Path → IO Path := open_at (with_data "").
Definition open_append : Path → IO Path := open_at id.

(** [path.with_file_name(name)], [path.with_extension(ext)]. *)
Definition with_file_name (p : Path) (name : string) : Path :=
  mkPath (p_absolute p) (removelast (p_components p) ++ [name]).
Definition file_stem (name : string) : string :=
  match after_last_dot name with Some (String c stem, _) => String c stem | _ => name end.
Definition with_extension (p : Path) (ext : string) : Path :=
  match file_name p with
  | Some name => with_file_name p (String.append (file_stem name) (String.append "." ext))
  | None => p
  end.

Record ReceiptFile : Type := mkReceiptFile { rf_path : Path; rf_history_path : Path }.
Definition ReceiptFile_new (path : Path) : ReceiptFile :=
  mkReceiptFile path (with_file_name path "process-receipt-history.jsonl").

(** [serde_json] of a receipt and of a history line. *)
Class ReceiptJson : Type := {
  receipt_to_json : ProcessReceipt → string;
  receipt_of_json : string → option ProcessReceipt;
  revision_to_json : Z → ProcessReceipt → string
}.

Section ReceiptFile.
Context `{ReceiptJson}.

Definition ReceiptM (A : Type) : Type := M Fs StorageError A.
Definition rio {A} (m : IO A) : ReceiptM A := M_map_err (λ e, Schema.InvalidData (io_message e)) m.

Definition read_receipt (self : ReceiptFile) (agent_id : AgentId) : ReceiptM (option ProcessReceipt) := λ s,
  match read_file (rf_path self) s with
  | (Ok bytes, s) =>
    match receipt_of_json bytes with
    | Some receipt =>
      (Ok (if bool_decide (pr_agent_id receipt = agent_id) then Some receipt else None), s)
    | None => (Err (Schema.InvalidData "invalid receipt"), s)
    end
  | (Err error, s) =>
    if kind_is NotFound error then (Ok None, s) else (Err (Schema.InvalidData (io_message error)), s)
  end.

Definition temporary_receipt (self : ReceiptFile) : Path := with_extension (rf_path self) "json.tmp".

Definition write_temporary (tmp : Path) (text : string) : IO unit :=
  file ← open_truncate tmp; _ ← write_all file text; sync_all file.
Definition append_line (hist : Path) (line : string) : IO unit :=
  history ← open_append hist;
  _ ← write_all history line;
  _ ← write_all history newline_text;
  sync_all history.
(** Everything before the rename. *)
Definition stage_receipt (self : ReceiptFile) (parent : Path) (now_ms : Z) (receipt : ProcessReceipt)
    : IO unit :=
  let temporary := temporary_receipt self in
  _ ← create_dir_all parent;
  _ ← write_temporary temporary (receipt_to_json receipt);
  _ ← append_line (rf_history_path self) (revision_to_json now_ms receipt);
  _ ← set_permissions temporary 416 (* 0o640 *);
  set_permissions (rf_history_path self) 416.

Definition write_receipt (self : ReceiptFile) (now_ms : Z) (receipt : ProcessReceipt) : ReceiptM unit :=
  parent ← of_result (ok_or (Schema.InvalidData "receipt path has no parent") (parent (rf_path self)));
  _ ← rio (stage_receipt self parent now_ms receipt);
  _ ← rio (rename (temporary_receipt self) (rf_path self));
  _ ← rio (metadata parent);
  rio (sync_all parent).

Definition remove_if_present (path : Path) : ReceiptM unit := λ s,
  match remove_file path s with
  | (Ok _, s) => (Ok tt, s)
  | (Err error, s) =>
    if kind_is NotFound error then (Ok tt, s) else (Err (Schema.InvalidData (io_message error)), s)
  end.
Definition remove_receipt (self : ReceiptFile) : ReceiptM unit :=
  forM_ remove_if_present [rf_path self; rf_history_path self].
End ReceiptFile.

(** ** Lemmas *)
Definition file_at (p : Path) (s : Fs) : Prop :=
  ∀ n, fs_nodes s !! p = Some n → n_kind n ≠ Directory.

Lemma open_path_plain k p s :
  plain_at p s →
  (open_path k p s).2 = s ∧ ∀ q, (open_path k p s).1 = Ok q → q = p ∧ file_at p s.
Proof.
  intros Hp. unfold file_at. destruct k; cbn; destruct (fs_nodes s !! p) as [n|] eqn:En;
    try (split; [done|]; intros q [= <-]; by split; [|intros m]);
    specialize (Hp n En); unfold is_symlink in Hp; destruct (n_kind n) eqn:Ek; try done;
    (split; [done|]; intros q; (done || (intros [= <-]; split; [done|]; intros m [= <-]; by rewrite Ek))).
Qed.
Definition opened (reset : Node → Node) (p : Path) (s : Fs) : Node :=
  match fs_nodes s !! p with Some n => reset n | None => new_file s end.
Lemma open_at_effect reset p s :
  plain_at p s →
  match (open_at reset p s).1 with
  | Ok q => q = p ∧ file_at p s
            ∧ fs_nodes (open_at reset p s).2 = <[p := opened reset p s]> (fs_nodes s)
  | Err _ => nodes_kept s (open_at reset p s).2
  end.
Proof.
  intros Hp. unfold open_at, atomic_call, call.
  set (m := (q ← open_path MAX_SYMLINKS p; _ ← reset_entry reset q; mret q)).
  assert (∀ t, fs_nodes t = fs_nodes s → fs_uid t = fs_uid s →
    match (m t).1 with
    | Ok q => q = p ∧ file_at p s ∧ fs_nodes (m t).2 = <[p := opened reset p s]> (fs_nodes s)
    | Err _ => nodes_kept s (m t).2
    end) as Hopen.
  { intros t Ht Hu. unfold m. assert (plain_at p t) as Hpt by (unfold plain_at; by rewrite Ht).
    destruct (open_path_plain MAX_SYMLINKS p t Hpt) as [Hs Hq]. unfold mbind, M_bind.
    destruct (open_path MAX_SYMLINKS p t) as [[q|e] t1]; cbn in *; [|by subst].
    destruct (Hq q eq_refl) as [-> Hf]. subst t1. split; [done|].
    unfold file_at, opened, new_file in *. by rewrite Ht, Hu in *. }
  destruct (fs_faults s) as [|[[e n]|] rest]; [|done|].
  - by apply Hopen.
  - by apply (Hopen (mkFs (fs_nodes s) rest (fs_uid s))).
Qed.

(** What staging may do: the temporary file changes, the history only grows, directories
    may appear, and nothing else that exists changes. *)
Record staged (depth : nat) (tmp hist : Path) (s s' : Fs) : Prop := {
  staged_frame q : q ≠ tmp → q ≠ hist →
    fs_nodes s' !! q = fs_nodes s !! q
    ∨ fs_nodes s !! q = None ∧ (List.length (p_components q) ≤ depth)%nat;
  staged_history n : fs_nodes s !! hist = Some n →
    ∃ n' more, fs_nodes s' !! hist = Some n' ∧ n_data n' = String.append (n_data n) more
}.
#[export] Instance staged_preorder depth tmp hist : PreOrder (staged depth tmp hist).
Proof.
  split.
  - intros s. split; [by left|]. intros n Hn. exists n, EmptyString. by rewrite append_nil_r.
  - intros a b c [F1 H1] [F2 H2]. split.
    + intros q Ht Hh. destruct (F1 q Ht Hh) as [E1|?], (F2 q Ht Hh) as [E2|[N2 L2]].
      * left. congruence.
      * right. split; [congruence|done].
      * by right.
      * by right.
    + intros n (n1 & m1 & Hn1 & Hd1)%H1. destruct (H2 n1 Hn1) as (n2 & m2 & Hn2 & Hd2).
      exists n2, (String.append m1 m2). split; [done|]. by rewrite Hd2, Hd1, append_assoc.
Qed.

Section Staging.
Context (depth : nat) (tmp hist : Path).
Hypothesis distinct : tmp ≠ hist.
Hypothesis deep : (depth < List.length (p_components hist))%nat.

Lemma staged_tmp s s' : only_at tmp s s' → staged depth tmp hist s s'.
Proof.
  intros Ho. split; [intros q Ht _; left; by apply Ho|].
  intros n Hn. exists n, EmptyString. rewrite append_nil_r, Ho by done. done.
Qed.
Lemma staged_kept s s' : nodes_kept s s' → staged depth tmp hist s s'.
Proof. intros Hk. by apply staged_tmp, kept_only_at. Qed.
Lemma staged_dirs s s' : dirs_grow depth s s' → staged depth tmp hist s s'.
Proof.
  intros Hg. split.
  - intros q _ _. destruct (Hg q) as [?|(? & ? & _)]; [by left|by right].
  - intros n Hn. exists n, EmptyString. rewrite append_nil_r.
    destruct (Hg hist) as [->|(Hnone & _)]; [done|congruence].
Qed.
Lemma staged_hist s s' :
  only_at hist s s' →
  (∀ n, fs_nodes s !! hist = Some n →
     ∃ n' more, fs_nodes s' !! hist = Some n' ∧ n_data n' = String.append (n_data n) more) →
  staged depth tmp hist s s'.
Proof. intros Ho Hd. split; [intros q _ Hh; left; by apply Ho|done]. Qed.

Lemma staged_write_hist d s : staged depth tmp hist s (write_all hist d s).2.
Proof.
  apply staged_hist; [apply only_at_write_all|]. intros n Hn. unfold write_all, call.
  destruct (fs_faults s) as [|[[e k]|] rest]; cbn; rewrite lookup_alter_eq, Hn; eexists _, _; by split.
Qed.
Lemma staged_permissions_hist mode s :
  plain_at hist s → staged depth tmp hist s (set_permissions hist mode s).2.
Proof.
  intros Hp. pose proof (change_target_plain (with_mode mode) hist s Hp) as He. unfold set_permissions.
  destruct (change_target _ hist s) as [[[]|e] s1]; cbn in *; [|by apply staged_kept].
  destruct He as (m & Hm & He). apply staged_hist.
  - intros x Hx. by rewrite He, lookup_insert_ne.
  - intros n Hn. exists (with_mode mode m), EmptyString.
    rewrite He, lookup_insert_eq, append_nil_r. split; [done|]. cbn. congruence.
Qed.
Lemma staged_open_hist s : plain_at hist s → staged depth tmp hist s (open_append hist s).2.
Proof.
  intros Hp. pose proof (open_at_effect id hist s Hp) as He. unfold open_append.
  destruct (open_at id hist s) as [[q|e] s1]; cbn in *; [|by apply staged_kept].
  destruct He as (_ & _ & He). apply staged_hist.
  - intros x Hx. by rewrite He, lookup_insert_ne.
  - intros n Hn. exists n, EmptyString. unfold opened in He.
    by rewrite He, Hn, lookup_insert_eq, append_nil_r.
Qed.
Lemma staged_open_tmp s : plain_at tmp s → staged depth tmp hist s (open_truncate tmp s).2.
Proof.
  intros Hp. pose proof (open_at_effect (with_data "") tmp s Hp) as He. unfold open_truncate.
  destruct (open_at _ tmp s) as [[q|e] s1]; cbn in *; [|by apply staged_kept].
  destruct He as (_ & _ & He). apply staged_tmp. intros x Hx. by rewrite He, lookup_insert_ne.
Qed.
End Staging.

Lemma plain_dirs d p s s' : dirs_grow d s s' → plain_at p s → plain_at p s'.
Proof.
  intros Hg Hp n Hn. destruct (Hg p) as [Heq|(_ & _ & m & Hm & Hk)].
  - apply Hp. congruence.
  - assert (m = n) as -> by congruence. unfold is_symlink. by rewrite Hk.
Qed.
Lemma plain_only_at p q s s' : p ≠ q → only_at q s s' → plain_at p s → plain_at p s'.
Proof. intros Hne Ho Hp n. rewrite Ho by done. apply Hp. Qed.

Section Writing.
Context `{ReceiptJson}.

(** A file whose text is [text]. *)
Definition text_file (text : string) (n : Node) : Prop :=
  n_data n = text ∧ n_kind n ≠ Directory ∧ is_symlink n = false.
Definition history_text (p : Path) (s : Fs) : string :=
  match fs_nodes s !! p with Some n => n_data n | None => EmptyString end.

(** Truncate and write: until it succeeds only the temporary file changes. *)
Lemma write_temporary_effect tmp text s :
  plain_at tmp s →
  let '(r, s') := write_temporary tmp text s in
  only_at tmp s s' ∧ (r = Ok tt → ∃ n, fs_nodes s' !! tmp = Some n ∧ text_file text n).
Proof.
  intros Hp. unfold write_temporary, mbind, M_bind, open_truncate.
  pose proof (open_at_effect (with_data "") tmp s Hp) as He.
  destruct (open_at _ tmp s) as [[q|e] s1]; cbn in He; [|by split; [apply kept_only_at|]].
  destruct He as (-> & Hf & He).
  assert (only_at tmp s s1) as O1 by (intros x Hx; by rewrite He, lookup_insert_ne).
  pose proof (only_at_write_all tmp text s1) as O2.
  destruct (write_all tmp text s1) as [[[]|e] s2] eqn:Ew; cbn in O2; [|by split; [etrans|]].
  pose proof (kept_sync_all tmp s2) as K3. destruct (sync_all tmp s2) as [r s3]; cbn in K3.
  split; [etrans; [exact O1|]; by etrans; [|apply kept_only_at]|]. intros _.
  apply write_all_ok in Ew. unfold nodes_kept in K3.
  exists (append_data text (opened (with_data "") tmp s)).
  rewrite K3, Ew, lookup_alter_eq, He, lookup_insert_eq. split; [done|].
  unfold text_file, opened, file_at, plain_at in *. destruct (fs_nodes s !! tmp) as [n|]; cbn; [|done].
  specialize (Hf n eq_refl). specialize (Hp n eq_refl). by unfold is_symlink in *.
Qed.

(** Append a line: the history only grows. *)
Lemma append_line_effect depth tmp hist line s :
  tmp ≠ hist → plain_at hist s →
  let '(r, s') := append_line hist line s in
  staged depth tmp hist s s' ∧ only_at hist s s'
  ∧ (r = Ok tt → (∃ h, fs_nodes s' !! hist = Some h ∧ is_symlink h = false)
       ∧ history_text hist s' = String.append (history_text hist s) (String.append line newline_text)).
Proof.
  intros Hne Hp. unfold append_line, mbind, M_bind.
  pose proof (staged_open_hist depth tmp hist Hne s Hp) as S1.
  pose proof (open_at_effect id hist s Hp) as He. unfold open_append in *.
  destruct (open_at _ hist s) as [[q|e] s1]; cbn in He, S1; [|by split_and!; [|apply kept_only_at|]].
  destruct He as (-> & _ & He).
  assert (only_at hist s s1) as O1 by (intros x Hx; by rewrite He, lookup_insert_ne).
  pose proof (only_at_write_all hist line s1) as O2.
  pose proof (staged_write_hist depth tmp hist line s1) as S2.
  destruct (write_all hist line s1) as [[[]|e] s2] eqn:Ew; cbn in O2, S2; [|by split_and!; [etrans|etrans|]].
  pose proof (only_at_write_all hist newline_text s2) as O3.
  pose proof (staged_write_hist depth tmp hist newline_text s2) as S3.
  destruct (write_all hist newline_text s2) as [[[]|e] s3] eqn:En; cbn in O3, S3;
    [|by split_and!; [etrans; [|etrans]|etrans; [|etrans]|]].
  pose proof (kept_sync_all hist s3) as K4. destruct (sync_all hist s3) as [r s4]; cbn in K4.
  split_and!.
  - etrans; [exact S1|]. etrans; [exact S2|]. etrans; [exact S3|].
    apply staged_hist; [by apply kept_only_at|]. intros n Hn. exists n, EmptyString.
    rewrite append_nil_r. by rewrite K4.
  - etrans; [exact O1|]. etrans; [exact O2|]. etrans; [exact O3|]. by apply kept_only_at.
  - intros _. apply write_all_ok in Ew, En. unfold history_text, nodes_kept in *.
    rewrite K4, En, lookup_alter_eq, Ew, lookup_alter_eq, He, lookup_insert_eq.
    cbn. unfold opened, plain_at in *. split.
    { eexists. split; [done|]. unfold is_symlink in *. destruct (fs_nodes s !! hist) as [h|]; [|done].
      exact (Hp h eq_refl). }
    destruct (fs_nodes s !! hist); cbn; by rewrite ?append_assoc.
Qed.

Lemma stage_receipt_effect self dir now_ms receipt s :
  let tmp := temporary_receipt self in
  let hist := rf_history_path self in
  let depth := List.length (p_components dir) in
  tmp ≠ hist → (depth < List.length (p_components hist))%nat → plain_at tmp s → plain_at hist s →
  let '(r, s') := stage_receipt self dir now_ms receipt s in
  staged depth tmp hist s s'
  ∧ (r = Ok tt →
     (∃ n, fs_nodes s' !! tmp = Some n ∧ text_file (receipt_to_json receipt) n ∧ n_mode n = 416)
     ∧ history_text hist s' = String.append (history_text hist s)
         (String.append (revision_to_json now_ms receipt) newline_text)).
Proof.
  intros tmp hist depth Hne Hdeep Hpt Hph. unfold stage_receipt. fold tmp hist. cbv zeta.
  unfold mbind, M_bind. pose proof (create_dir_all_grow dir s) as G1. fold depth in G1.
  destruct (create_dir_all dir s) as [[[]|e] s1]; cbn in G1; [|by split; [apply staged_dirs|]].
  assert (history_text hist s1 = history_text hist s) as T1.
  { unfold history_text. destruct (G1 hist) as [->|(_ & Hl & _)]; [done|lia]. }
  pose proof (staged_dirs depth tmp hist s s1 G1) as S1.
  pose proof (plain_dirs _ tmp _ _ G1 Hpt) as Hpt1. pose proof (plain_dirs _ hist _ _ G1 Hph) as Hph1.
  pose proof (write_temporary_effect tmp (receipt_to_json receipt) s1 Hpt1) as W.
  destruct (write_temporary tmp _ s1) as [[[]|e] s2]; destruct W as [O2 W];
    [|by split; [etrans; [exact S1|by apply staged_tmp]|]].
  destruct (W eq_refl) as (n & Hn & Htext). clear W.
  assert (plain_at hist s2) as Hph2 by (by eapply plain_only_at).
  assert (history_text hist s2 = history_text hist s1) as T2 by (unfold history_text; by rewrite O2).
  pose proof (append_line_effect depth tmp hist (revision_to_json now_ms receipt) s2 Hne Hph2) as A.
  destruct (append_line hist _ s2) as [[[]|e] s3]; destruct A as (S3 & O3 & A);
    (assert (staged depth tmp hist s s3) as St by (etrans; [exact S1|]; etrans; [by apply staged_tmp|exact S3]));
    [|split; [exact St|done]].
  destruct (A eq_refl) as [(h & Hh & Hhl) T3]. clear A.
  assert (plain_at tmp s3) as Hpt3.
  { intros m Hm. rewrite O3, Hn in Hm by done. injection Hm as <-. by destruct Htext as (_ & _ & ?). }
  unfold set_permissions. pose proof (change_target_plain (with_mode 416) tmp s3 Hpt3) as P.
  pose proof (only_at_change_target (with_mode 416) tmp s3 Hpt3) as O4.
  destruct (change_target (with_mode 416) tmp s3) as [[[]|e] s4]; cbn in P, O4;
    [|by split; [etrans; [exact St|by apply staged_tmp]|]].
  destruct P as (m & Hm & P). rewrite O3, Hn in Hm by done. injection Hm as <-.
  assert (plain_at hist s4) as Hph4 by (intros m Hm; rewrite O4, Hh in Hm by done; congruence).
  pose proof (staged_permissions_hist depth tmp hist Hne 416 s4 Hph4) as S5. unfold set_permissions in S5.
  pose proof (only_at_change_target (with_mode 416) hist s4 Hph4) as O5.
  pose proof (change_target_plain (with_mode 416) hist s4 Hph4) as P5.
  destruct (change_target (with_mode 416) hist s4) as [r s5]; cbn in S5, O5, P5.
  split; [etrans; [exact St|]; etrans; [by apply staged_tmp|exact S5]|]. intros ->.
  destruct P5 as (h' & Hh' & P5). split.
  - exists (with_mode 416 n). rewrite O5, P, lookup_insert_eq by done. split_and!; [done| |done].
    destruct Htext as (? & ? & ?). by split_and!.
  - unfold history_text in *. rewrite P5, lookup_insert_eq. cbn.
    rewrite P, lookup_insert_ne, Hh in Hh' by done. injection Hh' as <-.
    rewrite Hh in T3. by rewrite T3, T2, T1.
Qed.
End Writing.

(** ** The file of an agent *)
Lemma with_file_name_join root name name' : with_file_name (join root name) name' = join root name'.
Proof. unfold with_file_name, join. cbn [p_components p_absolute]. by rewrite removelast_last. Qed.
Lemma temporary_join root :
  temporary_receipt (ReceiptFile_new (join root "process-receipt.json"))
  = join root "process-receipt.json.tmp".
Proof.
  unfold temporary_receipt, with_extension, ReceiptFile_new, file_name. cbn [rf_path].
  unfold join at 1. cbn [p_components]. rewrite last_snoc, with_file_name_join. done.
Qed.
Lemma history_join root :
  rf_history_path (ReceiptFile_new (join root "process-receipt.json"))
  = join root "process-receipt-history.jsonl".
Proof. cbn [ReceiptFile_new rf_history_path]. apply with_file_name_join. Qed.
Lemma join_depth root name :
  List.length (p_components (join root name)) = S (List.length (p_components root)).
Proof. cbn. rewrite length_app. cbn. lia. Qed.

Section ReceiptProperties.
Context `{ReceiptJson}.

Lemma read_receipt_text self r n s :
  receipt_of_json (receipt_to_json r) = Some r →
  fs_faults s = [] → fs_nodes s !! rf_path self = Some n → text_file (receipt_to_json r) n →
  ∀ a, read_receipt self a s = (Ok (if bool_decide (pr_agent_id r = a) then Some r else None), s).
Proof.
  intros Hj Hf Hn (Hd & Hk & Hs) a. unfold read_receipt.
  rewrite (read_file_quiet _ _ n Hf (leads_to_plain _ _ _ Hn Hs) Hk), Hd.
  by rewrite Hj.
Qed.

(** The rename, and what follows it. *)
Definition replaced (path tmp hist : Path) (n : Node) (s1 t : Fs) : Prop :=
  fs_nodes t = <[path:=n]> (delete tmp (fs_nodes s1)).
Lemma replaced_effect path tmp hist n s s1 t :
  path ≠ tmp → path ≠ hist → tmp ≠ hist → replaced path tmp hist n s1 t →
  (∀ q, q ≠ path → q ≠ tmp → q ≠ hist → is_Some (fs_nodes s !! q) →
     fs_nodes s1 !! q = fs_nodes s !! q) →
  (∀ q, q ≠ path → q ≠ tmp → q ≠ hist → is_Some (fs_nodes s !! q) →
     fs_nodes t !! q = fs_nodes s !! q)
  ∧ fs_nodes t !! path = Some n ∧ history_text hist t = history_text hist s1.
Proof.
  unfold replaced, history_text. intros Hpt Hph Hth -> Hfr. split_and!.
  - intros q Hq Hqt Hqh Hs. rewrite lookup_insert_ne, lookup_delete_ne by done. auto.
  - by rewrite lookup_insert_eq.
  - by rewrite lookup_insert_ne, lookup_delete_ne.
Qed.

Definition receipt_written (self : ReceiptFile) (tmp : Path) (now_ms : Z) (receipt : ProcessReceipt)
    (r : result StorageError unit) (s s' : Fs) : Prop :=
  let path := rf_path self in
  let hist := rf_history_path self in
  (∀ q, q ≠ path → q ≠ tmp → q ≠ hist → is_Some (fs_nodes s !! q) →
     fs_nodes s' !! q = fs_nodes s !! q)
  ∧ (fs_nodes s' !! path = fs_nodes s !! path
     ∨ ∃ n, fs_nodes s' !! path = Some n ∧ text_file (receipt_to_json receipt) n ∧ n_mode n = 416)
  ∧ (∃ more, history_text hist s' = String.append (history_text hist s) more)
  ∧ (r = Ok tt →
     (∃ n, fs_nodes s' !! path = Some n ∧ text_file (receipt_to_json receipt) n)
     ∧ history_text hist s' = String.append (history_text hist s)
         (String.append (revision_to_json now_ms receipt) newline_text)).

Lemma write_receipt_effect self root now_ms receipt s :
  let path := rf_path self in
  let tmp := temporary_receipt self in
  let hist := rf_history_path self in
  parent path = Some root → tmp ≠ hist → path ≠ tmp → path ≠ hist →
  (List.length (p_components root) < List.length (p_components path))%nat →
  (List.length (p_components root) < List.length (p_components hist))%nat →
  plain_at tmp s → plain_at hist s →
  let '(r, s') := write_receipt self now_ms receipt s in
  receipt_written self tmp now_ms receipt r s s'.
Proof.
  intros path tmp hist Hpar Hth Hpt Hph Hlp Hlh Pt Ph.
  pose proof (stage_receipt_effect self root now_ms receipt s Hth Hlh Pt Ph) as St.
  unfold write_receipt, receipt_written. fold path tmp hist. cbv zeta.
  rewrite Hpar. unfold mbind, M_bind, of_result, rio, M_map_err. cbn [ok_or]. fold tmp hist in St.
  destruct (stage_receipt self root now_ms receipt s) as [r1 s1] eqn:E1. destruct St as [[F1 H1] Hok].
  assert (fs_nodes s1 !! path = fs_nodes s !! path) as Kp.
  { destruct (F1 path Hpt Hph) as [->|[_ Hl]]; [done|lia]. }
  assert (∀ q, q ≠ path → q ≠ tmp → q ≠ hist → is_Some (fs_nodes s !! q) →
     fs_nodes s1 !! q = fs_nodes s !! q) as Fr.
  { intros q _ Hq Hqh [n Hn]. destruct (F1 q Hq Hqh) as [->|[Hnone _]]; [done|congruence]. }
  assert (∃ more, history_text hist s1 = String.append (history_text hist s) more) as Hg.
  { unfold history_text. destruct (fs_nodes s !! hist) as [n|]; [|by eexists].
    destruct (H1 n eq_refl) as (n' & more & -> & Hd). eauto. }
  destruct r1 as [[]|e]; cbn [map_err]; [|by split_and!; [|left|..]].
  destruct (Hok eq_refl) as [(n & Hn & Htext & Hmode) Hhist]. clear Hok.
  destruct (rename tmp path s1) as [[[]|e] s2] eqn:E2; cbn [map_err].
  2: { apply rename_err in E2. unfold history_text, nodes_kept in *. rewrite E2.
       by split_and!; [|left|..]. }
  apply rename_ok in E2 as (n' & Hn' & E2). rewrite Hn in Hn'. injection Hn' as <-.
  pose proof (kept_metadata root s2) as K3.
  destruct (metadata root s2) as [[m|e] s3]; cbn [map_err snd] in *; unfold nodes_kept in K3.
  2: { destruct (replaced_effect path tmp hist n s s1 s3) as (R1 & R2 & R3);
         [done..|by unfold replaced; rewrite K3|done|].
       rewrite R3. split_and!; [done|right; by exists n|done|done]. }
  pose proof (kept_sync_all root s3) as K4. destruct (sync_all root s3) as [r4 s4]; cbn [snd] in *.
  unfold nodes_kept in K4.
  destruct (replaced_effect path tmp hist n s s1 s4) as (R1 & R2 & R3);
    [done..|by unfold replaced; rewrite K4, K3|done|].
  rewrite R3. split_and!; [done|right; by exists n|done|]. intros _. by split; [exists n|].
Qed.

(** C31: Recording a receipt replaces the agent's receipt file atomically. Whatever call
    fails and however much of a write happens first, the file afterwards is the old one or
    the complete new one, the new one whenever the call succeeds; the history only grows,
    by exactly the new revision on success; no other existing file changes. After a
    success the receipt reads back for its agent, and for no other agent, given that the
    JSON encoding reads back what it wrote. *)
Theorem receipts_are_replaced_atomically root now_ms receipt s :
  let self := ReceiptFile_new (join root "process-receipt.json") in
  let tmp := join root "process-receipt.json.tmp" in
  let hist := join root "process-receipt-history.jsonl" in
  receipt_of_json (receipt_to_json receipt) = Some receipt →
  plain_at tmp s → plain_at hist s →
  let '(r, s') := write_receipt self now_ms receipt s in
  receipt_written self tmp now_ms receipt r s s'
  ∧ (r = Ok tt → fs_faults s' = [] → ∀ a, read_receipt self a s'
       = (Ok (if bool_decide (pr_agent_id receipt = a) then Some receipt else None), s')).
Proof.
  intros self tmp hist Hj Hpt Hph.
  assert (rf_path self = join root "process-receipt.json") as Epath by done.
  assert (temporary_receipt self = tmp) as Etmp by apply temporary_join.
  assert (rf_history_path self = hist) as Ehist by apply history_join.
  pose proof (write_receipt_effect self root now_ms receipt s) as W. cbv zeta in W.
  rewrite Etmp, Ehist, Epath in W. rewrite parent_join, !join_depth in W.
  assert (tmp ≠ hist ∧ join root "process-receipt.json" ≠ tmp
          ∧ join root "process-receipt.json" ≠ hist) as (N1 & N2 & N3).
  { unfold tmp, hist. split_and!; by intros ?%join_inj. }
  specialize (W eq_refl N1 N2 N3 ltac:(lia) ltac:(unfold hist; rewrite join_depth; lia) Hpt Hph).
  clearbody self. destruct (write_receipt self now_ms receipt s) as [r s'].
  split; [done|]. intros Hok Hf. destruct W as (_ & _ & _ & W). destruct (W Hok) as [(n & Hn & Ht) _].
  by apply (read_receipt_text self receipt n).
Qed.
End ReceiptProperties.

(** ** A first receipt, with the write of the history cut short *)
#[local] Instance sample_receipt_json : ReceiptJson := {|
  receipt_to_json := λ _, "receipt";
  receipt_of_json := λ _, Some (sample_receipt sample_launch 7 Healthy);
  revision_to_json := λ _ _, "revision"
|}.
Definition receipt_root : Path := mkPath true ["srv"].
Definition first_receipt : ProcessReceipt := sample_receipt sample_launch 7 Healthy.
Definition receipt_fs (faults : list (option (IoError * nat))) : Fs := mkFs ∅ faults 0.

Lemma receipts_are_replaced_atomically_witness :
  let self := ReceiptFile_new (join receipt_root "process-receipt.json") in
  let whole := write_receipt self 1700 first_receipt (receipt_fs []) in
  let cut := write_receipt self 1700 first_receipt
               (receipt_fs [None; None; None; None; None; Some (not_found, 2%nat)]) in
  (whole.1 = Ok tt ∧ read_receipt self (pr_agent_id first_receipt) whole.2
     = (Ok (Some first_receipt), whole.2))
  ∧ (cut.1 ≠ Ok tt ∧ fs_nodes cut.2 !! rf_path self = None
     ∧ ∃ more, history_text (rf_history_path self) cut.2 = more).
Proof.
  intros self whole cut.
  assert (∀ p faults, plain_at p (receipt_fs faults)) as Hp by (by intros p faults n).
  pose proof (receipts_are_replaced_atomically receipt_root 1700 first_receipt (receipt_fs [])
    eq_refl (Hp _ _) (Hp _ _)) as W.
  pose proof (receipts_are_replaced_atomically receipt_root 1700 first_receipt
    (receipt_fs [None; None; None; None; None; Some (not_found, 2%nat)])
    eq_refl (Hp _ _) (Hp _ _)) as C.
  cbv zeta in W, C. fold self in W, C. fold whole in W. fold cut in C. split.
  - assert (whole.1 = Ok tt) as Hok by (vm_compute; reflexivity).
    assert (fs_faults whole.2 = []) as Hf by (vm_compute; reflexivity).
    split; [exact Hok|]. destruct whole as [r s']. cbn in Hok, Hf |- *.
    destruct W as [_ W]. rewrite (W Hok Hf). by rewrite bool_decide_eq_true_2.
  - split; [vm_compute; discriminate|]. split; [vm_compute; reflexivity|].
    destruct cut as [r s']. destruct C as [(_ & _ & C & _) _]. destruct C as [more C].
    exists (String.append (history_text (rf_history_path self) (receipt_fs
      [None; None; None; None; None; Some (not_found, 2%nat)])) more). exact C.
Defined.
