(* ===== verification/Wake.v ===== *)
(** * The daemon's lifecycle effects (main.rs, [LifecycleWake])
    What the application service asks of the daemon: agent and persona documents, custody,
    the relay, and the channels that wake the workers. The world is the store shared with
    the application, the file system, the outside and the channels. The implementation is
    an instance of [LifecycleEffects], and keeps what the service relies on. *)
From Stdlib Require Import ZArith Lia String Ascii.
From stdpp Require Import base gmap list strings.
From S2P Require Import Prelude RustStr Ids Lifecycle Agent Runtime Launch Auth ApiTypes Schema.
From S2P Require Import Storage StoreInv Monad Application AppProps AppCommands Bytes Fs AgentFiles.
From S2P Require Import Custody Nostr RelayProjection CommunityJoin Daemon.
#[local] Open Scope Z_scope.
#[local] Set Warnings "-notation-for-abbreviation".

(** ** Channels *)
Record Channel (A : Type) : Type := mkChannel { ch_open : bool; ch_sent : list A }.
Arguments mkChannel {A}. Arguments ch_open {A}. Arguments ch_sent {A}.
(** [sender.send(x)]: fails when the receiver is gone. *)
Definition channel_send {A} (x : A) (c : Channel A) : bool * Channel A :=
  if ch_open c then (true, mkChannel true (ch_sent c ++ [x])) else (false, c).

Inductive ReconcileWork : Type :=
| WorkOperation (id : OperationId) | WorkStartupAgent (id : AgentId) | WorkShutdown.
Inductive RelayPublicationWork : Type := WakePublications | ShutdownPublications.

(** The operating system's keyring. *)
Inductive KeyringError : Type := NoEntry | KeyringFailure (message : string).
Class Keyring (R : Type) : Type := { delete_credential : string → M R KeyringError unit }.

Record DaemonFx (R : Type) : Type := mkDaemonFx {
  fx_fs : Fs;
  fx_outside : R;
  fx_work : Channel ReconcileWork;
  fx_publications : Channel RelayPublicationWork;
  fx_auto_join : Channel CommunityConfigId
}.
Arguments mkDaemonFx {R}. Arguments fx_fs {R}. Arguments fx_outside {R}.
Arguments fx_work {R}. Arguments fx_publications {R}. Arguments fx_auto_join {R}.

Definition set_fx {F} (f : F → F) (w : World F) : World F :=
  mkWorld (w_db w) (f (w_fx w)) (w_generation w) (w_clock w) (w_draws w).

Section Parts.
Context {R : Type}.
#[local] Notation W := (World (DaemonFx R)).
#[export] Instance world_fs : Has Fs W := {|
  part := λ w, fx_fs (w_fx w);
  set_part := λ s, set_fx (λ f, mkDaemonFx s (fx_outside f) (fx_work f) (fx_publications f) (fx_auto_join f))
|}.
#[export] Instance world_outside : Has R W := {|
  part := λ w, fx_outside (w_fx w);
  set_part := λ r, set_fx (λ f, mkDaemonFx (fx_fs f) r (fx_work f) (fx_publications f) (fx_auto_join f))
|}.
#[export] Instance world_both : Has (Fs * R) W := {|
  part := λ w, (fx_fs (w_fx w), fx_outside (w_fx w));
  set_part := λ s, set_fx (λ f, mkDaemonFx s.1 s.2 (fx_work f) (fx_publications f) (fx_auto_join f))
|}.

Definition send_work (x : ReconcileWork) : W → bool * W := λ w,
  let '(sent, c) := channel_send x (fx_work (w_fx w)) in
  (sent, set_fx (λ f, mkDaemonFx (fx_fs f) (fx_outside f) c (fx_publications f) (fx_auto_join f)) w).
Definition wake_publications : W → W :=
  set_fx (λ f, mkDaemonFx (fx_fs f) (fx_outside f) (fx_work f)
                 (channel_send WakePublications (fx_publications f)).2 (fx_auto_join f)).
Definition announce_community (id : CommunityConfigId) : W → W :=
  set_fx (λ f, mkDaemonFx (fx_fs f) (fx_outside f) (fx_work f) (fx_publications f)
                 (channel_send id (fx_auto_join f)).2).
End Parts.

(** ** Identity custody of a community *)
Section Custody.
Context {R : Type} `{Keyring R}.

Definition removing (what : string) (path : Path) : M Fs string unit := λ s,
  match remove_file path s with
  | (Ok _, s) => (Ok tt, s)
  | (Err error, s) =>
    if kind_is NotFound error then (Ok tt, s)
    else (Err (String.append what (String.append (path_text path)
                 (String.append ": " (io_message error)))), s)
  end.

(** The keyring entry is deleted before its marker. *)
Definition delete_keyring_entry (marker : Path) (pubkey : string) : M (Fs * R) string unit := λ w,
  match on (S := R) (delete_credential (String.append "community-identity:" pubkey)) w with
  | (Ok _, w) | (Err NoEntry, w) => (Ok tt, (on (S := Fs) (remove_file marker) w).2)
  | (Err (KeyringFailure message), w) =>
    (Err (String.append "delete community identity from OS keyring: " message), w)
  end.

Definition remove_community_identity_custody (runtime_root store_root : Path) (pubkey : string)
    : M (Fs * R) string unit :=
  _ ← on (S := Fs) (removing "remove runtime community identity " (identity_file runtime_root pubkey));
  let key_file := identity_file store_root pubkey in
  let marker := join store_root (String.append pubkey ".keyring") in
  let envelope := join store_root (String.append pubkey ".envelope.json") in
  marked ← on (S := Fs) (M_map_err io_message (path_exists marker));
  _ ← (if (marked : bool) then delete_keyring_entry marker pubkey else mret tt);
  forM_ (λ path, on (S := Fs) (removing "remove community identity custody " path))
    [key_file; envelope].
End Custody.

(** ** The effects *)
Record LifecycleWake : Type := mkLifecycleWake {
  lw_community_identity_root : Path;
  lw_community_identity_store : Path;
  lw_agent_files : AgentFileStore;
  lw_custody : FilesystemAgentIdentityCustody
}.

Section Effects.
Context `{UuidLib} `{NostrLib} `{BuzzKinds} `{DocumentJson} {R : Type} `{Outside R} `{Keyring R}.
(** The clock and the UUIDs of the application, the names of temporary files, the order in
    which a hash set is visited, and the parsing of a relay's information document. *)
Variable time : nat → Z.
Variable uuid_at : nat → Z.
Variable temp_at : nat → string.
Variable hash_order : gset CommunityConfigId → list CommunityConfigId.
Variable info_of_json : string → option (list Z).
Variable self : LifecycleWake.

#[local] Notation W := (World (DaemonFx R)).
#[local] Notation AppW := (App (DaemonFx R)).

(** [unix_seconds_i64()], a UUID and a temporary name, for any error type. *)
Definition clock_now {E} : M W E Z := λ w,
  (Ok (time (w_clock w)), mkWorld (w_db w) (w_fx w) (w_generation w) (S (w_clock w)) (w_draws w)).
Definition draw_index {E} : M W E nat := λ w,
  (Ok (w_draws w), mkWorld (w_db w) (w_fx w) (w_generation w) (w_clock w) (S (w_draws w))).
Definition next_uuid {E} : M W E Z := n ← draw_index; mret (uuid_at n).
Definition next_temp {E} : M W E string := n ← draw_index; mret (temp_at n).

(** A store operation, with its error. *)
Definition stored_step {A} (f : Db → stored A) : M W StorageError A := λ w,
  match f (w_db w) with
  | Ok (a, db) => (Ok a, mkWorld db (w_fx w) (w_generation w) (w_clock w) (w_draws w))
  | Err e => (Err e, w)
  end.
Definition db_read {E A} (f : Db → A) : M W E A := gets (λ w, f (w_db w)).

Definition files {A} (m : FileM A) : AppW A := on (S := Fs) (M_map_err agent_file_application_error m).

Definition enqueue_publication (action : RelayPublicationAction) (scope : RelayProjectionScope)
    (subject : string) : M W StorageError unit :=
  fresh ← next_uuid;
  now ← clock_now;
  stored_step (enqueue_relay_publication fresh action scope subject now).
Definition record_projection (kind : RelayProjectionKind) (subject : string)
    (scope : RelayProjectionScope) : M W StorageError unit :=
  now ← clock_now;
  stored_step (record_relay_projection kind subject scope now).

Definition owner_keys_for_community (community : CommunityConfig) : AppW SecretKey :=
  pubkey ← of_result (ok_or AppInternal (cc_identity_pubkey community));
  on (S := Fs) (M_map_err (λ _, AppInternal)
                  (identity_keys (lw_community_identity_root self) pubkey)).

Definition projection_scope (community : CommunityConfig) (owner : SecretKey) (d_tag : string)
    : RelayProjectionScope :=
  mkRelayProjectionScope (cc_id community) (url_as_str (cc_relay_url community))
    (public_key_hex owner) d_tag.

(** Ignoring an error: [let _ = ..] and [if let Err(..)] that only prints. *)
Definition ignore {E A} (m : M W E A) (w : W) : W := (m w).2.

(** Publish a persona to one community, or queue its publication. *)
Definition sync_persona_in (persona : PersonaDefinition) (community_id : CommunityConfigId) (w : W) : W :=
  match get_community community_id (w_db w) with
  | None => w
  | Some community =>
    match owner_keys_for_community community w with
    | (Err _, w) => w
    | (Ok owner_keys, w) =>
      let scope := projection_scope community owner_keys (persona_d_tag (pd_id persona)) in
      match on (S := R) (sync_persona (cc_relay_url community) owner_keys persona) w with
      | (Ok _, w) => ignore (record_projection Persona (pd_id persona) scope) w
      | (Err _, w) =>
        match enqueue_publication SyncPersona scope (pd_id persona) w with
        | (Ok _, w) => wake_publications w
        | (Err _, w) => w
        end
      end
    end
  end.

(** The communities of agents whose document names the persona. *)
Fixpoint referencing_communities (persona_id : string) (agents : list AgentSpec) (w : W)
    : list CommunityConfigId * W :=
  match agents with
  | [] => ([], w)
  | agent :: agents =>
    let '(file, w) := on (S := Fs) (load_agent (lw_agent_files self) (spec_id agent)) w in
    let '(rest, w) := referencing_communities persona_id agents w in
    (match file with
     | Ok file => if bool_decide (acf_persona_id file = Some persona_id)
                  then spec_community agent :: rest else rest
     | Err _ => rest
     end, w)
  end.
Definition sync_persona_references (persona : PersonaDefinition) (w : W) : W :=
  let '(referencing, w) := referencing_communities (pd_id persona) (list_agents None (w_db w)) w in
  let scopes := relay_projection_scopes Persona (pd_id persona) (w_db w) in
  let communities : gset CommunityConfigId :=
    list_to_set (referencing ++ map sc_community scopes) in
  fold_left (λ w id, sync_persona_in persona id w) (hash_order communities) w.

Definition join_error_text (error : CommunityJoinError) : string :=
  match error with
  | Unreachable message => String.append "relay unreachable: " message
  | MembershipDenied => "this Buzz Server identity is not a member of the community"
  | InvalidResponse => "relay returned an invalid membership response"
  end.
Definition join_application_error (error : CommunityJoinError) : ApplicationError :=
  match error with
  | MembershipDenied => AppForbidden (join_error_text error)
  | Unreachable _ | InvalidResponse => AppUnavailable (join_error_text error)
  end.

Definition wake_verify_community_join (community : CommunityConfig) : AppW unit :=
  on (S := Fs * R) (M_map_err join_application_error
    (verify info_of_json (lw_community_identity_root self) community)).

Definition wake_community_changed (id : CommunityConfigId) (w : W) : W :=
  wake_publications (announce_community id w).

(** A document that is missing is no error. *)
Definition purge_agent_file (id : AgentId) : AppW unit := λ w,
  match on (S := Fs) (remove_agent (lw_agent_files self) id) w with
  | (Ok _, w) => (Ok tt, w)
  | (Err (FileIo error), w) =>
    if kind_is NotFound error then (Ok tt, w)
    else (Err (agent_file_application_error (FileIo error)), w)
  | (Err error, w) => (Err (agent_file_application_error error), w)
  end.
Definition wake_community_agents_purged (ids : list AgentId) : AppW unit := forM_ purge_agent_file ids.

Definition wake_community_identity_unreferenced (pubkey : string) (w : W) : W :=
  if has_pending_relay_publications_for_owner pubkey (w_db w) then w
  else ignore (on (S := Fs * R) (remove_community_identity_custody
                 (lw_community_identity_root self) (lw_community_identity_store self) pubkey)) w.

Definition save_persona (persona : PersonaDefinition) : AppW PersonaDefinition :=
  tmp ← next_temp;
  _ ← files (write_persona (lw_agent_files self) tmp persona);
  _ ← modify (sync_persona_references persona);
  mret persona.

Definition wake_create_persona (request : CreatePersonaRequest) : AppW PersonaDefinition :=
  id ← next_uuid;
  save_persona (mkPersonaDefinition (Uuid_to_string id) (trim (cp_display_name request)) None
    (trim (cp_system_prompt request)) (cp_runtime request) None None [] ∅ None [] None
    false true false).

Definition update_persona_fields (changes : UpdatePersonaInput) (p : PersonaDefinition)
    : PersonaDefinition :=
  mkPersonaDefinition (pd_id p)
    (match upi_display_name changes with Some v => trim v | None => pd_display_name p end)
    (pd_avatar_url p)
    (match upi_system_prompt changes with Some v => trim v | None => pd_system_prompt p end)
    (match upi_runtime changes with Some v => Some v | None => pd_runtime p end)
    (pd_model p) (pd_provider p) (pd_name_pool p) (pd_environment p) (pd_respond_to p)
    (pd_respond_to_allowlist p) (pd_parallelism p) (pd_is_builtin p) (pd_is_active p) (pd_shared p).
Definition wake_update_persona (request : UpdatePersonaRequest) : AppW PersonaDefinition :=
  persona ← files (load_persona (lw_agent_files self) (up_persona_id request));
  save_persona (update_persona_fields (up_changes request) persona).

Definition wake_get_persona (id : string) : AppW PersonaDefinition :=
  files (load_persona (lw_agent_files self) id).
Definition wake_list_personas : AppW (list PersonaDefinition) :=
  files (list_personas (lw_agent_files self)).

Definition store_error {A} (m : M W StorageError A) : AppW A := M_map_err ApplicationError_from m.

(** The tombstones are queued before the document goes. *)
Definition wake_delete_persona (id : string) : AppW PersonaDefinition :=
  _ ← files (ensure_persona_removable (lw_agent_files self) id);
  scopes ← db_read (relay_projection_scopes Persona id);
  _ ← forM_ (λ scope, store_error (enqueue_publication TombstonePersona scope id)) scopes;
  persona ← files (remove_persona (lw_agent_files self) id);
  _ ← (match scopes with [] => mret tt | _ :: _ => modify wake_publications end);
  mret persona.

Definition create_options (input : CreateAgentInput) : AgentCreateFileOptions :=
  mkCreateFileOptions (cai_display_name input) (cai_persona_id input) (cai_system_prompt input)
    (cai_system_prompt_file input) (cai_runtime_id input) (cai_filesystem_user input).
Definition wake_prepare_agent_create (id : AgentId) (input : CreateAgentInput) : AppW AgentSpec :=
  file ← files (build_create_file (lw_agent_files self) id (create_options input));
  resolved ← files (resolve (lw_agent_files self) file (cai_community input) Enabled);
  mret (rac_spec resolved).

Definition wake_persist_agent_create (agent : AgentSpec) (input : CreateAgentInput) : AppW unit :=
  found ← on (S := Fs) (M_map_err (λ _, AppInternal)
            (path_exists (agent_path (lw_agent_files self) (spec_id agent))));
  if (found : bool) then mret tt
  else
  file ← files (build_create_file (lw_agent_files self) (spec_id agent) (create_options input));
  tmp ← next_temp;
  files (write_agent (lw_agent_files self) tmp file).

Definition persona_owned (field : string) : ApplicationError :=
  AppInvalid (mkValidationError field
    "is defined by the selected persona; update the persona instead").
(** The changed document, or the field that belongs to the persona. *)
Definition update_agent_document (changes : UpdateAgentInput) (f : AgentConfigFile)
    : result ApplicationError AgentConfigFile :=
  let linked := option_is_some (acf_persona_id f) in
  ensure negb (option_is_some (uai_system_prompt changes) && linked)
  else persona_owned "system_prompt" in
  ensure negb (option_is_some (uai_system_prompt_file changes) && linked)
  else persona_owned "system_prompt_file" in
  let prompt := match uai_system_prompt changes with
                | Some v => Some v
                | None => match uai_system_prompt_file changes with
                          | Some _ => Some EmptyString
                          | None => acf_system_prompt f
                          end
                end in
  Ok (mkAgentConfigFile (acf_id f)
        (match uai_display_name changes with Some v => v | None => acf_display_name f end)
        (acf_persona_id f) (acf_avatar_url f) prompt
        (match uai_system_prompt_file changes with Some v => Some v | None => acf_system_prompt_file f end)
        (match uai_runtime_id changes with Some v => Some v | None => acf_runtime f end)
        (acf_model f) (acf_provider f) (acf_environment f)
        (match uai_filesystem_user changes with Some v => mkFilesystemConfig (Some v)
                                              | None => acf_filesystem f end)
        (acf_auto_join_open_channels f) (acf_agent_args f) (acf_parallelism f) (acf_respond_to f)
        (acf_respond_to_allowlist f) (acf_idle_timeout_seconds f) (acf_max_turn_duration_seconds f)).
Definition wake_prepare_agent_update (current : AgentSpec) (changes : UpdateAgentInput) : AppW unit :=
  tmp ← next_temp;
  _ ← files (ensure_agent_file (lw_agent_files self) tmp current);
  file ← files (load_agent (lw_agent_files self) (spec_id current));
  file ← of_result (update_agent_document changes file);
  tmp ← next_temp;
  files (write_agent (lw_agent_files self) tmp file).

(** An answer where a failure is no answer. *)
Definition if_ok {A} (m : M Fs A (option string)) : AppW (option string) := λ w,
  match on (S := Fs) m w with (Ok o, w) => (Ok o, w) | (Err _, w) => (Ok None, w) end.
Definition wake_agent_public_key (id : AgentId) : AppW (option string) :=
  if_ok (keys ← load (lw_custody self) id; mret (Some (public_key_hex keys))).
Definition wake_agent_system_prompt_file (id : AgentId) : AppW (option string) :=
  if_ok (file ← load_agent (lw_agent_files self) id; mret (acf_system_prompt_file file)).

Definition wake_operation_ready (operation : DurableOperation) : AppW unit := λ w,
  let '(sent, w) := send_work (WorkOperation (op_id operation)) w in
  (if (sent : bool) then Ok tt else Err AppInternal, w).

#[export] Instance wake_effects : LifecycleEffects (DaemonFx R) := {|
  verify_community_join := wake_verify_community_join;
  community_changed := wake_community_changed;
  community_identity_unreferenced := wake_community_identity_unreferenced;
  community_agents_purged := wake_community_agents_purged;
  fx_create_persona := wake_create_persona;
  fx_update_persona := wake_update_persona;
  fx_get_persona := wake_get_persona;
  fx_list_personas := wake_list_personas;
  fx_delete_persona := wake_delete_persona;
  prepare_agent_create := wake_prepare_agent_create;
  persist_agent_create := wake_persist_agent_create;
  prepare_agent_update := wake_prepare_agent_update;
  agent_public_key := wake_agent_public_key;
  agent_system_prompt_file := wake_agent_system_prompt_file;
  operation_ready := wake_operation_ready
|}.
End Effects.

(** ** What the effects do to the store *)
Section Safe.
Context `{UuidLib} {R : Type}.
#[local] Notation W := (World (DaemonFx R)).

(** A part of the world beside the store and the worker's queue. *)
Class Beside (S : Type) `{Has S W} : Prop := {
  beside_db (s : S) (w : W) : w_db (set_part s w) = w_db w;
  beside_work (s : S) (w : W) : fx_work (w_fx (set_part s w)) = fx_work (w_fx w)
}.
#[export] Instance beside_fs : Beside Fs. Proof. done. Qed.
#[export] Instance beside_outside : Beside R. Proof. done. Qed.
#[export] Instance beside_both : Beside (Fs * R). Proof. done. Qed.

Lemma on_db {S E A} `{Beside S} (m : M S E A) (w : W) : w_db (on (W := W) m w).2 = w_db w.
Proof. unfold on. destruct (m (part w)). apply beside_db. Qed.
Lemma on_work {S E A} `{Beside S} (m : M S E A) (w : W) :
  fx_work (w_fx (on (W := W) m w).2) = fx_work (w_fx w).
Proof. unfold on. destruct (m (part w)). apply beside_work. Qed.

(** A relation that holds across whatever leaves the operations and the worker's queue
    alone: files, the outside, the other channels, and quiet calls of the store. *)
Class Calm (Q : W → W → Prop) : Prop := {
  calm_preorder :: PreOrder Q;
  calm_beside w w' : w_db w' = w_db w → fx_work (w_fx w') = fx_work (w_fx w) → Q w w';
  calm_stored c w : quiet_call c = true → Q w (stored_by c w)
}.
#[export] Instance calm_client Q : Calm Q → StoreClient Q.
Proof. intros L. split; [apply _| |apply calm_stored]. intros w w' ? Hf. apply calm_beside; [done|]. by rewrite Hf. Qed.
#[export] Instance by_calls_calm : Calm by_calls.
Proof. split; [apply _|intros w w' ? _; by apply by_calls_same|apply client_call]. Qed.

(** Neither the queue of the worker nor the operations change. *)
Definition queue_kept (w w' : W) : Prop :=
  fx_work (w_fx w') = fx_work (w_fx w) ∧ t_operations (w_db w') = t_operations (w_db w).
#[export] Instance queue_kept_calm : Calm queue_kept.
Proof.
  split; [split; [done|]| |].
  - intros a b c [? ?] [? ?]. split; congruence.
  - intros w w' Hd Hf. split; [done|]. by rewrite Hd.
  - intros c w Hc. split; [done|]. by apply quiet_call_operations.
Qed.
End Safe.

Section CalmSteps.
Context `{UuidLib} `{NostrLib} `{BuzzKinds} `{DocumentJson} {R : Type} `{Outside R} `{Keyring R}.
Variable time : nat → Z.
Variable uuid_at : nat → Z.
Variable temp_at : nat → string.
Variable hash_order : gset CommunityConfigId → list CommunityConfigId.
Variable info_of_json : string → option (list Z).
Variable self : LifecycleWake.
#[local] Notation W := (World (DaemonFx R)).
Context (Q : W → W → Prop) `{!Calm Q}.

Lemma calm_on {S E A} `{Beside (R := R) S} (m : M S E A) : always Q (on (W := W) m).
Proof. intros w. apply calm_beside; [apply on_db|apply on_work]. Qed.
Lemma calm_clock {E} : always Q (clock_now (R := R) (E := E) time).
Proof. intros w. by apply calm_beside. Qed.
Lemma calm_draw {E} : always Q (draw_index (R := R) (E := E)).
Proof. intros w. by apply calm_beside. Qed.
Lemma calm_uuid {E} : always Q (next_uuid (R := R) (E := E) uuid_at).
Proof. intros w. by apply calm_beside. Qed.
Lemma calm_temp {E} : always Q (next_temp (R := R) (E := E) temp_at).
Proof. intros w. by apply calm_beside. Qed.
Lemma calm_wake {E} : always Q (modify (E := E) (wake_publications (R := R))).
Proof. intros w. by apply calm_beside. Qed.
Lemma calm_files {A} (m : FileM A) : always Q (files (R := R) m).
Proof. apply calm_on. Qed.
Lemma calm_step {A} c (f : Db → stored A) :
  (∀ db, run_call c db = rmap snd (f db)) → quiet_call c = true → always Q (stored_step (R := R) f).
Proof.
  intros Hc Hq w. unfold stored_step. pose proof (calm_stored c w Hq) as Hs.
  unfold stored_by, after_call in Hs. rewrite Hc in Hs.
  destruct (f (w_db w)) as [[a db]|e]; [exact Hs|reflexivity].
Qed.

Lemma calm_enqueue action scope subject :
  always Q (enqueue_publication (R := R) time uuid_at action scope subject).
Proof.
  apply (always_bind Q); [apply calm_uuid|]. intros fresh. apply (always_bind Q); [apply calm_clock|].
  intros now. by apply (calm_step (CallEnqueue fresh action scope subject now)).
Qed.
Lemma calm_record kind subject scope : always Q (record_projection (R := R) time kind subject scope).
Proof.
  apply (always_bind Q); [apply calm_clock|]. intros now.
  by apply (calm_step (CallRecordProjection kind subject scope now)).
Qed.

Lemma calm_sync_persona_in persona id (w : W) : Q w (sync_persona_in time uuid_at self persona id w).
Proof.
  unfold sync_persona_in. destruct (get_community id (w_db w)) as [community|]; [|reflexivity].
  assert (Q w (owner_keys_for_community self community w).2) as K1.
  { unfold owner_keys_for_community. apply (always_bind Q); [apply (always_of_result Q)|].
    intros pubkey. apply calm_on. }
  destruct (owner_keys_for_community self community w) as [[keys|e] w1]; cbn in K1; [|done].
  cbv zeta. set (m := sync_persona _ keys persona). pose proof (calm_on m w1) as K2.
  destruct (on m w1) as [[[]|e] w2]; cbn in K2.
  - etrans; [exact K1|]. etrans; [exact K2|]. apply calm_record.
  - set (scope := projection_scope _ _ _).
    pose proof (calm_enqueue SyncPersona scope (pd_id persona) w2) as K3.
    destruct (enqueue_publication time uuid_at SyncPersona scope (pd_id persona) w2) as [[[]|e'] w3];
      cbn in K3; (etrans; [exact K1|]; etrans; [exact K2|]); [|exact K3].
    etrans; [exact K3|]. by apply calm_beside.
Qed.

Lemma calm_referencing persona agents (w : W) : Q w (referencing_communities self persona agents w).2.
Proof.
  revert w. induction agents as [|agent agents IH]; intros w; cbn [referencing_communities]; [reflexivity|].
  pose proof (calm_on (load_agent (lw_agent_files self) (spec_id agent)) w) as K.
  destruct (on (load_agent _ _) w) as [file w1]; cbn in K. specialize (IH w1).
  destruct (referencing_communities self persona agents w1) as [rest w2]. cbn in *. by etrans.
Qed.

Lemma calm_sync_references persona (w : W) :
  Q w (sync_persona_references time uuid_at hash_order self persona w).
Proof.
  unfold sync_persona_references. pose proof (calm_referencing (pd_id persona) (list_agents None (w_db w)) w) as K.
  destruct (referencing_communities _ _ _ w) as [referencing w1]. cbn in K. cbv zeta.
  etrans; [exact K|].
  generalize (hash_order (list_to_set (referencing
    ++ map sc_community (relay_projection_scopes Persona (pd_id persona) (w_db w1))))) as l.
  intros l. clear K. revert w1. induction l as [|id l IH]; intros w1; cbn; [reflexivity|].
  etrans; [apply calm_sync_persona_in|apply IH].
Qed.

Lemma calm_save persona : always Q (save_persona time uuid_at temp_at hash_order self persona).
Proof.
  unfold save_persona. apply (always_bind Q); [apply calm_temp|]. intros tmp.
  apply (always_bind Q); [apply calm_files|]. intros _.
  apply (always_bind Q); [|intros _; apply (always_ret Q)].
  intros w. apply calm_sync_references.
Qed.
Lemma calm_if_ok {A} (m : M Fs A (option string)) : always Q (if_ok (R := R) m).
Proof. intros w. unfold if_ok. pose proof (calm_on m w) as K. by destruct (on m w) as [[]]. Qed.

Lemma calm_persist agent input : always Q (wake_persist_agent_create (R := R) temp_at self agent input).
Proof.
  unfold wake_persist_agent_create, next_temp. always_steps;
    first [apply calm_on | apply calm_files | apply calm_draw].
Qed.

(** The daemon's effects are quiet but for handing an operation to the worker. *)
Lemma wake_keeps :
  (∀ op w, Q w (wake_operation_ready (R := R) op w).2) →
  EffectsKeep (H := wake_effects (R := R) time uuid_at temp_at hash_order info_of_json self) Q.
Proof.
  intros Hready.
  constructor; cbn [wake_effects verify_community_join community_changed community_identity_unreferenced
    community_agents_purged fx_create_persona fx_update_persona fx_get_persona fx_list_personas
    fx_delete_persona prepare_agent_create persist_agent_create prepare_agent_update
    agent_public_key agent_system_prompt_file operation_ready].
  - intros c. apply calm_on.
  - intros id w. by apply calm_beside.
  - intros k w. unfold wake_community_identity_unreferenced.
    destruct (has_pending_relay_publications_for_owner k (w_db w)); [reflexivity|]. apply calm_on.
  - intros ids. apply (always_forM_ Q). intros id w. unfold purge_agent_file.
    pose proof (calm_on (remove_agent (lw_agent_files self) id) w) as K.
    destruct (on _ w) as [[[]|e] w1]; cbn in K; [done|]. by destruct e; try destruct (kind_is _ _).
  - intros r. apply (always_bind Q); [apply calm_uuid|]. intros id. apply calm_save.
  - intros r. apply (always_bind Q); [apply calm_files|]. intros persona. apply calm_save.
  - intros id. apply calm_files.
  - apply calm_files.
  - intros id. unfold wake_delete_persona. always_steps.
    + apply calm_files.
    + apply (always_forM_ Q). intros scope. apply (always_map_err Q), calm_enqueue.
    + apply calm_files.
    + apply calm_wake.
  - intros id input. unfold wake_prepare_agent_create. always_steps; apply calm_files.
  - apply calm_persist.
  - intros agent changes. unfold wake_prepare_agent_update, next_temp. always_steps;
      first [apply calm_files | apply calm_draw].
  - intros id. apply calm_if_ok.
  - intros id. apply calm_if_ok.
  - exact Hready.
Qed.
End CalmSteps.

(** The daemon's effects keep what the application service relies on. *)
#[export] Instance wake_safe `{UuidLib} `{NostrLib} `{BuzzKinds} `{DocumentJson} {R} `{Outside R} `{Keyring R}
    time uuid_at temp_at hash_order info_of_json self :
  EffectsSafe (H0 := wake_effects (R := R) time uuid_at temp_at hash_order info_of_json self).
Proof.
  apply wake_keeps; [apply _|]. intros op w. unfold wake_operation_ready. apply by_calls_same. unfold send_work.
  by destruct (channel_send _ _) as [[] c].
Qed.

(** ** Deleting a persona *)
Definition queued (action : RelayPublicationAction) (scope : RelayProjectionScope) (subject : string)
    (db : Db) : Prop :=
  ∃ id row, t_outbox db !! id = Some row
    ∧ outbox_key row = (RelayPublicationAction_as_str action, sc_relay_url scope,
                        sc_owner_pubkey scope, subject, sc_d_tag scope).
(** The outbox keeps what it holds. *)
Definition outbox_grows (db db' : Db) : Prop := t_outbox db ⊆ t_outbox db'.
#[export] Instance outbox_grows_preorder : PreOrder outbox_grows.
Proof. unfold outbox_grows. split; [by intros db|]. intros a b c. by etrans. Qed.

Lemma enqueue_queues `{UuidLib} fresh action scope subject now db r db' :
  enqueue_relay_publication fresh action scope subject now db = Ok (r, db') →
  queued action scope subject db' ∧ outbox_grows db db'.
Proof.
  unfold enqueue_relay_publication, sql_enqueue, queued, outbox_grows.
  destruct (existsb _ _) eqn:Ex; cbn.
  - intros [= _ <-]. split; [|done]. apply existsb_exists in Ex as ([id row] & Hin & Hk).
    apply bool_decide_eq_true in Hk. apply list_elem_of_In, elem_of_map_to_list in Hin.
    exists id, row. split; [done|]. cbn in Hk. by rewrite Hk.
  - destruct (t_outbox db !! Uuid_to_string fresh) eqn:El; cbn; [done|]. intros [= _ <-]. split.
    + eexists _, _. split; [apply lookup_insert_eq|done].
    + by apply insert_subseteq.
Qed.
Lemma queued_grows action scope subject db db' :
  outbox_grows db db' → queued action scope subject db → queued action scope subject db'.
Proof.
  intros Hg (id & row & Hr & Hk). exists id, row. split; [|done]. by eapply lookup_weaken.
Qed.

Section DeletePersona.
Context `{UuidLib} `{NostrLib} `{BuzzKinds} `{DocumentJson} {R : Type} `{Outside R} `{Keyring R}.
Variable time : nat → Z.
Variable uuid_at : nat → Z.
Variable self : LifecycleWake.
#[local] Notation W := (World (DaemonFx R)).

Lemma enqueue_all id scopes (w : W) r w' :
  forM_ (λ scope, store_error (enqueue_publication time uuid_at TombstonePersona scope id)) scopes w
  = (r, w') →
  w_fx w' = w_fx w ∧ outbox_grows (w_db w) (w_db w')
  ∧ (r = Ok tt → ∀ scope, scope ∈ scopes → queued TombstonePersona scope id (w_db w')).
Proof.
  revert w. induction scopes as [|scope scopes IH]; intros w; cbn [forM_].
  { intros [= <- <-]. split_and!; [done|reflexivity|]. by intros _ scope ?%not_elem_of_nil. }
  unfold mbind, M_bind at 1. destruct (store_error _ w) as [r1 w1] eqn:E1.
  assert (w_fx w1 = w_fx w ∧ outbox_grows (w_db w) (w_db w1)
          ∧ (r1 = Ok tt → queued TombstonePersona scope id (w_db w1))) as (F1 & G1 & Q1).
  { revert E1. unfold store_error, M_map_err, enqueue_publication, stored_step,
      next_uuid, draw_index, clock_now, mbind, M_bind, mret, M_ret. cbv beta iota zeta.
    match goal with |- context [enqueue_relay_publication ?f ?a ?s ?i ?n ?d] =>
      destruct (enqueue_relay_publication f a s i n d) as [[[] db]|e] eqn:Eq end; cbn.
    - intros [= <- <-]. apply enqueue_queues in Eq as [? ?]. by split_and!.
    - intros [= <- <-]. split_and!; [done|reflexivity|done]. }
  destruct r1 as [[]|e].
  - intros Hr. destruct (IH w1 Hr) as (F2 & G2 & Q2). split_and!.
    + congruence.
    + by etrans.
    + intros Hok s [->|Hs]%elem_of_cons; [|auto]. eapply queued_grows; [exact G2|auto].
  - intros [= <- <-]. by split_and!.
Qed.

Lemma remove_persona_effect store id s r s' :
  remove_persona store id s = (r, s') →
  match r with
  | Ok _ => ∃ path, persona_path store id = Ok path ∧ fs_nodes s' = delete path (fs_nodes s)
  | Err _ => nodes_kept s s'
  end.
Proof.
  unfold remove_persona, mbind, M_bind, of_result. pose proof (kept_ensure_persona_removable store id s) as K1.
  destruct (ensure_persona_removable store id s) as [[persona|e] s1]; cbn in K1; [|by intros [= <- <-]].
  destruct (persona_path store id) as [path|e]; [|by intros [= <- <-]]. unfold io, M_map_err.
  destruct (remove_file_effect path s1) as [(E2 & D2 & _)|[[e E2] K2]];
    destruct (remove_file path s1) as [r2 s2]; cbn in *; subst r2; cbn; intros [= <- <-].
  - exists path. split; [done|]. by rewrite D2, K1.
  - by etrans.
Qed.

(** Deleting a persona leaves no projection behind. When the deletion succeeds, a
    tombstone for every relay the persona was published to is in the durable outbox, the
    document is gone and nothing else of the file system changed, and the publication
    worker has been woken if there is anything to publish. When it fails, no file has
    changed; nothing that was queued before is ever lost. *)
Theorem deleted_personas_are_tombstoned id (w : W) r w' :
  wake_delete_persona time uuid_at self id w = (r, w') →
  let fs := fx_fs (w_fx w) in
  let fs' := fx_fs (w_fx w') in
  outbox_grows (w_db w) (w_db w')
  ∧ match r with
    | Ok _ =>
      (∀ scope, scope ∈ relay_projection_scopes Persona id (w_db w) →
         queued TombstonePersona scope id (w_db w'))
      ∧ (∃ path, persona_path (lw_agent_files self) id = Ok path
           ∧ fs_nodes fs' = delete path (fs_nodes fs))
      ∧ (relay_projection_scopes Persona id (w_db w) ≠ [] → ch_open (fx_publications (w_fx w)) = true →
         ch_sent (fx_publications (w_fx w')) = ch_sent (fx_publications (w_fx w)) ++ [WakePublications])
    | Err _ => fs_nodes fs' = fs_nodes fs
    end.
Proof.
  unfold wake_delete_persona. cbv zeta. intros Hr.
  unfold mbind at 1, M_bind at 1 in Hr. unfold files at 1, on at 1, M_map_err at 1 in Hr.
  pose proof (kept_ensure_persona_removable (lw_agent_files self) id (fx_fs (w_fx w))) as K1.
  cbn [part world_fs] in Hr.
  destruct (ensure_persona_removable _ id _) as [[p|e] s1]; cbn [snd map_err set_part world_fs] in K1, Hr.
  2: { injection Hr as <- <-. split; [reflexivity|done]. }
  set (w1 := set_fx _ w) in Hr. unfold mbind at 1, M_bind at 1, db_read, gets in Hr.
  assert (w_db w1 = w_db w) as D1 by done. rewrite D1 in Hr.
  set (scopes := relay_projection_scopes Persona id (w_db w)) in *.
  unfold mbind at 1, M_bind at 1 in Hr.
  destruct (forM_ _ scopes w1) as [r2 w2] eqn:E2. apply enqueue_all in E2 as (F2 & G2 & Q2).
  rewrite D1 in G2. destruct r2 as [[]|e].
  2: { injection Hr as <- <-. split; [done|]. by rewrite F2. }
  specialize (Q2 eq_refl). unfold mbind at 1, M_bind at 1 in Hr.
  unfold files, on, M_map_err in Hr. cbn [part world_fs] in Hr.
  destruct (remove_persona (lw_agent_files self) id (fx_fs (w_fx w2))) as [r3 s3] eqn:E3.
  apply remove_persona_effect in E3. rewrite F2 in E3.
  destruct r3 as [persona|e]; cbn [map_err set_part world_fs] in Hr.
  2: { injection Hr as <- <-. split; [done|]. cbn. by etrans. }
  destruct E3 as (path & Hp & Hd). unfold mbind, M_bind in Hr.
  assert (fs_nodes (fx_fs (w_fx w1)) = fs_nodes (fx_fs (w_fx w))) as N1 by done.
  rewrite N1 in Hd.
  destruct scopes as [|scope scopes']; injection Hr as <- <-.
  - split; [done|]. split_and!; [done| |done]. by exists path.
  - split; [done|]. split_and!; [done|by exists path|]. intros _ Hopen.
    cbn. unfold channel_send. rewrite F2. cbn. by rewrite Hopen.
Qed.
End DeletePersona.

(** ** A persona published to one relay *)
Definition ops_persona : PersonaDefinition :=
  mkPersonaDefinition "ops" "Ops" None "prompt" None None None [] ∅ None [] None false true false.
#[local] Instance ops_json : DocumentJson := {|
  agent_to_json _ := "{}"; agent_of_json _ := None;
  persona_to_json _ := "{}"; persona_of_json _ := Some ops_persona
|}.
Definition sample_wake : LifecycleWake :=
  mkLifecycleWake (mkPath true ["run"; "ids"]) (mkPath true ["var"; "ids"])
    (mkAgentFileStore (mkPath true ["srv"])) (mkCustody (mkPath true ["keys"]) 0).
Definition persona_document : Path := mkPath true ["srv"; "personas"; "ops.json"].
Definition wake_fs : Fs :=
  mkFs {[ mkPath true ["srv"; "agents"] := mkNode Directory 493 0 "";
          persona_document := mkNode RegularFile 384 0 "{}" ]} [] 0.
Definition ops_scope : RelayProjectionScope :=
  mkRelayProjectionScope (mkCommunityConfigId 1) "wss://relay/" "public-owner" "ops".
Definition wake_db : Db :=
  set_t_projections {[ (mkCommunityConfigId 1, "persona", "ops") :=
                         mkProjectionRow "wss://relay/" "public-owner" "ops" 5 ]} empty_db.
Definition wake_world : World (DaemonFx unit) :=
  mkWorld wake_db (mkDaemonFx wake_fs () (mkChannel true []) (mkChannel true []) (mkChannel true []))
    0 0 0.

Lemma deleted_personas_are_tombstoned_witness :
  let run := wake_delete_persona (R := unit) sample_time sample_uuid sample_wake "ops" wake_world in
  run.1 = Ok ops_persona
  ∧ queued TombstonePersona ops_scope "ops" (w_db run.2)
  ∧ fs_nodes (fx_fs (w_fx run.2)) = delete persona_document (fs_nodes wake_fs)
  ∧ ch_sent (fx_publications (w_fx run.2)) = [WakePublications].
Proof.
  intros run. assert (run.1 = Ok ops_persona) as Hok by (vm_compute; reflexivity).
  destruct run as [r w'] eqn:Er. cbn [fst snd] in *. subst r.
  destruct (deleted_personas_are_tombstoned sample_time sample_uuid sample_wake "ops" wake_world
    (Ok ops_persona) w' Er) as (_ & Hq & (path & Hp & Hd) & Hwake).
  assert (relay_projection_scopes Persona "ops" (w_db wake_world) = [ops_scope]) as Hscopes
    by (vm_compute; reflexivity).
  split; [done|]. split; [apply Hq; rewrite Hscopes; left|]. split.
  - assert (persona_path (lw_agent_files sample_wake) "ops" = Ok persona_document) as Hpath
      by (vm_compute; reflexivity).
    rewrite Hpath in Hp. injection Hp as <-. exact Hd.
  - exact (Hwake ltac:(by rewrite Hscopes) eq_refl).
Defined.
