(* ===== verification/Publications.v ===== *)
(** * The relay publication worker (main.rs, [drain_relay_publications])
    The outbox of relay publications is drained in order: each publication is made with the
    owner's key and leaves the outbox when the relay has accepted it; otherwise it stays,
    with its failure. The key of an identity that nothing refers to any more is removed. *)
From Stdlib Require Import ZArith Lia String Ascii.
From stdpp Require Import base gmap list strings.
From S2P Require Import Prelude RustStr Ids Lifecycle Agent Runtime Launch Auth ApiTypes Schema.
From S2P Require Import Storage StoreInv Monad Application AppProps Bytes Fs AgentFiles.
From S2P Require Import Custody Nostr RelayProjection CommunityJoin Daemon Wake.
#[local] Open Scope Z_scope.
#[local] Set Warnings "-notation-for-abbreviation".

Record RelayPublicationContext : Type := mkPublicationContext {
  pc_community_identity_root : Path;
  pc_community_identity_store : Path;
  pc_agent_files : AgentFileStore;
  pc_custody : FilesystemAgentIdentityCustody
}.

(** ** Errors as text
    What the failed publication records; texts of other crates are an interface. *)
Class ErrorTexts : Type := {
  sqlite_error_text : SqliteError → string;
  json_error_text : string;
  uuid_error_text : string;
  other_error_text : DaemonError → string
}.
Section Texts.
Context `{UuidLib} `{ErrorTexts}.
Definition storage_error_text (e : StorageError) : string :=
  match e with
  | Database e => String.append "persistence failure: " (sqlite_error_text e)
  | Schema.InvalidData m => String.append "stored data is invalid: " m
  | StNotFound => "record not found"
  | StConflict m => String.append "record conflicts with existing state: " m
  | LockPoisoned => "storage lock is poisoned"
  end.
Definition agent_file_error_text (e : AgentFileError) : string :=
  match e with
  | FileIo e => String.append "I/O error: " (io_message e)
  | FileJson => String.append "invalid JSON: " json_error_text
  | FileValidation e => String.append "invalid agent configuration: " (ValidationError_to_string e)
  | PersonaNotFound id => String.append "persona " (String.append id " not found")
  | PersonaReferenced id agents => String.append "persona " (String.append id
      (String.append " is still referenced by agents: " agents))
  | RuntimeRequired id => String.append "linked persona " (String.append id
      " has no runtime and the agent has no runtime override")
  | StandaloneRuntimeRequired => "standalone agent requires a runtime"
  | AgentIdMismatch expected found =>
    String.append "agent file id " (String.append (AgentId_to_string found)
      (String.append " does not match expected id " (AgentId_to_string expected)))
  | SystemPromptFile path m => String.append "cannot read system prompt file "
      (String.append path (String.append ": " m))
  end.
Definition custody_error_text (e : CustodyError) : string :=
  match e with
  | CustodyIo _ => "custody I/O failed"
  | UnsafeRoot => "custody root is not a real directory"
  | WrongOwner => "custody path is owned by an unexpected uid"
  | UnsafeSecret => "custodied secret has unsafe ownership, type, or permissions"
  | InvalidSecret => "custodied secret is invalid"
  end.
Definition projection_error_text (e : RelayProjectionError) : string :=
  match e with
  | ProjectionTransport m => String.append "relay projection transport failed: " m
  | ProjectionRejected m => String.append "relay rejected projection: " m
  | ProjectionInvalid m => String.append "relay projection could not be built: " m
  end.
Definition daemon_error_text (e : DaemonError) : string :=
  match e with
  | InvalidOwnerSecret => "configured owner secret is invalid"
  | Task m => String.append "daemon task failed: " m
  | DaemonIo e => io_message e
  | e => other_error_text e
  end.
Definition parse_id_error_text (e : ParseIdError) : string :=
  match e with
  | WrongPrefix expected => String.append "identifier must start with " expected
  | NonCanonical => "identifier UUID must use 32 lowercase hexadecimal characters"
  | InvalidUuid => String.append "identifier contains an invalid UUID: " uuid_error_text
  end.
End Texts.

Section Drain.
Context `{UuidLib} `{NostrLib} `{BuzzKinds} `{DocumentJson} `{ErrorTexts}.
Context {R : Type} `{Outside R} `{Keyring R}.
Variable time : nat → Z.
(** [url::Url::parse] *)
Variable parse_url : string → result string Url.
Variable context : RelayPublicationContext.
#[local] Notation W := (World (DaemonFx R)).

Definition dstore {A} (f : Db → stored A) : M W DaemonError A := M_map_err DaemonStorage (stored_step f).
Definition text_store {A} (f : Db → stored A) : M W string A := M_map_err storage_error_text (stored_step f).
Definition text_files {A} (m : FileM A) : M W string A := on (S := Fs) (M_map_err agent_file_error_text m).
Definition projected (m : ProjectionM (R := R) unit) : M W string unit :=
  on (S := R) (M_map_err projection_error_text m).

Definition relay_publication_owner_keys (owner_pubkey : string) : M W DaemonError SecretKey :=
  let root := pc_community_identity_root context in
  found ← on (S := Fs) (M_map_err DaemonIo (path_exists (identity_file root owner_pubkey)));
  if (found : bool) then
    on (S := Fs) (M_map_err (λ e, match e with
                                  | IdentityIo e => DaemonIo e
                                  | IdentityUnparsed | IdentityMismatch => InvalidOwnerSecret
                                  end) (identity_keys root owner_pubkey))
  else throw (Task (String.append "owner key " (String.append owner_pubkey " is unavailable"))).

Definition cleanup_unreferenced_projection_owner (owner_pubkey : string) : M W DaemonError unit :=
  pending ← db_read (has_pending_relay_publications_for_owner owner_pubkey);
  communities ← db_read list_communities;
  if pending || existsb (λ c, bool_decide (cc_identity_pubkey c = Some owner_pubkey)) communities
  then mret tt
  else on (S := Fs * R) (M_map_err Task (remove_community_identity_custody
         (pc_community_identity_root context) (pc_community_identity_store context) owner_pubkey)).

Definition retained_scope (publication : RelayPublication) (community : CommunityConfigId)
    (d_tag : string) : RelayProjectionScope :=
  mkRelayProjectionScope community (rp_relay_url publication) (rp_owner_pubkey publication) d_tag.

Definition record_retained (kind : RelayProjectionKind) (publication : RelayPublication)
    (missing d_tag : string) : M W string unit :=
  community_id ← of_result (ok_or missing (rp_community publication));
  now ← clock_now time;
  text_store (record_relay_projection kind (rp_subject_id publication)
                (retained_scope publication community_id d_tag) now).

Definition retry_managed_agent_projection (publication : RelayPublication) (relay_url : Url)
    (owner_keys : SecretKey) : M W string unit :=
  agent_id ← of_result (map_err (λ e, String.append "invalid retained agent id: " (parse_id_error_text e))
                          (AgentId_from_str (rp_subject_id publication)));
  agent ← db_read (get_agent agent_id);
  match agent with
  | None => mret tt
  | Some agent =>
    found ← on (S := Fs) (M_map_err io_message (path_exists (agent_path (pc_agent_files context) agent_id)));
    if negb found then mret tt
    else
    file ← text_files (load_agent (pc_agent_files context) agent_id);
    resolved ← text_files (resolve (pc_agent_files context) file (spec_community agent)
                             (spec_desired_state agent));
    agent_keys ← on (S := Fs) (M_map_err custody_error_text (load (pc_custody context) agent_id));
    _ ← projected (sync_managed_agent_projection relay_url owner_keys agent_keys resolved);
    record_retained ManagedAgent publication "managed-agent projection retry has no community"
      (public_key_hex agent_keys)
  end.

Definition retry_persona_projection (publication : RelayPublication) (relay_url : Url)
    (owner_keys : SecretKey) : M W string unit :=
  path ← of_result (map_err agent_file_error_text
                      (persona_path (pc_agent_files context) (rp_subject_id publication)));
  found ← on (S := Fs) (M_map_err io_message (path_exists path));
  if negb found then mret tt
  else
  persona ← text_files (load_persona (pc_agent_files context) (rp_subject_id publication));
  _ ← projected (sync_persona relay_url owner_keys persona);
  record_retained Persona publication "persona projection retry has no community"
    (persona_d_tag (rp_subject_id publication)).

Definition publish (publication : RelayPublication) (relay_url : Url) (owner_keys : SecretKey)
    : M W string unit :=
  match rp_action publication with
  | SyncManagedAgent => retry_managed_agent_projection publication relay_url owner_keys
  | SyncPersona => retry_persona_projection publication relay_url owner_keys
  | TombstoneManagedAgent =>
    projected (tombstone_managed_agent relay_url owner_keys (rp_d_tag publication))
  | ArchiveIdentity => projected (archive_identity relay_url owner_keys (rp_d_tag publication))
  | TombstonePersona =>
    projected (tombstone_persona relay_url owner_keys (rp_subject_id publication))
  end.

Definition tombstoned_kind (action : RelayPublicationAction) : option RelayProjectionKind :=
  match action with
  | TombstoneManagedAgent => Some ManagedAgent
  | TombstonePersona => Some Persona
  | SyncManagedAgent | SyncPersona | ArchiveIdentity => None
  end.

(** After the relay has accepted the publication. *)
Definition published (publication : RelayPublication) : M W DaemonError unit :=
  _ ← dstore (complete_relay_publication (rp_id publication));
  _ ← (match rp_community publication, tombstoned_kind (rp_action publication) with
       | Some community_id, Some kind =>
         dstore (remove_relay_projection community_id kind (rp_subject_id publication))
       | _, _ => mret tt
       end);
  cleanup_unreferenced_projection_owner (rp_owner_pubkey publication).

Definition publication_failed (publication : RelayPublication) (error : string) : M W DaemonError unit :=
  now ← clock_now time;
  dstore (fail_relay_publication (rp_id publication) error now).

Definition attempt (publication : RelayPublication) (relay_url : Url) : M W DaemonError unit := λ w,
  match relay_publication_owner_keys (rp_owner_pubkey publication) w with
  | (Err error, w) => publication_failed publication (daemon_error_text error) w
  | (Ok owner_keys, w) =>
    match publish publication relay_url owner_keys w with
    | (Ok _, w) => published publication w
    | (Err error, w) => publication_failed publication error w
    end
  end.
Definition drain_one (publication : RelayPublication) : M W DaemonError unit :=
  relay_url ← of_result (map_err (λ e, Task (String.append "invalid retained relay URL: " e))
                           (parse_url (rp_relay_url publication)));
  attempt publication relay_url.

Definition read_pending : M W DaemonError (list RelayPublication) := λ w,
  (map_err DaemonStorage (pending_relay_publications (w_db w)), w).
Definition drain_relay_publications : M W DaemonError unit :=
  pending ← read_pending;
  forM_ drain_one pending.

(** ** The worker: what [recv_timeout] returns, turn by turn *)
Inductive PublicationReceived : Type :=
| ReceivedPublication (work : RelayPublicationWork) | PublicationTimedOut | PublicationDisconnected.
Definition publication_turn (received : PublicationReceived) (w : W) : option W :=
  match received with
  | ReceivedPublication ShutdownPublications | PublicationDisconnected => None
  | ReceivedPublication WakePublications | PublicationTimedOut => Some (ignore drain_relay_publications w)
  end.
End Drain.

(** ** What a drain does to the outbox *)
#[export] Instance logged_keyring {R} `{Keyring R} : Keyring (Logged R) := {|
  delete_credential := λ name '(r, log), let '(x, r) := delete_credential name r in (x, (r, log))
|}.

(** Requests are only ever added to the record. *)
Definition log_grows {R} (w w' : Logged R) : Prop := w.2 `prefix_of` w'.2.
#[export] Instance log_grows_preorder {R} : PreOrder (log_grows (R := R)).
Proof. unfold log_grows. split; [by intros w|]. intros a b c. by etrans. Qed.

Section Logs.
Context `{NostrLib} `{BuzzKinds} {R : Type} `{Outside R} `{Keyring R}.

Lemma quiet_grows (w w' : Logged R) : quiet w w' → log_grows w w'.
Proof. unfold quiet, log_grows. by intros ->. Qed.
Lemma always_quiet_grows {E A} (m : M (Logged R) E A) : always quiet m → always log_grows m.
Proof. intros Hm w. by apply quiet_grows. Qed.
Lemma grows_draw {E A} (f : Logged R → A * Logged R) :
  (∀ w, quiet w (f w).2) → always log_grows (draw (E := E) f).
Proof. intros Hf. by apply always_quiet_grows, quiet_draw. Qed.
Lemma grows_send q : always log_grows (transported (R := Logged R) (send_request q)).
Proof.
  intros [r log]. unfold transported, M_map_err. cbn. destruct (send_request q r) as [x r'].
  unfold log_grows. cbn. by apply prefix_app_r.
Qed.
Lemma grows_client : always log_grows (client (R := Logged R)).
Proof. apply always_quiet_grows, (always_map_err quiet), quiet_client. Qed.

Ltac log_steps :=
  unfold query_latest, submit_event, nip98_auth_header, sign_now, parsed_tag, serialized; always_steps;
  first [apply grows_send | apply grows_client
        | apply grows_draw; solve [apply quiet_uuid|apply quiet_timestamp]].

Lemma grows_sync_managed u o a r :
  always log_grows (sync_managed_agent_projection (R := Logged R) u o a r).
Proof. unfold sync_managed_agent_projection, sync_managed_agent. log_steps. Qed.
Lemma grows_sync_persona u o p : always log_grows (sync_persona (R := Logged R) u o p).
Proof. unfold sync_persona. log_steps. Qed.
Lemma grows_tombstone u o k d : always log_grows (tombstone_coordinate (R := Logged R) u o k d).
Proof. unfold tombstone_coordinate. log_steps. Qed.
Lemma grows_archive u o k : always log_grows (archive_identity (R := Logged R) u o k).
Proof. unfold archive_identity. log_steps. Qed.

(** A tombstone that was published. *)
Definition coordinate (kind : Z) (owner d_tag : string) : string :=
  String.append (show_Z kind) (String.append ":" (String.append owner (String.append ":" d_tag))).
Lemma tombstone_accepted `{!NostrLaws} u keys kind d (w : Logged R) w' :
  tombstone_coordinate u keys kind d w = (Ok tt, w') →
  ∃ x t, w'.2 = w.2 ++ [x] ∧ accepted x
    ∧ posted keys (String.append (relay_http_base_url u) "/events")
        (event_as_json (mkNostrEvent (public_key_hex keys) t KIND_DELETE
           [["a"; coordinate kind (public_key_hex keys) d]] EmptyString)) x.
Proof.
  unfold tombstone_coordinate. cbv zeta. intros Hr.
  apply (bind_quiet _ _ _ _ _ quiet_client_step) in Hr as [(e & ? & _)|([] & w1 & _ & Q1 & Hr)]; [done|].
  unfold parsed_tag in Hr. rewrite tag_parse_nonempty in Hr. cbn [map_err] in Hr.
  apply bind_ok in Hr as (tag & w2 & [= <- <-] & Hr).
  apply (bind_quiet _ _ _ _ _ (quiet_sign _ _ _ _ _)) in Hr as [(e & ? & _)|(ev & w3 & Hs & Q3 & Hr)]; [done|].
  apply sign_now_ok in Hs as (t & ->).
  apply submit_event_log in Hr as [(e & ? & _)|(x & Hl & Hp & Ha)]; [done|].
  exists x, t. split_and!; [by rewrite Hl, Q3, Q1|auto|exact Hp].
Qed.
End Logs.

Section Outbox.
Context `{UuidLib} `{NL : NostrLib} `{!NostrLaws} `{BuzzKinds} `{DocumentJson} `{ErrorTexts}.
Context {R : Type} `{Outside R} `{Keyring R}.
Variable time : nat → Z.
Variable parse_url : string → result string Url.
Variable context : RelayPublicationContext.
#[local] Notation W := (World (DaemonFx (Logged R))).

Definition exchanges (w : W) : list Exchange := (fx_outside (w_fx w)).2.

(** Publishing leaves the outbox and the communities alone, and only adds requests. *)
Record publishing (w w' : W) : Prop := {
  pub_outbox : t_outbox (w_db w') = t_outbox (w_db w);
  pub_communities : t_communities (w_db w') = t_communities (w_db w);
  pub_log : exchanges w `prefix_of` exchanges w'
}.
#[export] Instance publishing_preorder : PreOrder publishing.
Proof.
  split; [by intros w; split|]. intros a b c [] []. split; [congruence|congruence|by etrans].
Qed.

Lemma publishing_fs {E A} (m : M Fs E A) : always publishing (on (W := W) m).
Proof. intros w. unfold on. destruct (m (part w)). by split. Qed.
Lemma publishing_outside {E A} (m : M (Logged R) E A) :
  always log_grows m → always publishing (on (W := W) m).
Proof.
  intros Hm w. specialize (Hm (part w)). unfold on. destruct (m (part w)) as [r s]. by split.
Qed.
Lemma publishing_read {E A} (f : Db → A) : always publishing (db_read (R := Logged R) (E := E) f).
Proof. apply (always_gets publishing). Qed.
Lemma publishing_clock {E} : always publishing (clock_now (R := Logged R) (E := E) time).
Proof. intros w. by split. Qed.
Lemma publishing_record kind subject scope now :
  always publishing (text_store (R := Logged R) (record_relay_projection kind subject scope now)).
Proof. apply (always_map_err publishing). intros w. by split. Qed.
Lemma publishing_projected m : always log_grows m → always publishing (projected (R := Logged R) m).
Proof. intros Hm. apply publishing_outside, (always_map_err log_grows), Hm. Qed.

Lemma publish_publishing publication u keys :
  always publishing (publish (R := Logged R) time context publication u keys).
Proof.
  unfold publish, retry_managed_agent_projection, retry_persona_projection, record_retained,
    tombstone_managed_agent, tombstone_persona.
  always_steps; first
    [ apply publishing_fs | apply publishing_read | apply publishing_clock | apply publishing_record
    | apply publishing_projected; first [apply grows_sync_managed | apply grows_sync_persona
                                        | apply grows_tombstone | apply grows_archive] ].
Qed.
Lemma owner_keys_publishing k : always publishing (relay_publication_owner_keys (R := Logged R) context k).
Proof. unfold relay_publication_owner_keys. always_steps; apply publishing_fs. Qed.

Lemma grows_custody a b k :
  always (λ w w' : Fs * Logged R, log_grows w.2 w'.2) (remove_community_identity_custody a b k).
Proof.
  set (Q := λ w w' : Fs * Logged R, log_grows w.2 w'.2).
  assert (PreOrder Q) by (unfold Q; split; [by intros w|intros x y z; by etrans]).
  assert (∀ {E A} (m : M Fs E A), always Q (on (W := Fs * Logged R) m)) as Hfs.
  { intros E A m w. unfold on. destruct (m (part w)). by unfold Q. }
  unfold remove_community_identity_custody. always_steps; try apply Hfs.
  - intros [s [r log]]. unfold delete_keyring_entry, on. cbn.
    destruct (delete_credential _ r) as [[[]|[|m]] r']; cbn; try destruct (remove_file _ s);
      unfold Q, log_grows; cbn; reflexivity.
Qed.
Lemma cleanup_publishing k :
  always publishing (cleanup_unreferenced_projection_owner (R := Logged R) context k).
Proof.
  unfold cleanup_unreferenced_projection_owner. always_steps. intros w. unfold on, M_map_err.
  pose proof (grows_custody (pc_community_identity_root context) (pc_community_identity_store context)
    k (part w)) as K.
  destruct (remove_community_identity_custody _ _ k (part w)) as [r s]. by split.
Qed.

(** A publication's row afterwards: the same publication, tried at least as often. *)
Definition retained (row row' : OutboxRow) : Prop :=
  outbox_key row' = outbox_key row ∧ ob_attempts row ≤ ob_attempts row'.
#[export] Instance retained_preorder : PreOrder retained.
Proof. split; [by intros r|]. intros a b c [] []. split; [congruence|lia]. Qed.

(** The drain took up a publication in [w0] and ended later in [w']: its relay's URL, its
    owner's key as it was read, and what publishing it did, from [w1] to [w2]. *)
Record taken_up (publication : RelayPublication) (w0 w' : W) (u : Url) (keys : SecretKey) (w1 w2 : W) : Prop := {
  tu_url : parse_url (rp_relay_url publication) = Ok u;
  tu_keys : relay_publication_owner_keys context (rp_owner_pubkey publication) w0 = (Ok keys, w1);
  tu_published : publish time context publication u keys w1 = (Ok tt, w2);
  tu_kept : exchanges w2 `prefix_of` exchanges w'
}.

Lemma owner_keys_match k w keys w' :
  relay_publication_owner_keys (R := Logged R) context k w = (Ok keys, w') →
  eq_ignore_ascii_case (public_key_hex keys) k = true.
Proof.
  intros (found & w1 & _ & Hr)%bind_ok. destruct found; [|done].
  unfold on, M_map_err in Hr. destruct (identity_keys _ k (part w1)) as [[ks|e] s] eqn:Ek; [|done].
  injection Hr as -> _. by apply identity_keys_ok in Ek as (n & _ & _ & Hk).
Qed.

Lemma failed_outbox publication error w r w' :
  publication_failed (R := Logged R) time publication error w = (r, w') →
  t_communities (w_db w') = t_communities (w_db w) ∧ exchanges w' = exchanges w
  ∧ (∀ id, id ≠ rp_id publication → t_outbox (w_db w') !! id = t_outbox (w_db w) !! id)
  ∧ (∀ row, t_outbox (w_db w) !! rp_id publication = Some row →
       ∃ row', t_outbox (w_db w') !! rp_id publication = Some row' ∧ retained row row').
Proof.
  unfold publication_failed, clock_now, dstore, stored_step, fail_relay_publication, M_map_err, mbind, M_bind.
  intros [= _ <-]. split_and!; [done|done| |].
  - intros id Hid. cbn. by rewrite lookup_alter_ne.
  - intros row Hrow. cbn. rewrite lookup_alter_eq, Hrow. eexists. split; [done|].
    split; [done|cbn; lia].
Qed.

Lemma published_outbox publication w r w' :
  published (R := Logged R) context publication w = (r, w') →
  t_communities (w_db w') = t_communities (w_db w) ∧ exchanges w `prefix_of` exchanges w'
  ∧ ∀ id, id ≠ rp_id publication → t_outbox (w_db w') !! id = t_outbox (w_db w) !! id.
Proof.
  unfold published. intros Hr.
  assert (∀ w1 r1 w2, (dstore (R := Logged R) (complete_relay_publication (rp_id publication)) w1) = (r1, w2) →
    r1 = Ok tt ∧ w_fx w2 = w_fx w1 ∧ t_communities (w_db w2) = t_communities (w_db w1)
    ∧ t_outbox (w_db w2) = delete (rp_id publication) (t_outbox (w_db w1))) as Hc.
  { by intros w1 r1 w2 [= <- <-]. }
  unfold mbind at 1, M_bind at 1 in Hr.
  destruct (dstore _ w) as [r1 w1] eqn:E1. apply Hc in E1 as (-> & F1 & C1 & O1).
  set (m := (match rp_community publication, tombstoned_kind (rp_action publication) with
             | Some community_id, Some kind => _ | _, _ => _ end)) in Hr.
  assert (always publishing m) as Hm.
  { subst m. destruct (rp_community publication) as [c|]; [|apply (always_ret publishing)].
    destruct (tombstoned_kind (rp_action publication)); [|apply (always_ret publishing)].
    intros w0. by split. }
  clearbody m. assert (publishing w1 w') as [P1 P2 P3].
  { assert (always publishing (_ ← m; cleanup_unreferenced_projection_owner context
                                      (rp_owner_pubkey publication))) as Hmc.
    { apply (always_bind publishing); [exact Hm|]. intros _. apply cleanup_publishing. }
    specialize (Hmc w1). by rewrite Hr in Hmc. }
  split_and!.
  - congruence.
  - unfold exchanges in *. by rewrite F1 in P3.
  - intros id Hid. by rewrite P1, O1, lookup_delete_ne.
Qed.

Lemma drain_one_outbox publication w r w' :
  drain_one (R := Logged R) time parse_url context publication w = (r, w') →
  t_communities (w_db w') = t_communities (w_db w) ∧ exchanges w `prefix_of` exchanges w'
  ∧ (∀ id, id ≠ rp_id publication → t_outbox (w_db w') !! id = t_outbox (w_db w) !! id)
  ∧ (∀ row, t_outbox (w_db w) !! rp_id publication = Some row →
       (∃ row', t_outbox (w_db w') !! rp_id publication = Some row' ∧ retained row row')
       ∨ ∃ u keys w1 w2, taken_up publication w w' u keys w1 w2).
Proof.
  unfold drain_one, mbind, M_bind, of_result.
  destruct (parse_url (rp_relay_url publication)) as [u|e] eqn:Eu; cbn [map_err].
  2: { intros [= <- <-]. split_and!; [done|reflexivity|done|]. intros row Hrow. left. exists row.
       split; [done|reflexivity]. }
  unfold attempt. pose proof (owner_keys_publishing (rp_owner_pubkey publication) w) as [P1 P2 P3].
  destruct (relay_publication_owner_keys _ _ w) as [[keys|e] w1] eqn:Ek; cbn [snd] in *.
  2: { intros (C & L & O & Rt)%failed_outbox. rewrite P1 in O, Rt. split_and!; [congruence|by rewrite L|done|].
       intros row Hrow. left. auto. }
  pose proof (publish_publishing publication u keys w1) as [Q1 Q2 Q3].
  destruct (publish _ _ publication u keys w1) as [[[]|e] w2] eqn:Ep; cbn [snd] in *.
  - intros (C & L & O)%published_outbox. split_and!.
    + congruence.
    + by etrans; [|etrans].
    + intros id Hid. rewrite O by done. by rewrite Q1, P1.
    + intros row Hrow. right. exists u, keys, w1, w2. by split.
  - intros (C & L & O & Rt)%failed_outbox. rewrite Q1, P1 in O, Rt. split_and!; [congruence| |done|].
    + rewrite L. by etrans.
    + intros row Hrow. left. auto.
Qed.

Lemma taken_up_weaken publication w0 w' w'' u keys w1 w2 :
  exchanges w' `prefix_of` exchanges w'' →
  taken_up publication w0 w' u keys w1 w2 → taken_up publication w0 w'' u keys w1 w2.
Proof. intros Hp []. split; try done. by etrans. Qed.

(** A row that has left the outbox: after the publications before it, its own was taken up. *)
Definition left_outbox (publications : list RelayPublication) (w w' : W) (id : string) : Prop :=
  ∃ earlier publication later w0 u keys w1 w2, publications = earlier ++ publication :: later
    ∧ rp_id publication = id
    ∧ forM_ (drain_one (R := Logged R) time parse_url context) earlier w = (Ok tt, w0)
    ∧ taken_up publication w0 w' u keys w1 w2.

Lemma drain_all_outbox publications w r w' :
  forM_ (drain_one (R := Logged R) time parse_url context) publications w = (r, w') →
  t_communities (w_db w') = t_communities (w_db w) ∧ exchanges w `prefix_of` exchanges w'
  ∧ ∀ id row, t_outbox (w_db w) !! id = Some row →
      (∃ row', t_outbox (w_db w') !! id = Some row' ∧ retained row row')
      ∨ left_outbox publications w w' id.
Proof.
  revert w. induction publications as [|p ps IH]; intros w; cbn [forM_].
  { intros [= <- <-]. split_and!; [done|reflexivity|]. intros id row Hrow. left. exists row.
    split; [done|reflexivity]. }
  unfold mbind, M_bind. destruct (drain_one _ _ _ p w) as [r1 w1] eqn:E1. assert (E1' := E1).
  apply drain_one_outbox in E1 as (C1 & L1 & O1 & D1). intros Hr.
  assert (∀ w'', exchanges w1 `prefix_of` exchanges w'' → ∀ id row, t_outbox (w_db w) !! id = Some row →
    (∃ row', t_outbox (w_db w1) !! id = Some row' ∧ retained row row') ∨ left_outbox (p :: ps) w w'' id) as Step.
  { intros w'' Hp id row Hrow. destruct (decide (id = rp_id p)) as [->|Hne].
    - destruct (D1 row Hrow) as [?|(u & keys & wa & wb & Hd)]; [by left|right].
      exists [], p, ps, w, u, keys, wa, wb. split_and!; [done|done|done|]. by eapply taken_up_weaken.
    - left. exists row. rewrite O1 by done. split; [done|reflexivity]. }
  destruct r1 as [[]|e].
  2: { injection Hr as <- <-. split_and!; [done|done|]. intros id row Hrow. by apply Step. }
  apply IH in Hr as (C2 & L2 & D2). split_and!; [congruence|by etrans|].
  intros id row Hrow. destruct (Step w' L2 id row Hrow) as [(row1 & Hrow1 & Ht1)|?]; [|by right].
  destruct (D2 id row1 Hrow1) as [(row' & Hrow' & Ht')|(earlier & q & later & w0 & u & keys & wa & wb & -> & Hid & He & Hd)].
  - left. exists row'. split; [done|by etrans].
  - right. exists (p :: earlier), q, later, w0, u, keys, wa, wb. split_and!; [done|done| |done].
    cbn [forM_]. unfold mbind, M_bind. by rewrite E1'.
Qed.

(** A publication is the row it was read from. *)
Definition of_row (publication : RelayPublication) (row : OutboxRow) : Prop :=
  RelayPublicationAction_parse (ob_action row) = Ok (rp_action publication)
  ∧ rp_relay_url publication = ob_relay_url row ∧ rp_owner_pubkey publication = ob_owner_pubkey row
  ∧ rp_subject_id publication = ob_subject_id row ∧ rp_d_tag publication = ob_d_tag row.

Lemma pending_rows db publications publication :
  pending_relay_publications db = Ok publications → publication ∈ publications →
  ∃ row, t_outbox db !! rp_id publication = Some row ∧ of_row publication row.
Proof.
  intros Hf%collect_ok Hin. apply list_elem_of_lookup in Hin as [i Hi].
  destruct (Forall2_lookup_r _ _ _ _ _ Hf Hi) as ([id row] & Hp & Hok).
  assert ((id, row) ∈ map_to_list (t_outbox db)) as Hrow%elem_of_map_to_list.
  { apply (elem_of_sort_by (λ p q : string * OutboxRow, (ob_created_at p.2 <? ob_created_at q.2)
        || ((ob_created_at p.2 =? ob_created_at q.2) && String.leb p.1 q.1))).
    by apply list_elem_of_lookup_2 in Hp. }
  cbn in Hok. destruct (RelayPublicationAction_parse (ob_action row)) as [action|e] eqn:Ea; [|done].
  injection Hok as <-. exists row. split; [done|]. by split_and!.
Qed.

(** ** What publishing is, action by action *)
Definition events_url (u : Url) : string := String.append (relay_http_base_url u) "/events".
(** One event of the owner's was posted and accepted. *)
Definition owner_event (u : Url) (keys : SecretKey) (kind : Z) (tags : list (list string)) (content : string)
    (xs : list Exchange) : Prop :=
  ∃ x t, xs = [x] ∧ accepted x
    ∧ posted keys (events_url u) (event_as_json (mkNostrEvent (public_key_hex keys) t kind tags content)) x.
Definition tombstone_posted (u : Url) (keys : SecretKey) (kind : Z) (d_tag : string) : list Exchange → Prop :=
  owner_event u keys KIND_DELETE [["a"; coordinate kind (public_key_hex keys) d_tag]] EmptyString.
(** The request to archive [pubkey], authorized by the owner. *)
Definition archive_posted (u : Url) (keys : SecretKey) (pubkey : string) (xs : list Exchange) : Prop :=
  ∃ auth parts kind tags content, nip_oa_auth_tag keys pubkey EmptyString = Ok auth
    ∧ strings_of_json auth = Some parts ∧ archive_identity_request pubkey parts = Ok (kind, tags, content)
    ∧ owner_event u keys kind tags content xs.
(** The relay was brought up to date with the agent as its document resolves now; or the agent
    or its document is gone, and nothing was asked. *)
Definition agent_synchronised (w : W) (u : Url) (keys : SecretKey) (subject : string) (xs : list Exchange) : Prop :=
  ∃ id, AgentId_from_str subject = Ok id
    ∧ match get_agent id (w_db w) with
      | None => xs = []
      | Some agent => ∃ s0,
        path_exists (agent_path (pc_agent_files context) id) (part w) = (Ok false, s0) ∧ xs = []
        ∨ path_exists (agent_path (pc_agent_files context) id) (part w) = (Ok true, s0)
          ∧ ∃ file resolved agent_keys content s1 s2 s3,
              load_agent (pc_agent_files context) id s0 = (Ok file, s1)
              ∧ resolve (pc_agent_files context) file (spec_community agent) (spec_desired_state agent) s1
                = (Ok resolved, s2)
              ∧ load (pc_custody context) id s2 = (Ok agent_keys, s3)
              ∧ to_json (managed_agent_content resolved) = Some content
              ∧ synchronised keys (relay_http_base_url u)
                  (latest_filter (public_key_hex keys) KIND_MANAGED_AGENT (Some (public_key_hex agent_keys)))
                  (has_content content) KIND_MANAGED_AGENT [["d"; public_key_hex agent_keys]] content xs
      end.
Definition persona_synchronised (w : W) (u : Url) (keys : SecretKey) (subject : string) (xs : list Exchange) : Prop :=
  ∃ path s0, persona_path (pc_agent_files context) subject = Ok path
    ∧ (path_exists path (part w) = (Ok false, s0) ∧ xs = []
       ∨ path_exists path (part w) = (Ok true, s0)
         ∧ ∃ persona content s1,
             load_persona (pc_agent_files context) subject s0 = (Ok persona, s1)
             ∧ to_json (persona_content persona) = Some content
             ∧ synchronised keys (relay_http_base_url u)
                 (latest_filter (public_key_hex keys) KIND_PERSONA (Some (persona_d_tag (pd_id persona))))
                 (persona_unchanged content (pd_shared persona)) KIND_PERSONA
                 (["d"; persona_d_tag (pd_id persona)]
                    :: (if pd_shared persona then [["shared"; "true"]] else [])) content xs).
Definition made (publication : RelayPublication) (w : W) (u : Url) (keys : SecretKey) (xs : list Exchange) : Prop :=
  match rp_action publication with
  | SyncManagedAgent => agent_synchronised w u keys (rp_subject_id publication) xs
  | SyncPersona => persona_synchronised w u keys (rp_subject_id publication) xs
  | TombstoneManagedAgent => tombstone_posted u keys KIND_MANAGED_AGENT (rp_d_tag publication) xs
  | TombstonePersona => tombstone_posted u keys KIND_PERSONA (persona_d_tag (rp_subject_id publication)) xs
  | ArchiveIdentity => archive_posted u keys (rp_d_tag publication) xs
  end.

Lemma projected_ok m (w : W) w2 :
  projected (R := Logged R) m w = (Ok tt, w2) →
  ∃ s, m (fx_outside (w_fx w)) = (Ok tt, s) ∧ exchanges w2 = s.2.
Proof.
  unfold projected, on, M_map_err. cbn [part].
  change (part w) with (fx_outside (w_fx w)).
  destruct (m (fx_outside (w_fx w))) as [[[]|e] s] eqn:E; cbn; [|done]. intros [= <-]. by exists s.
Qed.
Lemma on_fs_ok {E F A} (f : E → F) (m : M Fs E A) (w : W) a w2 :
  on (S := Fs) (M_map_err f m) w = (Ok a, w2) →
  m (part w) = (Ok a, part w2) ∧ exchanges w2 = exchanges w ∧ w_db w2 = w_db w.
Proof.
  unfold on, M_map_err. destruct (m (part w)) as [[x|e] s] eqn:Em; cbn; [|done]. by intros [= <- <-].
Qed.
Lemma record_exchanges kind publication missing d_tag (w : W) r w2 :
  record_retained (R := Logged R) time kind publication missing d_tag w = (r, w2) → exchanges w2 = exchanges w.
Proof.
  unfold record_retained, mbind, M_bind, of_result, clock_now, text_store, M_map_err, stored_step.
  destruct (rp_community publication); cbn; by intros [= <- <-].
Qed.

Lemma tombstone_made u keys kind d (w w2 : W) :
  projected (tombstone_coordinate u keys kind d) w = (Ok tt, w2) →
  ∃ xs, exchanges w2 = exchanges w ++ xs ∧ tombstone_posted u keys kind d xs.
Proof.
  intros (s & Hs & Hx)%projected_ok. apply tombstone_accepted in Hs as (x & t & Hl & Ha & Hp).
  exists [x]. split; [by rewrite Hx, Hl|]. by exists x, t.
Qed.
Lemma archive_made u keys pubkey (w w2 : W) :
  projected (archive_identity u keys pubkey) w = (Ok tt, w2) →
  ∃ xs, exchanges w2 = exchanges w ++ xs ∧ archive_posted u keys pubkey xs.
Proof.
  intros (s & Hs & Hx)%projected_ok. unfold archive_identity in Hs. destruct (negb _); [done|].
  apply bind_ok in Hs as (auth & s1 & E1 & Hs). unfold of_result in E1. injection E1 as E1 <-.
  destruct (nip_oa_auth_tag keys pubkey EmptyString) as [a|] eqn:Ea; [|done]. injection E1 as ->.
  apply bind_ok in Hs as (parts & s1 & E1 & Hs). unfold of_result in E1. injection E1 as E1 <-.
  destruct (strings_of_json auth) as [ps|] eqn:Eps; [|done]. injection E1 as ->. destruct (negb _); [done|].
  apply bind_ok in Hs as ([[kind tags] content] & s1 & E1 & Hs). unfold of_result in E1. injection E1 as E1 <-.
  destruct (archive_identity_request pubkey parts) as [q|] eqn:Eq; [|done]. injection E1 as ->.
  apply (bind_quiet _ _ _ _ _ (quiet_sign _ _ _ _ _)) in Hs as [(e & ? & _)|(ev & w3 & Hs & Q3 & Hr)]; [done|].
  apply sign_now_ok in Hs as (t & ->).
  apply (bind_quiet _ _ _ _ _ quiet_client_step) in Hr as [(e & ? & _)|([] & w4 & _ & Q4 & Hr)]; [done|].
  apply submit_event_log in Hr as [(e & ? & _)|(x & Hl & Hp & Hacc)]; [done|].
  exists [x]. split; [by rewrite Hx, Hl, Q4, Q3|]. exists auth, parts, kind, tags, content.
  split_and!; [done|done|done|]. exists x, t. split_and!; [done|by apply Hacc|exact Hp].
Qed.
Lemma agent_made publication u keys (w w2 : W) :
  retry_managed_agent_projection (R := Logged R) time context publication u keys w = (Ok tt, w2) →
  ∃ xs, exchanges w2 = exchanges w ++ xs ∧ agent_synchronised w u keys (rp_subject_id publication) xs.
Proof.
  unfold retry_managed_agent_projection. intros Hr. apply bind_ok in Hr as (id & wa & E1 & Hr).
  unfold of_result in E1. injection E1 as E1 <-. destruct (AgentId_from_str _) as [i|] eqn:Ei; [|done].
  injection E1 as ->. apply bind_ok in Hr as (agent & wa & E1 & Hr). unfold db_read, gets in E1. injection E1 as <- <-.
  destruct (get_agent id (w_db w)) as [agent|] eqn:Ea.
  2: { injection Hr as <-. exists []. rewrite app_nil_r. split; [done|]. exists id. by rewrite Ea. }
  apply bind_ok in Hr as (found & wa & E1 & Hr). apply on_fs_ok in E1 as (E1 & Xa & _).
  destruct found; cbn [negb] in Hr.
  2: { injection Hr as <-. exists []. rewrite app_nil_r. split; [done|]. exists id. rewrite Ea. split; [done|].
       eexists. by left. }
  apply bind_ok in Hr as (file & wb & E2 & Hr). apply on_fs_ok in E2 as (E2 & Xb & _).
  apply bind_ok in Hr as (resolved & wc & E3 & Hr). apply on_fs_ok in E3 as (E3 & Xc & _).
  apply bind_ok in Hr as (agent_keys & wd & E4 & Hr). apply on_fs_ok in E4 as (E4 & Xd & _).
  apply bind_ok in Hr as ([] & we & E5 & Hr). apply record_exchanges in Hr.
  apply projected_ok in E5 as (s & Hs & Xe).
  destruct (projections_are_published_when_different u keys agent_keys resolved
    (mkPersonaDefinition "" "" None "" None None None [] ∅ None [] None false true true) (fx_outside (w_fx wd)))
    as [Hp _]. destruct (Hp _ _ Hs) as (xs & Hl & _ & _ & Hok). destruct (Hok eq_refl) as (content & Hc & Hsync).
  exists xs. split; [rewrite Hr, Xe, Hl; unfold exchanges in *; congruence|].
  exists id. rewrite Ea. split; [done|]. eexists. right. split; [exact E1|].
  eexists file, resolved, agent_keys, content, _, _, _. by split_and!.
Qed.
Lemma persona_made publication u keys (w w2 : W) :
  retry_persona_projection (R := Logged R) time context publication u keys w = (Ok tt, w2) →
  ∃ xs, exchanges w2 = exchanges w ++ xs ∧ persona_synchronised w u keys (rp_subject_id publication) xs.
Proof.
  unfold retry_persona_projection. intros Hr. apply bind_ok in Hr as (path & wa & E1 & Hr).
  unfold of_result in E1. injection E1 as E1 <-. destruct (persona_path _ _) as [q|] eqn:Eq; [|done]. injection E1 as ->.
  apply bind_ok in Hr as (found & wa & E1 & Hr). apply on_fs_ok in E1 as (E1 & Xa & _).
  destruct found; cbn [negb] in Hr.
  2: { injection Hr as <-. exists []. rewrite app_nil_r. split; [done|]. eexists path, _. split; [done|]. by left. }
  apply bind_ok in Hr as (persona & wb & E2 & Hr). apply on_fs_ok in E2 as (E2 & Xb & _).
  apply bind_ok in Hr as ([] & we & E5 & Hr). apply record_exchanges in Hr.
  apply projected_ok in E5 as (s & Hs & Xe).
  destruct (projections_are_published_when_different u keys keys
    (mkResolvedAgentConfig (mkAgentSpec (mkAgentId 1) (mkCommunityConfigId 1) "" ""
       (mkRuntimeSpec (mkRuntimeId "") ∅) Enabled) None None None None (mkFilesystemConfig None)
       [] 1 OwnerOnly [] None None) persona (fx_outside (w_fx wb)))
    as [_ Hp]. destruct (Hp _ _ Hs) as (xs & Hl & _ & _ & Hok). destruct (Hok eq_refl) as (content & Hc & Hsync).
  exists xs. split; [rewrite Hr, Xe, Hl; unfold exchanges in *; congruence|].
  eexists path, _. split; [done|]. right. split; [exact E1|]. eexists persona, content, _. by split_and!.
Qed.
Lemma publish_made publication u keys (w w2 : W) :
  publish (R := Logged R) time context publication u keys w = (Ok tt, w2) →
  ∃ xs, exchanges w2 = exchanges w ++ xs ∧ made publication w u keys xs.
Proof.
  unfold publish, made. destruct (rp_action publication);
    [apply agent_made|apply persona_made|apply tombstone_made|apply archive_made|apply tombstone_made].
Qed.

(** C12: A publication leaves the outbox only after it has been made. Whatever fails while
    the outbox is drained (but for statements of the database), a publication that was queued is afterwards still queued, with
    its attempts counted, or the drain came to it (after the ones before it in the queue)
    and published it: with its owner's key, read from the owner's identity, and with the
    exchanges [xs] in between. For a tombstone these are one deletion event for exactly its
    coordinate, for an archival one request for exactly its identity, signed by that key and
    accepted by its relay. For a synchronisation the relay was asked for its latest event
    and, unless that one shows the agent's or persona's document as it is now, took one that
    does; only when the agent or the document is gone by then is a synchronisation dropped
    without a request, as obsolete. No community changes. *)
Theorem publications_wait_for_the_relay w r w' id row :
  drain_relay_publications time parse_url context w = (r, w') →
  t_outbox (w_db w) !! id = Some row →
  t_communities (w_db w') = t_communities (w_db w)
  ∧ ((∃ row', t_outbox (w_db w') !! id = Some row' ∧ retained row row')
     ∨ ∃ earlier publication later w0 u keys w1 w2 xs,
         pending_relay_publications (w_db w) = Ok (earlier ++ publication :: later)
         ∧ rp_id publication = id ∧ of_row publication row
         ∧ forM_ (drain_one (R := Logged R) time parse_url context) earlier w = (Ok tt, w0)
         ∧ taken_up publication w0 w' u keys w1 w2
         ∧ eq_ignore_ascii_case (public_key_hex keys) (ob_owner_pubkey row) = true
         ∧ exchanges w2 = exchanges w1 ++ xs ∧ made publication w1 u keys xs).
Proof.
  unfold drain_relay_publications, mbind, M_bind, read_pending.
  destruct (pending_relay_publications (w_db w)) as [ps|e] eqn:Ep; cbn [map_err].
  2: { intros [= <- <-] Hrow. split; [done|]. left. exists row. split; [done|reflexivity]. }
  intros (C & _ & D)%drain_all_outbox Hrow. split; [done|].
  destruct (D id row Hrow) as [?|(earlier & p & later & w0 & u & keys & w1 & w2 & -> & Hid & He & Ht)]; [by left|right].
  destruct (pending_rows _ _ p Ep) as (row' & Hrow' & Hof); [set_solver|]. rewrite Hid, Hrow in Hrow'.
  injection Hrow' as <-. destruct (publish_made p u keys w1 w2 (tu_published _ _ _ _ _ _ _ Ht)) as (xs & Hx & Hm).
  exists earlier, p, later, w0, u, keys, w1, w2, xs. split_and!; try done.
  destruct Hof as (_ & _ & <- & _). by eapply owner_keys_match, tu_keys.
Qed.
End Outbox.

(** ** Identities that are still referred to *)
(** The file at [p] stays, with its content; its mode may change. *)
Definition file_stays (p : Path) (s s' : Fs) : Prop :=
  ∀ n, fs_nodes s !! p = Some n →
    ∃ n', fs_nodes s' !! p = Some n' ∧ n_data n' = n_data n ∧ n_kind n' = n_kind n.
#[export] Instance file_stays_preorder p : PreOrder (file_stays p).
Proof.
  split; [intros s n Hn; eauto|]. intros a b c Hab Hbc n (n1 & H1 & D1 & K1)%Hab.
  destruct (Hbc n1 H1) as (n2 & H2 & D2 & K2). exists n2. split_and!; congruence.
Qed.
Lemma kept_stays_file p s s' : nodes_kept s s' → file_stays p s s'.
Proof. intros Hk n Hn. exists n. by rewrite Hk. Qed.
Lemma only_at_stays_file p q s s' : q ≠ p → only_at q s s' → file_stays p s s'.
Proof. intros Hne Ho n Hn. exists n. by rewrite Ho. Qed.
Lemma always_kept_stays {E A} p (m : M Fs E A) : always nodes_kept m → always (file_stays p) m.
Proof. intros Hm s. by apply kept_stays_file. Qed.

Lemma real_path_kept k p : always nodes_kept (real_path k p).
Proof.
  revert p. induction k as [|k IH]; intros p; cbn [real_path];
    (apply (always_bind nodes_kept); [apply kept_node_at|]; intros n);
    destruct (n_kind n); try apply (always_ret nodes_kept); [apply (always_throw nodes_kept)|apply IH].
Qed.
Lemma kept_canonicalize p : always nodes_kept (canonicalize p).
Proof. apply kept_atomic_call, real_path_kept. Qed.
Lemma kept_or_prompt {A} path what (m : IO A) : always nodes_kept m → always nodes_kept (or_prompt_error path what m).
Proof. intros Hm s. specialize (Hm s). unfold or_prompt_error. by destruct (m s) as [[]]. Qed.

Section Reading.
Context `{UuidLib} `{DocumentJson} `{SecretKeys}.

Lemma kept_load_agent store id : always nodes_kept (load_agent store id).
Proof.
  unfold load_agent, io, json, validation. always_steps. apply (always_map_err nodes_kept). auto with buzz.
Qed.
Lemma kept_prompt file : always nodes_kept (resolve_system_prompt file).
Proof.
  unfold resolve_system_prompt. always_steps; apply kept_or_prompt; auto using kept_canonicalize with buzz.
Qed.
Lemma kept_resolve store file c d : always nodes_kept (resolve store file c d).
Proof.
  unfold resolve, effective_fields, validation. always_steps;
    first [apply kept_prompt | apply (always_map_err nodes_kept); auto with buzz].
Qed.

(** Loading a custodied key prepares its directory. *)
Lemma stays_create_dir_all p q : always (file_stays p) (create_dir_all q).
Proof.
  intros s n Hn. exists n. destruct (create_dir_all_grow q s p) as [->|(Hnone & _)]; [done|congruence].
Qed.
Lemma stays_set_permissions p q mode : always (file_stays p) (set_permissions q mode).
Proof.
  intros s n Hn. destruct (change_target_alters (with_mode mode) q s) as [Hk|[t Ht]].
  { exists n. unfold nodes_kept in Hk. unfold set_permissions. by rewrite Hk. }
  unfold set_permissions. rewrite Ht. destruct (decide (t = p)) as [->|Hne].
  - exists (with_mode mode n). by rewrite lookup_alter_eq, Hn.
  - exists n. by rewrite lookup_alter_ne.
Qed.
Lemma stays_load p self id : always (file_stays p) (load self id).
Proof.
  apply (always_bind (file_stays p)); [|intros _; apply always_kept_stays, kept_read_keys].
  unfold prepare_root, cio. always_steps; apply (always_map_err (file_stays p)).
  - apply stays_create_dir_all.
  - apply always_kept_stays. auto with buzz.
  - apply stays_set_permissions.
Qed.
End Reading.

Section Identities.
Context `{UuidLib} `{NostrLib} `{BuzzKinds} `{DocumentJson} `{ErrorTexts}.
Context {R : Type} `{Outside R} `{Keyring R}.
Variable time : nat → Z.
Variable parse_url : string → result string Url.
Variable context : RelayPublicationContext.
Variable root : Path.
Variable community : CommunityConfig.
Variable pubkey : string.
Hypothesis refers : cc_identity_pubkey community = Some pubkey.
#[local] Notation W := (World (DaemonFx R)).
#[local] Notation p := (identity_file root pubkey).

(** While the community is configured, its key stays. *)
Definition key_stays (w w' : W) : Prop :=
  t_communities (w_db w') = t_communities (w_db w)
  ∧ (community ∈ list_communities (w_db w) → file_stays p (fx_fs (w_fx w)) (fx_fs (w_fx w'))).
#[local] Instance key_stays_preorder : PreOrder key_stays.
Proof.
  split; [by intros w; split|]. intros a b c [Cab Fab] [Cbc Fbc]. split; [congruence|].
  intros Hin. etrans; [by apply Fab|]. apply Fbc. unfold list_communities in *. by rewrite Cab.
Qed.

Lemma key_stays_fs {E A} (m : M Fs E A) : always (file_stays p) m → always key_stays (on (W := W) m).
Proof.
  intros Hm w. specialize (Hm (part w)). unfold on. destruct (m (part w)) as [r s]. split; [done|].
  intros _. exact Hm.
Qed.
Lemma key_stays_outside {E A} (m : M R E A) : always key_stays (on (W := W) m).
Proof. intros w. unfold on. destruct (m (part w)). by split. Qed.
Lemma key_stays_step {A} (f : Db → stored A) :
  (∀ db a db', f db = Ok (a, db') → t_communities db' = t_communities db) →
  always key_stays (stored_step (R := R) f).
Proof.
  intros Hf w. unfold stored_step. destruct (f (w_db w)) as [[a db]|e] eqn:E; [|reflexivity].
  split; [by eapply Hf|done].
Qed.
Lemma recording_keeps_communities kind subject scope now db a db' :
  record_relay_projection kind subject scope now db = Ok (a, db') → t_communities db' = t_communities db.
Proof. unfold record_relay_projection. intros E. injection E as _ E. by subst db'. Qed.
Lemma key_stays_clock {E} : always key_stays (clock_now (R := R) (E := E) time).
Proof. intros w. by split. Qed.

Lemma removing_stays what k suffix dir :
  String.append k suffix ≠ String.append pubkey ".secret" →
  always (file_stays p) (removing what (join dir (String.append k suffix))).
Proof.
  intros Hne s. unfold removing. set (q := join dir (String.append k suffix)).
  pose proof (only_at_remove_file q s) as Ho.
  assert (file_stays p s (remove_file q s).2) as Hs.
  { apply (only_at_stays_file p q); [|exact Ho]. intros E%join_last. by apply Hne. }
  destruct (remove_file q s) as [[[]|e] s1]; cbn in *; [done|]. by destruct (kind_is NotFound e).
Qed.

Lemma custody_stays a b k :
  k ≠ pubkey →
  always (λ w w' : Fs * R, file_stays p w.1 w'.1) (remove_community_identity_custody a b k).
Proof.
  intros Hk. set (Q := λ w w' : Fs * R, file_stays p w.1 w'.1).
  assert (PreOrder Q) by (unfold Q; split; [by intros w|intros x y z; by etrans]).
  assert (String.append k ".secret" ≠ String.append pubkey ".secret") as N1.
  { by intros E%append_inj_suffix. }
  assert (String.append k ".keyring" ≠ String.append pubkey ".secret") as N2 by by apply append_neq_suffix.
  assert (String.append k ".envelope.json" ≠ String.append pubkey ".secret") as N3
    by by apply append_neq_suffix.
  assert (∀ {E A} (m : M Fs E A), always (file_stays p) m → always Q (on (W := Fs * R) m)) as Hfs.
  { intros E A m Hm w. specialize (Hm (part w)). unfold on. destruct (m (part w)). exact Hm. }
  unfold remove_community_identity_custody. cbv zeta. unfold identity_file at 1 2.
  always_steps.
  - apply Hfs, removing_stays, N1.
  - apply Hfs, (always_map_err (file_stays p)), always_kept_stays. auto with buzz.
  - intros w. unfold delete_keyring_entry. set (q := join b (String.append k ".keyring")).
    unfold on at 1. cbn [part has_snd]. destruct (delete_credential _ w.2) as [x r'].
    cbn [set_part has_snd].
    assert (always Q (on (W := Fs * R) (remove_file q))) as Hm.
    { apply Hfs. intros s. apply (only_at_stays_file p q); [|apply only_at_remove_file].
      intros E%join_last. by apply N2. }
    specialize (Hm (w.1, r')). destruct x as [[]|[|m]]; [exact Hm|exact Hm|]. by unfold Q.
  - apply Hfs, removing_stays, N1.
  - apply Hfs, removing_stays, N3.
Qed.

Lemma cleanup_stays k : always key_stays (cleanup_unreferenced_projection_owner (R := R) context k).
Proof.
  intros w. unfold cleanup_unreferenced_projection_owner, mbind, M_bind, db_read, gets.
  destruct (has_pending_relay_publications_for_owner k (w_db w) || _) eqn:Ec; [reflexivity|].
  apply orb_false_iff in Ec as [_ Ec]. unfold on, M_map_err.
  pose proof (custody_stays (pc_community_identity_root context) (pc_community_identity_store context) k) as K.
  split; [by destruct (remove_community_identity_custody _ _ k (part w))|]. intros Hin.
  assert (k ≠ pubkey) as Hk.
  { intros ->. apply (f_equal negb) in Ec. cbn in Ec. apply negb_true_iff in Ec.
    assert (existsb (λ c, bool_decide (cc_identity_pubkey c = Some pubkey)) (list_communities (w_db w)) = true)
      as Ht by (apply existsb_exists; exists community; split; [by apply list_elem_of_In|];
                by apply bool_decide_eq_true_2).
    congruence. }
  specialize (K Hk (part w)).
  destruct (remove_community_identity_custody _ _ k (part w)) as [r s]. exact K.
Qed.

Lemma drain_one_stays publication : always key_stays (drain_one (R := R) time parse_url context publication).
Proof.
  assert (∀ w m error, key_stays w m → key_stays w (publication_failed (R := R) time publication error m).2)
    as Hfail.
  { intros w m error Hm. etrans; [exact Hm|]. unfold publication_failed.
    apply (always_bind key_stays); [apply key_stays_clock|]. intros now.
    apply (always_map_err key_stays), key_stays_step. by intros db a db' [= _ <-]. }
  apply (always_bind key_stays); [apply (always_of_result key_stays)|]. intros u w. unfold attempt.
  assert (always key_stays (relay_publication_owner_keys (R := R) context (rp_owner_pubkey publication))) as Hk.
  { unfold relay_publication_owner_keys. always_steps; apply key_stays_fs, (always_map_err (file_stays p));
      apply always_kept_stays; auto using kept_identity_keys with buzz. }
  specialize (Hk w). destruct (relay_publication_owner_keys _ _ w) as [[keys|e] w1]; cbn in Hk; [|by apply Hfail].
  assert (always key_stays (publish (R := R) time context publication u keys)) as Hp.
  { unfold publish, retry_managed_agent_projection, retry_persona_projection, record_retained, text_files,
      text_store, projected. always_steps;
    first [ apply key_stays_outside | apply key_stays_clock
          | apply (always_map_err key_stays), key_stays_step, recording_keeps_communities
          | apply key_stays_fs, (always_map_err (file_stays p)); first
              [ apply stays_load
              | apply always_kept_stays; first [apply kept_load_agent | apply kept_resolve
                                               | apply kept_load_persona | auto with buzz] ] ]. }
  specialize (Hp w1). destruct (publish _ _ publication u keys w1) as [[[]|e] w2]; cbn in Hp.
  - etrans; [exact Hk|]. etrans; [exact Hp|]. unfold published.
    apply (always_bind key_stays).
    { apply (always_map_err key_stays), key_stays_step. by intros db a db' [= _ <-]. }
    intros _. apply (always_bind key_stays); [|intros _; apply cleanup_stays].
    destruct (rp_community publication) as [c|]; [|apply (always_ret key_stays)].
    destruct (tombstoned_kind (rp_action publication)); [|apply (always_ret key_stays)].
    apply (always_map_err key_stays), key_stays_step. by intros db a db' [= _ <-].
  - apply Hfail. by etrans.
Qed.

(** Draining the outbox never removes the key of a community's identity: whatever is
    published or fails, the secret file under the identity's name, in whichever directory,
    is still there with its content as long as some configured community has that
    identity. *)
Theorem identities_in_use_are_kept w r w' n :
  drain_relay_publications (R := R) time parse_url context w = (r, w') →
  community ∈ list_communities (w_db w) →
  fs_nodes (fx_fs (w_fx w)) !! identity_file root pubkey = Some n →
  ∃ n', fs_nodes (fx_fs (w_fx w')) !! identity_file root pubkey = Some n'
    ∧ n_data n' = n_data n ∧ n_kind n' = n_kind n.
Proof.
  intros Hr Hin Hn. unfold drain_relay_publications in Hr.
  assert (key_stays w w') as [_ Hs].
  { assert (always key_stays (drain_relay_publications (R := R) time parse_url context)) as Ha.
    { apply (always_bind key_stays); [by intros w0; split|]. intros ps.
      apply (always_forM_ key_stays), drain_one_stays. }
    specialize (Ha w). unfold drain_relay_publications in Ha. by rewrite Hr in Ha. }
  by apply Hs.
Qed.
End Identities.

(** ** An outbox with one tombstone *)
#[local] Existing Instances sample_keys sample_nostr sample_laws.
#[local] Instance drain_kinds : BuzzKinds := {| KIND_MANAGED_AGENT := 30177; KIND_PERSONA := 30175 |}.
#[local] Instance drain_json : DocumentJson := {|
  agent_to_json _ := "{}"; agent_of_json _ := None; persona_to_json _ := "{}"; persona_of_json _ := None
|}.
#[local] Instance drain_texts : ErrorTexts := {|
  sqlite_error_text _ := "sqlite"; json_error_text := "json"; uuid_error_text := "uuid";
  other_error_text _ := "other"
|}.
#[local] Instance drain_relay : Outside unit := {|
  build_client := mret tt;
  send_request := λ _, mret (mkHttpResponse 200 (Ok "{}"));
  draw_uuid := λ w, ("nonce", w); timestamp := λ w, (7, w)
|}.
#[local] Instance drain_keyring : Keyring unit := {| delete_credential _ := mret tt |}.

Definition drain_context : RelayPublicationContext :=
  mkPublicationContext (mkPath true ["run"; "ids"]) (mkPath true ["var"; "ids"])
    (mkAgentFileStore (mkPath true ["srv"])) (mkCustody (mkPath true ["keys"]) 0).
Definition tombstone_row : OutboxRow :=
  mkOutboxRow "tombstone_persona" (Some (mkCommunityConfigId 1)) "wss://relay/" "public-owner" "ops" "ops"
    5 5 0 None.
Definition owner_community : CommunityConfig :=
  mkCommunityConfig (mkCommunityConfigId 1) "c" sample_relay (Some "public-owner").
Definition drain_db (communities : gmap CommunityConfigId CommunityRow) : Db :=
  set_t_communities communities (set_t_outbox {["p1" := tombstone_row]} empty_db).
Definition drain_fs : Fs :=
  mkFs {[ mkPath true ["run"; "ids"; "public-owner.secret"] := mkNode RegularFile 384 0 "owner" ]} [] 0.
Definition drain_world {R} (outside : R) communities : World (DaemonFx R) :=
  mkWorld (drain_db communities)
    (mkDaemonFx drain_fs outside (mkChannel true []) (mkChannel true []) (mkChannel true [])) 0 0 0.

Lemma publications_wait_for_the_relay_witness :
  let w := drain_world (R := Logged unit) ((), []) ∅ in
  let run := drain_relay_publications sample_time (λ _, Ok sample_relay) drain_context w in
  t_outbox (w_db run.2) !! "p1" = None
  ∧ ∃ keys xs, xs `suffix_of` exchanges run.2
      ∧ eq_ignore_ascii_case (public_key_hex keys) "public-owner" = true
      ∧ tombstone_posted sample_relay keys 30175 "ops" xs.
Proof.
  intros w run. assert (t_outbox (w_db run.2) !! "p1" = None) as Hgone by (vm_compute; reflexivity).
  split; [done|]. assert (List.length (exchanges run.2) = 1%nat) as Hlen by (vm_compute; reflexivity).
  destruct (publications_wait_for_the_relay sample_time (λ _, Ok sample_relay) drain_context w run.1 run.2
    "p1" tombstone_row (surjective_pairing run) eq_refl)
    as [_ [(row & Hrow & _)|(? & p & ? & ? & u & keys & w1 & w2 & xs & _ & _ & Hof & _ & Htu & Hk & Hx & Hm)]].
  - rewrite Hgone in Hrow. discriminate.
  - destruct Hof as (Ha & _ & _ & Hs & _), Htu as [Hu _ _ Hkept]. exists keys, xs.
    unfold made in Hm. destruct (rp_action p); try discriminate Ha. injection Hu as <-. rewrite Hs in Hm.
    split_and!; [|exact Hk|exact Hm]. rewrite Hx in Hkept. destruct Hkept as [k Hkept], Hm as (y & t & -> & _).
    rewrite Hkept, !length_app in Hlen. cbn in Hlen. destruct k; [|cbn in Hlen; lia].
    exists (exchanges w1). by rewrite Hkept, app_nil_r.
Defined.

Lemma identities_in_use_are_kept_witness :
  let w := drain_world (R := unit) () {[ mkCommunityConfigId 1 := mkCommunityRow owner_community 5 ]} in
  let run := drain_relay_publications sample_time (λ _, Ok sample_relay) drain_context w in
  t_outbox (w_db run.2) !! "p1" = None
  ∧ ∃ n, fs_nodes (fx_fs (w_fx run.2)) !! mkPath true ["run"; "ids"; "public-owner.secret"] = Some n
         ∧ n_data n = "owner".
Proof.
  intros w run. split; [vm_compute; reflexivity|].
  destruct (identities_in_use_are_kept sample_time (λ _, Ok sample_relay) drain_context
    (mkPath true ["run"; "ids"]) owner_community "public-owner" eq_refl w run.1 run.2
    (mkNode RegularFile 384 0 "owner")) as (n & Hn & Hd & _).
  - exact (surjective_pairing run).
  - apply list_elem_of_In. vm_compute. by left.
  - vm_compute. reflexivity.
  - exists n. split; [exact Hn|exact Hd].
Defined.
