(* ===== verification/AgentTree.v ===== *)
(** * The directories of an agent (main.rs, [chown_agent_tree], [purge_agent_paths])
    A workspace is handed over to the agent's account, entry by entry and without following
    symbolic links; a purge removes the agent's trees and its log files. Owners of files are
    modelled, groups are not. *)
From Stdlib Require Import ZArith Lia String Ascii.
From stdpp Require Import base gmap list strings.
From S2P Require Import Prelude RustStr Ids Lifecycle Agent Bytes Monad Application Fs AgentFiles Custody.
From S2P Require Import Daemon.
#[local] Open Scope Z_scope.

(** One turn of the iterator of [read_dir]. *)
Definition next_entry : IO unit := atomic_call (mret tt).

Definition too_deep : IoError := mkIoError OtherKind "tree deeper than the model".
(** The recursion is bounded by the depth of the tree. *)
Fixpoint chown_agent_tree (depth : nat) (path : Path) (uid : Z) : IO unit :=
  metadata ← symlink_metadata path;
  if is_symlink metadata then mret tt
  else
  _ ← chown path uid;
  if is_kind Directory metadata then
    entries ← read_directory path;
    forM_ (λ entry, _ ← next_entry;
                    match depth with
                    | O => throw too_deep
                    | S depth => chown_agent_tree depth entry uid
                    end) entries
  else mret tt.
Definition tree_depth (s : Fs) : nat :=
  foldr (λ e d, Nat.max (List.length (p_components e.1)) d) 0%nat (map_to_list (fs_nodes s)).
Definition chown_tree (path : Path) (uid : Z) : IO unit := λ s,
  chown_agent_tree (tree_depth s) path uid s.

(** ** Handing over *)
(** Owners of entries at or below [path] change; nothing else does, and no symbolic link. *)
Definition handed_over (path : Path) (uid : Z) (s s' : Fs) : Prop :=
  ∀ q, match fs_nodes s !! q with
       | None => fs_nodes s' !! q = None
       | Some n => fs_nodes s' !! q = Some n
                   ∨ (starts_with_path path q = true ∧ is_symlink n = false
                      ∧ fs_nodes s' !! q = Some (with_owner uid n))
       end.
#[export] Instance handed_over_preorder path uid : PreOrder (handed_over path uid).
Proof.
  split.
  - intros s q. destruct (fs_nodes s !! q); [by left|done].
  - intros a b c Hab Hbc q. specialize (Hab q). specialize (Hbc q).
    destruct (fs_nodes a !! q) as [n|]; [|by rewrite Hab in Hbc].
    destruct Hab as [Hb|(Hp & Hs & Hb)]; rewrite Hb in Hbc; [done|].
    destruct Hbc as [->|(_ & _ & ->)]; right; done.
Qed.
Lemma kept_handed path uid s s' : nodes_kept s s' → handed_over path uid s s'.
Proof. intros Hk q. rewrite Hk. destruct (fs_nodes s !! q); [by left|done]. Qed.

Lemma starts_with_path_refl p : starts_with_path p p = true.
Proof. unfold starts_with_path. rewrite Bool.eqb_reflx. cbn. by apply bool_decide_eq_true_2. Qed.
Lemma starts_with_path_trans p q r :
  starts_with_path p q = true → starts_with_path q r = true → starts_with_path p r = true.
Proof.
  unfold starts_with_path. rewrite !andb_true_iff, !bool_decide_eq_true, !Bool.eqb_true_iff.
  intros [-> Hpq] [-> Hqr]. split; [done|]. by etrans.
Qed.
Lemma parent_join_inv c p : parent c = Some p → ∃ name, c = join p name.
Proof.
  destruct c as [abs comps]. unfold parent, join. cbn. destruct comps as [|x xs]; [done|].
  intros [= <-]. cbn [p_components p_absolute]. exists (List.last (x :: xs) EmptyString).
  f_equal. by apply app_removelast_last.
Qed.
Lemma starts_with_path_child p c : parent c = Some p → starts_with_path p c = true.
Proof.
  intros [name ->]%parent_join_inv. unfold starts_with_path, join. cbn [p_absolute p_components].
  rewrite Bool.eqb_reflx. cbn. apply bool_decide_eq_true_2. by apply prefix_app_r.
Qed.
Lemma parent_length c p :
  parent c = Some p → List.length (p_components c) = S (List.length (p_components p)).
Proof. intros [name ->]%parent_join_inv. unfold join. cbn. rewrite length_app. cbn. lia. Qed.

Lemma handed_child path c uid s s' :
  parent c = Some path → handed_over c uid s s' → handed_over path uid s s'.
Proof.
  intros Hc Hh q. specialize (Hh q). destruct (fs_nodes s !! q) as [n|]; [|done].
  destruct Hh as [?|(Hp & Hs & Hq)]; [by left|]. right. split_and!; [|done|done].
  eapply starts_with_path_trans; [by apply starts_with_path_child|done].
Qed.

Lemma chown_plain p uid s n :
  fs_nodes s !! p = Some n → is_symlink n = false →
  handed_over p uid s (chown p uid s).2
  ∧ ((chown p uid s).1 = Ok tt → fs_nodes (chown p uid s).2 = <[p := with_owner uid n]> (fs_nodes s))
  ∧ (fs_faults s = [] → (chown p uid s).1 = Ok tt ∧ fs_faults (chown p uid s).2 = []).
Proof.
  intros Hn Hl. assert (plain_at p s) as Hp by (intros m Hm; congruence).
  pose proof (change_target_plain (with_owner uid) p s Hp) as He.
  split_and!; [| |intros Hf; by eapply change_target_quiet];
    unfold chown in *; destruct (change_target _ p s) as [[[]|e] s1]; cbn in *; try done;
    try (by apply kept_handed); destruct He as (m & Hm & He); assert (m = n) as -> by congruence; [|done].
  intros q. rewrite He. destruct (decide (q = p)) as [->|Hne].
  - rewrite Hn, lookup_insert_eq. right. split_and!; [apply starts_with_path_refl|done|done].
  - rewrite lookup_insert_ne by done. destruct (fs_nodes s !! q); [by left|done].
Qed.

(** What is in the tree at a path: entries of real directories, level by level. *)
Inductive in_tree (s : Fs) : Path → Path → Prop :=
| tree_root p : in_tree s p p
| tree_below p c q n :
    fs_nodes s !! p = Some n → n_kind n = Directory → parent c = Some p → is_Some (fs_nodes s !! c) →
    in_tree s c q → in_tree s p q.

Lemma handed_lookup path uid s s' q n :
  handed_over path uid s s' → fs_nodes s !! q = Some n →
  ∃ n', fs_nodes s' !! q = Some n' ∧ n_kind n' = n_kind n.
Proof.
  intros Hh Hn. specialize (Hh q). rewrite Hn in Hh.
  destruct Hh as [->|(_ & _ & ->)]; eexists; by split.
Qed.
Lemma handed_is_Some path uid s s' q :
  handed_over path uid s s' → is_Some (fs_nodes s' !! q) ↔ is_Some (fs_nodes s !! q).
Proof.
  intros Hh. split.
  - intros [n Hn]. specialize (Hh q). destruct (fs_nodes s !! q); [by eexists|congruence].
  - intros [n Hn]. destruct (handed_lookup _ _ _ _ _ _ Hh Hn) as (n' & Hn' & _). by eexists.
Qed.
Lemma in_tree_handed path uid s s' p q : handed_over path uid s s' → in_tree s p q → in_tree s' p q.
Proof.
  intros Hh. induction 1 as [|p c q n Hn Hk Hc Hs _ IH]; [constructor|].
  destruct (handed_lookup _ _ _ _ _ _ Hh Hn) as (n' & Hn' & Hk').
  eapply tree_below; [exact Hn'|congruence|exact Hc| |exact IH].
  by apply (handed_is_Some path uid s s').
Qed.
(** Every link apart, the tree at [p] belongs to [uid]. *)
Definition tree_owned (uid : Z) (p : Path) (s s' : Fs) : Prop :=
  ∀ q n, in_tree s p q → fs_nodes s !! q = Some n → is_symlink n = false →
    fs_nodes s' !! q = Some (with_owner uid n).
Lemma tree_owned_later path uid p s s1 s2 :
  handed_over path uid s1 s2 → tree_owned uid p s s1 → tree_owned uid p s s2.
Proof.
  intros Hh Ho q n Ht Hn Hl. specialize (Ho q n Ht Hn Hl). specialize (Hh q). rewrite Ho in Hh.
  by destruct Hh as [->|(_ & _ & ->)].
Qed.
Lemma tree_owned_earlier path uid p s s1 s2 :
  handed_over path uid s s1 → tree_owned uid p s1 s2 → tree_owned uid p s s2.
Proof.
  intros Hh Ho q n Ht Hn Hl. pose proof (Hh q) as Hq. rewrite Hn in Hq.
  eapply in_tree_handed in Ht; [|exact Hh].
  destruct Hq as [Hq|(_ & _ & Hq)]; by rewrite (Ho q _ Ht Hq Hl).
Qed.

(** No entry below [p] is more than [d] levels down. *)
Definition shallow (d : nat) (p : Path) (s : Fs) : Prop :=
  ∀ q, is_Some (fs_nodes s !! q) → starts_with_path p q = true →
    (List.length (p_components q) ≤ List.length (p_components p) + d)%nat.
Lemma shallow_handed path uid d p s s' : handed_over path uid s s' → shallow d p s → shallow d p s'.
Proof. intros Hh Hs q Hq. apply Hs. by apply (handed_is_Some path uid s s' q Hh). Qed.
Lemma shallow_child d p c s : parent c = Some p → shallow (S d) p s → shallow d c s.
Proof.
  intros Hc Hs q Hq Hp. pose proof (parent_length c p Hc) as Hl.
  specialize (Hs q Hq (starts_with_path_trans _ _ _ (starts_with_path_child p c Hc) Hp)). lia.
Qed.
Lemma shallow_tree p s : shallow (tree_depth s) p s.
Proof.
  intros q [n Hn] _. enough (List.length (p_components q) ≤ tree_depth s)%nat by lia.
  apply elem_of_map_to_list in Hn. unfold tree_depth. revert Hn.
  induction (map_to_list (fs_nodes s)) as [|e l IH]; [by intros ?%not_elem_of_nil|].
  intros [<-|Hl]%elem_of_cons; cbn; [lia|]. specialize (IH Hl). lia.
Qed.

(** A computation that hands the tree at [p] over, and succeeds when nothing fails and the
    tree fits. *)
Definition hands_over (fits : Path → Fs → Prop) (uid : Z) (p : Path) (m : IO unit) : Prop := ∀ s,
  handed_over p uid s (m s).2
  ∧ ((m s).1 = Ok tt → tree_owned uid p s (m s).2)
  ∧ (fs_faults s = [] → is_Some (fs_nodes s !! p) → fits p s →
     (m s).1 = Ok tt ∧ fs_faults (m s).2 = []).

Lemma hands_over_entries (fits : Path → Fs → Prop) uid path g l :
  (∀ c s s', handed_over path uid s s' → fits c s → fits c s') →
  (∀ c, c ∈ l → parent c = Some path) → (∀ c, hands_over fits uid c (g c)) → ∀ s,
  let '(r, s') := forM_ (λ c, _ ← next_entry; g c) l s in
  handed_over path uid s s'
  ∧ (r = Ok tt → ∀ c, c ∈ l → tree_owned uid c s s')
  ∧ (fs_faults s = [] → (∀ c, c ∈ l → is_Some (fs_nodes s !! c) ∧ fits c s) →
     r = Ok tt ∧ fs_faults s' = []).
Proof.
  intros Hfit Hpar Hg. induction l as [|c l IH]; intros s; cbn [forM_].
  { split_and!; [reflexivity| |done]. by intros _ c ?%not_elem_of_nil. }
  assert (parent c = Some path) as Hc by (apply Hpar; left).
  unfold mbind, M_bind.
  assert (nodes_kept s (next_entry s).2 ∧ (fs_faults s = [] → next_entry s = (Ok tt, s))) as [Hk Hquiet].
  { split; [apply (kept_sync_all path s)|]. intros Hf. unfold next_entry, atomic_call. by apply call_quiet. }
  destruct (next_entry s) as [[[]|e] s1]; cbn in Hk.
  2: { split_and!; [by apply kept_handed|done|]. intros Hf. by specialize (Hquiet Hf). }
  destruct (Hg c s1) as (H1 & H2 & H3). destruct (g c s1) as [[[]|e] s2]; cbn in H1, H2, H3.
  2: { split_and!; [|done|].
       - etrans; [by apply kept_handed|]. by eapply handed_child.
       - intros Hf Hall. injection (Hquiet Hf) as ->.
         destruct (Hall c) as [Hs1 Hs2]; [left|]. by destruct (H3 Hf Hs1 Hs2). }
  specialize (IH (λ c' Hc', Hpar c' (list_elem_of_further c' c l Hc')) s2).
  destruct (forM_ _ l s2) as [r s3]. destruct IH as (I1 & I2 & I3).
  assert (handed_over path uid s s2) as H12 by (etrans; [by apply kept_handed|]; by eapply handed_child).
  split_and!; [by etrans| |].
  - intros -> c' [->|Hin]%elem_of_cons.
    + eapply tree_owned_later; [exact I1|]. eapply tree_owned_earlier; [by apply (kept_handed path uid)|].
      by apply H2.
    + eapply tree_owned_earlier; [exact H12|]. by apply I2.
  - intros Hf Hall. injection (Hquiet Hf) as ->. destruct (Hall c) as [Hs1 Hs2]; [left|].
    destruct (H3 Hf Hs1 Hs2) as [_ Hf2]. apply I3; [done|]. intros c' Hc'.
    destruct (Hall c') as [Ht1 Ht2]; [by right|]. split.
    + by apply (handed_is_Some path uid s s2).
    + by eapply Hfit.
Qed.

(** One level of the recursion. *)
Definition chown_level (g : Path → IO unit) (path : Path) (uid : Z) : IO unit :=
  metadata ← symlink_metadata path;
  if is_symlink metadata then mret tt
  else
  _ ← chown path uid;
  if is_kind Directory metadata then
    entries ← read_directory path;
    forM_ (λ entry, _ ← next_entry; g entry) entries
  else mret tt.

Lemma in_tree_leaf s p q n :
  in_tree s p q → fs_nodes s !! p = Some n → n_kind n ≠ Directory → q = p.
Proof. intros [|? c ? m Hm Hk _ _ _] Hn Hd; [done|]. congruence. Qed.
Lemma symlink_metadata_quiet p s n :
  fs_faults s = [] → fs_nodes s !! p = Some n → symlink_metadata p s = (Ok n, s).
Proof. intros Hf Hn. rewrite node_at_quiet by done. unfold node_at. by rewrite Hn. Qed.
Lemma read_directory_children p s n entries s' :
  read_directory p s = (Ok entries, s') → fs_nodes s !! p = Some n → n_kind n = Directory →
  entries = children p s.
Proof.
  intros (s0 & Hk & _ & Hr)%atomic_call_ok Hn Hd. apply bind_ok in Hr as (m & s1 & Hf & Hr).
  apply follow_target in Hf as [-> _]. destruct (is_kind Directory m); [|done].
  injection Hr as <- _. unfold children. by rewrite Hk.
Qed.
Lemma read_directory_quiet p s n :
  fs_faults s = [] → fs_nodes s !! p = Some n → n_kind n = Directory →
  read_directory p s = (Ok (children p s), s).
Proof.
  intros Hf Hn Hd. unfold read_directory, atomic_call. rewrite call_quiet by done.
  erewrite bind_after; [|apply follow_target; split; [reflexivity|]].
  2: { apply leads_to_plain; [exact Hn|]. unfold is_symlink. by rewrite Hd. }
  unfold is_kind. by rewrite bool_decide_eq_true_2.
Qed.

(** A link owns no tree. *)
Lemma tree_owned_link uid p s s' n : fs_nodes s !! p = Some n → is_symlink n = true → tree_owned uid p s s'.
Proof.
  unfold is_symlink. intros Hn Hlink q m Ht Hm Hm'.
  assert (q = p) as -> by (eapply in_tree_leaf; [exact Ht|exact Hn|]; by destruct (n_kind n)).
  rewrite Hn in Hm. injection Hm as <-. unfold is_symlink in Hm'. by destruct (n_kind n).
Qed.
(** A directory and what its entries own. *)
Lemma tree_owned_directory uid p s s3 s4 n :
  fs_nodes s !! p = Some n → fs_nodes s3 !! p = Some (with_owner uid n) →
  handed_over p uid s s3 → handed_over p uid s3 s4 →
  (∀ c, parent c = Some p → is_Some (fs_nodes s !! c) → tree_owned uid c s3 s4) → tree_owned uid p s s4.
Proof.
  intros Hn Hn3 H3 H4 Hc q m Ht Hm Hlm. destruct Ht as [p|p c q m' Hm' Hk' Hpar Hs Ht].
  - specialize (H4 p). rewrite Hn3 in H4. assert (m = n) as -> by congruence.
    by destruct H4 as [->|(_ & _ & ->)].
  - assert (tree_owned uid c s s4) as Ho by (eapply tree_owned_earlier; [exact H3|]; by apply Hc).
    by apply (Ho q m Ht Hm Hlm).
Qed.

Lemma chown_level_hands_over (fits : Path → Fs → Prop) uid p g :
  (∀ c s s', handed_over p uid s s' → fits c s → fits c s') →
  (∀ c, hands_over fits uid c (g c)) →
  hands_over (λ p s, ∀ c, parent c = Some p → is_Some (fs_nodes s !! c) → fits c s) uid p
    (chown_level g p uid).
Proof.
  intros Hfit Hg s. unfold chown_level.
  assert (∀ l, (∀ c, c ∈ l → parent c = Some p) → _) as Hl
    by (intros l Hpar; exact (hands_over_entries fits uid p g l Hfit Hpar Hg)).
  set (loop := forM_ (λ entry, _ ← next_entry; g entry)) in *. clearbody loop.
  unfold mbind, M_bind. pose proof (kept_symlink_metadata p s) as Hk.
  pose proof (symlink_metadata_quiet p s) as Hq.
  destruct (symlink_metadata p s) as [[n|e] s1] eqn:E1; cbn in Hk.
  2: { split_and!; [by apply kept_handed|done|]. intros Hf [n Hn] _. by specialize (Hq n Hf Hn). }
  apply symlink_metadata_ok in E1. assert (fs_nodes s !! p = Some n) as Hn by by rewrite <- Hk.
  destruct (is_symlink n) eqn:Hlink.
  { cbn. split_and!; [by apply kept_handed| |intros Hf _ _; by injection (Hq n Hf Hn) as ->].
    intros _. by eapply tree_owned_link. }
  destruct (chown_plain p uid s1 n E1 Hlink) as (C1 & C2 & C3).
  destruct (chown p uid s1) as [[[]|e] s2]; cbn in C1, C2, C3.
  2: { split_and!; [etrans; [by apply kept_handed|done]|done|].
       intros Hf _ _. injection (Hq n Hf Hn) as ->. by destruct (C3 Hf). }
  specialize (C2 eq_refl).
  assert (handed_over p uid s s2) as H2 by (etrans; [by apply kept_handed|done]).
  assert (fs_nodes s2 !! p = Some (with_owner uid n)) as Hn2 by (by rewrite C2, lookup_insert_eq).
  destruct (is_kind Directory n) eqn:Hdir.
  2: { cbn. apply bool_decide_eq_false in Hdir. split_and!; [done| |].
       - intros _ q m Ht Hm _. assert (q = p) as -> by (by eapply in_tree_leaf). congruence.
       - intros Hf _ _. injection (Hq n Hf Hn) as ->. by destruct (C3 Hf). }
  apply bool_decide_eq_true in Hdir. pose proof (kept_read_directory p s2) as K2.
  pose proof (read_directory_children p s2 (with_owner uid n)) as Hrd.
  pose proof (read_directory_quiet p s2 (with_owner uid n)) as Hrq.
  destruct (read_directory p s2) as [[entries|e] s3]; cbn in K2.
  2: { split_and!; [etrans; [done|by apply kept_handed]|done|].
       intros Hf _ _. injection (Hq n Hf Hn) as ->. destruct (C3 Hf) as [_ Hf2].
       by specialize (Hrq Hf2 Hn2 Hdir). }
  specialize (Hrd _ _ eq_refl Hn2 Hdir). subst entries.
  assert (handed_over p uid s s3) as H3 by (etrans; [done|by apply kept_handed]).
  specialize (Hl (children p s2) ltac:(by intros c [? _]%elem_of_children) s3).
  destruct (loop (children p s2) s3) as [r s4]. destruct Hl as (L1 & L2 & L3).
  cbn. split_and!; [by etrans| |].
  - intros Hr. specialize (L2 Hr). eapply (tree_owned_directory uid p s s3 s4 n); [done|by rewrite K2|done|done|].
    intros c Hc Hs. apply L2, elem_of_children. split; [done|]. by apply (handed_is_Some p uid s s2).
  - intros Hf _ Hfits. injection (Hq n Hf Hn) as ->. destruct (C3 Hf) as [_ Hf2].
    injection (Hrq Hf2 Hn2 Hdir) as ->. apply L3; [done|]. intros c [Hc Hs]%elem_of_children.
    split; [done|]. eapply Hfit; [exact H2|]. apply Hfits; [done|].
    by apply (handed_is_Some p uid s s2).
Qed.

Lemma chown_agent_tree_hands_over d uid p : hands_over (shallow d) uid p (chown_agent_tree d p uid).
Proof.
  revert p. induction d as [|d IH]; intros p s.
  - destruct (chown_level_hands_over (λ _ _, False) uid p (λ _, throw too_deep)
      ltac:(done) ltac:(intros c t; split_and!; [reflexivity|done|done]) s) as (A1 & A2 & A3).
    split_and!; [done|done|]. intros Hf Hs Hd. apply A3; [done|done|]. intros c Hc Hcs.
    specialize (Hd c Hcs (starts_with_path_child p c Hc)). rewrite (parent_length c p Hc) in Hd. lia.
  - destruct (chown_level_hands_over (shallow d) uid p (λ c, chown_agent_tree d c uid)
      ltac:(intros c t t' Hh; by eapply shallow_handed) IH s) as (A1 & A2 & A3).
    split_and!; [done|done|]. intros Hf Hs Hd. apply A3; [done|done|]. intros c Hc _.
    by eapply shallow_child.
Qed.

(** C23: Handing a directory over to an agent's account terminates and is confined to that
    directory: whatever fails on the way, only owners of entries at or below it change, to
    that account, and neither a symbolic link nor what it points to outside is touched. When
    it succeeds, every entry of the tree other than links belongs to the account; and when
    no call fails and the directory exists, it does succeed, however deep the tree is. *)
Theorem agent_trees_are_handed_over path uid s :
  let '(r, s') := chown_tree path uid s in
  handed_over path uid s s'
  ∧ (r = Ok tt → tree_owned uid path s s')
  ∧ (fs_faults s = [] → is_Some (fs_nodes s !! path) → r = Ok tt).
Proof.
  unfold chown_tree.
  destruct (chown_agent_tree_hands_over (tree_depth s) uid path s) as (A1 & A2 & A3).
  destruct (chown_agent_tree _ path uid s) as [r s']. split_and!; [done|done|].
  intros Hf Hs. by destruct (A3 Hf Hs (shallow_tree path s)).
Qed.

(** ** Removing a tree *)
(** What is below [p], deepest first. *)
Definition below (p : Path) (s : Fs) : list Path :=
  sort_by (λ a b, (List.length (p_components b) <=? List.length (p_components a))%nat)
    (map fst (List.filter (λ e, starts_with_path p e.1 && negb (bool_decide (e.1 = p)))
                (map_to_list (fs_nodes s)))).
Definition delete_all (l : list Path) (m : gmap Path Node) : gmap Path Node := foldr delete m l.
(** [fs::remove_dir_all]: a link is removed, not followed; a fault leaves the rest of the
    tree in place. *)
Definition remove_dir_all (p : Path) : IO unit :=
  call (λ k s, if bool_decide (kind_at p s = Some Directory)
               then set_nodes (delete_all (take k (below p s))) s else s)
    (n ← node_at p;
     if is_symlink n then modify (set_nodes (delete p))
     else if is_kind Directory n
     then modify (λ s, set_nodes (λ m, delete p (delete_all (below p s) m)) s)
     else throw (mkIoError OtherKind "not a directory")).

Definition remove_tree_if_present (path : Path) : IO unit := λ s,
  match remove_dir_all path s with
  | (Ok _, s) => (Ok tt, s)
  | (Err error, s) => if kind_is NotFound error then (Ok tt, s) else (Err error, s)
  end.
(** [path.is_dir()] *)
Definition is_dir (path : Path) : IO bool := λ s,
  match metadata path s with
  | (Ok n, s) => (Ok (is_kind Directory n), s)
  | (Err _, s) => (Ok false, s)
  end.
(** The name's bytes are compared: the prefix is ASCII, which [to_string_lossy] keeps. *)
Definition remove_log_entry (prefix : string) (path : Path) : IO unit :=
  _ ← next_entry;
  if is_some_and (file_name path) (starts_with prefix) then
    directory ← is_dir path;
    if (directory : bool) then remove_dir_all path else remove_file path
  else mret tt.
Definition purge_logs (log_directory : Path) (prefix : string) : IO unit := λ s,
  match read_directory log_directory s with
  | (Ok entries, s) => forM_ (remove_log_entry prefix) entries s
  | (Err error, s) => if kind_is NotFound error then (Ok tt, s) else (Err error, s)
  end.
Definition purge_agent_paths (workspace runtime log_directory : Path) (launch_id : string) : IO unit :=
  _ ← forM_ remove_tree_if_present [workspace; runtime];
  purge_logs log_directory (String.append launch_id ".").

Section Artifacts.
Context `{UuidLib} `{SecretKeys} `{DocumentJson}.

(** The directories [main] derives from the configuration. *)
Definition custody_of (state : Path) : FilesystemAgentIdentityCustody := mkCustody (join state "identities") 0.
Definition agent_files_of (state : Path) : AgentFileStore := mkAgentFileStore (join state "agent-config").

Definition purge_artifacts (config : DaemonConfig) (custody : FilesystemAgentIdentityCustody)
    (agent_files : AgentFileStore) (agent_id : AgentId) : M Fs DaemonError unit :=
  layout ← of_result (dynamic_agent_layout config agent_id);
  _ ← M_map_err DaemonIo (purge_agent_paths (lay_workspace layout) (lay_runtime layout)
                            (dc_log_directory config) (lay_launch_id layout));
  _ ← M_map_err DaemonCustody (purge custody agent_id);
  _ ← M_map_err DaemonAgentFile (remove_agent agent_files agent_id);
  match parent (lay_receipt layout) with
  | Some state_root => M_map_err DaemonIo (remove_tree_if_present state_root)
  | None => mret tt
  end.
End Artifacts.

(** ** What is spared *)
#[export] Instance entry_stays_preorder' p : PreOrder (entry_stays p).
Proof.
  split; [done|]. intros a b c Hab Hbc Ha. rewrite Hbc; [by apply Hab|]. by rewrite Hab.
Qed.
Lemma stays_kept p s s' : nodes_kept s s' → entry_stays p s s'.
Proof. intros Hk. by apply kept_stays, nodes_entry. Qed.
Lemma always_kept_entry {E A} p (m : M Fs E A) : always nodes_kept m → always (entry_stays p) m.
Proof. apply always_weaken. intros ??. apply stays_kept. Qed.

Lemma below_starts p s q : q ∈ below p s → starts_with_path p q = true.
Proof.
  unfold below. rewrite elem_of_sort_by, list_elem_of_In, in_map_iff. intros ([q' n] & <- & Hin).
  apply filter_In in Hin as [_ Hc]. by apply andb_true_iff in Hc as [Hc _].
Qed.
Lemma delete_all_lookup l (m : gmap Path Node) q : q ∉ l → delete_all l m !! q = m !! q.
Proof.
  induction l as [|x l IH]; cbn; [done|]. rewrite not_elem_of_cons. intros [Hx Hl].
  rewrite lookup_delete_ne by done. by apply IH.
Qed.
Lemma remove_dir_all_spares p q :
  starts_with_path p q = false → always (entry_stays q) (remove_dir_all p).
Proof.
  intros Hq s _. assert (q ≠ p) as Hne by (intros ->; by rewrite starts_with_path_refl in Hq).
  assert (∀ k s, fs_nodes (set_nodes (delete_all (take k (below p s))) s) !! q = fs_nodes s !! q) as Hpart.
  { intros k t. cbn. apply delete_all_lookup. intros Hin%elem_of_take. destruct Hin as (i & Hi & _).
    apply list_elem_of_lookup_2, below_starts in Hi. congruence. }
  assert (∀ t, fs_nodes (set_nodes (λ m, delete p (delete_all (below p t) m)) t) !! q = fs_nodes t !! q)
    as Hall.
  { intros t. cbn. rewrite lookup_delete_ne by done. apply delete_all_lookup.
    intros Hi%below_starts. congruence. }
  unfold remove_dir_all, call, mbind, M_bind, node_at.
  destruct (fs_faults s) as [|[[e k]|] rest]; cbn [fst snd fs_nodes].
  2: { destruct (bool_decide _); [|done]. exact (Hpart k (mkFs (fs_nodes s) rest (fs_uid s))). }
  all: destruct (fs_nodes s !! p) as [n|]; [|done].
  all: destruct (is_symlink n); [cbn; by rewrite lookup_delete_ne|].
  all: destruct (is_kind Directory n); [|done].
  - exact (Hall s).
  - exact (Hall (mkFs (fs_nodes s) rest (fs_uid s))).
Qed.
Lemma remove_tree_spares p q :
  starts_with_path p q = false → always (entry_stays q) (remove_tree_if_present p).
Proof.
  intros Hq s. unfold remove_tree_if_present. pose proof (remove_dir_all_spares p q Hq s) as Hs.
  destruct (remove_dir_all p s) as [[[]|e] s1]; cbn in *; [done|]. by destruct (kind_is NotFound e).
Qed.
Lemma remove_file_spares p q : q ≠ p → always (entry_stays q) (remove_file p).
Proof.
  intros Hne s. apply kept_stays, (only_at_entry q p); [done|]. apply only_at_remove_file.
Qed.

Lemma purge_logs_spares log prefix q :
  (∀ name, starts_with prefix name = true → starts_with_path (join log name) q = false) →
  always (entry_stays q) (purge_logs log prefix).
Proof.
  intros Hq s. unfold purge_logs. pose proof (kept_read_directory log s) as Hk.
  destruct (read_directory log s) as [[entries|e] s1] eqn:E; cbn in Hk.
  2: { destruct (kind_is NotFound e); by apply stays_kept. }
  assert (Forall (λ c, parent c = Some log) entries) as Hent.
  { apply atomic_call_ok in E as (s0 & _ & _ & Hr). apply bind_ok in Hr as (m & s2 & _ & Hr).
    destruct (is_kind Directory m); [|done]. injection Hr as <- _. apply Forall_forall.
    by intros c [Hc _]%elem_of_children. }
  etrans; [by apply stays_kept|]. clear -Hq Hent. revert s1.
  induction Hent as [|c entries Hc _ IH]; intros s; [reflexivity|]. cbn [forM_].
  apply (always_bind (entry_stays q)); [|intros []; exact IH]. clear s.
  apply parent_join_inv in Hc as [name ->]. unfold remove_log_entry.
  apply (always_bind (entry_stays q)).
  { apply always_kept_entry. exact (kept_sync_all log). }
  intros _. unfold file_name, join at 1. cbn [p_components]. rewrite last_snoc. cbn [is_some_and].
  destruct (starts_with prefix name) eqn:Hs; [|apply (always_ret (entry_stays q))].
  specialize (Hq name Hs). apply (always_bind (entry_stays q)).
  { intros s. unfold is_dir. pose proof (kept_metadata (join log name) s) as Hk.
    destruct (metadata (join log name) s) as [[n|e] s1]; cbn in *; by apply stays_kept. }
  intros []; [by apply remove_dir_all_spares|]. apply remove_file_spares.
  intros ->. by rewrite starts_with_path_refl in Hq.
Qed.

(** The entry at [q] stays when a custody root that is not above it is prepared. *)
Lemma create_dir_all_entry p q : always (entry_stays q) (create_dir_all p).
Proof.
  intros s [n Hn]. destruct (create_dir_all_grow p s q) as [->|(Hnone & _)]; [done|congruence].
Qed.

Section Purging.
Context `{UuidLib} `{SecretKeys} `{DocumentJson}.
Variables (config : DaemonConfig) (state : Path).
Hypothesis valid : DaemonConfig_validate config = Ok tt.
Hypothesis state_is : state_parent config = Ok state.

(** The files of an agent: its state directory, its key, its document and its logs. *)
Inductive agent_owns (a : AgentId) : Path → Prop :=
| owns_state q : starts_with_path (agent_state_root state a) q = true → agent_owns a q
| owns_key : agent_owns a (secret_path (custody_of state) a)
| owns_document : agent_owns a (agent_path (agent_files_of state) a)
| owns_log name q :
    starts_with (String.append (launch_id_of a) ".") name = true →
    starts_with_path (join (dc_log_directory config) name) q = true → agent_owns a q.

(** Components of a path at or below another. *)
Lemma starts_with_path_lookup p q i x :
  starts_with_path p q = true → p_components p !! i = Some x → p_components q !! i = Some x.
Proof.
  unfold starts_with_path. rewrite andb_true_iff, bool_decide_eq_true. intros [_ Hp] Hi.
  by eapply prefix_lookup_Some.
Qed.
Lemma parent_lookup p q i x :
  parent p = Some q → p_components p !! i = Some x → (S i < List.length (p_components p))%nat →
  p_components q !! i = Some x.
Proof.
  intros [name ->]%parent_join_inv Hi Hl. unfold join in *. cbn in *. rewrite length_app in Hl. cbn in Hl.
  rewrite lookup_app_l in Hi by lia. done.
Qed.
Lemma roots_differ :
  p_components state !! 1%nat = Some "lib" ∧ p_components (dc_log_directory config) !! 1%nat = Some "log".
Proof.
  assert (starts_with_path STATE_ROOT (dc_state_database config) = true
          ∧ starts_with_path LOG_ROOT (dc_log_directory config) = true) as [Hs Hl].
  { pose proof valid as Hv. unfold DaemonConfig_validate in Hv. cbv zeta in Hv.
    do 7 (step_in Hv). rewrite for_each_ok in Hv. split.
    - pose proof (Hv ("state_database", dc_state_database config, STATE_ROOT, "/var/lib/buzz-server")) as K.
      cbn in K. destruct (starts_with_path _ _); [done|]. discriminate K. left.
    - pose proof (Hv ("log_directory", dc_log_directory config, LOG_ROOT, "/var/log/buzz-server")) as K.
      cbn in K. destruct (starts_with_path _ _); [done|]. discriminate K. right. left. }
  split; [|by eapply starts_with_path_lookup].
  unfold state_parent in state_is. destruct (parent (dc_state_database config)) as [p|] eqn:Ep; [|done].
  injection state_is as <-. eapply parent_lookup; [exact Ep|by eapply starts_with_path_lookup|].
  apply (starts_with_path_lookup _ _ 2 "buzz-server") in Hs; [|done].
  apply lookup_lt_Some in Hs. lia.
Qed.
Lemma state_not_log k k' : p_components state ++ k ≠ p_components (dc_log_directory config) ++ k'.
Proof.
  intros E. apply (f_equal (.!! 1%nat)) in E. destruct roots_differ as [Hs Hl].
  by rewrite (lookup_app_l_Some _ _ _ _ Hs), (lookup_app_l_Some _ _ _ _ Hl) in E.
Qed.
Lemma starts_with_path_app p q :
  starts_with_path p q = true → ∃ k, p_components q = p_components p ++ k.
Proof. unfold starts_with_path. rewrite andb_true_iff, bool_decide_eq_true. by intros [_ Hp]. Qed.

Lemma owned_shape a q :
  agent_owns a q →
  (∃ k, p_components q = p_components state ++ "agents" :: AgentId_to_string a :: k)
  ∨ p_components q = p_components state ++ ["identities"; String.append (AgentId_to_string a) ".secret"]
  ∨ p_components q = p_components state ++ ["agent-config"; "agents"; document_name (AgentId_to_string a)]
  ∨ ∃ name k, starts_with (String.append (launch_id_of a) ".") name = true
              ∧ p_components q = p_components (dc_log_directory config) ++ name :: k.
Proof.
  intros [q' (k & Hk)%starts_with_path_app| | |name q' Hs (k & Hk)%starts_with_path_app].
  - left. exists k. rewrite Hk. unfold agent_state_root, join. cbn. by rewrite <- !app_assoc.
  - right; left. unfold secret_path, custody_of, join. cbn. by rewrite <- app_assoc.
  - right; right; left. unfold agent_path, agents_dir, agent_files_of, join. cbn. by rewrite <- !app_assoc.
  - right; right; right. exists name, k. split; [done|]. rewrite Hk. unfold join. cbn. by rewrite <- app_assoc.
Qed.

Lemma AgentId_to_string_inj a b :
  uuid_ok (agent_uuid a) → uuid_ok (agent_uuid b) → AgentId_to_string a = AgentId_to_string b → a = b.
Proof. intros Ha Hb E. destruct a, b. f_equal. by eapply typed_id_display_inj. Qed.
Lemma launch_prefix_inj a b name :
  uuid_ok (agent_uuid a) → uuid_ok (agent_uuid b) →
  starts_with (String.append (launch_id_of a) ".") name = true →
  starts_with (String.append (launch_id_of b) ".") name = true → a = b.
Proof.
  intros Ha Hb Sa Sb. apply AgentId_to_string_inj; [done|done|].
  assert (∀ c, uuid_ok (agent_uuid c) → String.length (Uuid_simple (agent_uuid c)) = 32%nat) as Hlen.
  { intros c Hc. pose proof (Uuid_simple_canonical _ Hc) as Hcan. unfold canonical_hex in Hcan.
    apply andb_true_iff in Hcan as [Hl%Z.eqb_eq _]. unfold len in Hl. lia. }
  apply starts_with_same with (q := String.append (launch_id_of b) ".") in Sa; [|clear Sa|exact Sb].
  - by apply append_inj_suffix, append_cancel_l in Sa.
  - unfold launch_id_of, AgentId_to_string, typed_id_display. rewrite !length_append.
    by rewrite (Hlen a Ha), (Hlen b Hb).
Qed.

#[local] Opaque AgentId_to_string.
Section Spared.
Variables (a b : AgentId) (q : Path).
Hypothesis a_ok : uuid_ok (agent_uuid a).
Hypothesis b_ok : uuid_ok (agent_uuid b).
Hypothesis differ : a ≠ b.
Hypothesis owned : agent_owns a q.

Ltac by_shape :=
  intros E; destruct (owned_shape a q owned) as [(k0 & Hs)|[Hs|[Hs|(name0 & k0 & Hn0 & Hs)]]];
  rewrite E in Hs;
  first [ by apply state_not_log in Hs | symmetry in Hs; by apply state_not_log in Hs
        | apply app_inv_head in Hs; try discriminate Hs ].

Lemma spared_state : starts_with_path (agent_state_root state b) q = false.
Proof.
  destruct (starts_with_path _ q) eqn:E; [exfalso|done]. apply starts_with_path_app in E as [k E].
  unfold agent_state_root, join in E. cbn in E. rewrite <- !app_assoc in E. revert E. by_shape.
  apply (f_equal (λ l, nth 1 l EmptyString)) in Hs. cbn in Hs. apply differ, AgentId_to_string_inj; [exact a_ok|exact b_ok|congruence].
Qed.
Lemma spared_key : q ≠ secret_path (custody_of state) b ∧ q ≠ fc_root (custody_of state).
Proof.
  split; intros E; apply (f_equal p_components) in E; cbn in E; rewrite <- ?app_assoc in E; revert E;
    by_shape.
  apply (f_equal (λ l, nth 1 l EmptyString)) in Hs. cbn [nth] in Hs. apply append_inj_suffix in Hs.
  apply differ, AgentId_to_string_inj; [exact a_ok|exact b_ok|congruence].
Qed.
Lemma spared_document : q ≠ agent_path (agent_files_of state) b.
Proof.
  intros E; apply (f_equal p_components) in E; cbn in E; rewrite <- ?app_assoc in E; revert E; by_shape.
  apply (f_equal (λ l, nth 2 l EmptyString)) in Hs. cbn [nth] in Hs. unfold document_name in Hs. apply append_inj_suffix in Hs.
  apply differ, AgentId_to_string_inj; [exact a_ok|exact b_ok|congruence].
Qed.
Lemma spared_logs name :
  starts_with (String.append (launch_id_of b) ".") name = true →
  starts_with_path (join (dc_log_directory config) name) q = false.
Proof.
  intros Hb. destruct (starts_with_path _ q) eqn:E; [exfalso|done]. apply starts_with_path_app in E as [k E].
  unfold join in E. cbn in E. rewrite <- !app_assoc in E. revert E. by_shape.
  injection Hs as Hs _. subst name0. apply differ, (launch_prefix_inj a b name); [exact a_ok|exact b_ok|done|done].
Qed.

Lemma purge_key_spares : always (entry_stays q) (purge (custody_of state) b).
Proof.
  destruct spared_key as [Hkey Hroot]. unfold purge, prepare_root.
  apply (always_bind (entry_stays q)); [apply (always_bind (entry_stays q))|intros _].
  - apply (always_map_err (entry_stays q)), create_dir_all_entry.
  - intros _ s. apply kept_stays, (only_at_entry q (fc_root (custody_of state))); [by apply not_eq_sym|].
    apply only_at_secure_root.
  - intros s. unfold remove_secret.
    pose proof (remove_file_spares _ q Hkey s) as Hs.
    destruct (remove_file _ s) as [[[]|e] s1]; cbn in *; [done|]. by destruct (kind_is NotFound e).
Qed.
Lemma purge_document_spares : always (entry_stays q) (remove_agent (agent_files_of state) b).
Proof.
  intros s. unfold remove_agent. pose proof (remove_file_spares _ q spared_document s) as Hs.
  destruct (remove_file _ s) as [[[]|e] s1]; cbn in *; [done|]. by destruct (kind_is NotFound e).
Qed.
Lemma purge_paths_spares name1 name2 :
  always (entry_stays q)
    (purge_agent_paths (join (agent_state_root state b) name1) (join (agent_state_root state b) name2)
       (dc_log_directory config) (launch_id_of b)).
Proof.
  assert (∀ name, starts_with_path (join (agent_state_root state b) name) q = false) as Hdir.
  { intros name. destruct (starts_with_path _ q) eqn:E; [|done]. rewrite <- spared_state. symmetry.
    eapply starts_with_path_trans; [|exact E]. apply starts_with_path_child, parent_join. }
  apply (always_bind (entry_stays q)); [|intros _; apply purge_logs_spares, spared_logs].
  cbn [forM_]. always_steps; by apply remove_tree_spares.
Qed.
Lemma purge_artifacts_spares :
  always (entry_stays q) (purge_artifacts config (custody_of state) (agent_files_of state) b).
Proof.
  intros s. unfold purge_artifacts, dynamic_agent_layout. rewrite state_is.
  erewrite bind_after by reflexivity.
  cbn [lay_workspace lay_runtime lay_launch_id lay_receipt]. rewrite parent_join. revert s.
  apply (always_bind (entry_stays q)); [apply (always_map_err (entry_stays q)), purge_paths_spares|intros _].
  apply (always_bind (entry_stays q)); [apply (always_map_err (entry_stays q)), purge_key_spares|intros _].
  apply (always_bind (entry_stays q)); [apply (always_map_err (entry_stays q)), purge_document_spares|intros _].
  apply (always_map_err (entry_stays q)), remove_tree_spares, spared_state.
Qed.
End Spared.
End Purging.
