(* ===== verification/Process.v ===== *)
(** * Processes of the host
    What the supervisor uses of Linux and of [std::process]: spawning, waiting, signals to
    process groups, and the files of /proc. A host is a table of processes and a clock.
    Between any two calls the processes go on: they end, replace their program, and new
    ones appear, as a [Machine] decides turn by turn. *)
From Stdlib Require Import ZArith Lia String Ascii.
From stdpp Require Import base gmap list strings fin_maps pretty.
From S2P Require Import Prelude RustStr Bytes Monad Ids Diagnostics LogCapture AgentFiles.
#[local] Open Scope Z_scope.

(** [ExitStatus], its [code()] and [signal()]. *)
Inductive ExitStatus : Type := ExitCode (code : Z) | KilledBy (signal : Z).
#[export] Instance ExitStatus_eq_dec : EqDecision ExitStatus.
Proof. solve_decision. Defined.
Definition status_code (s : ExitStatus) : option Z :=
  match s with ExitCode c => Some c | KilledBy _ => None end.
Definition status_signal (s : ExitStatus) : option Z :=
  match s with ExitCode _ => None | KilledBy s => Some s end.
Definition status_success (s : ExitStatus) : bool := bool_decide (s = ExitCode 0).

(** [Command] after the calls of its builder; all of them clear the environment first, take
    no input and lead a process group of their own. *)
Record Command : Type := mkCommand {
  cmd_program : string; cmd_arg0 : option string; cmd_args : list string;
  cmd_directory : string; cmd_environment : gmap string string
}.

(** A process. [ps_ended] is the status of one that ended and was not waited for yet;
    [ps_child] whether its parent is this daemon; [ps_terminated] whether it was sent
    SIGTERM; [ps_launch] the agent and launch it was started for, if any: the kernel does
    not know it, and no definition of the supervisor reads it. *)
Record Process : Type := mkProcess {
  ps_name : string; ps_argv : list string; ps_environ : list string;
  ps_group : Z; ps_start_ticks : Z; ps_child : bool;
  ps_terminated : bool; ps_ended : option ExitStatus;
  ps_launch : option (AgentId * string)
}.

Definition alive (p : Process) : bool := bool_decide (ps_ended p = None).

Inductive Behaviour : Type :=
| Exits (status : ExitStatus)
| Execs (name : string) (argv : list string).

(** What the machine decides at each turn: the wall clock in milliseconds, how long a call
    takes, the process identifier and start time a new process gets, whether a spawn fails,
    what each process does, which process appears from elsewhere, the counters of
    /proc/pid/stat, and whether a TCP connection succeeds. *)
Class Machine : Type := {
  wall_millis : nat → Z;
  elapsed : nat → N;
  next_pid : nat → Z;
  next_ticks : nat → Z;
  spawn_fault : nat → option IoError;
  behaves : nat → Z → Process → option Behaviour;
  appears : nat → option (Z * Process);
  stat_running : nat → Z → bool;
  stat_counter : nat → Z → nat → Z;
  connects : nat → string → Z → bool
}.

Record Host : Type := mkHost {
  h_procs : gmap Z Process;
  h_turn : nat;
  h_instant : Z;                            (** the monotonic clock, in milliseconds *)
  h_signals : list (nat * Z * bool)         (** signals sent to groups: turn, group, SIGKILL *)
}.

Definition with_program (name : string) (argv : list string) (p : Process) : Process :=
  mkProcess name argv (ps_environ p) (ps_group p) (ps_start_ticks p) (ps_child p)
    (ps_terminated p) (ps_ended p) (ps_launch p).
Definition with_end (status : ExitStatus) (p : Process) : Process :=
  mkProcess (ps_name p) (ps_argv p) (ps_environ p) (ps_group p) (ps_start_ticks p) (ps_child p)
    (ps_terminated p) (Some status) (ps_launch p).
Definition with_termination (p : Process) : Process :=
  mkProcess (ps_name p) (ps_argv p) (ps_environ p) (ps_group p) (ps_start_ticks p) (ps_child p)
    true (ps_ended p) (ps_launch p).

(** A process that ends stays until its parent waits for it; init waits for those of others. *)
Definition end_process (status : ExitStatus) (p : Process) : option Process :=
  if alive p then (if ps_child p then Some (with_end status p) else None) else Some p.

Section Host.
Context `{Machine}.

Definition next_of (turn : nat) (pid : Z) (p : Process) : option Process :=
  if alive p then
    match behaves turn pid p with
    | Some (Exits status) => end_process status p
    | Some (Execs name argv) => Some (with_program name argv p)
    | None => Some p
    end
  else Some p.

(** Processes from elsewhere are not the daemon's children and were not launched by it. *)
Definition arrive (turn : nat) (procs : gmap Z Process) : gmap Z Process :=
  match appears turn with
  | Some (pid, p) =>
    if bool_decide (procs !! pid = None ∧ ps_child p = false ∧ ps_launch p = None)
    then <[pid := p]> procs else procs
  | None => procs
  end.

(** One turn: every system call takes one. *)
Definition turn (h : Host) : Host :=
  mkHost (arrive (h_turn h) (map_imap (next_of (h_turn h)) (h_procs h)))
    (S (h_turn h)) (h_instant h + Z.of_N (elapsed (h_turn h))) (h_signals h).
Definition syscall {E A} (m : M Host E A) : M Host E A := λ h, m (turn h).

Definition set_procs (f : gmap Z Process → gmap Z Process) (h : Host) : Host :=
  mkHost (f (h_procs h)) (h_turn h) (h_instant h) (h_signals h).

(** ** Clocks *)
Definition system_time_millis {E} : M Host E Z := syscall (gets (λ h, wall_millis (h_turn h))).
Definition instant_now {E} : M Host E Z := syscall (gets h_instant).
(** [thread::sleep]: at least this long. *)
Definition sleep {E} (millis : Z) : M Host E unit :=
  syscall (modify (λ h, mkHost (h_procs h) (h_turn h) (h_instant h + millis) (h_signals h))).

(** ** Spawning and waiting *)
Definition nul_free (c : Command) : bool :=
  negb (contains_char NUL (cmd_program c)
        || is_some_and (cmd_arg0 c) (contains_char NUL)
        || existsb (contains_char NUL) (cmd_args c)
        || contains_char NUL (cmd_directory c)
        || existsb (λ '(k, v), contains_char NUL k || contains_char NUL v)
             (map_to_list (cmd_environment c))).
Definition base_name (path : string) : string :=
  default EmptyString (last (split_char "/" path)).
Definition environment_entry (e : string * string) : string :=
  String.append e.1 (String.append "=" e.2).
Definition process_of_command (c : Command) (launch : option (AgentId * string)) (pid ticks : Z)
    : Process :=
  mkProcess (String.substring 0 15 (base_name (cmd_program c)))
    (default (cmd_program c) (cmd_arg0 c) :: cmd_args c)
    (map environment_entry (btree_iter (cmd_environment c))) pid ticks true false None launch.
Definition MAX_PID : Z := 4194304.

Definition spawn (c : Command) (launch : option (AgentId * string)) : M Host IoError Z :=
  syscall (λ h,
    if negb (nul_free c) then (Err (mkIoError InvalidInput "nul byte found in provided data"), h)
    else match spawn_fault (h_turn h) with
    | Some e => (Err e, h)
    | None =>
      let pid := next_pid (h_turn h) in
      if bool_decide (0 < pid ≤ MAX_PID ∧ h_procs h !! pid = None)
      then (Ok pid,
            set_procs (<[pid := process_of_command c launch pid (next_ticks (h_turn h))]>) h)
      else (Err (mkIoError OtherKind "resource temporarily unavailable"), h)
    end).

Definition no_child : IoError := mkIoError OtherKind "no child processes".
(** [child.try_wait()]: collects the status of a child that ended. *)
Definition try_wait (pid : Z) : M Host IoError (option ExitStatus) :=
  syscall (λ h,
    match h_procs h !! pid with
    | Some p => if ps_child p then
                  match ps_ended p with
                  | Some status => (Ok (Some status), set_procs (delete pid) h)
                  | None => (Ok None, h)
                  end
                else (Err no_child, h)
    | None => (Err no_child, h)
    end).
(** [child.wait()]; [None] when the call would block because the child is alive. *)
Definition wait (pid : Z) : M Host IoError (option ExitStatus) := try_wait pid.

(** ** Signals *)
Definition kill_process (group : Z) (p : Process) : option Process :=
  if bool_decide (ps_group p = group) then end_process (KilledBy 9) p else Some p.
Definition terminate_process (group : Z) (p : Process) : Process :=
  if bool_decide (ps_group p = group) then with_termination p else p.
(** [killpg]: false when the group has no process (ESRCH). The daemon may signal any process. *)
Definition killpg {E} (group : Z) (kill : bool) : M Host E bool :=
  syscall (λ h,
    (Ok (existsb (λ e : Z * Process, bool_decide (ps_group e.2 = group)) (map_to_list (h_procs h))),
     mkHost (if kill then omap (kill_process group) (h_procs h)
             else terminate_process group <$> h_procs h)
       (h_turn h) (h_instant h) (h_signals h ++ [(h_turn h, group, kill)]))).
(** [kill(pid, 0)]: true also for a process that was not waited for. *)
Definition process_present {E} (pid : Z) : M Host E bool :=
  syscall (gets (λ h, option_is_some (h_procs h !! pid))).

(** ** /proc (proc(5)) *)
Definition stat_letter (turn : nat) (pid : Z) (p : Process) : string :=
  if alive p then (if stat_running turn pid then "R" else "S") else "Z".
Definition stat_fields (turn : nat) (pid : Z) (p : Process) : list string :=
  stat_letter turn pid p
  :: map (λ i, show_Z (stat_counter turn pid i)) (seq 1 18)
  ++ show_Z (ps_start_ticks p) :: map (λ i, show_Z (stat_counter turn pid i)) (seq 20 30).
Definition stat_line (turn : nat) (pid : Z) (p : Process) : string :=
  String.append (show_Z pid) (String.append " (" (String.append (ps_name p)
    (String.append ") " (join_with " " (stat_fields turn pid p))))).
Definition terminated_by (c : ascii) (l : list string) : string :=
  foldr (λ s rest, String.append s (String c rest)) EmptyString l.

Definition proc_stat {E} (pid : Z) : M Host E (option string) :=
  syscall (gets (λ h, (λ p, stat_line (h_turn h) pid p) <$> h_procs h !! pid)).
(** Empty once the process has ended. *)
Definition proc_cmdline {E} (pid : Z) : M Host E (option string) :=
  syscall (gets (λ h, (λ p, if alive p then terminated_by NUL (ps_argv p) else EmptyString)
                      <$> h_procs h !! pid)).
Definition proc_environ {E} (pid : Z) : M Host E (option string) :=
  syscall (gets (λ h, (λ p, if alive p then terminated_by NUL (ps_environ p) else EmptyString)
                      <$> h_procs h !! pid)).

End Host.

(** ** How the processes change
    [carries p p']: the same process later. What it was launched for, its parent, group,
    start time and environment stay; the dead stay dead; and under [settled] only the
    daemon's children replace their program. *)
Record carries (p p' : Process) : Prop := {
  carries_launch : ps_launch p' = ps_launch p;
  carries_child : ps_child p' = ps_child p;
  carries_group : ps_group p' = ps_group p;
  carries_ticks : ps_start_ticks p' = ps_start_ticks p;
  carries_environ : ps_environ p' = ps_environ p;
  carries_dead : alive p' = true → alive p = true;
  carries_program : ps_child p = false → ps_argv p' = ps_argv p ∧ ps_name p' = ps_name p
}.
#[export] Instance carries_preorder : PreOrder carries.
Proof.
  split; [by intros p|]. intros p q r [] []. split; try congruence; auto.
  intros Hc. destruct carries_program0 as [<- <-]; [done|]. apply carries_program1. congruence.
Qed.

(** Launched processes come from launched processes, and the daemon's launched children do
    not go away unless they are waited for. *)
Record evolves (m m' : gmap Z Process) : Prop := {
  evolves_back pid p' : m' !! pid = Some p' → ps_launch p' ≠ None →
    ∃ p, m !! pid = Some p ∧ carries p p';
  evolves_child pid p : m !! pid = Some p → ps_launch p ≠ None → ps_child p = true →
    ∃ p', m' !! pid = Some p' ∧ carries p p'
}.
#[export] Instance evolves_preorder : PreOrder evolves.
Proof.
  split.
  - intros m. split; intros pid p; eexists; split; done || reflexivity.
  - intros m1 m2 m3 [B1 C1] [B2 C2]. split.
    + intros pid p3 H3 Hl. destruct (B2 pid p3 H3 Hl) as (p2 & H2 & K2).
      destruct (B1 pid p2 H2) as (p1 & H1 & K1); [by rewrite <- (carries_launch _ _ K2)|].
      exists p1. split; [done|by transitivity p2].
    + intros pid p1 H1 Hl Hc. destruct (C1 pid p1 H1 Hl Hc) as (p2 & H2 & K2).
      destruct (C2 pid p2 H2) as (p3 & H3 & K3);
        [by rewrite (carries_launch _ _ K2)|by rewrite (carries_child _ _ K2)|].
      exists p3. split; [done|by transitivity p2].
Qed.

(** Every process becomes [f] of itself. *)
Lemma evolves_each (f : Z → Process → option Process) (m m' : gmap Z Process) :
  (∀ pid, m' !! pid = m !! pid ≫= f pid) →
  (∀ pid p p', f pid p = Some p' → carries p p') →
  (∀ pid p, ps_child p = true → is_Some (f pid p)) →
  evolves m m'.
Proof.
  intros Hm Hf Hc. split.
  - intros pid p' H' _. rewrite Hm in H'. destruct (m !! pid) as [p|]; [|done]. cbn in H'. eauto.
  - intros pid p H _ Hchild. destruct (Hc pid p Hchild) as [p' Hp']. exists p'.
    rewrite Hm, H. cbn. eauto.
Qed.

Lemma carries_end status p p' : end_process status p = Some p' → carries p p'.
Proof.
  unfold end_process. destruct (alive p) eqn:Ea; [destruct (ps_child p); [|done]|];
    intros [= <-]; [|reflexivity]. by split.
Qed.
Lemma end_process_child status p : ps_child p = true → is_Some (end_process status p).
Proof. unfold end_process. intros ->. destruct (alive p); eauto. Qed.

Definition all_ended (group : Z) (m : gmap Z Process) : Prop :=
  ∀ pid p, m !! pid = Some p → ps_group p = group → alive p = false.

Section Evolution.
Context `{Machine}.
(** Only the daemon's children replace their program: [setpriv] does so once, and an agent's
    harness does not. *)
Definition settled : Prop :=
  ∀ n pid p name argv, behaves n pid p = Some (Execs name argv) → ps_child p = true.
Hypothesis Hsettled : settled.

Lemma evolves_turn h : evolves (h_procs h) (h_procs (turn h)).
Proof using Hsettled.
  transitivity (map_imap (next_of (h_turn h)) (h_procs h)).
  - apply (evolves_each (next_of (h_turn h))); [apply map_lookup_imap| |].
    + intros pid p p'. unfold next_of. destruct (alive p) eqn:Ea; [|intros [= <-]; reflexivity].
      destruct (behaves (h_turn h) pid p) as [[]|] eqn:Eb;
        [apply carries_end| |intros [= <-]; reflexivity].
      apply Hsettled in Eb. intros [= <-]. split; try done. congruence.
    + intros pid p Hc. unfold next_of. destruct (alive p); [|eauto].
      destruct (behaves (h_turn h) pid p) as [[]|]; eauto using end_process_child.
  - cbn. unfold arrive. destruct (appears (h_turn h)) as [[pid p]|]; [|reflexivity].
    case_bool_decide as Ha; [|reflexivity]. destruct Ha as (Hn & Hc & Hl). split.
    + intros q p' H' Hl'. destruct (decide (q = pid)) as [->|].
      * rewrite lookup_insert_eq in H'. congruence.
      * rewrite lookup_insert_ne in H' by done. exists p'; split; [done|reflexivity].
    + intros q p' H' _ _. exists p'. rewrite lookup_insert_ne by congruence. split; [done|reflexivity].
Qed.

Definition hosts_evolve (h h' : Host) : Prop := evolves (h_procs h) (h_procs h').
#[export] Instance hosts_evolve_preorder : PreOrder hosts_evolve.
Proof. split; [intros h; unfold hosts_evolve; reflexivity|]. intros a b c. unfold hosts_evolve. by transitivity (h_procs b). Qed.

Lemma evolve_syscall {E A} (m : M Host E A) :
  (∀ h, evolves (h_procs h) (h_procs (m h).2)) → always hosts_evolve (syscall m).
Proof using Hsettled.
  intros Hm h. unfold hosts_evolve, syscall. transitivity (h_procs (turn h)); [apply evolves_turn|apply Hm].
Qed.
Lemma evolve_gets {E A} (f : Host → A) : always hosts_evolve (syscall (gets (E := E) f)).
Proof using Hsettled. by apply evolve_syscall. Qed.
Lemma evolve_sleep {E} d : always hosts_evolve (sleep (E := E) d).
Proof using Hsettled. by apply evolve_syscall. Qed.
Lemma evolve_killpg {E} group kill : always hosts_evolve (killpg (E := E) group kill).
Proof using Hsettled.
  apply evolve_syscall. intros h. cbn. destruct kill.
  - apply (evolves_each (λ _, kill_process group)); [intros pid; apply lookup_omap| |].
    + intros _ p p'. unfold kill_process. case_bool_decide; [apply carries_end|intros [= <-]; reflexivity].
    + intros _ p Hc. unfold kill_process. case_bool_decide; eauto using end_process_child.
  - apply (evolves_each (λ _ p, Some (terminate_process group p))); [intros pid| |eauto].
    + rewrite lookup_fmap. by destruct (h_procs h !! pid).
    + intros _ p p' [= <-]. unfold terminate_process. case_bool_decide; [by split|reflexivity].
Qed.

(** SIGKILL ends the whole group. *)
Lemma killpg_ends {E} group h :
  all_ended group (h_procs (killpg (E := E) group true h).2).
Proof.
  intros pid p'. cbn. rewrite lookup_omap. destruct (_ !! pid) as [p|]; [|done]. cbn.
  unfold kill_process. case_bool_decide; [|by intros [= ->]].
  unfold end_process. destruct (alive p) eqn:Ea; [|by intros [= <-]].
  destruct (ps_child p); [|done]. by intros [= <-].
Qed.

(** Waiting for a process that was not launched for an agent. *)
Definition unlaunched (pid : Z) (h : Host) : Prop :=
  ∀ p, h_procs h !! pid = Some p → ps_launch p = None.
Lemma unlaunched_evolve pid h h' : hosts_evolve h h' → unlaunched pid h → unlaunched pid h'.
Proof.
  intros [Hb _] Hu p' H'. destruct (ps_launch p') as [launch|] eqn:El; [|done].
  destruct (Hb pid p' H') as (p0 & Hp & K); [congruence|].
  rewrite (carries_launch _ _ K), (Hu p0 Hp) in El. done.
Qed.
Lemma evolve_delete pid m :
  (∀ p, m !! pid = Some p → ps_launch p = None) → evolves m (delete pid m).
Proof.
  intros Hu. split.
  - intros q p [_ H']%lookup_delete_Some _. exists p; split; [done|reflexivity].
  - intros q p H' Hl _. exists p. split; [|reflexivity]. apply lookup_delete_Some. split; [|done].
    intros <-. by rewrite (Hu p H') in Hl.
Qed.
Lemma evolve_try_wait pid h : unlaunched pid h → hosts_evolve h (try_wait pid h).2.
Proof using Hsettled.
  intros Hu. unfold try_wait, syscall. transitivity (turn h); [apply evolves_turn|].
  assert (unlaunched pid (turn h)) as Hu' by (eapply unlaunched_evolve; [apply evolves_turn|done]).
  destruct (h_procs (turn h) !! pid) as [p|]; [|reflexivity]. destruct (ps_child p); [|reflexivity].
  destruct (ps_ended p); [|reflexivity]. cbn. by apply evolve_delete.
Qed.

(** A spawn that is not for an agent disturbs nothing; one that is adds the one process. *)
Lemma spawn_ok c launch h pid h' :
  spawn c launch h = (Ok pid, h') →
  h_procs (turn h) !! pid = None ∧ 0 < pid ≤ MAX_PID
  ∧ h_procs h' = <[pid := process_of_command c launch pid (next_ticks (h_turn (turn h)))]>
                   (h_procs (turn h)).
Proof.
  unfold spawn, syscall. destruct (negb (nul_free c)); [done|].
  destruct (spawn_fault _); [done|]. case_bool_decide as Hp; [|done]. intros [= <- <-].
  by destruct Hp as [? ?].
Qed.
Lemma spawn_err c launch h e h' : spawn c launch h = (Err e, h') → h' = turn h.
Proof.
  unfold spawn, syscall. destruct (negb (nul_free c)); [by intros [= _ <-]|].
  destruct (spawn_fault _); [by intros [= _ <-]|]. case_bool_decide; [done|]. by intros [= _ <-].
Qed.
Lemma evolve_spawn_unlaunched c h :
  hosts_evolve h (spawn c None h).2
  ∧ ∀ pid, (spawn c None h).1 = Ok pid → unlaunched pid (spawn c None h).2.
Proof using Hsettled.
  destruct (spawn c None h) as [[pid|e] h'] eqn:E.
  - apply spawn_ok in E as (Hn & _ & Hp). split.
    + transitivity (turn h); [apply evolves_turn|]. unfold hosts_evolve. cbn [snd]. rewrite Hp. split.
      * intros q p'. rewrite lookup_insert_Some. intros [[<- <-]|[? Hq]]; [done|]. exists p'; split; [done|reflexivity].
      * intros q p' Hq _ _. exists p'. split; [|reflexivity]. apply lookup_insert_Some. right. split; [congruence|done].
    + intros q [= <-] p. cbn [snd]. rewrite Hp, lookup_insert_eq. by intros [= <-].
  - apply spawn_err in E as ->. split; [apply evolves_turn|done].
Qed.

End Evolution.
