(* ===== verification/Supervisor.v ===== *)
(** * The local process supervisor (src/src/supervisor.rs)
    [LocalProcessAdapter]: launching an agent's harness, observing it and stopping it, over
    the file system and the host's processes. *)
From Stdlib Require Import ZArith Lia String Ascii.
From stdpp Require Import base gmap list strings fin_maps pretty.
From S2P Require Import Prelude RustStr Bytes Monad Ids Lifecycle Agent Runtime Launch Reconcile.
From S2P Require Import Diagnostics LogCapture Fs AgentFiles CommunityJoin Daemon Receipts Process.
#[local] Open Scope Z_scope.
#[local] Set Warnings "-notation-for-abbreviation".

Definition LAUNCH_MARKER : string := "BUZZ_SERVER_LAUNCH_ID".
Definition POLL_INTERVAL : Z := 20.

Record LocalLogPolicy : Type := mkLogPolicy {
  llp_directory : Path; llp_max_file_bytes : Z; llp_max_read_bytes : Z
}.
Definition invalid_input (message : string) : SupervisorError :=
  SupervisorIo (mkIoError InvalidInput message).
Definition LocalLogPolicy_validate (self : LocalLogPolicy) : result SupervisorError unit :=
  if negb (p_absolute (llp_directory self)) || (llp_max_file_bytes self =? 0)
     || (llp_max_read_bytes self =? 0) || (llp_max_read_bytes self >? llp_max_file_bytes self)
  then Err (invalid_input "invalid local log policy") else Ok tt.

Record LocalProcessIdentity : Type := mkProcessIdentity {
  lpi_uid : Z; lpi_gid : Z; lpi_supplementary_gids : list Z; lpi_home : Path
}.

(** The fields of the adapter that never change, and those behind its locks. *)
Record LocalProcessAdapter : Type := mkAdapter {
  la_logs : LocalLogPolicy; la_stop_timeout : Z;
  la_child_identity : option (Z * Z); la_child_home : option Path
}.
(** A child, with the status [Child] keeps once it was collected. *)
Record ManagedChild : Type := mkManagedChild {
  mc_pid : Z; mc_status : option ExitStatus; mc_receipt : ProcessReceipt
}.
Record LocalState : Type := mkLocalState {
  lo_host : Host;
  lo_children : gmap Z ManagedChild;
  lo_identities : gmap AgentId LocalProcessIdentity;
  lo_generation : Z;                       (** [NEXT_GENERATION] *)
  lo_drains : list (Z * bool * Path * Z)   (** drain threads: child, stderr, file, bound *)
}.

#[local] Notation W := (Fs * LocalState)%type.
Definition Sup (A : Type) : Type := M W SupervisorError A.
#[export] Instance has_host : Has Host W := {|
  part w := lo_host w.2;
  set_part h w := (w.1, mkLocalState h (lo_children w.2) (lo_identities w.2) (lo_generation w.2)
                          (lo_drains w.2)) |}.
Definition sup_io {A} (m : IO A) : Sup A := on (S := Fs) (M_map_err SupervisorIo m).
Definition host_io {A} (m : M Host IoError A) : Sup A := on (S := Host) (M_map_err SupervisorIo m).
Definition host {A} (m : M Host SupervisorError A) : Sup A := on (S := Host) m.
Definition set_children (f : gmap Z ManagedChild → gmap Z ManagedChild) (w : W) : W :=
  (w.1, mkLocalState (lo_host w.2) (f (lo_children w.2)) (lo_identities w.2) (lo_generation w.2)
          (lo_drains w.2)).
(** Dropping the outcome of a call: [let _ = ..], [.is_ok()]. *)
Definition succeeds {E F A} (m : M W E A) : M W F bool := λ w, let '(r, w') := m w in (Ok (is_ok r), w').

Definition ManagedChild_matches (self : ManagedChild) (receipt : ProcessReceipt) : bool :=
  let own := mc_receipt self in
  bool_decide (pr_launch_id own = pr_launch_id receipt)
  && bool_decide (pr_agent_id own = pr_agent_id receipt)
  && bool_decide (pr_process_group_id own = pr_process_group_id receipt)
  && bool_decide (pr_desired own = pr_desired receipt)
  && (pr_pid own =? pr_pid receipt)
  && (pr_started_at_unix_ms own =? pr_started_at_unix_ms receipt).

(** ** File names *)
Definition launch_id_byte (c : ascii) : bool :=
  is_ascii_alphanumeric c || Ascii.eqb c "-" || Ascii.eqb c "_".
Definition log_path (self : LocalProcessAdapter) (launch_id : string) (stderr : bool)
    : result SupervisorError Path :=
  if str_is_empty launch_id || (len launch_id >? 160) || negb (all_bytes launch_id_byte launch_id)
  then Err (invalid_input "launch id is not safe for a log file name")
  else Ok (join (llp_directory (la_logs self))
             (String.append launch_id (if stderr then ".stderr.log" else ".stdout.log"))).

(** [path.file_name().and_then(to_str).unwrap_or("log")] *)
Definition name_text (p : Path) : string :=
  match file_name p with Some n => if is_utf8 n then n else "log" | None => "log" end.
Definition provenance_path (p : Path) : Path :=
  with_file_name p (String.append (name_text p) ".meta.json").

(** [OpenOptions::new().create(true).write(true).truncate(true).mode(mode).open(path)]: the
    entry the path leads to, emptied, or a new one. *)
Definition truncate_entry (mode : Z) (q : Path) : IO unit := λ s,
  (Ok tt, set_nodes (<[q := match fs_nodes s !! q with
                            | Some n => with_data "" n
                            | None => mkNode RegularFile mode (fs_uid s) ""
                            end]>) s).
Definition open_truncated (mode : Z) (p : Path) : IO Path :=
  atomic_call (q ← open_path MAX_SYMLINKS p; _ ← truncate_entry mode q; mret q).
(** [fs::write] *)
Definition write_file (p : Path) (data : string) : IO unit :=
  q ← open_truncate p; write_all q data.

(** ** Starting *)
Definition identity_of_pair (self : LocalProcessAdapter) (ids : Z * Z) : LocalProcessIdentity :=
  mkProcessIdentity ids.1 ids.2 [ids.2] (default (mkPath false []) (la_child_home self)).
Definition identity_for (self : LocalProcessAdapter) (agent_id : AgentId)
    : Sup (option LocalProcessIdentity) := λ w,
  (Ok (match lo_identities w.2 !! agent_id with
       | Some identity => Some identity
       | None => identity_of_pair self <$> la_child_identity self
       end), w).
Definition adapter_set_identity (agent_id : AgentId) (identity : LocalProcessIdentity)
    : M LocalState SupervisorError unit :=
  modify (λ s, mkLocalState (lo_host s) (lo_children s) (<[agent_id := identity]> (lo_identities s))
                 (lo_generation s) (lo_drains s)).

(** The program to run and its first arguments. *)
Definition command_for_identity (executable : string) (identity : option LocalProcessIdentity)
    : string * list string :=
  match identity with
  | None => (executable, [])
  | Some identity =>
    ("/usr/bin/setpriv",
     ["--reuid"; show_Z (lpi_uid identity); "--regid"; show_Z (lpi_gid identity); "--groups";
      join_with "," (map show_Z (lpi_supplementary_gids identity)); "--"; executable])
  end.

Definition or_insert (key value : string) (m : gmap string string) : gmap string string :=
  match m !! key with Some _ => m | None => <[key := value]> m end.

Fixpoint resolve_secrets (secrets : SecretRef → result SupervisorError string)
    (l : list (string * SecretRef)) (environment : gmap string string)
    : result SupervisorError (gmap string string) :=
  match l with
  | [] => Ok environment
  | (name, reference) :: l =>
    match secrets reference with
    | Err _ => Err SecretResolution
    | Ok value =>
      if contains_char NUL value then Err SecretResolution
      else resolve_secrets secrets l (<[name := value]> environment)
    end
  end.

Definition runtime_bin (desired : LaunchSpec) : string :=
  match parent (path_of_string (ei_path (rr_executable (ls_runtime desired)))) with
  | Some dir => path_text dir
  | None => "/usr/bin"
  end.
Definition home_of (self : LocalProcessAdapter) (desired : LaunchSpec)
    (identity : option LocalProcessIdentity) : string :=
  match (match identity with Some i => Some (lpi_home i) | None => la_child_home self end) with
  | Some path => if is_utf8 (path_text path) then path_text path else ls_runtime_path desired
  | None => ls_runtime_path desired
  end.

Definition resolve_environment (self : LocalProcessAdapter) (desired : LaunchSpec)
    (secrets : SecretRef → result SupervisorError string) (identity : option LocalProcessIdentity)
    : result SupervisorError (gmap string string) :=
  let environment := ls_environment desired in
  let environment :=
    or_insert "PATH" (String.append (runtime_bin desired) ":/usr/local/bin:/usr/bin:/bin")
      environment in
  let environment := or_insert "HOME" (home_of self desired identity) environment in
  let environment :=
    or_insert "TMPDIR" (String.append (ls_runtime_path desired) "/tmp") environment in
  let? environment :=
    resolve_secrets secrets (btree_iter (ls_secret_environment desired)) environment in
  let? harness := map_err InvalidSpec (harness_runtime_environment desired) in
  Ok (<[LAUNCH_MARKER := ls_launch_id desired]> (harness ∪ environment)).

(** What the preflight probe is not given. *)
Definition preflight_environment (environment : gmap string string) : gmap string string :=
  delete HARNESS_AUTH_TAG_ENV (delete HARNESS_PRIVATE_KEY_ENV environment).

Definition command_with (executable : string) (identity : option LocalProcessIdentity)
    (args : list string) (directory : string) (environment : gmap string string)
    (arg0 : option string) : Command :=
  let '(program, first) := command_for_identity executable identity in
  mkCommand program arg0 (first ++ args) directory environment.

Definition exit_description (status : ExitStatus) : string :=
  match status_code status with
  | None => "terminated by signal"
  | Some code => String.append "exit " (show_Z code)
  end.

Definition arg0_of (desired : LaunchSpec) : string :=
  String.append (ei_path (ls_harness desired))
    (String.append "#" (String.append LAUNCH_MARKER (String.append "=" (ls_launch_id desired)))).

Section Adapter.
Context `{Machine}.
(** [serde_json::to_vec] of a log's provenance. *)
Variable render_provenance : LogProvenance → string.
Variable self : LocalProcessAdapter.

Definition unix_millis : Sup Z :=
  t ← host system_time_millis;
  if (0 <=? t) && (t <=? u64_max) then mret t else throw SupervisorClock.
(** [unix_millis().unwrap_or_default()], [unix_millis().ok()] *)
Definition unix_millis_ok : Sup (option Z) := λ w,
  let '(r, w') := unix_millis w in (Ok (result_ok r), w').

Definition pid_in_range (pid : Z) : Sup unit :=
  if pid <? 2 ^ 31 then mret tt else throw (invalid_input "process id exceeds platform range").
Definition signal_group (pid : Z) (signal : string) : Sup unit :=
  if String.eqb signal "-TERM" then _ ← pid_in_range pid; _ ← host (killpg pid false); mret tt
  else if String.eqb signal "-KILL" then _ ← pid_in_range pid; _ ← host (killpg pid true); mret tt
  else throw (invalid_input "unsupported process-group signal").
Definition process_exists (pid : Z) : Sup bool :=
  _ ← pid_in_range pid; host (process_present pid).

Definition next_generation : Sup Z := λ w,
  (Ok (lo_generation w.2),
   (w.1, mkLocalState (lo_host w.2) (lo_children w.2) (lo_identities w.2)
           (u64_wrapping_add (lo_generation w.2) 1) (lo_drains w.2))).

(** [fs::create_dir_all(path).is_ok() && fs::metadata(path).is_ok_and(|m| m.is_dir())] *)
Definition directory_ready (p : Path) : Sup bool := λ w,
  match sup_io (create_dir_all p) w with
  | (Err _, w) => (Ok false, w)
  | (Ok _, w) =>
    match sup_io (metadata p) w with
    | (Ok n, w) => (Ok (is_kind Directory n), w)
    | (Err _, w) => (Ok false, w)
    end
  end.
Definition configure_app_server_logs (environment : gmap string string) (launch_id generation : string)
    : Sup (AppServerLogsStatus * gmap string string) :=
  match environment !! "APP_SERVER_LOGS" with
  | Some path =>
    ready ← directory_ready (path_of_string path);
    mret (if ready : bool then Configured else Unwritable, environment)
  | None =>
    let path := join (llp_directory (la_logs self))
                  (String.append launch_id (String.append "." (String.append generation ".app-server-logs"))) in
    ready ← directory_ready path;
    mret (if ready : bool then (Configured, <["APP_SERVER_LOGS" := path_text path]> environment)
          else (Unwritable, environment))
  end.

(** The loop of [run_preflight]; one poll takes at least [POLL_INTERVAL]. *)
Fixpoint poll_preflight (polls : nat) (child deadline : Z) : Sup unit :=
  match polls with
  | O => throw SupervisorLockPoisoned
  | S polls =>
    status ← host_io (try_wait child);
    match status with
    | Some status =>
      _ ← succeeds (E := SupervisorError) (signal_group child "-KILL");
      if status_success status then mret tt else throw (Preflight (exit_description status))
    | None =>
      now ← host instant_now;
      if now >=? deadline then
        _ ← signal_group child "-KILL";
        _ ← succeeds (E := SupervisorError) (host_io (wait child));
        throw (Preflight "timed out")
      else _ ← host (sleep POLL_INTERVAL); poll_preflight polls child deadline
    end
  end.
Definition polls_for (millis : Z) : nat := S (S (Z.to_nat (millis / POLL_INTERVAL))).

Definition run_preflight (desired : LaunchSpec) (environment : gmap string string)
    (identity : option LocalProcessIdentity) : Sup unit :=
  match rr_preflight (ls_runtime desired) with
  | None => mret tt
  | Some probe =>
    child ← host_io (spawn (command_with (pp_command probe) identity (pp_arguments probe)
                              (ls_working_directory desired) (preflight_environment environment) None)
                       None);
    now ← host instant_now;
    poll_preflight (polls_for (pp_timeout_seconds probe * 1000)) child
      (now + pp_timeout_seconds probe * 1000)
  end.

Definition prepare_log (launch_id : string) (stderr : bool) (generation : string) : Sup Path :=
  path ← of_result (log_path self launch_id stderr);
  exists_ ← sup_io (path_exists path);
  _ ← (if exists_ : bool then
         let stem := name_text path in
         let rotated := String.append stem (String.append "." generation) in
         _ ← sup_io (rename path (join (llp_directory (la_logs self)) rotated));
         let metadata := provenance_path path in
         exists_ ← sup_io (path_exists metadata);
         if exists_ : bool then
           sup_io (rename metadata (join (llp_directory (la_logs self))
                                      (String.append rotated ".meta.json")))
         else mret tt
       else mret tt);
  _ ← sup_io (open_truncated 384 (* 0o600 *) path);
  mret path.

Definition write_log_provenance (path : Path) (stream : string) (desired : LaunchSpec)
    (generation : string) (pid : Z) : Sup unit :=
  now ← unix_millis_ok;
  _ ← succeeds (E := SupervisorError) (sup_io (write_file (provenance_path path) (render_provenance
        (mkLogProvenance stream (ls_launch_id desired) (Some pid) generation (default 0 now) None
           0 0 0 0 "capture"))));
  mret tt.

Definition capture (pid : Z) (stderr : bool) (path : Path) (desired : LaunchSpec) (generation : string)
    : Sup unit :=
  _ ← write_log_provenance path (if stderr then "stderr" else "stdout") desired generation pid;
  modify (λ w, (w.1, mkLocalState (lo_host w.2) (lo_children w.2) (lo_identities w.2)
                       (lo_generation w.2)
                       (lo_drains w.2 ++ [(pid, stderr, path, llp_max_file_bytes (la_logs self))]))).

(** ** /proc *)
Definition parse_u64 (s : string) : option Z :=
  match s with
  | String "+" s' => v ← parse_digits s'; if v <? 2 ^ 64 then Some v else None
  | _ => v ← parse_digits s; if v <? 2 ^ 64 then Some v else None
  end.
Definition start_ticks_of (stat : string) : option Z :=
  '(_, after_name) ← rsplit_once ") " stat;
  field ← split_whitespace after_name !! 19%nat;
  parse_u64 field.
Definition process_start_ticks (pid : Z) : Sup (option Z) :=
  stat ← host (proc_stat pid);
  mret (stat ← stat; if is_utf8 stat then start_ticks_of stat else None).
Definition command_of (cmdline : string) : option string :=
  match split_char NUL cmdline with
  | first :: _ => if str_is_empty first then None else Some (from_utf8_lossy first)
  | [] => None
  end.
Definition process_command (pid : Z) : Sup (option string) :=
  cmdline ← host (proc_cmdline pid); mret (cmdline ≫= command_of).
Definition marker_entry (launch_id : string) : string :=
  String.append LAUNCH_MARKER (String.append "=" launch_id).
Definition process_has_launch_marker (pid : Z) (launch_id : string) : Sup bool :=
  environment ← host (proc_environ pid);
  mret (is_some_and environment (λ environment,
          existsb (String.eqb (marker_entry launch_id)) (split_char NUL environment))).

Definition expected_command (receipt : ProcessReceipt) : string :=
  String.append (ei_path (li_harness (pr_desired receipt)))
    (String.append "#" (marker_entry (pr_launch_id receipt))).
Definition command_matches (receipt : ProcessReceipt) : bool :=
  is_some_and (pr_command_path receipt) (λ command,
    String.eqb command (expected_command receipt)
    || String.eqb command (ei_path (li_harness (pr_desired receipt)))).
(** Each test reads /proc only if the ones before it held. *)
Definition receipt_owned (receipt : ProcessReceipt) : Sup bool :=
  if negb (command_matches receipt && option_is_some (pr_process_start_ticks receipt)) then mret false
  else
  ticks ← process_start_ticks (pr_pid receipt);
  if negb (bool_decide (ticks = pr_process_start_ticks receipt)) then mret false
  else
  command ← process_command (pr_pid receipt);
  if negb (bool_decide (command = pr_command_path receipt)) then mret false
  else process_has_launch_marker (pr_pid receipt) (pr_launch_id receipt).

(** ** The supervisor *)
Definition start_receipt (desired : LaunchSpec) (identity : option LocalProcessIdentity)
    (generation : string) (pid started_at : Z) (ticks : option Z) (logs : AppServerLogsStatus)
    : ProcessReceipt :=
  mkProcessReceipt (ls_launch_id desired) (Some generation) (ls_agent_id desired)
    (ls_process_group_id desired) (LaunchSpec_identity desired) pid started_at ticks
    (Some (match identity with Some _ => ei_path (ls_harness desired) | None => arg0_of desired end))
    Starting None None None None None logs None.

(** Everything before the harness is spawned. *)
Record PreparedLaunch : Type := mkPrepared {
  pl_identity : option LocalProcessIdentity; pl_generation : string;
  pl_environment : gmap string string; pl_logs : AppServerLogsStatus;
  pl_stdout : Path; pl_stderr : Path
}.
Definition prepare_launch (desired : LaunchSpec) (secrets : SecretRef → result SupervisorError string)
    : Sup PreparedLaunch :=
  _ ← of_result (map_err InvalidSpec (LaunchSpec_validate desired));
  identity ← identity_for self (ls_agent_id desired);
  now ← unix_millis;
  serial ← next_generation;
  let generation := String.append (show_Z now) (String.append "-" (show_Z serial)) in
  environment ← of_result (resolve_environment self desired secrets identity);
  '(logs, environment) ← configure_app_server_logs environment (ls_launch_id desired) generation;
  _ ← run_preflight desired environment identity;
  stdout_path ← prepare_log (ls_launch_id desired) false generation;
  stderr_path ← prepare_log (ls_launch_id desired) true generation;
  mret (mkPrepared identity generation environment logs stdout_path stderr_path).

Definition harness_command (desired : LaunchSpec) (p : PreparedLaunch) : Command :=
  command_with (ei_path (ls_harness desired)) (pl_identity p) (ls_harness_arguments desired)
    (ls_working_directory desired) (pl_environment p)
    (match pl_identity p with None => Some (arg0_of desired) | Some _ => None end).

(** The harness runs: its output is captured and its receipt made. *)
Definition launch_process (desired : LaunchSpec) (p : PreparedLaunch) : Sup ProcessReceipt :=
  pid ← host_io (spawn (harness_command desired p) (Some (ls_agent_id desired, ls_launch_id desired)));
  _ ← capture pid false (pl_stdout p) desired (pl_generation p);
  _ ← capture pid true (pl_stderr p) desired (pl_generation p);
  started_at ← unix_millis;
  ticks ← process_start_ticks pid;
  let receipt := start_receipt desired (pl_identity p) (pl_generation p) pid started_at ticks
                   (pl_logs p) in
  _ ← of_result (map_err InvalidSpec (ProcessReceipt_validate receipt));
  _ ← modify (set_children (<[pid := mkManagedChild pid None receipt]>));
  mret receipt.

Definition start (desired : LaunchSpec) (secrets : SecretRef → result SupervisorError string)
    : Sup ProcessReceipt :=
  p ← prepare_launch desired secrets; launch_process desired p.

Definition health_ready (receipt : ProcessReceipt) : Sup bool :=
  now ← unix_millis_ok;
  let elapsed := u64_saturating_sub (default 0 now) (pr_started_at_unix_ms receipt) in
  match li_health (pr_desired receipt) with
  | HealthProcess startup_grace_ms => mret (elapsed >=? startup_grace_ms)
  | HealthTcp address port startup_grace_ms _ _ =>
    if elapsed <? startup_grace_ms then mret false
    else host (syscall (gets (λ h, connects (h_turn h) address port)))
  end.

Definition with_wait (r : ProcessReceipt) (outcome : ParentWaitOutcome) (ended : option Z)
    : ProcessReceipt :=
  mkProcessReceipt (pr_launch_id r) (pr_generation r) (pr_agent_id r) (pr_process_group_id r)
    (pr_desired r) (pr_pid r) (pr_started_at_unix_ms r) (pr_process_start_ticks r)
    (pr_command_path r) (pr_observed_state r) (pr_exit_code r) (Some outcome) ended
    ((λ e, u64_saturating_sub e (pr_started_at_unix_ms r)) <$> ended) (pr_failure r)
    (pr_app_server_logs r) (pr_lifecycle r).
Definition with_live_identity (r : ProcessReceipt) (ticks : option Z) (command : option string)
    : ProcessReceipt :=
  mkProcessReceipt (pr_launch_id r) (pr_generation r) (pr_agent_id r) (pr_process_group_id r)
    (pr_desired r) (pr_pid r) (pr_started_at_unix_ms r) ticks command (pr_observed_state r)
    (pr_exit_code r) (pr_wait_outcome r) (pr_ended_at_unix_ms r) (pr_duration_ms r) (pr_failure r)
    (pr_app_server_logs r) (pr_lifecycle r).
Definition observe_wait (receipt : ProcessReceipt) (status : ExitStatus) : Sup ProcessReceipt :=
  ended ← unix_millis_ok;
  mret (with_wait receipt
          (match status_signal status with
           | Some signal => WaitSignaled signal
           | None => WaitExited (default (-1) (status_code status))
           end) ended).

Definition observe (receipt : ProcessReceipt) (state : ObservedProcessState) (code : option Z)
    : Sup ProcessReceipt :=
  of_result (map_err InvalidSpec (ProcessReceipt_observe receipt state code)).

(** [managed.child.try_wait()], which remembers the status. *)
Definition with_status (status : ExitStatus) (m : ManagedChild) : ManagedChild :=
  mkManagedChild (mc_pid m) (Some status) (mc_receipt m).
Definition child_try_wait (m : ManagedChild) : Sup (option ExitStatus) :=
  match mc_status m with
  | Some status => mret (Some status)
  | None =>
    status ← host_io (try_wait (mc_pid m));
    _ ← (match status with
         | Some status => modify (set_children (alter (with_status status) (mc_pid m)))
         | None => mret tt
         end);
    mret status
  end.

Definition is_starting (s : ObservedProcessState) : bool :=
  match s with Starting => true | _ => false end.

(** A child of this daemon. *)
Definition inspect_managed (receipt : ProcessReceipt) (managed : ManagedChild) : Sup ProcessReceipt :=
  if negb (ManagedChild_matches managed receipt) then throw ReceiptMismatch
  else
  status ← child_try_wait managed;
  match status with
  | Some status =>
    observed ← observe receipt Exited (status_code status);
    observed ← observe_wait observed status;
    _ ← modify (set_children (delete (pr_pid receipt)));
    mret observed
  | None =>
    ready ← (if is_starting (pr_observed_state receipt) then health_ready receipt else mret false);
    if ready : bool then
      ticks ← process_start_ticks (pr_pid receipt);
      command ← process_command (pr_pid receipt);
      observed ← observe (with_live_identity receipt ticks command) Healthy None;
      _ ← modify (set_children (alter (λ m, mkManagedChild (mc_pid m) (mc_status m) observed)
                                  (pr_pid receipt)));
      mret observed
    else mret receipt
  end.

(** A process an earlier daemon started. *)
Definition inspect_adopted (receipt : ProcessReceipt) : Sup ProcessReceipt :=
  owned ← receipt_owned receipt;
  present ← (if owned : bool then process_exists (pr_pid receipt) else mret false);
  if present : bool then
    ready ← (if is_starting (pr_observed_state receipt) then health_ready receipt else mret false);
    if ready : bool then observe receipt Healthy None else mret receipt
  else if negb (ObservedProcessState_is_terminal (pr_observed_state receipt))
  then observe receipt Lost None
  else mret receipt.

Definition managed_at (pid : Z) : Sup (option ManagedChild) := gets (λ w, lo_children w.2 !! pid).

Definition inspect (receipt : ProcessReceipt) : Sup ProcessReceipt :=
  _ ← of_result (map_err InvalidSpec (ProcessReceipt_validate receipt));
  managed ← managed_at (pr_pid receipt);
  match managed with
  | Some managed => inspect_managed receipt managed
  | None => inspect_adopted receipt
  end.

Definition managed_receipt (receipt : ProcessReceipt) : Sup bool :=
  managed ← managed_at (pr_pid receipt);
  mret (is_some_and managed (λ m, ManagedChild_matches m receipt)).

(** [while Self::process_exists(..)? && Instant::now() < deadline { sleep }] *)
Fixpoint await_exit (polls : nat) (pid deadline : Z) : Sup unit :=
  match polls with
  | O => throw SupervisorLockPoisoned
  | S polls =>
    present ← process_exists pid;
    if negb present then mret tt
    else
    now ← host instant_now;
    if now <? deadline then _ ← host (sleep POLL_INTERVAL); await_exit polls pid deadline
    else mret tt
  end.

(** [managed.child.wait()]: a status that was collected, or the child's; a child that is
    alive would block the call. *)
Definition child_wait (m : ManagedChild) : Sup ExitStatus :=
  match mc_status m with
  | Some status => mret status
  | None =>
    status ← host_io (wait (mc_pid m));
    of_result (ok_or SupervisorLockPoisoned status)
  end.

(** The end of [stop]: what is left of the group is killed, and the child waited for. *)
Definition kill_and_collect (receipt observed : ProcessReceipt) : Sup ProcessReceipt :=
  present ← process_exists (pr_pid receipt);
  _ ← (if present : bool then signal_group (pr_pid receipt) "-KILL" else mret tt);
  child ← managed_at (pr_pid receipt);
  match child with
  | Some child =>
    _ ← modify (set_children (delete (pr_pid receipt)));
    status ← child_wait child;
    observed ← observe observed Exited (status_code status);
    observe_wait observed status
  | None => observe observed Lost None
  end.

Definition stop (receipt : ProcessReceipt) : Sup ProcessReceipt :=
  observed ← inspect receipt;
  if ObservedProcessState_is_terminal (pr_observed_state observed) then mret observed
  else
  managed ← managed_receipt receipt;
  owned ← (if managed : bool then mret true else receipt_owned receipt);
  if negb owned then throw ReceiptMismatch
  else
  observed ← observe observed Stopping None;
  _ ← signal_group (pr_pid receipt) "-TERM";
  now ← host instant_now;
  _ ← await_exit (polls_for (la_stop_timeout self)) (pr_pid receipt) (now + la_stop_timeout self);
  kill_and_collect receipt observed.

(** [read_log_tail]: the last bytes of the file, redacted; a missing file is empty. *)
Definition adapter_log_tail (launch_id : string) (stderr : bool) : Sup string := λ w,
  match log_path self launch_id stderr with
  | Err e => (Err e, w)
  | Ok path =>
    match sup_io (read_file path) w with
    | (Ok bytes, w) => (Ok (read_log_tail (llp_max_read_bytes (la_logs self)) (Some bytes)), w)
    | (Err (SupervisorIo error), w) =>
      if kind_is NotFound error then (Ok (read_log_tail (llp_max_read_bytes (la_logs self)) None), w)
      else (Err (SupervisorIo error), w)
    | (Err e, w) => (Err e, w)
    end
  end.

End Adapter.

(** [LocalProcessAdapter::new] *)
Definition adapter_new (logs : LocalLogPolicy) (stop_timeout : Z) (child_identity : option (Z * Z))
    (child_home : option Path) (h : Host) (s : Fs) : result SupervisorError (LocalProcessAdapter * W) :=
  let? _ := LocalLogPolicy_validate logs in
  if stop_timeout =? 0 then Err (invalid_input "stop timeout must be non-zero")
  else
  match create_dir_all (llp_directory logs) s with
  | (Err e, _) => Err (SupervisorIo e)
  | (Ok _, s) => Ok (mkAdapter logs stop_timeout child_identity child_home,
                     (s, mkLocalState h ∅ ∅ 0 []))
  end.
