(* ===== verification/ProcFiles.v ===== *)
(** * Reading /proc (supervisor.rs, [process_start_ticks] and its companions)
    What the supervisor reads from the files of a process is what the kernel wrote there,
    whatever the process calls itself: the start time, the first argument, and the launch
    marker of its environment. *)
From Stdlib Require Import ZArith Lia String Ascii.
From stdpp Require Import base gmap list strings fin_maps pretty.
From S2P Require Import Prelude RustStr Bytes Monad Ids Lifecycle Agent Runtime Launch Reconcile.
From S2P Require Import Diagnostics LogCapture Fs AgentFiles CommunityJoin Daemon Receipts Process.
From S2P Require Import Supervisor.
#[local] Open Scope Z_scope.

(** ** Decimal numbers are read back *)
Definition decimal (s : string) : Prop := all_bytes is_ascii_digit s = true.

Lemma digit_char x :
  (x < 10)%N → is_ascii_digit (pretty_N_char x) = true
               ∧ Z.of_N (byte_val (pretty_N_char x)) - 48 = Z.of_N x.
Proof.
  intros Hx. assert (x = 0 ∨ x = 1 ∨ x = 2 ∨ x = 3 ∨ x = 4 ∨ x = 5 ∨ x = 6 ∨ x = 7 ∨ x = 8 ∨ x = 9)%N
    as Hc by lia. by repeat destruct Hc as [->|Hc]; [..|subst].
Qed.

Lemma digits_onto_app acc a b v :
  digits_onto acc a = Some v → digits_onto acc (String.append a b) = digits_onto v b.
Proof.
  revert acc. induction a as [|c a IH]; intros acc H; cbn in H |- *; [by injection H as ->|].
  destruct (is_ascii_digit c); [by apply IH|done].
Qed.

(** Writing [x] before [s]: the digits of [x], then [s]. *)
Lemma pretty_N_go_digits x s :
  ∃ d, pretty_N_go x s = String.append d s ∧ decimal d ∧ digits_onto 0 d = Some (Z.of_N x)
       ∧ (x ≠ 0%N → d ≠ EmptyString).
Proof.
  revert s. induction (N.lt_wf_0 x) as [x _ IH]; intros s.
  assert (x = 0 ∨ 0 < x)%N as [->|Hx] by lia.
  { exists EmptyString. by rewrite pretty_N_go_0. }
  rewrite pretty_N_go_step by done.
  destruct (IH (x `div` 10)%N) with (s := String (pretty_N_char (x `mod` 10)) s)
    as (d & -> & Hd & Hv & _); [by apply N.div_lt|].
  destruct (digit_char (x `mod` 10)%N) as [Hc Hz]; [by apply N.mod_lt|].
  exists (String.append d (String (pretty_N_char (x `mod` 10)) EmptyString)). split_and!.
  - by rewrite append_assoc.
  - unfold decimal in *. rewrite all_bytes_append, Hd. cbn. by rewrite Hc.
  - rewrite (digits_onto_app 0 d _ _ Hv). cbn [digits_onto]. rewrite Hc. f_equal.
    pose proof (N.div_mod x 10 ltac:(done)). lia.
  - intros _. by destruct d.
Qed.

Lemma show_Z_digits z : 0 ≤ z → parse_digits (show_Z z) = Some z ∧ decimal (show_Z z).
Proof.
  intros Hz. unfold show_Z, pretty, pretty_Z. destruct z as [|p|p]; [done| |lia].
  unfold pretty, pretty_positive, pretty, pretty_N. destruct (decide _); [done|].
  destruct (pretty_N_go_digits (N.pos p) EmptyString) as (d & -> & Hd & Hv & Hne).
  rewrite append_nil_r. split; [|done]. unfold parse_digits.
  destruct (str_is_empty d) eqn:Ed; [|done]. destruct d; [by destruct Hne|done].
Qed.

Lemma decimal_graphic s : decimal s → all_bytes ascii_graphic s = true.
Proof. apply all_bytes_impl. apply digit_graphic. Qed.
Lemma show_Z_word z : word (show_Z z) ∧ contains_char ")" (show_Z z) = false.
Proof.
  assert (∀ p, word (show_Z (Z.pos p)) ∧ contains_char ")" (show_Z (Z.pos p)) = false) as Hp.
  { intros p. destruct (show_Z_digits (Z.pos p)) as [Hv Hd]; [lia|]. split; [by eapply parse_digits_word|].
    rewrite contains_char_false. revert Hd. apply all_bytes_impl.
    intros c. by destruct c as [[] [] [] [] [] [] [] []]. }
  destruct z as [|p|p]; [done|apply Hp|]. destruct (Hp p) as [Hw Hc].
  change (show_Z (Z.neg p)) with (String "-" (show_Z (Z.pos p))). split; [by apply word_cons|].
  change (String "-" (show_Z (Z.pos p))) with (String.append "-" (show_Z (Z.pos p))).
  by rewrite contains_char_append, Hc.
Qed.

Lemma parse_u64_show z : 0 ≤ z < 2 ^ 64 → parse_u64 (show_Z z) = Some z.
Proof.
  intros Hz. destruct (show_Z_digits z) as [Hp Hd]; [lia|].
  assert ((v ← parse_digits (show_Z z); if v <? 2 ^ 64 then Some v else None) = Some z) as Hr.
  { rewrite Hp. cbn. destruct (Z.ltb_spec z (2 ^ 64)); [done|lia]. }
  unfold parse_u64. destruct (show_Z z) as [|c s]; [done|].
  unfold decimal in Hd. cbn in Hd. apply andb_true_iff in Hd as [Hc _].
  by destruct c as [[] [] [] [] [] [] [] []].
Qed.

(** ** /proc/pid/stat *)
Lemma rsplit_once_free s : contains_char ")" s = false → rsplit_once ") " s = None.
Proof.
  rewrite contains_char_false. induction s as [|c s IH]; intros Hc; [done|].
  cbn [all_bytes] in Hc. apply andb_true_iff in Hc as [Hc Hs]. cbn [rsplit_once]. rewrite (IH Hs).
  cbn [strip_prefix]. by destruct (Ascii.eqb ")" c).
Qed.
Lemma rsplit_once_last pre post :
  contains_char ")" post = false →
  rsplit_once ") " (String.append pre (String.append ") " post)) = Some (pre, post).
Proof.
  intros Hp. induction pre as [|c pre IH].
  - change (rsplit_once ") " (String ")" (String " " post)) = Some (EmptyString, post)).
    assert (rsplit_once ") " (String " " post) = None) as E.
    { apply rsplit_once_free. change (String " " post) with (String.append " " post).
      by rewrite contains_char_append, Hp. }
    cbn [rsplit_once]. cbn [rsplit_once] in E. rewrite E. done.
  - change (rsplit_once ") " (String c (String.append pre (String.append ") " post)))
            = Some (String c pre, post)).
    cbn [rsplit_once]. by rewrite IH.
Qed.

Section Stat.
Context `{Machine}.

Lemma join_free c l :
  Forall (λ s, contains_char c s = false) l → Ascii.eqb c " " = false →
  contains_char c (join_with " " l) = false.
Proof.
  intros Hl Hc. induction Hl as [|x l Hx Hl IH]; [done|]. destruct l as [|y l]; [done|].
  change (join_with " " (x :: y :: l)) with (String.append x (String.append " " (join_with " " (y :: l)))).
  rewrite !contains_char_append, Hx, IH. unfold contains_char. cbn. by rewrite Hc.
Qed.

Lemma stat_fields_words n pid p :
  Forall (λ s, word s ∧ contains_char ")" s = false) (stat_fields n pid p).
Proof.
  unfold stat_fields. constructor.
  - unfold stat_letter. by destruct (alive p), (stat_running n pid).
  - apply Forall_app. split; [|constructor; [apply show_Z_word|]];
      (apply Forall_map, Forall_forall; intros i _; apply show_Z_word).
Qed.

(** The start time is the one of the process, even for a name that contains parentheses
    and numbers. *)
Lemma start_ticks_of_stat n pid p :
  0 ≤ ps_start_ticks p < 2 ^ 64 → start_ticks_of (stat_line n pid p) = Some (ps_start_ticks p).
Proof.
  intros Ht. unfold start_ticks_of, stat_line. pose proof (stat_fields_words n pid p) as Hf.
  rewrite <- !append_assoc. rewrite append_assoc.
  rewrite rsplit_once_last; [|by apply join_free; [eapply Forall_impl; [exact Hf|cbn; tauto]|]].
  cbn [mbind option_bind]. rewrite split_whitespace_join by (eapply Forall_impl; [exact Hf|cbn; tauto]).
  unfold stat_fields. cbn [lookup list_lookup map seq app].
  by apply parse_u64_show.
Qed.

(** ** /proc/pid/cmdline and /proc/pid/environ *)
Lemma split_terminated l :
  Forall (λ s, contains_char NUL s = false) l →
  split_char NUL (terminated_by NUL l) = l ++ [EmptyString].
Proof.
  induction 1 as [|x l Hx Hl IH]; [done|]. cbn [terminated_by foldr].
  rewrite split_char_cons by done. unfold terminated_by in IH. by rewrite IH.
Qed.

Lemma command_of_argv argv c rest :
  argv = c :: rest → Forall (λ s, contains_char NUL s = false) argv → c ≠ EmptyString →
  is_utf8 c = true → command_of (terminated_by NUL argv) = Some c.
Proof.
  intros -> Hl Hne Hu. unfold command_of. rewrite split_terminated by done. cbn.
  destruct (str_is_empty c) eqn:E; [by destruct c|]. f_equal. by apply String.eqb_eq in Hu.
Qed.

Lemma marker_in_environ launch_id environ :
  Forall (λ s, contains_char NUL s = false) environ → marker_entry launch_id ∈ environ →
  existsb (String.eqb (marker_entry launch_id)) (split_char NUL (terminated_by NUL environ)) = true.
Proof.
  intros Hl Hin. rewrite split_terminated by done. apply existsb_exists.
  exists (marker_entry launch_id). split; [|apply String.eqb_refl].
  apply in_or_app. left. by apply list_elem_of_In.
Qed.
End Stat.
