(* ===== verification/Staging.v ===== *)
(** * Staging directories of the provider host (provider.rs)
    Every negotiation keeps a directory with the process that owns it; a host that starts
    removes the directories of processes that are gone. *)
From Stdlib Require Import ZArith Lia String Ascii.
From stdpp Require Import base gmap list strings fin_maps.
From S2P Require Import Prelude RustStr Bytes Monad Fs AgentFiles CommunityJoin Daemon Diagnostics LogCapture.
From S2P Require Import Sha256 Discovery Json Provider ProviderHost Custody AgentTree Receipts Process Supervisor ProcFiles.
#[local] Open Scope Z_scope.

Definition pio {A} (m : IO A) : M Fs ProviderError A := M_map_err ProviderIo m.
Definition owner_file (directory : Path) : Path := join directory "owner.pid".

(** [fs::create_dir] *)
Definition create_dir (umask : Z) (p : Path) : IO unit :=
  atomic_call (λ s, insert_absent p (mkNode Directory (Z.ldiff 511 umask) (fs_uid s) "") s).

(** [StagedProvider::copy]: [name] is the identifier drawn, [pid] the process, [staged] what
    copying and sealing gives ([copy_into_sealed_file], which writes to no file). *)
Definition fill_staging (directory : Path) (pid : Z) (staged : result ProviderError StagedProvider)
    : M Fs ProviderError StagedProvider :=
  _ ← pio (set_permissions directory 448 (* 0o700 *));
  _ ← pio (write_file (owner_file directory) (show_Z pid));
  of_result staged.
Definition fill_or_remove (directory : Path) (pid : Z) (staged : result ProviderError StagedProvider)
    : M Fs ProviderError StagedProvider := λ s,
  match fill_staging directory pid staged s with
  | (Ok provider, s) => (Ok provider, s)
  | (Err e, s) => (Err e, (remove_dir_all directory s).2)
  end.
Definition stage (umask : Z) (root : Path) (name : string) (pid : Z) (staged : result ProviderError StagedProvider)
    : M Fs ProviderError StagedProvider :=
  let directory := join root (String.append "provider-" name) in
  _ ← pio (create_dir umask directory);
  fill_or_remove directory pid staged.
(** [Drop for StagedProvider] *)
Definition drop_staging (directory : Path) (s : Fs) : Fs :=
  (remove_dir_all directory (set_permissions directory 448 s).2).2.

Section Cleanup.
(** Whether [/proc/<pid>] exists. *)
Variable alive : Z → bool.

Definition staging_owner (directory : Path) : M Fs ProviderError (option Z) := λ s,
  match read_to_string (owner_file directory) s with
  | (Ok value, s) => (Ok (parse_u32 value), s)
  | (Err _, s) => (Ok None, s)
  end.
Definition clean_directory (directory : Path) : M Fs ProviderError unit :=
  owner ← staging_owner directory;
  if is_some_and owner alive then mret tt else pio (remove_dir_all directory).
Definition clean_entry (entry : Path) : M Fs ProviderError unit :=
  _ ← pio next_entry;
  if negb (is_some_and (file_name entry) (starts_with "provider-")) then mret tt
  else
    metadata ← pio (symlink_metadata entry);
    if negb (is_kind Directory metadata) then mret tt else clean_directory entry.
Definition cleanup_stale_staging (root : Path) : M Fs ProviderError unit :=
  entries ← pio (read_directory root);
  forM_ clean_entry entries.

(** [ProviderHost::new] *)
Definition start_provider_host `{LetterCase} (config : ProviderHostConfig) (staging_directory : Path) : M Fs ProviderError unit :=
  _ ← of_result (ProviderHost_new config);
  _ ← pio (create_dir_all staging_directory);
  cleanup_stale_staging staging_directory.

(** ** What is removed *)
Definition owner_in (s : Fs) (directory : Path) : option Z :=
  match fs_nodes s !! owner_file directory with
  | Some n => if is_kind Directory n || negb (is_utf8 (n_data n)) then None else parse_u32 (n_data n)
  | None => None
  end.
Definition stale (s : Fs) (entry : Path) : bool :=
  is_some_and (file_name entry) (starts_with "provider-")
  && bool_decide (kind_at entry s = Some Directory) && negb (is_some_and (owner_in s entry) alive).

Lemma staging_owner_quiet directory s :
  fs_faults s = [] → plain_at (owner_file directory) s → staging_owner directory s = (Ok (owner_in s directory), s).
Proof.
  intros Hf Hp. unfold staging_owner, owner_in, read_to_string, mbind, M_bind.
  destruct (fs_nodes s !! owner_file directory) as [n|] eqn:En.
  - destruct (is_kind Directory n) eqn:Ek; cbn [orb].
    + apply bool_decide_eq_true in Ek. unfold read_file, atomic_call. rewrite call_quiet by done.
      unfold mbind, M_bind. rewrite (proj2 (follow_target _ _ s n s)).
      * unfold is_kind. by rewrite bool_decide_eq_true_2.
      * split; [done|]. by apply leads_to_plain; [|apply Hp].
    + apply bool_decide_eq_false in Ek. rewrite (read_file_quiet _ _ n); [|done|by apply leads_to_plain; [|apply Hp]|done].
      by destruct (is_utf8 (n_data n)).
  - unfold read_file, atomic_call. rewrite call_quiet by done. unfold MAX_SYMLINKS. cbn [follow].
    unfold mbind, M_bind, node_at. by rewrite En.
Qed.

(** The tree at a directory is gone, and nothing else. *)
Definition removed (d : Path) (s s' : Fs) : Prop :=
  fs_faults s' = fs_faults s
  ∧ ∀ q, fs_nodes s' !! q = if starts_with_path d q then None else fs_nodes s !! q.
Lemma delete_all_in l (m : gmap Path Node) q : q ∈ l → delete_all l m !! q = None.
Proof.
  induction l as [|x l IH]; cbn; [by intros ?%not_elem_of_nil|].
  destruct (decide (q = x)) as [->|Hne]; [by rewrite lookup_delete_eq|].
  intros [->|Hq]%elem_of_cons; [done|]. rewrite lookup_delete_ne by done. auto.
Qed.
Lemma below_elem p s q : starts_with_path p q = true → q ≠ p → is_Some (fs_nodes s !! q) → q ∈ below p s.
Proof.
  intros Hs Hne [n Hn]. unfold below. rewrite elem_of_sort_by, list_elem_of_In, in_map_iff. exists (q, n).
  split; [done|]. apply filter_In. split; [by apply list_elem_of_In, elem_of_map_to_list|]. cbn.
  by rewrite Hs, bool_decide_eq_false_2.
Qed.
Lemma remove_dir_all_quiet d s :
  fs_faults s = [] → kind_at d s = Some Directory →
  ∃ s', remove_dir_all d s = (Ok tt, s') ∧ removed d s s'.
Proof.
  intros Hf Hk. unfold kind_at in Hk. destruct (fs_nodes s !! d) as [n|] eqn:En; [|done]. injection Hk as Hk.
  unfold remove_dir_all. rewrite call_quiet by done. unfold mbind, M_bind, node_at. rewrite En.
  unfold is_symlink, is_kind. rewrite Hk, bool_decide_eq_true_2 by done. eexists. split; [done|]. split; [done|].
  intros q. cbn. destruct (starts_with_path d q) eqn:Eq.
  - destruct (decide (q = d)) as [->|Hne]; [by rewrite lookup_delete_eq|]. rewrite lookup_delete_ne by done.
    destruct (fs_nodes s !! q) as [m|] eqn:Em; [by apply delete_all_in, below_elem|].
    destruct (decide (q ∈ below d s)); [by apply delete_all_in|]. by rewrite delete_all_lookup.
  - rewrite lookup_delete_ne by (intros ->; by rewrite starts_with_path_refl in Eq).
    apply delete_all_lookup. intros Hb%below_starts. congruence.
Qed.

(** One entry: removed with everything in it, if it is stale. *)
Lemma clean_entry_quiet c s :
  fs_faults s = [] → is_Some (fs_nodes s !! c) → plain_at (owner_file c) s →
  ∃ s', clean_entry c s = (Ok tt, s') ∧ if stale s c then removed c s s' else s' = s.
Proof.
  intros Hf [n Hn] Hp. unfold clean_entry, stale. unfold mbind at 1, M_bind at 1, pio at 1, M_map_err at 1.
  assert (next_entry s = (Ok tt, s)) as -> by (unfold next_entry, atomic_call; by apply call_quiet). cbn [map_err].
  destruct (is_some_and (file_name c) (starts_with "provider-")); cbn [negb andb]; [|by eexists].
  unfold mbind at 1, M_bind at 1, pio at 1, M_map_err at 1. rewrite (symlink_metadata_quiet c s n) by done. cbn [map_err].
  unfold kind_at, is_kind. rewrite Hn. cbn [fmap option_fmap option_map].
  destruct (decide (n_kind n = Directory)) as [Hk|Hk].
  - rewrite !bool_decide_eq_true_2 by congruence. cbn [negb andb]. unfold clean_directory, mbind, M_bind.
    rewrite staging_owner_quiet by done. destruct (is_some_and (owner_in s c) alive); cbn [negb]; [by eexists|].
    destruct (remove_dir_all_quiet c s Hf) as (s' & Hr & Hs'); [unfold kind_at; rewrite Hn; cbn; by rewrite Hk|].
    unfold pio, M_map_err. rewrite Hr. by eexists.
  - rewrite bool_decide_eq_false_2 by done. rewrite bool_decide_eq_false_2 by congruence. cbn. by eexists.
Qed.

(** Two entries of one directory are apart. *)
Lemma siblings_apart root c d q :
  parent c = Some root → parent d = Some root → c ≠ d → starts_with_path d q = true → starts_with_path c q = false.
Proof.
  intros [x ->]%parent_join_inv [y ->]%parent_join_inv Hne Hd. apply not_true_iff_false. intros Hc.
  unfold starts_with_path, join in *. cbn [p_absolute p_components] in *.
  apply andb_true_iff in Hc as [_ Hc], Hd as [_ Hd]. apply bool_decide_eq_true in Hc, Hd.
  destruct Hc as [kc Hc], Hd as [kd Hd]. rewrite Hc, <- !app_assoc in Hd. apply app_inv_head in Hd.
  injection Hd as -> _. by destruct Hne.
Qed.
Lemma owner_below d : starts_with_path d (owner_file d) = true.
Proof. apply starts_with_path_child, parent_join. Qed.

Lemma clean_entries root l s :
  fs_faults s = [] → NoDup l → (∀ c, c ∈ l → parent c = Some root ∧ is_Some (fs_nodes s !! c)) →
  (∀ c, c ∈ l → plain_at (owner_file c) s) →
  ∃ s', forM_ clean_entry l s = (Ok tt, s') ∧
    ∀ q, (∀ c, c ∈ l → stale s c = true → starts_with_path c q = true → fs_nodes s' !! q = None)
       ∧ ((∀ c, c ∈ l → stale s c = true → starts_with_path c q = false) → fs_nodes s' !! q = fs_nodes s !! q).
Proof.
  revert s. induction l as [|c l IH]; intros s Hf Hd Hl Hp.
  { exists s. split; [done|]. intros q. split; [by intros c ?%not_elem_of_nil|done]. }
  apply NoDup_cons in Hd as [Hc Hd]. destruct (Hl c) as [Hpar Hin]; [left|].
  destruct (clean_entry_quiet c s Hf Hin) as (s1 & E1 & H1); [apply Hp; left|].
  cbn [forM_]. unfold mbind, M_bind. rewrite E1.
  assert (fs_faults s1 = []) as Hf1 by (destruct (stale s c); [destruct H1 as [-> _]; done|by subst]).
  assert (∀ d q, d ∈ l → starts_with_path d q = true → fs_nodes s1 !! q = fs_nodes s !! q) as Hsame.
  { intros d q Hdl Hq. destruct (stale s c); [|by subst]. destruct H1 as [_ ->].
    rewrite (siblings_apart root c d q); [done|done|by apply Hl; right| |done]. by intros ->. }
  assert (∀ d, d ∈ l → stale s1 d = stale s d) as Hst.
  { intros d Hdl. unfold stale, kind_at, owner_in.
    by rewrite (Hsame d d Hdl (starts_with_path_refl d)), (Hsame d _ Hdl (owner_below d)). }
  destruct (IH s1) as (s' & E' & H'); [done|done| | |].
  - intros d Hdl. rewrite (Hsame d d Hdl (starts_with_path_refl d)). apply Hl. by right.
  - intros d Hdl n. rewrite (Hsame d _ Hdl (owner_below d)). apply Hp. by right.
  - exists s'. split; [done|]. intros q. destruct (H' q) as [Hgone Hkept]. split.
    + intros d [->|Hdl]%elem_of_cons Hs Hq; [|apply (Hgone d); [done|by rewrite Hst|done]].
      rewrite Hkept; [rewrite Hs in H1; destruct H1 as [_ ->]; by rewrite Hq|].
      intros e Hel _. apply (siblings_apart root e c q); [by apply Hl; right|done| |done]. by intros ->.
    + intros Hno. rewrite Hkept.
      * destruct (stale s c) eqn:Es; [|by subst]. destruct H1 as [_ ->]. by rewrite (Hno c) by (left || done).
      * intros d Hdl Hs. apply Hno; [by right|by rewrite <- Hst].
Qed.

Lemma children_nodup root s : NoDup (children root s).
Proof.
  unfold children. pose proof (NoDup_fst_map_to_list (fs_nodes s)) as Hd.
  change (fst <$> ?l) with (map fst l) in Hd. induction (map_to_list (fs_nodes s)) as [|e l IH]; [constructor|].
  cbn in *. apply NoDup_cons in Hd as [He Hd]. destruct (child_of root e.1); [|auto]. cbn.
  apply NoDup_cons. split; [|auto]. intros Hin. apply He. rewrite list_elem_of_In, in_map_iff in *.
  destruct Hin as (x & Hx & Hin). apply filter_In in Hin as [Hin _]. eauto.
Qed.

(** A host that starts removes exactly the staging directories of processes that are gone,
    with everything in them: directories of live processes, and everything else, stay. *)
Theorem only_stale_staging_is_removed (root : Path) (s : Fs) (n : Node) :
  fs_faults s = [] → fs_nodes s !! root = Some n → n_kind n = Directory →
  (∀ c, parent c = Some root → plain_at (owner_file c) s) →
  ∃ s', cleanup_stale_staging root s = (Ok tt, s') ∧
    ∀ q, (∀ c, parent c = Some root → stale s c = true → starts_with_path c q = true → fs_nodes s' !! q = None)
       ∧ ((∀ c, parent c = Some root → stale s c = true → starts_with_path c q = false) →
          fs_nodes s' !! q = fs_nodes s !! q).
Proof.
  intros Hf Hn Hk Hp. unfold cleanup_stale_staging, mbind, M_bind, pio, M_map_err.
  rewrite (read_directory_quiet root s n) by done. cbn [map_err].
  assert (∀ c, stale s c = true → parent c = Some root → c ∈ children root s) as Hch.
  { intros c Hs Hc. apply elem_of_children. split; [done|]. unfold stale, kind_at in Hs.
    rewrite !andb_true_iff, bool_decide_eq_true in Hs. destruct Hs as [[_ Hs] _]. by destruct (fs_nodes s !! c). }
  destruct (clean_entries root (children root s) s) as (s' & E & H); [done| | | |].
  - apply children_nodup.
  - intros c. apply elem_of_children.
  - intros c [Hc _]%elem_of_children. by apply Hp.
  - exists s'. split; [exact E|]. intros q. destruct (H q) as [Hgone Hkept]. split.
    + intros c Hc Hs Hq. apply (Hgone c); [by apply Hch|done|done].
    + intros Hno. apply Hkept. intros c [Hc _]%elem_of_children Hs. by apply Hno.
Qed.
End Cleanup.

(** ** What is taken for stale
    A directory whose owner cannot be read counts as left over. That is so between the creation
    of a directory and the writing of its owner, and when a read fails for another reason: a
    host that starts then removes the directory of a process that is running. *)
Definition staging_root : Path := mkPath true ["stage"].
Definition staging_dir : Path := join staging_root "provider-1".
Definition staged_fs (faults : list (option (IoError * nat))) : Fs :=
  mkFs (<[owner_file staging_dir := mkNode RegularFile 384 0 "7"]>
          (<[staging_dir := mkNode Directory 448 0 ""]> {[staging_root := mkNode Directory 448 0 ""]})) faults 0.
Theorem running_staging_can_be_removed :
  let busy := [None; None; None; Some (mkIoError OtherKind "too many open files", 0%nat)] in
  let fresh := (create_dir 0 staging_dir (mkFs {[staging_root := mkNode Directory 448 0 ""]} [] 0)).2 in
  let after s := fs_nodes (cleanup_stale_staging (λ _, true) staging_root s).2 !! staging_dir in
  is_Some (after (staged_fs [])) ∧ after (staged_fs busy) = None
  ∧ is_Some (fs_nodes fresh !! staging_dir) ∧ after fresh = None.
Proof. vm_compute. split_and!; [by eexists|reflexivity|by eexists|reflexivity]. Qed.

(** ** Staging that fails *)
(** Writing a new file, when nothing fails. *)
Lemma write_new_file p data s :
  fs_faults s = [] → fs_nodes s !! p = None →
  ∃ s' n, write_file p data s = (Ok tt, s') ∧ fs_nodes s' = <[p := n]> (fs_nodes s) ∧ fs_faults s' = [].
Proof.
  intros Hf Hn. unfold write_file, open_truncate, open_at, atomic_call, mbind, M_bind.
  rewrite call_quiet by done. unfold MAX_SYMLINKS. cbn [open_path]. rewrite Hn. unfold reset_entry. cbn -[write_all]. rewrite Hn.
  unfold write_all. rewrite call_quiet by done. eexists _, _. split; [reflexivity|]. split; [|done].
  cbn. by rewrite alter_insert_eq.
Qed.
(** Filling a new directory, when nothing fails: only what is below it changes. *)
Lemma fill_staging_quiet d pid staged s n :
  fs_faults s = [] → fs_nodes s !! d = Some n → n_kind n = Directory → fs_nodes s !! owner_file d = None →
  ∃ s', fill_staging d pid staged s = (staged, s') ∧ fs_faults s' = [] ∧ kind_at d s' = Some Directory
    ∧ ∀ q, starts_with_path d q = false → fs_nodes s' !! q = fs_nodes s !! q.
Proof.
  intros Hf Hn Hk Ho. assert (plain_at d s) as Hp by (intros m; rewrite Hn; intros [= <-]; unfold is_symlink; by rewrite Hk).
  pose proof (change_target_plain (with_mode 448) d s Hp) as He.
  destruct (change_target_quiet (with_mode 448) d s n Hf Hn) as [E1 Hf1]; [unfold is_symlink; by rewrite Hk|].
  unfold fill_staging, mbind, M_bind, pio, M_map_err, set_permissions.
  destruct (change_target (with_mode 448) d s) as [r s1]. cbn in E1, Hf1, He. subst r. cbn [map_err].
  destruct He as (m & Hm & He). assert (m = n) as -> by congruence.
  assert (owner_file d ≠ d) as Hne by apply join_neq.
  destruct (write_new_file (owner_file d) (show_Z pid) s1) as (s2 & k & -> & H2 & Hf2); [done|by rewrite He, lookup_insert_ne|].
  cbn [map_err]. exists s2. split_and!; [done|done| |].
  - unfold kind_at. rewrite H2, lookup_insert_ne, He, lookup_insert_eq by done. cbn. by rewrite Hk.
  - intros q Hq. rewrite H2, He. rewrite !lookup_insert_ne; [done| |].
    + intros <-. by rewrite starts_with_path_refl in Hq.
    + intros <-. by rewrite owner_below in Hq.
Qed.

(** A host whose staging fails, with nothing wrong with the file system, leaves no directory
    behind and changes nothing else. *)
Theorem failed_staging_leaves_nothing umask root name pid staged s e s' :
  let d := join root (String.append "provider-" name) in
  fs_faults s = [] → (∀ q, starts_with_path d q = true → fs_nodes s !! q = None) →
  stage umask root name pid staged s = (Err e, s') →
  fs_nodes s' = fs_nodes s.
Proof.
  intros d Hf Hfree. unfold stage. fold d. unfold mbind, M_bind, pio, M_map_err.
  assert (fs_nodes s !! d = None) as Hd by apply Hfree, starts_with_path_refl.
  set (n := mkNode Directory (Z.ldiff 511 umask) (fs_uid s) "").
  set (s1 := set_nodes (<[d := n]>) s).
  assert (create_dir umask d s = (Ok tt, s1)) as ->.
  { unfold create_dir, atomic_call. rewrite call_quiet by done. unfold insert_absent. by rewrite Hd. }
  cbn [map_err]. unfold fill_or_remove.
  destruct (fill_staging_quiet d pid staged s1 n) as (s2 & Er & Hf2 & Hk2 & Hs2); [done|by apply lookup_insert_eq|done| |].
  { cbn. rewrite lookup_insert_ne by (symmetry; apply join_neq). apply Hfree, owner_below. }
  rewrite Er. destruct staged as [p|e2]; [done|]. intros [= -> <-].
  destruct (remove_dir_all_quiet d s2 Hf2 Hk2) as (s3 & -> & _ & H3). cbn.
  apply map_eq. intros q. rewrite H3. destruct (starts_with_path d q) eqn:Eq; [by rewrite Hfree|].
  rewrite Hs2 by done. cbn. rewrite lookup_insert_ne; [done|]. intros <-. by rewrite starts_with_path_refl in Eq.
Qed.
