(* ===== verification/SupervisorLaws.v ===== *)
(** * The local supervisor keeps its promises
    [LocalProcessAdapter] (supervisor.rs) meets the laws the reconciler relies on
    ([SupervisorLaws]), on any machine whose clock reads after 1970, whose processes have
    a start time, and whose adopted processes do not replace their program. *)
From Stdlib Require Import ZArith Lia String Ascii.
From stdpp Require Import base gmap list strings fin_maps pretty.
From S2P Require Import Prelude RustStr Bytes Monad Ids Lifecycle Agent Runtime Launch Reconcile.
From S2P Require Import Diagnostics LogCapture Fs AgentFiles CommunityJoin Daemon Receipts Process.
From S2P Require Import Supervisor ProcFiles.
#[local] Open Scope Z_scope.
#[local] Set Warnings "-notation-for-abbreviation".
#[local] Notation W := (Fs * LocalState)%type.

Definition procs (w : W) : gmap Z Process := h_procs (lo_host w.2).
Definition managed (w : W) : gmap Z ManagedChild := lo_children w.2.

(** ** What is observed of the state *)
(** Which processes run, by the agent and launch they were started for. *)
Definition live_in (w : W) (p : AgentId * string * Z) : Prop :=
  ∃ q, procs w !! p.2 = Some q ∧ alive q = true ∧ ps_launch q = Some p.1.

(** A child in the table that was not collected is a launched child of the host; one that
    was collected leaves its identifier to others. *)
Definition child_ok (m : gmap Z Process) (pid : Z) (c : ManagedChild) : Prop :=
  mc_pid c = pid ∧ pr_pid (mc_receipt c) = pid
  ∧ match mc_status c with
    | None => ∃ q, m !! pid = Some q ∧ ps_child q = true
                   ∧ ps_launch q = Some (pr_agent_id (mc_receipt c), pr_launch_id (mc_receipt c))
    | Some _ => ∀ q, m !! pid = Some q → ps_launch q = None
    end.
(** A launched process leads its group, and is in the table while it is a live child. *)
Definition launched_ok (cs : gmap Z ManagedChild) (pid : Z) (q : Process) : Prop :=
  ps_launch q ≠ None →
  ps_group q = pid
  ∧ (ps_child q = true → alive q = true → ∃ c, cs !! pid = Some c ∧ mc_status c = None).
Definition supervised_in (w : W) : Prop :=
  map_Forall (child_ok (procs w)) (managed w) ∧ map_Forall (launched_ok (managed w)) (procs w).

Section Trust.
Context `{Machine}.

Definition ticks_read (n : nat) (pid : Z) (q : Process) : option Z :=
  if is_utf8 (stat_line n pid q) then start_ticks_of (stat_line n pid q) else None.
(** /proc shows of the process, at any time, what the receipt records. *)
Definition recorded (pid : Z) (q : Process) (r : ProcessReceipt) : Prop :=
  command_matches r = true ∧ option_is_some (pr_process_start_ticks r) = true
  ∧ (∀ n, ticks_read n pid q = pr_process_start_ticks r)
  ∧ command_of (terminated_by NUL (ps_argv q)) = pr_command_path r
  ∧ existsb (String.eqb (marker_entry (pr_launch_id r)))
      (split_char NUL (terminated_by NUL (ps_environ q))) = true.
(** The supervisor can recognise the process of the receipt. *)
Definition tracked (w : W) (r : ProcessReceipt) : Prop :=
  match managed w !! pr_pid r with
  | Some c => ManagedChild_matches c r = true
  | None => ∃ q, procs w !! pr_pid r = Some q ∧ ps_child q = false ∧ recorded (pr_pid r) q r
  end.
Definition trusted_in (w : W) (r : ProcessReceipt) : Prop :=
  (live_in w (process_of r) → tracked w r)
  ∧ (ObservedProcessState_is_terminal (pr_observed_state r) = true → ¬ live_in w (process_of r)).

(** ** Steps that start nothing and forget nothing *)
Definition tidy (w w' : W) : Prop :=
  supervised_in w →
  supervised_in w' ∧ (∀ p, live_in w' p → live_in w p) ∧ (∀ o, trusted_in w o → trusted_in w' o).
#[export] Instance tidy_preorder : PreOrder tidy.
Proof.
  split; [by intros w Hs|]. intros a b c Hab Hbc Hs. destruct (Hab Hs) as (Hs' & Hl & Ht).
  destruct (Hbc Hs') as (Hs'' & Hl' & Ht'). split_and!; auto.
Qed.

(** Steps that change the processes only as time does. *)
Definition calm (w w' : W) : Prop := evolves (procs w) (procs w') ∧ managed w' = managed w.
#[export] Instance calm_preorder : PreOrder calm.
Proof.
  split; [intros w; split; [reflexivity|done]|]. intros a b c [E1 M1] [E2 M2].
  split; [by transitivity (procs b)|congruence].
Qed.

(** Launched processes come from launched processes. *)
Definition comes_from (m m' : gmap Z Process) : Prop :=
  ∀ pid p', m' !! pid = Some p' → ps_launch p' ≠ None → ∃ p, m !! pid = Some p ∧ carries p p'.

Lemma evolves_comes m m' : evolves m m' → comes_from m m'.
Proof. intros Hev pid p'. by apply (evolves_back _ _ Hev). Qed.
Lemma live_back w w' p : comes_from (procs w) (procs w') → live_in w' p → live_in w p.
Proof.
  intros Hb (q' & Hq & Ha & Hl). destruct (Hb _ _ Hq) as (q & H0 & K); [congruence|].
  exists q. split_and!; [done|by apply (carries_dead _ _ K)|]. by rewrite <- (carries_launch _ _ K).
Qed.

Lemma recorded_carries pid q q' r :
  carries q q' → ps_child q = false → alive q' = true → recorded pid q r → recorded pid q' r.
Proof.
  intros K Hc Ha (Hm & Ht & Hr & Hcmd & He). destruct (carries_program _ _ K Hc) as [Ev En].
  pose proof (carries_dead _ _ K Ha) as Ha'. unfold recorded.
  assert (∀ n, stat_line n pid q' = stat_line n pid q) as Es.
  { intros n. unfold stat_line, stat_fields, stat_letter. by rewrite En, Ha, Ha', (carries_ticks _ _ K). }
  rewrite Ev, (carries_environ _ _ K). split_and!; try done. intros n. rewrite <- (Hr n). unfold ticks_read. by rewrite Es.
Qed.

Lemma tracked_evolves w w' o :
  (∀ q', procs w' !! pr_pid o = Some q' → ps_launch q' ≠ None →
     ∃ q, procs w !! pr_pid o = Some q ∧ carries q q') →
  managed w' !! pr_pid o = managed w !! pr_pid o →
  live_in w' (process_of o) → tracked w o → tracked w' o.
Proof.
  intros Hev Hm (q' & Hq & Ha & Hl). unfold tracked. rewrite Hm.
  destruct (managed w !! pr_pid o) as [c|]; [done|]. intros (q & H0 & Hc & Hr).
  destruct (Hev _ Hq) as (q0 & H1 & K); [congruence|]. cbn in Hq, H1.
  rewrite H0 in H1. injection H1 as <-. exists q'. split_and!; [done|by rewrite (carries_child _ _ K)|].
  by eapply recorded_carries.
Qed.

Lemma tidy_trusted w w' o :
  (∀ p, live_in w' p → live_in w p) →
  (live_in w' (process_of o) → tracked w o → tracked w' o) → trusted_in w o → trusted_in w' o.
Proof. intros Hl Ht [H1 H2]. split; [auto|]. intros Hterm Hlive. by apply H2; auto. Qed.

Lemma child_ok_evolves m m' pid c : evolves m m' → child_ok m pid c → child_ok m' pid c.
Proof.
  intros Hev (Hp & Hr & Hs). split_and!; [done|done|]. destruct (mc_status c).
  - intros q' Hq. destruct (ps_launch q') as [x|] eqn:El; [|done].
    destruct (evolves_back _ _ Hev _ _ Hq) as (q & H0 & K); [congruence|].
    rewrite (carries_launch _ _ K), (Hs q H0) in El. done.
  - destruct Hs as (q & Hq & Hc & Hl). destruct (evolves_child _ _ Hev _ _ Hq) as (q' & Hq' & K); [congruence|done|].
    exists q'. by rewrite (carries_child _ _ K), (carries_launch _ _ K).
Qed.

Lemma calm_tidy w w' : calm w w' → tidy w w'.
Proof.
  intros [Hev Hm] [Hc Hl]. split_and!.
  - split.
    + rewrite Hm. intros pid c Hpid. eapply child_ok_evolves; [done|by apply Hc].
    + rewrite Hm. intros pid q' Hq Hn. destruct (evolves_back _ _ Hev _ _ Hq Hn) as (q & H0 & K).
      destruct (Hl pid q H0) as [Hg Ha]; [by rewrite <- (carries_launch _ _ K)|].
      rewrite (carries_group _ _ K), (carries_child _ _ K). split; [done|].
      intros Hch Hal. apply Ha; [done|]. by apply (carries_dead _ _ K).
  - intros p. by apply live_back, evolves_comes.
  - intros o. apply tidy_trusted; [intros p; by apply live_back, evolves_comes|].
    intros Hlive. apply tracked_evolves; [by apply (evolves_comes _ _ Hev)|by rewrite Hm|done].
Qed.

(** A process leaves the table, and with it the child that was collected. *)
Lemma comes_from_delete pid m m' : evolves (delete pid m) m' → comes_from m m'.
Proof.
  intros Hev q p' Hq Hl. destruct (evolves_back _ _ Hev _ _ Hq Hl) as (p & Hp & K).
  apply lookup_delete_Some in Hp as [_ Hp]. eauto.
Qed.
Lemma deleted_unlaunched pid m m' p' :
  evolves (delete pid m) m' → m' !! pid = Some p' → ps_launch p' = None.
Proof.
  intros Hev Hq. destruct (ps_launch p') as [x|] eqn:El; [|done].
  destruct (evolves_back _ _ Hev _ _ Hq) as (p & Hp & _); [congruence|].
  by rewrite lookup_delete_eq in Hp.
Qed.
Lemma tidy_forget pid w w' :
  evolves (delete pid (procs w)) (procs w') →
  (∀ q, q ≠ pid → managed w' !! q = managed w !! q) →
  (∀ c, managed w' !! pid = Some c →
     mc_pid c = pid ∧ pr_pid (mc_receipt c) = pid ∧ mc_status c ≠ None) →
  tidy w w'.
Proof.
  intros Hev Hm Hpid [Hc Hl]. pose proof (comes_from_delete _ _ _ Hev) as Hfrom. split_and!.
  - split.
    + intros q c Hq. destruct (decide (q = pid)) as [->|Hne].
      * destruct (Hpid c Hq) as (? & ? & Hs). split_and!; [done|done|].
        destruct (mc_status c); [|done]. intros p. by apply (deleted_unlaunched pid (procs w)).
      * rewrite (Hm q Hne) in Hq. apply (child_ok_evolves (delete pid (procs w))); [done|].
        destruct (Hc q c Hq) as (? & ? & Hs). split_and!; [done|done|].
        destruct (mc_status c); by rewrite lookup_delete_ne.
    + intros q p' Hq Hn. destruct (decide (q = pid)) as [->|Hne].
      * by rewrite (deleted_unlaunched _ _ _ _ Hev Hq) in Hn.
      * rewrite (Hm q Hne). destruct (Hfrom q p' Hq Hn) as (p & Hp & K).
        destruct (Hl q p Hp) as [Hg Ha]; [by rewrite <- (carries_launch _ _ K)|].
        rewrite (carries_group _ _ K), (carries_child _ _ K). split; [done|].
        intros Hch Hal. apply Ha; [done|]. by apply (carries_dead _ _ K).
  - intros p. by apply live_back.
  - intros o. apply tidy_trusted; [intros p; by apply live_back|].
    intros Hlive. apply tracked_evolves; [apply Hfrom| |done]. apply Hm. intros <-.
    destruct Hlive as (p' & Hp & _ & Hpl). cbn in Hp.
    by rewrite (deleted_unlaunched _ _ _ _ Hev Hp) in Hpl.
Qed.

(** ** Receipts that denote the same child *)
Lemma matches_fields c r :
  ManagedChild_matches c r = true ↔
  pr_launch_id (mc_receipt c) = pr_launch_id r ∧ pr_agent_id (mc_receipt c) = pr_agent_id r
  ∧ pr_process_group_id (mc_receipt c) = pr_process_group_id r
  ∧ pr_desired (mc_receipt c) = pr_desired r ∧ pr_pid (mc_receipt c) = pr_pid r
  ∧ pr_started_at_unix_ms (mc_receipt c) = pr_started_at_unix_ms r.
Proof.
  unfold ManagedChild_matches. rewrite !andb_true_iff, !bool_decide_eq_true, !Z.eqb_eq. tauto.
Qed.
(** The fields an observation never changes. *)
Definition same_child (r r' : ProcessReceipt) : Prop :=
  pr_launch_id r' = pr_launch_id r ∧ pr_agent_id r' = pr_agent_id r
  ∧ pr_process_group_id r' = pr_process_group_id r ∧ pr_desired r' = pr_desired r
  ∧ pr_pid r' = pr_pid r ∧ pr_started_at_unix_ms r' = pr_started_at_unix_ms r.
#[export] Instance same_child_equivalence : Equivalence same_child.
Proof.
  split.
  - by intros r.
  - intros r r' (? & ? & ? & ? & ? & ?). by split_and!.
  - intros a b c (? & ? & ? & ? & ? & ?) (? & ? & ? & ? & ? & ?). split_and!; congruence.
Qed.
Lemma same_child_process r r' : same_child r r' → process_of r' = process_of r.
Proof. intros (H1 & H2 & _ & _ & H5 & _). unfold process_of. congruence. Qed.
Lemma matches_same c r : ManagedChild_matches c r = true ↔ same_child (mc_receipt c) r.
Proof. rewrite matches_fields. unfold same_child. split; intros (? & ? & ? & ? & ? & ?); by split_and!. Qed.
Lemma same_child_observe r s code r' : ProcessReceipt_observe r s code = Ok r' → same_child r r'.
Proof. intros (-> & _)%observe_ok. by split_and!. Qed.

(** A child's receipt is brought up to date. *)
Lemma tidy_receipt pid c r w :
  managed w !! pid = Some c → same_child (mc_receipt c) r →
  tidy w (set_children (alter (λ m, mkManagedChild (mc_pid m) (mc_status m) r) pid) w).
Proof.
  intros Hm Hsame [Hc Hl]. set (c' := mkManagedChild (mc_pid c) (mc_status c) r).
  set (w' := set_children _ w).
  assert (managed w' = <[pid := c']> (managed w)) as Em.
  { apply map_eq. intros q. unfold w'. unfold managed at 1. cbn [set_children snd lo_children]. fold (managed w).
    destruct (decide (q = pid)) as [->|].
    - by rewrite lookup_alter_eq, lookup_insert_eq, Hm.
    - by rewrite lookup_alter_ne, lookup_insert_ne. }
  assert (∀ p, live_in w' p ↔ live_in w p) as Hlive by done.
  destruct Hsame as (S1 & S2 & S3 & S4 & S5 & S6). split_and!.
  - split; rewrite Em.
    + intros q x. rewrite lookup_insert_Some. intros [[<- <-]|[_ Hq]]; [|by apply Hc].
      destruct (Hc pid c Hm) as (? & ? & Hs). split_and!; [done|cbn; congruence|]. cbn.
      destruct (mc_status c); [done|]. by rewrite S1, S2.
    + intros q p Hq Hn. destruct (Hl q p Hq Hn) as [? Ha]. split; [done|]. intros Hch Hal.
      destruct (Ha Hch Hal) as (x & Hx & Hsx). destruct (decide (q = pid)) as [->|].
      * exists c'. rewrite lookup_insert_eq. split; [done|]. cbn. congruence.
      * exists x. by rewrite lookup_insert_ne.
  - intros p. by rewrite Hlive.
  - intros o. apply tidy_trusted; [intros p; by rewrite Hlive|]. intros _. unfold tracked. rewrite Em.
    destruct (decide (pr_pid o = pid)) as [->|].
    + rewrite Hm, lookup_insert_eq, !matches_same. intros Ho. cbn.
      transitivity (mc_receipt c); [|done]. symmetry. by split_and!.
    + rewrite lookup_insert_ne by done. done.
Qed.

End Trust.

(** ** Everything but launching and collecting is calm *)
Section Calm.
Context `{Machine}.
Hypothesis Hsettled : settled.
Variable render_provenance : LogProvenance → string.
Variable self : LocalProcessAdapter.

Lemma calm_host {E A} (m : M Host E A) : always hosts_evolve m → always calm (on (W := W) m).
Proof.
  intros Hm w. specialize (Hm (lo_host w.2)). unfold on. cbn [part has_host].
  destruct (m (lo_host w.2)) as [r h]. split; [exact Hm|done].
Qed.
Lemma calm_host_io {A} (m : M Host IoError A) : always hosts_evolve m → always calm (host_io m).
Proof. intros Hm. apply calm_host. by apply (always_map_err hosts_evolve). Qed.
Lemma calm_sup_io {A} (m : IO A) : always calm (sup_io m).
Proof. intros w. unfold sup_io, on. cbn [part has_fst]. destruct (M_map_err _ m w.1). by split. Qed.
Lemma calm_gets {A} (f : Host → A) : always calm (host (syscall (gets f))).
Proof using Hsettled. by apply calm_host, evolve_gets. Qed.
Lemma calm_sleep d : always calm (host (sleep d)).
Proof using Hsettled. by apply calm_host, evolve_sleep. Qed.
Lemma calm_killpg g k : always calm (host (killpg g k)).
Proof using Hsettled. by apply calm_host, evolve_killpg. Qed.
Lemma calm_succeeds {E F A} (m : M W E A) : always calm m → always calm (succeeds (F := F) m).
Proof. intros Hm w. specialize (Hm w). unfold succeeds. by destruct (m w). Qed.
Create HintDb calm discriminated.
#[local] Hint Resolve calm_succeeds calm_sup_io calm_gets calm_sleep calm_killpg : calm.

#[local] Ltac calm_steps :=
  repeat first
    [ solve [auto with calm]
    | apply (always_ret calm) | apply (always_throw calm) | apply (always_of_result calm)
    | apply (always_gets calm) | apply (always_bind calm); [|intros ?]
    | match goal with
      | |- always _ (if ?b then _ else _) => destruct b
      | |- always _ (match ?x with _ => _ end) => destruct x
      end
    | progress cbn beta iota ].

Lemma calm_millis : always calm unix_millis.
Proof using Hsettled. unfold unix_millis, system_time_millis. calm_steps. Qed.
Lemma calm_millis_ok : always calm unix_millis_ok.
Proof using Hsettled.
  intros w. pose proof (calm_millis w) as Hw. unfold unix_millis_ok. by destruct (unix_millis w).
Qed.
Lemma calm_pid pid : always calm (pid_in_range pid).
Proof. unfold pid_in_range. calm_steps. Qed.
#[local] Hint Resolve calm_millis calm_millis_ok calm_pid : calm.
Lemma calm_signal pid s : always calm (signal_group pid s).
Proof using Hsettled. unfold signal_group. calm_steps. Qed.
Lemma calm_exists pid : always calm (process_exists pid).
Proof using Hsettled. unfold process_exists, process_present. calm_steps. Qed.
Lemma calm_generation : always calm next_generation.
Proof. intros w. by split. Qed.
Lemma calm_identity a : always calm (identity_for self a).
Proof. intros w. reflexivity. Qed.
#[local] Hint Resolve calm_signal calm_exists calm_generation calm_identity : calm.

Lemma calm_directory p : always calm (directory_ready p).
Proof.
  intros w. unfold directory_ready. pose proof (calm_sup_io (create_dir_all p) w) as H1.
  destruct (sup_io (create_dir_all p) w) as [[?|?] w1]; [|done]. cbn in H1.
  pose proof (calm_sup_io (metadata p) w1) as H2.
  destruct (sup_io (metadata p) w1) as [[?|?] w2]; (transitivity w1; [exact H1|exact H2]).
Qed.
#[local] Hint Resolve calm_directory : calm.
Lemma calm_configure env l g : always calm (configure_app_server_logs self env l g).
Proof using Hsettled. unfold configure_app_server_logs. calm_steps. Qed.
Lemma calm_prepare_log l e g : always calm (prepare_log self l e g).
Proof using Hsettled. unfold prepare_log. calm_steps. Qed.
Lemma calm_capture pid e path l g : always calm (capture render_provenance self pid e path l g).
Proof using Hsettled.
  unfold capture, write_log_provenance. calm_steps.
Qed.
Lemma calm_ticks pid : always calm (process_start_ticks pid).
Proof using Hsettled. unfold process_start_ticks, proc_stat. calm_steps. Qed.
Lemma calm_command pid : always calm (process_command pid).
Proof using Hsettled. unfold process_command, proc_cmdline. calm_steps. Qed.
Lemma calm_marker pid l : always calm (process_has_launch_marker pid l).
Proof using Hsettled. unfold process_has_launch_marker, proc_environ. calm_steps. Qed.
#[local] Hint Resolve calm_configure calm_prepare_log calm_capture calm_ticks calm_command calm_marker : calm.
Lemma calm_owned r : always calm (receipt_owned r).
Proof using Hsettled. unfold receipt_owned. calm_steps. Qed.
Lemma calm_health r : always calm (health_ready r).
Proof using Hsettled. unfold health_ready. calm_steps. Qed.
Lemma calm_observe_wait r s : always calm (observe_wait r s).
Proof using Hsettled. unfold observe_wait. calm_steps. Qed.
Lemma calm_observe r s c : always calm (observe r s c).
Proof. unfold observe. calm_steps. Qed.
#[local] Hint Resolve calm_owned calm_health calm_observe_wait calm_observe : calm.
Lemma calm_adopted r : always calm (inspect_adopted r).
Proof using Hsettled. unfold inspect_adopted. calm_steps. Qed.
Lemma calm_managed_at pid : always calm (managed_at pid).
Proof. unfold managed_at. calm_steps. Qed.
Lemma calm_await polls pid d : always calm (await_exit polls pid d).
Proof using Hsettled.
  induction polls as [|polls IH]; cbn [await_exit]; unfold instant_now; calm_steps.
Qed.
#[local] Hint Resolve calm_managed_at : calm.
Lemma calm_managed_receipt r : always calm (managed_receipt r).
Proof. unfold managed_receipt. calm_steps. Qed.

(** The probe is a process of its own, launched for no agent. *)
Definition unlaunched_in (pid : Z) (w : W) : Prop := unlaunched pid (lo_host w.2).
Lemma calm_unlaunched pid w w' : calm w w' → unlaunched_in pid w → unlaunched_in pid w'.
Proof. intros [Hev _]. by apply unlaunched_evolve. Qed.
Lemma calm_collect pid w :
  unlaunched_in pid w → calm w (host_io (try_wait pid) w).2.
Proof using Hsettled.
  intros Hu. pose proof (evolve_try_wait Hsettled pid (lo_host w.2) Hu) as Hev.
  unfold host_io, on, M_map_err. cbn [part has_host].
  destruct (try_wait pid (lo_host w.2)) as [r h]. by split.
Qed.
Lemma calm_poll polls child deadline w :
  unlaunched_in child w → calm w (poll_preflight polls child deadline w).2.
Proof using Hsettled.
  revert w. induction polls as [|polls IH]; intros w Hu; cbn [poll_preflight]; [reflexivity|].
  pose proof (calm_collect child w Hu) as H1. unfold mbind at 1, M_bind at 1.
  destruct (host_io (try_wait child) w) as [[status|e] w1]; [|done]. cbn in H1.
  destruct status as [status|].
  - etrans; [exact H1|].
    assert (always calm (
      _ ← succeeds (E := SupervisorError) (F := SupervisorError) (signal_group child "-KILL");
      if status_success status then mret tt else throw (Preflight (exit_description status)))) as Hc.
    { apply (always_bind calm); [by apply calm_succeeds, calm_signal|]. intros _. calm_steps. }
    apply Hc.
  - etrans; [exact H1|]. pose proof (calm_gets h_instant w1) as H2. unfold mbind at 1, M_bind at 1.
    unfold instant_now. destruct (host (syscall (gets h_instant)) w1) as [[now|e] w2]; [|done].
    cbn in H2. etrans; [exact H2|].
    assert (unlaunched_in child w2) as Hu2 by (eapply calm_unlaunched; [|done]; by transitivity w1).
    destruct (now >=? deadline).
    + unfold mbind at 1, M_bind at 1. pose proof (calm_signal child "-KILL" w2) as H3.
      destruct (signal_group child "-KILL" w2) as [[[]|e] w3]; [|done]. cbn in H3.
      etrans; [exact H3|]. unfold mbind at 1, M_bind at 1, succeeds, wait.
      pose proof (calm_collect child w3 (calm_unlaunched _ _ _ H3 Hu2)) as H4.
      destruct (host_io (try_wait child) w3) as [r w4]. exact H4.
    + unfold mbind at 1, M_bind at 1. pose proof (calm_sleep POLL_INTERVAL w2) as H3.
      destruct (host (sleep POLL_INTERVAL) w2) as [[[]|e] w3]; [|done]. cbn in H3.
      etrans; [exact H3|]. apply IH. by eapply calm_unlaunched.
Qed.
Lemma calm_preflight l env i : always calm (run_preflight l env i).
Proof using Hsettled.
  unfold run_preflight. destruct (rr_preflight (ls_runtime l)) as [probe|]; [|calm_steps].
  intros w. unfold mbind at 1, M_bind at 1, host_io, on, M_map_err at 1. cbn [part has_host].
  match goal with |- context [spawn ?c None ?h] =>
    destruct (evolve_spawn_unlaunched Hsettled c h) as [Hev Hu]; destruct (spawn c None h) as [[pid|e] h'] end;
    cbn in Hev, Hu; [|by split].
  cbn [map_err]. set (w1 := set_part h' w). assert (calm w w1) as H1 by by split. etrans; [exact H1|].
  unfold mbind at 1, M_bind at 1, instant_now. pose proof (calm_gets h_instant w1) as H2.
  destruct (host (syscall (gets h_instant)) w1) as [[now|e] w2]; [|done]. cbn in H2.
  etrans; [exact H2|]. apply calm_poll. eapply calm_unlaunched; [done|]. by apply Hu.
Qed.

End Calm.

(** ** Inspecting *)
#[local] Opaque turn.
Section Laws.
Context `{Machine}.
Hypothesis Hsettled : settled.

Lemma evolves_delete pid m m' : evolves m m' → evolves (delete pid m) (delete pid m').
Proof.
  intros Hev. split; intros q p [Hne Hq]%lookup_delete_Some.
  - intros Hl. destruct (evolves_back _ _ Hev _ _ Hq Hl) as (p0 & H0 & K).
    exists p0. by rewrite lookup_delete_ne.
  - intros Hl Hc. destruct (evolves_child _ _ Hev _ _ Hq Hl Hc) as (p' & H' & K).
    exists p'. by rewrite lookup_delete_ne.
Qed.

(** A launched child stays in the table, until it is waited for. *)
Lemma child_persists w w' pid c :
  supervised_in w → calm w w' → managed w !! pid = Some c → mc_status c = None →
  ∃ q, procs w' !! pid = Some q ∧ ps_child q = true ∧ ps_group q = pid
       ∧ ps_launch q = Some (pr_agent_id (mc_receipt c), pr_launch_id (mc_receipt c)).
Proof.
  intros Hs Hcalm Hm Hst. destruct (calm_tidy w w' Hcalm Hs) as ([Hc' Hl'] & _). destruct Hcalm as [_ Em].
  destruct (Hc' pid c) as (_ & _ & Hok); [by rewrite Em|]. rewrite Hst in Hok.
  destruct Hok as (q & Hq & Hch & Hla). exists q. split_and!; [done|done| |done].
  apply (Hl' pid q Hq). congruence.
Qed.

(** What a wait finds of a child. *)
Lemma wait_child pid w w1 :
  w1 = set_part (turn (lo_host w.2)) w →
  host_io (try_wait pid) w =
    match procs w1 !! pid with
    | Some q => if ps_child q then
                  match ps_ended q with
                  | Some st => (Ok (Some st), set_part (set_procs (delete pid) (lo_host w1.2)) w)
                  | None => (Ok None, w1)
                  end
                else (Err (SupervisorIo no_child), w1)
    | None => (Err (SupervisorIo no_child), w1)
    end.
Proof.
  intros ->. unfold host_io, on, M_map_err, try_wait, syscall, procs. cbn [part has_host set_part snd lo_host].
  destruct (h_procs (turn (lo_host w.2)) !! pid) as [q|]; [|done]. destruct (ps_child q); [|done].
  by destruct (ps_ended q).
Qed.
Lemma calm_turn w : calm w (set_part (turn (lo_host w.2)) w).
Proof using Hsettled. split; [by apply evolves_turn|done]. Qed.

Lemma child_try_wait_spec pid c w :
  supervised_in w → managed w !! pid = Some c →
  ∃ res w', child_try_wait c w = (Ok res, w') ∧
    match res with
    | Some st => tidy w w' ∧ managed w' = <[pid := with_status st c]> (managed w) ∧ unlaunched_in pid w'
    | None => calm w w' ∧ mc_status c = None
              ∧ live_in w' (pr_agent_id (mc_receipt c), pr_launch_id (mc_receipt c), pid)
    end.
Proof using Hsettled.
  intros Hs Hm. destruct (proj1 Hs pid c Hm) as (Hp & Hr & Hok). unfold child_try_wait.
  destruct (mc_status c) as [st|] eqn:Est.
  { exists (Some st), w. split; [done|]. split_and!; [reflexivity| |exact Hok].
    symmetry. apply insert_id. rewrite Hm. destruct c. cbn in *. by subst. }
  destruct (child_persists w _ pid c Hs (calm_turn w) Hm Est) as (q & Hq & Hch & Hg & Hla).
  unfold mbind, M_bind. rewrite Hp, (wait_child pid w _ eq_refl), Hq, Hch.
  destruct (ps_ended q) as [st|] eqn:Ee.
  - eexists (Some st), _. split; [done|]. cbn [modify].
    set (w2 := set_children _ _).
    assert (managed w2 = <[pid := with_status st c]> (managed w)) as Em.
    { apply map_eq. intros x. unfold w2, managed at 1. cbn [set_children set_part has_host snd lo_children].
      fold (managed w). destruct (decide (x = pid)) as [->|].
      - by rewrite lookup_alter_eq, lookup_insert_eq, Hm.
      - by rewrite lookup_alter_ne, lookup_insert_ne. }
    assert (evolves (delete pid (procs w)) (procs w2)) as Hev.
    { by apply evolves_delete, evolves_turn. }
    split_and!; [|done|intros x; by apply (deleted_unlaunched pid (procs w))].
    apply (tidy_forget pid); [done| |].
    + intros x Hx. by rewrite Em, lookup_insert_ne.
    + rewrite Em, lookup_insert_eq. by intros c' [= <-].
  - eexists None, _. split; [done|]. split_and!; [apply calm_turn|done|].
    exists q. split_and!; [done| |done]. unfold alive. by rewrite Ee.
Qed.

(** What inspecting a receipt gives, apart from the receipt. *)
Definition inspected (r : ProcessReceipt) (w w' : W) (r' : ProcessReceipt) : Prop :=
  same_child r r' ∧ trusted_in w' r'
  ∧ if ObservedProcessState_is_terminal (pr_observed_state r') then ¬ live_in w' (process_of r)
    else match managed w' !! pr_pid r with
         | Some c => mc_status c = None ∧ same_child (mc_receipt c) r
         | None => True
         end.

Lemma trusted_dead w r : ¬ live_in w (process_of r) → trusted_in w r.
Proof. by intros Hd. Qed.
Lemma unlaunched_dead pid w a l : unlaunched_in pid w → ¬ live_in w (a, l, pid).
Proof. intros Hu (q & Hq & _ & Hl). cbn in *. by rewrite (Hu q Hq) in Hl. Qed.

Lemma tidy_drop pid w : unlaunched_in pid w → tidy w (set_children (delete pid) w).
Proof.
  intros Hu. apply (tidy_forget pid).
  - change (procs (set_children (delete pid) w)) with (procs w). split.
    + intros q p Hq Hl. exists p. split; [|reflexivity]. apply lookup_delete_Some.
      split; [|done]. intros <-. by rewrite (Hu p Hq) in Hl.
    + intros q p [_ Hq]%lookup_delete_Some _ _. exists p. by split; [|reflexivity].
  - intros q Hq. unfold managed. cbn. by rewrite lookup_delete_ne.
  - intros c Hc. unfold managed in Hc. cbn in Hc. by rewrite lookup_delete_eq in Hc.
Qed.

Lemma run_ok {A} (r : result SupervisorError A) (w : W) a w' : of_result (W := W) r w = (a, w') → a = r ∧ w' = w.
Proof. by intros [= <- <-]. Qed.
Lemma observe_run r s code w res w' :
  observe r s code w = (res, w') →
  w' = w ∧ ∀ r', res = Ok r' → r' = with_observation r s code.
Proof.
  unfold observe. intros [-> ->]%run_ok. split; [done|]. intros r'.
  destruct (ProcessReceipt_observe r s code) as [x|] eqn:E; [|done]. intros [= <-].
  by apply observe_ok in E as (-> & _).
Qed.
Lemma observe_wait_run r st w res w' :
  observe_wait r st w = (res, w') →
  calm w w' ∧ ∃ outcome ended, res = Ok (with_wait r outcome ended).
Proof using Hsettled.
  intros E. split; [by apply (always_run calm _ _ _ _ (calm_observe_wait Hsettled r st) E)|].
  unfold observe_wait in E. apply bind_run in E as [(e & E & _)|(ended & w1 & _ & E)].
  - unfold unix_millis_ok in E. by destruct (unix_millis w).
  - injection E as <- _. eauto.
Qed.

(** Collecting a child that ended, or finding it alive. *)
Lemma inspect_managed_spec r c w res w' :
  supervised_in w → trusted_in w r → managed w !! pr_pid r = Some c →
  inspect_managed r c w = (res, w') →
  tidy w w' ∧ ∀ r', res = Ok r' → inspected r w w' r'.
Proof using Hsettled.
  intros Hs Ht Hm E. unfold inspect_managed in E.
  destruct (ManagedChild_matches c r) eqn:Ec; cbn [negb] in E; [|injection E as <- <-; by split].
  apply matches_same in Ec. assert (Hsame := Ec). destruct Hsame as (S1 & S2 & _ & _ & S5 & _).
  destruct (child_try_wait_spec _ c w Hs Hm) as (status & w1 & E1 & Hst).
  unfold mbind at 1, M_bind at 1 in E. rewrite E1 in E. destruct status as [st|].
  - destruct Hst as (T1 & Em & Hu).
    apply bind_run in E as [(e & E & ->)|(obs & w2 & E & Eo)];
      apply observe_run in E as [-> Hobs]; [by split|]. specialize (Hobs obs eq_refl) as ->.
    apply bind_run in Eo as [(e & E & ->)|(obs & w2 & E & Eo)];
      apply observe_wait_run in E as (C2 & outcome & ended & Hobs); [done|]. injection Hobs as ->.
    injection Eo as <- <-. assert (unlaunched_in (pr_pid r) w2) as Hu2 by by eapply calm_unlaunched.
    split.
    + transitivity w1; [done|]. transitivity w2; [by apply calm_tidy|by apply tidy_drop].
    + intros r' [= <-]. assert (¬ live_in (set_children (delete (pr_pid r)) w2) (process_of r)) as Hd.
      { by apply unlaunched_dead. }
      split_and!; [by split_and!|by apply trusted_dead|done].
  - destruct Hst as (C1 & Est & Hlive). rewrite S1, S2 in Hlive || rewrite <- S1, <- S2 in Hlive.
    change (live_in w1 (process_of r)) in Hlive.
    assert (tidy w w1) as T1 by by apply calm_tidy. destruct (T1 Hs) as (Hs1 & _ & Ht1).
    assert (managed w1 !! pr_pid r = Some c) as Hm1 by by rewrite (proj2 C1).
    assert (ObservedProcessState_is_terminal (pr_observed_state r) = false) as Hnt.
    { destruct (ObservedProcessState_is_terminal _) eqn:Et; [|done]. by destruct (proj2 (Ht1 r Ht) Et). }
    apply bind_run in E as [(e & E & ->)|(ready & w2 & E & Eo)].
    { split; [|done]. transitivity w1; [done|]. apply calm_tidy.
      destruct (is_starting _); [by eapply (always_run calm); [apply calm_health|]|by injection E]. }
    assert (calm w1 w2) as C2.
    { destruct (is_starting _); [by eapply (always_run calm); [apply calm_health|]|].
      injection E as _ <-. reflexivity. }
    assert (tidy w w2) as T2 by (transitivity w1; [done|by apply calm_tidy]).
    assert (managed w2 !! pr_pid r = Some c) as Hm2 by by rewrite (proj2 C2).
    destruct ready.
    + apply bind_run in Eo as [(e & E' & ->)|(ticks & w3 & E3 & Eo)];
        [split; [|done]; transitivity w2; [done|]; by apply calm_tidy;
         eapply (always_run calm); [apply calm_ticks|]|].
      apply (always_run calm) in E3; [|by apply calm_ticks].
      apply bind_run in Eo as [(e & E' & ->)|(command & w4 & E4 & Eo)];
        [split; [|done]; transitivity w2; [done|]; apply calm_tidy; transitivity w3; [done|];
         by eapply (always_run calm); [apply calm_command|]|].
      apply (always_run calm) in E4; [|by apply calm_command].
      assert (calm w2 w4) as C4 by by transitivity w3.
      assert (tidy w w4) as T4 by (transitivity w2; [done|by apply calm_tidy]).
      apply bind_run in Eo as [(e & E' & ->)|(obs & w5 & E5 & Eo)];
        [apply observe_run in E' as [-> _]; by split|].
      apply observe_run in E5 as [-> Hobs]. specialize (Hobs obs eq_refl) as ->. injection Eo as <- <-.
      assert (managed w4 !! pr_pid r = Some c) as Hm4 by by rewrite (proj2 C4).
      set (obs := with_observation _ _ _). set (w5 := set_children _ w4).
      assert (same_child r obs) as Hro by by split_and!.
      assert (same_child (mc_receipt c) obs) as Hco by by transitivity r.
      pose proof (tidy_receipt (pr_pid r) c obs w4 Hm4 Hco) as T5. fold w5 in T5.
      split; [by transitivity w4|]. intros r' [= <-].
      assert (managed w5 !! pr_pid r = Some (mkManagedChild (mc_pid c) (mc_status c) obs)) as Hm5.
      { unfold w5, managed. cbn. fold (managed w4). by rewrite lookup_alter_eq, Hm4. }
      split_and!; [done| |].
      * split; [|done]. intros _. unfold tracked. change (pr_pid obs) with (pr_pid r). rewrite Hm5.
        by apply matches_same.
      * cbn [ObservedProcessState_is_terminal pr_observed_state with_observation obs]. rewrite Hm5.
        split; [done|]. cbn. by symmetry.
    + injection Eo as <- <-. split; [done|]. intros r' [= <-]. destruct (T2 Hs) as (_ & _ & Ht2).
      split_and!; [reflexivity|by apply Ht2|]. by rewrite Hnt, Hm2.
Qed.

(** ** Adopted processes
    As long as the process runs, every read of /proc finds what the receipt records. *)
Lemma host_gets {A} (f : Host → A) w :
  host (syscall (gets f)) w
  = (Ok (f (lo_host (set_part (W := W) (turn (lo_host w.2)) w).2)), set_part (turn (lo_host w.2)) w).
Proof. done. Qed.

Section Adopted.
Context (r : ProcessReceipt) (w : W).
Hypothesis Hfree : managed w !! pr_pid r = None.
Hypothesis Htrust : trusted_in w r.

Lemma live_recorded v :
  calm w v → live_in v (process_of r) →
  ∃ q, procs v !! pr_pid r = Some q ∧ alive q = true ∧ recorded (pr_pid r) q r.
Proof using Hfree Htrust.
  intros [Hev Hm] Hlive. assert (Hlive' := Hlive). destruct Hlive' as (q & Hq & Ha & _). cbn in Hq.
  pose proof (evolves_comes _ _ Hev) as Hfrom.
  assert (tracked v r) as Htr.
  { apply (tracked_evolves w); [apply Hfrom|by rewrite Hm|done|]. by apply Htrust, (live_back w v). }
  unfold tracked in Htr. rewrite Hm, Hfree in Htr. destruct Htr as (q' & Hq' & _ & Hr).
  rewrite Hq in Hq'. injection Hq' as <-. eauto.
Qed.

Lemma receipt_owned_live b w' :
  receipt_owned r w = (Ok b, w') → live_in w' (process_of r) → b = true.
Proof using Hfree Htrust Hsettled.
  intros E Hlive. pose proof (always_run calm _ _ _ _ (calm_owned Hsettled r) E) as C.
  destruct (live_recorded w' C Hlive) as (q & _ & _ & Hcmd & Htk & _). unfold receipt_owned in E.
  rewrite Hcmd, Htk in E. cbn [negb andb] in E.
  assert (∀ v, calm w v → calm v w' →
    ∃ q, procs v !! pr_pid r = Some q ∧ alive q = true ∧ recorded (pr_pid r) q r) as Hat.
  { intros v Cv Cv'. apply live_recorded; [done|].
    by apply (live_back v w'); [apply evolves_comes; apply Cv'|]. }
  apply bind_ok in E as (ticks & w1 & E1 & E).
  pose proof (always_run calm _ _ _ _ (calm_ticks Hsettled _) E1) as C1.
  assert (∀ v, calm w1 v → calm w v) as Ca by (intros v Cv; by transitivity w1).
  destruct (bool_decide (ticks = pr_process_start_ticks r)) eqn:Et; cbn [negb] in E.
  2:{ injection E as <- <-. destruct (Hat w1 C1) as (q1 & Hq1 & _ & _ & _ & Hr & _); [reflexivity|].
      apply bool_decide_eq_false in Et. exfalso. apply Et. rewrite <- (Hr (h_turn (lo_host w1.2))).
      unfold process_start_ticks, proc_stat in E1. apply bind_ok in E1 as (stat & w0 & E0 & E1).
      rewrite host_gets in E0. injection E0 as <- <-. injection E1 as <- <-.
      unfold procs in Hq1. cbn [set_part has_host snd lo_host] in Hq1 |- *. rewrite Hq1. done. }
  apply bind_ok in E as (command & w2 & E2 & E).
  pose proof (always_run calm _ _ _ _ (calm_command Hsettled _) E2) as C2.
  destruct (bool_decide (command = pr_command_path r)) eqn:Ec; cbn [negb] in E.
  2:{ injection E as <- <-. destruct (Hat w2) as (q2 & Hq2 & Ha2 & _ & _ & _ & Hr & _); [by apply Ca|reflexivity|].
      apply bool_decide_eq_false in Ec. exfalso. apply Ec. rewrite <- Hr.
      unfold process_command, proc_cmdline in E2. apply bind_ok in E2 as (line & w0 & E0 & E2).
      rewrite host_gets in E0. injection E0 as <- <-. injection E2 as <- <-.
      unfold procs in Hq2. cbn [set_part has_host snd lo_host] in Hq2 |- *. rewrite Hq2. cbn. by rewrite Ha2. }
  pose proof (always_run calm _ _ _ _ (calm_marker Hsettled _ _) E) as C3.
  unfold process_has_launch_marker, proc_environ in E. apply bind_ok in E as (env & w0 & E0 & E).
  rewrite host_gets in E0. injection E0 as <- <-. injection E as <- <-.
  match type of Hlive with live_in ?v _ => destruct (Hat v) as (q3 & Hq3 & Ha3 & _ & _ & _ & _ & Hr) end;
    [apply Ca; by transitivity w2|reflexivity|]. unfold procs in Hq3. cbn [set_part has_host snd lo_host] in Hq3 |- *. rewrite Hq3. cbn. by rewrite Ha3.
Qed.

Lemma process_exists_run pid v b v' :
  process_exists pid v = (Ok b, v') → calm v v' ∧ b = option_is_some (procs v' !! pid).
Proof using Hsettled.
  intros E. split; [by eapply (always_run calm); [apply calm_exists|]|].
  unfold process_exists, process_present in E. apply bind_ok in E as ([] & v1 & E1 & E).
  assert (v1 = v) as ->.
  { unfold pid_in_range in E1. destruct (pid <? 2 ^ 31); [by injection E1|done]. }
  rewrite host_gets in E. by injection E as <- <-.
Qed.

Lemma trusted_observed v s :
  trusted_in v r → (ObservedProcessState_is_terminal s = true → ¬ live_in v (process_of r)) →
  trusted_in v (with_observation r s None).
Proof. intros [H1 _] H2. split; [exact H1|exact H2]. Qed.

Lemma inspect_adopted_spec res w' :
  supervised_in w → inspect_adopted r w = (res, w') →
  tidy w w' ∧ ∀ r', res = Ok r' → inspected r w w' r'.
Proof using Hfree Htrust Hsettled.
  intros Hs E. pose proof (always_run calm _ _ _ _ (calm_adopted Hsettled r) E) as C.
  split; [by apply calm_tidy|]. intros r' ->. destruct (calm_tidy w w' C Hs) as (_ & _ & Ht).
  specialize (Ht r Htrust). assert (managed w' !! pr_pid r = None) as Hm by by rewrite (proj2 C).
  unfold inspect_adopted in E. apply bind_ok in E as (owned & w1 & E1 & E).
  pose proof (always_run calm _ _ _ _ (calm_owned Hsettled r) E1) as C1.
  apply bind_ok in E as (present & w2 & E2 & E).
  assert (inspected r w w' r) as Hsame_r.
  { split_and!; [reflexivity|done|]. destruct (ObservedProcessState_is_terminal _) eqn:Et;
      [by apply (proj2 Ht)|by rewrite Hm]. }
  destruct present.
  - apply bind_ok in E as (ready & w3 & E3 & E). destruct ready; [|by injection E as <- <-].
    apply observe_run in E as [-> Hobs]. specialize (Hobs r' eq_refl) as ->.
    split_and!; [by split_and!|by apply trusted_observed|]. cbn. by rewrite Hm.
  - assert (¬ live_in w2 (process_of r)) as Hd.
    { destruct owned.
      - apply process_exists_run in E2 as [_ Hp]. intros (q & Hq & _). cbn in Hq. by rewrite Hq in Hp.
      - injection E2 as <-. intros Hl. by pose proof (receipt_owned_live false w1 E1 Hl). }
    destruct (ObservedProcessState_is_terminal (pr_observed_state r)) eqn:Et; cbn [negb] in E.
    + by injection E as <- <-.
    + apply observe_run in E as [-> Hobs]. specialize (Hobs r' eq_refl) as ->.
      split_and!; [by split_and!|by apply trusted_observed|done].
Qed.
End Adopted.

Lemma inspect_spec r w res w' :
  supervised_in w → trusted_in w r → inspect r w = (res, w') →
  tidy w w' ∧ ∀ r', res = Ok r' → inspected r w w' r'.
Proof using Hsettled.
  intros Hs Ht E. unfold inspect in E.
  apply bind_run in E as [(e & E & ->)|(u & w1 & E & Eo)].
  { unfold of_result in E. injection E as _ <-. by split. }
  unfold of_result in E. injection E as _ <-. unfold mbind, M_bind, managed_at, gets in Eo.
  destruct (lo_children w.2 !! pr_pid r) as [c|] eqn:Em; [by eapply inspect_managed_spec|].
  by eapply inspect_adopted_spec.
Qed.

(** ** Stopping *)
Lemma signal_kill_run pid w w' :
  signal_group pid "-KILL" w = (Ok tt, w') → calm w w' ∧ all_ended pid (procs w').
Proof using Hsettled.
  intros E. split; [by eapply (always_run calm); [apply calm_signal|]|].
  unfold signal_group in E. cbn [String.eqb Ascii.eqb Bool.eqb] in E.
  apply bind_ok in E as ([] & w1 & _ & E). apply bind_ok in E as (b & w2 & E2 & E). injection E as <-.
  unfold host, on in E2. cbn [part has_host] in E2.
  pose proof (killpg_ends (E := SupervisorError) pid (lo_host w1.2)) as Hk.
  destruct (killpg pid true (lo_host w1.2)) as [b' h]. injection E2 as _ <-. exact Hk.
Qed.
Lemma killed_dead w v r :
  supervised_in w → calm w v → all_ended (pr_pid r) (procs v) → ¬ live_in v (process_of r).
Proof.
  intros Hs Hc Hk (q & Hq & Ha & Hl). destruct (calm_tidy w v Hc Hs) as ([_ Hok] & _). cbn in Hq.
  destruct (Hok _ q Hq) as [Hg _]; [congruence|]. by rewrite (Hk _ q Hq Hg) in Ha.
Qed.

(** The child of a group that was killed is there to be waited for. *)
Lemma child_wait_killed c w v pid :
  supervised_in w → calm w v → managed w !! pid = Some c → mc_status c = None →
  all_ended pid (procs v) →
  let v1 := set_children (delete pid) v in
  ∃ st w', child_wait c v1 = (Ok st, w') ∧ tidy v w' ∧ unlaunched_in pid w' ∧ managed w' !! pid = None.
Proof using Hsettled.
  intros Hs Hc Hm Hst Hk v1. destruct (calm_tidy w v Hc Hs) as (Hsv & _).
  assert (mc_pid c = pid) as Hpid by apply (proj1 Hs pid c Hm).
  destruct (child_persists w v pid c Hs Hc Hm Hst) as (q & Hq & Hch & Hg & Hla).
  assert (Hdead := Hk pid q Hq Hg).
  destruct (evolves_child _ _ (evolves_turn Hsettled (lo_host v.2)) pid q Hq) as (q1 & Hq1 & K); [congruence|done|].
  assert (ps_ended q1 ≠ None) as He.
  { intros He. assert (alive q1 = true) as Ha by (unfold alive; by rewrite He).
    apply (carries_dead _ _ K) in Ha. congruence. }
  unfold child_wait. rewrite Hst, Hpid. unfold mbind, M_bind, wait. rewrite (wait_child pid v1 _ eq_refl).
  change (procs (set_part (turn (lo_host v1.2)) v1)) with (h_procs (turn (lo_host v.2))).
  rewrite Hq1, (carries_child _ _ K), Hch. destruct (ps_ended q1) as [st|]; [|done].
  eexists st, _. split; [done|]. set (w' := set_part _ v1).
  assert (evolves (delete pid (procs v)) (procs w')) as Hev by by apply evolves_delete, evolves_turn.
  assert (managed w' = delete pid (managed v)) as Em by done. rewrite Em. split_and!.
  - apply (tidy_forget pid); [done|intros x Hx; by rewrite Em, lookup_delete_ne|].
    rewrite Em, lookup_delete_eq. done.
  - intros x. by apply (deleted_unlaunched pid (procs v)).
  - by rewrite lookup_delete_eq.
Qed.

Lemma same_child_with_wait r outcome ended : same_child r (with_wait r outcome ended).
Proof. by split_and!. Qed.
Lemma same_child_observation r s code : same_child r (with_observation r s code).
Proof. by split_and!. Qed.

(** A child that was not collected, if the receipt's process is a child. *)
Definition uncollected (w : W) (pid : Z) : Prop :=
  ∀ c, managed w !! pid = Some c → mc_status c = None.

Lemma kill_and_collect_spec r obs w r' w' :
  supervised_in w → uncollected w (pr_pid r) →
  kill_and_collect r obs w = (Ok r', w') →
  tidy w w' ∧ same_child obs r' ∧ ¬ live_in w' (process_of r).
Proof using Hsettled.
  intros Hs Hun E. unfold kill_and_collect in E.
  apply bind_ok in E as (present & w1 & [C1 Hp]%process_exists_run & E).
  apply bind_ok in E as ([] & w2 & E2 & E).
  assert (calm w w2 ∧ if present then all_ended (pr_pid r) (procs w2) else w2 = w1) as [C2 Hk].
  { destruct present; [|injection E2 as <-; by split].
    apply signal_kill_run in E2 as [C2 Hk]. split; [by transitivity w1|done]. }
  apply bind_ok in E as (child & w3 & E3 & E). injection E3 as <- <-.
  change (lo_children w2.2) with (managed w2) in E. rewrite (proj2 C2) in E.
  destruct (managed w !! pr_pid r) as [c|] eqn:Em.
  - pose proof (Hun c Em) as Hst.
    destruct (child_persists w w1 _ c Hs C1 Em Hst) as (q & Hq & _). rewrite Hq in Hp. cbn in Hp. subst present.
    destruct (child_wait_killed c w w2 (pr_pid r) Hs C2 Em Hst Hk) as (st & w4 & E4 & T4 & Hu & _).
    apply bind_ok in E as ([] & w3 & E3 & E). injection E3 as <-.
    apply bind_ok in E as (st' & w5 & E5 & E). rewrite E4 in E5. injection E5 as <- <-.
    apply bind_ok in E as (obs1 & w5 & E5 & E). apply observe_run in E5 as [-> Ho].
    specialize (Ho obs1 eq_refl) as ->. apply observe_wait_run in E as (C5 & outcome & ended & [= ->]).
    split_and!; [|by split_and!|apply unlaunched_dead; by eapply calm_unlaunched].
    transitivity w2; [by apply calm_tidy|]. transitivity w4; [done|by apply calm_tidy].
  - apply observe_run in E as [-> Ho]. specialize (Ho r' eq_refl) as ->.
    split_and!; [by apply calm_tidy|by split_and!|]. destruct present; [by eapply killed_dead|]. subst w2.
    intros (q & Hq & _). cbn in Hq. by rewrite Hq in Hp.
Qed.

Lemma stop_spec self r w r' w' :
  supervised_in w → trusted_in w r → stop self r w = (Ok r', w') →
  tidy w w' ∧ same_child r r' ∧ ¬ live_in w' (process_of r).
Proof using Hsettled.
  intros Hs Ht E. unfold stop in E. apply bind_ok in E as (obs & w1 & E1 & E).
  destruct (inspect_spec r w _ w1 Hs Ht E1) as [T1 Hi]. destruct (Hi obs eq_refl) as (Hsame & Ht1 & Hobs).
  destruct (T1 Hs) as (Hs1 & _).
  destruct (ObservedProcessState_is_terminal (pr_observed_state obs)); [by injection E as <- <-|].
  apply bind_ok in E as (own & w2 & E2 & E).
  pose proof (always_run calm _ _ _ _ (calm_managed_receipt r) E2) as C2.
  apply bind_ok in E as (owned & w3 & E3 & E).
  assert (calm w2 w3) as C3.
  { destruct own; [by injection E3 as _ <-|]. by eapply (always_run calm); [apply calm_owned|]. }
  destruct owned; cbn [negb] in E; [|done].
  apply bind_ok in E as (obs1 & w4 & E4 & E). apply observe_run in E4 as [-> Ho].
  specialize (Ho obs1 eq_refl) as ->. apply bind_ok in E as ([] & w5 & E5 & E).
  apply (always_run calm) in E5; [|by apply calm_signal]. apply bind_ok in E as (now & w6 & E6 & E).
  apply (always_run calm) in E6; [|by apply calm_gets]. apply bind_ok in E as ([] & w7 & E7 & E).
  apply (always_run calm) in E7; [|by apply calm_await].
  assert (calm w1 w7) as C7 by (do 5 (etrans; [eassumption|]); reflexivity).
  destruct (calm_tidy w1 w7 C7 Hs1) as (Hs7 & Hl7 & _).
  assert (uncollected w7 (pr_pid r)) as Hun.
  { intros c Hc. rewrite (proj2 C7) in Hc. rewrite Hc in Hobs. by destruct Hobs. }
  destruct (kill_and_collect_spec r _ w7 r' w' Hs7 Hun E) as (T8 & Hsame' & Hd).
  split_and!; [|by transitivity obs; [|by transitivity (with_observation obs Stopping None)]|done].
  transitivity w1; [done|]. transitivity w7; [by apply calm_tidy|done].
Qed.

(** ** Starting *)
Variable render_provenance : LogProvenance → string.
Variable self : LocalProcessAdapter.

Lemma calm_prepare l secrets : always calm (prepare_launch self l secrets).
Proof using Hsettled.
  unfold prepare_launch.
  repeat first [ apply calm_identity | apply (calm_millis Hsettled) | apply calm_generation
               | apply (calm_configure Hsettled) | apply (calm_preflight Hsettled)
               | apply (calm_prepare_log Hsettled) | apply (always_of_result calm)
               | apply (always_ret calm) | apply (always_bind calm); [|intros ?]
               | match goal with |- always _ (match ?x with _ => _ end) => destruct x end
               | progress cbn beta iota ].
Qed.

(** The wall clock reads after 1970 and a process has a start time. *)
Definition sane_machine : Prop :=
  (∀ n, 0 ≤ wall_millis n ≤ u64_max) ∧ (∀ n, 0 < next_ticks n < 2 ^ 64).
Hypothesis Hsane : sane_machine.

Lemma millis_returns w : ∃ t w', unix_millis w = (Ok t, w') ∧ calm w w'.
Proof using Hsettled Hsane.
  destruct (unix_millis w) as [r w'] eqn:E.
  pose proof (always_run calm _ _ _ _ (calm_millis Hsettled) E) as C.
  unfold unix_millis, system_time_millis, mbind, M_bind in E. rewrite host_gets in E.
  destruct (proj1 Hsane (h_turn (lo_host (set_part (W := W) (turn (lo_host w.2)) w).2))) as [H1 H2].
  rewrite (proj2 (Z.leb_le _ _) H1), (proj2 (Z.leb_le _ _) H2) in E. injection E as <- <-. eauto.
Qed.
Lemma capture_returns pid e path l g w :
  ∃ w', capture render_provenance self pid e path l g w = (Ok tt, w') ∧ calm w w'.
Proof using Hsettled.
  destruct (capture render_provenance self pid e path l g w) as [r w'] eqn:E.
  pose proof (always_run calm _ _ _ _ (calm_capture Hsettled _ _ _ _ _ _ _) E) as C.
  exists w'. split; [|done]. f_equal. unfold capture, write_log_provenance, mbind, M_bind in E.
  unfold unix_millis_ok, succeeds in E. destruct (unix_millis w) as [? w1].
  destruct (sup_io _ w1) as [? w2]. by injection E as <- <-.
Qed.
Lemma ticks_return pid w :
  ∃ t w', process_start_ticks pid w = (Ok t, w') ∧ calm w w'
    ∧ ∀ q, procs w' !! pid = Some q → 0 < ps_start_ticks q < 2 ^ 64 → t ≠ Some 0.
Proof using Hsettled.
  destruct (process_start_ticks pid w) as [r w'] eqn:E.
  pose proof (always_run calm _ _ _ _ (calm_ticks Hsettled _) E) as C.
  unfold process_start_ticks, proc_stat, mbind, M_bind in E. rewrite host_gets in E. injection E as <- <-.
  eexists _, _. split_and!; [done|done|]. intros q Hq Ht. unfold procs in Hq.
  cbn [set_part has_host snd lo_host] in Hq |- *. rewrite Hq.
  cbn [fmap option_fmap option_map mbind option_bind].
  destruct (is_utf8 (stat_line _ pid q)); [|done]. rewrite start_ticks_of_stat by lia.
  intros [= H0]. lia.
Qed.

Lemma start_receipt_valid l i g pid t ticks logs :
  LaunchSpec_validate l = Ok tt → 0 < pid → ticks ≠ Some 0 →
  ProcessReceipt_validate (start_receipt l i g pid t ticks logs) = Ok tt.
Proof.
  intros Hv Hp Ht. assert (Hv' := Hv). apply launch_validate_steps in Hv' as (H1 & H2 & _ & H4 & _).
  unfold ProcessReceipt_validate. cbn [start_receipt pr_launch_id pr_process_group_id pr_desired pr_pid
    pr_process_start_ticks pr_command_path pr_exit_code pr_observed_state].
  rewrite H1, H2, (launch_identity_validate l Hv), (proj2 (Z.eqb_neq pid 0)) by lia.
  rewrite bool_decide_eq_false_2 by done. cbn [orb is_some_and].
  assert (str_is_empty (ei_path (ls_harness l)) = false) as He.
  { destruct (ei_path (ls_harness l)) eqn:Ep; [|done]. unfold ExecutableIdentity_validate in H4.
    by rewrite Ep in H4. }
  destruct i; [by rewrite He|]. unfold arg0_of. by destruct (ei_path (ls_harness l)).
Qed.

(** The table after a harness was spawned, and time went by. *)
Record launched (l : LaunchSpec) (pid : Z) (w w' : W) : Prop := {
  launched_fresh : procs w !! pid = None;
  launched_range : 0 < pid ≤ MAX_PID;
  launched_children : managed w' = managed w;
  launched_evolves : ∃ q, ps_launch q = Some (ls_agent_id l, ls_launch_id l) ∧ ps_child q = true
    ∧ ps_group q = pid ∧ 0 < ps_start_ticks q < 2 ^ 64 ∧ evolves (<[pid := q]> (procs w)) (procs w')
}.
Lemma launched_calm l pid w w1 w2 : launched l pid w w1 → calm w1 w2 → launched l pid w w2.
Proof.
  intros [Hf Hr Hm (q & ? & ? & ? & ? & Hev)] [Hev' Hm']. split; [done|done|congruence|].
  exists q. do 4 (split; [done|]). by transitivity (procs w1).
Qed.
Lemma launched_from l pid w w' x q' :
  launched l pid w w' → procs w' !! x = Some q' → ps_launch q' ≠ None →
  (x = pid ∧ ps_launch q' = Some (ls_agent_id l, ls_launch_id l) ∧ ps_group q' = pid)
  ∨ (x ≠ pid ∧ ∃ q, procs w !! x = Some q ∧ carries q q').
Proof.
  intros [_ _ _ (q & Hl & _ & Hg & _ & Hev)] Hx Hn.
  destruct (evolves_back _ _ Hev _ _ Hx Hn) as (p & Hp & K).
  apply lookup_insert_Some in Hp as [[<- <-]|[Hne Hp]]; [left|right; eauto].
  by rewrite (carries_launch _ _ K), (carries_group _ _ K).
Qed.
Lemma launched_process l pid w w' :
  launched l pid w w' →
  ∃ q, procs w' !! pid = Some q ∧ ps_child q = true ∧ 0 < ps_start_ticks q < 2 ^ 64
       ∧ ps_launch q = Some (ls_agent_id l, ls_launch_id l).
Proof.
  intros [_ _ _ (q & Hl & Hc & _ & Ht & Hev)].
  destruct (evolves_child _ _ Hev pid q) as (q' & Hq & K); [by rewrite lookup_insert_eq|congruence|done|].
  exists q'. by rewrite (carries_child _ _ K), (carries_ticks _ _ K), (carries_launch _ _ K).
Qed.

Lemma launched_live l pid w w' p :
  launched l pid w w' → live_in w' p →
  live_in w p ∧ p.2 ≠ pid ∨ p = (ls_agent_id l, ls_launch_id l, pid).
Proof.
  intros La (q & Hq & Ha & Hl). destruct (launched_from _ _ _ _ _ _ La Hq) as [(Hp & Hl' & _)|(Hne & q0 & H0 & K)];
    [congruence|right|left].
  - rewrite Hl in Hl'. destruct p as [p ?]. cbn in *. congruence.
  - split; [|done]. exists q0. split_and!; [done|by apply (carries_dead _ _ K)|].
    by rewrite <- (carries_launch _ _ K).
Qed.

(** The new child enters the table. *)
Lemma enter_child l pid r w w' :
  supervised_in w → launched l pid w w' → pr_pid r = pid → pr_agent_id r = ls_agent_id l →
  pr_launch_id r = ls_launch_id l →
  ObservedProcessState_is_terminal (pr_observed_state r) = false →
  let v := set_children (<[pid := mkManagedChild pid None r]>) w' in
  supervised_in v ∧ trusted_in v r ∧ (∀ p, live_in v p → live_in w p ∨ p = process_of r)
  ∧ (∀ o, pr_agent_id o ≠ ls_agent_id l → trusted_in w o → trusted_in v o).
Proof.
  intros [Hc Hl] La Hp Ha Hid Hnt v. set (c := mkManagedChild pid None r).
  assert (managed v = <[pid := c]> (managed w)) as Em.
  { unfold v, managed at 1. cbn. fold (managed w'). by rewrite (launched_children _ _ _ _ La). }
  assert (∀ p, live_in v p → live_in w p ∧ p.2 ≠ pid ∨ p = process_of r) as Hlive.
  { intros p Hlv. unfold process_of. rewrite Ha, Hid, Hp. by apply (launched_live l pid w w'). }
  split_and!.
  - split; rewrite Em.
    + intros x d. rewrite lookup_insert_Some. intros [[<- <-]|[Hne Hx]].
      * split_and!; [done|done|]. cbn. destruct (launched_process _ _ _ _ La) as (q & Hq & Hch & _ & Hlq).
        exists q. by rewrite Ha, Hid.
      * destruct (Hc x d Hx) as (? & ? & Hs). destruct La as [_ _ _ (q & _ & _ & _ & _ & Hev)].
        apply (child_ok_evolves (<[pid := q]> (procs w))); [done|]. split_and!; [done|done|].
        destruct (mc_status d); by rewrite lookup_insert_ne.
    + intros x q' Hx Hn. destruct (launched_from _ _ _ _ _ _ La Hx Hn) as [(-> & _ & Hg)|(Hne & q & Hq & K)].
      * split; [done|]. intros _ _. exists c. by rewrite lookup_insert_eq.
      * destruct (Hl x q Hq) as [Hg Hch]; [by rewrite <- (carries_launch _ _ K)|].
        rewrite (carries_group _ _ K), (carries_child _ _ K), lookup_insert_ne by done. split; [done|].
        intros H1 H2. apply Hch; [done|]. by apply (carries_dead _ _ K).
  - split; [|by rewrite Hnt]. intros _. unfold tracked. rewrite Em, Hp, lookup_insert_eq.
    apply matches_same. reflexivity.
  - intros p [[? _]|?]%Hlive; auto.
  - intros o Hne [H1 H2].
    assert (live_in v (process_of o) → live_in w (process_of o) ∧ pr_pid o ≠ pid) as Ho.
    { intros [?|E]%Hlive; [done|]. unfold process_of in E. congruence. }
    split; [|intros Ht Hlv; by apply (H2 Ht), Ho]. intros Hlv. destruct (Ho Hlv) as [Hlw Hpid].
    apply (tracked_evolves w); [| |done|auto].
    + intros q' Hq Hn. destruct (launched_from _ _ _ _ _ _ La Hq Hn) as [(? & _)|(_ & ?)]; [congruence|done].
    + by rewrite Em, lookup_insert_ne.
Qed.

Lemma spawn_launches l p w pid w' :
  host_io (spawn (harness_command l p) (Some (ls_agent_id l, ls_launch_id l))) w = (Ok pid, w') →
  calm w (set_part (turn (lo_host w.2)) w) ∧ launched l pid (set_part (turn (lo_host w.2)) w) w'.
Proof using Hsettled Hsane.
  intros E. split; [apply calm_turn|]. unfold host_io, on, M_map_err in E. cbn [part has_host] in E.
  destruct (spawn _ _ (lo_host w.2)) as [[x|e] h] eqn:Es; [|done]. injection E as <- <-.
  apply spawn_ok in Es as (Hn & Hr & Hp). split; [done|done|done|].
  eexists. split_and!; [| | | | |unfold procs; cbn [set_part has_host snd lo_host]; rewrite Hp; reflexivity];
    try done; apply (proj2 Hsane).
Qed.

(** The harness is launched with its receipt, or nothing happens: once it runs, nothing can
    fail any more. *)
Lemma launch_process_spec l p w res w' :
  supervised_in w → LaunchSpec_validate l = Ok tt →
  launch_process render_provenance self l p w = (res, w') →
  match res with
  | Err _ => calm w w'
  | Ok r => supervised_in w' ∧ trusted_in w' r ∧ pr_agent_id r = ls_agent_id l
      ∧ pr_desired r = LaunchSpec_identity l
      ∧ (∀ q, live_in w' q → live_in w q ∨ q = process_of r)
      ∧ (∀ o, pr_agent_id o ≠ ls_agent_id l → trusted_in w o → trusted_in w' o)
  end.
Proof using Hsettled Hsane.
  intros Hs Hv E. unfold launch_process in E. apply bind_run in E as [(e & E & ->)|(pid & w1 & E1 & E)].
  { unfold host_io, on, M_map_err in E. cbn [part has_host] in E.
    destruct (spawn _ _ (lo_host w.2)) as [[x|e'] h] eqn:Es; [done|]. injection E as _ <-.
    apply spawn_err in Es as ->. apply calm_turn. }
  apply spawn_launches in E1 as [C0 L1]. set (w0 := set_part _ w) in *.
  destruct (calm_tidy w w0 C0 Hs) as (Hs0 & Hl0 & Ht0).
  destruct (capture_returns pid false (pl_stdout p) l (pl_generation p) w1) as (w2 & E2 & C2).
  rewrite (bind_after _ _ _ _ _ E2) in E.
  destruct (capture_returns pid true (pl_stderr p) l (pl_generation p) w2) as (w3 & E3 & C3).
  rewrite (bind_after _ _ _ _ _ E3) in E.
  destruct (millis_returns w3) as (t & w4 & E4 & C4). rewrite (bind_after _ _ _ _ _ E4) in E.
  destruct (ticks_return pid w4) as (ticks & w5 & E5 & C5 & Hticks). rewrite (bind_after _ _ _ _ _ E5) in E.
  assert (calm w1 w5) as C by (do 3 (etrans; [eassumption|]); done).
  pose proof (launched_calm _ _ _ _ _ L1 C) as L5. destruct (launched_process _ _ _ _ L5) as (q & Hq & _ & Hqt & _).
  cbn zeta in E. set (r := start_receipt l _ _ pid t ticks _) in E.
  assert (ProcessReceipt_validate r = Ok tt) as Hr.
  { apply start_receipt_valid; [done|apply L5|by eapply Hticks]. }
  rewrite Hr in E. injection E as <- <-.
  destruct (enter_child l pid r w0 w5 Hs0 L5) as (? & ? & Hlive & Hothers); try done.
  split_and!; try done.
  - intros x [?%Hl0|?]%Hlive; auto.
  - intros o Ho Ht. by apply Hothers, Ht0.
Qed.

Lemma prepare_validates l secrets w p w' :
  prepare_launch self l secrets w = (Ok p, w') → LaunchSpec_validate l = Ok tt.
Proof.
  intros E. apply bind_ok in E as (u & w1 & E & _). unfold of_result in E.
  destruct (LaunchSpec_validate l) as [[]|]; [done|discriminate E].
Qed.

Lemma start_spec l secrets w res w' :
  supervised_in w → start render_provenance self l secrets w = (res, w') →
  match res with
  | Err _ => calm w w'
  | Ok r => supervised_in w' ∧ trusted_in w' r ∧ pr_agent_id r = ls_agent_id l
      ∧ pr_desired r = LaunchSpec_identity l
      ∧ (∀ q, live_in w' q → live_in w q ∨ q = process_of r)
      ∧ (∀ o, pr_agent_id o ≠ ls_agent_id l → trusted_in w o → trusted_in w' o)
  end.
Proof using Hsettled Hsane.
  intros Hs E. unfold start in E. apply bind_run in E as [(e & E & ->)|(p & w1 & E1 & E)].
  { by apply (always_run calm) in E; [|apply calm_prepare]. }
  pose proof (prepare_validates _ _ _ _ _ E1) as Hv.
  apply (always_run calm) in E1; [|apply calm_prepare]. destruct (calm_tidy w w1 E1 Hs) as (Hs1 & Hl1 & Ht1).
  apply (launch_process_spec l p w1 res w' Hs1 Hv) in E. destruct res as [r|e]; [|by transitivity w1].
  destruct E as (? & ? & ? & ? & Hl & Ho). split_and!; try done.
  - intros x [?%Hl1|?]%Hl; auto.
  - intros o Hne Ht. by apply Ho, Ht1.
Qed.

(** ** The supervisor of the reconciler *)
Variable secrets : SecretRef → result SupervisorError string.
Definition local_supervisor : ProcessSupervisor W := {|
  sup_start l := start render_provenance self l secrets;
  sup_inspect := inspect;
  sup_stop := stop self
|}.
Definition local_supervisor_laws : @SupervisorLaws W local_supervisor.
Proof using Hsettled Hsane.
  refine {| live := live_in; supervised := supervised_in; trusted := trusted_in |}.
  - intros r w r' w' Hs Ht E. destruct (inspect_spec r w _ w' Hs Ht E) as [T Hi].
    destruct (Hi r' eq_refl) as (Hsame & Htr & Hobs). destruct (T Hs) as (? & ? & ?).
    split_and!; try done; [by apply same_child_process|]. by destruct (ObservedProcessState_is_terminal _).
  - intros r w r' w' Hs Ht E. destruct (stop_spec self r w r' w' Hs Ht E) as (T & Hsame & Hd).
    destruct (T Hs) as (? & ? & ?). apply same_child_process in Hsame.
    split_and!; try done. apply trusted_dead. by rewrite Hsame.
  - intros l w r w' Hs E. by apply (start_spec l secrets w (Ok r) w').
  - intros l w e w' Hs E. apply (start_spec l secrets w (Err e) w' Hs) in E. by apply calm_tidy.
Defined.

End Laws.
