(* ===== verification/Stopping.v ===== *)
(** * Stopping always ends (supervisor.rs, [stop] and [run_preflight])
    The polling loops of the supervisor take boundedly many polls, a child is never waited
    for while it runs, and so stopping a child returns with its exit status. *)
From Stdlib Require Import ZArith Lia String Ascii.
From stdpp Require Import base gmap list strings fin_maps pretty.
From S2P Require Import Prelude RustStr Bytes Monad Ids Lifecycle Agent Runtime Launch Reconcile.
From S2P Require Import Diagnostics LogCapture Fs AgentFiles CommunityJoin Daemon Receipts Process.
From S2P Require Import Supervisor ProcFiles SupervisorLaws.
#[local] Open Scope Z_scope.
#[local] Set Warnings "-notation-for-abbreviation".
#[local] Notation W := (Fs * LocalState)%type.

Section Stopping.
Context `{Machine}.
Hypothesis Hsettled : settled.

Definition instant (w : W) : Z := h_instant (lo_host w.2).

(** A call that returns, calmly, and not before it was made. *)
Definition returns {A} (m : Sup A) (w : W) (P : A → W → Prop) : Prop :=
  ∃ a w', m w = (Ok a, w') ∧ calm w w' ∧ instant w ≤ instant w' ∧ P a w'.

Lemma returns_bind {A B} (m : Sup A) (f : A → Sup B) w P Q :
  returns m w P → (∀ a w', calm w w' → instant w ≤ instant w' → P a w' → returns (f a) w' Q) →
  returns (m ≫= f) w Q.
Proof.
  intros (a & w1 & E & C & T & HP) Hf. destruct (Hf a w1 C T HP) as (b & w2 & E2 & C2 & T2 & HQ).
  exists b, w2. rewrite (bind_after _ _ _ _ _ E). split_and!; [done|by transitivity w1|lia|done].
Qed.
Lemma returns_ret {A} (a : A) w (P : A → W → Prop) : P a w → returns (mret a) w P.
Proof. intros HP. exists a, w. split_and!; [done|reflexivity|lia|done]. Qed.
Lemma returns_weaken {A} (m : Sup A) w (P Q : A → W → Prop) :
  (∀ a w', P a w' → Q a w') → returns m w P → returns m w Q.
Proof. intros HPQ (a & w' & ? & ? & ? & ?). exists a, w'. split_and!; auto. Qed.

Lemma instant_turn h : h_instant h ≤ h_instant (turn h).
Proof. cbn. lia. Qed.
Lemma returns_gets {A} (f : Host → A) w :
  returns (host (syscall (gets f))) w (λ a w', a = f (lo_host w'.2)).
Proof using Hsettled.
  exists (f (turn (lo_host w.2))), (set_part (turn (lo_host w.2)) w).
  split_and!; [done|by apply calm_turn|apply instant_turn|done].
Qed.
Lemma returns_sleep d w :
  0 ≤ d → returns (host (sleep d)) w (λ _ w', instant w + d ≤ instant w').
Proof using Hsettled.
  intros Hd. destruct (host (sleep d) w) as [r w'] eqn:E.
  pose proof (always_run calm _ _ _ _ (calm_sleep Hsettled d) E) as C.
  injection E as <- <-. eexists tt, _. split_and!; [done|done| |];
    unfold instant; cbn; pose proof (instant_turn (lo_host w.2)); cbn in *; lia.
Qed.
Lemma returns_millis_ok w : returns unix_millis_ok w (λ _ _, True).
Proof using Hsettled.
  destruct (returns_gets (λ h, wall_millis (h_turn h)) w) as (t & w' & E & C & T & _).
  unfold returns, unix_millis_ok, unix_millis, system_time_millis, mbind, M_bind. rewrite E.
  destruct ((0 <=? t) && (t <=? u64_max)); eexists _, w'; by split_and!.
Qed.
Lemma returns_exists pid w :
  pid < 2 ^ 31 → returns (process_exists pid) w (λ b w', b = option_is_some (procs w' !! pid)).
Proof using Hsettled.
  intros Hp. unfold process_exists, pid_in_range. rewrite (proj2 (Z.ltb_lt _ _)) by done.
  eapply returns_bind; [by apply (returns_ret tt _ (λ _ _, True))|]. intros _ w' _ _ _.
  eapply returns_weaken; [|apply returns_gets]. by intros b v ->.
Qed.
Lemma returns_killpg pid kill w :
  returns (host (killpg pid kill)) w (λ _ w', kill = true → all_ended pid (procs w')).
Proof using Hsettled.
  destruct (host (killpg pid kill) w) as [r w'] eqn:E.
  pose proof (always_run calm _ _ _ _ (calm_killpg Hsettled pid kill) E) as C.
  pose proof (killpg_ends (E := SupervisorError) pid (lo_host w.2)) as Hk.
  injection E as <- <-. eexists _, _. split_and!; [done|done|apply instant_turn|]. by intros ->.
Qed.
Lemma returns_signal pid s (kill : bool) w :
  pid < 2 ^ 31 → s = (if kill then "-KILL" else "-TERM") →
  returns (signal_group pid s) w (λ _ w', kill = true → all_ended pid (procs w')).
Proof using Hsettled.
  intros Hp ->. unfold signal_group, pid_in_range. rewrite (proj2 (Z.ltb_lt _ _)) by done.
  destruct kill; cbn [String.eqb Ascii.eqb Bool.eqb];
    (eapply returns_bind; [by apply (returns_ret tt _ (λ _ _, True))|]; intros _ w1 _ _ _;
     eapply returns_bind; [apply returns_killpg|]; intros b w2 _ _ Hk; by apply returns_ret).
Qed.
Lemma returns_health r w : returns (health_ready r) w (λ _ _, True).
Proof using Hsettled.
  unfold health_ready. eapply returns_bind; [apply returns_millis_ok|]. intros now w1 _ _ _. cbn zeta.
  destruct (li_health (pr_desired r)); [by apply returns_ret|].
  destruct (_ <? _); [by apply returns_ret|]. by eapply returns_weaken; [|apply returns_gets].
Qed.
Lemma returns_ticks pid w : returns (process_start_ticks pid) w (λ _ _, True).
Proof using Hsettled.
  unfold process_start_ticks, proc_stat. eapply returns_bind; [apply returns_gets|].
  intros. by apply returns_ret.
Qed.
Lemma returns_command pid w : returns (process_command pid) w (λ _ _, True).
Proof using Hsettled.
  unfold process_command, proc_cmdline. eapply returns_bind; [apply returns_gets|].
  intros. by apply returns_ret.
Qed.

Lemma bind_agree {A B} (m : Sup A) (f g : A → Sup B) w :
  (∀ a w', m w = (Ok a, w') → f a w' = g a w') → (m ≫= f) w = (m ≫= g) w.
Proof. intros Hfg. unfold mbind, M_bind. destruct (m w) as [[a|e] w']; [by apply Hfg|done]. Qed.

(** ** Enough polls *)
Lemma polls_enough millis : 0 ≤ millis → millis ≤ POLL_INTERVAL * (Z.of_nat (polls_for millis) - 1).
Proof.
  intros Hm. unfold polls_for, POLL_INTERVAL.
  pose proof (Z.div_mod millis 20 ltac:(done)). pose proof (Z.mod_pos_bound millis 20 ltac:(done)).
  pose proof (Z.div_pos millis 20 Hm ltac:(done)). lia.
Qed.

Lemma await_returns polls pid deadline w :
  pid < 2 ^ 31 → (0 < polls)%nat →
  deadline - instant w ≤ POLL_INTERVAL * (Z.of_nat polls - 1) →
  returns (await_exit polls pid deadline) w (λ _ _, True).
Proof using Hsettled.
  intros Hp. revert w. induction polls as [|polls IH]; intros w H0 Hd; [lia|]. cbn [await_exit].
  eapply returns_bind; [by apply returns_exists|]. intros present w1 _ T1 _.
  destruct present; cbn [negb]; [|by apply returns_ret]. unfold instant_now.
  eapply returns_bind; [apply returns_gets|]. intros now w2 _ T2 ->.
  change (h_instant (lo_host w2.2)) with (instant w2).
  destruct (Z.ltb_spec (instant w2) deadline) as [Hlt|]; [|by apply returns_ret].
  eapply returns_bind; [by apply (returns_sleep POLL_INTERVAL)|]. intros u w3 _ _ T3. cbn beta in T3.
  destruct polls as [|polls]; [unfold POLL_INTERVAL in *; lia|]. apply IH; [lia|].
  unfold POLL_INTERVAL in *. lia.
Qed.

(** A probe is polled until its deadline and no longer: more polls change nothing. *)
Lemma preflight_polls_suffice polls extra child deadline w :
  (0 < polls)%nat → deadline - instant w ≤ POLL_INTERVAL * (Z.of_nat polls - 1) →
  poll_preflight (polls + extra) child deadline w = poll_preflight polls child deadline w.
Proof using Hsettled.
  revert w. induction polls as [|polls IH]; intros w H0 Hd; [lia|]. cbn [Nat.add poll_preflight].
  assert (instant w ≤ instant (host_io (try_wait child) w).2) as T1.
  { rewrite (wait_child child w _ eq_refl). pose proof (instant_turn (lo_host w.2)).
    unfold instant in *. repeat case_match; cbn -[turn]; lia. }
  apply bind_agree. intros status w1 E1. rewrite E1 in T1. cbn in T1.
  destruct status as [status|]; [done|]. unfold instant_now.
  destruct (returns_gets h_instant w1) as (now & w2 & E2 & _ & T2 & ->).
  rewrite !(bind_after _ _ _ _ _ E2). change (h_instant (lo_host w2.2)) with (instant w2).
  destruct (Z.geb_spec (instant w2) deadline) as [|Hlt]; [done|].
  destruct (returns_sleep POLL_INTERVAL w2) as (u & w3 & E3 & _ & _ & T3); [done|].
  rewrite !(bind_after _ _ _ _ _ E3). unfold POLL_INTERVAL in *.
  destruct polls as [|polls]; [lia|]. apply IH; lia.
Qed.

(** ** A child *)
Lemma observe_returns r s code w (P : ProcessReceipt → W → Prop) :
  ObservedProcessState_can_transition_to (pr_observed_state r) s = true →
  (code = None ∨ ObservedProcessState_is_terminal s = true) →
  P (with_observation r s code) w → returns (observe r s code) w P.
Proof.
  intros Ht Hc HP. exists (with_observation r s code), w. split_and!; [|reflexivity|lia|done].
  unfold observe, of_result, ProcessReceipt_observe. rewrite Ht. cbn [negb].
  by destruct Hc as [->| ->]; rewrite ?andb_false_r.
Qed.
Lemma live_transitions s :
  ObservedProcessState_is_terminal s = false →
  ObservedProcessState_can_transition_to s Exited = true
  ∧ ObservedProcessState_can_transition_to s Stopping = true.
Proof. by destruct s. Qed.

(** Inspecting a child finds it ended and collects it, or finds it running. *)
Lemma inspect_child_returns r w c :
  supervised_in w → ProcessReceipt_validate r = Ok tt →
  ObservedProcessState_is_terminal (pr_observed_state r) = false →
  managed w !! pr_pid r = Some c → same_child (mc_receipt c) r →
  ∃ r' w', inspect r w = (Ok r', w')
    ∧ (if ObservedProcessState_is_terminal (pr_observed_state r')
       then pr_observed_state r' = Exited ∧ is_Some (pr_wait_outcome r') ∧ managed w' !! pr_pid r = None
       else ∃ c', managed w' !! pr_pid r = Some c' ∧ mc_status c' = None ∧ same_child (mc_receipt c') r).
Proof using Hsettled.
  intros Hs Hv Hnt Hm Hsame. destruct (live_transitions _ Hnt) as [Hex _].
  unfold inspect. rewrite Hv. cbn [map_err of_result]. unfold mbind at 1 2, M_bind at 1 2, managed_at, gets.
  cbn [of_result]. change (lo_children w.2) with (managed w). rewrite Hm. unfold inspect_managed.
  rewrite (proj2 (matches_same c r) Hsame). cbn [negb].
  destruct (child_try_wait_spec Hsettled _ c w Hs Hm) as (status & w1 & E1 & Hst).
  rewrite (bind_after _ _ _ _ _ E1). destruct status as [st|].
  - destruct (observe_returns r Exited (status_code st) w1 (λ r' _, r' = with_observation r Exited (status_code st)))
      as (r1 & w2 & E2 & _ & _ & ->); [done|by right|done|]. rewrite (bind_after _ _ _ _ _ E2).
    destruct (observe_wait (with_observation r Exited (status_code st)) st w2) as [res w3] eqn:E3.
    destruct (observe_wait_run Hsettled _ _ _ _ _ E3) as (C3 & outcome & ended & ->).
    rewrite (bind_after _ _ _ _ _ E3). eexists _, _. split; [reflexivity|]. cbn. split_and!; [done|done|].
    by rewrite lookup_delete_eq.
  - destruct Hst as (C1 & Est & _).
    assert (returns (if is_starting (pr_observed_state r) then health_ready r else mret false) w1 (λ _ _, True))
      as (ready & w2 & E2 & C2 & _).
    { destruct (is_starting _); [apply returns_health|by apply returns_ret]. }
    rewrite (bind_after _ _ _ _ _ E2).
    assert (managed w2 !! pr_pid r = Some c) as Hm2 by by rewrite (proj2 C2), (proj2 C1).
    destruct ready.
    + assert (pr_observed_state r = Starting) as Hstart.
      { destruct (is_starting (pr_observed_state r)) eqn:Ei; [by destruct (pr_observed_state r)|done]. }
      destruct (returns_ticks (pr_pid r) w2) as (ticks & w3 & E3 & C3 & _). rewrite (bind_after _ _ _ _ _ E3).
      destruct (returns_command (pr_pid r) w3) as (command & w4 & E4 & C4 & _). rewrite (bind_after _ _ _ _ _ E4).
      set (r1 := with_live_identity r ticks command).
      destruct (observe_returns r1 Healthy None w4 (λ r' w', r' = with_observation r1 Healthy None ∧ w' = w4))
        as (r2 & w5 & E5 & _ & _ & -> & ->); [by cbn; rewrite Hstart|by left|done|].
      rewrite (bind_after _ _ _ _ _ E5). eexists _, _. split; [reflexivity|]. cbn -[managed].
      exists (mkManagedChild (mc_pid c) (mc_status c) (with_observation r1 Healthy None)).
      assert (managed w4 !! pr_pid r = Some c) as Hm4 by by rewrite (proj2 C4), (proj2 C3).
      split; [|done]. unfold managed at 1. cbn. fold (managed w4). by rewrite lookup_alter_eq, Hm4.
    + eexists _, _. split; [reflexivity|]. rewrite Hnt. by exists c.
Qed.

Lemma managed_receipt_returns r w c :
  managed w !! pr_pid r = Some c → same_child (mc_receipt c) r →
  returns (managed_receipt r) w (λ b w', b = true ∧ w' = w).
Proof.
  intros Hm Hsame. exists true, w. split_and!; [|reflexivity|lia|done|done].
  unfold managed_receipt, mbind, M_bind, managed_at, gets. change (lo_children w.2) with (managed w).
  rewrite Hm. cbn. by rewrite (proj2 (matches_same c r) Hsame).
Qed.

(** The end of [stop], for a child that was not collected. *)
Lemma kill_and_collect_returns r obs w c :
  supervised_in w → pr_pid r < 2 ^ 31 → managed w !! pr_pid r = Some c → mc_status c = None →
  pr_observed_state obs = Stopping →
  ∃ r' w', kill_and_collect r obs w = (Ok r', w') ∧ pr_observed_state r' = Exited
    ∧ is_Some (pr_wait_outcome r') ∧ managed w' !! pr_pid r = None.
Proof using Hsettled.
  intros Hs Hp Hm Hst Ho. unfold kill_and_collect.
  destruct (returns_exists (pr_pid r) w Hp) as (present & w1 & E1 & C1 & _ & ->).
  rewrite (bind_after _ _ _ _ _ E1). destruct (child_persists w w1 _ c Hs C1 Hm Hst) as (q & Hq & _).
  rewrite Hq. cbn [option_is_some].
  destruct (returns_signal (pr_pid r) "-KILL" true w1 Hp eq_refl) as ([] & w2 & E2 & C2 & _ & Hk).
  rewrite (bind_after _ _ _ _ _ E2). assert (calm w w2) as C by by transitivity w1.
  assert (managed_at (pr_pid r) w2 = (Ok (Some c), w2)) as E3.
  { unfold managed_at, gets. change (lo_children w2.2) with (managed w2). by rewrite (proj2 C), Hm. }
  rewrite (bind_after _ _ _ _ _ E3).
  assert (modify (E := SupervisorError) (set_children (delete (pr_pid r))) w2
          = (Ok tt, set_children (delete (pr_pid r)) w2)) as E4 by done.
  rewrite (bind_after _ _ _ _ _ E4).
  destruct (child_wait_killed Hsettled c w w2 (pr_pid r) Hs C Hm Hst (Hk eq_refl)) as (st & w3 & E5 & _ & _ & Hm3).
  rewrite (bind_after _ _ _ _ _ E5).
  destruct (observe_returns obs Exited (status_code st) w3
              (λ r' w', r' = with_observation obs Exited (status_code st) ∧ w' = w3))
    as (r1 & w4 & E6 & _ & _ & -> & ->); [by rewrite Ho|by right|done|].
  rewrite (bind_after _ _ _ _ _ E6). destruct (observe_wait _ st w3) as [res w4] eqn:E7.
  destruct (observe_wait_run Hsettled _ _ _ _ _ E7) as (C7 & outcome & ended & ->).
  eexists _, w4. split; [done|]. split_and!; [done|by cbn|by rewrite (proj2 C7)].
Qed.

Lemma stop_child_returns self r w c :
  supervised_in w → trusted_in w r → ProcessReceipt_validate r = Ok tt → pr_pid r < 2 ^ 31 →
  0 ≤ la_stop_timeout self →
  ObservedProcessState_is_terminal (pr_observed_state r) = false →
  managed w !! pr_pid r = Some c → same_child (mc_receipt c) r →
  ∃ r' w', stop self r w = (Ok r', w') ∧ pr_observed_state r' = Exited
    ∧ is_Some (pr_wait_outcome r') ∧ managed w' !! pr_pid r = None.
Proof using Hsettled.
  intros Hs Ht Hv Hp Hto Hnt Hm Hsame.
  destruct (inspect_child_returns r w c Hs Hv Hnt Hm Hsame) as (obs & w1 & E1 & Hobs).
  destruct (inspect_spec Hsettled r w _ w1 Hs Ht E1) as [T1 _]. destruct (T1 Hs) as (Hs1 & _).
  unfold stop. rewrite (bind_after _ _ _ _ _ E1).
  destruct (ObservedProcessState_is_terminal (pr_observed_state obs)) eqn:Eo; [by exists obs, w1|].
  destruct Hobs as (c1 & Hm1 & Hst1 & Hsame1).
  destruct (managed_receipt_returns r w1 c1 Hm1 Hsame1) as (b & w2 & E2 & _ & _ & -> & ->).
  rewrite (bind_after _ _ _ _ _ E2).
  assert ((mret true : Sup bool) w1 = (Ok true, w1)) as E3 by done. rewrite (bind_after _ _ _ _ _ E3).
  cbn [negb].
  destruct (observe_returns obs Stopping None w1 (λ r' w', r' = with_observation obs Stopping None ∧ w' = w1))
    as (obs1 & w3 & E4 & _ & _ & -> & ->); [by apply live_transitions|by left|done|].
  rewrite (bind_after _ _ _ _ _ E4).
  destruct (returns_signal (pr_pid r) "-TERM" false w1 Hp eq_refl) as ([] & w4 & E5 & C5 & _ & _).
  rewrite (bind_after _ _ _ _ _ E5). unfold instant_now.
  destruct (returns_gets h_instant w4) as (now & w5 & E6 & C6 & _ & ->). rewrite (bind_after _ _ _ _ _ E6).
  destruct (await_returns (polls_for (la_stop_timeout self)) (pr_pid r)
              (h_instant (lo_host w5.2) + la_stop_timeout self) w5 Hp) as ([] & w6 & E7 & C7 & _).
  { unfold polls_for. lia. }
  { pose proof (polls_enough (la_stop_timeout self) Hto). unfold instant. lia. }
  rewrite (bind_after _ _ _ _ _ E7).
  assert (calm w1 w6) as C by (transitivity w4; [done|]; by transitivity w5).
  apply (kill_and_collect_returns r _ w6 c1); [by apply (calm_tidy w1 w6 C)|done|by rewrite (proj2 C)|done|done].
Qed.
End Stopping.
