(* ===== verification/LocalReconcile.v ===== *)
(** * Reconciling with the local supervisor
    The reconciler (reconcile.rs) over [LocalProcessAdapter] (supervisor.rs) and any receipt
    repository that keeps its laws; and what a daemon that starts again finds. *)
From Stdlib Require Import ZArith Lia String Ascii.
From stdpp Require Import base gmap list strings fin_maps pretty.
From S2P Require Import Prelude RustStr Bytes Monad Ids Lifecycle Agent Runtime Launch Reconcile.
From S2P Require Import Diagnostics LogCapture Fs AgentFiles CommunityJoin Daemon Receipts Process.
From S2P Require Import Supervisor ProcFiles SupervisorLaws Stopping.
#[local] Open Scope Z_scope.
#[local] Set Warnings "-notation-for-abbreviation".
#[local] Notation W := (Fs * LocalState)%type.

(** ** A daemon that starts again
    Its children belong to init; those that had ended are collected there. *)
Definition orphan (p : Process) : option Process :=
  if alive p then
    Some (mkProcess (ps_name p) (ps_argv p) (ps_environ p) (ps_group p) (ps_start_ticks p) false
            (ps_terminated p) (ps_ended p) (ps_launch p))
  else None.
Definition restart (w : W) : W :=
  (w.1, mkLocalState (set_procs (omap orphan) (lo_host w.2)) ∅ ∅ 0 []).

Lemma ascii_append a b : ascii_text a → ascii_text b → ascii_text (String.append a b).
Proof. unfold ascii_text. intros Ha Hb. by rewrite all_bytes_append, Ha, Hb. Qed.
Lemma word_ascii s : word s → ascii_text s.
Proof. intros [_ Hs]. revert Hs. apply all_bytes_impl. by intros c [? _]%andb_true_iff. Qed.
Lemma join_ascii l : Forall ascii_text l → ascii_text (join_with " " l).
Proof.
  induction 1 as [|x l Hx Hl IH]; [done|]. destruct l; [done|]. apply ascii_append; [done|].
  by apply ascii_append.
Qed.

#[local] Opaque turn.
Section Restart.
Context `{Machine}.

Lemma stat_line_utf8 n pid p : ascii_text (ps_name p) → is_utf8 (stat_line n pid p) = true.
Proof.
  intros Hn. apply ascii_utf8. unfold stat_line.
  apply ascii_append; [apply word_ascii, show_Z_word|]. apply ascii_append; [done|].
  apply ascii_append; [done|]. apply ascii_append; [done|]. apply join_ascii.
  eapply Forall_impl; [apply stat_fields_words|]. intros s [Hw _]. by apply word_ascii.
Qed.

Lemma ticks_read_name n pid p :
  ascii_text (ps_name p) → 0 ≤ ps_start_ticks p < 2 ^ 64 → ticks_read n pid p = Some (ps_start_ticks p).
Proof. intros Hn Ht. unfold ticks_read. by rewrite stat_line_utf8, start_ticks_of_stat. Qed.

(** What a restart leaves are the processes that run. *)
Lemma orphaned w pid p' :
  procs (restart w) !! pid = Some p' → ∃ p, procs w !! pid = Some p ∧ alive p = true ∧ orphan p = Some p'.
Proof.
  unfold restart, procs at 1. cbn. rewrite lookup_omap. fold (procs w).
  destruct (procs w !! pid) as [p|]; [|done]. cbn. unfold orphan. destruct (alive p) eqn:Ea; [|done].
  intros [= <-]. exists p. by rewrite Ea.
Qed.
Lemma restart_supervised w : supervised_in w → supervised_in (restart w).
Proof.
  intros [_ Hl]. split; [intros pid c Hc; done|]. intros pid p' (p & Hp & Ha & Ho)%orphaned Hn.
  unfold orphan in Ho. rewrite Ha in Ho. injection Ho as <-. destruct (Hl pid p Hp Hn) as [Hg _]. by split.
Qed.
Lemma restart_live w p : live_in (restart w) p → live_in w p.
Proof.
  intros (q' & (q & Hq & Ha & Ho)%orphaned & _ & Hl). unfold orphan in Ho. rewrite Ha in Ho. injection Ho as <-.
  by exists q.
Qed.

(** A process that still shows what its receipt records is recognised. *)
Lemma restart_trusts w r q :
  procs w !! pr_pid r = Some q → recorded (pr_pid r) q r →
  ObservedProcessState_is_terminal (pr_observed_state r) = false → trusted_in (restart w) r.
Proof.
  intros Hq Hr Hnt. split; [|by rewrite Hnt]. intros (q' & Hq' & _ & _). cbn in Hq'.
  assert (Hq2 := Hq'). apply orphaned in Hq2 as (p & Hp & Ha & Ho). rewrite Hq in Hp. injection Hp as <-.
  unfold orphan in Ho. rewrite Ha in Ho. injection Ho as <-. unfold tracked. cbn.
  eexists. split_and!; [exact Hq'|done|]. exact Hr.
Qed.
Lemma recorded_same pid q r o :
  same_child r o → pr_command_path o = pr_command_path r → pr_process_start_ticks o = pr_process_start_ticks r →
  recorded pid q r → recorded pid q o.
Proof.
  intros (El & _ & _ & Ed & _) Ec Et. unfold recorded, command_matches, expected_command.
  by rewrite El, Ed, Ec, Et.
Qed.

(** The environment a harness is given names its launch. *)
Lemma configured_environment self env l g w logs env' w' k v :
  configure_app_server_logs self env l g w = (Ok (logs, env'), w') →
  k ≠ "APP_SERVER_LOGS" → env !! k = Some v → env' !! k = Some v.
Proof.
  unfold configure_app_server_logs. intros E Hk Hv. destruct (env !! "APP_SERVER_LOGS").
  - apply bind_ok in E as (ready & w1 & _ & E). by injection E as _ <- _.
  - apply bind_ok in E as (ready & w1 & _ & E). destruct ready; injection E as _ <- _; [|done].
    by rewrite lookup_insert_ne.
Qed.
Lemma prepared_environment self l secrets w p w' :
  prepare_launch self l secrets w = (Ok p, w') →
  pl_environment p !! LAUNCH_MARKER = Some (ls_launch_id l)
  ∧ pl_identity p = match lo_identities w.2 !! ls_agent_id l with
                    | Some i => Some i | None => identity_of_pair self <$> la_child_identity self end.
Proof.
  unfold prepare_launch. intros E. apply bind_ok in E as (u & w1 & E1 & E). injection E1 as _ <-.
  apply bind_ok in E as (identity & w1 & E1 & E). injection E1 as Ei <-.
  apply bind_ok in E as (now & w1 & _ & E). apply bind_ok in E as (serial & w2 & _ & E).
  apply bind_ok in E as (env & w3 & E1 & E). unfold of_result in E1. injection E1 as E1 <-.
  apply bind_ok in E as ([logs env'] & w4 & Ec & E). apply bind_ok in E as (u2 & w5 & _ & E).
  apply bind_ok in E as (p1 & w6 & _ & E). apply bind_ok in E as (p2 & w7 & _ & E). injection E as <- _.
  cbn. split; [|done]. eapply configured_environment; [exact Ec|done|].
  unfold resolve_environment in E1. cbn zeta in E1. do 2 (step_in E1). injection E1 as <-.
  by rewrite lookup_insert_eq.
Qed.

Lemma prepare_harness_path self l secrets w p w' :
  prepare_launch self l secrets w = (Ok p, w') → ei_path (ls_harness l) ≠ EmptyString ∧ arg0_of l ≠ EmptyString.
Proof.
  intros Hv%prepare_validates. apply launch_validate_steps in Hv as (_ & _ & _ & H4 & _).
  assert (ei_path (ls_harness l) ≠ EmptyString) as Hp.
  { intros Ep. unfold ExecutableIdentity_validate in H4. by rewrite Ep in H4. }
  split; [done|]. unfold arg0_of. by destruct (ei_path (ls_harness l)).
Qed.

Lemma nul_free_spec c :
  nul_free c = true →
  contains_char NUL (default (cmd_program c) (cmd_arg0 c)) = false
  ∧ Forall (λ s, contains_char NUL s = false) (cmd_args c)
  ∧ Forall (λ s, contains_char NUL s = false) (map environment_entry (btree_iter (cmd_environment c))).
Proof.
  unfold nul_free. rewrite negb_true_iff, !orb_false_iff. intros ((((H1 & H2) & H3) & _) & H5).
  split_and!.
  - destruct (cmd_arg0 c); done.
  - by apply existsb_false_Forall.
  - apply Forall_map, Forall_forall. intros [k v] Hkv%elem_of_btree_iter.
    apply existsb_false_Forall in H5. rewrite Forall_forall in H5.
    specialize (H5 (k, v) (proj2 (elem_of_map_to_list _ _ _) Hkv)). cbn in H5.
    apply orb_false_iff in H5 as [Hk Hv]. unfold environment_entry. cbn [fst snd].
    by rewrite !contains_char_append, Hk, Hv.
Qed.

Hypothesis Hsettled : settled.
Hypothesis Hsane : sane_machine.
Variable render_provenance : LogProvenance → string.
Variable self : LocalProcessAdapter.

Lemma spawn_nul_free c launch h pid h' : spawn c launch h = (Ok pid, h') → nul_free c = true.
Proof. unfold spawn, syscall. by destruct (nul_free c). Qed.

(** What a launch leaves: the process that was spawned, and a receipt with its start time. *)
Lemma launch_shape l p w r w' :
  launch_process render_provenance self l p w = (Ok r, w') →
  ∃ pid t ticks q, r = start_receipt l (pl_identity p) (pl_generation p) pid t ticks (pl_logs p)
    ∧ nul_free (harness_command l p) = true ∧ procs w' !! pid = Some q
    ∧ ps_environ q = map environment_entry (btree_iter (pl_environment p))
    ∧ ps_child q = true ∧ ps_launch q ≠ None
    ∧ 0 < ps_start_ticks q < 2 ^ 64 ∧ (∀ x, ticks = Some x → x = ps_start_ticks q).
Proof using Hsettled Hsane.
  intros E. unfold launch_process in E. apply bind_ok in E as (pid & w1 & E1 & E).
  unfold host_io, on, M_map_err in E1. cbn [part has_host] in E1.
  destruct (spawn _ _ (lo_host w.2)) as [[x|e] h] eqn:Es; [|done]. injection E1 as <- <-.
  pose proof (spawn_nul_free _ _ _ _ _ Es) as Hnul. apply spawn_ok in Es as (_ & _ & Hp).
  apply bind_ok in E as (u1 & w2 & E2 & E). apply (always_run calm) in E2; [|by apply calm_capture].
  apply bind_ok in E as (u2 & w3 & E3 & E). apply (always_run calm) in E3; [|by apply calm_capture].
  apply bind_ok in E as (t & w4 & E4 & E). apply (always_run calm) in E4; [|by apply calm_millis].
  apply bind_ok in E as (ticks & w5 & E5 & E).
  assert (C5 := E5). apply (always_run calm) in C5; [|by apply calm_ticks].
  cbn zeta in E. apply bind_ok in E as (u3 & w6 & E6 & E). injection E6 as _ <-.
  apply bind_ok in E as (u4 & w6 & E6 & E). injection E6 as _ <-. injection E as <- <-.
  set (P := process_of_command _ _ x _) in Hp.
  match type of E2 with calm ?a _ => assert (procs a !! x = Some P) as HP end.
  { unfold procs. cbn [set_part has_host snd lo_host]. by rewrite Hp, lookup_insert_eq. }
  match type of E2 with calm ?a _ => assert (calm a w5) as C by
    (etrans; [exact E2|]; etrans; [exact E3|]; by etrans; [exact E4|]) end.
  destruct (evolves_child _ _ (proj1 C) x P HP) as (q & Hq & K); [done|done|].
  exists x, t, ticks, q. split_and!; [done|done|done| |by rewrite (carries_child _ _ K)|by rewrite (carries_launch _ _ K)| | |].
  - rewrite (carries_environ _ _ K). unfold P, harness_command, command_with.
    by destruct (command_for_identity _ _).
  - rewrite (carries_ticks _ _ K). apply (proj2 Hsane).
  - rewrite (carries_ticks _ _ K). apply (proj2 Hsane).
  - intros y ->. unfold process_start_ticks, proc_stat in E5. apply bind_ok in E5 as (stat & w6 & E6 & E5).
    rewrite host_gets in E6. injection E6 as <- <-. injection E5 as E5 <-.
    unfold procs in Hq. cbn [set_part has_host snd lo_host] in E5, Hq. rewrite Hq in E5.
    cbn [fmap option_fmap option_map mbind option_bind] in E5.
    destruct (is_utf8 (stat_line _ x q)); [|done]. rewrite start_ticks_of_stat in E5.
    + by injection E5.
    + rewrite (carries_ticks _ _ K). destruct (proj2 Hsane (h_turn (turn (lo_host w.2)))).
      unfold P. cbn -[turn]. lia.
Qed.

Lemma harness_nul_free l p :
  nul_free (harness_command l p) = true →
  contains_char NUL (match pl_identity p with Some _ => ei_path (ls_harness l) | None => arg0_of l end) = false
  ∧ Forall (λ s, contains_char NUL s = false) (ls_harness_arguments l)
  ∧ Forall (λ s, contains_char NUL s = false) (map environment_entry (btree_iter (pl_environment p))).
Proof.
  intros (H1 & H2 & H3)%nul_free_spec. unfold harness_command, command_with, command_for_identity in *.
  destruct (pl_identity p) as [i|]; cbn [cmd_program cmd_arg0 cmd_args cmd_environment default app] in *.
  - do 7 (apply Forall_cons in H2 as [_ H2]). apply Forall_cons in H2 as [? H2]. by split_and!.
  - by split_and!.
Qed.

Lemma started_recorded l secrets w r w' v q c :
  start render_provenance self l secrets w = (Ok r, w') →
  pr_process_start_ticks r ≠ None → calm w' v → procs v !! pr_pid r = Some q →
  pr_command_path r = Some c → ps_argv q = c :: ls_harness_arguments l →
  ascii_text (ps_name q) → ascii_text (ei_path (ls_harness l)) → ascii_text (ls_launch_id l) →
  recorded (pr_pid r) q r.
Proof using Hsettled Hsane.
  intros E Hticks C Hq Hcmd Hargv Hname Hpath Hid.
  unfold start in E. apply bind_ok in E as (p & w1 & Ep & E).
  destruct (prepared_environment _ _ _ _ _ _ Ep) as [Henv _].
  destruct (launch_shape l p w1 r w' E) as (pid & t & ticks & q0 & Hr & Hnul & Hq0 & He0 & Hc0 & Hl0 & Ht0 & Hx).
  assert (pr_pid r = pid) as Hpid by by rewrite Hr. rewrite <- Hpid in Hq0.
  destruct (evolves_child _ _ (proj1 C) _ q0 Hq0 Hl0 Hc0) as (q1 & Hq1 & K).
  rewrite Hq in Hq1. injection Hq1 as <-.
  destruct (harness_nul_free l p Hnul) as (Hn1 & Hn2 & Hn3).
  assert (c = match pl_identity p with Some _ => ei_path (ls_harness l) | None => arg0_of l end) as Ec.
  { rewrite Hr in Hcmd. cbn in Hcmd. congruence. }
  split_and!.
  - unfold command_matches, expected_command. rewrite Hcmd, Hr. cbn. rewrite Ec.
    destruct (pl_identity p); unfold arg0_of, marker_entry; by rewrite String.eqb_refl, ?orb_true_r.
  - by destruct (pr_process_start_ticks r).
  - intros n. rewrite ticks_read_name; [|done|rewrite (carries_ticks _ _ K); lia].
    rewrite (carries_ticks _ _ K). rewrite Hr in Hticks |- *. cbn in *. destruct ticks as [x|]; [|done].
    f_equal. symmetry. by apply Hx.
  - rewrite Hcmd. eapply command_of_argv; [done| | |].
    + rewrite Hargv. constructor; [by rewrite Ec|done].
    + rewrite Ec. destruct (prepare_harness_path self l secrets w p w1 Ep). by destruct (pl_identity p).
    + apply ascii_utf8. rewrite Ec. destruct (pl_identity p); [done|]. unfold arg0_of.
      repeat apply ascii_append; done.
  - replace (pr_launch_id r) with (ls_launch_id l) by by rewrite Hr.
    rewrite (carries_environ _ _ K), He0. apply marker_in_environ; [done|].
    apply list_elem_of_fmap. exists (LAUNCH_MARKER, ls_launch_id l). split; [done|].
    by apply elem_of_btree_iter.
Qed.

(** A process that has ended in the meantime is recognised too, as one that is not there. *)
Lemma restarted_recognises l secrets w r w' v o :
  start render_provenance self l secrets w = (Ok r, w') →
  pr_process_start_ticks r ≠ None → calm w' v →
  same_child r o → pr_command_path o = pr_command_path r → pr_process_start_ticks o = pr_process_start_ticks r →
  ObservedProcessState_is_terminal (pr_observed_state o) = false →
  (∀ q, procs v !! pr_pid r = Some q → alive q = true →
     ascii_text (ps_name q) ∧ ∃ c, pr_command_path r = Some c ∧ ps_argv q = c :: ls_harness_arguments l) →
  ascii_text (ei_path (ls_harness l)) → ascii_text (ls_launch_id l) →
  trusted_in (restart v) o.
Proof using Hsettled Hsane.
  intros E Hticks C Hsame Hcmd Ht Hnt Hrun Hpath Hid. assert (pr_pid o = pr_pid r) as Hpid by apply Hsame.
  destruct (procs v !! pr_pid r) as [q|] eqn:Hq; [destruct (alive q) eqn:Ha|].
  - destruct (Hrun q eq_refl Ha) as (Hname & c & Hc & Hargv). apply (restart_trusts v o q); [by rewrite Hpid| |done].
    apply (recorded_same _ _ r o); [done..|]. rewrite Hpid. by eapply started_recorded.
  - apply trusted_dead. intros (x & Hx & Hax & _)%restart_live. cbn in Hx. rewrite Hpid in Hx. congruence.
  - apply trusted_dead. intros (x & Hx & Hax & _)%restart_live. cbn in Hx. rewrite Hpid in Hx. congruence.
Qed.
End Restart.

(** ** Reconciling *)
Section Local.
Context `{Machine}.
Context {R : Type} `{ReceiptLaws R}.

(** Every process of the agent that runs is the one on record, which the supervisor can
    recognise; so there is at most one. *)
Definition one_process (a : AgentId) (w : W * R) : Prop :=
  supervised_in w.1 ∧ (∀ r, stored_receipt w.2 a = Some r → trusted_in w.1 r)
  ∧ ∀ p, live_in w.1 p → p.1.1 = a → ∃ r, stored_receipt w.2 a = Some r ∧ process_of r = p.
Definition runs_nothing (a : AgentId) (w : W * R) : Prop := ∀ p, live_in w.1 p → p.1.1 ≠ a.

Definition reconcile_locally (render : LogProvenance → string) (self : LocalProcessAdapter)
    (secrets : SecretRef → result SupervisorError string) (agent : AgentSpec) (launch : option LaunchSpec)
    : M (W * R) ReconcileError ReconcileOutcome :=
  @reconcile_desired (W * R) product_receipts
    (@product_supervisor W R (local_supervisor render self secrets)) agent launch.

Lemma reconciled_locally (Hsettled : settled) render self (Hsane : sane_machine) secrets agent launch w w' outcome :
  one_process (spec_id agent) w →
  reconcile_locally render self secrets agent launch w = (Ok outcome, w') →
  one_process (spec_id agent) w'
  ∧ (∀ o, pr_agent_id o ≠ spec_id agent → trusted_in w.1 o → trusted_in w'.1 o)
  ∧ match spec_desired_state agent with
    | Disabled | Deleted =>
      runs_nothing (spec_id agent) w' ∧ stored_receipt w'.2 (spec_id agent) = None
    | Enabled => ∃ l, launch = Some l ∧ ls_agent_id l = spec_id agent
      ∧ match outcome with
        | Adopted => (∃ r, stored_receipt w'.2 (spec_id agent) = Some r ∧ can_adopt l r = true)
                     ∧ ∀ p, live_in w'.1 p → live_in w.1 p
        | Started => ∃ r, stored_receipt w'.2 (spec_id agent) = Some r
                          ∧ pr_desired r = LaunchSpec_identity l
        | FailedPreflight | NoPresence => runs_nothing (spec_id agent) w'
        | _ => False
        end
    end.
Proof.
  intros Hone E. pose (laws := local_supervisor_laws Hsettled render self Hsane secrets).
  exact (@reconcile_desired_ok (W * R) _ (@product_supervisor_laws W R _ laws) _ product_receipt_laws
           (@product_laws W R _ laws _ _) agent launch w w' outcome Hone E).
Qed.

(** C8: on the host, reconciliation never leaves an agent with two processes. Whatever
    processes end, appear or replace their program meanwhile, whatever calls fail: if every
    running process of the agent is the recorded one and can be recognised, it is so after
    a reconciliation that returns. A disabled or deleted agent has no process and no
    receipt left; an adopted process ran before; a started one is on record with the
    launch it was started for; a failed start leaves none running; and what could be
    recognised of other agents still can. Of the machine: the clock reads after 1970, a
    process has a start time, and only children of the daemon replace their program; a
    SIGKILL to a process group has taken effect when [killpg] returns. *)
Theorem local_reconciliation_keeps_one_process (render : LogProvenance → string)
    (self : LocalProcessAdapter) (secrets : SecretRef → result SupervisorError string)
    (agent : AgentSpec) (launch : option LaunchSpec) (w w' : W * R) (outcome : ReconcileOutcome) :
  settled → sane_machine → one_process (spec_id agent) w →
  reconcile_locally render self secrets agent launch w = (Ok outcome, w') →
  one_process (spec_id agent) w'
  ∧ (∀ o, pr_agent_id o ≠ spec_id agent → trusted_in w.1 o → trusted_in w'.1 o)
  ∧ match spec_desired_state agent with
    | Disabled | Deleted =>
      runs_nothing (spec_id agent) w' ∧ stored_receipt w'.2 (spec_id agent) = None
    | Enabled => ∃ l, launch = Some l ∧ ls_agent_id l = spec_id agent
      ∧ match outcome with
        | Adopted => (∃ r, stored_receipt w'.2 (spec_id agent) = Some r ∧ can_adopt l r = true)
                     ∧ ∀ p, live_in w'.1 p → live_in w.1 p
        | Started => ∃ r, stored_receipt w'.2 (spec_id agent) = Some r
                          ∧ pr_desired r = LaunchSpec_identity l
        | FailedPreflight | NoPresence => runs_nothing (spec_id agent) w'
        | _ => False
        end
    end.
Proof. intros Hsettled Hsane. by apply reconciled_locally. Qed.

(** C10: stopping a child always ends it. For a child of the daemon that its receipt matches,
    [stop] returns (it polls boundedly often and never waits for a child that runs), the
    child has ended, its exit status is in the receipt, and no other process of an agent
    is lost track of. *)
Theorem stopping_a_child_ends_it (self : LocalProcessAdapter) (r : ProcessReceipt) (w : W)
    (c : ManagedChild) :
  settled → supervised_in w → trusted_in w r → ProcessReceipt_validate r = Ok tt →
  pr_pid r < 2 ^ 31 → 0 ≤ la_stop_timeout self →
  ObservedProcessState_is_terminal (pr_observed_state r) = false →
  managed w !! pr_pid r = Some c → same_child (mc_receipt c) r →
  ∃ r' w', stop self r w = (Ok r', w')
    ∧ pr_observed_state r' = Exited ∧ is_Some (pr_wait_outcome r') ∧ same_child r r'
    ∧ managed w' !! pr_pid r = None ∧ ¬ live_in w' (process_of r)
    ∧ supervised_in w' ∧ (∀ o, trusted_in w o → trusted_in w' o).
Proof.
  intros Hsettled Hs Ht Hv Hp Hto Hnt Hm Hsame.
  destruct (stop_child_returns Hsettled self r w c Hs Ht Hv Hp Hto Hnt Hm Hsame)
    as (r' & w' & E & Hex & Hwait & Hgone).
  destruct (stop_spec Hsettled self r w r' w' Hs Ht E) as (T & Hsc & Hd). destruct (T Hs) as (? & _ & ?).
  exists r', w'. by split_and!.
Qed.

(** Before a reconciliation starts a process it has inspected the one on record: that one
    cannot be adopted, and when its receipt fits the launch it has ended. *)
Lemma started_instead render self secrets agent launch (w : Fs * LocalState) (s : R) r u :
  settled → supervised_in w → trusted_in w r → stored_receipt s (spec_id agent) = Some r →
  reconcile_locally render self secrets agent launch (w, s) = (Ok Started, u) →
  ∃ l obs w1, launch = Some l ∧ inspect r w = (Ok obs, w1) ∧ can_adopt l obs = false
    ∧ (can_adopt l r = true → ¬ live_in w1 (process_of r)).
Proof.
  intros Hsettled Hs Ht Hst Hr. unfold reconcile_locally, reconcile_desired in Hr.
  apply bind_ok in Hr as ([] & w1 & Hv & Hr). unfold of_result in Hv. injection Hv as _ <-.
  apply bind_ok in Hr as (o & w1 & Hg%storage_ok & Hr). apply on_snd in Hg as [Hg Hw1]. cbn [fst snd] in Hg, Hw1.
  destruct (get_receipt_law _ _ _ _ Hg) as [-> _]. rewrite Hst in Hr. destruct w1 as [v1 s1]. cbn in Hw1. subst v1.
  destruct (spec_desired_state agent).
  2,3: exfalso; unfold ensure_stopped in Hr; repeat first [done
    | match type of Hr with (if ?b then _ else _) _ = _ => destruct b end
    | apply bind_ok in Hr as (? & ? & _ & Hr)].
  apply bind_ok in Hr as (l & w2 & Hd & Hr). unfold of_result in Hd.
  destruct launch as [l'|]; [|done]. injection Hd as <- <-.
  destruct (negb _); [done|]. unfold ensure_started in Hr.
  apply bind_ok in Hr as (obs & w2 & Hin%supervisor_ok & Hr). apply on_fst in Hin as [Hin _]. cbn [fst] in Hin.
  apply bind_ok in Hr as ([] & w3 & _ & Hr). destruct (can_adopt l' obs) eqn:Ead; [done|].
  exists l', obs, w2.1. split_and!; [done|exact Hin|done|]. intros Har.
  destruct (inspect_spec Hsettled r w _ _ Hs Ht Hin) as [_ Hi]. destruct (Hi obs eq_refl) as (Hsame & _ & Hobs).
  destruct (ObservedProcessState_is_terminal (pr_observed_state obs)) eqn:Et; [exact Hobs|].
  exfalso. destruct Hsame as (E1 & E2 & E3 & E4 & E5 & _). unfold can_adopt in Ead, Har.
  rewrite E1, E2, E3, E4, E5, Et in Ead. rewrite !andb_true_iff in Har.
  destruct Har as (((((A1 & A2) & A3) & A4) & A5) & _). by rewrite A1, A2, A3, A4, A5 in Ead.
Qed.

(** C9: a daemon that starts again takes over the agents it left running, and never runs a
    second process for one. Say the supervisor started an agent that ran nothing; time went
    by; the daemon was started again, and time went by. The receipt is on record, perhaps
    with another observed state, and has a start time. If the process still runs then it
    runs what it was started as (its arguments are the receipt's command and those of the
    launch); its name, the harness path and the launch id are ASCII. Then every process of
    the agent is the recorded one and is recognised; and a reconciliation that returns
    leaves at most one process of the agent, which is on record. When it adopts, that is the
    old process and no other; when it starts one, the old process could not be adopted: the
    launch asks for something else (then it was stopped), or it was found to have ended;
    otherwise none is left. *)
Theorem restarted_daemon_recognises_its_agents (render : LogProvenance → string)
    (self : LocalProcessAdapter) (secrets : SecretRef → result SupervisorError string)
    (l : LaunchSpec) (w w' v v' : Fs * LocalState) (r o : ProcessReceipt) (s : R) :
  settled → sane_machine → supervised_in w → (∀ p, live_in w p → p.1.1 ≠ ls_agent_id l) →
  start render self l secrets w = (Ok r, w') → pr_process_start_ticks r ≠ None → calm w' v →
  (∀ q, procs v !! pr_pid r = Some q → alive q = true →
     ascii_text (ps_name q) ∧ ∃ c, pr_command_path r = Some c ∧ ps_argv q = c :: ls_harness_arguments l) →
  ascii_text (ei_path (ls_harness l)) → ascii_text (ls_launch_id l) →
  stored_receipt s (ls_agent_id l) = Some o →
  same_child r o → pr_command_path o = pr_command_path r → pr_process_start_ticks o = pr_process_start_ticks r →
  ObservedProcessState_is_terminal (pr_observed_state o) = false →
  calm (restart v) v' →
  one_process (ls_agent_id l) (v', s)
  ∧ ∀ self' secrets' agent launch outcome u, spec_id agent = ls_agent_id l →
      reconcile_locally render self' secrets' agent launch (v', s) = (Ok outcome, u) →
      one_process (ls_agent_id l) u
      ∧ (∀ p q, live_in u.1 p → live_in u.1 q → p.1.1 = ls_agent_id l → q.1.1 = ls_agent_id l → p = q)
      ∧ match outcome with
        | Adopted => ∀ p, live_in u.1 p → p.1.1 = ls_agent_id l → p = process_of r
        | Started => ∃ l' obs w1, launch = Some l' ∧ inspect o v' = (Ok obs, w1) ∧ can_adopt l' obs = false
                       ∧ (can_adopt l' o = true → ¬ live_in w1 (process_of r))
        | _ => runs_nothing (ls_agent_id l) u
        end.
Proof.
  intros Hsettled Hsane Hs Hnone E Hticks C Hrun Hpath Hid Hst Hsame Hcmd Ht Hnt C'.
  assert (process_of o = process_of r) as Hpo by by apply same_child_process.
  pose proof (restarted_recognises Hsettled Hsane _ _ _ _ _ _ _ _ _ E Hticks C Hsame Hcmd Ht Hnt Hrun Hpath Hid) as Htr.
  apply (start_spec Hsettled render self Hsane) in E as (Hs1 & _ & _ & _ & Hl1 & _); [|done].
  destruct (calm_tidy _ _ C Hs1) as (Hs2 & Hl2 & _).
  destruct (calm_tidy _ _ C' (restart_supervised v Hs2)) as (Hs3 & Hl3 & Ht3).
  assert (one_process (ls_agent_id l) (v', s)) as Hone.
  { split_and!; [exact Hs3|intros x Hx; cbn in Hx; rewrite Hst in Hx; injection Hx as <-; by apply Ht3|].
    intros p Hp Ha. exists o. split; [done|]. rewrite Hpo.
    apply Hl3, restart_live, Hl2, Hl1 in Hp as [Hp|Hp]; [by destruct (Hnone p Hp)|done]. }
  split; [exact Hone|]. intros self' secrets' agent launch outcome u Ha Hr. rewrite <- Ha in Hone |- *.
  pose proof (reconciled_locally Hsettled render self' Hsane secrets' agent launch _ _ _ Hone Hr) as (Hone' & _ & Hout).
  split_and!; [exact Hone'| |].
  - intros p q Hp Hq Hap Haq. destruct Hone' as (_ & _ & Hacc).
    destruct (Hacc p Hp Hap) as (x & Hx & <-), (Hacc q Hq Haq) as (y & Hy & <-). congruence.
  - destruct (spec_desired_state agent) eqn:Ed.
    2,3: destruct Hout as [Hnp _]; destruct outcome; try exact Hnp;
      [intros p Hp Hap; by destruct (Hnp p Hp)|].
    2,3: destruct (started_instead _ _ _ _ _ _ _ _ _ Hsettled Hs3 (Ht3 o Htr) ltac:(by rewrite Ha) Hr)
      as (l' & obs & w1 & Hl' & Hi & Hca & Hd); exists l', obs, w1; by rewrite <- Hpo.
    destruct Hout as (l' & Hl' & _ & Hout). destruct outcome; try done.
    + destruct Hout as [_ Hback]. intros p Hp Hap. destruct Hone as (_ & _ & Hacc).
      destruct (Hacc p (Hback p Hp) Hap) as (x & Hx & <-). cbn in Hx. rewrite Ha, Hst in Hx. by injection Hx as <-.
    + destruct (started_instead _ _ _ _ _ _ _ _ _ Hsettled Hs3 (Ht3 o Htr) ltac:(by rewrite Ha) Hr)
        as (l2 & obs & w1 & ? & Hi & Hca & Hd). exists l2, obs, w1. by rewrite <- Hpo.
Qed.

End Local.

(** ** A machine and a repository: the hypotheses can hold *)
#[export] Instance record_table : ProcessReceiptRepository (gmap AgentId ProcessReceipt) := {|
  get_receipt a := gets (λ m, match m !! a with
                              | Some r => if bool_decide (pr_agent_id r = a) then Some r else None
                              | None => None
                              end);
  put_receipt r := modify (<[pr_agent_id r := r]>);
  delete_receipt a := modify (delete a)
|}.
#[export, refine] Instance record_table_laws : ReceiptLaws (gmap AgentId ProcessReceipt) := {|
  stored_receipt m a := match m !! a with
                        | Some r => if bool_decide (pr_agent_id r = a) then Some r else None
                        | None => None
                        end
|}.
Proof.
  - intros m a r. destruct (m !! a); [|done]. case_bool_decide; congruence.
  - by intros a m o m' [= <- <-].
  - intros r m m' [= <-]. by rewrite lookup_insert_eq, bool_decide_eq_true_2.
  - intros a m m' [= <-]. by rewrite lookup_delete_eq.
Defined.

(** The wall clock reads [clock]; a probe succeeds, and an agent runs until it is killed. *)
Definition quiet_machine (clock : nat → Z) : Machine := {|
  wall_millis := clock; elapsed _ := 1%N; next_pid n := 100 + Z.of_nat n; next_ticks _ := 77;
  spawn_fault _ := None; behaves _ _ p := if option_is_none (ps_launch p) then Some (Exits (ExitCode 0)) else None; appears _ := None; stat_running _ _ := false;
  stat_counter _ _ _ := 0; connects _ _ _ := true
|}.
Definition steady (_ : nat) : Z := 1000.
Lemma quiet_settled clock : @settled (quiet_machine clock).
Proof. intros n pid p name argv. cbn. by destruct (option_is_none _). Qed.
Lemma steady_sane : @sane_machine (quiet_machine steady).
Proof. by split. Qed.

Definition sample_adapter : LocalProcessAdapter :=
  mkAdapter (mkLogPolicy (path_of_string "/var/log/buzz-server") 65536 4096) 100 None None.
Definition idle_host : W := (mkFs ∅ [] 0, mkLocalState (mkHost ∅ 0 0 []) ∅ ∅ 0 []).
Definition sample_secrets (_ : SecretRef) : result SupervisorError string := Ok "secret".
Definition no_provenance (_ : LogProvenance) : string := "{}".

#[local] Existing Instance quiet_machine.
#[local] Notation calm_machine := (quiet_machine steady).
Lemma idle_supervised : supervised_in idle_host.
Proof. split; intros pid x Hx; done. Qed.
Lemma idle_runs_nothing p : ¬ live_in idle_host p.
Proof. by intros (q & Hq & _). Qed.

Lemma local_reconciliation_keeps_one_process_witness :
  ∃ w', reconcile_locally (H := calm_machine) (R := gmap AgentId ProcessReceipt) no_provenance
          sample_adapter sample_secrets sample_agent (Some sample_launch) (idle_host, ∅) = (Ok Started, w')
    ∧ one_process (H := calm_machine) (R := gmap AgentId ProcessReceipt) (mkAgentId 7) w'.
Proof.
  assert (one_process (H := calm_machine) (R := gmap AgentId ProcessReceipt) (spec_id sample_agent)
            (idle_host, ∅)) as Hone.
  { split; [apply idle_supervised|]. split; [discriminate|]. intros p Hp. destruct (idle_runs_nothing p Hp). }
  destruct (reconcile_locally (H := calm_machine) (R := gmap AgentId ProcessReceipt) no_provenance
    sample_adapter sample_secrets sample_agent (Some sample_launch) (idle_host, ∅)) as [res w'] eqn:E.
  assert (res = Ok Started) as ->.
  { transitivity (reconcile_locally (H := calm_machine) (R := gmap AgentId ProcessReceipt) no_provenance
      sample_adapter sample_secrets sample_agent (Some sample_launch) (idle_host, ∅)).1;
      [rewrite E; reflexivity|vm_compute; reflexivity]. }
  exists w'. split; [reflexivity|].
  exact (proj1 (local_reconciliation_keeps_one_process no_provenance sample_adapter sample_secrets
    sample_agent (Some sample_launch) (idle_host, ∅) w' Started (quiet_settled steady) steady_sane Hone E)).
Defined.

(** A launch on the idle host. *)
Definition sample_start : result SupervisorError ProcessReceipt * W :=
  start (H := calm_machine) no_provenance sample_adapter sample_launch sample_secrets idle_host.
Definition started_receipt : ProcessReceipt :=
  match sample_start.1 with Ok r => r | Err _ => sample_receipt sample_launch 0 Lost end.
Definition started_child : ManagedChild :=
  default (mkManagedChild 0 None started_receipt) (managed sample_start.2 !! pr_pid started_receipt).
Definition started_process : Process :=
  default (mkProcess "" [] [] 0 0 false false None None) (procs sample_start.2 !! pr_pid started_receipt).
Lemma sample_start_ok :
  start (H := calm_machine) no_provenance sample_adapter sample_launch sample_secrets idle_host
  = (Ok started_receipt, sample_start.2).
Proof.
  change (sample_start = (Ok started_receipt, sample_start.2)).
  rewrite (surjective_pairing sample_start) at 1. f_equal.
Qed.
Lemma sample_start_sound :
  supervised_in sample_start.2 ∧ trusted_in (H := calm_machine) sample_start.2 started_receipt.
Proof.
  destruct (start_spec (quiet_settled steady) no_provenance sample_adapter steady_sane _ _ _ _ _
    idle_supervised sample_start_ok) as (? & ? & _). by split.
Qed.

Lemma stopping_a_child_ends_it_witness :
  ∃ r' w', stop (H := calm_machine) sample_adapter started_receipt sample_start.2 = (Ok r', w')
    ∧ pr_observed_state r' = Exited ∧ ¬ live_in w' (process_of started_receipt).
Proof.
  destruct sample_start_sound as [Hs Ht].
  assert (ProcessReceipt_validate started_receipt = Ok tt) as Hv by (vm_compute; reflexivity).
  assert (pr_pid started_receipt < 2 ^ 31) as Hp by (vm_compute; reflexivity).
  assert (0 ≤ la_stop_timeout sample_adapter) as Hto by (vm_compute; discriminate).
  assert (ObservedProcessState_is_terminal (pr_observed_state started_receipt) = false) as Hnt
    by (vm_compute; reflexivity).
  assert (managed sample_start.2 !! pr_pid started_receipt = Some started_child) as Hm
    by (vm_compute; reflexivity).
  assert (same_child (mc_receipt started_child) started_receipt) as Hsame
    by (split_and!; vm_compute; reflexivity).
  destruct (stopping_a_child_ends_it sample_adapter started_receipt sample_start.2 started_child
    (quiet_settled steady) Hs Ht Hv Hp Hto Hnt Hm Hsame) as (r' & w' & E & Hex & _ & _ & _ & Hd & _).
  exists r', w'. split_and!; [exact E|exact Hex|exact Hd].
Defined.

Definition sample_records : gmap AgentId ProcessReceipt := {[ mkAgentId 7 := started_receipt ]}.
Definition adoption : result ReconcileError ReconcileOutcome * (W * gmap AgentId ProcessReceipt) :=
  reconcile_locally (H := calm_machine) no_provenance sample_adapter sample_secrets sample_agent
    (Some sample_launch) (restart sample_start.2, sample_records).
Lemma adoption_ok :
  reconcile_locally (H := calm_machine) no_provenance sample_adapter sample_secrets sample_agent
    (Some sample_launch) (restart sample_start.2, sample_records) = (Ok Adopted, adoption.2).
Proof.
  change (adoption = (Ok Adopted, adoption.2)). rewrite (surjective_pairing adoption) at 1. f_equal.
Qed.
Lemma restarted_daemon_recognises_its_agents_witness :
  adoption.1 = Ok Adopted
  ∧ ∀ p, live_in adoption.2.1 p → p.1.1 = mkAgentId 7 → p = process_of started_receipt.
Proof.
  assert (pr_process_start_ticks started_receipt ≠ None) as Ht by (vm_compute; discriminate).
  assert (∀ q, procs sample_start.2 !! pr_pid started_receipt = Some q → alive q = true →
    ascii_text (ps_name q) ∧ ∃ c, pr_command_path started_receipt = Some c
      ∧ ps_argv q = c :: ls_harness_arguments sample_launch) as Hrun.
  { assert (procs sample_start.2 !! pr_pid started_receipt = Some started_process) as Hq by (vm_compute; reflexivity).
    intros q. rewrite Hq. intros Hsome _. apply (inj Some) in Hsome as <-. split; [vm_compute; reflexivity|].
    exists (arg0_of sample_launch). split; vm_compute; reflexivity. }
  assert (ascii_text (ei_path (ls_harness sample_launch))) as H2 by (vm_compute; reflexivity).
  assert (ascii_text (ls_launch_id sample_launch)) as H3 by (vm_compute; reflexivity).
  assert (stored_receipt sample_records (ls_agent_id sample_launch) = Some started_receipt) as Hst
    by (vm_compute; reflexivity).
  assert (ObservedProcessState_is_terminal (pr_observed_state started_receipt) = false) as Hnt
    by (vm_compute; reflexivity).
  split; [vm_compute; reflexivity|].
  destruct (restarted_daemon_recognises_its_agents (R := gmap AgentId ProcessReceipt) no_provenance sample_adapter
    sample_secrets sample_launch idle_host sample_start.2 sample_start.2 (restart sample_start.2) started_receipt
    started_receipt sample_records (quiet_settled steady) steady_sane idle_supervised
    (λ p Hp _, idle_runs_nothing p Hp) sample_start_ok Ht (reflexivity _) Hrun H2 H3 Hst (reflexivity _) eq_refl eq_refl
    Hnt (reflexivity _)) as [_ Hr].
  exact (proj2 (proj2 (Hr sample_adapter sample_secrets sample_agent (Some sample_launch) Adopted adoption.2
    eq_refl adoption_ok))).
Defined.

(** When the clock fails after the harness was spawned, [start] returns the error and the
    process runs on, in no table. *)
Definition failing_clock (n : nat) : Z := if (n <? 6)%nat then 1000 else -1.
Theorem failing_clock_leaves_a_process :
  let '(res, w) := start (H := quiet_machine failing_clock) no_provenance sample_adapter sample_launch
                     sample_secrets idle_host in
  res = Err SupervisorClock ∧ managed w = ∅ ∧ live_in w (mkAgentId 7, "agent-7", 106).
Proof. vm_compute. split_and!; [reflexivity|reflexivity|]. eexists. split_and!; reflexivity. Qed.
