(* ===== verification/Worker.v ===== *)
(** * The reconciliation worker (main.rs)
    An operation handed to the worker: the agent's document is resolved, its directories and
    key are prepared, its projections published, its launch built and reconciled with the
    process, its receipt stamped and the operation completed. Agents are observed, and the
    artifacts of purged agents removed, between operations. *)
From Stdlib Require Import ZArith Lia String Ascii.
From stdpp Require Import base gmap list strings.
From S2P Require Import Prelude RustStr Ids Signer Lifecycle Agent Runtime Launch Auth ApiTypes Bytes.
From S2P Require Import Schema Storage StoreInv Sha256 Monad Application AppProps AppCommands Fs Reconcile.
From S2P Require Import AgentFiles Custody Nostr RelayProjection CommunityJoin Daemon Receipts Wake.
From S2P Require Import Publications AgentTree LogCapture Process Supervisor.
#[local] Open Scope Z_scope.
#[local] Set Warnings "-notation-for-abbreviation".

(** What the worker calls of [LocalProcessAdapter]: processes and their log files. *)
Class LocalSupervisor (R : Type) : Type := {
  set_agent_identity : AgentId → LocalProcessIdentity → M R SupervisorError unit;
  local_start : LaunchSpec → (SecretRef → result SupervisorError string)
                → M (Fs * R) SupervisorError ProcessReceipt;
  local_inspect : ProcessReceipt → M (Fs * R) SupervisorError ProcessReceipt;
  local_stop : ProcessReceipt → M (Fs * R) SupervisorError ProcessReceipt;
  log_tail : string → bool → M (Fs * R) SupervisorError string
}.

(** [LocalProcessAdapter] is one, with its own state beside the file system. *)
Definition local_process_adapter `{Machine} (render : LogProvenance → string)
    (self : LocalProcessAdapter) : LocalSupervisor LocalState := {|
  set_agent_identity := adapter_set_identity;
  local_start l secrets := start render self l secrets;
  local_inspect := inspect;
  local_stop := stop self;
  log_tail := adapter_log_tail self
|}.

Record ReconcileContext : Type := mkReconcileContext {
  rc_config : DaemonConfig;
  rc_custody : FilesystemAgentIdentityCustody;
  rc_agent_files : AgentFileStore
}.

(** ** [{:?}] of the values that are recorded *)
Definition DesiredAgentState_debug (s : DesiredAgentState) : string :=
  match s with Enabled => "Enabled" | Disabled => "Disabled" | Deleted => "Deleted" end.
Definition ObservedProcessState_debug (s : ObservedProcessState) : string :=
  match s with
  | Starting => "Starting" | Healthy => "Healthy" | Unhealthy => "Unhealthy"
  | Stopping => "Stopping" | Exited => "Exited" | Lost => "Lost"
  end.
Definition ReconcileOutcome_debug (o : ReconcileOutcome) : string :=
  match o with
  | Deferred => "Deferred" | Unchanged => "Unchanged" | Adopted => "Adopted" | Started => "Started"
  | Stopped => "Stopped" | FailedPreflight => "FailedPreflight" | NoPresence => "NoPresence"
  end.
Definition outcome_name (outcome : result ReconcileError ReconcileOutcome) : string * option string :=
  match outcome with
  | Ok Deferred => ("deferred", None)
  | Ok Unchanged => ("unchanged", None)
  | Ok Adopted => ("adopted", None)
  | Ok Started => ("started", None)
  | Ok Stopped => ("stopped", None)
  | Ok FailedPreflight => ("failed_preflight", Some "preflight_failed")
  | Ok NoPresence => ("no_presence", Some "spawn_failed")
  | Err _ => ("error", Some "reconciliation_failed")
  end.
Definition outcome_status (outcome : result ReconcileError ReconcileOutcome)
    : OperationStatus * option ErrorCode :=
  match outcome with
  | Ok (FailedPreflight | NoPresence) => (Failed, Some EC_Internal)
  | Ok _ => (Succeeded, None)
  | Err _ => (Failed, Some EC_Internal)
  end.

Definition with_stamp (stamp : LifecycleStamp) (r : ProcessReceipt) : ProcessReceipt :=
  mkProcessReceipt (pr_launch_id r) (pr_generation r) (pr_agent_id r) (pr_process_group_id r)
    (pr_desired r) (pr_pid r) (pr_started_at_unix_ms r) (pr_process_start_ticks r)
    (pr_command_path r) (pr_observed_state r) (pr_exit_code r) (pr_wait_outcome r)
    (pr_ended_at_unix_ms r) (pr_duration_ms r) (pr_failure r) (pr_app_server_logs r) (Some stamp).

(** ** The launch of an agent *)
Section Launch.
Context `{UuidLib} `{SecretKeys} `{SignerKeys}.
(** The signer works with the same keys. *)
Variable signer_keys : SecretKey → Keys.
Variable config : DaemonConfig.

Definition issue_authorization (community : CommunityConfig) (owner_keys : SecretKey) (agent_pubkey : string)
    : result SignerError string :=
  let conditions := dc_signer_conditions config in
  let? signer := from_owner_keys (signer_keys owner_keys)
    (mkSignerPolicy (cc_id community) (cc_relay_url community) agent_pubkey conditions) in
  let? response := authorize_agent signer
    (mkAuthorizeRequest "authorize_agent" (cc_id community) (cc_relay_url community) agent_pubkey
       conditions) in
  Ok (as_auth_tag response).

Definition authorization_generation (community : CommunityConfig) (owner_keys agent_keys : SecretKey)
    : string :=
  secret_generation
    (String.append "owner=" (String.append (public_key_hex owner_keys)
    (String.append "|community=" (String.append (CommunityConfigId_to_string (cc_id community))
    (String.append "|relay=" (String.append (url_as_str (cc_relay_url community))
    (String.append "|agent=" (String.append (public_key_hex agent_keys)
    (String.append "|conditions=" (dc_signer_conditions config)))))))))).

Definition with_environments (env : gmap string string) (secrets : gmap string SecretRef)
    (l : LaunchSpec) : LaunchSpec :=
  mkLaunchSpec (ls_launch_id l) (ls_agent_id l) (ls_role l) (ls_harness l) (ls_harness_arguments l)
    (ls_runtime l) env secrets (ls_working_directory l) (ls_workspace_path l)
    (ls_runtime_path l) (ls_process_group_id l) (ls_restart l) (ls_health l).

Definition dynamic_launch (resolved : ResolvedAgentConfig) (community : CommunityConfig)
    (layout : AgentFilesystemLayout) (agent_user : string) (owner_keys agent_keys : SecretKey)
    : result DaemonError LaunchSpec :=
  let? workspace := path_string (lay_workspace layout) in
  let? runtime := path_string (lay_runtime layout) in
  let? launch := map_err DaemonLaunch (resolve_local (rac_spec resolved) (dc_runtime_catalog config)
    (mkLocalLaunchContext (lay_launch_id layout) (dc_harness config) (dc_harness_arguments config)
       workspace workspace runtime (lay_launch_id layout) (dc_restart config) (dc_health config))) in
  let launch := with_environments
    (<[HARNESS_RELAY_URL_ENV := url_as_str (cc_relay_url community)]> (ls_environment launch))
    (<[HARNESS_AUTH_TAG_ENV := mkSecretRef INTERNAL_AUTHORIZATION_REFERENCE
         (Some (authorization_generation community owner_keys agent_keys))]>
       (<[HARNESS_PRIVATE_KEY_ENV := mkSecretRef INTERNAL_AGENT_KEY_REFERENCE
            (Some (secret_generation (to_secret_hex agent_keys)))]> (ls_secret_environment launch)))
    launch in
  let launch := apply_resolved_agent_environment resolved launch in
  let launch := with_environments
    (<["BUZZ_SERVER_FILESYSTEM_USER" := agent_user]> (ls_environment launch))
    (ls_secret_environment launch) launch in
  let? _ := map_err (λ e, DaemonLaunch (LRE_Validation e)) (LaunchSpec_validate launch) in
  Ok launch.
End Launch.

Section Worker.
Context `{UuidLib} `{NostrLib} `{SignerKeys} `{BuzzKinds} `{DocumentJson} `{ReceiptJson}.
Context {R : Type} `{Outside R} `{LocalSupervisor R}.
Variable signer_keys : SecretKey → Keys.
(** Clock readings in seconds and in milliseconds, UUIDs, temporary names and generated keys,
    draw by draw; the daemon's environment. *)
Variables (time millis : nat → Z) (uuid_at : nat → Z) (temp_at : nat → string).
Variable generated : nat → SecretKey.
Variable var : string → option string.
Variable context : ReconcileContext.
#[local] Notation W := (World (DaemonFx R)).
#[local] Notation D := (M W DaemonError).

Definition dio {A} (m : IO A) : D A := on (S := Fs) (M_map_err DaemonIo m).
Definition dfiles {A} (m : FileM A) : D A := on (S := Fs) (M_map_err DaemonAgentFile m).
Definition dcustody {A} (m : CustodyM A) : D A := on (S := Fs) (M_map_err DaemonCustody m).
Definition found {A} (o : option A) : D A := of_result (ok_or (DaemonStorage StNotFound) o).
Definition clock_millis {E} : M W E Z := λ w,
  (Ok (millis (w_clock w)), mkWorld (w_db w) (w_fx w) (w_generation w) (S (w_clock w)) (w_draws w)).

(** ** The interfaces the reconciler works with *)
Definition put_receipt_file (receipts : ReceiptFile) (receipt : ProcessReceipt) : M W StorageError unit :=
  now ← clock_millis; on (S := Fs) (write_receipt receipts now receipt).
Definition daemon_agents : AgentRepository W := {| repo_get_agent id := db_read (get_agent id) |}.
Definition daemon_receipts (receipts : ReceiptFile) : ProcessReceiptRepository W := {|
  get_receipt id := on (S := Fs) (read_receipt receipts id);
  put_receipt := put_receipt_file receipts;
  delete_receipt _ := on (S := Fs) (remove_receipt receipts)
|}.
Definition daemon_supervisor (secrets : EnvironmentSecrets) : ProcessSupervisor W := {|
  sup_start l := on (S := Fs * R) (local_start l (resolve_secret var secrets));
  sup_inspect r := on (S := Fs * R) (local_inspect r);
  sup_stop r := on (S := Fs * R) (local_stop r)
|}.
Definition run_reconciler (receipts : ReceiptFile) (secrets : EnvironmentSecrets) (agent_id : AgentId)
    (operation : DurableOperation) (launch : LaunchSpec)
    : D (result ReconcileError ReconcileOutcome) := λ w,
  let '(outcome, w) := @reconcile W daemon_agents (daemon_receipts receipts) (daemon_supervisor secrets)
                         agent_id operation (Some launch) w in
  (Ok outcome, w).

(** ** One operation *)
Definition community_owner_keys (community : CommunityConfig) : D SecretKey :=
  pubkey ← of_result (ok_or (InvalidConfig "community has no associated identity")
                        (cc_identity_pubkey community));
  state ← of_result (state_parent (rc_config context));
  on (S := Fs) (M_map_err (λ e, match e with
                                | IdentityIo e => DaemonIo e
                                | IdentityUnparsed | IdentityMismatch => InvalidOwnerSecret
                                end) (identity_keys (join state "community-identities") pubkey)).

(** The agent's document, resolved and stored, and its community. *)
Definition refresh_agent (agent_id : AgentId)
    : D (AgentConfigFile * ResolvedAgentConfig * CommunityConfig) :=
  let files := rc_agent_files context in
  cached ← db_read (get_agent agent_id);
  cached_agent ← found cached;
  tmp ← next_temp temp_at;
  _ ← dfiles (ensure_agent_file files tmp cached_agent);
  file ← dfiles (load_agent files agent_id);
  resolved ← dfiles (resolve files file (spec_community cached_agent) (spec_desired_state cached_agent));
  now ← clock_now time;
  _ ← dstore (put_agent (rac_spec resolved) now);
  community ← db_read (get_community (spec_community (rac_spec resolved)));
  community ← found community;
  mret (file, resolved, community).

(** The directories, and the account the process will run as. *)
Definition prepare_directories (agent_id : AgentId) (configured_user : option string)
    (layout : AgentFilesystemLayout) : D string :=
  state_root ← of_result (ok_or (InvalidConfig "agent receipt path has no parent")
                            (parent (lay_receipt layout)));
  _ ← dio (create_dir_all state_root);
  account ← on (S := Fs) (ensure_agent_user configured_user
                            (fs_user (dc_default_filesystem (rc_config context))));
  let '(agent_user, (uid, gid), agent_home) := account in
  _ ← dio (chown state_root 0);
  _ ← dio (set_permissions state_root 456 (* 0o710 *));
  _ ← forM_ (λ directory, _ ← dio (create_dir_all directory);
                          _ ← dio (chown_tree directory uid);
                          dio (set_permissions directory 504 (* 0o770 *)))
        [lay_workspace layout; lay_runtime layout; join (lay_runtime layout) "tmp"];
  groups ← on (S := Fs) (resolve_user_groups agent_user gid);
  _ ← on (S := R) (M_map_err DaemonSupervisor
        (set_agent_identity agent_id (mkProcessIdentity uid gid groups agent_home)));
  mret agent_user.

(** Publish a projection and record it, or queue its publication. *)
Definition project (kind : RelayProjectionKind) (action : RelayPublicationAction) (subject : string)
    (scope : RelayProjectionScope) (m : ProjectionM (R := R) unit) : D unit := λ w,
  match on (S := R) m w with
  | (Ok _, w) => M_map_err DaemonStorage (record_projection time kind subject scope) w
  | (Err _, w) =>
    (_ ← M_map_err DaemonStorage (enqueue_publication time uuid_at action scope subject);
     modify wake_publications) w
  end.
Definition publish_agent (agent_id : AgentId) (file : AgentConfigFile) (resolved : ResolvedAgentConfig)
    (community : CommunityConfig) (owner_keys agent_keys : SecretKey) : D unit :=
  let url := cc_relay_url community in
  _ ← modify (ignore (on (S := R) (sync_agent_profile url owner_keys agent_keys file)));
  _ ← project ManagedAgent SyncManagedAgent (AgentId_to_string agent_id)
        (projection_scope community owner_keys (public_key_hex agent_keys))
        (sync_managed_agent_projection url owner_keys agent_keys resolved);
  match rac_persona_id resolved with
  | Some persona_id =>
    persona ← dfiles (load_persona (rc_agent_files context) persona_id);
    project Persona SyncPersona (pd_id persona)
      (projection_scope community owner_keys (persona_d_tag (pd_id persona)))
      (sync_persona url owner_keys persona)
  | None => mret tt
  end.

Definition stamp_receipt_lifecycle (receipts : ReceiptFile) (agent_id : AgentId) (actor : string)
    (decision : option string) : D unit :=
  receipt ← on (S := Fs) (M_map_err DaemonStorage (read_receipt receipts agent_id));
  match receipt with
  | None => mret tt
  | Some receipt =>
    now ← clock_millis;
    M_map_err DaemonStorage (put_receipt_file receipts
      (with_stamp (mkLifecycleStamp actor (default "failed" decision) now (pr_observed_state receipt)
                     (pr_observed_state receipt)) receipt))
  end.

(** The journal and the receipt say what the reconciliation did. *)
Definition record_outcome (finish_operation : bool) (operation : OperationResource) (agent_id : AgentId)
    (desired : DesiredAgentState) (launch_id : string) (receipts : ReceiptFile)
    (outcome : result ReconcileError ReconcileOutcome) : D unit :=
  receipt ← on (S := Fs) (M_map_err DaemonStorage (read_receipt receipts agent_id));
  now ← clock_now time;
  _ ← dstore (append_reconciliation_journal (mkReconciliationJournalEntry now
        (if finish_operation then "operation" else "startup") (Some (or_id operation))
        (Some (or_correlation_id operation)) (Some agent_id) (Some launch_id) "reconcile_desired"
        (Some (DesiredAgentState_debug desired))
        ((λ r, ObservedProcessState_debug (pr_observed_state r)) <$> receipt)
        (outcome_name outcome).1 (outcome_name outcome).2 (pr_pid <$> receipt)
        (receipt ≫= pr_process_start_ticks) (receipt ≫= pr_command_path) (receipt ≫= pr_exit_code)
        (Some (if finish_operation then "complete_operation" else "startup_result"))));
  stamp_receipt_lifecycle receipts agent_id "cli"
    (match outcome with Ok o => Some (ReconcileOutcome_debug o) | Err _ => None end).

(** After a successful purge: the tombstones are queued, then the artifacts go. *)
Definition remove_artifacts (layout : AgentFilesystemLayout) (agent_id : AgentId) : M Fs DaemonError unit :=
  _ ← M_map_err DaemonIo (purge_agent_paths (lay_workspace layout) (lay_runtime layout)
        (dc_log_directory (rc_config context)) (lay_launch_id layout));
  _ ← M_map_err DaemonCustody (purge (rc_custody context) agent_id);
  M_map_err DaemonAgentFile (remove_agent (rc_agent_files context) agent_id).
Definition removal_status (layout : AgentFilesystemLayout) (agent_id : AgentId)
    : D (OperationStatus * option ErrorCode) := λ w,
  match on (S := Fs) (remove_artifacts layout agent_id) w with
  | (Ok _, w) => (Ok (Succeeded, None), w)
  | (Err _, w) => (Ok (Failed, Some EC_Internal), w)
  end.
Definition purge_agent_artifacts (layout : AgentFilesystemLayout) (agent_id : AgentId)
    (community : CommunityConfig) (owner_keys agent_keys : SecretKey)
    : D (OperationStatus * option ErrorCode) :=
  let scope := projection_scope community owner_keys (public_key_hex agent_keys) in
  _ ← M_map_err DaemonStorage (enqueue_publication time uuid_at TombstoneManagedAgent scope
                                 (AgentId_to_string agent_id));
  _ ← M_map_err DaemonStorage (enqueue_publication time uuid_at ArchiveIdentity scope
                                 (AgentId_to_string agent_id));
  _ ← modify wake_publications;
  removal_status layout agent_id.

Definition finish_reconciliation (finish_operation : bool) (operation : OperationResource) (agent_id : AgentId)
    (status : OperationStatus) (error_code : option ErrorCode) : D unit :=
  if finish_operation
  then M_map_err DaemonApplication (complete_operation time (or_id operation) status error_code)
  else if bool_decide (status = Failed)
  then throw (Task (String.append "startup reconciliation failed for dynamic agent "
                      (String.append (AgentId_to_string agent_id) ": Some(Internal)")))
  else mret tt.

Definition reconcile_dynamic_lifecycle_operation (operation : OperationResource) (finish_operation : bool)
    : D unit :=
  let config := rc_config context in
  agent_id ← found (or_agent_id operation);
  refreshed ← refresh_agent agent_id;
  let '(file, resolved, community) := refreshed in
  layout ← of_result (dynamic_agent_layout config agent_id);
  agent_user ← prepare_directories agent_id (fs_user (rac_filesystem resolved)) layout;
  n ← draw_index;
  tmp ← next_temp temp_at;
  identity ← dcustody (provision (rc_custody context) agent_id (generated n) tmp);
  agent_keys ← dcustody (load (rc_custody context) agent_id);
  owner_keys ← community_owner_keys community;
  _ ← publish_agent agent_id file resolved community owner_keys agent_keys;
  authorization ← of_result (map_err DaemonSigner
                    (issue_authorization signer_keys config community owner_keys (ci_public_key identity)));
  launch ← of_result (dynamic_launch config resolved community layout agent_user owner_keys agent_keys);
  let receipts := ReceiptFile_new (lay_receipt layout) in
  outcome ← run_reconciler receipts
              (mkEnvironmentSecrets authorization (Some (to_secret_hex agent_keys))) agent_id
              (store_operation operation) launch;
  _ ← record_outcome finish_operation operation agent_id (spec_desired_state (rac_spec resolved))
        (ls_launch_id launch) receipts outcome;
  let '(status, error_code) := outcome_status outcome in
  ended ← (if bool_decide (status = Succeeded) && bool_decide (or_kind operation = PurgeAgent)
           then purge_agent_artifacts layout agent_id community owner_keys agent_keys
           else mret (status, error_code));
  finish_reconciliation finish_operation operation agent_id ended.1 ended.2.

Definition reconcile_lifecycle_operation (operation_id : OperationId) : D unit :=
  operation ← M_map_err DaemonApplication (app_get_operation operation_id);
  _ ← (if bool_decide (or_status operation = Pending)
       then M_map_err DaemonApplication (start_operation time operation_id) else mret tt);
  durable ← M_map_err DaemonApplication (app_get_operation operation_id);
  if negb (bool_decide (or_status durable = Running)) then mret tt
  else reconcile_dynamic_lifecycle_operation durable true.

(** The terminal state of an operation whose reconciliation failed. The statements of the
    database are executed here; when one fails with an I/O error the code prints that the
    terminal state was not persisted and goes on. *)
Definition fail_operation (operation_id : OperationId) : App (DaemonFx R) unit :=
  operation ← app_get_operation operation_id;
  if OperationStatus_is_terminal (or_status operation) then mret tt
  else
  _ ← (if bool_decide (or_status operation = Pending) then start_operation time operation_id else mret tt);
  complete_operation time operation_id Failed (Some EC_Internal).

Definition reconcile_operation_contained (operation_id : OperationId) (w : W) : W :=
  let w := ignore (started_at ← clock_now time;
                   stored_step (append_reconciliation_journal (mkReconciliationJournalEntry started_at
                     "operation" (Some operation_id) None None None "worker_received" None None
                     "started" None None None None None (Some "reconcile_operation")))) w in
  match reconcile_lifecycle_operation operation_id w with
  | (Ok _, w) => w
  | (Err _, w) => ignore (fail_operation operation_id) w
  end.

(** ** Agents at startup *)
Definition reconcile_startup_agent (agent_id : AgentId) : D unit :=
  agent ← db_read (get_agent agent_id);
  agent ← found agent;
  let kind := match spec_desired_state agent with
              | Enabled => EnableAgent | Disabled => DisableAgent | Deleted => DeleteAgent
              end in
  u ← next_uuid uuid_at;
  created ← clock_now time;
  updated ← clock_now time;
  let correlation := String.append "startup:" (AgentId_to_string (spec_id agent)) in
  let startup := mkOperationResource (mkOperationId u) kind Running (Some (spec_id agent)) correlation
                   None created updated in
  now ← clock_now time;
  _ ← dstore (append_reconciliation_journal (mkReconciliationJournalEntry now "startup"
        (Some (or_id startup)) (Some correlation) (Some agent_id)
        (Some (String.append "agent-" (AgentId_to_string agent_id))) "startup_reconcile"
        (Some (DesiredAgentState_debug (spec_desired_state agent))) None "started" None None None None
        None (Some "reconcile_desired")));
  reconcile_dynamic_lifecycle_operation startup false.

(** What [main] does before the servers run: operations that are not finished and every agent
    are handed to the worker. *)
Definition hand_to_worker (work : ReconcileWork) : D unit := λ w,
  let '(sent, w) := send_work work w in
  (if (sent : bool) then Ok tt else Err (Task "reconciliation worker stopped"), w).
Definition restore_agent (agent : AgentSpec) : D unit :=
  let files := rc_agent_files context in
  tmp ← next_temp temp_at;
  _ ← dfiles (ensure_agent_file files tmp agent);
  file ← dfiles (load_agent files (spec_id agent));
  resolved ← dfiles (resolve files file (spec_community agent) (spec_desired_state agent));
  now ← clock_now time;
  _ ← dstore (put_agent (rac_spec resolved) now);
  hand_to_worker (WorkStartupAgent (spec_id agent)).
Definition restore_work : D unit :=
  operations ← db_read nonterminal_operations;
  _ ← forM_ (λ operation, hand_to_worker (WorkOperation (op_id operation))) operations;
  agents ← db_read (list_agents None);
  forM_ restore_agent agents.

(** ** Observation *)
Definition log_cursor (stream message : string) : string :=
  String.append stream (String.append ":sha256:" (hex_digest (sha256 (bytes_of message)))).
Definition keep_log (agent_id : AgentId) (stream message : string) : D unit :=
  if str_is_empty message then mret tt
  else
  now ← clock_now time;
  dstore (append_redacted_log agent_id (mkRedactedLogEntry (log_cursor stream message) now stream message)).
Definition sync_stream (agent_id : AgentId) (launch_id : string) (stream : string * bool) : D unit := λ w,
  match on (S := Fs * R) (log_tail launch_id stream.2) w with
  | (Ok message, w) => keep_log agent_id stream.1 message w
  | (Err (SupervisorIo error), w) =>
    if kind_is NotFound error then (Ok tt, w) else (Err (DaemonSupervisor (SupervisorIo error)), w)
  | (Err error, w) => (Err (DaemonSupervisor error), w)
  end.
Definition sync_supervisor_logs (agent_id : AgentId) (launch_id : string) : D unit :=
  forM_ (sync_stream agent_id launch_id) [("stdout", false); ("stderr", true)].

Definition observe_receipt (agent_id : AgentId) (layout : AgentFilesystemLayout) (receipts : ReceiptFile)
    (receipt : ProcessReceipt) : D unit :=
  observed ← on (S := Fs * R) (M_map_err DaemonSupervisor (local_inspect receipt));
  now_ms ← clock_millis;
  let observed := with_stamp (mkLifecycleStamp "health_check" "observed" now_ms
                    (pr_observed_state receipt) (pr_observed_state observed)) observed in
  _ ← M_map_err DaemonStorage (put_receipt_file receipts observed);
  now ← clock_now time;
  _ ← dstore (append_health_history (mkHealthHistoryEntry now agent_id (pr_launch_id observed)
        (li_workspace_path (pr_desired observed)) (pr_pid observed) (pr_process_start_ticks observed)
        (pr_command_path observed) (ObservedProcessState_debug (pr_observed_state observed))
        (pr_exit_code observed)));
  sync_supervisor_logs agent_id (lay_launch_id layout).
Definition observe_agent (agent : AgentSpec) : D unit :=
  layout ← of_result (dynamic_agent_layout (rc_config context) (spec_id agent));
  let receipts := ReceiptFile_new (lay_receipt layout) in
  receipt ← on (S := Fs) (M_map_err DaemonStorage (read_receipt receipts (spec_id agent)));
  match receipt with
  | Some receipt => observe_receipt (spec_id agent) layout receipts receipt
  | None => mret tt
  end.
Definition observe_dynamic_agents : D unit :=
  agents ← db_read (list_agents None);
  forM_ observe_agent agents.

Definition cleanup_purged_agent_artifacts : D unit :=
  ids ← db_read list_purged_agent_ids;
  forM_ (λ id, on (S := Fs) (purge_artifacts (rc_config context) (rc_custody context)
                               (rc_agent_files context) id)) ids.

(** ** The loop: what [recv_timeout] returns, turn by turn *)
Inductive Received : Type := ReceivedWork (work : ReconcileWork) | TimedOut | Disconnected.
Definition worker_turn (received : Received) (w : W) : option W :=
  match received with
  | ReceivedWork (WorkOperation id) => Some (reconcile_operation_contained id w)
  | ReceivedWork (WorkStartupAgent id) => Some (ignore (reconcile_startup_agent id) w)
  | ReceivedWork WorkShutdown | Disconnected => None
  | TimedOut => Some (ignore cleanup_purged_agent_artifacts (ignore observe_dynamic_agents w))
  end.
Fixpoint worker_loop (events : list Received) (w : W) : W :=
  match events with
  | [] => w
  | received :: events =>
    match worker_turn received w with Some w => worker_loop events w | None => w end
  end.
End Worker.

(** ** The reconciler keeps whatever its interfaces keep *)
Section Keeps.
Context {W : Type} `{AgentRepository W} `{ProcessReceiptRepository W} `{ProcessSupervisor W}.
Context (Q : W → W → Prop) `{!PreOrder Q}.
Hypothesis keeps_get_agent : ∀ id, always Q (repo_get_agent id).
Hypothesis keeps_get : ∀ id, always Q (get_receipt id).
Hypothesis keeps_put : ∀ r, always Q (put_receipt r).
Hypothesis keeps_delete : ∀ id, always Q (delete_receipt id).
Hypothesis keeps_start : ∀ l, always Q (sup_start l).
Hypothesis keeps_inspect : ∀ r, always Q (sup_inspect r).
Hypothesis keeps_stop : ∀ r, always Q (sup_stop r).

Lemma keeps_start_process l : always Q (start_process l).
Proof.
  intros w. unfold start_process. pose proof (keeps_start l w) as Hs.
  destruct (sup_start l w) as [[started|e] w1]; cbn in Hs; [|by destruct e].
  etrans; [exact Hs|].
  apply (always_bind Q); [apply (always_map_err Q), keeps_put|intros _; apply (always_ret Q)].
Qed.
Lemma keeps_reconcile id operation launch : always Q (reconcile id operation launch).
Proof.
  unfold reconcile, reconcile_desired, ensure_stopped, ensure_started, storage, supervisor. always_steps;
    first [apply keeps_start_process | apply (always_map_err Q); auto].
Qed.
End Keeps.

(** ** Steps of the worker that leave the operations and its queue alone *)
Section CalmWorker.
Context `{UuidLib} `{NostrLib} `{SignerKeys} `{BuzzKinds} `{DocumentJson} `{ReceiptJson}.
Context {R : Type} `{Outside R} `{LocalSupervisor R}.
Variable signer_keys : SecretKey → Keys.
Variables (time millis : nat → Z) (uuid_at : nat → Z) (temp_at : nat → string).
Variable generated : nat → SecretKey.
Variable var : string → option string.
Variable context : ReconcileContext.
#[local] Notation W := (World (DaemonFx R)).
Context (Q : W → W → Prop) `{!Calm Q}.

Lemma calm_clock_millis {E} : always Q (clock_millis (R := R) (E := E) millis).
Proof. intros w. by apply calm_beside. Qed.
Lemma calm_put_agent spec now : always Q (stored_step (R := R) (put_agent spec now)).
Proof. by apply (calm_step Q (CallPutAgent spec now)). Qed.
Lemma calm_journal entry : always Q (stored_step (R := R) (append_reconciliation_journal entry)).
Proof. by apply (calm_step Q (CallAppendJournal entry)). Qed.
Lemma calm_health_row entry : always Q (stored_step (R := R) (append_health_history entry)).
Proof. by apply (calm_step Q (CallAppendHealth entry)). Qed.
Lemma calm_log agent entry : always Q (stored_step (R := R) (append_redacted_log agent entry)).
Proof. by apply (calm_step Q (CallAppendLog agent entry)). Qed.
Lemma calm_put_receipt receipts receipt : always Q (put_receipt_file (R := R) millis receipts receipt).
Proof. unfold put_receipt_file. always_steps; [apply calm_clock_millis|apply (calm_on Q)]. Qed.

Lemma calm_stream id launch_id stream : always Q (sync_stream (R := R) time id launch_id stream).
Proof.
  intros w. unfold sync_stream. pose proof (calm_on Q (log_tail launch_id stream.2) w) as K.
  destruct (on _ w) as [[message|e] w1]; cbn [snd] in K.
  - etrans; [exact K|]. unfold keep_log, dstore. destruct (str_is_empty message); [reflexivity|].
    apply (always_bind Q); [apply (calm_clock _ Q)|intros now]. apply (always_map_err Q), calm_log.
  - destruct e; try exact K. by destruct (kind_is _ _).
Qed.

Ltac calm_leaves := always_steps;
  first [ apply calm_stream | apply (calm_on Q) | apply (calm_clock _ Q) | apply calm_clock_millis | apply (calm_draw Q) | apply (calm_wake Q)
        | apply (always_map_err Q); first
            [ apply calm_put_receipt | apply calm_put_agent | apply calm_journal | apply calm_health_row
            | apply calm_log ] ].

Lemma calm_refresh id : always Q (refresh_agent (R := R) time temp_at context id).
Proof. unfold refresh_agent, dfiles, found, dstore, next_temp. calm_leaves. Qed.
Lemma calm_directories id user layout : always Q (prepare_directories (R := R) context id user layout).
Proof. unfold prepare_directories, dio. cbn [forM_]. calm_leaves. Qed.
Lemma calm_owner_keys community : always Q (community_owner_keys (R := R) context community).
Proof. unfold community_owner_keys. calm_leaves. Qed.
Lemma calm_project kind action subject scope m :
  always Q (project (R := R) time uuid_at kind action subject scope m).
Proof.
  intros w. unfold project. pose proof (calm_on Q m w) as Hm. destruct (on m w) as [[[]|e] w1]; cbn in Hm.
  - etrans; [exact Hm|]. apply (always_map_err Q), (calm_record _ Q).
  - etrans; [exact Hm|]. apply (always_bind Q); [apply (always_map_err Q), (calm_enqueue _ _ Q)|].
    intros _. apply (calm_wake Q).
Qed.
Lemma calm_publish id file resolved community owner_keys agent_keys :
  always Q (publish_agent (R := R) time uuid_at context id file resolved community owner_keys agent_keys).
Proof.
  unfold publish_agent, dfiles. cbv zeta. apply (always_bind Q).
  { intros w. unfold modify, ignore. cbn [snd]. apply (calm_on Q). }
  intros _. apply (always_bind Q); [apply calm_project|]. intros _.
  destruct (rac_persona_id resolved); [|apply (always_ret Q)].
  apply (always_bind Q); [apply (calm_on Q)|]. intros persona. apply calm_project.
Qed.
Lemma calm_reconciler receipts secrets id operation launch :
  always Q (run_reconciler (R := R) millis var receipts secrets id operation launch).
Proof.
  intros w. unfold run_reconciler.
  pose proof (@keeps_reconcile W daemon_agents (daemon_receipts millis receipts)
    (daemon_supervisor var secrets) Q _ ltac:(intros ? ?; reflexivity) ltac:(intros ?; apply (calm_on Q))
    (calm_put_receipt receipts) ltac:(intros ?; apply (calm_on Q)) ltac:(intros ?; apply (calm_on Q))
    ltac:(intros ?; apply (calm_on Q)) ltac:(intros ?; apply (calm_on Q)) id operation (Some launch) w) as Hk.
  destruct (reconcile id operation (Some launch) w) as [r w1]. exact Hk.
Qed.
Lemma calm_record_outcome fo operation id desired launch_id receipts outcome :
  always Q (record_outcome (R := R) time millis fo operation id desired launch_id receipts outcome).
Proof. unfold record_outcome, stamp_receipt_lifecycle, dstore. calm_leaves. Qed.
Lemma calm_purge layout id community owner_keys agent_keys :
  always Q (purge_agent_artifacts (R := R) time uuid_at context layout id community owner_keys agent_keys).
Proof.
  unfold purge_agent_artifacts. cbv zeta.
  apply (always_bind Q); [apply (always_map_err Q), (calm_enqueue _ _ Q)|intros _].
  apply (always_bind Q); [apply (always_map_err Q), (calm_enqueue _ _ Q)|intros _].
  apply (always_bind Q); [apply (calm_wake Q)|intros _]. intros w. unfold removal_status.
  pose proof (calm_on Q (remove_artifacts context layout id) w) as Hm.
  by destruct (on (remove_artifacts context layout id) w) as [[[]|e] w1].
Qed.

(** Everything but ending the operation. *)
Lemma keeps_dynamic operation finish :
  (∀ status code, finish = true → always Q (complete_operation (F := DaemonFx R) time (or_id operation) status code)) →
  always Q (reconcile_dynamic_lifecycle_operation (R := R) signer_keys time millis uuid_at temp_at
              generated var context operation finish).
Proof.
  intros Hc. unfold reconcile_dynamic_lifecycle_operation, found, dcustody. cbv zeta.
  apply (always_bind Q); [apply (always_of_result Q)|intros agent_id].
  apply (always_bind Q); [apply calm_refresh|intros [[file resolved] community]].
  apply (always_bind Q); [apply (always_of_result Q)|intros layout].
  apply (always_bind Q); [apply calm_directories|intros agent_user].
  apply (always_bind Q); [apply (calm_draw Q)|intros n].
  apply (always_bind Q); [apply (calm_temp _ Q)|intros tmp].
  apply (always_bind Q); [apply (calm_on Q)|intros identity].
  apply (always_bind Q); [apply (calm_on Q)|intros agent_keys].
  apply (always_bind Q); [apply calm_owner_keys|intros owner_keys].
  apply (always_bind Q); [apply calm_publish|intros _].
  apply (always_bind Q); [apply (always_of_result Q)|intros authorization].
  apply (always_bind Q); [apply (always_of_result Q)|intros launch].
  apply (always_bind Q); [apply calm_reconciler|intros outcome].
  apply (always_bind Q); [apply calm_record_outcome|intros _].
  destruct (outcome_status outcome) as [status code].
  apply (always_bind Q).
  { destruct (_ && _); [apply calm_purge|apply (always_ret Q)]. }
  intros [status' code']. unfold finish_reconciliation. destruct finish.
  - by apply (always_map_err Q), Hc.
  - destruct (bool_decide _); [apply (always_throw Q)|apply (always_ret Q)].
Qed.
Lemma calm_startup id :
  always Q (reconcile_startup_agent (R := R) signer_keys time millis uuid_at temp_at generated var context id).
Proof.
  unfold reconcile_startup_agent. cbv zeta.
  apply (always_bind Q); [apply (always_gets Q)|intros agent].
  apply (always_bind Q); [apply (always_of_result Q)|intros spec].
  apply (always_bind Q); [apply (calm_uuid _ Q)|intros u].
  do 3 (apply (always_bind Q); [apply (calm_clock _ Q)|intros ?]).
  apply (always_bind Q); [apply (always_map_err Q), calm_journal|intros _]. by apply keeps_dynamic.
Qed.
Lemma calm_observation : always Q (observe_dynamic_agents (R := R) time millis context).
Proof.
  unfold observe_dynamic_agents. apply (always_bind Q); [apply (always_gets Q)|intros agents].
  apply (always_forM_ Q). intros agent. unfold observe_agent, observe_receipt, sync_supervisor_logs, dstore.
  cbn [forM_]. calm_leaves.
Qed.
Lemma calm_cleanup : always Q (cleanup_purged_agent_artifacts (R := R) context).
Proof.
  unfold cleanup_purged_agent_artifacts. apply (always_bind Q); [apply (always_gets Q)|intros ids].
  apply (always_forM_ Q). intros id. apply (calm_on Q).
Qed.

(** ** Whole turns *)
Section Turns.
Hypothesis keeps_started : ∀ id, always Q (start_operation (F := DaemonFx R) time id).
Hypothesis keeps_completed : ∀ id status code, always Q (complete_operation (F := DaemonFx R) time id status code).
Lemma keeps_contained id (w : W) :
  Q w (reconcile_operation_contained signer_keys time millis uuid_at temp_at generated var context id w).
Proof.
  unfold reconcile_operation_contained. cbv zeta. set (w0 := ignore _ w). transitivity w0.
  { unfold w0, ignore. apply (always_bind Q); [apply (calm_clock _ Q)|intros t; apply calm_journal]. }
  clearbody w0. assert (always Q (reconcile_lifecycle_operation (R := R) signer_keys time millis uuid_at temp_at
    generated var context id)) as K.
  { unfold reconcile_lifecycle_operation.
    apply (always_bind Q); [apply (always_map_err Q), (keep_get_operation Q)|intros operation].
    apply (always_bind Q); [destruct (bool_decide _); [by apply (always_map_err Q)|apply (always_ret Q)]|intros _].
    apply (always_bind Q); [apply (always_map_err Q), (keep_get_operation Q)|intros durable].
    destruct (negb _); [apply (always_ret Q)|]. apply keeps_dynamic. by intros. }
  specialize (K w0). destruct (reconcile_lifecycle_operation _ _ _ _ _ _ _ _ id w0) as [[[]|e] w1]; cbn in K; [done|].
  etrans; [exact K|]. unfold ignore, fail_operation.
  apply (always_bind Q); [apply (keep_get_operation Q)|intros operation].
  destruct (OperationStatus_is_terminal _); [apply (always_ret Q)|].
  apply (always_bind Q); [destruct (bool_decide _); [done|apply (always_ret Q)]|intros _]. apply keeps_completed.
Qed.
Lemma keeps_turn received (w w' : W) :
  worker_turn signer_keys time millis uuid_at temp_at generated var context received w = Some w' → Q w w'.
Proof.
  destruct received as [[id|id|]| |]; cbn [worker_turn]; try done; intros [= <-].
  - apply keeps_contained.
  - apply calm_startup.
  - etrans; [apply calm_observation|apply calm_cleanup].
Qed.
End Turns.
End CalmWorker.

(** ** Every operation that is handed to the worker ends *)
Section Ends.
Context `{UuidLib} `{NostrLib} `{SignerKeys} `{BuzzKinds} `{DocumentJson} `{ReceiptJson}.
Context {R : Type} `{Outside R} `{LocalSupervisor R}.
Variable signer_keys : SecretKey → Keys.
Variables (time millis : nat → Z) (uuid_at : nat → Z) (temp_at : nat → string).
Variable generated : nat → SecretKey.
Variable var : string → option string.
Variable context : ReconcileContext.
#[local] Notation W := (World (DaemonFx R)).

Definition ops_kept (w w' : W) : Prop := t_operations (w_db w') = t_operations (w_db w).
#[export] Instance ops_kept_calm : Calm ops_kept.
Proof.
  split; [split; [done|]| |].
  - intros a b c. unfold ops_kept. congruence.
  - intros w w' Hd _. unfold ops_kept. by rewrite Hd.
  - intros c w Hc. by apply quiet_call_operations.
Qed.

(** The operation [id] has ended, and the others are as they were. *)
Definition ended (id : OperationId) (w w' : W) : Prop :=
  (∃ op, t_operations (w_db w') !! id = Some op ∧ OperationStatus_is_terminal (op_status op) = true)
  ∧ other_statuses id (w_db w) (w_db w').
(** A computation that ends the operation, or fails and leaves all operations alone. *)
Definition ends {E} (id : OperationId) (m : M W E unit) : Prop := ∀ w,
  match m w with (Ok _, w') => ended id w w' | (Err _, w') => ops_kept w w' end.

Lemma other_statuses_kept id (w w1 w' : W) :
  ops_kept w w1 → other_statuses id (w_db w1) (w_db w') → other_statuses id (w_db w) (w_db w').
Proof. intros Hk Ho id' Hne. rewrite (Ho id' Hne). by rewrite Hk. Qed.
Lemma ends_bind {E A} id (m : M W E A) f :
  always ops_kept m → (∀ a, ends id (f a)) → ends id (m ≫= f).
Proof.
  intros Hm Hf w. specialize (Hm w). unfold mbind, M_bind. destruct (m w) as [[a|e] w1]; cbn in Hm; [|done].
  specialize (Hf a w1). destruct (f a w1) as [[[]|e] w2]; [|by etrans].
  destruct Hf as [Ht Ho]. split; [done|]. by eapply other_statuses_kept.
Qed.
Lemma ends_map_err {E F} id (g : E → F) (m : M W E unit) : ends id m → ends id (M_map_err g m).
Proof. intros Hm w. specialize (Hm w). unfold M_map_err. by destruct (m w) as [[[]|e] w1]. Qed.
Lemma ends_complete id status code : ends id (complete_operation (F := DaemonFx R) time id status code).
Proof.
  intros w. pose proof (complete_operation_effect time id status code w) as He.
  destruct (complete_operation time id status code w) as [[[]|e] w']; [|by unfold ops_kept; destruct He as [-> _]].
  destruct He as (Ht & (op & op' & _ & Ho' & _ & Hs) & _ & _ & Hoth).
  split; [|done]. exists op'. by rewrite Hs.
Qed.

Lemma ends_dynamic operation :
  ends (or_id operation) (reconcile_dynamic_lifecycle_operation (R := R) signer_keys time millis uuid_at
    temp_at generated var context operation true).
Proof.
  unfold reconcile_dynamic_lifecycle_operation, found, dcustody. cbv zeta.
  apply ends_bind; [apply (always_of_result ops_kept)|intros agent_id].
  apply ends_bind; [apply (calm_refresh _ _ _ ops_kept)|intros [[file resolved] community]].
  apply ends_bind; [apply (always_of_result ops_kept)|intros layout].
  apply ends_bind; [apply (calm_directories _ ops_kept)|intros agent_user].
  apply ends_bind; [apply (calm_draw ops_kept)|intros n].
  apply ends_bind; [apply (calm_temp _ ops_kept)|intros tmp].
  apply ends_bind; [apply (calm_on ops_kept)|intros identity].
  apply ends_bind; [apply (calm_on ops_kept)|intros agent_keys].
  apply ends_bind; [apply (calm_owner_keys _ ops_kept)|intros owner_keys].
  apply ends_bind; [apply (calm_publish _ _ _ ops_kept)|intros _].
  apply ends_bind; [apply (always_of_result ops_kept)|intros authorization].
  apply ends_bind; [apply (always_of_result ops_kept)|intros launch].
  apply ends_bind; [apply (calm_reconciler _ _ ops_kept)|intros outcome].
  apply ends_bind; [apply (calm_record_outcome _ _ ops_kept)|intros _].
  destruct (outcome_status outcome) as [status code].
  apply ends_bind.
  { destruct (_ && _); [apply (calm_purge _ _ _ ops_kept)|apply (always_ret ops_kept)]. }
  intros [status' code']. apply ends_map_err, ends_complete.
Qed.

Lemma get_operation_run id op (w : W) :
  t_operations (w_db w) !! id = Some op → app_get_operation id w = (Ok (operation_resource op), w).
Proof. intros Ho. unfold app_get_operation, mbind, M_bind, query, gets, get_operation. by rewrite Ho. Qed.
Lemma start_pending id op (w : W) :
  t_operations (w_db w) !! id = Some op → op_status op = Pending →
  ∃ w' op', start_operation time id w = (Ok tt, w') ∧ t_operations (w_db w') !! id = Some op'
    ∧ op_status op' = Running ∧ op_id op' = op_id op ∧ other_statuses id (w_db w) (w_db w').
Proof.
  intros Ho Hs. pose proof (operation_is_claimed_once time id w) as Hc.
  destruct (start_operation time id w) as [[[]|e] w'].
  - destruct Hc as ((o & op' & Ho1 & _ & Ho' & Hs' & Hid) & _ & Hoth). rewrite Ho in Ho1.
    injection Ho1 as <-. by exists w', op'.
  - destruct Hc as [_ Hc]. by destruct (Hc op Ho).
Qed.

#[local] Notation lifecycle := (reconcile_lifecycle_operation (R := R) signer_keys time millis uuid_at
  temp_at generated var context).
#[local] Notation dynamic op := (reconcile_dynamic_lifecycle_operation (R := R) signer_keys time millis
  uuid_at temp_at generated var context (operation_resource op) true).

(** An operation is claimed, or was running, or is over. *)
Lemma lifecycle_run id op (w : W) :
  t_operations (w_db w) !! id = Some op →
  OperationStatus_is_terminal (op_status op) = true ∧ lifecycle id w = (Ok tt, w)
  ∨ ∃ w1 op1, lifecycle id w = dynamic op1 w1 ∧ t_operations (w_db w1) !! id = Some op1
      ∧ op_status op1 = Running ∧ op_id op1 = op_id op ∧ other_statuses id (w_db w) (w_db w1)
      ∧ OperationStatus_is_terminal (op_status op) = false.
Proof.
  intros Ho. unfold reconcile_lifecycle_operation.
  assert (∀ (w' : W) op', t_operations (w_db w') !! id = Some op' →
    M_map_err DaemonApplication (app_get_operation id) w' = (Ok (operation_resource op'), w')) as Hget.
  { intros w' op' Ho'. unfold M_map_err. by rewrite (get_operation_run id op' w' Ho'). }
  rewrite (bind_after _ _ _ _ _ (Hget w op Ho)). cbn [or_status operation_resource].
  destruct (op_status op) eqn:Es.
  3-5: left; split; [done|]; rewrite bool_decide_eq_false_2 by done;
    rewrite (bind_after _ _ _ tt w) by done;
    rewrite (bind_after _ _ _ _ _ (Hget w op Ho)); cbn [or_status operation_resource]; by rewrite Es.
  - right. destruct (start_pending id op w Ho Es) as (w1 & op1 & Hst & Ho1 & Hs1 & Hid & Hoth).
    exists w1, op1. split_and!; try done. rewrite bool_decide_eq_true_2 by done.
    rewrite (bind_after _ _ _ tt w1) by (unfold M_map_err; by rewrite Hst).
    rewrite (bind_after _ _ _ _ _ (Hget w1 op1 Ho1)). cbn [or_status operation_resource]. by rewrite Hs1.
  - right. exists w, op. split_and!; try done. rewrite bool_decide_eq_false_2 by done.
    rewrite (bind_after _ _ _ tt w) by done.
    rewrite (bind_after _ _ _ _ _ (Hget w op Ho)). cbn [or_status operation_resource]. by rewrite Es.
Qed.

(** Failing a running operation. *)
Lemma fail_running id op (w : W) :
  t_operations (w_db w) !! id = Some op → op_status op = Running →
  ended id w (ignore (fail_operation (R := R) time id) w).
Proof.
  intros Ho Hs. unfold ignore, fail_operation.
  rewrite (bind_after _ _ _ _ _ (get_operation_run id op w Ho)). cbn [or_status operation_resource].
  rewrite Hs. cbn [OperationStatus_is_terminal]. rewrite bool_decide_eq_false_2 by done.
  unfold mbind, M_bind, mret, M_ret.
  pose proof (running_can_fail time id (Some EC_Internal) op w Ho Hs) as Hok.
  pose proof (ends_complete id Failed (Some EC_Internal) w) as He.
  destruct (complete_operation time id Failed (Some EC_Internal) w) as [[[]|e] w']; [exact He|done].
Qed.

Lemma contained_ends id op (w : W) :
  t_operations (w_db w) !! id = Some op → op_id op = id →
  let w' := reconcile_operation_contained (R := R) signer_keys time millis uuid_at temp_at generated var
              context id w in
  ended id w w'
  ∧ (OperationStatus_is_terminal (op_status op) = true → t_operations (w_db w') = t_operations (w_db w)).
Proof.
  intros Ho Hid. unfold reconcile_operation_contained. cbv zeta.
  set (w0 := ignore _ w). assert (ops_kept w w0) as K0.
  { unfold w0, ignore. apply (always_bind ops_kept); [apply (calm_clock _ ops_kept)|]. intros t.
    apply (calm_journal ops_kept). }
  assert (t_operations (w_db w0) !! id = Some op) as Ho0 by by rewrite K0. clearbody w0.
  destruct (lifecycle_run id op w0 Ho0) as [[Hterm ->]|(w1 & op1 & -> & Ho1 & Hs1 & Hid1 & Hoth & Hnt)].
  { split; [|done]. split; [by exists op|]. intros id' _. by rewrite K0. }
  split; [|congruence]. pose proof (ends_dynamic (operation_resource op1) w1) as He.
  cbn [or_id operation_resource] in He. rewrite Hid1, Hid in He.
  enough (ended id w1 (match dynamic op1 w1 with
                       | (Ok _, w2) => w2
                       | (Err _, w2) => ignore (fail_operation time id) w2
                       end)) as [Ht Ho2].
  { split; [exact Ht|]. intros id' Hne. rewrite (Ho2 id' Hne), (Hoth id' Hne). by rewrite K0. }
  destruct (dynamic op1 w1) as [[[]|e] w2]; [exact He|]. unfold ops_kept in He.
  assert (t_operations (w_db w2) !! id = Some op1) as Hop2 by by rewrite He.
  destruct (fail_running id op1 w2 Hop2 Hs1) as [Ht Ho2]. split; [exact Ht|].
  intros id' Hne. rewrite (Ho2 id' Hne). by rewrite He.
Qed.
(** An operation that is not there changes nothing. *)
Lemma contained_missing id (w : W) :
  t_operations (w_db w) !! id = None →
  ops_kept w (reconcile_operation_contained (R := R) signer_keys time millis uuid_at temp_at generated var
                context id w).
Proof.
  intros Ho. unfold reconcile_operation_contained. cbv zeta. set (w0 := ignore _ w).
  assert (ops_kept w w0) as K0.
  { unfold w0, ignore. apply (always_bind ops_kept); [apply (calm_clock _ ops_kept)|]. intros t.
    apply (calm_journal ops_kept). }
  assert (app_get_operation id w0 = (Err AppNotFound, w0)) as Hg.
  { unfold app_get_operation, mbind, M_bind, query, gets, get_operation. rewrite K0, Ho. reflexivity. }
  clearbody w0. unfold reconcile_lifecycle_operation, ignore, fail_operation, mbind, M_bind, M_map_err.
  rewrite Hg. cbn. by rewrite Hg.
Qed.

(** C7: As long as the database executes its statements, every operation that is handed to
    the worker ends. Whatever else fails on the way (the agent's documents, its directories,
    its keys, the relay, the signer, the launch, the process, and every refusal of the store
    itself), afterwards the operation has a terminal status, and no other operation has
    changed its status; an operation that was over is left as it was. A statement that fails
    with an I/O error is not part of the model: the code then prints that the terminal state
    was not persisted, and the operation waits for the next start. *)
Theorem handed_operations_end id op (w : W) :
  t_operations (w_db w) !! id = Some op → op_id op = id →
  let w' := reconcile_operation_contained (R := R) signer_keys time millis uuid_at temp_at generated var
              context id w in
  ended id w w'
  ∧ (OperationStatus_is_terminal (op_status op) = true → t_operations (w_db w') = t_operations (w_db w)).
Proof. apply contained_ends. Qed.
End Ends.

(** ** Cleaning up after purges *)
Section Cleaning.
Context `{UuidLib} `{SecretKeys} `{DocumentJson} {R : Type}.
#[local] Notation W := (World (DaemonFx R)).

(** C22: The cleanup of purged agents touches no other agent: with a configuration that was
    accepted (its paths without parent components), every file of an agent that has not been
    purged (anything below its state directory, its key, its document, its logs and what is
    below them) is afterwards there as it was, whatever fails and wherever a removal stops. *)
Theorem cleanup_spares_other_agents config state (w : W) r w' a q n :
  DaemonConfig_validate config = Ok tt → state_parent config = Ok state →
  cleanup_purged_agent_artifacts
    (mkReconcileContext config (custody_of state) (agent_files_of state)) w = (r, w') →
  uuid_ok (agent_uuid a) →
  (∀ b, b ∈ list_purged_agent_ids (w_db w) → uuid_ok (agent_uuid b) ∧ b ≠ a) →
  agent_owns config state a q →
  fs_nodes (fx_fs (w_fx w)) !! q = Some n → fs_nodes (fx_fs (w_fx w')) !! q = Some n.
Proof.
  intros Hv Hs Hr Ha Hids Hq Hn. unfold cleanup_purged_agent_artifacts, mbind, M_bind, db_read, gets in Hr.
  cbn [rc_config rc_custody rc_agent_files] in Hr.
  assert (∀ l (w1 : W) n1, (∀ b, b ∈ l → uuid_ok (agent_uuid b) ∧ b ≠ a) →
    fs_nodes (fx_fs (w_fx w1)) !! q = Some n1 →
    fs_nodes (fx_fs (w_fx (forM_ (λ id, on (S := Fs) (purge_artifacts config (custody_of state)
      (agent_files_of state) id)) l w1).2)) !! q = Some n1) as Hloop.
  { clear -Hv Hs Ha Hq. induction l as [|b l IH]; intros w1 n1 Hl Hn1; [exact Hn1|].
    cbn [forM_]. destruct (Hl b) as [Hb Hne]; [left|]. unfold mbind, M_bind, on at 1.
    pose proof (purge_artifacts_spares config state Hv Hs a b q Ha Hb (not_eq_sym Hne) Hq (part w1)) as Hsp.
    destruct (purge_artifacts config (custody_of state) (agent_files_of state) b (part w1))
      as [[[]|e] s1]; cbn in Hsp; specialize (Hsp ltac:(by eexists)); rewrite Hn1 in Hsp.
    - apply IH; [|exact Hsp]. intros c Hc. apply Hl. by right.
    - exact Hsp. }
  specialize (Hloop _ w n Hids Hn). by rewrite Hr in Hloop.
Qed.
End Cleaning.

(** ** A small daemon *)
#[local] Existing Instances sample_keys sample_nostr.
#[local] Instance worker_kinds : BuzzKinds := {| KIND_MANAGED_AGENT := 30177; KIND_PERSONA := 30175 |}.
#[local] Instance worker_documents : DocumentJson := {|
  agent_to_json _ := "{}"; agent_of_json _ := None; persona_to_json _ := "{}"; persona_of_json _ := None
|}.
#[local] Instance worker_receipts : ReceiptJson := {|
  receipt_to_json _ := "{}"; receipt_of_json _ := None; revision_to_json _ _ := "{}"
|}.
#[local] Instance worker_signer : SignerKeys := {
  Keys := string; PublicKey := string; public_key := String.append "public-"; to_hex := id;
  PublicKey_from_str := Some;
  compute_auth_tag owner agent conditions := Some (String.append owner (String.append ">" agent))
}.
#[local] Instance worker_outside : Outside unit := {|
  build_client := mret tt;
  send_request := λ _, mret (mkHttpResponse 200 (Ok "{}"));
  draw_uuid := λ w, ("nonce", w); timestamp := λ w, (7, w)
|}.
#[local] Instance worker_supervisor : LocalSupervisor unit := {|
  set_agent_identity _ _ := mret tt; local_start _ _ := throw SecretResolution;
  local_inspect r := mret r; local_stop r := mret r; log_tail _ _ := mret EmptyString
|}.

Definition daemon_config : DaemonConfig := sample_config "/var/lib/buzz-server".
Definition daemon_state : Path := path_of_string "/var/lib/buzz-server".
Definition daemon_context : ReconcileContext :=
  mkReconcileContext daemon_config (custody_of daemon_state) (agent_files_of daemon_state).
Definition daemon_world (db : Db) (fs : Fs) : World (DaemonFx unit) :=
  mkWorld db (mkDaemonFx fs () (mkChannel true []) (mkChannel true []) (mkChannel true [])) 0 0 0.

(** An operation whose agent is gone ends, as failed. *)
Definition lost_operation : DurableOperation :=
  mkDurableOperation (mkOperationId 5) EnableAgent Pending (Some (mkAgentId 7)) None 1 1 "corr".
Lemma handed_operations_end_witness :
  let w := daemon_world (set_t_operations {[mkOperationId 5 := lost_operation]} empty_db) (mkFs ∅ [] 0) in
  let w' := reconcile_operation_contained (λ k, k) sample_time sample_time sample_uuid (λ _, "tmp")
              (λ _, "key") (λ _, None) daemon_context (mkOperationId 5) w in
  ended (mkOperationId 5) w w'
  ∧ op_status <$> t_operations (w_db w') !! mkOperationId 5 = Some Failed.
Proof.
  intros w w'. split; [|vm_compute; reflexivity].
  exact (proj1 (handed_operations_end (R := unit) (λ k, k) sample_time sample_time sample_uuid
    (λ _, "tmp") (λ _, "key") (λ _, None) daemon_context (mkOperationId 5) lost_operation w
    eq_refl eq_refl)).
Defined.

(** A purged agent next to one that is not. *)
Definition kept_file : Path :=
  join (join (agent_state_root daemon_state (mkAgentId 1)) "workspace") "notes".
Definition purged_file : Path :=
  join (join (agent_state_root daemon_state (mkAgentId 2)) "workspace") "notes".
Definition cleanup_world : World (DaemonFx unit) :=
  daemon_world
    (set_t_tombstones {[mkAgentId 2 := mkTombstoneRow 9 (mkOperationId 5)]} empty_db)
    (mkFs {[ kept_file := mkNode RegularFile 420 901 "kept";
             join (agent_state_root daemon_state (mkAgentId 2)) "workspace" := mkNode Directory 504 901 "";
             purged_file := mkNode RegularFile 420 901 "gone" ]} [] 0).
Lemma cleanup_spares_other_agents_witness :
  let run := cleanup_purged_agent_artifacts daemon_context cleanup_world in
  fs_nodes (fx_fs (w_fx run.2)) !! purged_file = None
  ∧ fs_nodes (fx_fs (w_fx run.2)) !! kept_file = Some (mkNode RegularFile 420 901 "kept").
Proof.
  intros run. split; [vm_compute; reflexivity|].
  apply (cleanup_spares_other_agents daemon_config daemon_state cleanup_world run.1 run.2 (mkAgentId 1)).
  - vm_compute. reflexivity.
  - vm_compute. reflexivity.
  - exact (surjective_pairing run).
  - vm_compute. split; [discriminate|reflexivity].
  - assert (list_purged_agent_ids (w_db cleanup_world) = [mkAgentId 2]) as -> by (vm_compute; reflexivity).
    intros b ->%list_elem_of_singleton. split; [|discriminate].
    vm_compute. split; [discriminate|reflexivity].
  - apply owns_state. vm_compute. reflexivity.
  - vm_compute. reflexivity.
Defined.

(** An agent's community and directories. *)
Definition worker_community : CommunityConfig :=
  mkCommunityConfig (mkCommunityConfigId 1) "c" sample_relay (Some "public-owner").
Definition worker_layout : AgentFilesystemLayout :=
  mkLayout (join (agent_state_root daemon_state (mkAgentId 7)) "process-receipt.json")
    (join (agent_state_root daemon_state (mkAgentId 7)) "workspace")
    (join (agent_state_root daemon_state (mkAgentId 7)) "runtime") (launch_id_of (mkAgentId 7)).

(** ** Two places where the daemon is not confined *)
(** The reconciliation of agents reads a community's key from the persistent store; every
    other reader uses the materialisation under the runtime directory. A key that is
    materialised only (its custody is KMS or the keyring) is found by the effects and not by
    the reconciliation. *)
Definition materialised_only : Fs :=
  mkFs {[ identity_file (mkPath true ["run"; "buzz-server"; "community-identities"]) "public-owner"
            := mkNode RegularFile 384 0 "owner" ]} [] 0.
Theorem owner_keys_are_read_from_the_store :
  let wake := mkLifecycleWake (mkPath true ["run"; "buzz-server"; "community-identities"])
                (join daemon_state "community-identities") (agent_files_of daemon_state)
                (custody_of daemon_state) in
  let w := daemon_world empty_db materialised_only in
  (owner_keys_for_community wake worker_community w).1 = Ok ("owner" : string)
  ∧ (community_owner_keys daemon_context worker_community w).1 = Err (DaemonIo not_found).
Proof. vm_compute. split; reflexivity. Qed.

(** Handing a directory over leaves links alone, but the permissions that are set afterwards
    follow them: when the agent has replaced its own [runtime/tmp] by a link to another
    agent's state directory, preparing its directories opens that one to the group. *)
Definition other_state : Path := agent_state_root daemon_state (mkAgentId 8).
Definition linked_tmp : Fs :=
  mkFs {[ PASSWD := mkNode RegularFile 420 0 "buzz-agent:x:901:901::/home/buzz-agent:/bin/sh";
          GROUPS := mkNode RegularFile 420 0 "buzz-agent:x:901:";
          other_state := mkNode Directory 456 (* 0o710 *) 0 "";
          join (lay_runtime worker_layout) "tmp" := mkNode (Symlink other_state) 511 901 "" ]} [] 0.
Theorem permissions_follow_links :
  let run := prepare_directories daemon_context (mkAgentId 7) None worker_layout
               (daemon_world empty_db linked_tmp) in
  run.1 = Ok "buzz-agent"
  ∧ n_mode <$> fs_nodes (fx_fs (w_fx run.2)) !! other_state = Some 504 (* 0o770 *).
Proof. vm_compute. split; reflexivity. Qed.
