(* ===== verification/Launching.v ===== *)
(** * What the worker launches (main.rs, [reconcile_dynamic_lifecycle_operation])
    Reconciling an agent with every start that is asked of the supervisor written down, and
    the account that is set for the agent by then: at most one process is started, from the
    agent's own row, directories, key, account and authorization. *)
From Stdlib Require Import ZArith Lia String Ascii.
From stdpp Require Import base gmap list strings.
From S2P Require Import Prelude RustStr Ids Signer Lifecycle Agent Runtime Launch Auth ApiTypes Bytes.
From S2P Require Import Schema Storage StoreInv Sha256 Monad Application AppProps AppCommands Fs Reconcile.
From S2P Require Import AgentFiles Custody Nostr RelayProjection CommunityJoin Daemon Receipts Wake.
From S2P Require Import Publications AgentTree LogCapture Process Supervisor Worker.
#[local] Open Scope Z_scope.
#[local] Set Warnings "-notation-for-abbreviation".

(** ** A supervisor whose starts are recorded *)
(** A start that was asked for: the launch, the secrets it may resolve, and the account that
    was set for its agent. *)
Record Start : Type := mkStart {
  st_launch : LaunchSpec;
  st_secrets : SecretRef → result SupervisorError string;
  st_account : option LocalProcessIdentity
}.
Definition Accounts : Type := gmap AgentId LocalProcessIdentity.
Definition Recorded (R : Type) : Type := R * (Accounts * list Start).
Definition recorded {S R E A} (m : M (S * R) E A) : M (S * Recorded R) E A := λ '(s, (r, log)),
  let '(x, (s, r)) := m (s, r) in (x, (s, (r, log))).
#[export] Instance recorded_outside {R} `{Outside R} : Outside (Recorded R) := {
  build_client := λ '(r, log), let '(x, r) := build_client r in (x, (r, log));
  send_request := λ q '(r, log), let '(x, r) := send_request q r in (x, (r, log));
  draw_uuid := λ '(r, log), let '(x, r) := draw_uuid r in (x, (r, log));
  timestamp := λ '(r, log), let '(x, r) := timestamp r in (x, (r, log))
}.
#[export] Instance recorded_supervisor {R} `{LocalSupervisor R} : LocalSupervisor (Recorded R) := {
  set_agent_identity := λ id i '(r, (accounts, log)),
    let '(x, r) := set_agent_identity id i r in
    (x, (r, (match x with Ok _ => <[id := i]> accounts | Err _ => accounts end, log)));
  local_start := λ l secrets '(s, (r, (accounts, log))),
    let '(x, (s, r)) := local_start l secrets (s, r) in
    (x, (s, (r, (accounts, log ++ [mkStart l secrets (accounts !! ls_agent_id l)]))));
  local_inspect := λ receipt, recorded (local_inspect receipt);
  local_stop := λ receipt, recorded (local_stop receipt);
  log_tail := λ launch_id stderr, recorded (log_tail launch_id stderr)
}.

(** ** The launch itself *)
Section Launch.
Context `{UuidLib} `{SecretKeys} `{SignerKeys}.
Variable signer_keys : SecretKey → Keys.

(** What the harness of the agent [id] is started with. *)
Definition launched_for (id : AgentId) (community : CommunityConfig) (layout : AgentFilesystemLayout)
    (user : string) (agent_keys : SecretKey) (tag : string) (launch : LaunchSpec)
    (secrets : SecretRef → result SupervisorError string) : Prop :=
  let secret key := ls_secret_environment launch !! key ≫= λ reference, result_ok (secrets reference) in
  LaunchSpec_validate launch = Ok tt
  ∧ ls_agent_id launch = id ∧ ls_launch_id launch = lay_launch_id layout
  ∧ path_string (lay_workspace layout) = Ok (ls_working_directory launch)
  ∧ path_string (lay_workspace layout) = Ok (ls_workspace_path launch)
  ∧ path_string (lay_runtime layout) = Ok (ls_runtime_path launch)
  ∧ ls_environment launch !! HARNESS_RELAY_URL_ENV = Some (url_as_str (cc_relay_url community))
  ∧ ls_environment launch !! "BUZZ_SERVER_FILESYSTEM_USER" = Some user
  ∧ secret HARNESS_PRIVATE_KEY_ENV = Some (to_secret_hex agent_keys)
  ∧ secret HARNESS_AUTH_TAG_ENV = Some tag
  ∧ ls_environment launch !! HARNESS_PRIVATE_KEY_ENV = None
  ∧ ls_environment launch !! HARNESS_AUTH_TAG_ENV = None.
Lemma resolve_local_fields agent catalog c l :
  resolve_local agent catalog c = Ok l →
  ls_agent_id l = spec_id agent ∧ ls_launch_id l = llc_launch_id c
  ∧ ls_working_directory l = llc_working_directory c ∧ ls_workspace_path l = llc_workspace_path c
  ∧ ls_runtime_path l = llc_runtime_path c.
Proof.
  unfold resolve_local. intros Hr. do 3 (step_in Hr). unfold from_runtime_entry in Hr. cbv zeta in Hr.
  destruct (existsb _ _); [done|]. destruct (artifact_identity _) as [package_id sha256].
  do 2 (step_in Hr). injection Hr as <-. done.
Qed.
Lemma authorize_tag config community owner agent_pubkey tag :
  issue_authorization signer_keys config community owner agent_pubkey = Ok tag →
  ∃ pk, PublicKey_from_str agent_pubkey = Some pk ∧ public_key (signer_keys owner) ≠ pk
    ∧ compute_auth_tag (signer_keys owner) pk (dc_signer_conditions config) = Some tag.
Proof.
  unfold issue_authorization, from_owner_keys, authorize_agent. cbv zeta. cbn [sp_agent_pubkey].
  destruct (PublicKey_from_str agent_pubkey) as [pk|] eqn:Ep; cbn [ok_or]; [|done].
  destruct (bool_decide (public_key (signer_keys owner) = pk)) eqn:Ek; cbn [negb]; [done|].
  apply bool_decide_eq_false in Ek. cbn [ds_policy sp_community_config_id sp_relay_url sp_agent_pubkey
    sp_conditions ar_action ar_community_config_id ar_relay_url ar_agent_pubkey ar_conditions ds_owner_keys].
  rewrite !bool_decide_eq_true_2, !String.eqb_refl by done. cbn. rewrite Ep. cbn.
  destruct (compute_auth_tag _ _ _) as [t|] eqn:Et; cbn; [|done]. intros [= <-]. by exists pk.
Qed.

(** The launch is for this agent and in the directories of the layout; it tells the relay and
    the account; the harness gets the key and the authorization as secrets, and in no other
    way. *)
Lemma dynamic_launch_fields config resolved community layout user owner agent tag launch var :
  dynamic_launch config resolved community layout user owner agent = Ok launch →
  launched_for (spec_id (rac_spec resolved)) community layout user agent tag launch
    (resolve_secret var (mkEnvironmentSecrets tag (Some (to_secret_hex agent)))).
Proof.
  intros Hl. unfold launched_for. unfold dynamic_launch in Hl. cbv zeta in Hl.
  destruct (path_string (lay_workspace layout)) as [workspace|e]; [|done].
  destruct (path_string (lay_runtime layout)) as [runtime|e]; [|done].
  destruct (resolve_local _ _ _) as [base|e] eqn:Eb; cbn [map_err] in Hl; [|done].
  apply resolve_local_fields in Eb as (Ba & Bl & Bw & Bws & Br).
  set (first := with_environments _ _ base) in Hl.
  destruct (resolved_environment_is_complete resolved first) as (_ & _ & _ & _ & Henv & _ & Hsec & _).
  set (second := apply_resolved_agent_environment resolved first) in *.
  set (final := with_environments _ _ second) in Hl.
  destruct (LaunchSpec_validate final) as [[]|e] eqn:Ev; cbn [map_err] in Hl; [|done].
  injection Hl as <-.
  assert (∀ key reference, ls_secret_environment final !! key = Some reference →
          ls_environment final !! key = None) as Hplain.
  { intros key reference Hk. destruct (ls_environment final !! key) as [v|] eqn:E; [|done].
    apply launch_validate_steps in Ev as (_ & _ & _ & _ & _ & _ & _ & _ & _ & Hve & _).
    rewrite validate_launch_environment_ok in Hve. destruct (Hve key v E) as (_ & _ & Hn). congruence. }
  assert (ls_secret_environment final = ls_secret_environment first) as Hs by exact Hsec.
  assert (is_Some (ls_secret_environment final !! HARNESS_PRIVATE_KEY_ENV)
    ∧ is_Some (ls_secret_environment final !! HARNESS_AUTH_TAG_ENV)) as [[k Hk] [t Ht]].
  { rewrite Hs. unfold first. cbn [ls_secret_environment with_environments].
    rewrite lookup_insert_ne, !lookup_insert_eq by done. split; by eexists. }
  cbv zeta. split_and!; [exact Ev|exact Ba|exact Bl|exact (f_equal Ok (eq_sym Bw))|exact (f_equal Ok (eq_sym Bws))|exact (f_equal Ok (eq_sym Br))
    | | | | |by eapply Hplain|by eapply Hplain].
  - unfold final. cbn [ls_environment with_environments]. rewrite lookup_insert_ne by done.
    rewrite Henv by (unfold managed_environment_keys; rewrite !not_elem_of_cons; split_and!; done || apply not_elem_of_nil).
    unfold first. cbn [ls_environment with_environments]. by rewrite lookup_insert_eq.
  - unfold final. cbn [ls_environment with_environments]. by rewrite lookup_insert_eq.
  - rewrite Hs. unfold first. cbn [ls_secret_environment with_environments].
    by rewrite lookup_insert_ne, lookup_insert_eq.
  - rewrite Hs. unfold first. cbn [ls_secret_environment with_environments]. by rewrite lookup_insert_eq.
Qed.
End Launch.

Section Launched.
Context `{UuidLib} `{NostrLib} `{SignerKeys} `{BuzzKinds} `{DocumentJson} `{ReceiptJson}.
Context {R : Type} `{Outside R} `{LocalSupervisor R}.
#[local] Notation W := (World (DaemonFx (Recorded R))).
Definition starts (w : W) : list Start := (fx_outside (w_fx w)).2.2.
Definition accounts (w : W) : Accounts := (fx_outside (w_fx w)).2.1.

(** ** Steps that start nothing and set no account *)
Definition silent (w w' : W) : Prop := (fx_outside (w_fx w')).2 = (fx_outside (w_fx w)).2.
#[export] Instance silent_preorder : PreOrder silent.
Proof. split; [done|]. intros a b c. unfold silent. congruence. Qed.
Definition unrecorded (r r' : Recorded R) : Prop := r'.2 = r.2.
#[export] Instance unrecorded_preorder : PreOrder unrecorded.
Proof. split; [done|]. intros a b c. unfold unrecorded. congruence. Qed.

Lemma silent_fs {E A} (m : M Fs E A) : always silent (on (W := W) m).
Proof. intros w. unfold on. by destruct (m (part w)). Qed.
Lemma silent_outside {E A} (m : M (Recorded R) E A) : always unrecorded m → always silent (on (W := W) m).
Proof. intros Hm w. specialize (Hm (part w)). unfold on. by destruct (m (part w)) as [r s]. Qed.
Lemma silent_recorded {E A} (m : M (Fs * R) E A) : always silent (on (W := W) (recorded m)).
Proof.
  intros w. unfold on, recorded, silent. cbn. destruct (fx_outside (w_fx w)) as [r log].
  by destruct (m (fx_fs (w_fx w), r)) as [x [s r']].
Qed.
Lemma silent_stored {A} (f : Db → stored A) : always silent (stored_step (R := Recorded R) f).
Proof. intros w. unfold stored_step. by destruct (f (w_db w)) as [[]|]. Qed.
Lemma silent_store {A} (f : Db → stored A) : always silent (store (F := DaemonFx (Recorded R)) f).
Proof. intros w. unfold store. by destruct (f (w_db w)) as [[]|]. Qed.
Lemma silent_clock {E} time : always silent (clock_now (R := Recorded R) (E := E) time).
Proof. by intros w. Qed.
Lemma silent_millis {E} millis : always silent (clock_millis (R := Recorded R) (E := E) millis).
Proof. by intros w. Qed.
Lemma silent_draw {E} : always silent (draw_index (R := Recorded R) (E := E)).
Proof. by intros w. Qed.
Lemma silent_wake {E} : always silent (modify (E := E) (wake_publications (R := Recorded R))).
Proof. by intros w. Qed.

Lemma unrecorded_draw {E A} (f : Recorded R → A * Recorded R) :
  (∀ r, unrecorded r (f r).2) → always unrecorded (draw (E := E) f).
Proof. intros Hf r. specialize (Hf r). unfold draw. by destruct (f r). Qed.
Lemma unrecorded_uuid r : unrecorded r (draw_uuid r).2.
Proof. destruct r as [r log]. cbn. by destruct (draw_uuid r). Qed.
Lemma unrecorded_timestamp r : unrecorded r (timestamp r).2.
Proof. destruct r as [r log]. cbn. by destruct (timestamp r). Qed.
Lemma unrecorded_client : always unrecorded (client (R := Recorded R)).
Proof. apply (always_map_err unrecorded). intros [r log]. cbn. by destruct (build_client r). Qed.
Lemma unrecorded_send q : always unrecorded (transported (R := Recorded R) (send_request q)).
Proof. apply (always_map_err unrecorded). intros [r log]. cbn. by destruct (send_request q r). Qed.

Ltac relay_steps :=
  unfold query_latest, submit_event, nip98_auth_header, sign_now, parsed_tag, serialized; always_steps;
  first [ apply unrecorded_send | apply unrecorded_client
        | apply unrecorded_draw; solve [apply unrecorded_uuid|apply unrecorded_timestamp] ].
Lemma unrecorded_profile u o a f : always unrecorded (sync_agent_profile (R := Recorded R) u o a f).
Proof. unfold sync_agent_profile, sync_profile. relay_steps. Qed.
Lemma unrecorded_agent u o a r :
  always unrecorded (sync_managed_agent_projection (R := Recorded R) u o a r).
Proof. unfold sync_managed_agent_projection, sync_managed_agent. relay_steps. Qed.
Lemma unrecorded_persona u o p : always unrecorded (sync_persona (R := Recorded R) u o p).
Proof. unfold sync_persona. relay_steps. Qed.

Variable signer_keys : SecretKey → Keys.
Variables (time millis : nat → Z) (uuid_at : nat → Z) (temp_at : nat → string).
Variable generated : nat → SecretKey.
Variable var : string → option string.
Variable context : ReconcileContext.
#[local] Notation D := (M W DaemonError).
#[local] Notation config := (rc_config context).

Ltac silent_steps :=
  always_steps;
  first [ apply silent_fs | apply silent_clock | apply silent_millis | apply silent_draw | apply silent_wake
        | apply silent_recorded
        | apply (always_map_err silent); first
            [ apply silent_stored | unfold put_receipt_file; always_steps; first [apply silent_millis|apply silent_fs] ] ].

Lemma silent_refresh id : always silent (refresh_agent (R := Recorded R) time temp_at context id).
Proof. unfold refresh_agent, dfiles, found, dstore, next_temp. silent_steps. Qed.
Lemma silent_owner_keys community : always silent (community_owner_keys (R := Recorded R) context community).
Proof. unfold community_owner_keys. silent_steps. Qed.
Lemma silent_enqueue action scope subject :
  always silent (M_map_err DaemonStorage
    (enqueue_publication (R := Recorded R) time uuid_at action scope subject)).
Proof.
  apply (always_map_err silent). unfold enqueue_publication, next_uuid.
  always_steps; first [apply silent_draw|apply silent_clock|apply silent_stored].
Qed.
Lemma silent_project kind action subject scope m :
  always unrecorded m → always silent (project (R := Recorded R) time uuid_at kind action subject scope m).
Proof.
  intros Hm w. unfold project. pose proof (silent_outside m Hm w) as K. destruct (on m w) as [[[]|e] w1]; cbn in K.
  - etrans; [exact K|]. unfold record_projection. apply (always_map_err silent). always_steps;
      [apply silent_clock|apply silent_stored].
  - etrans; [exact K|]. apply (always_bind silent); [apply silent_enqueue|intros _; apply silent_wake].
Qed.
Lemma silent_publish id file resolved community owner_keys agent_keys :
  always silent (publish_agent (R := Recorded R) time uuid_at context id file resolved community owner_keys agent_keys).
Proof.
  unfold publish_agent, dfiles. cbv zeta. apply (always_bind silent).
  { intros w. unfold modify, ignore. cbn [snd]. apply silent_outside, unrecorded_profile. }
  intros _. apply (always_bind silent); [apply silent_project, unrecorded_agent|]. intros _.
  destruct (rac_persona_id resolved); [|apply (always_ret silent)].
  apply (always_bind silent); [apply silent_fs|]. intros persona. apply silent_project, unrecorded_persona.
Qed.
Lemma silent_outcome fo operation id desired launch_id receipts outcome :
  always silent (record_outcome (R := Recorded R) time millis fo operation id desired launch_id receipts outcome).
Proof. unfold record_outcome, stamp_receipt_lifecycle, dstore. silent_steps. Qed.
Lemma silent_purge layout id community owner_keys agent_keys :
  always silent (purge_agent_artifacts (R := Recorded R) time uuid_at context layout id community owner_keys agent_keys).
Proof.
  unfold purge_agent_artifacts. cbv zeta.
  apply (always_bind silent); [apply silent_enqueue|intros _]. apply (always_bind silent); [apply silent_enqueue|intros _].
  apply (always_bind silent); [apply silent_wake|intros _]. intros w. unfold removal_status.
  pose proof (silent_fs (remove_artifacts context layout id) w) as Hm.
  by destruct (on (remove_artifacts context layout id) w) as [[[]|e] w1].
Qed.
Lemma silent_finish fo operation id status code :
  always silent (finish_reconciliation (R := Recorded R) time fo operation id status code).
Proof.
  unfold finish_reconciliation. destruct fo; [|always_steps]. apply (always_map_err silent).
  unfold complete_operation, audit_reconciliation, existing_community. always_steps;
    first [apply silent_store|by intros w].
Qed.

(** ** What may start a process *)
(** A computation that asks for at most one start, of this launch with these secrets and the
    account that is set. *)
Definition starts_only {E A} (l : LaunchSpec) (secrets : SecretRef → result SupervisorError string)
    (m : M W E A) : Prop := ∀ w,
  accounts (m w).2 = accounts w
  ∧ (starts (m w).2 = starts w
     ∨ starts (m w).2 = starts w ++ [mkStart l secrets (accounts w !! ls_agent_id l)]).
Section StartsOnly.
Context (l : LaunchSpec) (secrets : SecretRef → result SupervisorError string).
Lemma only_silent {E A} (m : M W E A) : always silent m → starts_only l secrets m.
Proof. intros Hm w. specialize (Hm w). unfold silent in Hm. unfold starts, accounts. rewrite Hm. by split; [|left]. Qed.
Lemma only_bind {E A B} (m : M W E A) (f : A → M W E B) :
  always silent m → (∀ a, starts_only l secrets (f a)) → starts_only l secrets (m ≫= f).
Proof.
  intros Hm Hf w. specialize (Hm w). unfold mbind, M_bind. destruct (m w) as [[a|e] w1]; cbn [snd] in *.
  - specialize (Hf a w1). unfold silent in Hm. unfold starts, accounts in *. by rewrite Hm in Hf.
  - unfold silent in Hm. unfold starts, accounts. rewrite Hm. by split; [|left].
Qed.
Lemma only_then_silent {E A B} (m : M W E A) (f : A → M W E B) :
  starts_only l secrets m → (∀ a, always silent (f a)) → starts_only l secrets (m ≫= f).
Proof.
  intros Hm Hf w. specialize (Hm w). unfold mbind, M_bind. destruct (m w) as [[a|e] w1]; cbn [snd] in *; [|done].
  specialize (Hf a w1). unfold silent in Hf. unfold starts, accounts in *. by rewrite Hf.
Qed.
End StartsOnly.

#[local] Notation reconciled receipts secrets id operation launch :=
  (@reconcile W daemon_agents (daemon_receipts millis receipts) (daemon_supervisor var secrets) id operation (Some launch)).
Lemma silent_put receipts receipt : always silent (put_receipt_file (R := Recorded R) millis receipts receipt).
Proof. unfold put_receipt_file. always_steps; [apply silent_millis|apply silent_fs]. Qed.
Lemma only_start receipts secrets launch :
  starts_only launch (resolve_secret var secrets)
    (@start_process W (daemon_receipts millis receipts) (daemon_supervisor var secrets) launch).
Proof.
  intros w. unfold start_process. cbn [sup_start daemon_supervisor]. unfold on. cbn [part world_both].
  cbn [local_start recorded_supervisor]. unfold starts, accounts.
  destruct (fx_outside (w_fx w)) as [r [accs log]] eqn:Ef.
  destruct (local_start launch _ (fx_fs (w_fx w), r)) as [x [s r']]. cbn [set_part world_both fst snd].
  set (w1 := set_fx _ w). assert (fx_outside (w_fx w1) = (r', (accs, log ++ [mkStart launch (resolve_secret var secrets) (accs !! ls_agent_id launch)]))) as E1 by done.
  clearbody w1. destruct x as [started|e].
  - assert (always silent (_ ← storage (@put_receipt W (daemon_receipts millis receipts) started); mret Started)) as K.
    { apply (always_bind silent); [apply (always_map_err silent), silent_put|intros; apply (always_ret silent)]. }
    specialize (K w1). unfold silent in K. rewrite K, E1. by split; [|right].
  - destruct e; cbn [snd]; rewrite E1; by split; [|right].
Qed.
Lemma only_ok {E A B} l secrets (a : A) (f : A → M W E B) :
  starts_only l secrets (f a) → starts_only l secrets (of_result (Ok a) ≫= f).
Proof. done. Qed.
Lemma only_reconcile receipts secrets id operation launch :
  starts_only launch (resolve_secret var secrets) (reconciled receipts secrets id operation launch).
Proof.
  unfold reconcile, reconcile_desired, ensure_stopped, ensure_started, storage, supervisor.
  repeat first
    [ apply only_start
    | apply (only_ok _ _ launch)
    | apply only_bind; [|intros ?]
    | match goal with
      | |- starts_only _ _ (if ?b then _ else _) => destruct b
      | |- starts_only _ _ (match ?x with _ => _ end) => destruct x
      end
    | progress cbn beta iota ];
  try apply only_silent; always_steps; try apply (always_map_err silent);
  first [apply silent_recorded | apply silent_put | apply silent_fs | intros w; reflexivity].
Qed.

(** ** The reconciliation of an agent, in three parts *)
(** What is made ready for an agent. *)
Record Ready : Type := mkReady {
  rd_file : AgentConfigFile; rd_resolved : ResolvedAgentConfig; rd_community : CommunityConfig;
  rd_layout : AgentFilesystemLayout; rd_user : string; rd_identity : CustodiedIdentity;
  rd_agent_keys : SecretKey; rd_owner_keys : SecretKey
}.
Definition make_ready (agent_id : AgentId) : D Ready :=
  refreshed ← refresh_agent time temp_at context agent_id;
  let '(file, resolved, community) := refreshed in
  layout ← of_result (dynamic_agent_layout config agent_id);
  agent_user ← prepare_directories context agent_id (fs_user (rac_filesystem resolved)) layout;
  n ← draw_index;
  tmp ← next_temp temp_at;
  identity ← dcustody (provision (rc_custody context) agent_id (generated n) tmp);
  agent_keys ← dcustody (load (rc_custody context) agent_id);
  owner_keys ← community_owner_keys context community;
  mret (mkReady file resolved community layout agent_user identity agent_keys owner_keys).
Definition ready_launch (r : Ready) : result DaemonError (string * LaunchSpec) :=
  let? authorization := map_err DaemonSigner (issue_authorization signer_keys config (rd_community r)
                          (rd_owner_keys r) (ci_public_key (rd_identity r))) in
  let? launch := dynamic_launch config (rd_resolved r) (rd_community r) (rd_layout r) (rd_user r)
                   (rd_owner_keys r) (rd_agent_keys r) in
  Ok (authorization, launch).
(** The secrets of the launch. *)
Definition ready_secrets (r : Ready) (authorization : string) : EnvironmentSecrets :=
  mkEnvironmentSecrets authorization (Some (to_secret_hex (rd_agent_keys r))).
Definition after_reconciling (operation : OperationResource) (finish : bool) (agent_id : AgentId) (r : Ready)
    (launch : LaunchSpec) (outcome : result ReconcileError ReconcileOutcome) : D unit :=
  _ ← record_outcome time millis finish operation agent_id (spec_desired_state (rac_spec (rd_resolved r)))
        (ls_launch_id launch) (ReceiptFile_new (lay_receipt (rd_layout r))) outcome;
  let '(status, error_code) := outcome_status outcome in
  ended ← (if bool_decide (status = Succeeded) && bool_decide (or_kind operation = PurgeAgent)
           then purge_agent_artifacts time uuid_at context (rd_layout r) agent_id (rd_community r)
                  (rd_owner_keys r) (rd_agent_keys r)
           else mret (status, error_code));
  finish_reconciliation time finish operation agent_id ended.1 ended.2.

Lemma bind_same {E A B} (m : M W E A) (f g : A → M W E B) w :
  (∀ a w', f a w' = g a w') → (m ≫= f) w = (m ≫= g) w.
Proof. intros Hfg. unfold mbind, M_bind. by destruct (m w) as [[a|e] w1]. Qed.
Lemma bind_assoc {E A B C} (m : M W E A) (f : A → M W E B) (g : B → M W E C) w :
  ((m ≫= f) ≫= g) w = (m ≫= λ a, f a ≫= g) w.
Proof. unfold mbind, M_bind. by destruct (m w) as [[a|e] w1]. Qed.
Lemma ret_bind {E A B} (a : A) (f : A → M W E B) w : (mret a ≫= f) w = f a w.
Proof. done. Qed.
Lemma of_ok_bind {E A B} (a : A) (f : A → M W E B) w : (of_result (Ok a) ≫= f) w = f a w.
Proof. done. Qed.
Lemma reconciliation_parts operation finish (w : W) :
  reconcile_dynamic_lifecycle_operation signer_keys time millis uuid_at temp_at generated var context
    operation finish w
  = (agent_id ← found (or_agent_id operation);
     r ← make_ready agent_id;
     _ ← publish_agent time uuid_at context agent_id (rd_file r) (rd_resolved r) (rd_community r)
           (rd_owner_keys r) (rd_agent_keys r);
     built ← of_result (ready_launch r);
     outcome ← run_reconciler millis var (ReceiptFile_new (lay_receipt (rd_layout r)))
                 (ready_secrets r built.1) agent_id (store_operation operation) built.2;
     after_reconciling operation finish agent_id r built.2 outcome) w.
Proof.
  unfold reconcile_dynamic_lifecycle_operation, make_ready. cbv zeta.
  apply bind_same. intros agent_id w1. rewrite bind_assoc. apply bind_same. intros [[file resolved] community] w2.
  do 7 (rewrite bind_assoc; apply bind_same; intros ? ?).
  rewrite ret_bind. apply bind_same. intros _ w4.
  unfold ready_launch. cbn [rd_community rd_owner_keys rd_identity rd_resolved rd_layout rd_user rd_agent_keys].
  destruct (map_err DaemonSigner _) as [authorization|e]; [|done]. rewrite of_ok_bind.
  destruct (dynamic_launch _ _ _ _ _ _ _) as [launch|e]; [|done]. rewrite !of_ok_bind. apply bind_same.
  intros outcome w5. done.
Qed.

(** ** What has been made ready *)
Lemma on_files_ok {E A} (m : M Fs E A) (w w' : W) a :
  on m w = (Ok a, w') →
  m (fx_fs (w_fx w)) = (Ok a, fx_fs (w_fx w')) ∧ w_db w' = w_db w ∧ silent w w'.
Proof. unfold on. cbn [part world_fs]. destruct (m (fx_fs (w_fx w))) as [r s]. intros [= -> <-]. done. Qed.
Lemma documented_agent files id community desired s file s1 s2 resolved s3 :
  M_map_err DaemonAgentFile (load_agent files id) s = (Ok file, s1) →
  M_map_err DaemonAgentFile (resolve files file community desired) s2 = (Ok resolved, s3) →
  spec_id (rac_spec resolved) = id ∧ spec_community (rac_spec resolved) = community.
Proof.
  intros Hload%M_map_err_ok Hres%M_map_err_ok. apply bind_ok in Hload as (bytes & t1 & _ & Hload).
  apply bind_ok in Hload as (value & t2 & _ & Hload).
  destruct (bool_decide (acf_id value = id)) eqn:Ei; cbn [negb] in Hload; [|done].
  apply bind_ok in Hload as (? & t3 & _ & Hload). injection Hload as <- _.
  apply bool_decide_eq_true in Ei. apply bind_ok in Hres as (? & t4 & _ & Hres).
  apply bind_ok in Hres as ([[[[runtime prompt] model] provider] env] & t5 & _ & Hres).
  apply bind_ok in Hres as (? & t6 & _ & Hres). by injection Hres as <- _.
Qed.
Lemma refreshed_agent id (w w' : W) file resolved community :
  refresh_agent time temp_at context id w = (Ok (file, resolved, community), w') →
  silent w w' ∧ spec_id (rac_spec resolved) = id
  ∧ get_agent id (w_db w') = Some (rac_spec resolved)
  ∧ get_community (spec_community (rac_spec resolved)) (w_db w') = Some community
  ∧ ∃ cached, get_agent id (w_db w) = Some cached
    ∧ spec_community (rac_spec resolved) = spec_community cached
    ∧ get_community (spec_community cached) (w_db w) = Some community.
Proof.
  intros Hr. pose proof (silent_refresh id w) as Hq. rewrite Hr in Hq. split; [exact Hq|].
  unfold refresh_agent in Hr. apply bind_ok in Hr as (c & w1 & Hg & Hr). injection Hg as <- <-.
  apply bind_ok in Hr as (cached & w1 & Hg & Hr). unfold found in Hg. injection Hg as Hg <-.
  destruct (get_agent id (w_db w)) as [cached'|] eqn:Ea; [|done]. injection Hg as ->.
  apply bind_ok in Hr as (tmp & w2 & Ht & Hr). injection Ht as _ <-.
  apply bind_ok in Hr as ([] & w3 & Hf & Hr). apply on_files_ok in Hf as (_ & D1 & _).
  apply bind_ok in Hr as (file' & w4 & Hf & Hr). apply on_files_ok in Hf as (Hload & D2 & _).
  apply bind_ok in Hr as (resolved' & w5 & Hf & Hr). apply on_files_ok in Hf as (Hres & D3 & _).
  apply bind_ok in Hr as (now & w6 & Hn & Hr). injection Hn as _ <-.
  apply bind_ok in Hr as ([] & w7 & Hp & Hr).
  apply bind_ok in Hr as (oc & w8 & Hc & Hr). injection Hc as <- <-.
  apply bind_ok in Hr as (c & w8 & Hc & Hr). injection Hc as Hc <-. injection Hr as <- <- <- <-.
  edestruct documented_agent as [Hid Hcom]; [exact Hload|exact Hres|].
  cbn [w_db] in *. unfold dstore, M_map_err, stored_step, put_agent in Hp. cbn [w_db] in Hp.
  destruct (AgentSpec_validate _); cbn [map_err] in Hp; [|done].
  unfold sql_upsert_agent in Hp. destruct (option_is_none _); cbn [map_err] in Hp; [done|]. injection Hp as <-.
  cbn [w_db] in *. unfold get_agent, get_community in *. db_cbn. rewrite Hid, lookup_insert_eq.
  destruct (crow_document <$> t_communities (w_db w5) !! _) as [cc|] eqn:Ec; [|done]. injection Hc as ->.
  split_and!; [done|done|done|]. exists cached. split_and!; [done|done|]. by rewrite <- Hcom, <- D1, <- D2, <- D3.
Qed.

Definition stores_nothing (w w' : W) : Prop := w_db w' = w_db w ∧ silent w w'.
#[export] Instance stores_nothing_preorder : PreOrder stores_nothing.
Proof.
  split; [by split|]. intros a b c [D1 S1] [D2 S2]. split; [congruence|by etrans].
Qed.
Lemma stores_nothing_fs {E A} (m : M Fs E A) : always stores_nothing (on (W := W) m).
Proof. intros w. unfold on. by destruct (m (part w)). Qed.

(** The account of [user] as the files in [s] and [t] say it. *)
Definition account_of (configured : option string) (s t : Fs) (user : string) (identity : LocalProcessIdentity)
    : Prop :=
  (ensure_agent_user configured (fs_user (dc_default_filesystem config)) s).1
    = Ok (user, (lpi_uid identity, lpi_gid identity), lpi_home identity)
  ∧ ∃ t', (resolve_user_groups user (lpi_gid identity) t').1 = Ok (lpi_supplementary_gids identity)
          ∧ fs_nodes t' = fs_nodes t.
Lemma kept_user_groups user gid : always nodes_kept (resolve_user_groups user gid).
Proof.
  unfold resolve_user_groups, account_file. always_steps. apply (always_map_err nodes_kept), kept_read_to_string.
Qed.
Lemma prepared_account id configured layout (w w' : W) user :
  prepare_directories context id configured layout w = (Ok user, w') →
  w_db w' = w_db w
  ∧ ∃ root identity s, parent (lay_receipt layout) = Some root
    ∧ create_dir_all root (fx_fs (w_fx w)) = (Ok tt, s)
    ∧ account_of configured s (fx_fs (w_fx w')) user identity
    ∧ accounts w' !! id = Some identity.
Proof.
  intros Hr. unfold prepare_directories, dio in Hr.
  apply bind_ok in Hr as (root & w0 & Hp & Hr). injection Hp as Hp <-.
  destruct (parent (lay_receipt layout)) as [root'|] eqn:Ep; [|done]. injection Hp as ->.
  apply bind_ok in Hr as ([] & w1 & Hc & Hr). apply on_files_ok in Hc as (Hc & D1 & S1). apply M_map_err_ok in Hc.
  apply bind_ok in Hr as ([[u [uid gid]] home] & w2 & Hu & Hr). apply on_files_ok in Hu as (Hu & D2 & S2).
  apply bind_ok in Hr as ([] & w3 & Hs3 & Hr). apply on_files_ok in Hs3 as (_ & D3 & S3).
  apply bind_ok in Hr as ([] & w4 & Hs4 & Hr). apply on_files_ok in Hs4 as (_ & D4 & S4).
  apply bind_ok in Hr as ([] & w5 & Hs5 & Hr). 
  match type of Hs5 with ?m w4 = _ => assert (always stores_nothing m) as K end.
  { apply (always_forM_ stores_nothing). intros directory.
    repeat (apply (always_bind stores_nothing); [apply stores_nothing_fs|intros []]). apply stores_nothing_fs. }
  specialize (K w4). rewrite Hs5 in K. destruct K as [D5 S5].
  apply bind_ok in Hr as (groups & w6 & Hs6 & Hr). apply on_files_ok in Hs6 as (Hs6 & D6 & S6).
  apply bind_ok in Hr as ([] & w7 & Hs7 & Hr). injection Hr as -> <-.
  assert (w_db w7 = w_db w6 ∧ fx_fs (w_fx w7) = fx_fs (w_fx w6)
          ∧ accounts w7 !! id = Some (mkProcessIdentity uid gid groups home)) as (D7 & F7 & Ha).
  { revert Hs7. unfold on, accounts. cbn [part world_outside set_agent_identity recorded_supervisor].
    destruct (fx_outside (w_fx w6)) as [r [accs log]]. unfold M_map_err.
    destruct (set_agent_identity id _ r) as [[[]|e] r']; [|done]. intros [= <-]. cbn.
    split_and!; [done..|]. apply lookup_insert_eq. }
  cbn [snd] in D5, S5. split; [congruence|].
  exists root, (mkProcessIdentity uid gid groups home), (fx_fs (w_fx w1)). split_and!; [done..| |done].
  split; [cbn; by rewrite Hu|]. exists (fx_fs (w_fx w5)). cbn. split; [by rewrite Hs6|].
  pose proof (kept_user_groups user gid (fx_fs (w_fx w5))) as K. rewrite Hs6 in K. cbn in K. by rewrite F7, K.
Qed.

Lemma custodied_keys custody id keys unique s s1 identity s2 s3 k :
  fs_nodes s2 = fs_nodes s1 →
  M_map_err DaemonCustody (provision custody id keys unique) s = (Ok identity, s1) →
  M_map_err DaemonCustody (load custody id) s2 = (Ok k, s3) →
  holds_key custody (secret_path custody id) s3 k ∧ ci_public_key identity = public_key_hex k.
Proof.
  intros Hn Hp%M_map_err_ok Hl%M_map_err_ok. pose proof (provision_entry custody id keys unique s) as K.
  rewrite Hp in K. destruct K as [_ K]. destruct (K identity eq_refl) as (k' & Hk & ->). cbn.
  apply bind_ok in Hl as ([] & t & Hr & Hl). pose proof (prepare_root_entry custody id s2) as He.
  rewrite Hr in He. cbn in He. unfold entry_kept in He. apply read_keys_ok in Hl as [Hkept Ht]. split.
  - destruct Ht as (n & Hnode & Hrest). exists n. split; [|exact Hrest]. unfold nodes_kept in Hkept. by rewrite Hkept.
  - f_equal. symmetry. eapply holds_key_det; [|exact Hk|exact Ht]. by rewrite He, Hn.
Qed.
Lemma owner_keys_held community (w w' : W) k :
  community_owner_keys context community w = (Ok k, w') →
  w_db w' = w_db w ∧ silent w w' ∧ fs_nodes (fx_fs (w_fx w')) = fs_nodes (fx_fs (w_fx w))
  ∧ ∃ state pubkey, state_parent config = Ok state ∧ cc_identity_pubkey community = Some pubkey
    ∧ holds_identity (join state "community-identities") pubkey (fx_fs (w_fx w')) k.
Proof.
  unfold community_owner_keys. intros Hr. apply bind_ok in Hr as (pubkey & w1 & Hp & Hr). injection Hp as Hp <-.
  destruct (cc_identity_pubkey community) as [p|]; [|done]. injection Hp as ->.
  apply bind_ok in Hr as (state & w1 & Hs & Hr). injection Hs as Hs <-. apply on_files_ok in Hr as (Hr & D & S).
  apply M_map_err_ok in Hr. pose proof (kept_identity_keys (join state "community-identities") pubkey (fx_fs (w_fx w))) as K.
  rewrite Hr in K. cbn in K. split_and!; [done..|]. exists state, pubkey. split_and!; [done..|].
  apply identity_keys_ok in Hr as (n & Hl & Hrest). exists n. split; [|exact Hrest]. by rewrite leads_to_kept.
Qed.

Definition starts_kept (w w' : W) : Prop := starts w' = starts w.
#[export] Instance starts_kept_preorder : PreOrder starts_kept.
Proof. split; [done|]. intros a b c. unfold starts_kept. congruence. Qed.
Lemma starts_kept_silent {E A} (m : M W E A) : always silent m → always starts_kept m.
Proof. intros Hm w. specialize (Hm w). unfold silent in Hm. unfold starts_kept, starts. by rewrite Hm. Qed.
Lemma starts_kept_account {E} id identity (f : SupervisorError → E) :
  always starts_kept (on (W := W) (S := Recorded R) (M_map_err f (set_agent_identity id identity))).
Proof.
  intros w. unfold on, starts_kept, starts, M_map_err. cbn [part world_outside set_agent_identity recorded_supervisor].
  destruct (fx_outside (w_fx w)) as [r [accs log]]. by destruct (set_agent_identity id identity r).
Qed.
Lemma starts_kept_ready id : always starts_kept (make_ready id).
Proof.
  unfold make_ready, prepare_directories, dio, dcustody, next_temp.
  repeat first
    [ apply starts_kept_silent; first [apply silent_refresh|apply silent_owner_keys|apply silent_fs|apply silent_draw]
    | apply starts_kept_account
    | apply (always_bind starts_kept); [|intros ?]
    | apply (always_ret starts_kept) | apply (always_of_result starts_kept) | apply (always_forM_ starts_kept); intros ?
    | match goal with |- always _ (match ?x with _ => _ end) => destruct x end ].
Qed.

(** ** What belongs to an agent *)
(** What was made ready for the agent [id] is its own: its row as its document gives it, the
    community of that row, its directories, its key in custody, the key of the community's
    owner, and the account of the user that the document or the configuration names. *)
Definition its_own (id : AgentId) (w w1 : W) (r : Ready) (identity : LocalProcessIdentity) : Prop :=
  spec_id (rac_spec (rd_resolved r)) = id
  ∧ get_agent id (w_db w1) = Some (rac_spec (rd_resolved r))
  ∧ (∃ cached, get_agent id (w_db w) = Some cached
      ∧ spec_community (rac_spec (rd_resolved r)) = spec_community cached
      ∧ get_community (spec_community cached) (w_db w) = Some (rd_community r))
  ∧ holds_key (rc_custody context) (secret_path (rc_custody context) id) (fx_fs (w_fx w1)) (rd_agent_keys r)
  ∧ ci_public_key (rd_identity r) = public_key_hex (rd_agent_keys r)
  ∧ ∃ state pubkey, state_parent config = Ok state
    ∧ rd_layout r = mkLayout (join (agent_state_root state id) "process-receipt.json")
                      (join (agent_state_root state id) "workspace")
                      (join (agent_state_root state id) "runtime") (launch_id_of id)
    ∧ cc_identity_pubkey (rd_community r) = Some pubkey
    ∧ holds_identity (join state "community-identities") pubkey (fx_fs (w_fx w1)) (rd_owner_keys r)
    ∧ ∃ w2 w3 s,
        refresh_agent time temp_at context id w = (Ok (rd_file r, rd_resolved r, rd_community r), w2)
        ∧ create_dir_all (agent_state_root state id) (fx_fs (w_fx w2)) = (Ok tt, s)
        ∧ prepare_directories context id (fs_user (rac_filesystem (rd_resolved r))) (rd_layout r) w2
          = (Ok (rd_user r), w3)
        ∧ account_of (fs_user (rac_filesystem (rd_resolved r))) s (fx_fs (w_fx w3)) (rd_user r) identity.
Lemma made_ready id (w w1 : W) r :
  make_ready id w = (Ok r, w1) →
  ∃ identity, its_own id w w1 r identity ∧ accounts w1 !! id = Some identity.
Proof.
  unfold make_ready, dcustody. intros Hr.
  apply bind_ok in Hr as ([[file resolved] community] & wa & Hrefresh & Hr).
  pose proof (refreshed_agent _ _ _ _ _ _ Hrefresh) as (Sa & Hid & Hrow & _ & Hcached).
  apply bind_ok in Hr as (layout & wb & Hl & Hr). injection Hl as Hl <-.
  apply bind_ok in Hr as (user & wb & Hprep & Hr).
  pose proof (prepared_account _ _ _ _ _ _ Hprep) as (Db & root & identity & s & Hroot & Hs & Hof & Hacc).
  apply bind_ok in Hr as (n & wc & Hn & Hr). injection Hn as _ <-.
  apply bind_ok in Hr as (tmp & wc & Hn & Hr). injection Hn as _ <-.
  apply bind_ok in Hr as (custodied & wc & Hprov & Hr). apply on_files_ok in Hprov as (Hprov & Dc & Sc).
  apply bind_ok in Hr as (keys & wd & Hload & Hr). apply on_files_ok in Hload as (Hload & Dd & Sd).
  apply bind_ok in Hr as (owner & we & Hown & Hr). injection Hr as <- <-.
  apply owner_keys_held in Hown as (De & Se & Ne & state & pubkey & Hstate & Hpk & Howner).
  destruct (custodied_keys _ _ _ _ _ _ _ _ _ _ eq_refl Hprov Hload) as [Hkey Hpub].
  unfold dynamic_agent_layout in Hl. rewrite Hstate in Hl. cbv zeta in Hl. injection Hl as <-.
  cbn [lay_receipt] in Hroot. rewrite parent_join in Hroot. injection Hroot as <-.
  cbn [w_db w_fx] in *. exists identity. split.
  - unfold its_own. cbn [rd_file rd_resolved rd_community rd_layout rd_user rd_identity rd_agent_keys rd_owner_keys].
    split_and!; [done|congruence|done| |done|].
    { destruct Hkey as (n' & Hn' & Hrest). exists n'. by rewrite Ne. }
    exists state, pubkey. split_and!; [done..|]. exists wa, wb, s. done.
  - unfold silent in Sc, Sd, Se. unfold accounts in *. by rewrite Se, Sd, Sc.
Qed.

(** ** The whole reconciliation *)
Lemma silent_after operation finish id r launch outcome :
  always silent (after_reconciling operation finish id r launch outcome).
Proof.
  unfold after_reconciling. apply (always_bind silent); [apply silent_outcome|intros _].
  destruct (outcome_status outcome) as [status code]. apply (always_bind silent); [|intros []; apply silent_finish].
  destruct (_ && _); [apply silent_purge|apply (always_ret silent)].
Qed.
Lemma only_run receipts secrets id operation launch :
  starts_only launch (resolve_secret var secrets)
    (run_reconciler (R := Recorded R) millis var receipts secrets id operation launch).
Proof.
  intros w. unfold run_reconciler. pose proof (only_reconcile receipts secrets id operation launch w) as K.
  by destruct (reconciled receipts secrets id operation launch w).
Qed.
Lemma ready_launch_ok r authorization launch :
  ready_launch r = Ok (authorization, launch) →
  launched_for (spec_id (rac_spec (rd_resolved r))) (rd_community r) (rd_layout r) (rd_user r)
    (rd_agent_keys r) authorization launch (resolve_secret var (ready_secrets r authorization))
  ∧ ∃ pk, PublicKey_from_str (ci_public_key (rd_identity r)) = Some pk
      ∧ public_key (signer_keys (rd_owner_keys r)) ≠ pk
      ∧ compute_auth_tag (signer_keys (rd_owner_keys r)) pk (dc_signer_conditions config) = Some authorization.
Proof.
  unfold ready_launch. intros Hr.
  destruct (issue_authorization _ _ _ _ _) as [a|e] eqn:Ea; cbn [map_err] in Hr; [|done].
  destruct (dynamic_launch _ _ _ _ _ _ _) as [l|e] eqn:El; [|done]. injection Hr as <- <-.
  split; [by eapply dynamic_launch_fields|by eapply authorize_tag].
Qed.

(** C18: An agent is launched as itself. Reconciling an operation asks the supervisor for at
    most one start, and for none when the operation names no agent. The start that is asked
    for is of the operation's agent and of what was made ready for it: its row, written from
    its own document, and the community of that row; its own directories and launch id; the
    key that custody holds for it; the key on file of the community's owner; and the account
    of the user that its document or the configuration names, which is the one set for the
    agent when it is started. The launch is valid and for this agent, runs in its own
    workspace and runtime directories and is told the community's relay and the account; the
    harness gets the agent's own private key and the authorization that the owner's key
    signed for the public key of that key, under the configured conditions and never for the
    owner itself; and neither secret is in the plain environment. *)
Theorem agents_are_launched_as_themselves operation finish (w : W) :
  let w' := (reconcile_dynamic_lifecycle_operation signer_keys time millis uuid_at temp_at generated var
               context operation finish w).2 in
  starts w' = starts w
  ∨ ∃ id r w1 identity launch secrets authorization,
    or_agent_id operation = Some id
    ∧ make_ready id w = (Ok r, w1) ∧ its_own id w w1 r identity
    ∧ starts w' = starts w ++ [mkStart launch secrets (Some identity)]
    ∧ launched_for id (rd_community r) (rd_layout r) (rd_user r) (rd_agent_keys r) authorization launch secrets
    ∧ ∃ pk, PublicKey_from_str (public_key_hex (rd_agent_keys r)) = Some pk
        ∧ public_key (signer_keys (rd_owner_keys r)) ≠ pk
        ∧ compute_auth_tag (signer_keys (rd_owner_keys r)) pk (dc_signer_conditions config) = Some authorization.
Proof.
  intros w'. remember w' as after eqn:Ew. subst w'. rewrite reconciliation_parts in Ew.
  destruct (or_agent_id operation) as [id|] eqn:Eop; [|left; by rewrite Ew].
  unfold found in Ew. cbn [ok_or] in Ew. rewrite of_ok_bind in Ew. pose proof (starts_kept_ready id w) as K.
  unfold mbind at 1, M_bind at 1 in Ew. destruct (make_ready id w) as [[r|e] w1] eqn:Em; [|left; by rewrite Ew].
  cbn [snd] in K. destruct (made_ready _ _ _ _ Em) as (identity & Hown & Hacc).
  destruct (ready_launch r) as [[authorization launch]|e] eqn:El.
  - match type of Ew with _ = (?rest w1).2 =>
      assert (starts_only launch (resolve_secret var (ready_secrets r authorization)) rest) as Hrest end.
    { apply only_bind; [apply silent_publish|intros _]. apply (only_ok _ _ (authorization, launch)).
      apply only_then_silent; [apply only_run|intros; apply silent_after]. }
    destruct (Hrest w1) as [_ Hs]. rewrite <- Ew in Hs. destruct Hs as [Hs|Hs]; [left; by rewrite Hs|right].
    apply ready_launch_ok in El as (Hl & pk & Hpk). assert (Hown' := Hown). destruct Hown' as (Hid & _ & _ & _ & Hpub & _).
    rewrite Hid in Hl. assert (ls_agent_id launch = id) as Ha by apply Hl.
    rewrite Ha, Hacc, K in Hs. rewrite Hpub in Hpk. exists id, r, w1, identity, launch. do 2 eexists.
    split_and!; [done..|exact Hs|exact Hl|by exists pk].
  - left. match type of Ew with _ = (?rest w1).2 => assert (always silent rest) as Hs end.
    { apply (always_bind silent); [apply silent_publish|intros _]. by intros. }
    specialize (Hs w1). rewrite <- Ew in Hs. unfold silent in Hs. unfold starts_kept, starts in *. by rewrite Hs.
Qed.
End Launched.

(** ** An agent that is launched *)
#[local] Existing Instances sample_keys sample_nostr.
#[local] Instance launching_kinds : BuzzKinds := {| KIND_MANAGED_AGENT := 30177; KIND_PERSONA := 30175 |}.
#[local] Instance launching_documents : DocumentJson := {|
  agent_to_json _ := "{}"; agent_of_json _ := Some sample_config_file;
  persona_to_json _ := "{}"; persona_of_json _ := None
|}.
#[local] Instance launching_receipts : ReceiptJson := {|
  receipt_to_json _ := "{}"; receipt_of_json _ := None; revision_to_json _ _ := "{}"
|}.
#[local] Instance launching_signer : SignerKeys := {
  Keys := string; PublicKey := string; public_key := String.append "public-"; to_hex := id;
  PublicKey_from_str := Some;
  compute_auth_tag owner agent conditions := Some (String.append owner (String.append ">" agent))
}.
#[local] Instance launching_outside : Outside unit := {|
  build_client := mret tt;
  send_request := λ _, mret (mkHttpResponse 200 (Ok "{}"));
  draw_uuid := λ w, ("nonce", w); timestamp := λ w, (7, w)
|}.
#[local] Instance launching_supervisor : LocalSupervisor unit := {|
  set_agent_identity _ _ := mret tt; local_start _ _ := throw SecretResolution;
  local_inspect r := mret r; local_stop r := mret r; log_tail _ _ := mret EmptyString
|}.
Definition launching_db : Db :=
  set_t_operations {[mkOperationId 5 := mkDurableOperation (mkOperationId 5) EnableAgent Running
                       (Some (mkAgentId 7)) None 1 1 "corr"]}
  (set_t_agents {[mkAgentId 7 := mkAgentRow (mkCommunityConfigId 1) sample_agent 0]}
    (set_t_communities {[mkCommunityConfigId 1 := mkCommunityRow worker_community 0]} empty_db)).
Definition launching_fs : Fs :=
  mkFs {[ PASSWD := mkNode RegularFile 420 0 "buzz-agent:x:901:901::/home/buzz-agent:/bin/sh";
          GROUPS := mkNode RegularFile 420 0 "buzz-agent:x:901:";
          agent_path (agent_files_of daemon_state) (mkAgentId 7) := mkNode RegularFile 384 0 "{}";
          identity_file (join daemon_state "community-identities") "public-owner"
            := mkNode RegularFile 384 0 "owner" ]} [] 0.
Definition launching_world : World (DaemonFx (Recorded unit)) :=
  mkWorld launching_db (mkDaemonFx launching_fs ((), (∅, []))
    (mkChannel true []) (mkChannel true []) (mkChannel true [])) 0 0 0.
Definition launching_operation : OperationResource :=
  mkOperationResource (mkOperationId 5) EnableAgent Running (Some (mkAgentId 7)) "corr" None 1 1.
Definition launching_run : result DaemonError unit * World (DaemonFx (Recorded unit)) :=
  reconcile_dynamic_lifecycle_operation (R := Recorded unit) (λ k, k) sample_time sample_time sample_uuid (λ _, "tmp")
    (λ _, sample_pubkey) (λ _, None) daemon_context launching_operation true launching_world.
Lemma agents_are_launched_as_themselves_witness :
  ∃ launch secrets identity, starts launching_run.2 = [mkStart launch secrets (Some identity)]
    ∧ ls_agent_id launch = mkAgentId 7 ∧ ls_environment launch !! HARNESS_PRIVATE_KEY_ENV = None.
Proof.
  pose proof (agents_are_launched_as_themselves (R := unit) (λ k, k) sample_time sample_time sample_uuid
    (λ _, "tmp") (λ _, sample_pubkey) (λ _, None) daemon_context launching_operation true launching_world) as K.
  destruct K as [K|(id & r & w1 & identity & launch & secrets & tag & Hid & _ & _ & Hs & Hl & _)].
  - exfalso. apply (f_equal List.length) in K. vm_compute in K. discriminate K.
  - injection Hid as <-. exists launch, secrets, identity. split_and!; [exact Hs|apply Hl|apply Hl].
Defined.
