(* ===== verification/Startup.v ===== *)
(** * Starting and stopping the daemon (main.rs, [main])
    The directories it needs, the work it resumes, and the loop that waits for a server, the
    auto-join manager or a signal. [Worker.restore_work] is what it hands to the worker. *)
From Stdlib Require Import ZArith Lia String Ascii.
From stdpp Require Import base gmap list strings.
From S2P Require Import Prelude RustStr Ids Signer Lifecycle Agent Runtime Launch Auth ApiTypes Bytes.
From S2P Require Import Schema Storage StoreInv Sha256 Monad Application AppProps AppCommands Fs Reconcile.
From S2P Require Import AgentFiles Custody Transport Nostr RelayProjection CommunityJoin Daemon Receipts Wake.
From S2P Require Import Publications AgentTree LogCapture Process Supervisor Worker.
#[local] Open Scope Z_scope.
#[local] Set Warnings "-notation-for-abbreviation".

Inductive MainError : Type :=
| MainDaemon (e : DaemonError) | MainTransport (e : TransportError) | MainJoin (message : string).
Inductive MainCompletion : Type :=
| LifecycleEnded (r : result TransportError unit)
| AutoJoinEnded (r : result DaemonError unit)
| Signalled.
(** What the [select!] of [main] completes with. A task that panicked has an error of its own. *)
Inductive MainEvent : Type :=
| UnixTaskEnds (r : result string (result TransportError unit))
| TlsTaskEnds (r : result string (result TransportError unit))
| AutoJoinTaskEnds (r : result string (result DaemonError unit))
| CtrlC (r : result IoError unit)
| Terminate
| RetentionTick.

Section Main.
Context {R : Type}.
#[local] Notation W := (World (DaemonFx R)).
Variable config : DaemonConfig.

Definition create_startup_directory (directory : option Path) : M W DaemonError unit :=
  directory ← of_result (ok_or (InvalidConfig "configured path has no parent") directory);
  on (S := Fs) (M_map_err DaemonIo (create_dir_all directory)).
Definition startup_directories : M W DaemonError unit :=
  let socket_directory := parent (la_unix_socket (dc_lifecycle_api config)) in
  _ ← forM_ create_startup_directory
        [parent (dc_state_database config); socket_directory; Some (dc_log_directory config)];
  match socket_directory with
  | Some directory => on (S := Fs) (M_map_err DaemonIo (set_permissions directory 457 (* 0o711 *)))
  | None => mret tt
  end.

(** ** The loop *)
(** [sweep]: [enqueue_expired_purges] ([Application]); [tls]: whether there is a TLS server. *)
Variables (sweep : M W DaemonError unit) (tls : bool).

Definition lifecycle_completion (r : result string (result TransportError unit)) : result MainError MainCompletion :=
  match r with
  | Ok r => Ok (LifecycleEnded r)
  | Err message => Err (MainTransport (TransportTask message))
  end.
(** One completion: go on, or leave the loop. *)
Definition main_turn (event : MainEvent) : M W MainError (option MainCompletion) :=
  match event with
  | UnixTaskEnds r => of_result (rmap Some (lifecycle_completion r))
  | TlsTaskEnds r => if tls then of_result (rmap Some (lifecycle_completion r)) else mret None
  | AutoJoinTaskEnds (Ok r) => mret (Some (AutoJoinEnded r))
  | AutoJoinTaskEnds (Err message) => throw (MainJoin message)
  | CtrlC (Ok _) => mret (Some Signalled)
  | CtrlC (Err e) => throw (MainDaemon (DaemonIo e))
  | Terminate => mret (Some Signalled)
  | RetentionTick => _ ← M_map_err MainDaemon sweep; mret None
  end.
(** [None]: still running where the events end. *)
Fixpoint main_loop (events : list MainEvent) : M W MainError (option MainCompletion) :=
  match events with
  | [] => mret None
  | event :: events =>
    completed ← main_turn event;
    match completed with Some c => mret (Some c) | None => main_loop events end
  end.

(** After the loop: the result of what ended, and only when that is no error, the workers are
    told to stop and joined. [joined]: a worker that panicked. *)
Definition completion_result (c : MainCompletion) : result MainError unit :=
  match c with
  | LifecycleEnded r => map_err MainTransport r
  | AutoJoinEnded r => map_err MainDaemon r
  | Signalled => Ok tt
  end.
Definition stop_publications : W → W :=
  set_fx (λ f, mkDaemonFx (fx_fs f) (fx_outside f) (fx_work f)
                 (channel_send ShutdownPublications (fx_publications f)).2 (fx_auto_join f)).
Definition finish_main (c : MainCompletion) (reconcile_joined publication_joined : bool) : M W MainError unit :=
  _ ← of_result (completion_result c);
  _ ← modify (λ w, stop_publications (send_work WorkShutdown w).2);
  _ ← (if reconcile_joined then mret tt else throw (MainDaemon (Task "reconciliation worker panicked")));
  if publication_joined then mret tt else throw (MainDaemon (Task "relay publication worker panicked")).

Lemma main_loop_app a b w w1 : main_loop a w = (Ok None, w1) → main_loop (a ++ b) w = main_loop b w1.
Proof.
  revert w. induction a as [|e a IH]; intros w; cbn [main_loop app]; [by intros [= <-]|].
  unfold mbind, M_bind. destruct (main_turn e w) as [[[c|]|err] w2]; [done|apply IH|done].
Qed.
(** A signal ends the loop, whatever else was reported before, and the workers are then told
    to stop, after everything that was handed to them. *)
Theorem signals_stop_the_workers events later (w w1 : W) r1 r2 :
  main_loop events w = (Ok None, w1) → ch_open (fx_work (w_fx w1)) = true →
  main_loop (events ++ Terminate :: later) w = (Ok (Some Signalled), w1)
  ∧ ch_sent (fx_work (w_fx (finish_main Signalled r1 r2 w1).2)) = ch_sent (fx_work (w_fx w1)) ++ [WorkShutdown].
Proof.
  intros Hl Ho. split; [by rewrite (main_loop_app _ _ _ _ Hl)|].
  assert (∀ v : W, (finish_main Signalled r1 r2 v).2 = stop_publications (send_work WorkShutdown v).2) as Hf
    by (intros v; by destruct r1, r2).
  rewrite Hf. unfold send_work, channel_send. by rewrite Ho.
Qed.
(** A server that ends with an error ends the daemon: its workers are then not told to stop,
    nor is their work waited for. *)
Theorem failing_server_abandons_the_workers e (w : W) r1 r2 :
  finish_main (LifecycleEnded (Err e)) r1 r2 w = (Err (MainTransport e), w).
Proof. done. Qed.
End Main.

(** ** What is resumed *)
Section Resume.
Context `{UuidLib} `{NostrLib} `{SignerKeys} `{BuzzKinds} `{DocumentJson} `{ReceiptJson}.
Context {R : Type} `{Outside R} `{LocalSupervisor R}.
Variables (time : nat → Z) (temp_at : nat → string).
Variable context : ReconcileContext.
#[local] Notation W := (World (DaemonFx R)).

(** Queues grow by these. *)
Definition queues (works : list ReconcileWork) (w w' : W) : Prop :=
  ch_sent (fx_work (w_fx w')) = ch_sent (fx_work (w_fx w)) ++ works
  ∧ t_operations (w_db w') = t_operations (w_db w).
Lemma hand_queues work w w' : hand_to_worker (R := R) work w = (Ok tt, w') → queues [work] w w'.
Proof.
  unfold hand_to_worker, send_work, channel_send. destruct (ch_open (fx_work (w_fx w))); [|done]. by intros [= <-].
Qed.
Lemma queue_then_queues works w w1 w' : queue_kept w w1 → queues works w1 w' → queues works w w'.
Proof. intros [Hq Ho] [Hs Hp]. split; [by rewrite Hs, Hq|congruence]. Qed.
Lemma queues_trans a b w w1 w' : queues a w w1 → queues b w1 w' → queues (a ++ b) w w'.
Proof. intros [Ha Hoa] [Hb Hob]. split; [by rewrite Hb, Ha, app_assoc|congruence]. Qed.

Lemma restore_agent_queues agent w w' :
  restore_agent (R := R) time temp_at context agent w = (Ok tt, w') → queues [WorkStartupAgent (spec_id agent)] w w'.
Proof.
  unfold restore_agent. intros Hr.
  apply bind_ok in Hr as (tmp & w1 & E1 & Hr). apply bind_ok in Hr as ([] & w2 & E2 & Hr).
  apply bind_ok in Hr as (file & w3 & E3 & Hr). apply bind_ok in Hr as (resolved & w4 & E4 & Hr).
  apply bind_ok in Hr as (now & w5 & E5 & Hr). apply bind_ok in Hr as ([] & w6 & E6 & Hr).
  apply hand_queues in Hr. eapply queue_then_queues; [|exact Hr].
  apply (always_run queue_kept _ _ _ _ (calm_temp _ queue_kept)) in E1.
  apply (always_run queue_kept _ _ _ _ (calm_on queue_kept _)) in E2, E3, E4.
  apply (always_run queue_kept _ _ _ _ (calm_clock _ queue_kept)) in E5.
  apply (always_run queue_kept _ _ _ _ (always_map_err queue_kept _ _ (calm_put_agent queue_kept _ _))) in E6.
  by repeat (etrans; [eassumption|]).
Qed.
Lemma forM_queues {A} (f : A → M W DaemonError unit) (g : A → ReconcileWork) l w w' :
  (∀ a v v', f a v = (Ok tt, v') → queues [g a] v v') →
  forM_ f l w = (Ok tt, w') → queues (g <$> l) w w'.
Proof.
  intros Hf. revert w. induction l as [|a l IH]; intros w; cbn [forM_].
  - intros [= <-]. split; [by rewrite app_nil_r|done].
  - intros ([] & w1 & E1 & Hl)%bind_ok. rewrite fmap_cons. apply (queues_trans [g a] _ _ w1); [by apply Hf|by apply IH].
Qed.

Lemma hand_operations_db ops w w2 :
  (forM_ (λ operation, hand_to_worker (R := R) (WorkOperation (op_id operation))) ops w).2 = w2 → w_db w2 = w_db w.
Proof.
  intros <-. revert w. induction ops as [|op ops IH]; intros w; [done|]. cbn [forM_]. unfold mbind, M_bind.
  assert (w_db (hand_to_worker (R := R) (WorkOperation (op_id op)) w).2 = w_db w) as Hh
    by (unfold hand_to_worker, send_work, channel_send; by destruct (ch_open (fx_work (w_fx w)))).
  destruct (hand_to_worker (WorkOperation (op_id op)) w) as [[[]|e] w1]; cbn in Hh |- *; [by rewrite IH|done].
Qed.

Lemma restore_queues (w w' : W) :
  restore_work (R := R) time temp_at context w = (Ok tt, w') →
  queues ((WorkOperation ∘ op_id <$> nonterminal_operations (w_db w))
          ++ (WorkStartupAgent ∘ spec_id <$> list_agents None (w_db w))) w w'.
Proof.
  unfold restore_work. intros Hr. apply bind_ok in Hr as (ops & w1 & E1 & Hr). injection E1 as <- <-.
  apply bind_ok in Hr as ([] & w2 & E2 & Hr). apply bind_ok in Hr as (agents & w3 & E3 & Hr). injection E3 as <- <-.
  assert (w_db w2 = w_db w) as Hdb by (apply (hand_operations_db (nonterminal_operations (w_db w))); by rewrite E2).
  rewrite Hdb in Hr. apply (queues_trans _ _ w w2).
  - eapply (forM_queues _ (WorkOperation ∘ op_id)); [|exact E2]. intros op v v'. apply hand_queues.
  - eapply (forM_queues _ (WorkStartupAgent ∘ spec_id)); [|exact Hr]. intros a v v'. apply restore_agent_queues.
Qed.
Lemma nonterminal_listed db id op :
  t_operations db !! id = Some op → OperationStatus_is_terminal (op_status op) = false →
  op ∈ nonterminal_operations db.
Proof.
  intros Ho Ht. unfold nonterminal_operations. rewrite elem_of_sort_by. apply list_elem_of_filter.
  split; [by destruct (op_status op); auto|].
  unfold operations_of. apply list_elem_of_fmap. exists (id, op). split; [done|]. by apply elem_of_map_to_list.
Qed.
(** Starting keeps whatever handing work over and calm steps keep. *)
Lemma keeps_restore (Q : W → W → Prop) `{!Calm Q} :
  (∀ work, always Q (hand_to_worker (R := R) work)) →
  always Q (restore_work (R := R) time temp_at context).
Proof.
  intros Hh. unfold restore_work. apply (always_bind Q); [apply (always_gets Q)|intros operations].
  apply (always_bind Q); [apply (always_forM_ Q); intros op; apply Hh|intros _].
  apply (always_bind Q); [apply (always_gets Q)|intros agents]. apply (always_forM_ Q). intros agent.
  unfold restore_agent, dfiles, dstore, next_temp. always_steps;
    first [ apply (calm_on Q) | apply (calm_draw Q) | apply (calm_clock _ Q) | apply Hh
          | apply (always_map_err Q), (calm_put_agent Q) ].
Qed.

(** Starting the daemon resumes all of the work: the worker is handed every operation that is
    not over, in the order of their creation, and then every agent; none of the operations
    changes on the way. *)
Theorem restart_resumes_the_work (w w' : W) :
  restore_work (R := R) time temp_at context w = (Ok tt, w') →
  queues ((WorkOperation ∘ op_id <$> nonterminal_operations (w_db w))
          ++ (WorkStartupAgent ∘ spec_id <$> list_agents None (w_db w))) w w'
  ∧ ∀ id op, t_operations (w_db w) !! id = Some op → OperationStatus_is_terminal (op_status op) = false →
      WorkOperation (op_id op) ∈ ch_sent (fx_work (w_fx w')).
Proof.
  intros Hr%restore_queues. split; [done|]. intros id op Ho Ht. destruct Hr as [-> _].
  apply elem_of_app. right. apply elem_of_app. left. apply list_elem_of_fmap. exists op. split; [done|].
  by eapply nonterminal_listed.
Qed.
End Resume.

(** ** An example: an operation that was waiting when the daemon stopped *)
#[local] Instance startup_documents : DocumentJson := {|
  agent_to_json _ := "{}"; agent_of_json _ := None; persona_to_json _ := "{}"; persona_of_json _ := None
|}.
Lemma restart_resumes_the_work_witness :
  let w := daemon_world (set_t_operations {[mkOperationId 5 := lost_operation]} empty_db) (mkFs ∅ [] 0) in
  let w' := (restore_work (R := unit) sample_time (λ _, "tmp") daemon_context w).2 in
  WorkOperation (mkOperationId 5) ∈ ch_sent (fx_work (w_fx w')).
Proof.
  intros w w'. assert (restore_work (R := unit) sample_time (λ _, "tmp") daemon_context w = (Ok tt, w')) as Hr
    by (subst w w'; vm_compute; reflexivity).
  destruct (restart_resumes_the_work (R := unit) sample_time (λ _, "tmp") daemon_context w w' Hr) as [_ Hq].
  apply (Hq (mkOperationId 5) lost_operation); vm_compute; reflexivity.
Defined.
