(* ===== verification/Answers.v ===== *)
(** * Answered requests have handed over their operations
    How a request that is answered, or refused, changes the operations and the queue of the
    reconciliation worker: from the router (src/src/transport.rs) over the handler
    (src/src/api.rs) and the service (src/src/application.rs) to the daemon's effects
    (src/src/main.rs, [LifecycleWake]). *)
From Stdlib Require Import ZArith Lia String.
From stdpp Require Import base gmap list strings.
From S2P Require Import Prelude RustStr Ids Lifecycle Agent Runtime Launch Auth ApiTypes Schema.
From S2P Require Import Storage StoreInv StoreProps Monad Application AppProps AppCommands Completion.
From S2P Require Import Api ApiProps Fs AgentFiles Nostr RelayProjection CommunityJoin Wake.
#[local] Open Scope Z_scope.
#[local] Set Warnings "-notation-for-abbreviation".

(** ** Computations that do one thing when they answer and another when they fail *)
Section Outcomes.
Context {W : Type} (Q Q' : W → W → Prop) `{!PreOrder Q, !PreOrder Q'}.
Definition outcomes {E A} (m : M W E A) : Prop := ∀ w,
  match m w with (Ok _, w') => Q w w' | (Err _, w') => Q' w w' end.

Lemma outcomes_of_result {E A B} (r : result E A) (f : A → M W E B) :
  (∀ a, outcomes (f a)) → outcomes (of_result r ≫= f).
Proof. intros Hf w. unfold mbind, M_bind, of_result. destruct r; [apply Hf|reflexivity]. Qed.
Lemma outcomes_throw {E A} (e : E) : outcomes (throw e : M W E A).
Proof. intros w. cbn. reflexivity. Qed.
Lemma outcomes_map_err {E F A} (g : E → F) (m : M W E A) : outcomes m → outcomes (M_map_err g m).
Proof. intros Hm w. specialize (Hm w). unfold M_map_err. by destruct (m w) as [[]]. Qed.
Lemma outcomes_then {E A B} (m : M W E A) (f : A → result E B) :
  (∀ w w', Q w w' → Q' w w') → outcomes m → outcomes (a ← m; of_result (f a)).
Proof.
  intros Hs Hm w. specialize (Hm w). unfold mbind, M_bind, of_result.
  destruct (m w) as [[a|e] w']; [|done]. by destruct (f a); [|apply Hs].
Qed.
Lemma outcomes_always {E A} (m : M W E A) : (∀ w w', Q w w' → Q' w w') → always Q m → outcomes m.
Proof. intros Hs Hm w. specialize (Hm w). destruct (m w) as [[]]; [done|by apply Hs]. Qed.
Lemma outcomes_bind {E A B} (m : M W E A) (f : A → M W E B) :
  (∀ w w', Q w w' → Q' w w') → always Q m → (∀ a, outcomes (f a)) → outcomes (m ≫= f).
Proof.
  intros Hs Hm Hf w. specialize (Hm w). unfold mbind, M_bind. destruct (m w) as [[a|e] w1]; cbn in Hm; [|by apply Hs].
  specialize (Hf a w1). destruct (f a w1) as [[b|e] w2]; [by etrans|]. etrans; [apply Hs, Hm|done].
Qed.

(** What the operations of a service do. *)
Class ServiceOutcomes `{LifecycleApplication W} : Prop := {
  out_join r : outcomes (svc_join_community r); out_update_community r : outcomes (svc_update_community r);
  out_get_community r : outcomes (svc_get_community r); out_list_communities : outcomes svc_list_communities;
  out_remove r : outcomes (svc_remove_community r); out_create_persona r : outcomes (svc_create_persona r);
  out_update_persona r : outcomes (svc_update_persona r); out_get_persona r : outcomes (svc_get_persona r);
  out_list_personas : outcomes svc_list_personas; out_delete_persona r : outcomes (svc_delete_persona r);
  out_create_agent a m i : outcomes (svc_create_agent a m i);
  out_update_agent a r : outcomes (svc_update_agent a r);
  out_change_state a r : outcomes (svc_change_agent_state a r);
  out_delete_agent a r : outcomes (svc_delete_agent a r);
  out_purge_agent a r : outcomes (svc_purge_agent a r);
  out_get_agent r : outcomes (svc_get_agent r); out_list_agents r : outcomes (svc_list_agents r);
  out_agent_logs r : outcomes (svc_agent_logs r); out_get_operation r : outcomes (svc_get_operation r);
  out_wait r t : outcomes (svc_wait_operation r t); out_submit_draft a r : outcomes (svc_submit_draft a r);
  out_get_draft r : outcomes (svc_get_draft r); out_promote_draft a r : outcomes (svc_promote_draft a r)
}.

(** A route does what the service operation it dispatches to does. *)
Context `{LifecycleApplication W} `{!ServiceOutcomes}.
Hypothesis weaker : ∀ w w', Q w w' → Q' w w'.
#[local] Hint Resolve out_join out_update_community out_get_community out_list_communities out_remove
  out_create_persona out_update_persona out_get_persona out_list_personas out_delete_persona
  out_create_agent out_update_agent out_change_state out_delete_agent out_purge_agent out_get_agent
  out_list_agents out_agent_logs out_get_operation out_wait out_submit_draft out_get_draft
  out_promote_draft : core.
Lemma outcomes_map {A B} (g : A → B) (m : Api A) : outcomes m → outcomes (M_map g m).
Proof. intros Hm. apply (outcomes_then m (λ a, Ok (g a))); [exact weaker|done]. Qed.
Lemma outcomes_application {A} (m : M W ApplicationError A) : outcomes m → outcomes (application m).
Proof. apply outcomes_map_err. Qed.
Lemma outcomes_get_draft actor id : outcomes (h_get_draft actor id).
Proof.
  assert (outcomes (draft ← application (svc_get_draft id);
    of_result (map_err api_authorization (rmap (λ _, draft) (authorize actor ReadDraft (Some (dr_owner draft)))))))
    as Ho by (apply outcomes_then; [exact weaker|]; apply outcomes_application; auto).
  intros w. specialize (Ho w). unfold h_get_draft, mbind, M_bind, of_result in *.
  destruct (application _ w) as [[draft|e] w']; [|done]. by destruct (authorize _ _ _) as [[]|].
Qed.
Lemma route_outcomes fresh actor request : outcomes (route fresh actor request).
Proof.
  destruct request; cbn [route]; apply outcomes_map; try apply outcomes_get_draft;
    unfold h_join_community, h_update_community, h_get_community, h_list_communities,
      h_remove_community, h_create_persona, h_update_persona, h_get_persona, h_list_personas,
      h_delete_persona, h_create_agent, h_update_agent, h_change_agent_state, h_delete_agent,
      h_purge_agent, agent_command, h_get_agent, h_list_agents, h_agent_logs, h_get_operation,
      h_await_operation, h_submit_draft, h_promote_draft, authorized, validated, reject;
    repeat (apply outcomes_of_result; intros ?); repeat case_match;
    repeat (apply outcomes_of_result; intros ?); first [apply outcomes_throw|apply outcomes_application; auto].
Qed.
Lemma handle_outcomes decode fresh actor bytes w status response w' :
  handle decode fresh actor bytes w = (status, response, w') →
  match response with WireOk _ => Q w w' | WireError _ => Q' w w' end.
Proof.
  unfold handle. destruct (decode bytes) as [request|]; [|by intros [= <- <- <-]].
  pose proof (route_outcomes fresh actor request w) as Ho.
  destruct (route fresh actor request w) as [[resource|e] w1]; by intros [= <- <- <-].
Qed.
End Outcomes.

(** ** Operations that are not over *)
Definition unfinished (op : DurableOperation) : Prop := OperationStatus_is_terminal (op_status op) = false.
Lemma unfinished_active op : unfinished op → is_active (op_status op) = true.
Proof. unfold unfinished. by destruct (op_status op). Qed.

(** Nothing is newly waiting: what is unfinished was so before, as the same kind. *)
Definition none_new (db db' : Db) : Prop := ∀ id op',
  t_operations db' !! id = Some op' → unfinished op' →
  ∃ op, t_operations db !! id = Some op ∧ unfinished op ∧ op_kind op = op_kind op'.
#[export] Instance none_new_preorder : PreOrder none_new.
Proof.
  split; [by intros db id op; exists op|]. intros a b c Hab Hbc id op Ho Hu.
  destruct (Hbc id op Ho Hu) as (o1 & Ho1 & Hu1 & Hk1). destruct (Hab id o1 Ho1 Hu1) as (o2 & Ho2 & Hu2 & Hk2).
  exists o2. split_and!; [done|done|congruence].
Qed.
Lemma none_new_same db db' : t_operations db' = t_operations db → none_new db db'.
Proof. intros Heq id op. rewrite Heq. by exists op. Qed.
Lemma none_new_history db db' : history db' = history db → none_new db db'.
Proof. intros Hh. apply none_new_same. unfold history in Hh. by injection Hh. Qed.
Lemma none_new_delete_agent id db : none_new db (sql_delete_agent id db).
Proof.
  unfold sql_delete_agent. destruct (t_agents db !! id); [|reflexivity].
  intros i op. db_cbn. rewrite lookup_fmap. intros Ho Hu.
  destruct (t_operations db !! i) as [o|]; [|done]. injection Ho as <-. exists o.
  unfold unfinished, null_agent in *. split; [done|]. by destruct (bool_decide _).
Qed.

Section Removal.
Context `{UuidLib}.
Lemma none_new_purged_agent id now fresh agent n db n' db' :
  purge_deleted_agent id now fresh agent n db = Ok (n', db') → none_new db db'.
Proof.
  unfold purge_deleted_agent. intros Hp. step_in Hp. destruct a as [m d1].
  step_in Hp. injection Hp as <- <-. apply map_err_ok in E0. transitivity d1.
  { step_in E; [|injection E as <- <-; reflexivity].
    do 2 (step_in E). injection E as <- <-. apply map_err_ok in E2, E3.
    etrans; by eapply none_new_history, sql_enqueue_history. }
  transitivity a.
  { unfold sql_insert_operation in E0. do 2 (step_in E0). injection E0 as <-. intros i op. db_cbn.
    rewrite lookup_insert. case_decide; [by intros [= <-]|]. by exists op. }
  etrans; [|apply none_new_delete_agent]. apply none_new_same.
  unfold sql_insert_tombstone. by destruct (t_tombstones a !! agent).
Qed.
Lemma none_new_purged_agents id now fresh agents n db n' db' :
  purge_deleted_agents id now fresh agents n db = Ok (n', db') → none_new db db'.
Proof.
  revert n db. induction agents as [|a agents IH]; cbn; intros n db Hp; [injection Hp as <- <-; reflexivity|].
  step_in Hp. destruct a0 as [m d1]. etrans; [by eapply none_new_purged_agent|by eapply IH].
Qed.
Lemma none_new_tombstones id now fresh rows n db db' :
  tombstone_personas id now fresh rows n db = Ok db' → none_new db db'.
Proof.
  revert n db. induction rows as [|p rows IH]; cbn; intros n db Hp; [injection Hp as <-; reflexivity|].
  step_in Hp. apply map_err_ok in E. etrans; [by eapply none_new_history, sql_enqueue_history|by eapply IH].
Qed.
(** Removing a community records its purges as done. *)
Lemma none_new_removal id now fresh db :
  none_new db (after_call db (CallDeleteCommunityWithAgents id now fresh)).
Proof.
  unfold after_call. cbn [run_call].
  destruct (delete_community_with_deleted_agents id now fresh db) as [[r db']|e] eqn:Hd; cbn; [|reflexivity].
  unfold delete_community_with_deleted_agents in Hd. do 3 (step_in Hd).
  destruct_pairs. do 2 (step_in Hd). destruct_pairs. injection Hd as <- <-. apply map_err_ok in E3.
  etrans; [by eapply none_new_purged_agents|]. etrans; [by eapply none_new_tombstones|].
  apply none_new_same. unfold sql_delete_community in E3. repeat step_in E3; by injection E3 as <- <-.
Qed.
End Removal.

(** An agent command records at most its own operation. *)
Lemma command_operations operation idempotency mutation draft audit db o replayed db' :
  apply_agent_command operation idempotency mutation draft audit db = Ok ((o, replayed), db') →
  if replayed then db' = db
  else o = operation ∧ t_operations db' = <[op_id operation := operation]> (t_operations db).
Proof.
  destruct replayed; intros Ha.
  - by apply apply_agent_command_replay in Ha as (-> & _).
  - apply apply_agent_command_fresh in Ha as (_ & -> & d1 & d2 & d3 & d4 & H1 & H2 & H3 & H4 & H5).
    split; [done|]. apply apply_mutation_history in H1. unfold history in H1. injection H1 as Ho _ _ _.
    unfold sql_insert_operation in H2. do 2 (step_in H2). injection H2 as <-.
    unfold sql_insert_idempotency in H3. do 2 (step_in H3). injection H3 as <-.
    apply insert_audit_tables in H5 as ->. unfold sql_insert_audit. db_cbn.
    transitivity (t_operations d4); [done|].
    destruct draft; [|subst d4; db_cbn; by rewrite Ho].
    apply sql_promote_draft_history in H4. unfold history in H4. injection H4 as H4 _ _ _.
    rewrite H4. db_cbn. by rewrite Ho.
Qed.

(** ** What is handed to the worker *)
Section Announced.
Context {R : Type}.
#[local] Notation W := (World (DaemonFx R)).

(** While the worker listens, its queue grows, and every operation that is newly waiting
    has been handed over to it, but for kinds in [except]. *)
Definition announced (except : OperationKind → Prop) (w w' : W) : Prop :=
  ch_open (fx_work (w_fx w)) = true →
  ch_open (fx_work (w_fx w')) = true
  ∧ ∃ works, ch_sent (fx_work (w_fx w')) = ch_sent (fx_work (w_fx w)) ++ works ∧ (WorkShutdown ∉ works)
    ∧ ∀ id op', t_operations (w_db w') !! id = Some op' → unfinished op' →
        except (op_kind op') ∨ WorkOperation id ∈ works
        ∨ ∃ op, t_operations (w_db w) !! id = Some op ∧ unfinished op ∧ op_kind op = op_kind op'.

Lemma announced_none_new except (w w' : W) :
  fx_work (w_fx w') = fx_work (w_fx w) → none_new (w_db w) (w_db w') → announced except w w'.
Proof.
  intros Hf Hs Ho. rewrite Hf. split; [done|]. exists []. split_and!; [by rewrite app_nil_r|apply not_elem_of_nil|].
  intros id op' Hop Hu. right. right. by apply Hs.
Qed.
Lemma announced_weaken (except except' : OperationKind → Prop) (w w' : W) :
  (∀ k, except k → except' k) → announced except w w' → announced except' w w'.
Proof.
  intros He Ha Ho. destruct (Ha Ho) as (Ho' & works & Hs & Hn & Hw). split; [done|]. exists works.
  split_and!; [done|done|]. intros id op' Hop Hu. destruct (Hw id op' Hop Hu) as [?|[?|?]]; auto.
Qed.
#[export] Instance announced_calm `{UuidLib} except : Calm (announced except).
Proof.
  split; [split| |].
  - intros w. by apply announced_none_new.
  - intros a b c Hab Hbc Ho. destruct (Hab Ho) as (Hob & w1 & Hs1 & Hn1 & Ha1).
    destruct (Hbc Hob) as (Hoc & w2 & Hs2 & Hn2 & Ha2). split; [done|]. exists (w1 ++ w2).
    split_and!; [by rewrite Hs2, Hs1, app_assoc|rewrite elem_of_app; tauto|]. intros id op Hop Hu.
    destruct (Ha2 id op Hop Hu) as [?|[?|(o1 & Ho1 & Hu1 & Hk1)]]; [by left|right; left; set_solver|].
    destruct (Ha1 id o1 Ho1 Hu1) as [Hx|[?|(o2 & Ho2 & Hu2 & Hk2)]].
    + left. by rewrite <- Hk1.
    + right. left. set_solver.
    + right. right. exists o2. split_and!; [done|done|congruence].
  - intros w w' Hd Hf. apply announced_none_new; [done|]. by rewrite Hd.
  - intros c w Hc. apply announced_none_new; [done|]. by apply none_new_same, quiet_call_operations.
Qed.

(** Handing over one operation. *)
Lemma announced_ready except op (w : W) : announced except w (wake_operation_ready op w).2.
Proof.
  intros Ho. unfold wake_operation_ready, send_work, channel_send. rewrite Ho. cbn. split; [done|].
  exists [WorkOperation (op_id op)]. split_and!; [done|by intros ?%list_elem_of_singleton|].
  intros id op' Hop Hu. right. right. by exists op'.
Qed.
(** Recording an operation and handing it over, whatever happens in between. *)
Lemma announced_recorded except op (w w1 w2 w' : W) :
  t_operations (w_db w1) = <[op_id op := op]> (t_operations (w_db w)) → fx_work (w_fx w1) = fx_work (w_fx w) →
  announced except w1 w2 → (wake_operation_ready op w2).2 = w' → announced except w w'.
Proof.
  intros Ht Hf Ha <- Ho. rewrite <- Hf in Ho. destruct (Ha Ho) as (Ho2 & works & Hs & Hn & Hw). rewrite Hf in Hs.
  unfold wake_operation_ready, send_work, channel_send. rewrite Ho2. cbn. split; [done|].
  exists (works ++ [WorkOperation (op_id op)]).
  split_and!; [by rewrite Hs, app_assoc|rewrite elem_of_app, list_elem_of_singleton; by intros [?|?]|].
  intros id op' Hop Hu. destruct (Hw id op' Hop Hu) as [?|[?|(o & Hoo & Huo & Hko)]];
    [by left|right; left; set_solver|].
  rewrite Ht, lookup_insert in Hoo. case_decide; [subst id; right; left; set_solver|]. right. right. by exists o.
Qed.
Lemma announced_new (except : OperationKind → Prop) op (w w' : W) :
  t_operations (w_db w') = <[op_id op := op]> (t_operations (w_db w)) → fx_work (w_fx w') = fx_work (w_fx w) →
  except (op_kind op) → announced except w w'.
Proof.
  intros Ht Hf He Ho. rewrite Hf. split; [done|]. exists [].
  split_and!; [by rewrite app_nil_r|apply not_elem_of_nil|]. intros id op' Hop Hu.
  rewrite Ht, lookup_insert in Hop. case_decide; [injection Hop as <-; by left|]. right. right. by exists op'.
Qed.
End Announced.

(** ** A service over effects *)
Section Sqlite.
Context `{UuidLib} {F : Type} `{LifecycleEffects F}.
Context (Q Q' : World F → World F → Prop) `{!StoreClient Q} `{!EffectsKeep Q}.
Variables (time uuid_at : nat → Z) (serde_json_to_vec : HashedRequest → option string).
Variable sha256_hex : string → string.
Variable retention_seconds : Z.
(** A wait that is over reads the operation. *)
Definition read_operation (id : OperationId) (timeout : Z) : App F OperationResource := app_get_operation id.
#[local] Notation service := (sqlite_application time uuid_at serde_json_to_vec sha256_hex retention_seconds
  read_operation).

Lemma sqlite_outcomes :
  (∀ w w', Q w w' → Q' w w') →
  (∀ id t fresh w, Q w (stored_by (CallDeleteCommunityWithAgents id t fresh) w)) →
  (∀ actor metadata request plan, plan_wake_immediately plan = true →
     always Q (execute time uuid_at serde_json_to_vec sha256_hex actor metadata request plan)) →
  (∀ actor metadata input, outcomes Q Q' (create_agent time uuid_at serde_json_to_vec sha256_hex actor metadata input)) →
  (∀ actor request, outcomes Q Q' (promote_draft time uuid_at serde_json_to_vec sha256_hex actor request)) →
  ServiceOutcomes (H := service) Q Q'.
Proof.
  intros Hs Hr He Hc Hp. constructor; cbn [sqlite_application svc_join_community svc_update_community
    svc_get_community svc_list_communities svc_remove_community svc_create_persona svc_update_persona
    svc_get_persona svc_list_personas svc_delete_persona svc_create_agent svc_update_agent
    svc_change_agent_state svc_delete_agent svc_purge_agent svc_get_agent svc_list_agents svc_agent_logs
    svc_get_operation svc_wait_operation svc_submit_draft svc_get_draft svc_promote_draft];
    intros; try apply Hc; try apply Hp; apply outcomes_always; try exact Hs.
  - apply (keep_join_community Q).
  - apply (keep_update_community Q).
  - apply (keep_get_community Q).
  - apply (keep_query Q).
  - by apply (keep_remove_community Q).
  - apply safe_create_persona.
  - apply safe_update_persona.
  - apply safe_get_persona.
  - apply safe_list_personas.
  - apply safe_delete_persona.
  - by apply (keep_update_agent Q).
  - by apply (keep_change_agent_state Q).
  - by apply (keep_deleted_command Q).
  - by apply (keep_deleted_command Q).
  - apply (keep_get_agent Q).
  - apply (keep_list_agents Q).
  - apply (keep_agent_logs Q).
  - apply (keep_get_operation Q).
  - apply (keep_get_operation Q).
  - apply (keep_submit_draft Q).
  - apply (keep_get_draft Q).
Qed.
End Sqlite.

(** ** The daemon's service *)
Section Service.
Context `{UuidLib} `{NostrLib} `{BuzzKinds} `{DocumentJson} {R : Type} `{Outside R} `{Keyring R}.
Variables (time uuid_at : nat → Z) (temp_at : nat → string).
Variable hash_order : gset CommunityConfigId → list CommunityConfigId.
Variable info_of_json : string → option (list Z).
Variable self : LifecycleWake.
Variable serde_json_to_vec : HashedRequest → option string.
Variable sha256_hex : string → string.
Variable retention_seconds : Z.
#[local] Notation W := (World (DaemonFx R)).
#[local] Instance daemon_effects : LifecycleEffects (DaemonFx R) :=
  wake_effects (R := R) time uuid_at temp_at hash_order info_of_json self.
#[local] Notation execute_ := (execute time uuid_at serde_json_to_vec sha256_hex).
#[local] Notation nothing := (λ _ : OperationKind, False).
#[local] Notation creates := (λ k : OperationKind, k = CreateAgent).

#[local] Instance effects_by_calls : EffectsSafe.
Proof. apply wake_safe. Qed.
#[local] Instance effects_announced except : EffectsKeep (announced except).
Proof. apply wake_keeps; [apply _|]. intros op w. apply announced_ready. Qed.

(** What [execute] recorded when it got past the store. *)
Lemma execute_run actor metadata request plan (w : W) r w' :
  execute_ actor metadata request plan w = (r, w') →
  (∃ e, r = Err e ∧ w_db w' = w_db w ∧ w_fx w' = w_fx w)
  ∨ ∃ op replayed db w1, w1 = with_db db (stamped w)
      ∧ (if (replayed : bool) then db = w_db w
         else op_kind op = plan_kind plan ∧ op_status op = Pending
              ∧ t_operations db = <[op_id op := op]> (t_operations (w_db w)))
      ∧ (_ ← (if plan_wake_immediately plan && is_active (op_status op)
              then wake_operation_ready op else mret tt);
         mret (operation_resource op)) w1 = (r, w').
Proof.
  intros He. destruct (serde_json_to_vec request) as [bytes|] eqn:Hb.
  2:{ left. unfold execute, request_hash, mbind, M_bind in He. cbn in He. rewrite Hb in He.
      injection He as <- <-. by eexists. }
  destruct (execute_steps time uuid_at serde_json_to_vec sha256_hex actor metadata request plan w bytes Hb)
    as (audit & _ & Hx). rewrite Hx in He.
  destruct (apply_agent_command _ _ _ _ _ _) as [[[op replayed] db]|e] eqn:Ha.
  2:{ left. injection He as <- <-. by eexists. }
  right. exists op, replayed, db, (with_db db (stamped w)). split; [done|]. split; [|exact He].
  apply command_operations in Ha. destruct replayed; [done|]. destruct Ha as [-> Ht]. by split_and!.
Qed.
Lemma execute_waking except actor metadata request plan :
  plan_wake_immediately plan = true → always (announced except) (execute_ actor metadata request plan).
Proof.
  intros Hw w. destruct (execute_ actor metadata request plan w) as [r w'] eqn:He. cbn [snd].
  apply execute_run in He as [(e & -> & Hd & Hf)|(op & replayed & db & w1 & -> & Hdb & Hr)].
  { apply announced_none_new; [by rewrite Hf|by rewrite Hd]. }
  rewrite Hw in Hr. assert (∀ v : W, ((_ ← wake_operation_ready op; mret (operation_resource op)) v).2
    = (wake_operation_ready op v).2) as Hsnd.
  { intros v. unfold mbind, M_bind. by destruct (wake_operation_ready op v) as [[[]|e] v']. }
  destruct replayed.
  - subst db. destruct (is_active (op_status op)); cbn [andb] in Hr.
    + apply (f_equal snd) in Hr. rewrite Hsnd in Hr. cbn in Hr. subst w'.
      etrans; [|apply announced_ready]. by apply calm_beside.
    + injection Hr as <- <-. by apply calm_beside.
  - destruct Hdb as (_ & Hst & Ht). rewrite Hst in Hr. cbn [is_active andb] in Hr.
    apply (f_equal snd) in Hr. rewrite Hsnd in Hr. cbn [snd] in Hr.
    by apply (announced_recorded _ op w (with_db db (stamped w)) (with_db db (stamped w))).
Qed.
Lemma execute_creating actor metadata request plan :
  plan_kind plan = CreateAgent → always (announced creates) (execute_ actor metadata request plan).
Proof.
  intros Hk w. destruct (execute_ actor metadata request plan w) as [r w'] eqn:He. cbn [snd].
  apply execute_run in He as [(e & -> & Hd & Hf)|(op & replayed & db & w1 & -> & Hdb & Hr)].
  { apply announced_none_new; [by rewrite Hf|by rewrite Hd]. }
  assert (announced creates (with_db db (stamped w)) w') as Hlast.
  { destruct (_ && _) in Hr.
    - pose proof (announced_ready creates op (with_db db (stamped w))) as Hr'. unfold mbind, M_bind in Hr.
      destruct (wake_operation_ready op _) as [[[]|e] v]; injection Hr as <- <-; exact Hr'.
    - injection Hr as <- <-. reflexivity. }
  etrans; [|exact Hlast]. destruct replayed; [subst db; by apply calm_beside|].
  destruct Hdb as (Hkind & _ & Ht). eapply (announced_new _ op); [exact Ht|done|congruence].
Qed.

(** A creation that answers has persisted the document and handed its operation over. *)
Lemma creation_announces actor metadata request plan agent input (w : W) res w' :
  plan_wake_immediately plan = false →
  (resource ← execute_ actor metadata request plan; finish_create agent input resource) w = (Ok res, w') →
  announced nothing w w'.
Proof.
  intros Hw Hr. apply bind_ok in Hr as (resource & w1 & He & Hr).
  apply execute_run in He as [(e & He & _)|(op & replayed & db & w0 & -> & Hdb & He)]; [done|].
  rewrite Hw in He. injection He as <- <-. destruct replayed.
  { subst db. transitivity (stamped w); [by apply calm_beside|].
    pose proof (keep_finish_create (announced nothing) agent input (operation_resource op) (stamped w)) as Hk.
    unfold with_db, stamped in Hr, Hk. cbn in Hr, Hk. by rewrite Hr in Hk. }
  destruct Hdb as (_ & Hst & Ht). set (w1 := with_db db (stamped w)) in Hr. unfold finish_create in Hr.
  apply bind_ok in Hr as (committed & w2 & E2 & Hr). injection E2 as _ <-.
  apply bind_ok in Hr as (agent' & w3 & E3 & Hr). assert (w3 = w1) as ->.
  { destruct (bool_decide _); [by injection E3 as _ <-|]. apply bind_ok in E3 as (o & w4 & E4 & E5).
    injection E4 as _ <-. by injection E5 as _ <-. }
  apply bind_ok in Hr as ([] & w4 & E4 & Hr). apply bind_ok in Hr as (found & w5 & E5 & Hr).
  injection E5 as <- <-.
  pose proof (always_run queue_kept _ _ _ _ (calm_persist _ _ queue_kept _ _) E4) as [_ Ho4].
  apply (always_run (announced nothing) _ _ _ _ (calm_persist _ _ (announced nothing) _ _)) in E4.
  unfold get_operation in Hr. rewrite Ho4 in Hr. change (t_operations (w_db w1)) with (t_operations db) in Hr.
  cbn [or_id operation_resource] in Hr. rewrite Ht, lookup_insert_eq, Hst in Hr. cbn [is_active] in Hr.
  apply bind_ok in Hr as ([] & w6 & E6 & Hr). injection Hr as _ <-.
  apply (announced_recorded _ op w w1 w4); [exact Ht|done|exact E4|]. exact (f_equal snd E6).
Qed.
Lemma announced_creates (w w' : W) : announced nothing w w' → announced creates w w'.
Proof. by apply announced_weaken. Qed.
#[local] Notation outcome := (outcomes (announced (R := R) nothing) (announced creates)).
Lemma creation_outcomes actor metadata request plan agent input :
  plan_wake_immediately plan = false → plan_kind plan = CreateAgent →
  outcome (resource ← execute_ actor metadata request plan; finish_create agent input resource).
Proof.
  intros Hw Hk w. match goal with |- match ?m w with _ => _ end => destruct (m w) as [[res|e] w'] eqn:Em end.
  - by eapply creation_announces; [|exact Em].
  - eapply (always_run (announced creates)); [|exact Em]. apply (always_bind (announced creates)).
    + by apply execute_creating.
    + intros resource. apply (keep_finish_create (announced creates)).
Qed.
Ltac creation_step := apply (outcomes_bind (announced nothing) (announced creates));
  [ apply announced_creates
  | first [ apply (keep_fresh (announced nothing)) | apply safe_prepare | apply (keep_get_draft (announced nothing))
          | apply (always_of_result (announced nothing)) ]
  | intros ? ].
Lemma create_outcomes actor metadata input :
  outcome (create_agent time uuid_at serde_json_to_vec sha256_hex actor metadata input).
Proof.
  unfold create_agent. do 3 creation_step. by apply creation_outcomes.
Qed.
Lemma promote_outcomes actor request :
  outcome (promote_draft time uuid_at serde_json_to_vec sha256_hex actor request).
Proof. unfold promote_draft. do 5 creation_step. by apply creation_outcomes. Qed.

#[local] Notation service := (sqlite_application time uuid_at serde_json_to_vec sha256_hex retention_seconds
  read_operation).
(** Whatever bytes a caller sends: the database changes by store calls only; when the answer
    is positive, every operation that is newly waiting has been handed to the worker, and
    otherwise every one but that of a creation. *)
Theorem answered_requests_are_handed_over decode fresh actor bytes (w : W) status response w' :
  handle (H := service) decode fresh actor bytes w = (status, response, w') →
  by_calls w w' ∧ match response with WireOk _ => announced nothing w w' | WireError _ => announced creates w w' end.
Proof.
  intros Hh. split.
  - assert (ServiceOutcomes (H := service) by_calls by_calls) as Hout.
    { apply (sqlite_outcomes by_calls by_calls); [done| | | |].
      - intros id t f v. by apply by_one_call.
      - intros. apply safe_execute, _.
      - intros. apply outcomes_always; [done|]. apply (keep_create_agent by_calls). intros. apply safe_execute, _.
      - intros. apply outcomes_always; [done|]. apply (keep_promote_draft by_calls). intros. apply safe_execute, _. }
    apply (handle_outcomes by_calls by_calls) in Hh; [|done]. by destruct response.
  - assert (ServiceOutcomes (H := service) (announced nothing) (announced creates)) as Hout.
    { apply (sqlite_outcomes (announced nothing) (announced creates)).
      - apply announced_creates.
      - intros id t f v. apply announced_none_new; [done|]. apply none_new_removal.
      - intros. by apply execute_waking.
      - apply create_outcomes.
      - apply promote_outcomes. }
    apply (handle_outcomes (announced nothing) (announced creates)) in Hh; [done|apply announced_creates].
Qed.
(** The retention sweep hands its purges over. *)
Lemma sweep_announces :
  always (announced nothing) (enqueue_expired_purges time uuid_at serde_json_to_vec sha256_hex retention_seconds).
Proof. apply (keep_sweep (announced nothing)). intros. by apply execute_waking. Qed.
End Service.

(** ** A refused update changes the agent's document
    [update_agent] rewrites the document before the store decides about the command. A
    request that reuses an idempotency key for other changes is refused as a conflict, and
    the document has the changes all the same. *)
#[local] Existing Instances sample_keys sample_nostr.
#[local] Instance update_kinds : BuzzKinds := {| KIND_MANAGED_AGENT := 30177; KIND_PERSONA := 30175 |}.
Definition named_document (name : string) : AgentConfigFile :=
  mkAgentConfigFile (mkAgentId 7) name None None None None (Some codex_id) None None ∅ (mkFilesystemConfig None)
    AutoJoinDisabled [] 1 OwnerOnly [] None None.
#[local] Instance update_documents : DocumentJson := {|
  agent_to_json f := acf_display_name f; agent_of_json s := Some (named_document s);
  persona_to_json _ := "{}"; persona_of_json _ := None
|}.
#[local] Instance update_outside : Outside unit := {|
  build_client := mret tt; send_request := λ _, mret (mkHttpResponse 200 (Ok "{}"));
  draw_uuid := λ w, ("nonce", w); timestamp := λ w, (7, w)
|}.
#[local] Instance update_keyring : Keyring unit := {| delete_credential _ := throw NoEntry |}.
Definition agent_document : Path := agent_path (lw_agent_files sample_wake) (mkAgentId 7).
Definition update_world : World (DaemonFx unit) :=
  mkWorld sample_db (mkDaemonFx (mkFs {[ mkPath true ["srv"; "agents"] := mkNode Directory 493 0 "" ]} [] 0) ()
    (mkChannel true []) (mkChannel true []) (mkChannel true [])) 0 0 0.
Definition rename_agent (name : string) : M (World (DaemonFx unit)) ApplicationError OperationResource :=
  update_agent (H0 := wake_effects (R := unit) sample_time sample_uuid (λ _, "tmp") (λ _, []) (λ _, None) sample_wake)
    sample_time sample_uuid
    (λ r, Some (match r with HashUpdate u => default "" (uai_display_name (uar_changes u)) | _ => "" end)) id
    sample_admin (mkUpdateAgentRequest (sample_metadata "key") (mkAgentId 7)
      (mkUpdateAgentInput (Some name) None None None None)).
Theorem refused_update_changes_the_document :
  let w1 := (rename_agent "First" update_world).2 in
  let run := rename_agent "Second" w1 in
  (or_status <$> result_ok (rename_agent "First" update_world).1) = Some Pending
  ∧ run.1 = Err (AppConflict "idempotency key was reused with a different request")
  ∧ t_operations (w_db run.2) = t_operations (w_db w1)
  ∧ (n_data <$> fs_nodes (fx_fs (w_fx w1)) !! agent_document) = Some (String.append "First" newline_text)
  ∧ (n_data <$> fs_nodes (fx_fs (w_fx run.2)) !! agent_document) = Some (String.append "Second" newline_text).
Proof. vm_compute. split_and!; reflexivity. Qed.
