(* ===== verification/Rows.v ===== *)
(** * Rows of the operations table, and migrations (storage.rs)
    [Storage] works on decoded rows. Here are the columns an operation is written to and read
    back from, and the opening of a database: the migrations applied to it in order. *)
From Stdlib Require Import ZArith Lia String Ascii.
From stdpp Require Import base gmap list strings.
From S2P Require Import Prelude RustStr Ids Lifecycle Schema Publications.
#[local] Open Scope Z_scope.

(** ** Enumerations as text
    [json_name] and [parse_json_name] of an enumeration: the names of its variants. *)
Class JsonName (T : Type) : Type := { variants : list (T * string); json_name : T → string }.
Class JsonNameLaws (T : Type) `{JsonName T} : Prop := {
  variant_named t : (t, json_name t) ∈ variants;
  names_distinct : NoDup (variants.*2)
}.
Definition unknown_variant `{ErrorTexts} : StorageError := Schema.InvalidData json_error_text.
Fixpoint find_variant {T} (name : string) (l : list (T * string)) : option T :=
  match l with
  | [] => None
  | (t, n) :: l => if String.eqb n name then Some t else find_variant name l
  end.
Definition parse_json_name {T} `{JsonName T} `{ErrorTexts} (value : string) : result StorageError T :=
  ok_or unknown_variant (find_variant value variants).

#[export] Instance kind_names : JsonName OperationKind := {
  json_name := OperationKind_json_name;
  variants := (λ k, (k, OperationKind_json_name k)) <$>
    [CreateAgent; UpdateAgent; EnableAgent; DisableAgent; DeleteAgent; PurgeAgent]
}.
#[export] Instance status_names : JsonName OperationStatus := {
  json_name := OperationStatus_json_name;
  variants := (λ s, (s, OperationStatus_json_name s)) <$> [Pending; Running; Succeeded; Failed; Cancelled]
}.
#[export] Instance error_names : JsonName ErrorCode := {
  json_name := ErrorCode_json_name;
  variants := (λ c, (c, ErrorCode_json_name c)) <$>
    [InvalidRequest; EC_NotFound; EC_Conflict; Unauthorized; EC_Forbidden; EC_Unsupported; EC_Unavailable; EC_Internal]
}.
#[export] Instance kind_names_laws : JsonNameLaws OperationKind.
Proof. split; [intros []; cbn; set_solver|]. refine (bool_decide_unpack _ _). by vm_compute. Qed.
#[export] Instance status_names_laws : JsonNameLaws OperationStatus.
Proof. split; [intros []; cbn; set_solver|]. refine (bool_decide_unpack _ _). by vm_compute. Qed.
#[export] Instance error_names_laws : JsonNameLaws ErrorCode.
Proof. split; [intros []; cbn; set_solver|]. refine (bool_decide_unpack _ _). by vm_compute. Qed.

Section Names.
Context `{ErrorTexts} {T} `{JsonNameLaws T}.

Lemma find_variant_in t n (l : list (T * string)) : NoDup (l.*2) → (t, n) ∈ l → find_variant n l = Some t.
Proof.
  induction l as [|[u m] l IH]; cbn; intros Hd Hin; [by apply not_elem_of_nil in Hin|].
  apply NoDup_cons in Hd as [Hm Hd]. destruct (String.eqb_spec m n) as [->|Hne].
  - apply elem_of_cons in Hin as [[= ->]|Hin]; [done|]. destruct Hm. apply list_elem_of_fmap. by exists (t, n).
  - apply elem_of_cons in Hin as [[= -> ->]|Hin]; [done|auto].
Qed.
Lemma find_variant_some t n (l : list (T * string)) : find_variant n l = Some t → (t, n) ∈ l.
Proof.
  induction l as [|[u m] l IH]; cbn; [done|]. destruct (String.eqb_spec m n) as [->|_].
  - intros [= ->]. left.
  - intros Hf. right. auto.
Qed.
Lemma json_name_parses t : parse_json_name (json_name t) = Ok t.
Proof.
  unfold parse_json_name. rewrite (find_variant_in t); [done|apply names_distinct|apply variant_named].
Qed.
End Names.
Lemma kind_parsed `{ErrorTexts} value k : parse_json_name value = Ok k → value = OperationKind_json_name k.
Proof.
  unfold parse_json_name. destruct (find_variant value variants) as [x|] eqn:E; [|done]. intros [= ->].
  apply find_variant_some, list_elem_of_fmap in E as (y & [= -> ->] & _). done.
Qed.
Lemma status_parsed `{ErrorTexts} value s : parse_json_name value = Ok s → value = OperationStatus_json_name s.
Proof.
  unfold parse_json_name. destruct (find_variant value variants) as [x|] eqn:E; [|done]. intros [= ->].
  apply find_variant_some, list_elem_of_fmap in E as (y & [= -> ->] & _). done.
Qed.
Lemma error_parsed `{ErrorTexts} value c : parse_json_name value = Ok c → value = ErrorCode_json_name c.
Proof.
  unfold parse_json_name. destruct (find_variant value variants) as [x|] eqn:E; [|done]. intros [= ->].
  apply find_variant_some, list_elem_of_fmap in E as (y & [= -> ->] & _). done.
Qed.

(** ** Operations *)
(** The columns of a row: text, text or null, and integers. *)
Record OperationColumns : Type := mkOperationColumns {
  oc_id : string; oc_kind : string; oc_status : string; oc_agent_id : option string;
  oc_error_code : option string; oc_created_at : Z; oc_updated_at : Z; oc_correlation_id : string
}.
(** A conversion failure, which [rusqlite] reports as its own error. *)
Inductive ConversionError : Type := FromSqlConversionFailure (error : StorageError).

Section Rows.
Context `{UuidLib} `{ErrorTexts}.

Definition parse_id {A} (from_str : string → result ParseIdError A) (value : string) : result StorageError A :=
  map_err (λ e, Schema.InvalidData (parse_id_error_text e)) (from_str value).
(** [option.map(f).transpose()] *)
Definition transposed {E A B} (f : A → result E B) (o : option A) : result E (option B) :=
  match o with None => Ok None | Some a => rmap Some (f a) end.

Definition operation_params (operation : DurableOperation) : OperationColumns :=
  mkOperationColumns (OperationId_to_string (op_id operation)) (json_name (op_kind operation))
    (json_name (op_status operation)) (AgentId_to_string <$> op_agent_id operation)
    (json_name <$> op_error_code operation) (op_created_at operation) (op_updated_at operation)
    (op_correlation_id operation).
Definition decode_operation (row : OperationColumns) : result ConversionError DurableOperation :=
  let? id := map_err FromSqlConversionFailure (parse_id OperationId_from_str (oc_id row)) in
  let? kind := map_err FromSqlConversionFailure (parse_json_name (oc_kind row)) in
  let? status := map_err FromSqlConversionFailure (parse_json_name (oc_status row)) in
  let? agent_id := map_err FromSqlConversionFailure (transposed (parse_id AgentId_from_str) (oc_agent_id row)) in
  let? error_code := map_err FromSqlConversionFailure (transposed parse_json_name (oc_error_code row)) in
  Ok (mkDurableOperation id kind status agent_id error_code (oc_created_at row) (oc_updated_at row)
        (oc_correlation_id row)).

(** Identifiers are 128-bit numbers. *)
Definition operation_ids_ok (op : DurableOperation) : Prop :=
  uuid_ok (operation_uuid (op_id op)) ∧ (∀ a, op_agent_id op = Some a → uuid_ok (agent_uuid a)).

Lemma parse_id_ok {A} (from_str : string → result ParseIdError A) value a :
  parse_id from_str value = Ok a ↔ from_str value = Ok a.
Proof. unfold parse_id. destruct (from_str value); cbn; split; congruence. Qed.

Lemma operation_id_read id :
  uuid_ok (operation_uuid id) → parse_id OperationId_from_str (OperationId_to_string id) = Ok id.
Proof.
  intros Hu. apply parse_id_ok. unfold OperationId_from_str, OperationId_to_string.
  rewrite typed_id_from_display by done. by destruct id.
Qed.
Lemma agent_id_read id :
  uuid_ok (agent_uuid id) → parse_id AgentId_from_str (AgentId_to_string id) = Ok id.
Proof.
  intros Hu. apply parse_id_ok. unfold AgentId_from_str, AgentId_to_string.
  rewrite typed_id_from_display by done. by destruct id.
Qed.

(** What is written is read back. *)
Lemma decode_params op : operation_ids_ok op → decode_operation (operation_params op) = Ok op.
Proof.
  intros [Hid Ha]. destruct op as [id kind status agent error created updated correlation]. cbn [op_id op_agent_id] in Hid, Ha.
  unfold decode_operation, operation_params.
  cbn [oc_id oc_kind oc_status oc_agent_id oc_error_code oc_created_at oc_updated_at oc_correlation_id
       op_id op_kind op_status op_agent_id op_error_code op_created_at op_updated_at op_correlation_id].
  rewrite !json_name_parses, operation_id_read by done. cbn [map_err].
  assert (transposed (parse_id AgentId_from_str) (AgentId_to_string <$> agent) = Ok agent) as ->.
  { destruct agent as [a|]; [|done]. cbn [fmap option_fmap option_map transposed]. by rewrite agent_id_read by auto. }
  cbn [map_err]. destruct error as [code|]; [|done].
  cbn [fmap option_fmap option_map transposed]. by rewrite json_name_parses.
Qed.
(** A row that can be read is what would be written for it. *)
Lemma params_decode row op :
  decode_operation row = Ok op → operation_ids_ok op ∧ operation_params op = row.
Proof.
  destruct row as [id kind status agent error created updated correlation]. unfold decode_operation. cbn -[parse_json_name].
  destruct (parse_id OperationId_from_str id) as [id'|] eqn:E1; [|done]. cbn -[parse_json_name].
  destruct (parse_json_name kind) as [kind'|] eqn:E2; [|done]. cbn -[parse_json_name].
  destruct (parse_json_name status) as [status'|] eqn:E3; [|done]. cbn -[parse_json_name].
  destruct (transposed (parse_id AgentId_from_str) agent) as [agent'|] eqn:E4; [|done]. cbn -[parse_json_name].
  destruct (transposed parse_json_name error) as [error'|] eqn:E5; [|done]. cbn. intros [= <-].
  apply kind_parsed in E2 as ->. apply status_parsed in E3 as ->.
  apply parse_id_ok in E1. unfold OperationId_from_str in E1.
  destruct (typed_id_from_str operation_prefix id) as [u|] eqn:Eu; [|done]. injection E1 as <-.
  apply typed_id_display_from in Eu as [Hu <-].
  assert ((∀ a, agent' = Some a → uuid_ok (agent_uuid a)) ∧ AgentId_to_string <$> agent' = agent) as [Ha Hag].
  { destruct agent as [a|]; cbn in E4; [|by injection E4 as <-].
    destruct (parse_id AgentId_from_str a) as [a'|] eqn:Ea; [|done]. injection E4 as <-.
    apply parse_id_ok in Ea. unfold AgentId_from_str in Ea.
    destruct (typed_id_from_str agent_prefix a) as [v|] eqn:Ev; [|done]. injection Ea as <-.
    apply typed_id_display_from in Ev as [Hv <-]. split; [by intros ? [= <-]|done]. }
  assert (json_name <$> error' = error) as Her.
  { destruct error as [c|]; cbn in E5; [|by injection E5 as <-].
    destruct (parse_json_name c) as [c'|] eqn:Ec; [|done]. injection E5 as <-.
    by apply error_parsed in Ec as ->. }
  split; [by split|]. unfold operation_params. cbn -[json_name parse_json_name]. by rewrite Hag, Her.
Qed.

(** C38: Operations and the rows that can be read correspond one to one: nothing is lost by
    storing an operation, and a row that reads as an operation is the row of that operation. *)
Theorem operation_rows_correspond (op : DurableOperation) (row : OperationColumns) :
  decode_operation row = Ok op ↔ operation_ids_ok op ∧ row = operation_params op.
Proof.
  split.
  - intros Hd. by apply params_decode in Hd as [? <-].
  - intros [Hi ->]. by apply decode_params.
Qed.

(** The text the queries compare with selects exactly the operations that are not over. *)
Theorem unfinished_rows_are_selected (op : DurableOperation) :
  existsb (String.eqb (oc_status (operation_params op))) ["pending"; "running"]
  = negb (OperationStatus_is_terminal (op_status op)).
Proof. by destruct op as [? ? [] ? ? ? ? ?]. Qed.
End Rows.

(** ** Migrations *)
Definition MIGRATIONS : list Z := [1; 2; 3; 4; 5; 6].
Section Migrations.
(** [Tables]: what the scripts change; a script fails where a statement of it does. *)
Context {Tables : Type} (execute_batch : Z → Tables → result SqliteError Tables).

Record DbConnection : Type := mkDbConnection { cn_tables : Tables; cn_migrations : list Z }.

(** One version. [fault]: the transaction fails for a reason of its own, before it is
    committed; what it did is undone. *)
Definition migrate_one (version : Z) (fault : option SqliteError) (c : DbConnection)
    : result StorageError unit * DbConnection :=
  if bool_decide (version ∈ cn_migrations c) then (Ok tt, c)
  else
    match execute_batch version (cn_tables c), fault with
    | Err e, _ | Ok _, Some e => (Err (Database e), c)
    | Ok tables, None => (Ok tt, mkDbConnection tables (cn_migrations c ++ [version]))
    end.
Fixpoint migrate_all (versions : list Z) (faults : Z → option SqliteError) (c : DbConnection)
    : result StorageError unit * DbConnection :=
  match versions with
  | [] => (Ok tt, c)
  | version :: versions =>
    match migrate_one version (faults version) c with
    | (Ok _, c) => migrate_all versions faults c
    | (Err e, c) => (Err e, c)
    end
  end.
Definition run_migrations (faults : Z → option SqliteError) (c : DbConnection) := migrate_all MIGRATIONS faults c.

(** The tables after these scripts, each run once. *)
Fixpoint scripts_run (versions : list Z) (t : Tables) : result SqliteError Tables :=
  match versions with
  | [] => Ok t
  | version :: versions => match execute_batch version t with Ok t => scripts_run versions t | Err e => Err e end
  end.
(** A database that was only ever opened: a part of the migrations, from the first on. *)
Definition opened_from (empty : Tables) (c : DbConnection) : Prop :=
  ∃ rest, MIGRATIONS = cn_migrations c ++ rest ∧ scripts_run (cn_migrations c) empty = Ok (cn_tables c).

Lemma scripts_run_app a b t :
  scripts_run (a ++ b) t = match scripts_run a t with Ok t => scripts_run b t | Err e => Err e end.
Proof. revert t. induction a as [|v a IH]; intros t; cbn; [done|]. by destruct (execute_batch v t). Qed.

Lemma migrations_nodup : NoDup MIGRATIONS.
Proof. refine (bool_decide_unpack _ _). by vm_compute. Qed.

(** Versions that are recorded are skipped. *)
Lemma migrate_skips a b faults c :
  (∀ v, v ∈ a → v ∈ cn_migrations c) → migrate_all (a ++ b) faults c = migrate_all b faults c.
Proof.
  induction a as [|v a IH]; intros Ha; [done|]. cbn [app migrate_all]. unfold migrate_one.
  rewrite bool_decide_eq_true_2 by (apply Ha; left). apply IH. intros w Hw. apply Ha. by right.
Qed.
(** The others are run in order, up to the first that fails. *)
Lemma migrate_rest rest faults empty c :
  MIGRATIONS = cn_migrations c ++ rest → scripts_run (cn_migrations c) empty = Ok (cn_tables c) →
  let '(r, c') := migrate_all rest faults c in
  opened_from empty c' ∧ (r = Ok tt → cn_migrations c' = MIGRATIONS)
  ∧ ((∀ v, faults v = None) → is_ok (scripts_run MIGRATIONS empty) = true → r = Ok tt).
Proof.
  revert c. induction rest as [|v rest IH]; intros c Hm Hs; cbn [migrate_all].
  { rewrite app_nil_r in Hm. split_and!; [exists []; by rewrite app_nil_r|done|done]. }
  unfold migrate_one. rewrite bool_decide_eq_false_2.
  2: { intros Hin. pose proof migrations_nodup as Hn. rewrite Hm in Hn. apply NoDup_app in Hn as (_ & Hn & _).
       by apply (Hn v Hin); left. }
  assert (∀ e, opened_from empty c ∧ (Err (Database e) = Ok tt → cn_migrations c = MIGRATIONS)) as Hstay
    by (intros e; split; [by exists (v :: rest)|done]).
  destruct (execute_batch v (cn_tables c)) as [tables|e] eqn:Ee.
  - destruct (faults v) as [e|] eqn:Ef.
    + destruct (Hstay e). split_and!; [done..|]. intros Hf. by rewrite Hf in Ef.
    + apply (IH (mkDbConnection tables (cn_migrations c ++ [v]))); cbn [cn_migrations cn_tables].
      * by rewrite <- app_assoc.
      * rewrite scripts_run_app, Hs. cbn. by rewrite Ee.
  - destruct (Hstay e). split_and!; [done..|]. intros _ Hok. rewrite Hm, scripts_run_app, Hs in Hok. cbn in Hok.
    by rewrite Ee in Hok.
Qed.

(** Opening a database, however often and with whatever failures, runs the migrations in
    order and each at most once: afterwards the tables are those of a first part of the
    scripts. When opening succeeds they are those of all of them, it succeeds when nothing
    fails, and opening again changes nothing. *)
Theorem migrations_apply_once (faults : list (Z → option SqliteError)) (empty : Tables) :
  let opens := foldl (λ c f, (run_migrations f c).2) (mkDbConnection empty []) faults in
  opened_from empty opens
  ∧ (∀ f c, run_migrations f opens = (Ok tt, c) →
       scripts_run MIGRATIONS empty = Ok (cn_tables c) ∧ ∀ g, run_migrations g c = (Ok tt, c))
  ∧ (is_ok (scripts_run MIGRATIONS empty) = true → (run_migrations (λ _, None) opens).1 = Ok tt).
Proof.
  assert (∀ c f, opened_from empty c →
    let '(r, c') := run_migrations f c in
    opened_from empty c' ∧ (r = Ok tt → cn_migrations c' = MIGRATIONS)
    ∧ ((∀ v, f v = None) → is_ok (scripts_run MIGRATIONS empty) = true → r = Ok tt)) as Hstep.
  { intros c f (rest & Hm & Hs).
    assert (run_migrations f c = migrate_all rest f c) as -> by (unfold run_migrations; rewrite Hm; by apply migrate_skips).
    by apply migrate_rest. }
  set (opens := foldl _ _ faults). assert (opened_from empty opens) as Ho.
  { subst opens. assert (opened_from empty (mkDbConnection empty [])) as H0 by by exists MIGRATIONS.
    revert H0. generalize (mkDbConnection empty []). induction faults as [|f faults IH]; intros c Hc; [done|].
    cbn [foldl]. apply IH. specialize (Hstep c f Hc). destruct (run_migrations f c) as [r c']. by destruct Hstep. }
  split_and!; [done| |].
  - intros f c Hr. specialize (Hstep opens f Ho). rewrite Hr in Hstep. destruct Hstep as ((rest & Hm & Hs) & Hall & _).
    rewrite Hall in Hs by done. split; [done|]. intros g. unfold run_migrations.
    rewrite <- (app_nil_r MIGRATIONS), migrate_skips; [done|]. by rewrite Hall.
  - intros Hok. specialize (Hstep opens (λ _, None) Ho). destruct (run_migrations _ opens) as [r c].
    by apply Hstep.
Qed.
End Migrations.
