(* ===== verification/AutoJoin.v ===== *)
(** * Joining open channels (auto_join.rs, main.rs)
    A watcher per community reads the notifications a relay sends to the community's owner,
    looks up the channel they name, and adds the agents that want it and are no members. *)
From Stdlib Require Import ZArith Lia String Ascii.
From stdpp Require Import base gmap list strings.
From S2P Require Import Prelude RustStr Ids Lifecycle Agent Runtime Launch Auth ApiTypes Schema.
From S2P Require Import Storage StoreInv Monad Application AppProps Bytes Fs AgentFiles Json.
From S2P Require Import Custody Nostr RelayAdapter CommunityJoin Daemon Wake.
#[local] Open Scope Z_scope.
#[local] Set Warnings "-notation-for-abbreviation,-deprecated-syntactic-definition".

Definition CREATE_GROUP_KIND : Z := 9007.
Definition MEMBER_ADDED_NOTIFICATION_KIND : Z := 44100.
Definition CHANNEL_MEMBERS_KIND : Z := 39002.

(** ** The relay's socket
    [buzz_ws_client]. A connection delivers messages until it fails ([receive]: those that
    are still to come, and the failure); a connection that never fails and never delivers
    an awaited message has a reader that never ends, and is not described. *)
Inductive RelayMessage : Type :=
| MsgEvent (subscription_id : string) (event : NostrEvent)
| MsgEose (subscription_id : string)
| MsgClosed (subscription_id message : string)
| MsgOther.
Class RelaySockets `{SecretKeys} (R : Type) : Type := {
  Socket : Type;
  connect_authenticated : string → SecretKey → M R string Socket;
  send_raw : Socket → Json → M R string unit;
  receive : Socket → R → (list RelayMessage * string) * R;
  disconnect : Socket → R → R;
  (** [publish_event]: whether the relay accepted the event, and its message. *)
  publish_event : string → NostrEvent → SecretKey → M R string (bool * string)
}.
(** [buzz_core], [buzz_sdk] and [serde_json]. *)
Class ChannelLib : Type := {
  MemberRole : Type;
  Bot : MemberRole;
  build_add_member : Z → string → MemberRole → result string (Z * list (list string) * string);
  value_of_json : string → option Json
}.

Definition auto_join_role `{ChannelLib} (role : option MemberRole) : MemberRole := default Bot role.

Record OpenChannel : Type := mkOpenChannel { oc_id : Z; oc_created_at : Z }.

Section Events.
Context `{UuidLib}.

(** [values.get(1).and_then(|value| value.parse::<Uuid>().ok())] *)
Definition tag_uuid (values : list string) : option Z := values !! 1%nat ≫= Uuid_parse_str.

Definition open_channel_tag (seen : option Z * bool) (values : list string) : option Z * bool :=
  let '(channel, open) := seen in
  match head values with
  | Some name =>
    if String.eqb name "h" then (tag_uuid values, open)
    else if String.eqb name "visibility"
    then (channel, match values !! 1%nat with Some value => String.eqb value "open" | None => false end)
    else (channel, open)
  | None => (channel, open)
  end.
Definition open_channel (event : NostrEvent) : option OpenChannel :=
  if negb (ne_kind event =? CREATE_GROUP_KIND) then None
  else
    let '(channel, open) := fold_left open_channel_tag (ne_tags event) (None, false) in
    id ← channel;
    if (open : bool) then Some (mkOpenChannel id (ne_created_at event)) else None.

Definition notification_tag (owner_pubkey : string) (seen : option Z * bool) (values : list string)
    : option Z * bool :=
  let '(channel, addressed_to_owner) := seen in
  match head values with
  | Some name =>
    if String.eqb name "h" then (tag_uuid values, addressed_to_owner)
    else if String.eqb name "p"
    then (channel, addressed_to_owner
                   || match values !! 1%nat with Some value => String.eqb value owner_pubkey | None => false end)
    else (channel, addressed_to_owner)
  | None => (channel, addressed_to_owner)
  end.
Definition channel_notification `{ChannelLib} (event : NostrEvent) (owner_pubkey : string) : option Z :=
  if negb (ne_kind event =? MEMBER_ADDED_NOTIFICATION_KIND) then None
  else
    content ← value_of_json (ne_content event);
    if negb (bool_decide (field "type" content ≫= as_str = Some "member_added")) then None
    else
      let '(channel, addressed_to_owner) :=
        fold_left (notification_tag owner_pubkey) (ne_tags event) (None, false) in
      id ← channel;
      if (addressed_to_owner : bool) then Some id else None.

Definition channel_membership_snapshot_matches (event : NostrEvent) (channel_id : Z) : bool :=
  (ne_kind event =? CHANNEL_MEMBERS_KIND)
  && existsb (λ values, bool_decide (head values = Some "d")
                        && bool_decide (values !! 1%nat = Some (Uuid_to_string channel_id)))
       (ne_tags event).
Definition member_tag (member_pubkey : string) (values : list string) : bool :=
  bool_decide (head values = Some "p")
  && match values !! 1%nat with Some value => eq_ignore_ascii_case value member_pubkey | None => false end.
Definition channel_membership_contains (event : NostrEvent) (channel_id : Z) (member_pubkey : string) : bool :=
  if negb (channel_membership_snapshot_matches event channel_id) then false
  else fold_left (λ member values, member || member_tag member_pubkey values) (ne_tags event) false.

(** ** Subscriptions *)
Definition channel_notification_subscription (subscription_id owner_pubkey : string) : Json :=
  JArray [JString "REQ"; JString subscription_id;
          JObject [("kinds", JArray [JNumber (PosInt MEMBER_ADDED_NOTIFICATION_KIND)]);
                   ("#p", JArray [JString owner_pubkey])]].
Definition channel_metadata_subscription (subscription_id : string) (channel_id : Z) : Json :=
  JArray [JString "REQ"; JString subscription_id;
          JObject [("kinds", JArray [JNumber (PosInt CREATE_GROUP_KIND)]);
                   ("#h", JArray [JString (Uuid_to_string channel_id)]);
                   ("limit", JNumber (PosInt 1))]].
Definition channel_members_subscription (subscription_id : string) (channel_id : Z) : Json :=
  JArray [JString "REQ"; JString subscription_id;
          JObject [("kinds", JArray [JNumber (PosInt CHANNEL_MEMBERS_KIND)]);
                   ("#d", JArray [JString (Uuid_to_string channel_id)]);
                   ("limit", JNumber (PosInt 1))]].

(** ** Asking the relay
    The loops over [next_event]: what they return and whether they disconnect first. *)
Fixpoint scan_membership (subscription_id : string) (channel_id : Z) (member_pubkey : string)
    (messages : list RelayMessage) (failure : string) : result string bool * bool :=
  match messages with
  | [] => (Err failure, false)
  | MsgEvent s event :: messages' =>
    if String.eqb s subscription_id && channel_membership_snapshot_matches event channel_id
    then (Ok (channel_membership_contains event channel_id member_pubkey), true)
    else scan_membership subscription_id channel_id member_pubkey messages' failure
  | MsgEose s :: messages' =>
    if String.eqb s subscription_id then (Err "membership snapshot not found", true)
    else scan_membership subscription_id channel_id member_pubkey messages' failure
  | MsgClosed s message :: messages' =>
    if String.eqb s subscription_id then (Err message, false)
    else scan_membership subscription_id channel_id member_pubkey messages' failure
  | MsgOther :: messages' => scan_membership subscription_id channel_id member_pubkey messages' failure
  end.
Fixpoint scan_open_channel (subscription_id : string) (channel_id : Z)
    (messages : list RelayMessage) (failure : string) : result string (option OpenChannel) * bool :=
  match messages with
  | [] => (Err failure, false)
  | MsgEvent s event :: messages' =>
    if String.eqb s subscription_id then
      match open_channel event with
      | Some channel =>
        if negb (oc_id channel =? channel_id)
        then scan_open_channel subscription_id channel_id messages' failure
        else (Ok (Some channel), true)
      | None => scan_open_channel subscription_id channel_id messages' failure
      end
    else scan_open_channel subscription_id channel_id messages' failure
  | MsgEose s :: messages' =>
    if String.eqb s subscription_id then (Ok None, true)
    else scan_open_channel subscription_id channel_id messages' failure
  | MsgClosed s message :: messages' =>
    if String.eqb s subscription_id then (Err message, false)
    else scan_open_channel subscription_id channel_id messages' failure
  | MsgOther :: messages' => scan_open_channel subscription_id channel_id messages' failure
  end.
End Events.

Section Client.
Context `{UuidLib} `{NostrLib} `{ChannelLib} {R : Type} `{Outside R} `{!RelaySockets R}.

(** What arrives on a connection, until an answer. *)
Definition await_answer {A} (connection : Socket)
    (scan : list RelayMessage → string → result string A * bool) : M R string A := λ r,
  let '((messages, failure), r) := receive connection r in
  let '(answer, hang_up) := scan messages failure in
  (answer, if (hang_up : bool) then disconnect connection r else r).
(** A request on a connection of its own, and its answer. *)
Definition ask {A} (relay_url : Url) (keys : SecretKey) (request : Json)
    (scan : list RelayMessage → string → result string A * bool) : M R string A :=
  connection ← connect_authenticated (url_as_str relay_url) keys;
  _ ← send_raw connection request;
  await_answer connection scan.

Definition members_subscription_id (channel_id : Z) : string :=
  String.append "server-auto-join-members-" (Uuid_to_string channel_id).
Definition channel_subscription_id (channel_id : Z) : string :=
  String.append "server-auto-join-channel-" (Uuid_to_string channel_id).

Definition fetch_channel_membership (relay_url : Url) (keys : SecretKey) (channel_id : Z)
    (member_pubkey : string) : M R string bool :=
  let subscription_id := members_subscription_id channel_id in
  ask relay_url keys (channel_members_subscription subscription_id channel_id)
    (scan_membership subscription_id channel_id member_pubkey).
Definition fetch_open_channel (relay_url : Url) (keys : SecretKey) (channel_id : Z)
    : M R string (option OpenChannel) :=
  let subscription_id := channel_subscription_id channel_id in
  ask relay_url keys (channel_metadata_subscription subscription_id channel_id)
    (scan_open_channel subscription_id channel_id).

Definition publish_join (relay_url : Url) (owner_keys : SecretKey) (agent_pubkey : string)
    (channel_id : Z) (role : option MemberRole) : M R string unit :=
  unsigned ← of_result (build_add_member channel_id agent_pubkey (auto_join_role role));
  let '(kind, tags, content) := unsigned in
  event ← sign_now id kind tags content owner_keys;
  answer ← publish_event (url_as_str relay_url) event owner_keys;
  let '(accepted, message) := answer in
  if (accepted : bool) then mret tt else throw message.
End Client.

(** ** Waiting for a notification
    What the select of [next_channel_notification] completes with: a change of the
    shutdown channel (its sender gone, or its value) or a message of the connection. *)
Inductive ShutdownChange : Type := SenderGone | ShutdownValue (stop : bool).
Definition shuts_down (c : ShutdownChange) : bool :=
  match c with SenderGone => true | ShutdownValue stop => stop end.
Inductive NotificationTurn : Type :=
| TurnShutdown (c : ShutdownChange)
| TurnMessage (message : result string RelayMessage).

(** [None]: no answer yet. *)
Fixpoint next_channel_notification `{UuidLib} `{ChannelLib} (turns : list NotificationTurn)
    (owner_pubkey : string) : option (result string (option Z) * list NotificationTurn) :=
  match turns with
  | [] => None
  | TurnShutdown c :: turns' =>
    if shuts_down c then Some (Ok None, turns') else next_channel_notification turns' owner_pubkey
  | TurnMessage (Err error) :: turns' => Some (Err error, turns')
  | TurnMessage (Ok (MsgEvent _ event)) :: turns' =>
    match channel_notification event owner_pubkey with
    | Some channel => Some (Ok (Some channel), turns')
    | None => next_channel_notification turns' owner_pubkey
    end
  | TurnMessage (Ok _) :: turns' => next_channel_notification turns' owner_pubkey
  end.

(** [auto_join_channel_is_new]: [enabled_at] is an [i64]. *)
Definition auto_join_channel_is_new (channel_created_at enabled_at : Z) : bool :=
  (0 <=? enabled_at) && (enabled_at <? channel_created_at).

Definition reconcile_auto_join_member {W} (membership_query : M W string bool)
    (join_publisher : M W string unit) : M W string bool :=
  present ← membership_query;
  if (present : bool) then mret false else _ ← join_publisher; mret true.

(** ** The watcher of a community (main.rs) *)
Record AutoJoinContext : Type := mkAutoJoinContext {
  ac_agent_files : AgentFileStore;
  ac_custody : FilesystemAgentIdentityCustody;
  ac_community_identity_root : Path
}.

Section Watcher.
Context `{UuidLib} `{NostrLib} `{ChannelLib} `{DocumentJson} {R : Type} `{Outside R} `{!RelaySockets R}.
Variable time : nat → Z.
Variable temp_at : nat → string.
Variable generated : nat → SecretKey.
Variable context : AutoJoinContext.
#[local] Notation W := (World (DaemonFx R)).

Definition auto_join_owner_keys (community : CommunityConfig) : M W DaemonError SecretKey :=
  pubkey ← of_result (ok_or (InvalidConfig "community has no associated identity")
                        (cc_identity_pubkey community));
  on (S := Fs) (M_map_err (λ e, match e with
                                | IdentityIo e => DaemonIo e
                                | IdentityUnparsed | IdentityMismatch => InvalidOwnerSecret
                                end) (identity_keys (ac_community_identity_root context) pubkey)).

Definition prepare_agent (now : Z) (agent : AgentSpec) : M W DaemonError unit :=
  file ← on (S := Fs) (M_map_err DaemonAgentFile (load_agent (ac_agent_files context) (spec_id agent)));
  match acf_auto_join_open_channels file with
  | AutoJoinNew =>
    _ ← M_map_err DaemonStorage (stored_step (ensure_auto_join_enabled_at (spec_id agent) now));
    mret tt
  | AutoJoinDisabled | AutoJoinAll =>
    M_map_err DaemonStorage (stored_step (clear_auto_join_enabled_at (spec_id agent)))
  end.
Definition prepare_auto_join_state (community : CommunityConfig) : M W DaemonError unit :=
  now ← clock_now time;
  agents ← db_read (list_agents (Some (cc_id community)));
  forM_ (prepare_agent now) agents.

(** Whether an agent, by its document, is to be in the channel; an error passes it over. *)
Definition wants_channel (channel : OpenChannel) (agent : AgentSpec) : W → bool * W := λ w,
  if bool_decide (spec_desired_state agent = Deleted) then (false, w)
  else
    match on (S := Fs) (load_agent (ac_agent_files context) (spec_id agent)) w with
    | (Err _, w) => (false, w)
    | (Ok file, w) =>
      match acf_auto_join_open_channels file with
      | AutoJoinDisabled => (false, w)
      | AutoJoinAll => (true, w)
      | AutoJoinNew =>
        match (now ← clock_now time; stored_step (ensure_auto_join_enabled_at (spec_id agent) now)) w with
        | (Err _, w) => (false, w)
        | (Ok enabled_at, w) => (auto_join_channel_is_new (oc_created_at channel) enabled_at, w)
        end
      end
    end.

Definition provision_member (agent : AgentSpec) : M W CustodyError CustodiedIdentity :=
  n ← draw_index;
  tmp ← next_temp temp_at;
  on (S := Fs) (provision (ac_custody context) (spec_id agent) (generated n) tmp).

Definition join_agent (community : CommunityConfig) (owner_keys : SecretKey) (channel : OpenChannel)
    (identity : CustodiedIdentity) : M W string bool :=
  reconcile_auto_join_member
    (on (S := R) (fetch_channel_membership (cc_relay_url community) owner_keys (oc_id channel)
                    (ci_public_key identity)))
    (on (S := R) (publish_join (cc_relay_url community) owner_keys (ci_public_key identity)
                    (oc_id channel) None)).

Definition reconcile_auto_join_agent (community : CommunityConfig) (owner_keys : SecretKey)
    (channel : OpenChannel) (agent : AgentSpec) : M W string unit := λ w,
  let '(wanted, w) := wants_channel channel agent w in
  if negb wanted then (Ok tt, w)
  else
    match provision_member agent w with
    | (Err _, w) => (Ok tt, w)
    | (Ok identity, w) =>
      match join_agent community owner_keys channel identity w with
      | (Ok _, w) => (Ok tt, w)
      | (Err error, w) =>
        (Err (String.append "auto-join failed for agent " (String.append (AgentId_to_string (spec_id agent))
            (String.append " channel " (String.append (Uuid_to_string (oc_id channel))
               (String.append ": " error))))), w)
      end
    end.
Definition reconcile_auto_join_channel (community : CommunityConfig) (owner_keys : SecretKey)
    (channel : OpenChannel) : M W string unit :=
  agents ← db_read (list_agents (Some (cc_id community)));
  forM_ (reconcile_auto_join_agent community owner_keys channel) agents.

(** What happens on an open connection: it ends with a return or a break, or goes on. *)
Inductive WatchEnd : Type := WatchReturns | WatchBreaks | WatchOpen.
Fixpoint watch_connection (fuel : nat) (community : CommunityConfig) (owner_keys : SecretKey)
    (turns : list NotificationTurn) (w : W) : WatchEnd * W :=
  match fuel with
  | O => (WatchOpen, w)
  | S fuel' =>
    match next_channel_notification turns (public_key_hex owner_keys) with
    | None => (WatchOpen, w)
    | Some (Ok (Some channel_id), turns') =>
      match on (S := R) (fetch_open_channel (cc_relay_url community) owner_keys channel_id) w with
      | (Ok (Some channel), w) =>
        match reconcile_auto_join_channel community owner_keys channel w with
        | (Ok _, w) => watch_connection fuel' community owner_keys turns' w
        | (Err _, w) => (WatchBreaks, w)
        end
      | (Ok None, w) | (Err _, w) => watch_connection fuel' community owner_keys turns' w
      end
    | Some (Ok None, _) => (WatchReturns, w)
    | Some (Err _, _) => (WatchBreaks, w)
    end
  end.

(** One round of the outer loop: the value of the shutdown channel at its head, a change of
    it before the connection is made, what the connection delivers, the wait at the end. *)
Record WatchRound : Type := mkWatchRound {
  wr_stopping : bool;
  wr_change : option ShutdownChange;
  wr_turns : list NotificationTurn;
  wr_wait : Waited
}.
Definition AUTO_JOIN_MAX_BACKOFF : Z := 30.
Definition doubled_backoff (backoff : Z) : Z := Z.min (2 * backoff) AUTO_JOIN_MAX_BACKOFF.
Definition hang_up (connection : Socket) (w : W) : W := set_part (disconnect connection (part w)) w.

Inductive RoundEnd : Type :=
| RoundReturns
| RoundContinues (backoff : Z)
| RoundOpen.
(** [auto_join_wait_or_shutdown], and the doubling after it. *)
Definition wait_round (wait : Waited) (backoff : Z) : RoundEnd * list Z :=
  (if wait_or_shutdown wait then RoundReturns else RoundContinues (doubled_backoff backoff), [backoff]).

Definition watch_round (community : CommunityConfig) (owner_keys : SecretKey) (round : WatchRound)
    (backoff : Z) (w : W) : RoundEnd * list Z * W :=
  if wr_stopping round then (RoundReturns, [], w)
  else
    match wr_change round with
    | Some c => (if shuts_down c then RoundReturns else RoundContinues backoff, [], w)
    | None =>
      let subscription_id := String.append "server-auto-join-" (CommunityConfigId_to_string (cc_id community)) in
      let request := channel_notification_subscription subscription_id (public_key_hex owner_keys) in
      match on (S := R) (connect_authenticated (url_as_str (cc_relay_url community)) owner_keys) w with
      | (Err _, w) => (wait_round (wr_wait round) backoff, w)
      | (Ok connection, w) =>
        match on (S := R) (send_raw connection request) w with
        | (Err _, w) => (wait_round (wr_wait round) backoff, hang_up connection w)
        | (Ok _, w) =>
          match watch_connection (S (length (wr_turns round))) community owner_keys (wr_turns round) w with
          | (WatchReturns, w) => (RoundReturns, [], hang_up connection w)
          | (WatchBreaks, w) => (wait_round (wr_wait round) 1, hang_up connection w)
          | (WatchOpen, w) => (RoundOpen, [], w)
          end
        end
      end
    end.
(** The answer is [None] while the watcher runs; the waits it made are listed. *)
Fixpoint watch_rounds (community : CommunityConfig) (owner_keys : SecretKey) (script : list WatchRound)
    (backoff : Z) (w : W) : option (result DaemonError unit) * list Z * W :=
  match script with
  | [] => (None, [], w)
  | round :: script' =>
    let '(e, waits, w) := watch_round community owner_keys round backoff w in
    match e with
    | RoundReturns => (Some (Ok tt), waits, w)
    | RoundOpen => (None, waits, w)
    | RoundContinues backoff =>
      let '(answer, waits', w) := watch_rounds community owner_keys script' backoff w in
      (answer, waits ++ waits', w)
    end
  end.
Definition run_community_auto_join (community : CommunityConfig) (script : list WatchRound) (w : W)
    : option (result DaemonError unit) * list Z * W :=
  match prepare_auto_join_state community w with
  | (Err e, w) => (Some (Err e), [], w)
  | (Ok _, w) =>
    match auto_join_owner_keys community w with
    | (Err e, w) => (Some (Err e), [], w)
    | (Ok owner_keys, w) => watch_rounds community owner_keys script 1 w
    end
  end.
End Watcher.

(** ** The manager of the watchers
    A change of a community replaces its watcher; tasks are numbered as they are spawned. *)
Record ManagerState : Type := mkManagerState {
  ms_watchers : gmap CommunityConfigId nat;
  ms_spawned : list (nat * CommunityConfig);
  ms_aborted : list nat
}.
Inductive ManagerTurn : Type :=
| ManagerShutdown (c : ShutdownChange)
| ManagerChange (community_id : option CommunityConfigId).
(** [changes.recv()] gave a community, with the database as it is then. *)
Definition replace_watcher (id : CommunityConfigId) (db : Db) (s : ManagerState) : ManagerState :=
  let aborted := match ms_watchers s !! id with
                 | Some task => ms_aborted s ++ [task]
                 | None => ms_aborted s
                 end in
  let watchers := delete id (ms_watchers s) in
  match get_community id db with
  | None => mkManagerState watchers (ms_spawned s) aborted
  | Some community =>
    let task := length (ms_spawned s) in
    mkManagerState (<[id := task]> watchers) (ms_spawned s ++ [(task, community)]) aborted
  end.
Definition abort_watchers (s : ManagerState) : ManagerState :=
  mkManagerState ∅ (ms_spawned s) (ms_aborted s ++ (map_to_list (ms_watchers s)).*2).
Fixpoint run_auto_join_manager (script : list (ManagerTurn * Db)) (s : ManagerState)
    : option (result DaemonError unit) * ManagerState :=
  match script with
  | [] => (None, s)
  | (ManagerShutdown c, _) :: script' =>
    if shuts_down c then (Some (Ok tt), abort_watchers s) else run_auto_join_manager script' s
  | (ManagerChange None, _) :: _ => (Some (Ok tt), abort_watchers s)
  | (ManagerChange (Some id), db) :: script' => run_auto_join_manager script' (replace_watcher id db s)
  end.
