(* ===== verification/AutoJoinProps.v ===== *)
(** * What the auto-join watchers do
    The network is recorded ([Wire]); a watcher publishes an event only for an agent that
    wants the channel and that the relay's member list omits. *)
From Stdlib Require Import ZArith Lia String Ascii.
From stdpp Require Import base gmap list strings.
From S2P Require Import Prelude RustStr Ids Lifecycle Agent Runtime Launch Auth ApiTypes Schema.
From S2P Require Import Storage StoreInv Monad Application AppProps Bytes Fs AgentFiles Json.
From S2P Require Import Custody Nostr RelayAdapter CommunityJoin Daemon Wake AutoJoin.
#[local] Open Scope Z_scope.
#[local] Set Warnings "-notation-for-abbreviation,-deprecated-syntactic-definition".

(** ** What was said to the relay *)
Inductive Wire `{SecretKeys} : Type :=
| WireConnect (url : string) (keys : SecretKey)
| WireSend (request : Json)
| WireReceive (messages : list RelayMessage) (failure : string)
| WirePublish (url : string) (event : NostrEvent) (keys : SecretKey) (answer : result string (bool * string)).
Definition Recorded `{SecretKeys} (R : Type) : Type := R * list Wire.
Section Recording.
Context `{SecretKeys} {R : Type}.
Definition record_with {A} (x : A → Wire) (m : R → A * R) (w : Recorded R) : A * Recorded R :=
  let '(a, r) := m w.1 in (a, (r, w.2 ++ [x a])).
Definition unrecorded {A} (m : R → A * R) (w : Recorded R) : A * Recorded R :=
  let '(a, r) := m w.1 in (a, (r, w.2)).
#[export] Instance recorded_outside `{Outside R} : Outside (Recorded R) := {
  build_client := unrecorded build_client;
  send_request q := unrecorded (send_request q);
  draw_uuid := unrecorded draw_uuid;
  timestamp := unrecorded timestamp
}.
#[export] Instance recorded_sockets `{!RelaySockets R} : RelaySockets (Recorded R) := {
  Socket := Socket (R := R);
  connect_authenticated url keys := record_with (λ _, WireConnect url keys) (connect_authenticated url keys);
  send_raw s request := record_with (λ _, WireSend request) (send_raw s request);
  receive s := record_with (λ x, WireReceive x.1 x.2) (receive s);
  disconnect s w := (disconnect s w.1, w.2);
  publish_event url event keys := record_with (WirePublish url event keys) (publish_event url event keys)
}.
End Recording.

Definition silent `{SecretKeys} (x : Wire) : Prop := match x with WirePublish _ _ _ _ => False | _ => True end.

Section Talk.
Context `{UuidLib} `{NL : NostrLib} `{!NostrLaws} `{ChannelLib} {R : Type} `{Outside R} `{!RelaySockets R}.

(** Nothing is published. *)
Definition quietly (w w' : Recorded R) : Prop := ∃ l, w'.2 = w.2 ++ l ∧ Forall silent l.
#[export] Instance quietly_preorder : PreOrder quietly.
Proof.
  split.
  - intros w. exists []. by rewrite app_nil_r.
  - intros a b c (l & Hl & Fl) (k & Hk & Fk). exists (l ++ k). rewrite Hk, Hl, app_assoc.
    split; [done|by apply Forall_app].
Qed.

(** A request and what came back. *)
Definition asked (relay_url : Url) (keys : SecretKey) (request : Json) (messages : list RelayMessage)
    (failure : string) : list Wire :=
  [WireConnect (url_as_str relay_url) keys; WireSend request; WireReceive messages failure].

Lemma quietly_adds (w : Recorded R) r l : Forall silent l → quietly w (r, w.2 ++ l).
Proof. intros Hl. by exists l. Qed.

Lemma ask_wire {A} relay_url keys request (scan : list RelayMessage → string → result string A * bool)
    (w : Recorded R) r w' :
  ask relay_url keys request scan w = (r, w') →
  quietly w w'
  ∧ ∀ a, r = Ok a → ∃ messages failure, w'.2 = w.2 ++ asked relay_url keys request messages failure
                    ∧ (scan messages failure).1 = Ok a.
Proof.
  unfold ask, mbind, M_bind. cbn. unfold record_with.
  destruct (connect_authenticated _ _ w.1) as [[c|e] r1]; cbn;
    [|intros [= <- <-]; split; [by apply quietly_adds; repeat constructor|done]].
  destruct (send_raw _ _ r1) as [[[]|e] r2]; cbn;
    [|intros [= <- <-]; split; [rewrite <- app_assoc; apply quietly_adds; by repeat constructor|done]].
  unfold await_answer. cbn. unfold record_with. cbn.
  destruct (receive c r2) as [[messages failure] r3]. rewrite <- !app_assoc. cbn [app fst snd].
  fold (asked relay_url keys request messages failure).
  destruct (scan messages failure) as [a b] eqn:Es. intros [= <- <-].
  destruct b; (split; [apply quietly_adds; by repeat constructor|]);
    intros x ->; exists messages, failure; by rewrite Es.
Qed.

Lemma scan_membership_ok sub channel member messages failure b :
  (scan_membership sub channel member messages failure).1 = Ok b →
  ∃ event, MsgEvent sub event ∈ messages ∧ channel_membership_snapshot_matches event channel = true
    ∧ b = channel_membership_contains event channel member.
Proof.
  induction messages as [|m messages IH]; cbn; [done|]. intros Hs.
  assert (∀ Hs' : (scan_membership sub channel member messages failure).1 = Ok b,
    ∃ event, MsgEvent sub event ∈ m :: messages ∧ channel_membership_snapshot_matches event channel = true
      ∧ b = channel_membership_contains event channel member) as Hrec.
  { intros Hs'. destruct (IH Hs') as (ev & He & K). exists ev. split; [by right|done]. }
  destruct m as [s ev|s|s msg|]; [|destruct (String.eqb s sub); [done|auto]..|auto].
  destruct (String.eqb s sub) eqn:E; cbn in Hs; [|auto].
  destruct (channel_membership_snapshot_matches ev channel) eqn:Em; cbn in Hs; [|auto].
  injection Hs as <-. apply String.eqb_eq in E as ->. exists ev. split; [left|done].
Qed.

Lemma scan_open_channel_ok sub channel_id messages failure channel :
  (scan_open_channel sub channel_id messages failure).1 = Ok (Some channel) →
  oc_id channel = channel_id
  ∧ ∃ event, MsgEvent sub event ∈ messages ∧ open_channel event = Some channel.
Proof.
  induction messages as [|m messages IH]; cbn; [done|]. intros Hs.
  assert (∀ Hs' : (scan_open_channel sub channel_id messages failure).1 = Ok (Some channel),
    oc_id channel = channel_id
    ∧ ∃ event, MsgEvent sub event ∈ m :: messages ∧ open_channel event = Some channel) as Hrec.
  { intros Hs'. destruct (IH Hs') as (Hid & ev & He & K). split; [done|]. exists ev. split; [by right|done]. }
  destruct m as [s ev|s|s msg|]; [|destruct (String.eqb s sub); [done|auto]..|auto].
  destruct (String.eqb s sub) eqn:E; cbn in Hs; [|auto].
  destruct (open_channel ev) as [c|] eqn:Eo; [|auto].
  destruct (oc_id c =? channel_id) eqn:Ei; cbn in Hs; [|auto].
  injection Hs as <-. apply String.eqb_eq in E as ->. apply Z.eqb_eq in Ei.
  split; [done|]. exists ev. split; [left|done].
Qed.

(** The event that adds a member. *)
Definition adds_member (owner_keys : SecretKey) (channel_id : Z) (agent_pubkey : string) (event : NostrEvent) : Prop :=
  ∃ time kind tags content, build_add_member channel_id agent_pubkey Bot = Ok (kind, tags, content)
    ∧ event = mkNostrEvent (public_key_hex owner_keys) time kind tags content.
Lemma publish_join_wire relay_url keys agent channel_id (w : Recorded R) r w' :
  publish_join relay_url keys agent channel_id None w = (r, w') →
  (quietly w w' ∧ r ≠ Ok tt)
  ∨ ∃ event answer, adds_member keys channel_id agent event
      ∧ w'.2 = w.2 ++ [WirePublish (url_as_str relay_url) event keys answer]
      ∧ (r = Ok tt ↔ ∃ m, answer = Ok (true, m)).
Proof.
  unfold publish_join. intros [(e & [= He <-] & ->)|([[kind tags] content] & w1 & [= Hb <-] & Hr)]%bind_run;
    [by left|].
  apply bind_run in Hr as [(e & He & ->)|(ev & w2 & He & Hr)].
  - left. split; [|done]. revert He. unfold sign_now, draw, mbind, M_bind. cbn. unfold unrecorded.
    destruct (timestamp w.1) as [t r1]. cbn. intros [= _ <-]. by exists []; rewrite app_nil_r.
  - right. assert (∃ t, ev = mkNostrEvent (public_key_hex keys) t kind tags content ∧ w2.2 = w.2) as (t & -> & Hw2).
    { revert He. unfold sign_now, draw, mbind, M_bind. cbn. unfold unrecorded.
      destruct (timestamp w.1) as [t r1]. cbn. intros [= He <-]. exists t. split; [|done].
      destruct (sign_event t kind tags content keys) as [e|] eqn:Es; [|done]. injection He as <-.
      by apply sign_event_ok in Es. }
    unfold mbind, M_bind in Hr. cbn in Hr. unfold record_with in Hr.
    destruct (publish_event _ _ _ w2.1) as [answer r3].
    exists (mkNostrEvent (public_key_hex keys) t kind tags content), answer.
    split; [by exists t, kind, tags, content|]. rewrite <- Hw2.
    destruct answer as [[[] m]|e]; injection Hr as <- <-; (split; [done|]); split; try done;
      [intros _; by exists m|intros [? [=]]..].
Qed.
End Talk.

(** Everything added to a record is silent or justified by what is recorded before it. *)
Definition joins_only `{SecretKeys} (P : list Wire → Wire → Prop) (l l' : list Wire) : Prop :=
  l `prefix_of` l' ∧ ∀ i x, (length l ≤ i)%nat → l' !! i = Some x → silent x ∨ P (take i l') x.
Section Joins.
Context `{SecretKeys} (P : list Wire → Wire → Prop).
#[export] Instance joins_only_preorder : PreOrder (joins_only P).
Proof.
  split.
  - intros l. split; [done|]. intros i x Hi Hx. apply lookup_lt_Some in Hx. lia.
  - intros a b c [Hab Ha] [[k ->] Hb]. split; [by apply prefix_app_r|]. intros i x Hi Hx.
    destruct (decide (length b ≤ i)%nat) as [Hge|Hlt]; [by apply Hb|].
    rewrite lookup_app_l in Hx by lia. rewrite take_app_le by lia. by apply Ha.
Qed.
Lemma joins_silent l k : Forall silent k → joins_only P l (l ++ k).
Proof.
  intros Hk. split; [by apply prefix_app_r|]. intros i x Hi Hx. left.
  rewrite lookup_app_r in Hx by done. by eapply Forall_lookup_1.
Qed.
Lemma joins_snoc l k x : Forall silent k → P (l ++ k) x → joins_only P l (l ++ k ++ [x]).
Proof.
  intros Hk Hx. etrans; [by apply joins_silent|]. rewrite app_assoc. split; [by apply prefix_app_r|].
  intros i y Hi Hy. right. rewrite lookup_app_r in Hy by done.
  destruct (i - length (l ++ k))%nat as [|n] eqn:En; [|done]. injection Hy as <-.
  rewrite take_app_le, take_ge by lia. done.
Qed.
Lemma joins_weaken (Q : list Wire → Wire → Prop) l l' :
  (∀ h x, P h x → Q h x) → joins_only P l l' → joins_only Q l l'.
Proof. intros HPQ [? Hl]. split; [done|]. intros i x Hi Hx. destruct (Hl i x Hi Hx); auto. Qed.
End Joins.

(** ** Notifications *)
Lemma next_notification_from `{UuidLib} `{ChannelLib} turns owner r turns' :
  next_channel_notification turns owner = Some (r, turns') →
  (∀ t, t ∈ turns' → t ∈ turns)
  ∧ ∀ id, r = Ok (Some id) →
    ∃ sub event, TurnMessage (Ok (MsgEvent sub event)) ∈ turns ∧ channel_notification event owner = Some id.
Proof.
  induction turns as [|t turns IH]; [done|]. cbn [next_channel_notification]. intros Hn.
  assert (next_channel_notification turns owner = Some (r, turns') →
    (∀ x, x ∈ turns' → x ∈ t :: turns)
    ∧ ∀ id, r = Ok (Some id) →
      ∃ sub event, TurnMessage (Ok (MsgEvent sub event)) ∈ t :: turns ∧ channel_notification event owner = Some id) as Hrec.
  { intros Hn'. destruct (IH Hn') as [Hs Hid]. split; [intros x Hx; right; auto|].
    intros id Hr. destruct (Hid id Hr) as (sub & ev & Hin & ?). exists sub, ev. split; [by right|done]. }
  destruct t as [c|[[sub ev| | |]|e]]; try (by apply Hrec).
  - destruct (shuts_down c); [|by apply Hrec]. injection Hn as <- <-. split; [by right|done].
  - destruct (channel_notification ev owner) as [id|] eqn:Ec; [|by apply Hrec]. injection Hn as <- <-.
    split; [by right|]. intros id' [= <-]. exists sub, ev. split; [left|done].
  - injection Hn as <- <-. split; [by right|done].
Qed.

(** ** What becomes of an agent *)
Section Attending.
Context `{UuidLib} `{NL : NostrLib} `{!NostrLaws} `{ChannelLib} `{DocumentJson}.
Context {R : Type} `{Outside R} `{!RelaySockets R}.
Variable time : nat → Z.
Variable temp_at : nat → string.
Variable generated : nat → SecretKey.
Variable context : AutoJoinContext.
#[local] Notation W := (World (DaemonFx (Recorded R))).

Definition wire (w : W) : list Wire := (fx_outside (w_fx w)).2.

(** Since when the agent joins new channels: the stored time, or now. *)
Definition boundary (w : W) (agent : AgentSpec) : Z :=
  default (time (w_clock w)) (t_auto_join (w_db w) !! spec_id agent).
(** The agent's document, as it can be read now, asks for the channel. *)
Definition wanted (w : W) (channel : OpenChannel) (agent : AgentSpec) : Prop :=
  spec_desired_state agent ≠ Deleted
  ∧ ∃ file s, load_agent (ac_agent_files context) (spec_id agent) (fx_fs (w_fx w)) = (Ok file, s)
      ∧ match acf_auto_join_open_channels file with
        | AutoJoinDisabled => False
        | AutoJoinAll => True
        | AutoJoinNew => 0 ≤ boundary w agent < oc_created_at channel
        end.

Lemma auto_join_channel_is_new_spec created enabled :
  auto_join_channel_is_new created enabled = true ↔ 0 ≤ enabled < created.
Proof. unfold auto_join_channel_is_new. rewrite andb_true_iff, Z.leb_le, Z.ltb_lt. lia. Qed.

Lemma wants_channel_spec channel agent (w w' : W) b :
  wants_channel time context channel agent w = (b, w') →
  (b = true ↔ wanted w channel agent) ∧ wire w' = wire w.
Proof.
  unfold wants_channel, wanted. case_bool_decide as Hd.
  { intros [= <- <-]. split; [|done]. split; [done|]. by intros [? _]. }
  unfold on. cbn [part world_fs].
  destruct (load_agent _ _ (fx_fs (w_fx w))) as [[file|e] s] eqn:El.
  2: { intros [= <- <-]. split; [|done]. split; [done|]. by intros (_ & ? & ? & ? & _). }
  destruct (acf_auto_join_open_channels file) eqn:Em.
  - intros [= <- <-]. split; [|done]. split; [done|]. intros (_ & f & s' & [= <- <-] & K). by rewrite Em in K.
  - intros [= <- <-]. split; [|done]. split; [|done]. intros _. split; [done|]. exists file, s. by rewrite Em.
  - unfold clock_now, stored_step, ensure_auto_join_enabled_at, mbind, M_bind. cbn.
    assert (∀ e, e = boundary w agent → (auto_join_channel_is_new (oc_created_at channel) e = true ↔
      spec_desired_state agent ≠ Deleted ∧ ∃ file' s',
        (Ok file : result AgentFileError AgentConfigFile, s) = (Ok file', s') ∧ match acf_auto_join_open_channels file' with
          | AutoJoinDisabled => False | AutoJoinAll => True
          | AutoJoinNew => 0 ≤ boundary w agent < oc_created_at channel end)) as Hb.
    { intros e ->. rewrite auto_join_channel_is_new_spec. split.
      - intros Hn. split; [done|]. exists file, s. by rewrite Em.
      - intros (_ & f & s' & [= <- <-] & K). by rewrite Em in K. }
    unfold boundary in Hb |- *. destruct (t_auto_join (w_db w) !! spec_id agent) as [e|];
      intros [= <- <-]; (split; [by apply Hb|done]).
Qed.

(** The identity on file for an agent that wants the channel, made when there is none. *)
Definition identified (w : W) (channel : OpenChannel) (agent : AgentSpec) (pubkey : string) : Prop :=
  ∃ w1 identity w2, wants_channel time context channel agent w = (true, w1)
    ∧ provision_member temp_at generated context agent w1 = (Ok identity, w2) ∧ ci_public_key identity = pubkey.
Definition unidentified (w : W) (channel : OpenChannel) (agent : AgentSpec) : Prop :=
  ∃ w1 e w2, wants_channel time context channel agent w = (true, w1)
    ∧ provision_member temp_at generated context agent w1 = (Err e, w2).
Lemma provision_member_wire agent (w : W) : wire (provision_member temp_at generated context agent w).2 = wire w.
Proof.
  unfold provision_member, draw_index, next_temp, draw_index, on, mbind, M_bind, mret, M_ret. cbn.
  by destruct (provision _ _ _ _ _) as [r0 s'].
Qed.

(** A member list of the channel the relay sent, and whether it has the key. *)
Definition member_list (channel_id : Z) (pubkey : string) (listed : bool) (messages : list RelayMessage) : Prop :=
  ∃ event, MsgEvent (members_subscription_id channel_id) event ∈ messages
    ∧ channel_membership_snapshot_matches event channel_id = true
    ∧ channel_membership_contains event channel_id pubkey = listed.
Definition members_query (community : CommunityConfig) (owner_keys : SecretKey) (channel : OpenChannel)
    (messages : list RelayMessage) (failure : string) : list Wire :=
  asked (cc_relay_url community) owner_keys
    (channel_members_subscription (members_subscription_id (oc_id channel)) (oc_id channel)) messages failure.

(** What a pass over an agent comes to. *)
Inductive attended (community : CommunityConfig) (owner_keys : SecretKey) (channel : OpenChannel)
    (agent : AgentSpec) (w w' : W) : result string unit → Prop :=
| attended_unwanted : ¬ wanted w channel agent → wire w' = wire w → attended community owner_keys channel agent w w' (Ok tt)
| attended_unidentified : wanted w channel agent → unidentified w channel agent → wire w' = wire w → attended community owner_keys channel agent w w' (Ok tt)
| attended_member pubkey messages failure :
  wanted w channel agent → identified w channel agent pubkey → member_list (oc_id channel) pubkey true messages →
  wire w' = wire w ++ members_query community owner_keys channel messages failure →
  attended community owner_keys channel agent w w' (Ok tt)
| attended_published pubkey messages failure event answer r :
  wanted w channel agent → identified w channel agent pubkey → member_list (oc_id channel) pubkey false messages →
  adds_member owner_keys (oc_id channel) pubkey event →
  wire w' = wire w ++ members_query community owner_keys channel messages failure
                   ++ [WirePublish (url_as_str (cc_relay_url community)) event owner_keys answer] →
  (r = Ok tt ↔ ∃ m, answer = Ok (true, m)) →
  attended community owner_keys channel agent w w' r
| attended_failed e l : wanted w channel agent → wire w' = wire w ++ l → Forall silent l →
  attended community owner_keys channel agent w w' (Err e).

Lemma join_agent_spec community owner_keys channel identity (w w' : W) r :
  join_agent community owner_keys channel identity w = (r, w') →
  (∃ messages failure, r = Ok false ∧ member_list (oc_id channel) (ci_public_key identity) true messages
     ∧ wire w' = wire w ++ members_query community owner_keys channel messages failure)
  ∨ (∃ messages failure event answer, member_list (oc_id channel) (ci_public_key identity) false messages
     ∧ adds_member owner_keys (oc_id channel) (ci_public_key identity) event
     ∧ wire w' = wire w ++ members_query community owner_keys channel messages failure
                   ++ [WirePublish (url_as_str (cc_relay_url community)) event owner_keys answer]
     ∧ ((∃ b, r = Ok b) ↔ ∃ m, answer = Ok (true, m)))
  ∨ (∃ e l, r = Err e ∧ wire w' = wire w ++ l ∧ Forall silent l).
Proof.
  unfold join_agent, reconcile_auto_join_member.
  unfold mbind at 1, M_bind at 1, on at 1. cbn [part world_outside].
  destruct (fetch_channel_membership (cc_relay_url community) owner_keys (oc_id channel)
    (ci_public_key identity) (fx_outside (w_fx w))) as [x s1] eqn:Ef.
  unfold fetch_channel_membership in Ef. apply ask_wire in Ef as [(l1 & Hl1 & Fl1) Hok].
  destruct x as [present|e]; [|intros [= <- <-]; right; right; by exists e, l1].
  destruct (Hok present eq_refl) as (messages & failure & Hw & Hs). clear Hok l1 Hl1 Fl1.
  apply scan_membership_ok in Hs as (ev & Hin & Hm & ->).
  destruct (channel_membership_contains ev _ _) eqn:Ec.
  { intros [= <- <-]. left. exists messages, failure. split; [done|]. split; [by exists ev|]. exact Hw. }
  unfold mbind, M_bind, on. cbn.
  destruct (publish_join _ _ _ _ None s1) as [r2 s2] eqn:Ep.
  apply publish_join_wire in Ep as [[(l & Hl & Fl) Hr]|(event & answer & Ha & Hl & Hr)].
  - destruct r2 as [[]|e]; [done|]. intros [= <- <-]. right. right.
    exists e, (members_query community owner_keys channel messages failure ++ l).
    split; [done|]. split; [unfold wire; cbn [w_fx set_part world_outside set_fx fx_outside]; by rewrite Hl, Hw, <- app_assoc|].
    apply Forall_app. split; [by repeat constructor|done].
  - intros Hret. right. left. exists messages, failure, event, answer.
    split; [by exists ev|]. split; [done|].
    destruct r2 as [[]|e]; injection Hret as <- <-; unfold wire; cbn; rewrite Hl, Hw, <- app_assoc;
      (split; [done|]); rewrite <- Hr; split; by try (intros [? ?]); eauto.
Qed.

Lemma reconcile_agent_attends community owner_keys channel agent (w w' : W) r :
  reconcile_auto_join_agent time temp_at generated context community owner_keys channel agent w = (r, w') →
  attended community owner_keys channel agent w w' r.
Proof.
  unfold reconcile_auto_join_agent.
  destruct (wants_channel time context channel agent w) as [b w1] eqn:E1.
  destruct (wants_channel_spec _ _ _ _ _ E1) as [Hb L1]. destruct b; cbn [negb].
  2: { intros [= <- <-]. apply attended_unwanted; [|done]. by rewrite <- Hb. }
  assert (wanted w channel agent) as Hw by by apply Hb.
  destruct (provision_member temp_at generated context agent w1) as [[identity|e] w2] eqn:E2;
    pose proof (provision_member_wire agent w1) as L2; rewrite E2 in L2; cbn [snd] in L2.
  2: { intros [= <- <-]. apply attended_unidentified; [done|by exists w1, e, w2|congruence]. }
  assert (identified w channel agent (ci_public_key identity)) as Hid by by exists w1, identity, w2.
  destruct (join_agent community owner_keys channel identity w2) as [r3 w3] eqn:E3.
  apply join_agent_spec in E3 as [(ms & f & -> & Hs & L3)|[(ms & f & ev & an & Hs & Ha & L3 & Hr)|(e & l & -> & L3 & Fl)]];
    rewrite L2, L1 in L3.
  - intros [= <- <-]. by eapply attended_member.
  - intros Hret. assert (w3 = w') as -> by (by destruct r3; injection Hret).
    eapply attended_published; [done..|]. rewrite <- Hr.
    destruct r3 as [b|e]; injection Hret as <-; split; try done; [by exists b|by intros [? ?]].
  - intros [= <- <-]. by eapply attended_failed.
Qed.

(** ** The watcher *)
Variable community : CommunityConfig.
(** What the watcher does to the world: it talks to the relay, prepares the boundaries,
    reads the owner's key and passes over agents. *)
Inductive watcher_step (owner_keys : SecretKey) (w : W) : W → Prop :=
| step_network r : watcher_step owner_keys w (set_part (S := Recorded R) r w)
| step_agent channel agent : watcher_step owner_keys w
    (reconcile_auto_join_agent time temp_at generated context community owner_keys channel agent w).2.

Definition found_open (owner_keys : SecretKey) (channel : OpenChannel) (history : list Wire) : Prop :=
  ∃ l messages failure event,
    l ++ asked (cc_relay_url community) owner_keys
           (channel_metadata_subscription (channel_subscription_id (oc_id channel)) (oc_id channel))
           messages failure `prefix_of` history
    ∧ MsgEvent (channel_subscription_id (oc_id channel)) event ∈ messages ∧ open_channel event = Some channel.
Lemma found_open_mono owner_keys channel h h' :
  h `prefix_of` h' → found_open owner_keys channel h → found_open owner_keys channel h'.
Proof. intros Hp (l & ms & f & ev & Hl & ?). exists l, ms, f, ev. split; [by etrans|done]. Qed.

(** A published join: of a channel that was announced and found open, for an agent of the
    community that wants it, has an identity and is not in the channel's member list. *)
Inductive justified_join (owner_keys : SecretKey) (announced : Z → Prop) (w : W) (history : list Wire)
    : Wire → Prop :=
| join_justified w0 w1 channel agent pubkey messages failure event answer :
  announced (oc_id channel) → found_open owner_keys channel history →
  rtc (watcher_step owner_keys) w w0 → agent ∈ list_agents (Some (cc_id community)) (w_db w0) →
  rtc (watcher_step owner_keys) w0 w1 → wanted w1 channel agent → identified w1 channel agent pubkey →
  history = wire w1 ++ members_query community owner_keys channel messages failure →
  member_list (oc_id channel) pubkey false messages → adds_member owner_keys (oc_id channel) pubkey event →
  justified_join owner_keys announced w history
    (WirePublish (url_as_str (cc_relay_url community)) event owner_keys answer).

Section Rounds.
Variable owner_keys : SecretKey.
Variable announced : Z → Prop.
Variable start : W.
#[local] Notation step := (watcher_step owner_keys).
#[local] Notation joins w w' := (joins_only (justified_join owner_keys announced start) (wire w) (wire w')).
(** Reached from the start, with nothing unjustified on the way. *)
Definition advances (w w' : W) : Prop := rtc step w w' ∧ joins w w'.
#[export] Instance advances_preorder : PreOrder advances.
Proof. split; [by intros w|]. intros a b c [] []. split; by etrans. Qed.

Lemma advances_network r (w : W) l :
  Forall silent l → r.2 = wire w ++ l → advances w (set_part (S := Recorded R) r w).
Proof.
  intros Hl Hr. split; [apply rtc_once, step_network|]. unfold wire in *. cbn. rewrite Hr. by apply joins_silent.
Qed.
Lemma advances_agent channel w0 w agent :
  announced (oc_id channel) → found_open owner_keys channel (wire w) →
  rtc step start w0 → agent ∈ list_agents (Some (cc_id community)) (w_db w0) → rtc step w0 w →
  advances w (reconcile_auto_join_agent time temp_at generated context community owner_keys channel agent w).2.
Proof.
  intros Ha Ho Hw0 Hin Hw. split; [apply rtc_once, step_agent|].
  destruct (reconcile_auto_join_agent _ _ _ _ _ _ _ _ w) as [r w'] eqn:E. cbn [snd].
  apply reconcile_agent_attends in E as [? ->|? ? ->|pubkey ms f ? ? ? ->|pubkey ms f ev an r0 Hwa Hid Hs Had -> _|e l ? -> ?];
    [done|done|by apply joins_silent; repeat constructor| |by apply joins_silent].
  apply joins_snoc; [by repeat constructor|].
  eapply join_justified; [exact Ha| |exact Hw0|exact Hin|exact Hw|exact Hwa|exact Hid|reflexivity|done|done].
  eapply found_open_mono; [|exact Ho]. by apply prefix_app_r.
Qed.
Lemma advances_channel channel w :
  announced (oc_id channel) → found_open owner_keys channel (wire w) → rtc step start w →
  advances w (reconcile_auto_join_channel time temp_at generated context community owner_keys channel w).2.
Proof.
  intros Ha Ho Hw. unfold reconcile_auto_join_channel, mbind, M_bind, db_read, gets.
  assert (∀ agents w1, (∀ a, a ∈ agents → a ∈ list_agents (Some (cc_id community)) (w_db w)) → advances w w1 →
    advances w (forM_ (reconcile_auto_join_agent time temp_at generated context community owner_keys channel)
                  agents w1).2) as Hall.
  { induction agents as [|a agents IH]; intros w1 Hin Hw1; [done|]. cbn [forM_]. unfold mbind, M_bind.
    assert (advances w (reconcile_auto_join_agent time temp_at generated context community owner_keys channel a w1).2)
      as Hnext.
    { etrans; [exact Hw1|]. destruct Hw1 as [Hr [Hp _]].
      apply (advances_agent channel w); [done|by eapply found_open_mono|done|apply Hin; left|done]. }
    destruct (reconcile_auto_join_agent _ _ _ _ _ _ _ _ w1) as [[[]|e] w2]; [|done].
    apply IH; [|done]. intros x Hx. apply Hin. by right. }
  by apply Hall.
Qed.
Lemma advances_found channel_id (w w' : W) r :
  on (S := Recorded R) (fetch_open_channel (cc_relay_url community) owner_keys channel_id) w = (r, w') →
  advances w w' ∧ ∀ channel, r = Ok (Some channel) → oc_id channel = channel_id ∧ found_open owner_keys channel (wire w').
Proof.
  unfold on. cbn [part world_outside].
  destruct (fetch_open_channel _ _ _ (fx_outside (w_fx w))) as [x s] eqn:E. intros [= <- <-].
  unfold fetch_open_channel in E. apply ask_wire in E as [(l & Hl & Fl) Hok].
  split; [by eapply advances_network|]. intros channel ->.
  destruct (Hok _ eq_refl) as (ms & f & Hs & K). apply scan_open_channel_ok in K as (Hid & ev & Hin & Hev).
  split; [done|]. rewrite <- Hid in *. exists (wire w), ms, f, ev. split; [|done]. unfold wire in *. cbn. by rewrite Hs.
Qed.

Lemma advances_connection fuel turns w :
  (∀ sub event id, TurnMessage (Ok (MsgEvent sub event)) ∈ turns →
     channel_notification event (public_key_hex owner_keys) = Some id → announced id) →
  rtc step start w →
  advances w (watch_connection time temp_at generated context fuel community owner_keys turns w).2.
Proof.
  revert turns w. induction fuel as [|fuel IH]; intros turns w Hann Hw; [done|]. cbn [watch_connection].
  destruct (next_channel_notification _ _) as [[r turns']|] eqn:En; [|done].
  destruct (next_notification_from _ _ _ _ En) as [Hsuffix Hid].
  assert (∀ w1, advances w w1 →
    advances w (watch_connection time temp_at generated context fuel community owner_keys turns' w1).2) as Hgo.
  { intros w1 Hw1. etrans; [exact Hw1|]. apply IH; [|by etrans; [|apply Hw1]].
    intros sub ev id Hev. apply (Hann sub). by apply Hsuffix. }
  destruct r as [[channel_id|]|e]; [|done..].
  destruct (on (S := Recorded R) (fetch_open_channel (cc_relay_url community) owner_keys channel_id) w)
    as [x w1] eqn:Ef.
  apply advances_found in Ef as [Hf Hopen]. destruct x as [[channel|]|e]; [|by apply Hgo..].
  destruct (Hopen channel eq_refl) as [<- Ho].
  destruct (Hid _ eq_refl) as (sub & ev & Hin & Hev).
  pose proof (advances_channel channel w1 (Hann sub ev _ Hin Hev) Ho ltac:(by etrans; [|apply Hf])) as Hc.
  destruct (reconcile_auto_join_channel _ _ _ _ _ _ _ w1) as [[[]|e] w2]; cbn [snd] in Hc.
  - apply Hgo. by etrans.
  - cbn. by etrans.
Qed.

Lemma advances_hang_up connection w : advances w (hang_up connection w).
Proof.
  unfold hang_up. apply (advances_network _ _ []); [done|]. cbn. by rewrite app_nil_r.
Qed.
Lemma advances_connect w r w' :
  on (S := Recorded R) (connect_authenticated (url_as_str (cc_relay_url community)) owner_keys) w = (r, w') →
  advances w w'.
Proof.
  unfold on. cbn. unfold record_with. destruct (connect_authenticated _ _ _) as [x s]. intros [= <- <-].
  eapply (advances_network (s, _)); [|reflexivity]. by repeat constructor.
Qed.
Lemma advances_send connection request w r w' :
  on (S := Recorded R) (send_raw connection request) w = (r, w') → advances w w'.
Proof.
  unfold on. cbn. unfold record_with. destruct (send_raw _ _ _) as [x s]. intros [= <- <-].
  eapply (advances_network (s, _)); [|reflexivity]. by repeat constructor.
Qed.

Lemma advances_round round backoff w e waits w' :
  (∀ sub event id, TurnMessage (Ok (MsgEvent sub event)) ∈ wr_turns round →
     channel_notification event (public_key_hex owner_keys) = Some id → announced id) →
  rtc step start w → 1 ≤ backoff ≤ AUTO_JOIN_MAX_BACKOFF →
  watch_round time temp_at generated context community owner_keys round backoff w = (e, waits, w') →
  advances w w' ∧ Forall (λ t, 1 ≤ t ≤ AUTO_JOIN_MAX_BACKOFF) waits
  ∧ match e with RoundContinues b => 1 ≤ b ≤ AUTO_JOIN_MAX_BACKOFF | _ => True end.
Proof.
  intros Hann Hw Hb. unfold watch_round.
  assert (∀ b w1, 1 ≤ b ≤ AUTO_JOIN_MAX_BACKOFF → advances w w1 →
    (wait_round (wr_wait round) b, w1) = (e, waits, w') →
    advances w w' ∧ Forall (λ t, 1 ≤ t ≤ AUTO_JOIN_MAX_BACKOFF) waits
    ∧ match e with RoundContinues b => 1 ≤ b ≤ AUTO_JOIN_MAX_BACKOFF | _ => True end) as Hwait.
  { intros b w1 Hb1 Hw1. unfold wait_round. intros [= <- <- <-]. split; [done|].
    split; [by constructor|]. destruct (wait_or_shutdown _); [done|]. unfold doubled_backoff, AUTO_JOIN_MAX_BACKOFF in *. lia. }
  destruct (wr_stopping round); [intros [= <- <- <-]; split_and!; done|].
  destruct (wr_change round) as [c|];
    [intros [= <- <- <-]; split; [done|]; split; [done|]; by destruct (shuts_down c)|].
  cbv zeta. destruct (on (connect_authenticated _ _) w) as [[connection|err] w1] eqn:Ec;
    apply advances_connect in Ec; [|by apply Hwait].
  destruct (on (send_raw _ _) w1) as [[[]|err] w2] eqn:Es; apply advances_send in Es.
  2: { apply Hwait; [done..|]. etrans; [exact Ec|]. etrans; [exact Es|]. apply advances_hang_up. }
  assert (advances w w2) as Hw2 by by etrans.
  pose proof (advances_connection (S (length (wr_turns round))) (wr_turns round) w2 Hann
    ltac:(by etrans; [|apply Hw2])) as Hc.
  destruct (watch_connection _ _ _ _ _ _ _ _ w2) as [[] w3]; cbn [snd] in Hc.
  - intros [= <- <- <-]. split; [|done]. etrans; [exact Hw2|]. etrans; [exact Hc|]. apply advances_hang_up.
  - apply Hwait; [unfold AUTO_JOIN_MAX_BACKOFF; lia|]. etrans; [exact Hw2|]. etrans; [exact Hc|]. apply advances_hang_up.
  - intros [= <- <- <-]. split; [|done]. by etrans.
Qed.

Lemma advances_rounds script backoff w answer waits w' :
  (∀ round sub event id, round ∈ script → TurnMessage (Ok (MsgEvent sub event)) ∈ wr_turns round →
     channel_notification event (public_key_hex owner_keys) = Some id → announced id) →
  rtc step start w → 1 ≤ backoff ≤ AUTO_JOIN_MAX_BACKOFF →
  watch_rounds time temp_at generated context community owner_keys script backoff w = (answer, waits, w') →
  advances w w' ∧ Forall (λ t, 1 ≤ t ≤ AUTO_JOIN_MAX_BACKOFF) waits.
Proof.
  revert backoff w answer waits w'. induction script as [|round script IH]; intros backoff w answer waits w' Hann Hw Hb.
  { by intros [= <- <- <-]. }
  cbn [watch_rounds].
  destruct (watch_round _ _ _ _ _ _ round backoff w) as [[e ws] w1] eqn:Er.
  apply advances_round in Er as (Hw1 & Hws & He); [|intros ????; eapply Hann; [left|..]; done|done|done].
  destruct e as [|b|]; [by intros [= <- <- <-]| |by intros [= <- <- <-]].
  destruct (watch_rounds _ _ _ _ _ _ script b w1) as [[answer' ws'] w2] eqn:E2. intros [= <- <- <-].
  apply IH in E2 as [Hw2 Hws2]; [|intros ?????; eapply Hann; by right|by etrans; [|apply Hw1]|done].
  split; [by etrans|by apply Forall_app].
Qed.
End Rounds.

(** A turn of the script is a notification of the channel to the owner. *)
Definition announced_in (script : list WatchRound) (owner_keys : SecretKey) (channel_id : Z) : Prop :=
  ∃ round sub event, round ∈ script ∧ TurnMessage (Ok (MsgEvent sub event)) ∈ wr_turns round
    ∧ channel_notification event (public_key_hex owner_keys) = Some channel_id.

Definition wire_kept (w w' : W) : Prop := wire w' = wire w.
Lemma wire_on_fs {E A} (m : M Fs E A) : always wire_kept (on (W := W) m).
Proof. intros w. unfold on. by destruct (m (part w)). Qed.
#[local] Instance wire_preorder : PreOrder wire_kept.
Proof. unfold wire_kept. split; [done|]. intros a b c Hab Hbc. congruence. Qed.
Lemma wire_stored {E A} (g : StorageError → E) (f : Db → stored A) :
  always wire_kept (M_map_err g (stored_step f)).
Proof. intros w. unfold M_map_err, stored_step. by destruct (f (w_db w)) as [[]|]. Qed.
Lemma wire_prepare : always wire_kept (prepare_auto_join_state time context community).
Proof.
  unfold prepare_auto_join_state. always_steps; [by intros w|].
  apply (always_forM_ wire_kept). intros agent. unfold prepare_agent.
  always_steps; first [apply wire_on_fs|apply wire_stored].
Qed.
Lemma owner_keys_spec (w w' : W) r :
  auto_join_owner_keys context community w = (r, w') →
  wire w' = wire w ∧ ∀ keys, r = Ok keys → ∃ owner, cc_identity_pubkey community = Some owner
    ∧ holds_identity (ac_community_identity_root context) owner (fx_fs (w_fx w)) keys.
Proof.
  unfold auto_join_owner_keys. intros Hr. split.
  { revert Hr. apply (always_run wire_kept). always_steps. apply wire_on_fs. }
  intros keys ->. apply bind_ok in Hr as (owner & w1 & Ho & Hr).
  destruct (cc_identity_pubkey community) as [o|]; [|done]. injection Ho as -> <-. exists owner. split; [done|].
  unfold on, M_map_err in Hr. destruct (identity_keys _ owner (part w)) as [[k|e] s] eqn:Ek; [|done].
  injection Hr as -> _. by apply identity_keys_ok in Ek.
Qed.

(** C19: a watcher adds an agent to a channel only when it should. Whatever the relay sends
    and whatever fails, each event a run of a community's watcher publishes goes to the
    community's relay and is signed with the owner's key on file; it adds the custodied
    identity of an agent of the community that is not deleted and whose document, as it
    reads at that moment, asks for all channels, or for new ones and the channel was
    created strictly after the stored boundary; the channel was announced to the owner and
    its creation event, fetched before, says it is open; and the member list the relay sent
    right before the publication does not have the identity. The waits between connections
    stay between 1 and 30 seconds. *)
Theorem auto_join_adds_only_wanted_agents (script : list WatchRound) (w w' : W)
    (answer : option (result DaemonError unit)) (waits : list Z) :
  run_community_auto_join time temp_at generated context community script w = (answer, waits, w') →
  Forall (λ t, 1 ≤ t ≤ 30) waits
  ∧ (wire w' = wire w
     ∨ ∃ owner owner_keys w1 w2,
         cc_identity_pubkey community = Some owner
         ∧ prepare_auto_join_state time context community w = (Ok tt, w1)
         ∧ auto_join_owner_keys context community w1 = (Ok owner_keys, w2)
         ∧ holds_identity (ac_community_identity_root context) owner (fx_fs (w_fx w1)) owner_keys
         ∧ ∀ i x, (length (wire w) ≤ i)%nat → wire w' !! i = Some x → silent x
             ∨ justified_join owner_keys (announced_in script owner_keys) w2 (take i (wire w')) x).
Proof.
  unfold run_community_auto_join.
  destruct (prepare_auto_join_state time context community w) as [[[]|e] w1] eqn:E1;
    pose proof (always_run _ _ _ _ _ wire_prepare E1) as L1; unfold wire_kept in L1; [|intros [= <- <- <-]; by split; [|left]].
  destruct (auto_join_owner_keys context community w1) as [[keys|e] w2] eqn:E2;
    destruct (owner_keys_spec _ _ _ E2) as [L2 Hk]; [|intros [= <- <- <-]; split; [done|left; congruence]].
  intros Hr. destruct (Hk keys eq_refl) as (owner & Ho & Hi).
  apply (advances_rounds keys (announced_in script keys) w2) in Hr as [[_ [_ Hj]] Hwaits];
    [|by intros round sub ev id Hin Ht Hn; exists round, sub, ev|done|unfold AUTO_JOIN_MAX_BACKOFF; lia].
  split; [done|]. right. exists owner, keys, w1, w2. split_and!; [done..|].
  intros i x Hi'. apply Hj. congruence.
Qed.

(** When a channel was reconciled without an error, every agent of the community was passed
    over, in order: it did not want the channel, could not be identified, was a member
    already, or its addition was accepted. *)
Theorem auto_join_attends_every_agent (owner_keys : SecretKey) (channel : OpenChannel) (w w' : W)
    (before after : list AgentSpec) (agent : AgentSpec) :
  reconcile_auto_join_channel time temp_at generated context community owner_keys channel w = (Ok tt, w') →
  list_agents (Some (cc_id community)) (w_db w) = before ++ agent :: after →
  ∃ w1 w2,
    forM_ (reconcile_auto_join_agent time temp_at generated context community owner_keys channel) before w
      = (Ok tt, w1)
    ∧ attended community owner_keys channel agent w1 w2 (Ok tt)
    ∧ forM_ (reconcile_auto_join_agent time temp_at generated context community owner_keys channel) after w2
      = (Ok tt, w').
Proof.
  unfold reconcile_auto_join_channel, mbind, M_bind, db_read, gets. intros Hr Hl. rewrite Hl in Hr. clear Hl.
  set (f := reconcile_auto_join_agent _ _ _ _ _ _ _) in *.
  assert (∀ w0, forM_ f (before ++ agent :: after) w0 = (Ok tt, w') → ∃ w1 w2,
    forM_ f before w0 = (Ok tt, w1) ∧ f agent w1 = (Ok tt, w2) ∧ forM_ f after w2 = (Ok tt, w')) as Hsplit.
  { clear Hr. induction before as [|a before IH]; intros w0; cbn [app forM_].
    - intros ([] & w2 & Ha & Hr)%bind_ok. by exists w0, w2.
    - intros ([] & w2 & Ha & Hr)%bind_ok. destruct (IH w2 Hr) as (w1 & w3 & Hb & K).
      exists w1, w3. by rewrite (bind_after _ _ _ _ _ Ha). }
  destruct (Hsplit w Hr) as (w1 & w2 & Hb & Ha & K). exists w1, w2.
  split_and!; [done|by apply reconcile_agent_attends|done].
Qed.
End Attending.

(** ** The script of a connection is always read to its end *)
Section Fuel.
Context `{UuidLib} `{NostrLib} `{ChannelLib} `{DocumentJson} {R : Type} `{Outside R} `{!RelaySockets R}.
Variable time : nat → Z.
Variable temp_at : nat → string.
Variable generated : nat → SecretKey.
Variable context : AutoJoinContext.

Lemma next_notification_shorter turns owner r turns' :
  next_channel_notification turns owner = Some (r, turns') → (length turns' < length turns)%nat.
Proof.
  induction turns as [|t turns IH]; [done|]. cbn [next_channel_notification length]. intros Hn.
  destruct t as [c|[[sub ev| | |]|e]]; try (specialize (IH Hn); lia).
  - destruct (shuts_down c); [injection Hn as _ <-; lia|]. specialize (IH Hn). lia.
  - destruct (channel_notification ev owner); [injection Hn as _ <-; lia|]. specialize (IH Hn). lia.
  - injection Hn as _ <-. lia.
Qed.
Lemma watch_connection_fuel n m community keys turns (w : World (DaemonFx R)) :
  (length turns < n)%nat → (length turns < m)%nat →
  watch_connection time temp_at generated context n community keys turns w
  = watch_connection time temp_at generated context m community keys turns w.
Proof.
  revert m turns w. induction n as [|n IH]; intros [|m] turns w Hn Hm; [lia..|]. cbn [watch_connection].
  destruct (next_channel_notification _ _) as [[r turns']|] eqn:En; [|done].
  apply next_notification_shorter in En.
  destruct r as [[id|]|e]; [|done..].
  destruct (on (fetch_open_channel _ _ _) w) as [[[c|]|e] w1]; [|apply IH; lia..].
  destruct (reconcile_auto_join_channel _ _ _ _ _ _ _ w1) as [[[]|e] w2]; [apply IH; lia|done].
Qed.
End Fuel.

(** ** One watcher per community
    Tasks have their position as number; one that was spawned and not aborted is the
    watcher of its community. *)
Definition supervises (s : ManagerState) : Prop :=
  (∀ i t, ms_spawned s !! i = Some t → t.1 = i)
  ∧ (∀ id task, ms_watchers s !! id = Some task → ∃ c, ms_spawned s !! task = Some (task, c) ∧ cc_id c = id)
  ∧ ∀ task c, ms_spawned s !! task = Some (task, c) → task ∈ ms_aborted s ∨ ms_watchers s !! cc_id c = Some task.
(** A stored community is filed under its own id. *)
Definition communities_filed (db : Db) : Prop := ∀ id c, get_community id db = Some c → cc_id c = id.

Lemma replace_watcher_supervises id db s :
  communities_filed db → supervises s → supervises (replace_watcher id db s).
Proof.
  intros Hdb (Hn & Hw & Hl). unfold replace_watcher.
  set (aborted := match ms_watchers s !! id with Some task => _ | None => _ end).
  assert (∀ task c, ms_spawned s !! task = Some (task, c) →
    task ∈ aborted ∨ (cc_id c ≠ id ∧ ms_watchers s !! cc_id c = Some task)) as Hl'.
  { intros task c Ht. destruct (Hl task c Ht) as [Ha|Ha].
    - left. subst aborted. destruct (ms_watchers s !! id); [apply elem_of_app; by left|done].
    - destruct (decide (cc_id c = id)) as [<-|]; [|by right]. left. subst aborted. rewrite Ha.
      apply elem_of_app. right. by apply list_elem_of_singleton. }
  clearbody aborted. destruct (get_community id db) as [c|] eqn:Ec.
  - pose proof (Hdb _ _ Ec) as Hc. split_and!; cbn.
    + intros i t [Hi|(Hi & Ht)]%lookup_app_Some; [by apply Hn|].
      apply list_lookup_singleton_Some in Ht as [Hz <-]. cbn. lia.
    + intros i task. destruct (decide (i = id)) as [->|Hne].
      * rewrite lookup_insert_eq. intros [= <-]. exists c. split; [|done]. by rewrite list_lookup_middle.
      * rewrite lookup_insert_ne, lookup_delete_ne by done. intros Ht. destruct (Hw _ _ Ht) as (d & Hd & ?).
        exists d. split; [|done]. by apply lookup_app_l_Some.
    + intros task d [Ht|(Hi & Ht)]%lookup_app_Some.
      * destruct (Hl' _ _ Ht) as [|[Hne ?]]; [by left|right]. by rewrite lookup_insert_ne, lookup_delete_ne.
      * apply list_lookup_singleton_Some in Ht as [_ [= <- <-]]. right. by rewrite Hc, lookup_insert_eq.
  - split_and!; cbn; [done| |].
    + intros i task Ht. apply lookup_delete_Some in Ht as [_ Ht]. by apply Hw.
    + intros task d Ht. destruct (Hl' _ _ Ht) as [|[Hne ?]]; [by left|right]. by rewrite lookup_delete_ne.
Qed.

(** However the communities change, a community never has two watchers; when the manager
    returns, none is left. *)
Theorem one_watcher_per_community script s answer s' :
  Forall (λ t, communities_filed t.2) script → supervises s →
  run_auto_join_manager script s = (answer, s') →
  supervises s' ∧ (is_Some answer → ∀ task c, ms_spawned s' !! task = Some (task, c) → task ∈ ms_aborted s').
Proof.
  assert (∀ s, supervises s → supervises (abort_watchers s)
    ∧ ∀ task c, ms_spawned s !! task = Some (task, c) → task ∈ ms_aborted (abort_watchers s)) as Habort.
  { clear. intros s (Hn & Hw & Hl). unfold supervises, abort_watchers. cbn.
    assert (∀ task c, ms_spawned s !! task = Some (task, c) →
      task ∈ ms_aborted s ++ (map_to_list (ms_watchers s)).*2) as Hall.
    { intros task c Ht. apply elem_of_app. destruct (Hl _ _ Ht) as [|Hm]; [by left|right].
      apply list_elem_of_fmap. exists (cc_id c, task). split; [done|]. by apply elem_of_map_to_list. }
    split; [|done]. split_and!; [done|by intros ?? ?%lookup_empty_Some|]. intros task c Ht. left. eauto. }
  intros Hdb. revert s. induction Hdb as [|[t db] script Hdb _ IH]; intros s Hs; cbn [run_auto_join_manager].
  { intros [= <- <-]. split; [done|]. by intros [? [=]]. }
  destruct t as [c|[id|]].
  - destruct (shuts_down c); [|by apply IH]. intros [= <- <-]. destruct (Habort s Hs). by split.
  - apply IH. by apply replace_watcher_supervises.
  - intros [= <- <-]. destruct (Habort s Hs). by split.
Qed.

(** ** A channel that is announced *)
#[local] Existing Instances sample_keys sample_nostr sample_laws.
#[local] Instance channel_lib : ChannelLib := {
  MemberRole := unit; Bot := tt;
  build_add_member channel pubkey _ := Ok (9000, [["p"; pubkey]; ["h"; Uuid_to_string channel]], "");
  value_of_json _ := Some (JObject [("type", JString "member_added")])
}.
#[local] Instance channel_json : DocumentJson := {|
  agent_to_json _ := "{}"; agent_of_json _ := Some sample_config_file;
  persona_to_json _ := "{}"; persona_of_json _ := None
|}.
(** The relay's answers, one per connection. *)
#[local] Instance queue_outside : Outside (list (list RelayMessage)) := {|
  build_client := mret tt;
  send_request := λ _, mret (mkHttpResponse 200 (Ok "{}"));
  draw_uuid := λ w, ("nonce", w); timestamp := λ w, (7, w)
|}.
#[local] Instance queue_sockets : RelaySockets (list (list RelayMessage)) := {
  Socket := unit;
  connect_authenticated _ _ := mret tt;
  send_raw _ _ := mret tt;
  receive _ q := ((default [] (head q), "closed"), tail q);
  disconnect _ q := q;
  publish_event _ _ _ := mret (true, "")
}.
Definition channel_tag : list string := ["h"; Uuid_to_string 42].
Definition creation_event : NostrEvent :=
  mkNostrEvent "relay" 2000 9007 [channel_tag; ["visibility"; "open"]] "".
Definition members_event : NostrEvent :=
  mkNostrEvent "relay" 2001 39002 [["d"; Uuid_to_string 42]; ["p"; "public-owner"]] "".
Definition added_event : NostrEvent :=
  mkNostrEvent "relay" 2002 44100 [channel_tag; ["p"; "public-owner"]] "{}".
Definition channel_round : WatchRound :=
  mkWatchRound false None [TurnMessage (Ok (MsgEvent "s" added_event)); TurnMessage (Err "closed")] Slept.
Definition watched_community : CommunityConfig :=
  mkCommunityConfig (mkCommunityConfigId 1) "c" (mkUrl "wss" (Some "relay") "" None None None "wss://relay/")
    (Some "public-owner").
Definition watch_keys (_ : nat) : @SecretKey sample_keys := "key".
Definition watch_context : AutoJoinContext :=
  mkAutoJoinContext (mkAgentFileStore (mkPath true ["srv"])) (mkCustody (mkPath true ["keys"]) 0)
    (mkPath true ["ids"]).
Definition watch_world : World (DaemonFx (Recorded (list (list RelayMessage)))) :=
  mkWorld (set_t_agents {[ mkAgentId 7 := mkAgentRow (mkCommunityConfigId 1) sample_agent 5 ]} empty_db)
    (mkDaemonFx
       (mkFs {[ agent_path (mkAgentFileStore (mkPath true ["srv"])) (mkAgentId 7) := mkNode RegularFile 384 0 "{}";
                mkPath true ["ids"; "public-owner.secret"] := mkNode RegularFile 384 0 "owner";
                mkPath true ["keys"] := mkNode Directory 448 0 "";
                mkPath true ["keys"; "agent_00000000000000000000000000000007.secret"] :=
                  mkNode RegularFile 384 0 "0123456789abcdef0123456789abcdef0123456789abcdef0123456789abcdef" ]} [] 0)
       ([[MsgEvent (channel_subscription_id 42) creation_event];
         [MsgOther; MsgEvent (members_subscription_id 42) members_event]], [])
       (mkChannel true []) (mkChannel true []) (mkChannel true [])) 0 0 0.
Lemma auto_join_adds_only_wanted_agents_witness :
  let run := run_community_auto_join (R := Recorded (list (list RelayMessage))) (λ _, 1000) (λ _, "tmp") watch_keys watch_context
               watched_community [channel_round; channel_round] watch_world in
  run.1 = (None, [1; 1])
  ∧ (∃ event answer, last (take 9 (wire run.2)) = Some (WirePublish "wss://relay/" event "owner" answer))
  ∧ Forall (λ t, 1 ≤ t ≤ 30) [1; 1].
Proof.
  intros run. assert (run.1 = (None, [1; 1])) as Hr by (vm_compute; reflexivity). split; [exact Hr|].
  split; [eexists _, _; vm_compute; reflexivity|].
  destruct (auto_join_adds_only_wanted_agents (R := list (list RelayMessage)) (λ _, 1000) (λ _, "tmp") watch_keys watch_context
    watched_community [channel_round; channel_round] watch_world run.2 run.1.1 run.1.2) as [Hw _].
  - change (run = (run.1.1, run.1.2, run.2)). by destruct run as [[? ?] ?].
  - rewrite Hr in Hw. exact Hw.
Defined.
