(* ===== verification/Background.v ===== *)
(** * The threads beside the reconciliation
    The relay publication worker, the watchers that join agents to open channels, and what
    the reconciliation worker does between operations: all of it consists of steps that
    leave the operations and the worker's queue alone, so it may be interleaved with
    everything else step by step. *)
From Stdlib Require Import ZArith Lia String Ascii.
From stdpp Require Import base gmap list strings.
From S2P Require Import Prelude RustStr Ids Signer Lifecycle Agent Runtime Launch Auth ApiTypes Bytes.
From S2P Require Import Schema Storage StoreInv StoreProps Sha256 Monad Application AppProps AppCommands Api ApiProps.
From S2P Require Import Fs Reconcile Json AgentFiles Custody Transport Nostr RelayProjection CommunityJoin Daemon.
From S2P Require Import Receipts Wake Publications AgentTree LogCapture Process Supervisor Worker Startup Answers AutoJoin.
#[local] Open Scope Z_scope.
#[local] Set Warnings "-notation-for-abbreviation".

(** ** A background step
    A change beside the store and the worker's queue (a file, a process, a relay, another
    channel, a clock), or one quiet call of the store. *)
Section Background.
Context `{UuidLib} {R : Type}.
#[local] Notation W := (World (DaemonFx R)).
Inductive background : W → W → Prop :=
| background_beside w w' :
    w_db w' = w_db w → fx_work (w_fx w') = fx_work (w_fx w) → background w w'
| background_call c w : quiet_call c = true → background w (stored_by c w).
#[export] Instance background_calm : Calm (rtc background).
Proof.
  split; [apply _| |].
  - intros w w' Hd Hf. by apply rtc_once, background_beside.
  - intros c w Hc. by apply rtc_once, background_call.
Qed.
(** It is the smallest such relation. *)
Lemma background_least (Q : W → W → Prop) `{!Calm Q} w w' : background w w' → Q w w'.
Proof. intros [v v' Hd Hf|c v Hc]; [by apply calm_beside|by apply calm_stored]. Qed.
End Background.

(** ** The publication worker *)
Section CalmPublications.
Context `{UuidLib} `{NostrLib} `{BuzzKinds} `{DocumentJson} `{ErrorTexts}.
Context {R : Type} `{Outside R} `{Keyring R}.
Variable time : nat → Z.
Variable parse_url : string → result string Url.
Variable context : RelayPublicationContext.
#[local] Notation W := (World (DaemonFx R)).
Context (Q : W → W → Prop) `{!Calm Q}.

Lemma calm_record_retained kind publication missing d_tag :
  always Q (record_retained (R := R) time kind publication missing d_tag).
Proof.
  unfold record_retained, text_store. always_steps; [apply (calm_clock _ Q)|]. apply (always_map_err Q).
  match goal with |- always _ (stored_step (record_relay_projection ?k ?s ?p ?n)) =>
    by apply (calm_step Q (CallRecordProjection k s p n)) end.
Qed.
#[local] Opaque record_retained.
Lemma calm_publish_one publication relay_url owner_keys :
  always Q (publish (R := R) time context publication relay_url owner_keys).
Proof.
  unfold publish, retry_managed_agent_projection, retry_persona_projection, projected, text_files.
  destruct (rp_action publication); always_steps; first [apply (calm_on Q)|apply calm_record_retained].
Qed.
#[local] Transparent record_retained.
Lemma calm_owner_cleanup owner : always Q (cleanup_unreferenced_projection_owner (R := R) context owner).
Proof. unfold cleanup_unreferenced_projection_owner. always_steps. apply (calm_on Q). Qed.
Lemma calm_published publication : always Q (published (R := R) context publication).
Proof.
  unfold published, dstore. apply (always_bind Q).
  { apply (always_map_err Q). by apply (calm_step Q (CallCompletePublication (rp_id publication))). }
  intros _. apply (always_bind Q); [|intros _; apply calm_owner_cleanup].
  destruct (rp_community publication) as [c|], (tombstoned_kind (rp_action publication)) as [k|]; try apply (always_ret Q).
  apply (always_map_err Q). by apply (calm_step Q (CallRemoveProjection c k (rp_subject_id publication))).
Qed.
Lemma calm_publication_failed publication error :
  always Q (publication_failed (R := R) time publication error).
Proof.
  unfold publication_failed, dstore. apply (always_bind Q); [apply (calm_clock _ Q)|intros now].
  apply (always_map_err Q). by apply (calm_step Q (CallFailPublication (rp_id publication) error now)).
Qed.
Lemma calm_drain : always Q (drain_relay_publications (R := R) time parse_url context).
Proof.
  unfold drain_relay_publications. apply (always_bind Q); [by intros w; apply calm_beside|intros pending].
  apply (always_forM_ Q). intros publication. unfold drain_one. apply (always_bind Q); [apply (always_of_result Q)|].
  intros relay_url w. unfold attempt.
  assert (always Q (relay_publication_owner_keys (R := R) context (rp_owner_pubkey publication))) as K
    by (unfold relay_publication_owner_keys; always_steps; apply (calm_on Q)).
  specialize (K w). destruct (relay_publication_owner_keys _ _ w) as [[keys|e] w1]; cbn in K.
  2:{ etrans; [exact K|]. apply calm_publication_failed. }
  pose proof (calm_publish_one publication relay_url keys w1) as K1.
  destruct (publish time context publication relay_url keys w1) as [[[]|e] w2]; cbn in K1;
    (etrans; [exact K|]; etrans; [exact K1|]); [apply calm_published|apply calm_publication_failed].
Qed.
End CalmPublications.

(** ** The watchers *)
Section CalmWatchers.
Context `{UuidLib} `{NostrLib} `{ChannelLib} `{DocumentJson} {R : Type} `{Outside R} `{!RelaySockets R}.
Variable time : nat → Z.
Variable temp_at : nat → string.
Variable generated : nat → SecretKey.
Variable context : AutoJoinContext.
#[local] Notation W := (World (DaemonFx R)).
Context (Q : W → W → Prop) `{!Calm Q}.

Lemma calm_enable agent now : always Q (stored_step (R := R) (ensure_auto_join_enabled_at agent now)).
Proof. by apply (calm_step Q (CallEnsureAutoJoin agent now)). Qed.
Lemma calm_prepare_agents community : always Q (prepare_auto_join_state (R := R) time context community).
Proof.
  unfold prepare_auto_join_state. apply (always_bind Q); [apply (calm_clock _ Q)|intros now].
  apply (always_bind Q); [apply (always_gets Q)|intros agents]. apply (always_forM_ Q). intros agent.
  unfold prepare_agent. apply (always_bind Q); [apply (calm_on Q)|intros file].
  destruct (acf_auto_join_open_channels file);
    first [ apply (always_bind Q); [apply (always_map_err Q), calm_enable|intros _; apply (always_ret Q)]
          | apply (always_map_err Q); by apply (calm_step Q (CallClearAutoJoin (spec_id agent))) ].
Qed.
Lemma calm_wants channel agent (w : W) : Q w (wants_channel time context channel agent w).2.
Proof.
  unfold wants_channel. destruct (bool_decide _); [reflexivity|].
  pose proof (calm_on Q (load_agent (ac_agent_files context) (spec_id agent)) w) as K.
  destruct (on (load_agent _ _) w) as [[file|e] w1]; cbn in K; [|exact K].
  destruct (acf_auto_join_open_channels file); try exact K. etrans; [exact K|].
  match goal with |- context [match ?m w1 with _ => _ end] => assert (always Q m) as K1 end.
  { apply (always_bind Q); [apply (calm_clock _ Q)|intros now; apply calm_enable]. }
  specialize (K1 w1). match type of K1 with Q _ (?m w1).2 => by destruct (m w1) as [[]] end.
Qed.
Lemma calm_join_agent community owner_keys channel agent :
  always Q (reconcile_auto_join_agent (R := R) time temp_at generated context community owner_keys channel agent).
Proof.
  intros w. unfold reconcile_auto_join_agent. pose proof (calm_wants channel agent w) as K.
  destruct (wants_channel time context channel agent w) as [wanted w1]. cbn in K. destruct wanted; [|exact K]. cbn [negb].
  assert (always Q (provision_member (R := R) temp_at generated context agent)) as K1.
  { unfold provision_member, next_temp. always_steps; first [apply (calm_draw Q)|apply (calm_on Q)]. }
  specialize (K1 w1). destruct (provision_member _ _ _ agent w1) as [[identity|e] w2]; cbn in K1; [|by etrans].
  assert (always Q (join_agent (R := R) community owner_keys channel identity)) as K2.
  { unfold join_agent, reconcile_auto_join_member. always_steps; apply (calm_on Q). }
  specialize (K2 w2). destruct (join_agent community owner_keys channel identity w2) as [[joined|e] w3];
    cbn in K2; by repeat (etrans; [eassumption|]).
Qed.
Lemma calm_join_channel community owner_keys channel :
  always Q (reconcile_auto_join_channel (R := R) time temp_at generated context community owner_keys channel).
Proof.
  unfold reconcile_auto_join_channel. apply (always_bind Q); [apply (always_gets Q)|intros agents].
  apply (always_forM_ Q). intros agent. apply calm_join_agent.
Qed.
Lemma calm_watch_connection fuel community owner_keys turns (w : W) :
  Q w (watch_connection time temp_at generated context fuel community owner_keys turns w).2.
Proof.
  revert turns w. induction fuel as [|fuel IH]; intros turns w; cbn [watch_connection]; [reflexivity|].
  destruct (next_channel_notification turns _) as [[[[channel_id|]|e] turns']|]; try reflexivity.
  pose proof (calm_on Q (fetch_open_channel (cc_relay_url community) owner_keys channel_id) w) as K.
  destruct (on (fetch_open_channel _ _ _) w) as [[[channel|]|e] w1]; cbn in K; [|by etrans; [|apply IH]..].
  pose proof (calm_join_channel community owner_keys channel w1) as K1.
  destruct (reconcile_auto_join_channel _ _ _ _ _ _ _ w1) as [[[]|e] w2]; cbn in K1;
    (etrans; [exact K|]); [by etrans; [|apply IH]|exact K1].
Qed.
Lemma calm_watch_round community owner_keys round backoff (w : W) :
  Q w (watch_round time temp_at generated context community owner_keys round backoff w).2.
Proof.
  unfold watch_round. destruct (wr_stopping round); [reflexivity|]. destruct (wr_change round); [reflexivity|].
  cbv zeta. set (m := connect_authenticated _ _). pose proof (calm_on Q m w) as K.
  destruct (on m w) as [[connection|e] w1]; cbn in K; [|exact K].
  set (m1 := send_raw _ _). pose proof (calm_on Q m1 w1) as K1.
  destruct (on m1 w1) as [[[]|e] w2]; cbn in K1; (etrans; [exact K|]; etrans; [exact K1|]).
  - pose proof (calm_watch_connection (S (length (wr_turns round))) community owner_keys (wr_turns round) w2) as K2.
    destruct (watch_connection _ _ _ _ _ _ _ _ w2) as [[] w3]; cbn in K2 |- *; (etrans; [exact K2|]);
      try reflexivity; by apply calm_beside.
  - by apply calm_beside.
Qed.
Lemma calm_watch_rounds community owner_keys script backoff (w : W) :
  Q w (watch_rounds time temp_at generated context community owner_keys script backoff w).2.
Proof.
  revert backoff w. induction script as [|round script IH]; intros backoff w; cbn [watch_rounds]; [reflexivity|].
  pose proof (calm_watch_round community owner_keys round backoff w) as K.
  destruct (watch_round _ _ _ _ _ _ round backoff w) as [[e waits] w1]. cbn in K.
  destruct e as [|b|]; [exact K| |exact K]. specialize (IH b w1).
  destruct (watch_rounds _ _ _ _ _ _ script b w1) as [[answer waits'] w2]. by etrans.
Qed.
Lemma calm_watcher community script (w : W) :
  Q w (run_community_auto_join time temp_at generated context community script w).2.
Proof.
  unfold run_community_auto_join. pose proof (calm_prepare_agents community w) as K.
  destruct (prepare_auto_join_state time context community w) as [[[]|e] w1]; cbn in K; [|exact K].
  assert (always Q (auto_join_owner_keys (R := R) context community)) as K1
    by (unfold auto_join_owner_keys; always_steps; apply (calm_on Q)).
  specialize (K1 w1). destruct (auto_join_owner_keys context community w1) as [[keys|e] w2]; cbn in K1;
    (etrans; [exact K|]; etrans; [exact K1|]); [apply calm_watch_rounds|reflexivity].
Qed.
End CalmWatchers.

(** ** All of them *)
Section Threads.
Context `{UuidLib} `{NostrLib} `{SignerKeys} `{BuzzKinds} `{ChannelLib} `{DocumentJson} `{ReceiptJson} `{ErrorTexts}.
Context {R : Type} `{Outside R} `{Keyring R} `{LocalSupervisor R} `{!RelaySockets R}.
Variable signer_keys : SecretKey → Keys.
Variables (time millis : nat → Z) (uuid_at : nat → Z) (temp_at : nat → string).
Variable generated : nat → SecretKey.
Variable var : string → option string.
Variable parse_url : string → result string Url.
Variables (reconciling : ReconcileContext) (publishing : RelayPublicationContext) (joining : AutoJoinContext).

(** Publishing, watching channels, reconciling an agent at startup, observing the agents and
    cleaning up consist of background steps, whatever fails. *)
Theorem threads_run_in_the_background (w : World (DaemonFx R)) :
  (∀ received w', publication_turn time parse_url publishing received w = Some w' → rtc background w w')
  ∧ (∀ community script,
       rtc background w (run_community_auto_join time temp_at generated joining community script w).2)
  ∧ (∀ id, rtc background w (ignore (reconcile_startup_agent signer_keys time millis uuid_at temp_at
                                       generated var reconciling id) w))
  ∧ rtc background w (ignore (cleanup_purged_agent_artifacts reconciling)
                        (ignore (observe_dynamic_agents time millis reconciling) w)).
Proof.
  split_and!.
  - intros [[]| |] w' [= <-]; apply (calm_drain _ _ _ (rtc background)).
  - intros community script. apply (calm_watcher _ _ _ _ (rtc background)).
  - intros id. apply (calm_startup _ _ _ _ _ _ _ _ (rtc background)).
  - transitivity (ignore (observe_dynamic_agents time millis reconciling) w);
      [exact (calm_observation time millis reconciling (rtc background) w)|].
    exact (calm_cleanup reconciling (rtc background) _).
Qed.
End Threads.
