(* ===== verification/Boot.v ===== *)
(** * Putting the daemon together (main.rs, [main] up to its loop)
    The configuration is loaded, the directories are made, the contexts of the workers and
    of the service are built from one set of paths, and the work that was left is handed to
    the worker. With [--check-config] none of it happens. *)
From Stdlib Require Import ZArith Lia String Ascii.
From stdpp Require Import base gmap list strings.
From S2P Require Import Prelude RustStr Ids Signer Lifecycle Agent Runtime Launch Auth ApiTypes Bytes.
From S2P Require Import Schema Storage StoreInv StoreProps Sha256 Monad Application AppProps AppCommands.
From S2P Require Import Fs Reconcile Json AgentFiles Custody Transport Nostr RelayProjection CommunityJoin Daemon.
From S2P Require Import Receipts Wake Publications AgentTree LogCapture Process Supervisor Worker Startup AutoJoin.
#[local] Open Scope Z_scope.
#[local] Set Warnings "-notation-for-abbreviation".

(** What [main] builds: the supervisor, the effects of the service, and a context for each
    of the three workers. *)
Record DaemonParts : Type := mkParts {
  dp_config : DaemonConfig;
  dp_supervisor : LocalProcessAdapter;
  dp_wake : LifecycleWake;
  dp_reconcile : ReconcileContext;
  dp_publications : RelayPublicationContext;
  dp_auto_join : AutoJoinContext
}.
Definition COMMUNITY_IDENTITY_ROOT : Path := path_of_string "/run/buzz-server/community-identities".

Section Boot.
Context `{UuidLib} `{NostrLib} `{DocumentJson} {R : Type} `{Outside R} `{!Has LocalState R}.
Variables (time : nat → Z) (temp_at : nat → string).
Variable decode : string → option DaemonConfig.
#[local] Notation W := (World (DaemonFx R)).
#[local] Notation D := (M W DaemonError).

(** The supervisor: ten seconds to stop, logs of at most 10 MiB, tails of 64 KiB. *)
Definition main_supervisor (config : DaemonConfig) : D LocalProcessAdapter := λ w,
  match adapter_new (mkLogPolicy (dc_log_directory config) (10 * 1024 * 1024) (64 * 1024)) 10000 None None
          (lo_host (part (fx_outside (w_fx w)))) (fx_fs (w_fx w)) with
  | Ok (adapter, (fs, local)) =>
    (Ok adapter, set_part (fs, set_part local (fx_outside (w_fx w))) w)
  | Err e => (Err (DaemonSupervisor e), w)
  end.

Definition main_parts (config : DaemonConfig) : D DaemonParts :=
  supervisor ← main_supervisor config;
  state ← of_result (ok_or (InvalidConfig "state database has no parent") (parent (dc_state_database config)));
  let custody := mkCustody (join state "identities") 0 in
  agent_files ← dfiles (AgentFileStore_new (join state "agent-config"));
  let identity_store := join state "community-identities" in
  _ ← on (S := R) (M_map_err (λ _, Task (String.append "community join verifier: "
        (join_error_text (Unreachable "could not initialize relay client")))) build_client);
  mret (mkParts config supervisor
    (mkLifecycleWake COMMUNITY_IDENTITY_ROOT identity_store agent_files custody)
    (mkReconcileContext config custody agent_files)
    (mkPublicationContext COMMUNITY_IDENTITY_ROOT identity_store agent_files custody)
    (mkAutoJoinContext agent_files custody COMMUNITY_IDENTITY_ROOT)).

(** Up to the servers. [installed]: whether the TLS provider could be installed. The answer
    is [None] when only the configuration was to be checked. *)
Definition main_start (installed : bool) (arguments : list string) : D (option DaemonParts) :=
  if negb installed then throw (InvalidConfig "TLS crypto provider is already configured")
  else
  parsed ← of_result (parse_args_from arguments);
  config ← on (S := Fs) (DaemonConfig_load decode parsed.1);
  if (parsed.2 : bool) then mret None
  else
  _ ← startup_directories config;
  parts ← main_parts config;
  _ ← modify wake_publications;
  _ ← restore_work time temp_at (dp_reconcile parts);
  communities ← db_read list_communities;
  _ ← modify (λ w, fold_left (λ w c, announce_community (cc_id c) w) communities w);
  mret (Some parts).

(** ** What it leaves *)
(** Nothing of the store and of the worker's queue changes. *)
Definition only_beside (w w' : W) : Prop := w_db w' = w_db w ∧ fx_work (w_fx w') = fx_work (w_fx w).
#[local] Instance only_beside_preorder : PreOrder only_beside.
Proof. split; [done|]. intros a b c [? ?] [? ?]. split; congruence. Qed.
Lemma only_beside_calm (Q : W → W → Prop) `{!Calm Q} w w' : only_beside w w' → Q w w'.
Proof. intros [Hd Hf]. by apply calm_beside. Qed.
Lemma only_beside_on {S E A} `{Beside (R := R) S} (m : M S E A) : always only_beside (on (W := W) m).
Proof. intros w. split; [apply on_db|apply on_work]. Qed.
Lemma supervisor_beside config : always only_beside (main_supervisor config).
Proof. intros w. unfold main_supervisor. by destruct (adapter_new _ _ _ _ _ _) as [[adapter [fs local]]|e]. Qed.
Lemma directories_beside config : always only_beside (startup_directories (R := R) config).
Proof. unfold startup_directories, create_startup_directory. cbn [forM_]. always_steps; apply only_beside_on. Qed.
Lemma parts_beside config : always only_beside (main_parts config).
Proof. unfold main_parts, dfiles. always_steps; first [apply supervisor_beside|apply only_beside_on]. Qed.
Lemma announce_all_beside communities (w : W) :
  only_beside w (fold_left (λ w c, announce_community (cc_id c) w) communities w).
Proof.
  revert w. induction communities as [|c communities IH]; intros w; cbn; [reflexivity|].
  transitivity (announce_community (cc_id c) w); [done|apply IH].
Qed.
(** Starting keeps whatever handing work over and calm steps keep. *)
Lemma keeps_start_main (Q : W → W → Prop) `{!Calm Q} installed arguments :
  (∀ work, always Q (hand_to_worker (R := R) work)) → always Q (main_start installed arguments).
Proof.
  intros Hh. unfold main_start. destruct installed; cbn [negb]; [|apply (always_throw Q)].
  apply (always_bind Q); [apply (always_of_result Q)|intros parsed].
  apply (always_bind Q); [apply (calm_on Q)|intros config].
  destruct (parsed.2); [apply (always_ret Q)|].
  apply (always_bind Q); [intros w; apply (only_beside_calm Q), directories_beside|intros _].
  apply (always_bind Q); [intros w; apply (only_beside_calm Q), parts_beside|intros parts].
  apply (always_bind Q); [apply (calm_wake Q)|intros _].
  apply (always_bind Q); [by apply (keeps_restore _ _ _ Q)|intros _].
  apply (always_bind Q); [apply (always_gets Q)|intros communities].
  apply (always_bind Q); [intros w; apply (only_beside_calm Q), announce_all_beside|intros _; apply (always_ret Q)].
Qed.

Lemma main_parts_paths config w parts w' :
  main_parts config w = (Ok parts, w') →
  ∃ supervisor state, parent (dc_state_database config) = Some state
    ∧ parts = mkParts config supervisor
        (mkLifecycleWake COMMUNITY_IDENTITY_ROOT (join state "community-identities") (agent_files_of state) (custody_of state))
        (mkReconcileContext config (custody_of state) (agent_files_of state))
        (mkPublicationContext COMMUNITY_IDENTITY_ROOT (join state "community-identities") (agent_files_of state) (custody_of state))
        (mkAutoJoinContext (agent_files_of state) (custody_of state) COMMUNITY_IDENTITY_ROOT).
Proof.
  unfold main_parts. intros (supervisor & w1 & _ & Hr)%bind_ok.
  apply bind_ok in Hr as (state & w2 & E2 & Hr). injection E2 as E2 _.
  destruct (parent (dc_state_database config)) as [p|]; [|done]. injection E2 as ->.
  apply bind_ok in Hr as (files & w3 & E3 & Hr). assert (files = agent_files_of state) as ->.
  { unfold dfiles, on, M_map_err in E3. destruct (AgentFileStore_new _ _) as [[f|e] s] eqn:Ef; [|done].
    cbn in E3. injection E3 as <- _. unfold AgentFileStore_new in Ef.
    apply bind_ok in Ef as (? & ? & _ & Ef). apply bind_ok in Ef as (? & ? & _ & Ef). by injection Ef as <- _. }
  apply bind_ok in Hr as ([] & w4 & _ & Hr). injection Hr as <- _. by exists supervisor, state.
Qed.
Lemma load_validated path s config s' :
  DaemonConfig_load decode path s = (Ok config, s') → DaemonConfig_validate config = Ok tt.
Proof.
  unfold DaemonConfig_load. intros (node & s1 & _ & Hr)%bind_ok. destruct (_ >? _); [done|].
  apply bind_ok in Hr as (text & s2 & _ & Hr). apply bind_ok in Hr as (c & s3 & _ & Hr).
  apply bind_ok in Hr as ([] & s4 & E4 & Hr). injection Hr as <- _. by injection E4 as E4 _.
Qed.

(** A daemon that has started runs with a configuration that was accepted; the service and the
    workers use the same documents, keys and identities, all below the directory of the
    database but for the identities that are materialised; and the worker has been handed
    every operation that is not over, and then every agent, and nothing else. *)
Theorem daemon_is_put_together installed arguments (w w' : W) parts :
  main_start installed arguments w = (Ok (Some parts), w') →
  let config := dp_config parts in
  DaemonConfig_validate config = Ok tt
  ∧ (∃ state, state_parent config = Ok state
       ∧ dp_reconcile parts = mkReconcileContext config (custody_of state) (agent_files_of state)
       ∧ dp_wake parts = mkLifecycleWake COMMUNITY_IDENTITY_ROOT (join state "community-identities")
                           (agent_files_of state) (custody_of state)
       ∧ dp_publications parts = mkPublicationContext COMMUNITY_IDENTITY_ROOT (join state "community-identities")
                                   (agent_files_of state) (custody_of state)
       ∧ dp_auto_join parts = mkAutoJoinContext (agent_files_of state) (custody_of state) COMMUNITY_IDENTITY_ROOT)
  ∧ queues ((WorkOperation ∘ op_id <$> nonterminal_operations (w_db w))
            ++ (WorkStartupAgent ∘ spec_id <$> list_agents None (w_db w))) w w'.
Proof.
  unfold main_start. destruct installed; cbn [negb]; [|done]. intros (parsed & w1 & E1 & Hr)%bind_ok.
  injection E1 as _ <-. apply bind_ok in Hr as (config & w2 & E2 & Hr). destruct (parsed.2); [done|].
  apply bind_ok in Hr as ([] & w3 & E3 & Hr). apply bind_ok in Hr as (built & w4 & E4 & Hr).
  apply bind_ok in Hr as ([] & w5 & E5 & Hr). apply bind_ok in Hr as ([] & w6 & E6 & Hr).
  apply bind_ok in Hr as (communities & w7 & E7 & Hr). injection E7 as _ <-.
  apply bind_ok in Hr as ([] & w8 & E8 & Hr). injection Hr as -> <-. injection E8 as <-.
  pose proof (main_parts_paths _ _ _ _ E4) as (supervisor & state & Hst & ->). cbn [dp_config dp_reconcile dp_wake
    dp_publications dp_auto_join] in *. split_and!.
  - unfold on in E2. destruct (DaemonConfig_load _ _ _) as [[c|e] s] eqn:El; [|done]. injection E2 as <- _.
    by eapply load_validated.
  - exists state. split_and!; try done. unfold state_parent. by rewrite Hst.
  - assert (only_beside w w5) as [Hd Hf].
    { apply (always_run only_beside _ _ _ _ (only_beside_on _)) in E2.
      apply (always_run only_beside _ _ _ _ (directories_beside _)) in E3.
      apply (always_run only_beside _ _ _ _ (parts_beside _)) in E4. injection E5 as <-.
      etrans; [exact E2|]. etrans; [exact E3|]. etrans; [exact E4|]. done. }
    apply restore_queues in E6 as [Hs Ho]. destruct (announce_all_beside communities w6) as [Hd6 Hf6].
    rewrite Hd in Hs, Ho. rewrite Hf in Hs. split; [by rewrite Hf6|by rewrite Hd6].
Qed.

(** [--check-config] only reads: whatever comes of it, no file, no row and no message of the
    daemon changes, and nothing outside; and when it succeeds the file holds a configuration
    that passes its validation. *)
Theorem checking_changes_nothing installed arguments path (w w' : W) r :
  parse_args_from arguments = Ok (path, true) → main_start installed arguments w = (r, w') →
  w_db w' = w_db w ∧ fs_nodes (fx_fs (w_fx w')) = fs_nodes (fx_fs (w_fx w))
  ∧ fx_outside (w_fx w') = fx_outside (w_fx w) ∧ fx_work (w_fx w') = fx_work (w_fx w)
  ∧ fx_publications (w_fx w') = fx_publications (w_fx w) ∧ fx_auto_join (w_fx w') = fx_auto_join (w_fx w)
  ∧ match r with
    | Ok parts => parts = None ∧ ∃ n config, leads_to (fx_fs (w_fx w)) path n
        ∧ decode (n_data n) = Some config ∧ DaemonConfig_validate config = Ok tt
    | Err _ => True
    end.
Proof.
  intros Hp. unfold main_start. destruct installed; cbn [negb]; [|intros [= <- <-]; by split_and!].
  unfold mbind at 1, M_bind at 1, of_result. rewrite Hp. cbn [fst snd].
  unfold mbind at 1, M_bind at 1, on at 1. cbn [part world_fs].
  assert (always nodes_kept (DaemonConfig_load decode path)) as Hk.
  { unfold DaemonConfig_load. always_steps; apply (always_map_err nodes_kept); auto with buzz. }
  specialize (Hk (fx_fs (w_fx w))). destruct (DaemonConfig_load decode path _) as [[config|e] s] eqn:El;
    cbn [snd] in Hk; intros [= <- <-]; cbn; split_and!; try done.
  pose proof (load_validated _ _ _ _ El) as Hv. unfold DaemonConfig_load in El.
  apply bind_ok in El as (node & s1 & E1 & Hr). destruct (_ >? _); [done|].
  apply bind_ok in Hr as (text & s2 & E2 & Hr). apply bind_ok in Hr as (c & s3 & E3 & Hr). injection E3 as E3 <-.
  apply bind_ok in Hr as ([] & s4 & _ & Hr). injection Hr as -> _.
  destruct (decode text) as [c'|] eqn:Ed; [|done]. injection E3 as ->.
  apply M_map_err_ok, read_file_ok in E2 as (n & Hl & <- & _). exists n, config. split_and!; [|done|done].
  apply M_map_err_ok in E1. apply (leads_to_kept (fx_fs (w_fx w)) s1); [|done].
  by apply (always_run nodes_kept _ _ _ _ (kept_metadata _)) in E1.
Qed.
End Boot.
