(* ===== verification/System.v ===== *)
(** * The running daemon (main.rs, [main])
    Requests, the retention sweep, the reconciliation worker with its queue, the background
    threads, signals, crashes and restarts as steps of one system. A step is one request
    answered, one turn of the worker, one sweep, or one step in the background; a crash may
    come in the middle of any of them. No accepted operation is lost on any run, and the
    worker always catches up. *)
From Stdlib Require Import ZArith Lia String Ascii.
From stdpp Require Import base gmap list strings.
From S2P Require Import Prelude RustStr Ids Signer Lifecycle Agent Runtime Launch Auth ApiTypes Bytes.
From S2P Require Import Schema Storage StoreInv StoreProps Sha256 Monad Application AppProps AppCommands Api ApiProps.
From S2P Require Import Fs Reconcile Json AgentFiles Custody Transport Nostr RelayProjection CommunityJoin Daemon.
From S2P Require Import Receipts Wake Publications AgentTree LogCapture Process Supervisor Worker Startup Answers.
From S2P Require Import AutoJoin Background Boot.
#[local] Open Scope Z_scope.
#[local] Set Warnings "-notation-for-abbreviation".

(** The servers run; the worker has been told to stop; the worker has ended and requests that
    are still handled come to an end; the process has ended, by a signal or otherwise. *)
Inductive Phase : Type := Serving | Stopping | Draining | Down (clean : bool).

(** ** The worker's queue *)
Section Queue.
Context `{UuidLib} {R : Type}.
#[local] Notation W := (World (DaemonFx R)).
(** What the worker has not received yet, when it has received [taken] messages. *)
Definition waiting (w : W) (taken : nat) : list ReconcileWork := drop taken (ch_sent (fx_work (w_fx w))).
(** Every operation that is not over is among [works], or is that of a creation in [failed],
    or in [late]. *)
Definition held (works : list ReconcileWork) (failed late : gset OperationId) (db : Db) : Prop :=
  ∀ id op, t_operations db !! id = Some op → unfinished op →
    WorkOperation id ∈ works ∨ (id ∈ failed ∧ op_kind op = CreateAgent) ∨ id ∈ late.
Definition new_operations (w w' : W) : gset OperationId :=
  dom (t_operations (w_db w')) ∖ dom (t_operations (w_db w)).

Definition work_kept (w w' : W) : Prop := fx_work (w_fx w') = fx_work (w_fx w).
#[export] Instance work_kept_calm : Calm work_kept.
Proof. split; [split; [done|]|done|done]. intros a b c. unfold work_kept. congruence. Qed.
Lemma work_store {A} (f : Db → stored A) : always work_kept (store (F := DaemonFx R) f).
Proof. intros w. unfold store. by destruct (f (w_db w)) as [[]|]. Qed.
Lemma work_started time id : always work_kept (start_operation (F := DaemonFx R) time id).
Proof. unfold start_operation, audit_reconciliation. always_steps; first [apply work_store|by intros w]. Qed.
Lemma work_completed time id status code :
  always work_kept (complete_operation (F := DaemonFx R) time id status code).
Proof.
  unfold complete_operation, audit_reconciliation, existing_community. always_steps;
    first [apply work_store|by intros w].
Qed.

Definition stays_open (w w' : W) : Prop :=
  ch_open (fx_work (w_fx w)) = true → ch_open (fx_work (w_fx w')) = true.
#[export] Instance stays_open_calm : Calm stays_open.
Proof.
  unfold stays_open. split; [split; [by intros w|intros a b c; auto]| |by intros c w].
  intros w w' _ Hf. by rewrite Hf.
Qed.
Lemma hand_stays_open work : always stays_open (hand_to_worker (R := R) work).
Proof. intros w Ho. unfold hand_to_worker, send_work, channel_send. by rewrite Ho. Qed.

(** What evolves into something unfinished was unfinished. *)
Lemma evolved_unfinished op op' :
  op_evolves op op' → unfinished op' → unfinished op ∧ op_kind op' = op_kind op.
Proof.
  intros (_ & Hk & _ & _ & Hst & _) Hu. split; [|done]. unfold unfinished in *.
  destruct (OperationStatus_is_terminal (op_status op)) eqn:Et; [|done].
  by rewrite (terminal_reaches _ _ Et Hst), Et in Hu.
Qed.
Lemma held_new works failed late (w w' : W) :
  ops_evolve (λ _, False) (t_operations (w_db w)) (t_operations (w_db w')) → held works failed late (w_db w) →
  held works failed (late ∪ new_operations w w') (w_db w').
Proof.
  intros Hev Hh id op' Ho Hu. destruct (t_operations (w_db w) !! id) as [op|] eqn:E.
  - destruct (Hev id op E) as [[]|(o & Hoo & He)]. rewrite Ho in Hoo. injection Hoo as <-.
    destruct (evolved_unfinished _ _ He Hu) as [Hu0 Hk].
    destruct (Hh id op E Hu0) as [?|[[? ?]|?]]; [by left|right; left; split; [done|congruence]|right; right; set_solver].
  - right. right. apply elem_of_union_r. unfold new_operations.
    rewrite elem_of_difference, elem_of_dom, not_elem_of_dom. split; [by eexists|done].
Qed.
Lemma held_more works works' failed failed' late db :
  (∀ x, x ∈ works → x ∈ works') → failed ⊆ failed' → held works failed late db → held works' failed' late db.
Proof.
  intros Hw Hf Hh id op Ho Hu. destruct (Hh id op Ho Hu) as [?|[[? ?]|?]]; [by left; apply Hw|right; left|by right; right].
  split; [by apply Hf|done].
Qed.

(** The queue grows by what is handed over. *)
Lemma waiting_grows except (w w' : W) taken :
  announced except w w' → ch_open (fx_work (w_fx w)) = true → (taken ≤ length (ch_sent (fx_work (w_fx w))))%nat →
  ch_open (fx_work (w_fx w')) = true ∧ (taken ≤ length (ch_sent (fx_work (w_fx w'))))%nat
  ∧ ∃ more, waiting w' taken = waiting w taken ++ more ∧ (WorkShutdown ∉ more)
    ∧ ∀ id op', t_operations (w_db w') !! id = Some op' → unfinished op' →
        except (op_kind op') ∨ WorkOperation id ∈ more
        ∨ ∃ op, t_operations (w_db w) !! id = Some op ∧ unfinished op ∧ op_kind op = op_kind op'.
Proof.
  intros Ha Ho Hle. destruct (Ha Ho) as (Ho' & more & Hs & Hn & Hw). split; [done|].
  rewrite Hs, length_app. split; [lia|]. exists more. unfold waiting. by rewrite Hs, drop_app_le.
Qed.
(** New operations are handed over; those of creations may be remembered as failed instead. *)
Lemma held_handed works more failed late (w w' : W) :
  held works failed late (w_db w) →
  (∀ id op', t_operations (w_db w') !! id = Some op' → unfinished op' →
     False ∨ WorkOperation id ∈ more
     ∨ ∃ op, t_operations (w_db w) !! id = Some op ∧ unfinished op ∧ op_kind op = op_kind op') →
  held (works ++ more) failed late (w_db w').
Proof.
  intros Hh Hw id op' Ho Hu. rewrite elem_of_app.
  destruct (Hw id op' Ho Hu) as [[]|[?|(op & Hop & Huo & Hk)]]; [by left; right|].
  destruct (Hh id op Hop Huo) as [?|[[? ?]|?]]; [by left; left|right; left|by right; right]. split; [done|congruence].
Qed.
Lemma held_failed works more failed late (w w' : W) :
  held works failed late (w_db w) →
  ops_evolve (λ _, False) (t_operations (w_db w)) (t_operations (w_db w')) →
  (∀ id op', t_operations (w_db w') !! id = Some op' → unfinished op' →
     op_kind op' = CreateAgent ∨ WorkOperation id ∈ more
     ∨ ∃ op, t_operations (w_db w) !! id = Some op ∧ unfinished op ∧ op_kind op = op_kind op') →
  held (works ++ more) (failed ∪ new_operations w w') late (w_db w').
Proof.
  intros Hh Hev Hw id op' Ho Hu. rewrite elem_of_app.
  destruct (held_new _ _ _ w w' Hev Hh id op' Ho Hu) as [?|[[? ?]|[?|Hnew]%elem_of_union]];
    [by left; left|right; left; split; [set_solver|done]|by right; right|].
  destruct (Hw id op' Ho Hu) as [?|[?|(op & Hop & _)]];
    [right; left; split; [set_solver|done]|by left; right|].
  unfold new_operations in Hnew. apply elem_of_difference in Hnew as [_ Hnew]. destruct Hnew.
  apply elem_of_dom. by eexists.
Qed.
End Queue.

(** ** The system *)
Section System.
Context `{UuidLib} `{NostrLib} `{SignerKeys} `{BuzzKinds} `{DocumentJson} `{ReceiptJson}.
Context {R : Type} `{Outside R} `{Keyring R} `{LocalSupervisor R} `{!Has LocalState R}.
Variable signer_keys : SecretKey → Keys.
Variables (time millis : nat → Z) (uuid_at : nat → Z) (temp_at : nat → string).
Variable generated : nat → SecretKey.
Variable var : string → option string.
Variable decode_config : string → option DaemonConfig.
Variable hash_order : gset CommunityConfigId → list CommunityConfigId.
Variable info_of_json : string → option (list Z).
Variable serde_json_to_vec : HashedRequest → option string.
Variable sha256_hex : string → string.
Variable decode : string → option LifecycleRouteRequest.
#[local] Notation W := (World (DaemonFx R)).
(** The service and the worker of a process, with what [main] built for them. *)
#[local] Notation effects parts := (daemon_effects (R := R) time uuid_at temp_at hash_order info_of_json (dp_wake parts)).
#[local] Notation retention parts := (la_retention_seconds (dc_lifecycle_api (dp_config parts))).
#[local] Notation service parts := (sqlite_application (H0 := effects parts) time uuid_at serde_json_to_vec sha256_hex
  (retention parts) read_operation).
#[local] Notation sweep parts := (enqueue_expired_purges (H0 := effects parts) time uuid_at serde_json_to_vec sha256_hex
  (retention parts)).
#[local] Notation turn parts := (worker_turn (R := R) signer_keys time millis uuid_at temp_at generated var
  (dp_reconcile parts)).
#[local] Notation start := (main_start (R := R) time temp_at decode_config).

(** Since the last start: [d_failed], the operations recorded by requests that were answered
    with an error, and [d_late], by requests that were handled after the signal to stop. *)
Record RunningDaemon : Type := mkRunning {
  d_phase : Phase; d_parts : DaemonParts; d_world : W; d_taken : nat; d_failed : gset OperationId; d_late : gset OperationId
}.
(** The receiver is gone. *)
Definition worker_gone (w : W) : W :=
  set_fx (λ f, mkDaemonFx (fx_fs f) (fx_outside f) (mkChannel false (ch_sent (fx_work f))) (fx_publications f)
                 (fx_auto_join f)) w.
(** A new process: the store as it was, nothing in the channels. *)
Definition booted (w : W) (fs : Fs) (outside : R) : W :=
  mkWorld (w_db w) (mkDaemonFx fs outside (mkChannel true []) (mkChannel true []) (mkChannel true []))
    0 (w_clock w) (w_draws w).
(** Whether the worker runs. *)
Definition working (p : Phase) : bool := match p with Serving | Stopping => true | Draining | Down _ => false end.

Inductive daemon_step : RunningDaemon → RunningDaemon → Prop :=
| step_request parts fresh actor bytes w status response w' taken failed late :
    handle (H := service parts) decode fresh actor bytes w = (status, response, w') →
    daemon_step (mkRunning Serving parts w taken failed late)
      (mkRunning Serving parts w' taken
         (match response with WireOk _ => failed | WireError _ => failed ∪ new_operations w w' end) late)
| step_late_request parts phase fresh actor bytes w status response w' taken failed late :
    phase = Stopping ∨ phase = Draining →
    handle (H := service parts) decode fresh actor bytes w = (status, response, w') →
    daemon_step (mkRunning phase parts w taken failed late)
      (mkRunning phase parts w' taken failed (late ∪ new_operations w w'))
| step_sweep parts w r w' taken failed late :
    sweep parts w = (r, w') →
    daemon_step (mkRunning Serving parts w taken failed late) (mkRunning Serving parts w' taken failed late)
| step_work parts phase work w w' taken failed late :
    working phase = true → head (waiting w taken) = Some work → turn parts (ReceivedWork work) w = Some w' →
    daemon_step (mkRunning phase parts w taken failed late) (mkRunning phase parts w' (S taken) failed late)
| step_idle parts phase w w' taken failed late :
    working phase = true → waiting w taken = [] → turn parts TimedOut w = Some w' →
    daemon_step (mkRunning phase parts w taken failed late) (mkRunning phase parts w' taken failed late)
| step_background parts phase w w' taken failed late :
    background w w' → daemon_step (mkRunning phase parts w taken failed late) (mkRunning phase parts w' taken failed late)
| step_signal parts w taken failed late joined joined' :
    daemon_step (mkRunning Serving parts w taken failed late)
      (mkRunning Stopping parts (finish_main (R := R) Signalled joined joined' w).2 taken failed late)
| step_stopped parts w taken failed late :
    head (waiting w taken) = Some WorkShutdown → turn parts (ReceivedWork WorkShutdown) w = None →
    daemon_step (mkRunning Stopping parts w taken failed late) (mkRunning Draining parts (worker_gone w) taken failed late)
| step_exit parts w taken failed late :
    daemon_step (mkRunning Draining parts w taken failed late) (mkRunning (Down true) parts w taken failed late)
| step_crash parts phase w w' cs taken failed late :
    (∀ id, CallDeleteOperation id ∉ cs) → w_db w' = run_calls cs (w_db w) →
    daemon_step (mkRunning phase parts w taken failed late) (mkRunning (Down false) parts w' taken failed late)
| step_restart clean parts parts' installed arguments w fs outside w' taken failed late :
    start installed arguments (booted w fs outside) = (Ok (Some parts'), w') →
    daemon_step (mkRunning (Down clean) parts w taken failed late) (mkRunning Serving parts' w' 0 ∅ ∅)
| step_no_restart clean parts installed arguments w fs outside r w' taken failed late :
    start installed arguments (booted w fs outside) = (r, w') →
    daemon_step (mkRunning (Down clean) parts w taken failed late) (mkRunning (Down false) parts w' taken failed late).

(** ** The store across all of it *)
Lemma hand_by_calls work : always by_calls (hand_to_worker (R := R) work).
Proof.
  intros w. apply by_calls_same. unfold hand_to_worker, send_work.
  by destruct (channel_send work (fx_work (w_fx w))) as [[] c].
Qed.
Lemma turn_by_calls parts received w w' : turn parts received w = Some w' → by_calls w w'.
Proof.
  apply (keeps_turn _ _ _ _ _ _ _ _ by_calls).
  - intros id. apply safe_start_operation.
  - intros id status code. apply safe_complete_operation.
Qed.
Lemma turn_work parts received w w' : turn parts received w = Some w' → work_kept w w'.
Proof.
  apply (keeps_turn _ _ _ _ _ _ _ _ work_kept).
  - exact (work_started time).
  - exact (work_completed time).
Qed.
Lemma finish_main_signalled joined joined' (w : W) :
  (finish_main (R := R) Signalled joined joined' w).2 = stop_publications (send_work WorkShutdown w).2.
Proof. by destruct joined, joined'. Qed.
Lemma start_by_calls installed arguments (w : W) fs outside :
  by_calls w (start installed arguments (booted w fs outside)).2.
Proof.
  transitivity (booted w fs outside); [by apply by_calls_same|].
  apply (keeps_start_main _ _ _ by_calls), hand_by_calls.
Qed.

Lemma step_by_calls s s' : daemon_step s s' → by_calls (d_world s) (d_world s').
Proof.
  destruct 1 as [parts ?????????? Hh|parts ??????????? _ Hh|parts ?????? Hs|parts ??????? _ _ Ht|parts ?????? _ _ Ht
    |parts ?????? Hb|parts w ?????|parts ????? _|parts|parts ????? ?? Hn Hd|???????????? Hr|???????????? Hr]; cbn [d_world].
  - by apply answered_requests_are_handed_over in Hh as [? _].
  - by apply answered_requests_are_handed_over in Hh as [? _].
  - eapply (always_run by_calls); [|exact Hs]. apply (keep_sweep by_calls). intros. apply safe_execute, wake_safe.
  - by eapply turn_by_calls.
  - by eapply turn_by_calls.
  - by apply (background_least by_calls).
  - apply by_calls_same. rewrite finish_main_signalled. unfold send_work.
    by destruct (channel_send WorkShutdown (fx_work (w_fx w))) as [[] c].
  - by apply by_calls_same.
  - reflexivity.
  - by exists cs.
  - pose proof (start_by_calls installed arguments w fs outside) as Hc. by rewrite Hr in Hc.
  - pose proof (start_by_calls installed arguments w fs outside) as Hc. by rewrite Hr in Hc.
Qed.

(** ** The invariant *)
Definition queue_open (w : W) (taken : nat) : Prop :=
  ch_open (fx_work (w_fx w)) = true ∧ (taken ≤ length (ch_sent (fx_work (w_fx w))))%nat.
Definition daemon_ok (s : RunningDaemon) : Prop :=
  let '(mkRunning phase parts w taken failed late) := s in
  db_ok (w_db w)
  ∧ match phase with
    | Serving => queue_open w taken ∧ (WorkShutdown ∉ waiting w taken) ∧ late = ∅
                 ∧ held (waiting w taken) failed late (w_db w)
    | Stopping => queue_open w taken
                  ∧ ∃ works rest, waiting w taken = works ++ WorkShutdown :: rest ∧ (WorkShutdown ∉ works)
                      ∧ held works failed late (w_db w)
    | Draining | Down true => held [] failed late (w_db w)
    | Down false => True
    end.

(** Steps that leave operations and queue alone. *)
Lemma queue_kept_ok parts phase w w' taken failed late :
  queue_kept w w' → db_ok (w_db w') →
  daemon_ok (mkRunning phase parts w taken failed late) → daemon_ok (mkRunning phase parts w' taken failed late).
Proof.
  intros [Hf Ho] Hdb [_ Hs]. split; [done|]. unfold queue_open, waiting, held in *. by rewrite Hf, Ho.
Qed.
(** A turn of the worker on one operation ends it and no other operation begins to wait. *)
Lemma contained_held parts id works failed late (w : W) :
  db_ok (w_db w) → held (WorkOperation id :: works) failed late (w_db w) →
  held works failed late (w_db (reconcile_operation_contained signer_keys time millis uuid_at temp_at generated var
                             (dp_reconcile parts) id w)).
Proof.
  intros Hdb Hh. set (w' := reconcile_operation_contained _ _ _ _ _ _ _ _ id w).
  assert (by_calls w w') as Hc by (by apply (turn_by_calls parts (ReceivedWork (WorkOperation id)))).
  destruct (by_calls_sound w w' Hc Hdb) as (_ & Hev & _).
  assert (∀ id' op', t_operations (w_db w') !! id' = Some op' → unfinished op' →
    id' ≠ id ∧ op_status <$> t_operations (w_db w) !! id' = Some (op_status op')) as Hback.
  { intros id' op' Ho' Hu. destruct (t_operations (w_db w) !! id) as [op|] eqn:E.
    - destruct (contained_ends signer_keys time millis uuid_at temp_at generated var (dp_reconcile parts) id op w E)
        as [[(o & Hoo & Ht) Hoth] _].
      { by apply (dbok_operations _ Hdb id op). }
      destruct (decide (id' = id)) as [->|Hne].
      { fold w' in Hoo. rewrite Ho' in Hoo. injection Hoo as <-. unfold unfinished in Hu. congruence. }
      split; [done|]. rewrite <- (Hoth id' Hne). fold w'. by rewrite Ho'.
    - pose proof (contained_missing signer_keys time millis uuid_at temp_at generated var (dp_reconcile parts) id w E) as Hk.
      fold w' in Hk. unfold ops_kept in Hk. rewrite Hk in Ho'. split; [congruence|]. by rewrite Ho'. }
  intros id' op' Ho' Hu. destruct (Hback id' op' Ho' Hu) as [Hne Hst].
  destruct (t_operations (w_db w) !! id') as [op|] eqn:E; [|done]. injection Hst as Hst.
  destruct (Hev id' op E) as [[]|(o & Hoo & _ & Hk & _)]. rewrite Ho' in Hoo. injection Hoo as <-.
  destruct (Hh id' op E) as [[[= ->]|?]%elem_of_cons|[[? ?]|?]];
    [by unfold unfinished in *; rewrite Hst|done|by left|right; left|by right; right].
  split; [done|congruence].
Qed.
Lemma waiting_head (w : W) taken work :
  head (waiting w taken) = Some work →
  waiting w taken = work :: waiting w (S taken) ∧ (S taken ≤ length (ch_sent (fx_work (w_fx w))))%nat.
Proof.
  unfold waiting. intros Hh. destruct (drop taken (ch_sent (fx_work (w_fx w)))) as [|x l] eqn:E; [done|].
  injection Hh as ->. replace (S taken) with (taken + 1)%nat by lia. rewrite <- drop_drop, E. split; [done|].
  apply (f_equal length) in E. rewrite length_drop in E. cbn in E. lia.
Qed.
Lemma turn_held parts work works failed late (w w' : W) :
  db_ok (w_db w) → turn parts (ReceivedWork work) w = Some w' → held (work :: works) failed late (w_db w) →
  held works failed late (w_db w').
Proof.
  intros Hdb Ht Hh.
  destruct work as [id|id|]; cbn [worker_turn] in Ht; [injection Ht as <-|injection Ht as <-|done].
  - by apply contained_held.
  - destruct (calm_startup signer_keys time millis uuid_at temp_at generated var (dp_reconcile parts) queue_kept id w) as [_ Ho].
    unfold ignore. intros i op. rewrite Ho. intros Hop Hu.
    by destruct (Hh i op Hop Hu) as [[|]%elem_of_cons|]; [|by left|by right].
Qed.

Lemma request_ok parts fresh actor bytes w status response w' taken failed late :
  handle (H := service parts) decode fresh actor bytes w = (status, response, w') →
  daemon_ok (mkRunning Serving parts w taken failed late) →
  daemon_ok (mkRunning Serving parts w' taken
    (match response with WireOk _ => failed | WireError _ => failed ∪ new_operations w w' end) late).
Proof.
  intros [Hc Ha]%answered_requests_are_handed_over (Hdb & [Ho Hle] & Hn & Hl & Hh).
  destruct (by_calls_sound w w' Hc Hdb) as (Hdb' & Hev & _). split; [done|].
  destruct response; destruct (waiting_grows _ w w' taken Ha Ho Hle) as (Ho' & Hle' & more & Hw & Hm & Hnew);
    (split; [done|]; rewrite Hw; split; [rewrite elem_of_app; tauto|]; split; [done|]).
  - by apply held_handed with (w := w).
  - by apply held_failed with (w := w).
Qed.
Lemma late_request_ok parts phase fresh actor bytes w status response w' taken failed late :
  phase = Stopping ∨ phase = Draining →
  handle (H := service parts) decode fresh actor bytes w = (status, response, w') →
  daemon_ok (mkRunning phase parts w taken failed late) →
  daemon_ok (mkRunning phase parts w' taken failed (late ∪ new_operations w w')).
Proof.
  intros Hp [Hc Ha]%answered_requests_are_handed_over [Hdb Hs].
  destruct (by_calls_sound w w' Hc Hdb) as (Hdb' & Hev & _). split; [done|].
  destruct Hp as [->| ->]; [|by apply held_new].
  destruct Hs as ([Ho Hle] & works & rest & Hw & Hn & Hh).
  destruct response; destruct (waiting_grows _ w w' taken Ha Ho Hle) as (Ho' & Hle' & more & Hw' & _);
    (split; [done|]; exists works, (rest ++ more); rewrite Hw', Hw, <- app_assoc; split_and!; [done|done|by apply held_new]).
Qed.
Lemma sweep_ok parts w r w' taken failed late :
  sweep parts w = (r, w') → daemon_ok (mkRunning Serving parts w taken failed late) →
  db_ok (w_db w') → daemon_ok (mkRunning Serving parts w' taken failed late).
Proof.
  intros Hs (Hdb & [Ho Hle] & Hn & Hl & Hh) Hdb'. split; [done|].
  pose proof (always_run _ _ _ _ _ (sweep_announces time uuid_at temp_at hash_order info_of_json (dp_wake parts)
    serde_json_to_vec sha256_hex (retention parts)) Hs) as Ha.
  destruct (waiting_grows _ w w' taken Ha Ho Hle) as (Ho' & Hle' & more & Hw & Hm & Hnew).
  split; [done|]. rewrite Hw. split; [rewrite elem_of_app; tauto|]. split; [done|]. by apply held_handed with (w := w).
Qed.
Lemma work_ok parts phase work w w' taken failed late :
  working phase = true → head (waiting w taken) = Some work → turn parts (ReceivedWork work) w = Some w' →
  daemon_ok (mkRunning phase parts w taken failed late) → db_ok (w_db w') →
  daemon_ok (mkRunning phase parts w' (S taken) failed late).
Proof.
  intros Hup Hw Ht [Hdb Hs] Hdb'. apply waiting_head in Hw as [Hw Hle]. split; [done|].
  assert (work_kept w w') as Hk by by eapply turn_work.
  assert (∀ n, waiting w' n = waiting w n) as Hsame by (intros n; unfold waiting; by rewrite Hk).
  destruct phase as [| | |c]; [| |done|done].
  - destruct Hs as ([Ho _] & Hn & Hl & Hh). rewrite Hw in Hn, Hh. apply (turn_held parts _ _ _ _ _ w') in Hh; [|done|done].
    split; [unfold queue_open; by rewrite Hk|]. rewrite Hsame. split; [|done]. intros Hin. by apply Hn, elem_of_cons; right.
  - destruct Hs as ([Ho _] & works & rest & Hws & Hn & Hh). rewrite Hw in Hws. destruct works as [|x works].
    { injection Hws as -> _. by cbn in Ht. }
    injection Hws as <- Hws. apply (turn_held parts _ _ _ _ _ w') in Hh; [|done|done].
    split; [unfold queue_open; by rewrite Hk|]. exists works, rest. rewrite Hsame. split_and!; [done| |done].
    intros Hin. by apply Hn, elem_of_cons; right.
Qed.
Lemma signal_ok parts w taken failed late joined joined' :
  daemon_ok (mkRunning Serving parts w taken failed late) →
  daemon_ok (mkRunning Stopping parts (finish_main (R := R) Signalled joined joined' w).2 taken failed late).
Proof.
  intros (Hdb & [Ho Hle] & Hn & Hl & Hh). rewrite finish_main_signalled.
  unfold daemon_ok, queue_open, waiting, send_work, channel_send. rewrite Ho. cbn.
  split; [done|]. rewrite length_app, drop_app_le by done. split; [split; [done|lia]|].
  by exists (waiting w taken), [].
Qed.
Lemma stopped_ok parts w taken failed late :
  head (waiting w taken) = Some WorkShutdown →
  daemon_ok (mkRunning Stopping parts w taken failed late) → daemon_ok (mkRunning Draining parts (worker_gone w) taken failed late).
Proof.
  intros Hw (Hdb & _ & works & rest & Hws & Hn & Hh). split; [done|]. rewrite Hws in Hw.
  destruct works as [|x works]; [done|]. injection Hw as ->. destruct Hn. left.
Qed.
Lemma restart_ok clean parts parts' installed arguments w fs outside w' taken failed late :
  start installed arguments (booted w fs outside) = (Ok (Some parts'), w') →
  daemon_ok (mkRunning (Down clean) parts w taken failed late) → db_ok (w_db w') →
  daemon_ok (mkRunning Serving parts' w' 0 ∅ ∅).
Proof.
  intros Hr (Hdb & _) Hdb'. assert (ch_open (fx_work (w_fx w')) = true) as Ho.
  { eapply (always_run stays_open); [|exact Hr|done]. apply (keeps_start_main _ _ _ stays_open), hand_stays_open. }
  apply daemon_is_put_together in Hr as (_ & _ & Hs & Hops). cbn in Hs, Hops.
  split; [done|]. split; [split; [done|lia]|]. unfold waiting. rewrite Hs, drop_0. split_and!; [|done|].
  - rewrite elem_of_app, !list_elem_of_fmap. by intros [(? & ? & _)|(? & ? & _)].
  - intros id op Hop Hu. left. rewrite Hops in Hop. apply elem_of_app. left. apply list_elem_of_fmap.
    exists op. split; [|by eapply nonterminal_listed]. cbn. f_equal. symmetry.
    by apply (dbok_operations _ Hdb id op).
Qed.

Lemma step_ok s s' : daemon_step s s' → daemon_ok s → daemon_ok s'.
Proof.
  intros Hstep Hs. assert (db_ok (w_db (d_world s'))) as Hdb.
  { apply step_by_calls in Hstep. apply (by_calls_sound _ _ Hstep). destruct s. apply Hs. }
  destruct Hstep as [parts ?????????? Hh|parts ??????????? Hp Hh|parts ?????? Hw|parts ??????? Hup Hw Ht|parts ?????? _ _ Ht
    |parts ?????? Hb|parts w ?????|parts ???? Hw _|parts|parts ??????? _ _|???????????? Hr|???????????? Hr]; cbn [d_world] in Hdb.
  - by eapply request_ok.
  - by eapply late_request_ok.
  - by eapply sweep_ok.
  - by eapply work_ok.
  - apply (queue_kept_ok _ _ w); [|done|done]. injection Ht as <-.
    transitivity (ignore (observe_dynamic_agents time millis (dp_reconcile parts)) w);
      [exact (calm_observation time millis (dp_reconcile parts) queue_kept w)|exact (calm_cleanup (dp_reconcile parts) queue_kept _)].
  - apply (queue_kept_ok _ _ w); [|done|done]. exact (background_least queue_kept _ _ Hb).
  - by apply signal_ok.
  - by apply stopped_ok.
  - exact Hs.
  - by split.
  - by eapply restart_ok.
  - by split.
Qed.
Lemma steps_ok s s' : rtc daemon_step s s' → daemon_ok s → daemon_ok s' ∧ by_calls (d_world s) (d_world s').
Proof.
  induction 1 as [|s1 s2 s3 Hs _ IH]; [done|]. intros Hok. destruct (IH (step_ok _ _ Hs Hok)) as [? ?].
  split; [done|]. etrans; [by apply step_by_calls|done].
Qed.

(** C4: No accepted work is lost. Start the daemon on any consistent database, and let it run:
    requests of any callers, sweeps, the worker, the background threads and changes of the
    environment in any order, signals, requests that are still handled after them, crashes in
    the middle of anything, restarts that succeed or fail. At any point the database is
    consistent, no operation, key, audit record or tombstone was lost, and while the daemon
    serves every operation that is not over is in the worker's queue, or is that of a creation
    which was answered with an error. After a stop by a signal, all operations are over but
    those and the ones that came after the signal. *)
Theorem no_accepted_work_is_lost (w : W) (parts : DaemonParts) (s : RunningDaemon) :
  db_ok (w_db w) → rtc daemon_step (mkRunning (Down false) parts w 0 ∅ ∅) s →
  daemon_ok s
  ∧ ops_evolve (λ _, False) (t_operations (w_db w)) (t_operations (w_db (d_world s)))
  ∧ keys_kept (λ _, False) (t_idempotency (w_db w)) (t_idempotency (w_db (d_world s)))
  ∧ t_audit (w_db w) `prefix_of` t_audit (w_db (d_world s))
  ∧ t_tombstones (w_db w) ⊆ t_tombstones (w_db (d_world s)).
Proof.
  intros Hdb Hr. destruct (steps_ok _ _ Hr) as [Hok Hc]; [by split|].
  destruct (by_calls_sound _ _ Hc Hdb) as (_ & ? & ? & ? & ?). by split_and!.
Qed.

(** ** Catching up *)
#[local] Notation loop parts := (worker_loop (R := R) signer_keys time millis uuid_at temp_at generated var
  (dp_reconcile parts)).
Lemma worker_takes parts works rest phase w taken failed late :
  working phase = true → waiting w taken = works ++ rest → WorkShutdown ∉ works →
  ∃ w', rtc daemon_step (mkRunning phase parts w taken failed late) (mkRunning phase parts w' (taken + length works) failed late)
    ∧ loop parts (ReceivedWork <$> works) w = w' ∧ waiting w' (taken + length works) = rest.
Proof.
  intros Hup. revert w taken. induction works as [|work works IH]; intros w taken Hw Hn.
  { exists w. rewrite Nat.add_0_r. by split_and!. }
  apply not_elem_of_cons in Hn as [Hne Hn].
  assert (head (waiting w taken) = Some work) as Hhead by by rewrite Hw.
  destruct (waiting_head _ _ _ Hhead) as [Hw1 _]. rewrite Hw in Hw1. injection Hw1 as Hw1.
  destruct (turn parts (ReceivedWork work) w) as [w1|] eqn:Et; [|by destruct work].
  assert (waiting w1 (S taken) = works ++ rest) as Hw2.
  { unfold waiting. rewrite (turn_work _ _ _ _ Et). by rewrite Hw1. }
  destruct (IH w1 (S taken) Hw2 Hn) as (w' & Hsteps & Hloop & Hwait).
  exists w'. cbn [length]. rewrite Nat.add_succ_r. split_and!; [|by cbn [fmap list_fmap worker_loop]; rewrite Et|done].
  eapply rtc_l; [by eapply step_work|done].
Qed.
(** C5: The worker always catches up. From any state that a daemon reaches while it serves, the
    turns that receive what is in the queue, with nothing else happening, are steps of the
    daemon, and after them every operation is over, but for those of creations that were
    answered with an error since the last start. In particular every operation ends after a
    crash and a restart. *)
Theorem the_worker_catches_up (w w1 : W) (parts0 parts : DaemonParts) (taken : nat) (failed late : gset OperationId) :
  db_ok (w_db w) → rtc daemon_step (mkRunning (Down false) parts0 w 0 ∅ ∅) (mkRunning Serving parts w1 taken failed late) →
  let w2 := loop parts (ReceivedWork <$> waiting w1 taken) w1 in
  let taken' := length (ch_sent (fx_work (w_fx w1))) in
  rtc daemon_step (mkRunning Serving parts w1 taken failed late) (mkRunning Serving parts w2 taken' failed late)
  ∧ waiting w2 taken' = []
  ∧ ∀ id op, t_operations (w_db w2) !! id = Some op →
      OperationStatus_is_terminal (op_status op) = true ∨ (id ∈ failed ∧ op_kind op = CreateAgent).
Proof.
  intros Hdb Hr w2 taken'. destruct (steps_ok _ _ Hr) as [Hok _]; [by split|].
  assert (taken + length (waiting w1 taken) = taken')%nat as Ht.
  { destruct Hok as (_ & [_ Hle] & _). unfold waiting, taken'. rewrite length_drop. lia. }
  destruct (worker_takes parts (waiting w1 taken) [] Serving w1 taken failed late) as (w' & Hsteps & Hloop & Hwait);
    [done|by rewrite app_nil_r|apply Hok|]. fold w2 in Hloop. subst w'. rewrite Ht in Hsteps, Hwait.
  split_and!; [done|done|]. intros id op Ho.
  destruct (steps_ok _ _ Hsteps Hok) as [(_ & _ & _ & -> & Hh) _]. rewrite Hwait in Hh.
  destruct (OperationStatus_is_terminal (op_status op)) eqn:Et; [by left|right].
  by destruct (Hh id op Ho Et) as [?%not_elem_of_nil|[?|?%not_elem_of_empty]].
Qed.
(** A daemon that was told to stop reaches its end, with everything done that was handed over
    before. *)
Theorem stopping_ends (w w1 : W) (parts0 parts : DaemonParts) (taken : nat) (failed late : gset OperationId) :
  db_ok (w_db w) → rtc daemon_step (mkRunning (Down false) parts0 w 0 ∅ ∅) (mkRunning Stopping parts w1 taken failed late) →
  ∃ w2 taken', rtc daemon_step (mkRunning Stopping parts w1 taken failed late) (mkRunning (Down true) parts w2 taken' failed late)
  ∧ ∀ id op, t_operations (w_db w2) !! id = Some op →
      OperationStatus_is_terminal (op_status op) = true ∨ (id ∈ failed ∧ op_kind op = CreateAgent) ∨ id ∈ late.
Proof.
  intros Hdb Hr. destruct (steps_ok _ _ Hr) as [Hok _]; [by split|].
  destruct Hok as (Hdb1 & Hq & works & rest & Hw & Hn & Hh).
  destruct (worker_takes parts works (WorkShutdown :: rest) Stopping w1 taken failed late) as (w' & Hsteps & _ & Hwait);
    [done|done|done|]. eexists (worker_gone w'), _.
  assert (rtc daemon_step (mkRunning Stopping parts w1 taken failed late)
    (mkRunning (Down true) parts (worker_gone w') (taken + length works) failed late)) as Hall.
  { etrans; [exact Hsteps|]. eapply rtc_l; [by apply step_stopped; [rewrite Hwait|]|]. apply rtc_once, step_exit. }
  split; [exact Hall|]. intros id op Ho.
  destruct (steps_ok _ _ Hall) as [[_ Hlast] _]; [split; [done|]; split; [done|]; by exists works, rest|].
  destruct (OperationStatus_is_terminal (op_status op)) eqn:Et; [by left|right].
  by destruct (Hlast id op Ho Et) as [?%not_elem_of_nil|?].
Qed.
End System.

(** ** An example: an operation that waited when the daemon was down *)
#[local] Existing Instances sample_keys sample_nostr.
#[local] Instance system_kinds : BuzzKinds := {| KIND_MANAGED_AGENT := 30177; KIND_PERSONA := 30175 |}.
#[local] Instance system_documents : DocumentJson := {|
  agent_to_json _ := "{}"; agent_of_json _ := None; persona_to_json _ := "{}"; persona_of_json _ := None
|}.
#[local] Instance system_receipts : ReceiptJson := {|
  receipt_to_json _ := "{}"; receipt_of_json _ := None; revision_to_json _ _ := "{}"
|}.
#[local] Instance system_signer : SignerKeys := {
  Keys := string; PublicKey := string; public_key := String.append "public-"; to_hex := id;
  PublicKey_from_str := Some;
  compute_auth_tag owner agent conditions := Some (String.append owner (String.append ">" agent))
}.
#[local] Instance system_outside : Outside LocalState := {|
  build_client := mret tt;
  send_request := λ _, mret (mkHttpResponse 200 (Ok "{}"));
  draw_uuid := λ w, ("nonce", w); timestamp := λ w, (7, w)
|}.
#[local] Instance system_keyring : Keyring LocalState := {| delete_credential _ := throw NoEntry |}.
#[local] Instance system_supervisor : LocalSupervisor LocalState := {|
  set_agent_identity _ _ := mret tt; local_start _ _ := throw SecretResolution;
  local_inspect r := mret r; local_stop r := mret r; log_tail _ _ := mret EmptyString
|}.
#[local] Instance system_local : Has LocalState LocalState := {| part w := w; set_part l _ := l |}.
Definition system_signer_keys : @SecretKey sample_keys → @Keys system_signer := λ k, k.
Definition waiting_operation : DurableOperation :=
  mkDurableOperation (mkOperationId 5) EnableAgent Pending None None 1 1 "corr".
Definition config_file : Path := path_of_string "/etc/buzz-server.json".
Definition system_fs : Fs := mkFs {[ config_file := mkNode RegularFile 420 0 "{}" ]} [] 0.
Definition system_machine : LocalState := mkLocalState (mkHost ∅ 0 0 []) ∅ ∅ 0 [].
Definition system_world : World (DaemonFx LocalState) :=
  mkWorld (run_calls [CallCreateOperation waiting_operation] empty_db)
    (mkDaemonFx system_fs system_machine (mkChannel true []) (mkChannel true []) (mkChannel true [])) 0 0 0.
Definition system_parts : DaemonParts :=
  mkParts daemon_config (mkAdapter (mkLogPolicy daemon_state 1 1) 1 None None) sample_wake daemon_context
    drain_context (mkAutoJoinContext (agent_files_of daemon_state) (custody_of daemon_state) COMMUNITY_IDENTITY_ROOT).
Definition restarted : result DaemonError (option DaemonParts) * World (DaemonFx LocalState) :=
  main_start sample_time (λ _, "tmp") (λ _, Some daemon_config) true ["--config"; "/etc/buzz-server.json"]
    (booted system_world system_fs system_machine).
Definition restarted_parts : DaemonParts := default system_parts (default None (result_ok restarted.1)).
#[local] Notation steps := (daemon_step (R := LocalState) system_signer_keys sample_time sample_time sample_uuid
  (λ _, "tmp") (λ _, "key") (λ _, None) (λ _, Some daemon_config) (λ _, []) (λ _, None) AppProps.sample_json id
  (λ _, None)).
#[local] Notation off := (mkRunning (Down false) system_parts system_world 0 ∅ ∅).
#[local] Notation on_again := (mkRunning Serving restarted_parts restarted.2 0 ∅ ∅).
Lemma system_world_ok : db_ok (w_db system_world).
Proof. apply (run_calls_sound [CallCreateOperation waiting_operation]), empty_db_ok. Qed.
Lemma restarted_ok : restarted.1 = Ok (Some restarted_parts).
Proof. vm_compute. reflexivity. Qed.
Lemma system_restarts : steps off on_again.
Proof.
  eapply (step_restart _ _ _ _ _ _ _ _ _ _ _ _ _ _ _ _ true ["--config"; "/etc/buzz-server.json"] _ system_fs
    system_machine). fold restarted. rewrite <- restarted_ok. apply surjective_pairing.
Qed.
Lemma no_accepted_work_is_lost_witness :
  daemon_ok on_again ∧ waiting restarted.2 0 = [WorkOperation (mkOperationId 5)].
Proof.
  split; [|vm_compute; reflexivity].
  exact (proj1 (no_accepted_work_is_lost (R := LocalState) system_signer_keys sample_time sample_time sample_uuid
    (λ _, "tmp") (λ _, "key") (λ _, None) (λ _, Some daemon_config) (λ _, []) (λ _, None) AppProps.sample_json id
    (λ _, None) system_world system_parts on_again system_world_ok (rtc_once _ _ system_restarts))).
Defined.
Lemma the_worker_catches_up_witness :
  let w := worker_loop (R := LocalState) system_signer_keys sample_time sample_time sample_uuid (λ _, "tmp") (λ _, "key")
             (λ _, None) (dp_reconcile restarted_parts) (ReceivedWork <$> waiting restarted.2 0) restarted.2 in
  rtc steps off (mkRunning Serving restarted_parts w 1 ∅ ∅)
  ∧ op_status <$> t_operations (w_db w) !! mkOperationId 5 = Some Failed.
Proof.
  split; [|vm_compute; reflexivity]. eapply rtc_l; [exact system_restarts|].
  destruct (the_worker_catches_up (R := LocalState) system_signer_keys sample_time sample_time sample_uuid
    (λ _, "tmp") (λ _, "key") (λ _, None) (λ _, Some daemon_config) (λ _, []) (λ _, None) AppProps.sample_json id
    (λ _, None) system_world restarted.2 system_parts restarted_parts 0 ∅ ∅ system_world_ok
    (rtc_once _ _ system_restarts)) as [Hs _].
  exact Hs.
Defined.
