(* ===== verification/StateJournal.v ===== *)
(** * The journal of relay states (relay_adapter.rs, [RelayStateJournal])
    An append-only file with one JSON record per line, which an operator reads back after a
    connection failed. *)
From Stdlib Require Import ZArith Lia String Ascii.
From stdpp Require Import base gmap list strings.
From S2P Require Import Prelude RustStr Bytes Monad Fs AgentFiles CommunityJoin Diagnostics LogCapture.
From S2P Require Import RelayAdapter Daemon Receipts Process Supervisor ProcFiles LocalReconcile.
#[local] Open Scope Z_scope.

Record RelayStateRecord : Type := mkStateRecord { sr_occurred_at_unix_ms : Z; sr_state : RelayAdapterState }.
Record RelayStateJournal : Type := mkStateJournal { sj_path : Path }.
(** [serde_json] of a record. *)
Class StateJson : Type := {
  state_to_json : RelayStateRecord → string;
  state_of_json : string → option RelayStateRecord
}.
Definition fits_u64 (r : RelayStateRecord) : Prop := 0 ≤ sr_occurred_at_unix_ms r < 2 ^ 64.
(** Compact JSON of a record is one line and reads back. *)
Class StateJsonLaws `{StateJson} : Prop := {
  state_json_line r : fits_u64 r → plain_line (state_to_json r);
  state_json_ascii r : fits_u64 r → ascii_text (state_to_json r);
  state_json_read r : fits_u64 r → state_of_json (state_to_json r) = Some r
}.

Section Journal.
Context `{StateJson}.

Definition bad_record : IoError := mkIoError OtherKind "invalid record".
Definition parse_record (line : string) : IO RelayStateRecord := of_result (ok_or bad_record (state_of_json line)).
Definition parse_payload (payload : string) : IO (list RelayStateRecord) := mapM' parse_record (str_lines payload).
Definition records (self : RelayStateJournal) : IO (list RelayStateRecord) := λ s,
  match read_to_string (sj_path self) s with
  | (Ok payload, s) => parse_payload payload s
  | (Err error, s) => if kind_is NotFound error then (Ok [], s) else (Err error, s)
  end.

(** Milliseconds since the epoch: zero before it, and saturating. *)
Definition occurred_at (now_ms : Z) : Z := Z.min (Z.max 0 now_ms) (2 ^ 64 - 1).
(** What [to_writer] reports, whatever it was. *)
Definition io_other (error : IoError) : IoError := mkIoError OtherKind (io_message error).
Definition append_record (self : RelayStateJournal) (now_ms : Z) (state : RelayAdapterState) : IO unit :=
  _ ← (match parent (sj_path self) with Some dir => create_dir_all dir | None => mret tt end);
  file ← open_append (sj_path self);
  _ ← M_map_err io_other (write_all file (state_to_json (mkStateRecord (occurred_at now_ms) state)));
  write_all file newline_text.

(** [RelayAdapterObserver for RelayStateJournal]: of what the adapter reports, only states
    are kept, and a failure to keep one is ignored. *)
Definition observe_state (self : RelayStateJournal) (now_ms : Z) (o : Observation) (s : Fs) : Fs :=
  match o with
  | ObsState state => (append_record self now_ms state s).2
  | _ => s
  end.
End Journal.

(** ** What is read back *)
Section Reading.
Context `{StateJson} `{!StateJsonLaws}.

Definition journal_text (rs : list RelayStateRecord) : string := text (state_to_json <$> rs).
(** The journal holds exactly these records, or is not there yet. *)
Definition holds_records (self : RelayStateJournal) (rs : list RelayStateRecord) (s : Fs) : Prop :=
  Forall fits_u64 rs ∧
  match fs_nodes s !! sj_path self with
  | Some n => n_kind n = RegularFile ∧ n_data n = journal_text rs
  | None => rs = []
  end.

Lemma parse_lines rs s : Forall fits_u64 rs → mapM' parse_record (state_to_json <$> rs) s = (Ok rs, s).
Proof.
  induction 1 as [|r rs Hr _ IH]; [done|]. rewrite fmap_cons. cbn [mapM'].
  unfold mbind, M_bind at 1. unfold parse_record at 1. rewrite state_json_read by done.
  unfold mbind, M_bind. cbn [ok_or of_result]. by rewrite IH.
Qed.
Lemma text_ascii ls : Forall ascii_text ls → ascii_text (text ls).
Proof.
  induction 1 as [|l ls Hl _ IH]; [done|]. change (text (l :: ls)) with (String.append (end_line l) (text ls)).
  unfold ascii_text, end_line in *. by rewrite !all_bytes_append, Hl, IH.
Qed.

Lemma occurred_at_fits now_ms state : fits_u64 (mkStateRecord (occurred_at now_ms) state).
Proof. unfold fits_u64, occurred_at. cbn [sr_occurred_at_unix_ms]. lia. Qed.

Lemma records_read self rs s :
  fs_faults s = [] → holds_records self rs s → records self s = (Ok rs, s).
Proof.
  intros Hf [Hr Hh]. unfold records, read_to_string, mbind, M_bind.
  destruct (fs_nodes s !! sj_path self) as [n|] eqn:En.
  - destruct Hh as [Hk Hd].
    rewrite (read_file_quiet _ _ n) by (done || (by rewrite Hk) || (apply leads_to_plain; [done|]; unfold is_symlink; by rewrite Hk)).
    assert (is_utf8 (n_data n) = true) as ->.
    { apply ascii_utf8. rewrite Hd. apply text_ascii. apply Forall_fmap. eapply Forall_impl; [exact Hr|]. apply state_json_ascii. }
    cbn. unfold parse_payload. rewrite Hd. unfold journal_text. rewrite str_lines_text.
    + by apply parse_lines.
    + apply Forall_fmap. eapply Forall_impl; [exact Hr|]. apply state_json_line.
  - subst rs. unfold read_file, atomic_call. rewrite call_quiet by done. unfold MAX_SYMLINKS. cbn [follow].
    unfold mbind, M_bind, node_at. by rewrite En.
Qed.

Lemma journal_text_snoc rs r :
  journal_text (rs ++ [r]) = String.append (journal_text rs) (String.append (state_to_json r) newline_text).
Proof.
  unfold journal_text. rewrite fmap_app, text_app. f_equal. unfold text, cat, end_line, newline_text. cbn.
  by rewrite !append_nil_r.
Qed.

(** Creating the directories above a file leaves the file itself alone. *)
Lemma parents_kept p s s' :
  match parent p with Some dir => create_dir_all dir | None => mret tt end s = (Ok tt, s') →
  fs_nodes s' !! p = fs_nodes s !! p.
Proof.
  destruct (parent p) as [dir|] eqn:Ep; [|by intros [= <-]]. intros E1.
  pose proof (create_dir_all_grow dir s p) as Hg. rewrite E1 in Hg. cbn [snd] in Hg.
  destruct Hg as [Hg|(_ & Hl & _)]; [done|].
  unfold parent in Ep. destruct (p_components p) as [|c cs] eqn:Ec; [done|]. injection Ep as <-.
  exfalso. cbn [p_components] in Hl. clear -Hl. revert c Hl.
  induction cs as [|d cs IH]; intros c Hl; [cbn in Hl; lia|]. apply (IH d). cbn in *. lia.
Qed.

(** A record that was appended is read back after the earlier ones. *)
Theorem appended_states_are_read_back (self : RelayStateJournal) (now_ms : Z) (state : RelayAdapterState)
    (rs : list RelayStateRecord) (s s' : Fs) :
  holds_records self rs s → append_record self now_ms state s = (Ok tt, s') →
  holds_records self (rs ++ [mkStateRecord (occurred_at now_ms) state]) s'
  ∧ (fs_faults s' = [] → records self s' = (Ok (rs ++ [mkStateRecord (occurred_at now_ms) state]), s')).
Proof.
  intros Hh Ha. assert (holds_records self (rs ++ [mkStateRecord (occurred_at now_ms) state]) s') as Hh';
    [|split; [done|]; intros Hf; by apply records_read].
  unfold append_record in Ha. apply bind_ok in Ha as ([] & s1 & E1 & Ha).
  assert (fs_nodes s1 !! sj_path self = fs_nodes s !! sj_path self) as L1 by (by eapply parents_kept).
  apply bind_ok in Ha as (file & s2 & E2 & Ha). destruct Hh as [Hr Hh].
  assert (plain_at (sj_path self) s1) as Hp.
  { intros n. rewrite L1. intros Hn. rewrite Hn in Hh.
    destruct Hh as [Hk _]. unfold is_symlink. by rewrite Hk. }
  pose proof (open_at_effect id (sj_path self) s1 Hp) as He. unfold open_append in E2. rewrite E2 in He. cbn in He.
  destruct He as (-> & _ & He). apply bind_ok in Ha as ([] & s3 & E3 & Ha).
  unfold M_map_err in E3. destruct (write_all _ _ s2) as [[[]|e] s4] eqn:E4; [|done]. injection E3 as ->.
  apply write_all_ok in E4, Ha. split; [apply Forall_app; split; [done|]; constructor; [apply occurred_at_fits|done]|].
  rewrite Ha, E4, He, !lookup_alter_eq, lookup_insert_eq.
  cbn. rewrite journal_text_snoc. unfold opened. rewrite L1.
  destruct (fs_nodes s !! sj_path self) as [n|]; cbn.
  - destruct Hh as [Hk Hd]. rewrite Hd, append_assoc. done.
  - subst rs. done.
Qed.
End Reading.

(** ** A torn record
    When a write stops in the middle of a record, the next one is appended to it, and the
    journal can no longer be read: the records before and after it are lost to [records]. *)
Definition state_tag (state : RelayAdapterState) : ascii :=
  match state with
  | StConnecting => "c" | StConnected => "o" | StAuthenticated => "a" | StPresenceSubscriptionSent => "p"
  | StReplayComplete => "r" | StClosed => "x" | StDisconnected => "d" | StBackoff => "b"
  end.
Definition tag_state (c : ascii) : option RelayAdapterState :=
  list_find (λ st, state_tag st = c)
    [StConnecting; StConnected; StAuthenticated; StPresenceSubscriptionSent; StReplayComplete; StClosed;
     StDisconnected; StBackoff] ≫= λ '(_, st), Some st.
#[local] Instance tagged_states : StateJson := {
  state_to_json r := String (state_tag (sr_state r)) (show_Z (sr_occurred_at_unix_ms r));
  state_of_json line :=
    match line with
    | String c rest => st ← tag_state c; t ← parse_u64 rest; Some (mkStateRecord t st)
    | EmptyString => None
    end
}.
Lemma graphic_line s : all_bytes ascii_graphic s = true → plain_line s.
Proof.
  intros Hs. split.
  - revert Hs. apply all_bytes_impl. intros c. by destruct c as [[] [] [] [] [] [] [] []]; vm_compute.
  - unfold drop_cr. destruct (strip_suffix_char CR s) as [r|] eqn:Er; [|done].
    apply strip_suffix_Some in Er. subst s. rewrite all_bytes_append in Hs.
    by apply andb_true_iff in Hs as [_ Hs].
Qed.
Lemma tagged_graphic r : fits_u64 r → all_bytes ascii_graphic (state_to_json r) = true.
Proof.
  intros [Hr _]. cbn. rewrite andb_true_iff. split; [by destruct (sr_state r)|].
  apply decimal_graphic. by apply show_Z_digits.
Qed.
#[local] Instance tagged_states_laws : StateJsonLaws.
Proof.
  split; intros r Hr.
  - by apply graphic_line, tagged_graphic.
  - apply word_ascii. split; [done|]. by apply tagged_graphic.
  - destruct r as [t st]. cbn. rewrite parse_u64_show by done. by destruct st.
Qed.
Theorem torn_record_hides_the_journal :
  let journal := mkStateJournal (mkPath true ["j"]) in
  let torn := repeat None 6 ++ [Some (mkIoError OtherKind "disk full", 1%nat)] in
  let s1 := (append_record journal 0 StConnecting (mkFs ∅ torn 0)).2 in
  let s2 := (append_record journal 0 StDisconnected s1).2 in
  let '(r3, s3) := append_record journal 0 StConnecting s2 in
  (records journal (mkFs (fs_nodes s1) [] 0)).1 = Ok [mkStateRecord 0 StConnecting]
  ∧ r3 = Ok tt ∧ fs_faults s3 = [] ∧ (records journal s3).1 = Err bad_record.
Proof. vm_compute. split_and!; reflexivity. Qed.
