(* ===== verification/AgentCtl.v ===== *)
(** * buzz-agentctl (bin/buzz-agentctl.rs)
    The command line of the lifecycle API: options become one request over the Unix socket;
    a command that changes something waits for its operation and reports how it ended. *)
From Stdlib Require Import ZArith Lia String Ascii.
From stdpp Require Import base gmap list strings.
From S2P Require Import Prelude RustStr Ids Lifecycle Agent Runtime Auth ApiTypes Schema Monad Api Bytes.
From S2P Require Import Diagnostics Codec Fs Json Daemon Transport.
#[local] Open Scope Z_scope.
#[local] Set Warnings "-notation-for-abbreviation".

Definition agentctl_usage : string :=
  "usage: buzz-agentctl [--socket PATH] <community-*|agent-community|persona-create|persona-get|persona-list|persona-update|persona-delete|create|get|list|update|enable|disable|logs|delete|purge|operation> [--name value ...]".

(** ** Options *)
Definition Options : Type := gmap string string.
Fixpoint parse_options_onto (options : Options) (arguments : list string) : result string Options :=
  match arguments with
  | [] => Ok options
  | name :: arguments =>
    if negb (starts_with "--" name)
    then Err (String.append "unexpected argument " (String.append name
               (String.append (String LF EmptyString) agentctl_usage)))
    else if String.eqb name "--include-deleted" then
      if bool_decide (is_Some (options !! name)) then Err "an option was provided more than once"
      else parse_options_onto (<[name := "true"]> options) arguments
    else
      match arguments with
      | [] => Err (String.append "missing value for " name)
      | value :: arguments =>
        if bool_decide (is_Some (options !! name)) then Err "an option was provided more than once"
        else parse_options_onto (<[name := value]> options) arguments
      end
  end.
Definition parse_options (arguments : list string) : result string Options := parse_options_onto ∅ arguments.

Definition required_option (options : Options) (name : string) : result string string :=
  ok_or (String.append "missing required option " name) (options !! name).
Definition parsed {E A} (from_str : string → result E A) (value description : string) : result string A :=
  map_err (λ _, String.append "invalid " (String.append description (String.append ": " value))) (from_str value).
Definition required_parse {E A} (from_str : string → result E A) (options : Options) (name description : string)
    : result string A :=
  let? value := required_option options name in parsed from_str value description.
Definition optional_parse {E A} (from_str : string → result E A) (options : Options) (name description : string)
    : result string (option A) :=
  match options !! name with
  | None => Ok None
  | Some value => rmap Some (parsed from_str value description)
  end.
(** [u16::from_str] *)
Definition u16_from_str (s : string) : result unit Z :=
  match parse_u32 s with Some v => if v <? 2 ^ 16 then Ok v else Err tt | None => Err tt end.

Section Client.
Context `{UuidLib}.
Variable parse_url : string → result string Url.

Definition community_option (options : Options) : result string CommunityConfigId :=
  required_parse CommunityConfigId_from_str options "--community" "community ID".
Definition agent_option (options : Options) : result string AgentId :=
  required_parse AgentId_from_str options "--agent" "agent ID".
Definition runtime_option (options : Options) : result string (option RuntimeId) :=
  optional_parse RuntimeId_parse options "--runtime" "runtime ID".
(** [id]: the UUID drawn for this command. *)
Definition command_metadata (command id : string) (options : Options) : CommandMetadata :=
  mkCommandMetadata
    (default (String.append "cli-" (String.append command (String.append "-" id))) (options !! "--idempotency"))
    (default (String.append "cli-" id) (options !! "--correlation")).
Definition create_input (options : Options) : result string CreateAgentInput :=
  let? community := community_option options in
  let? display_name := required_option options "--display-name" in
  let? runtime := runtime_option options in
  Ok (mkCreateAgentInput community display_name (options !! "--persona") (options !! "--system-prompt")
        (options !! "--system-prompt-file") runtime (options !! "--filesystem-user")).

Definition command_route (command id : string) (options : Options) : result string LifecycleRouteRequest :=
  let metadata := command_metadata command id options in
  if String.eqb command "community-join" then
    let? display_name := required_option options "--display-name" in
    let? relay_url := required_parse parse_url options "--relay-url" "relay URL" in
    let? identity_pubkey := required_option options "--identity-pubkey" in
    Ok (RouteJoinCommunity (mkJoinCommunityRequest display_name relay_url identity_pubkey))
  else if String.eqb command "community-update" then
    let? community := community_option options in
    let? display_name := required_option options "--display-name" in
    Ok (RouteUpdateCommunity (mkUpdateCommunityRequest community display_name))
  else if String.eqb command "community-get" || String.eqb command "community-relay"
          || String.eqb command "community-identity-pubkey" then
    let? community := community_option options in Ok (RouteGetCommunity community)
  else if String.eqb command "agent-community" then
    let? agent := agent_option options in Ok (RouteGetAgent agent)
  else if String.eqb command "community-list" then Ok RouteListCommunities
  else if String.eqb command "community-delete" || String.eqb command "community-remove" then
    let? community := community_option options in Ok (RouteRemoveCommunity community)
  else if String.eqb command "persona-create" then
    let? display_name := required_option options "--display-name" in
    let? runtime := runtime_option options in
    Ok (RouteCreatePersona (mkCreatePersonaRequest display_name (default "" (options !! "--system-prompt")) runtime))
  else if String.eqb command "persona-get" then
    let? persona := required_option options "--persona" in Ok (RouteGetPersona persona)
  else if String.eqb command "persona-list" then Ok RouteListPersonas
  else if String.eqb command "persona-update" then
    let? persona := required_option options "--persona" in
    let? runtime := runtime_option options in
    Ok (RouteUpdatePersona (mkUpdatePersonaRequest persona
          (mkUpdatePersonaInput (options !! "--display-name") (options !! "--system-prompt") runtime)))
  else if String.eqb command "persona-delete" then
    let? persona := required_option options "--persona" in Ok (RouteDeletePersona persona)
  else if String.eqb command "create" then
    let? agent := create_input options in Ok (RouteCreateAgent (mkCreateAgentRequest metadata agent))
  else if String.eqb command "get" then
    let? agent := agent_option options in Ok (RouteGetAgent agent)
  else if String.eqb command "list" then
    let? community := optional_parse CommunityConfigId_from_str options "--community" "community ID" in
    Ok (RouteListAgents (mkListAgentsRequest community (bool_decide (is_Some (options !! "--include-deleted")))))
  else if String.eqb command "update" then
    let? agent := agent_option options in
    let? runtime := runtime_option options in
    Ok (RouteUpdateAgent (mkUpdateAgentRequest metadata agent
          (mkUpdateAgentInput (options !! "--display-name") (options !! "--system-prompt")
             (options !! "--system-prompt-file") runtime (options !! "--filesystem-user"))))
  else if String.eqb command "enable" || String.eqb command "disable" then
    let? agent := agent_option options in
    Ok (RouteChangeAgentState (mkChangeAgentStateRequest metadata agent
          (if String.eqb command "enable" then Enabled else Disabled)))
  else if String.eqb command "logs" then
    let? agent := agent_option options in
    let? limit := match options !! "--limit" with
                  | Some value => parsed u16_from_str value "log limit"
                  | None => Ok 100
                  end in
    Ok (RouteAgentLogs (mkAgentLogsRequest agent (options !! "--after") limit))
  else if String.eqb command "delete" || String.eqb command "purge" then
    let? agent := agent_option options in
    let request := mkAgentCommandRequest metadata agent in
    Ok (if String.eqb command "delete" then RouteDeleteAgent request else RoutePurgeAgent request)
  else if String.eqb command "operation" then
    let? operation := required_parse OperationId_from_str options "--operation" "operation ID" in
    Ok (RouteGetOperation operation)
  else Err agentctl_usage.
End Client.

(** ** Answers *)
(** [value.pointer(..)], by its parts. *)
Definition pointer (parts : list string) (value : Json) : option Json :=
  foldl (λ v part, v ≫= field part) (Some value) parts.
Definition wire_error (value : Json) : bool := bool_decide (field "status" value ≫= as_str = Some "error").
Definition operation_field (value : Json) (name : string) : option string :=
  status ← field "status" value ≫= as_str;
  if negb (String.eqb status "ok") then None
  else
  resource ← pointer ["value"; "resource"] value ≫= as_str;
  if negb (String.eqb resource "operation") then None
  else pointer ["value"; "value"; name] value ≫= as_str.
Definition is_mutating_command (command : string) : bool :=
  existsb (String.eqb command) ["create"; "update"; "enable"; "disable"; "delete"; "purge"].

(** ** The socket
    Each step of [send_request] under its timeout: [Err None] is a step that timed out. *)
Class LifecycleSocket (R : Type) : Type := {
  ClientStream : Type;
  client_connect : Path → M R (option string) ClientStream;
  client_write : ClientStream → list Z → M R (option string) unit;
  client_read_u32 : ClientStream → Z → M R (option string) Z;
  client_read_exact : ClientStream → nat → M R (option string) (list Z);
  request_to_vec : LifecycleRouteRequest → result string (list Z);
  value_of_slice : list Z → result string Json
}.
Definition CONNECT_TIMEOUT : Z := 5.
Definition IO_TIMEOUT : Z := 10.
Definition COMPLETION_TIMEOUT : Z := 125.
Definition timed {R A} (late failed : string) (m : M R (option string) A) : M R string A :=
  M_map_err (λ e, match e with None => late | Some e => String.append failed e end) m.
Definition response_timeout (request : LifecycleRouteRequest) : Z :=
  match request with RouteAwaitOperation _ => COMPLETION_TIMEOUT | _ => IO_TIMEOUT end.

Definition send_request {R} `{LifecycleSocket R} (socket : Path) (request : LifecycleRouteRequest) : M R string Json :=
  body ← of_result (request_to_vec request);
  stream ← timed (String.append "timed out connecting to " (path_text socket))
             (String.append "cannot connect to " (String.append (path_text socket) ": ")) (client_connect socket);
  let length := Z.of_nat (List.length body) in
  _ ← (if u32_max <? length then throw "request is too large"
       else timed "timed out sending lifecycle request" ""
              (client_write stream (to_be_bytes 4 length ++ body)));
  length ← timed "timed out waiting for lifecycle response" "" (client_read_u32 stream (response_timeout request));
  if MAX_LIFECYCLE_RESPONSE_BYTES <? length then throw "server response exceeds the lifecycle limit"
  else
  response ← timed "timed out reading lifecycle response" "" (client_read_exact stream (Z.to_nat length));
  of_result (value_of_slice response).

(** ** A command
    It ends with what is printed (exit 0), with an answer that is printed (exit 1) or with a
    message on standard error (exit 2). *)
Inductive Failure : Type := ExitOne (value : Json) | ExitTwo (message : string).
Inductive Printed : Type := PrintedValue (value : Json) | PrintedText (text : string).
Section Run.
Context `{UuidLib} {R : Type}.
Variable exchange : LifecycleRouteRequest → M R string Json.
#[local] Notation C A := (M R Failure A).

Definition message {A} (r : result string A) : C A := of_result (map_err ExitTwo r).
(** An answer that is no error. *)
Definition request_value (describe : string → string) (request : LifecycleRouteRequest) : C Json :=
  value ← M_map_err (λ e, ExitTwo (describe e)) (exchange request);
  if wire_error value then throw (ExitOne value) else mret value.
Definition inspect_hint (operation_id : string) : string :=
  String.append "inspect it with `buzz-server agents operation --operation " (String.append operation_id "`").

Definition settle (value : Json) : C (Json * string) :=
  operation_id ← message (ok_or "mutation response did not contain an operation ID" (operation_field value "id"));
  initial ← message (ok_or "operation response did not contain a status" (operation_field value "status"));
  if String.eqb initial "pending" || String.eqb initial "running" then
    id ← message (parsed OperationId_from_str operation_id "operation ID");
    awaited ← request_value (λ error, String.append "operation " (String.append operation_id
                 (String.append " completion wait failed: " (String.append error
                    (String.append "; " (inspect_hint operation_id)))))) (RouteAwaitOperation id);
    mret (awaited, operation_id)
  else mret (value, operation_id).
Definition finish_mutation (command : string) (value : Json) : C Json :=
  settled ← settle value;
  let '(value, operation_id) := settled in
  status ← message (ok_or "operation response did not contain a status" (operation_field value "status"));
  if String.eqb status "succeeded" then
    if String.eqb command "purge" then mret value
    else match operation_field value "agent_id" with
         | None => mret value
         | Some agent_id =>
           agent ← message (parsed AgentId_from_str agent_id "agent ID");
           request_value id (RouteGetAgent agent)
         end
  else if String.eqb status "failed" || String.eqb status "cancelled" then throw (ExitOne value)
  else if String.eqb status "pending" || String.eqb status "running" then
    throw (ExitTwo (String.append "operation " (String.append operation_id
             (String.append " did not finish within the server wait window; " (inspect_hint operation_id)))))
  else throw (ExitTwo (String.append "unknown operation status: " status)).

Definition printed_field (name missing : string) (value : Json) : C Printed :=
  text ← message (ok_or missing (pointer ["value"; "value"; name] value ≫= as_str)); mret (PrintedText text).
Definition print_answer (command : string) (value : Json) : C Printed :=
  if String.eqb command "community-relay"
  then printed_field "relay_url" "community response did not contain relay_url" value
  else if String.eqb command "community-identity-pubkey"
  then printed_field "identity_pubkey" "community response did not contain identity_pubkey" value
  else if String.eqb command "agent-community"
  then printed_field "community_config_id" "agent response did not contain community_config_id" value
  else mret (PrintedValue value).

Definition run_request (command : string) (request : LifecycleRouteRequest) : C Printed :=
  value ← request_value id request;
  value ← (if is_mutating_command command then finish_mutation command value else mret value);
  print_answer command value.
End Run.

Definition run_agentctl `{UuidLib} {R} (parse_url : string → result string Url) (id : string)
    (exchange : Path → LifecycleRouteRequest → M R string Json) (arguments : list string) : M R Failure Printed :=
  let default_socket := path_of_string "/run/buzz-server/lifecycle.sock" in
  head ← message (match arguments with
                  | [] => Err agentctl_usage
                  | first :: rest =>
                    if String.eqb first "--socket" then
                      match rest with
                      | socket :: command :: rest => Ok (path_of_string socket, command, rest)
                      | _ => Err agentctl_usage
                      end
                    else Ok (default_socket, first, rest)
                  end);
  let '(socket, command, rest) := head in
  options ← message (parse_options rest);
  request ← message (command_route parse_url command id options);
  run_request (exchange socket) command request.

(** ** What an exit of zero means *)
(** The exchanges of a run, in order. *)
Definition Exchanged : Type := LifecycleRouteRequest * result string Json.
Definition recorded {R} (exchange : LifecycleRouteRequest → M R string Json) (request : LifecycleRouteRequest)
    : M (R * list Exchanged) string Json := λ w,
  let '(answer, r) := exchange request w.1 in (answer, (r, w.2 ++ [(request, answer)])).

Section Success.
Context `{UuidLib} {R : Type} (exchange : LifecycleRouteRequest → M R string Json).
#[local] Notation W := (R * list Exchanged)%type.

Lemma request_value_run describe request (w w' : W) r :
  request_value (recorded exchange) describe request w = (r, w') →
  ∃ answer, w'.2 = w.2 ++ [(request, answer)]
    ∧ ∀ value, r = Ok value → answer = Ok value ∧ wire_error value = false.
Proof.
  unfold request_value, recorded, mbind, M_bind, M_map_err. destruct (exchange request w.1) as [answer r1].
  intros Hr. exists answer. destruct answer as [v|e]; cbn in Hr; [|by injection Hr as <- <-].
  destruct (wire_error v) eqn:Ew; injection Hr as <- <-; (split; [done|]); [done|]. by intros value [= <-].
Qed.

(** After the request itself only the operation is awaited and the agent read. *)
Definition follows_up (operation_id : string) (x : Exchanged) : Prop :=
  match x.1 with
  | RouteAwaitOperation id => OperationId_from_str operation_id = Ok id
  | RouteGetAgent _ => True
  | _ => False
  end.
Lemma message_ok {A} (m : result string A) (w w' : W) a : message m w = (Ok a, w') → m = Ok a ∧ w' = w.
Proof. unfold message, of_result. destruct m; [|done]. by intros [= <- <-]. Qed.
Lemma parsed_ok {E A} (from_str : string → result E A) value description a :
  parsed from_str value description = Ok a → from_str value = Ok a.
Proof. unfold parsed. destruct (from_str value); [by intros [= <-]|done]. Qed.

Lemma settle_ok value (w w' : W) settled operation_id :
  settle (recorded exchange) value w = (Ok (settled, operation_id), w') →
  operation_field value "id" = Some operation_id
  ∧ ∃ log, w'.2 = w.2 ++ log ∧ Forall (follows_up operation_id) log
    ∧ (settled = value ∨ ∃ request, (request, Ok settled) ∈ log).
Proof.
  unfold settle. intros (op & w1 & [Hop ->]%message_ok & Hr)%bind_ok.
  apply bind_ok in Hr as (initial & w2 & [Hi ->]%message_ok & Hr).
  destruct (operation_field value "id") as [op'|]; [|done]. injection Hop as ->.
  destruct (String.eqb initial "pending" || String.eqb initial "running").
  - apply bind_ok in Hr as (id & w3 & [Hid%parsed_ok ->]%message_ok & Hr).
    apply bind_ok in Hr as (awaited & w4 & Ha & Hr). injection Hr as <- <- <-.
    apply request_value_run in Ha as (answer & Hw & Hv). destruct (Hv awaited eq_refl) as [-> _].
    split; [done|]. exists [(RouteAwaitOperation id, Ok awaited)]. split_and!; [done|by constructor|].
    right. eexists. by left.
  - injection Hr as <- <- <-. split; [done|]. exists []. rewrite app_nil_r. split_and!; [done|done|by left].
Qed.

(** When a command that changes something exits with zero, its own request was sent
    exactly once and answered with an operation; after it only that operation was awaited
    and an agent read; and an answer of this run says the operation succeeded. *)
Theorem agentctl_success_means_succeeded command request (w w' : W) printed :
  is_mutating_command command = true →
  run_request (recorded exchange) command request w = (Ok printed, w') →
  ∃ value operation_id log, w'.2 = w.2 ++ (request, Ok value) :: log
    ∧ operation_field value "id" = Some operation_id ∧ Forall (follows_up operation_id) log
    ∧ ∃ sent answer, (sent, Ok answer) ∈ (request, Ok value) :: log
        ∧ operation_field answer "status" = Some "succeeded".
Proof.
  intros Hm. unfold run_request. rewrite Hm. intros (value & w1 & Hv & Hr)%bind_ok.
  apply request_value_run in Hv as (answer & Hw1 & Hv). destruct (Hv value eq_refl) as [-> _]. clear Hv.
  apply bind_ok in Hr as (final & w2 & Hf & Hp).
  assert (w' = w2) as ->.
  { revert Hp. unfold print_answer, printed_field. repeat (destruct (String.eqb command _));
      try (intros (t & w3 & [_ ->]%message_ok & [= _ <-])%bind_ok; done). by intros [= _ <-]. }
  unfold finish_mutation in Hf. apply bind_ok in Hf as ([settled op] & w3 & Hs & Hf).
  apply settle_ok in Hs as (Hop & log & Hw3 & Hlog & Hin).
  apply bind_ok in Hf as (status & w4 & [Hst ->]%message_ok & Hf).
  destruct (String.eqb status "succeeded") eqn:Es.
  2: { repeat (destruct (_ || _) in Hf); done. }
  apply String.eqb_eq in Es as ->.
  assert (operation_field settled "status" = Some "succeeded") as Hok
    by (by destruct (operation_field settled "status"); [injection Hst as ->|]).
  assert (∃ more, w2.2 = w3.2 ++ more ∧ Forall (follows_up op) more) as (more & Hw2 & Hmore).
  { destruct (String.eqb command "purge"); [injection Hf as _ <-; by exists []; rewrite app_nil_r|].
    destruct (operation_field settled "agent_id"); [|injection Hf as _ <-; by exists []; rewrite app_nil_r].
    apply bind_ok in Hf as (agent & w5 & [_ ->]%message_ok & Hf).
    apply request_value_run in Hf as (answer & Hw2 & _). eexists. split; [done|]. by constructor. }
  exists value, op, (log ++ more). rewrite Hw2, Hw3, Hw1, <- !app_assoc. split; [done|]. split; [done|].
  split; [by apply Forall_app|]. destruct Hin as [->|(sent & Hin)].
  - exists request, value. split; [left|done].
  - exists sent, settled. split; [|done]. right. apply elem_of_app. by left.
Qed.
End Success.

(** Options survive a round trip: names that start with two dashes, each once. *)
Fixpoint flatten (options : list (string * string)) : list string :=
  match options with [] => [] | (name, value) :: options => name :: value :: flatten options end.
Lemma parse_options_onto_ok pairs options :
  Forall (λ p, starts_with "--" p.1 = true ∧ p.1 ≠ "--include-deleted" ∧ options !! p.1 = None) pairs →
  NoDup pairs.*1 →
  parse_options_onto options (flatten pairs) = Ok (foldl (λ m p, <[p.1 := p.2]> m) options pairs).
Proof.
  revert options. induction pairs as [|[name value] pairs IH]; intros options Hall Hnd; [done|].
  apply Forall_cons in Hall as [(Hs & Hi & Hn) Hall]. apply NoDup_cons in Hnd as [Hnot Hnd].
  cbn [fst snd flatten parse_options_onto foldl] in *. rewrite Hs. cbn [negb]. destruct (String.eqb name "--include-deleted") eqn:Ee; [by apply String.eqb_eq in Ee|].
  rewrite bool_decide_eq_false_2 by (rewrite Hn; by intros [? ?]). apply IH; [|done].
  rewrite Forall_forall in *. intros p Hp. destruct (Hall p Hp) as (? & ? & Hp'). split_and!; [done..|].
  rewrite <- Hp'. apply lookup_insert_ne. intros ->. apply Hnot. apply list_elem_of_fmap. by exists p.
Qed.
