(* ===== verification/EventsCli.v ===== *)
(** * buzz-events (bin/buzz-events.rs, and the rendering and parsing of events.rs)
    The options and environment of the command, the JSON it prints for what the relay sends,
    and the stream of [Events] behind them. *)
From Stdlib Require Import ZArith Lia String Ascii.
From stdpp Require Import base gmap list strings.
From S2P Require Import Prelude RustStr Diagnostics Json Events Custody.
#[local] Open Scope Z_scope.

(** ** JSON of the messages *)
Definition SUBSCRIPTION_ID : string := "buzz-server-events".
Definition relay_message_json (message : RelayMessage) : Json :=
  match message with
  | RelayEvent subscription_id event =>
    JObject [("event", sv_json event); ("subscription_id", JString subscription_id); ("type", JString "event")]
  | RelayEose subscription_id =>
    JObject [("subscription_id", JString subscription_id); ("type", JString "eose")]
  | RelayClosed subscription_id message =>
    JObject [("message", JString message); ("subscription_id", JString subscription_id); ("type", JString "closed")]
  | RelayNotice message => JObject [("message", JString message); ("type", JString "notice")]
  | RelayAuth challenge => JObject [("challenge", JString challenge); ("type", JString "auth")]
  | RelayOk event_id accepted message =>
    JObject [("accepted", JBool accepted); ("event_id", JString event_id); ("message", JString message);
             ("type", JString "ok")]
  | RelayCount subscription_id count =>
    JObject [("count", JNumber (PosInt count)); ("subscription_id", JString subscription_id); ("type", JString "count")]
  end.
Definition error_json (message : string) : Json :=
  JObject [("message", JString message); ("type", JString "error")].

(** The nostr and buzz-sdk crates: filters, keys and authorization tags, and [serde_json]. *)
Class StreamLib `{SecretKeys} : Type := {
  Filter : Type;
  filter_default : Filter;
  filter_since : Z → Filter → Filter;
  filter_json : Filter → Json;
  filter_from_str : string → result string Filter;
  keys_error : string → string;
  auth_tag_of : string → result string (list string);
  json_text : Json → string
}.

Section Command.
Context `{StreamLib}.

Definition events_request (since : Z) (filter : Filter) : Json :=
  JArray [JString "REQ"; JString SUBSCRIPTION_ID; filter_json (filter_since since filter)].
Definition all_events_request (since : Z) : Json := events_request since filter_default.

Definition parse_keys (value : string) : result string SecretKey :=
  ok_or (String.append "invalid BUZZ_PRIVATE_KEY: " (keys_error value)) (Keys_parse value).
Definition stream_auth_tag (value : option string) : result string (option (list string)) :=
  map_err (String.append "invalid BUZZ_AUTH_TAG: ")
    (match value with None => Ok None | Some value => rmap Some (auth_tag_of value) end).
Definition parse_filter (value : option string) : result string Filter :=
  match value with
  | None => Ok filter_default
  | Some value => map_err (String.append "invalid Nostr filter JSON: ") (filter_from_str value)
  end.

(** ** The command *)
Definition events_usage : string := "usage: buzz-events subscribe [--filter '<Nostr filter JSON>']".
Definition quote : string := String "034" EmptyString.
Definition quoted (s : string) : string := String.append quote (String.append s quote).
Definition events_help : list string :=
  ["usage: buzz-server events subscribe [--filter '<Nostr filter JSON>']"; "";
   "Subscribe to authenticated live relay events as JSONL.";
   "--filter accepts one Nostr filter object; its `since` is managed by the live cursor.";
   cat ["example: buzz-server events subscribe --filter '{"; quoted "kinds"; ":[1],"; quoted "#p"; ":[";
        quoted "<pubkey>"; "]}'"]].

(** How the process ends, with what it printed; or the arguments it goes on with. *)
Inductive Ending : Type := Exits (code : Z) (stdout stderr : list string).
Definition usage_exit : Ending := Exits 64 [] [events_usage].
Fixpoint parse_arguments (filter_json : option string) (args : list string) : result Ending (option string) :=
  match args with
  | [] => Ok filter_json
  | argument :: args =>
    if String.eqb argument "--help" || String.eqb argument "-h" then Err (Exits 0 events_help [])
    else if String.eqb argument "--filter" then
      match args with
      | [] => Err usage_exit
      | value :: args =>
        match filter_json with
        | Some _ => Err usage_exit
        | None => parse_arguments (Some value) args
        end
      end
    else Err usage_exit
  end.

(** What the stream is started with. *)
Record Subscription : Type := mkStreamSubscription {
  ss_relay : string; ss_keys : SecretKey; ss_auth_tag : option (list string); ss_filter : Filter
}.
Definition failing {A} (code : Z) (r : result string A) : result Ending A :=
  map_err (λ error, Exits code [] [error]) r.
Definition prepare_subscription (args : list string) (env : string → option string) : result Ending Subscription :=
  let? args := match args with
               | first :: args => if String.eqb first "subscribe" then Ok args else Err usage_exit
               | [] => Err usage_exit
               end in
  let? filter_json := parse_arguments None args in
  let? filter := failing 64 (parse_filter filter_json) in
  let? relay := ok_or usage_exit (env "BUZZ_RELAY_URL") in
  let? private_key := ok_or usage_exit (env "BUZZ_PRIVATE_KEY") in
  let? keys := failing 3 (parse_keys private_key) in
  let? auth_tag := failing 3 (stream_auth_tag (env "BUZZ_AUTH_TAG")) in
  Ok (mkStreamSubscription relay keys auth_tag filter).

(** One line per value given to [output]; requests go to the relay. *)
Definition printed_line (o : Output) : option string :=
  match o with
  | OutMessage m => Some (json_text (relay_message_json m))
  | OutError message => Some (json_text (error_json message))
  | OutRequest _ => None
  end.
Definition sent_request (filter : Filter) (o : Output) : option Json :=
  match o with OutRequest since => Some (events_request since filter) | _ => None end.
(** The process: how it ends, or what it has printed while it is still running. The errors
    of [run_with_filter] would end it with 2. *)
Definition events_main (args : list string) (env : string → option string) (attempts : list Attempt)
    : Ending + list string :=
  match prepare_subscription args env with
  | Err ending => inl ending
  | Ok subscription =>
    let '(_, out, _, returned) := run_stream attempts stream_start in
    if returned then inl (Exits 0 (omap printed_line out) []) else inr (omap printed_line out)
  end.

(** ** What is printed says what was received *)
Definition output_json (o : Output) : option Json :=
  match o with
  | OutMessage m => Some (relay_message_json m)
  | OutError message => Some (error_json message)
  | OutRequest _ => None
  end.
(** An event's JSON determines it. *)
Definition events_readable : Prop := ∀ a b, sv_json a = sv_json b → a = b.

Lemma relay_message_json_inj a b :
  events_readable → relay_message_json a = relay_message_json b → a = b.
Proof.
  intros He. destruct a as [sa ea|sa|sa ma|ma|ca|ia aa ma|sa na], b as [sb eb|sb|sb mb|mb|cb|ib ab mb|sb nb];
    cbn; intros Hab; try discriminate Hab; injection Hab; intros; subst; f_equal; auto.
Qed.
Lemma error_json_distinct m e : relay_message_json m ≠ error_json e.
Proof. destruct m; discriminate. Qed.

(** The lines of two runs are equal only when what was received is: a reader of the output can
    tell the messages of the relay from one another and from errors. *)
Theorem printed_values_are_unambiguous (a b : Output) (v : Json) :
  events_readable → output_json a = Some v → output_json b = Some v → a = b.
Proof.
  intros He. destruct a as [ma|ea|], b as [mb|eb|]; cbn; intros [= <-] Hb; try discriminate Hb;
    injection Hb.
  - intros Heq. f_equal. symmetry. by apply relay_message_json_inj.
  - intros Heq. by destruct (error_json_distinct ma eb).
  - intros Heq. by destruct (error_json_distinct mb ea).
  - intros ->. done.
Qed.

(** ** Arguments *)
(** The filter is given at most once, and everything else ends the process. *)
Lemma parse_arguments_ok given args filter :
  parse_arguments given args = Ok filter →
  (args = [] ∧ filter = given) ∨ (given = None ∧ ∃ value, args = ["--filter"; value] ∧ filter = Some value).
Proof.
  destruct args as [|a args]; cbn; [intros [= <-]; by left|].
  destruct (_ || _); [done|]. destruct (String.eqb_spec a "--filter") as [->|]; [|done].
  destruct args as [|value args]; [done|]. destruct given as [g|]; [done|].
  destruct args as [|b args]; cbn; [intros [= <-]; right; eauto|].
  destruct (_ || _); [done|]. destruct (String.eqb b "--filter"); [|done]. by destruct args.
Qed.

(** The command subscribes exactly when it is called as documented: with [subscribe] and at most
    one filter, which reads as one, an address of the relay, a key and, if given, a tag that
    read as such; it then keeps the environment's address and subscribes with that filter. *)
Theorem events_command_is_checked (args : list string) (env : string → option string) (s : Subscription) :
  prepare_subscription args env = Ok s ↔
  ∃ filter key,
    (args = ["subscribe"] ∧ filter = None ∨ ∃ value, args = ["subscribe"; "--filter"; value] ∧ filter = Some value)
    ∧ parse_filter filter = Ok (ss_filter s)
    ∧ env "BUZZ_RELAY_URL" = Some (ss_relay s)
    ∧ env "BUZZ_PRIVATE_KEY" = Some key ∧ Keys_parse key = Some (ss_keys s)
    ∧ stream_auth_tag (env "BUZZ_AUTH_TAG") = Ok (ss_auth_tag s).
Proof.
  unfold prepare_subscription, failing, parse_keys. split.
  - destruct args as [|first args]; [done|]. destruct (String.eqb_spec first "subscribe") as [->|]; [|done]. cbn [ok_or].
    destruct (parse_arguments None args) as [filter|] eqn:Ea; [|done].
    destruct (parse_filter filter) as [f|] eqn:Ef; [|done]. cbn.
    destruct (env "BUZZ_RELAY_URL") as [relay|]; [|done]. cbn.
    destruct (env "BUZZ_PRIVATE_KEY") as [key|]; [|done]. cbn.
    destruct (Keys_parse key) as [keys|] eqn:Ek; [|done]. cbn.
    destruct (stream_auth_tag _) as [tag|]; [|done]. cbn. intros [= <-]. exists filter, key.
    split_and!; [|done..]. apply parse_arguments_ok in Ea as [[-> ->]|(_ & value & -> & ->)]; eauto.
  - intros (filter & key & Hargs & Hf & Hr & Hp & Hk & Ht). destruct s as [relay keys tag f]. cbn in *.
    rewrite Hr, Hp, Ht. cbn. rewrite Hk.
    destruct Hargs as [[-> ->]|(value & -> & ->)]; cbn in *; [by injection Hf as ->|by rewrite Hf].
Qed.
End Command.
