(* ===== verification/RuntimeProbe.v ===== *)
(** * buzz-runtime-probe (bin/buzz-runtime-probe.rs)
    Asking an executable for its version, with a deadline. What the machine does during one
    probe is a record: which calls fail, what each poll of the child finds and at what time,
    and what the child has printed. Times are in milliseconds. *)
From Stdlib Require Import ZArith Lia String Ascii.
From stdpp Require Import base list strings.
From S2P Require Import Prelude RustStr Bytes Fs AgentFiles Diagnostics LogCapture Supervisor ProcFiles LocalReconcile RelayProjection.
#[local] Open Scope Z_scope.

Definition Version : Type := Z * Z * Z.
Definition MIN_CODEX_ACP_VERSION : Version := (1, 1, 7).
Definition VERSION_PROBE_TIMEOUT : Z := 5000.
Definition PROBE_INTERVAL : Z := 50.
Definition OUTPUT_LIMIT : nat := 4096.

(** [child.try_wait()] *)
Inductive TryWait : Type := HasExited (success : bool) | IsRunning | WaitFails.
Record ProbeRun : Type := mkProbeRun {
  pr_tempfile : bool; pr_clone : bool; pr_spawn : bool; pr_seek : bool;
  pr_started : Z;
  pr_polls : nat → TryWait;
  pr_times : nat → Z;      (** the clock after the poll found the child running *)
  pr_output : string;      (** the file the child writes to *)
  pr_read : nat            (** how much of it arrives before a read fails *)
}.

(** ** Reading a version *)
Definition show_version (v : Version) : string :=
  let '(major, minor, patch) := v in join_with "." [show_Z major; show_Z minor; show_Z patch].
Definition parse_version (stdout : string) : option Version :=
  version_str ← last (split_whitespace stdout);
  match split_char "." version_str with
  | [major; minor; patch] =>
    major ← parse_u64 major; minor ← parse_u64 minor; patch ← parse_u64 patch; Some (major, minor, patch)
  | _ => None
  end.
(** Derived order of tuples. *)
Definition version_ltb (a b : Version) : bool :=
  let '(a1, a2, a3) := a in let '(b1, b2, b3) := b in
  (a1 <? b1) || ((a1 =? b1) && ((a2 <? b2) || ((a2 =? b2) && (a3 <? b3)))).

(** ** The probe *)
(** What became of the child, and how the loop ended. *)
Inductive Fate : Type := NotSpawned | Collected (success : bool) | KilledAndCollected | LeftRunning.
Fixpoint poll_version (polls i : nat) (deadline : Z) (run : ProbeRun) : Fate :=
  match polls with
  | O => LeftRunning
  | S polls =>
    match pr_polls run i with
    | HasExited success => Collected success
    | IsRunning => if deadline <=? pr_times run i then KilledAndCollected else poll_version polls (S i) deadline run
    | WaitFails => KilledAndCollected
    end
  end.
Definition version_polls : nat := S (Z.to_nat (VERSION_PROBE_TIMEOUT / PROBE_INTERVAL)).

(** The bytes that are read back. *)
Definition read_output (run : ProbeRun) : string :=
  String.substring 0 (pr_read run `min` OUTPUT_LIMIT) (pr_output run).
Definition probe_codex_acp_version (run : ProbeRun) : option Version * Fate :=
  if negb (pr_tempfile run && pr_clone run && pr_spawn run) then (None, NotSpawned)
  else
    let fate := poll_version version_polls 0 (pr_started run + VERSION_PROBE_TIMEOUT) run in
    (match fate with
     | Collected true => if pr_seek run then parse_version (from_utf8_lossy (read_output run)) else None
     | _ => None
     end, fate).

Definition probe_usage : string := "usage: buzz-runtime-probe codex-acp-version PATH".
(** Exit code, standard output and standard error. *)
Definition probe_main (args : list string) (probe : string → ProbeRun) : Z * list string * list string :=
  match args with
  | [command; binary] =>
    if negb (String.eqb command "codex-acp-version") then (64, [], [probe_usage])
    else
      match (probe_codex_acp_version (probe binary)).1 with
      | None => (1, [], [])
      | Some version =>
        if version_ltb version MIN_CODEX_ACP_VERSION then (1, [], []) else (0, [show_version version], [])
      end
  | _ => (64, [], [probe_usage])
  end.

(** ** The deadline *)
(** [sleep] sleeps at least as long as it is asked to, and the clock does not go back. *)
Record steady (run : ProbeRun) : Prop := {
  steady_first : pr_started run ≤ pr_times run 0;
  steady_next i : pr_times run i + PROBE_INTERVAL ≤ pr_times run (S i)
}.
Lemma steady_times run i : steady run → pr_started run + Z.of_nat i * PROBE_INTERVAL ≤ pr_times run i.
Proof.
  intros [H0 Hn]. unfold PROBE_INTERVAL in *. induction i as [|i IH]; [lia|]. specialize (Hn i). lia.
Qed.
Lemma poll_version_ends polls i run :
  steady run → (version_polls ≤ i + polls)%nat → (0 < polls)%nat →
  poll_version polls i (pr_started run + VERSION_PROBE_TIMEOUT) run ≠ LeftRunning.
Proof.
  intros Hs. revert i. induction polls as [|polls IH]; intros i Hi Hp; [lia|]. cbn [poll_version].
  destruct (pr_polls run i); try discriminate. destruct (Z.leb_spec (pr_started run + VERSION_PROBE_TIMEOUT) (pr_times run i)) as [Hle|Hlt]; [discriminate|].
  apply IH; [lia|]. pose proof (steady_times run i Hs) as Ht.
  assert (version_polls = 101%nat) as Hv by reflexivity. rewrite Hv in *.
  unfold VERSION_PROBE_TIMEOUT, PROBE_INTERVAL in *. lia.
Qed.

(** The probe returns within 101 polls whatever the executable does, and no child it
    started is left behind: it has exited, or it was killed and waited for. *)
Theorem probe_leaves_no_child (run : ProbeRun) :
  steady run →
  let '(version, fate) := probe_codex_acp_version run in
  fate ≠ LeftRunning ∧ (is_Some version → fate = Collected true).
Proof.
  intros Hs. unfold probe_codex_acp_version. destruct (negb _); [split; [done|by intros [? ?]]|].
  split; [apply poll_version_ends; [done|lia|unfold version_polls; lia]|].
  by destruct (poll_version _ _ _ _) as [|[]| |]; intros [? ?].
Qed.

(** ** Versions *)
Definition fits (v : Version) : Prop :=
  let '(a, b, c) := v in 0 ≤ a < 2 ^ 64 ∧ 0 ≤ b < 2 ^ 64 ∧ 0 ≤ c < 2 ^ 64.
Lemma show_Z_no_dot z : 0 ≤ z → contains_char "." (show_Z z) = false.
Proof.
  intros Hz. apply contains_char_false. destruct (show_Z_digits z Hz) as [_ Hd]. revert Hd.
  apply all_bytes_impl. intros c. by destruct c as [[] [] [] [] [] [] [] []].
Qed.
Lemma show_version_word v : word (show_version v).
Proof.
  destruct v as [[a b] c]. destruct (show_Z_word a) as [Ha _], (show_Z_word b) as [[_ Hb] _], (show_Z_word c) as [[_ Hc] _].
  unfold show_version. cbn [join_with]. destruct Ha as [Hne Ha]. split; [by destruct (show_Z a)|].
  by rewrite !all_bytes_append, Ha, Hb, Hc.
Qed.
(** A final line feed does not change the words. *)
Lemma split_whitespace_line ws :
  Forall word ws → split_whitespace (String.append (join_with " " ws) (String LF EmptyString)) = ws.
Proof.
  unfold split_whitespace. induction 1 as [|w ws [Hne Hw] Hws IH]; [done|]. destruct ws as [|v ws].
  - cbn [join_with]. rewrite words_onto_graphic by done. by destruct w.
  - change (join_with " " (w :: v :: ws)) with (String.append w (String " " (join_with " " (v :: ws)))).
    rewrite append_assoc, words_onto_graphic by done. cbn [String.append].
    change (words_onto w (String " " ?s)) with (flush w (words_onto EmptyString s)).
    rewrite IH. by destruct w.
Qed.
Lemma parse_version_words ws v :
  Forall word ws → fits v →
  parse_version (String.append (join_with " " (ws ++ [show_version v])) (String LF EmptyString)) = Some v.
Proof.
  intros Hw Hv. unfold parse_version. rewrite split_whitespace_line.
  - rewrite last_snoc. cbn [mbind option_bind]. destruct v as [[a b] c]. destruct Hv as (Ha & Hb & Hc).
    unfold show_version. rewrite split_join.
    + by rewrite !parse_u64_show.
    + done.
    + repeat constructor; apply show_Z_no_dot; lia.
  - apply Forall_app. split; [done|]. constructor; [apply show_version_word|done].
Qed.

(** What a child prints that ends in its version: [name 1.2.3]. *)
Definition version_output (ws : list string) (v : Version) : string :=
  String.append (join_with " " (ws ++ [show_version v])) (String LF EmptyString).
Lemma version_output_ascii ws v : Forall word ws → ascii_text (version_output ws v).
Proof.
  intros Hw. apply ascii_append; [|done]. apply join_ascii. apply Forall_app. split.
  - eapply Forall_impl; [exact Hw|]. apply word_ascii.
  - constructor; [apply word_ascii, show_version_word|done].
Qed.

(** A probe of an executable that exits in time, having printed words and its version in at
    most 4096 bytes, reads that version, and the command prints it if and only if it is at
    least 1.1.7. *)
Theorem printed_versions_are_read (ws : list string) (v : Version) (run : ProbeRun) (binary : string) :
  Forall word ws → fits v → pr_output run = version_output ws v →
  (String.length (pr_output run) ≤ OUTPUT_LIMIT `min` pr_read run)%nat →
  pr_tempfile run = true → pr_clone run = true → pr_spawn run = true → pr_seek run = true →
  pr_polls run 0 = HasExited true →
  probe_codex_acp_version run = (Some v, Collected true)
  ∧ probe_main ["codex-acp-version"; binary] (λ _, run) =
    if version_ltb v MIN_CODEX_ACP_VERSION then (1, [], []) else (0, [show_version v], []).
Proof.
  intros Hw Hv Ho Hl H1 H2 H3 H4 H5.
  assert (probe_codex_acp_version run = (Some v, Collected true)) as Hp.
  { unfold probe_codex_acp_version. rewrite H1, H2, H3. cbn [andb negb].
    unfold version_polls. cbn [poll_version]. rewrite H5, H4. unfold read_output. rewrite substring_short by lia.
    rewrite Ho. pose proof (ascii_utf8 _ (version_output_ascii ws v Hw)) as Hu. apply String.eqb_eq in Hu.
    rewrite Hu. unfold version_output. by rewrite parse_version_words. }
  split; [done|]. cbn [probe_main]. rewrite Hp. done.
Qed.

(** ** What is accepted beyond what is documented *)
(** A run that exits at once, having printed this. *)
Definition prints (output : string) : ProbeRun :=
  mkProbeRun true true true true 0 (λ _, HasExited true) (λ i, Z.of_nat i * 50) output (String.length output).
Lemma prints_steady output : steady (prints output).
Proof. split; cbn; [lia|]. intros i. unfold PROBE_INTERVAL. lia. Qed.

(** Components with a sign are read as numbers. *)
Theorem signed_components_are_accepted :
  (probe_codex_acp_version (prints "codex-acp +1.+2.+3")).1 = Some (1, 2, 3).
Proof. vm_compute. reflexivity. Qed.
(** Only 4096 bytes are read: a version that goes on beyond them is cut, and a release candidate
    is read as the release. *)
Theorem long_output_is_cut :
  let padding := String.concat "" (repeat "x" 4090) in
  (probe_codex_acp_version (prints "codex-acp 1.1.7-rc1")).1 = None
  ∧ (probe_codex_acp_version (prints (String.append padding " 1.1.7-rc1"))).1 = Some (1, 1, 7).
Proof. vm_compute. split; reflexivity. Qed.
