(* ===== verification/SecretsCtl.v ===== *)
(** * buzz-secretsctl (bin/buzz-secretsctl.rs)
    The tool that encrypts backups, restores them, and keeps the owner's identity in the
    system keyring or in a key file. *)
From Stdlib Require Import ZArith Lia String Ascii.
From stdpp Require Import base gmap list strings.
From S2P Require Import Prelude RustStr Bytes Sha256 Monad Fs Json AgentFiles Custody CommunityJoin.
From S2P Require Import Diagnostics LogCapture Daemon.
#[local] Open Scope Z_scope.
#[local] Set Warnings "-notation-for-abbreviation".

Definition VERSION : Z := 1.
Definition PASSPHRASE_VERSION : Z := 1.
Definition SCRYPT_LOG_N : Z := 18.
Definition MAX_SECRET_BYTES : Z := 256 * 1024 * 1024.
Definition DEFAULT_KEYRING_SERVICE : string := "buzz-server".
Definition DEFAULT_KEYRING_NAME : string := "owner-identity".

Record Envelope : Type := mkEnvelope {
  en_version : Z; en_kms_key_id : string; en_encrypted_data_key : string; en_nonce : string;
  en_ciphertext : string; en_plaintext_sha256 : string
}.
Record PassphraseEnvelope : Type := mkPassphraseEnvelope {
  pe_version : Z; pe_kdf : string; pe_log_n : Z; pe_salt : string; pe_nonce : string;
  pe_ciphertext : string; pe_plaintext_sha256 : string
}.

(** ** What it uses of other crates
    [aes_gcm], [scrypt], [base64], [serde_json] and [nostr::nips::nip49]. *)
Class SecretsLib `{SecretKeys} : Type := {
  aes_encrypt : string → string → string → option string;  (** key, nonce, plaintext *)
  aes_decrypt : string → string → string → option string;
  (** The parameters for a cost, and the derived key of 32 bytes. *)
  scrypt : string → string → Z → result string string;
  b64_encode : string → string;
  b64_decode : string → option string;
  envelope_to_json : Envelope → string;
  envelope_of_json : string → result string Envelope;
  backup_to_json : PassphraseEnvelope → string;
  backup_of_json : string → result string PassphraseEnvelope;
  response_of_json : string → result string Json;
  EncryptedSecretKey : Type;
  nip49_new : SecretKey → string → Z → result string EncryptedSecretKey;
  nip49_to_bech32 : EncryptedSecretKey → result string string;
  nip49_from_bech32 : string → result string EncryptedSecretKey;
  nip49_log_n : EncryptedSecretKey → Z;
  nip49_decrypt : EncryptedSecretKey → string → result string SecretKey;
  secret_bech32 : SecretKey → result string string;
  public_bech32 : SecretKey → result string string
}.
(** The machine: a command's exit, output and errors (it may read files), random bytes,
    the name part of a fresh UUID, and the keyring under a service and a name. *)
Class SecretsHost (R : Type) : Type := {
  command_output : string → list string → Fs → M R string (bool * string * string);
  urandom : nat → M R string string;
  simple_uuid : R → string * R;
  keyring_entry : string → string → M R string unit;
  set_password : string → string → string → M R string unit;
  get_password : string → string → M R string string;
  delete_password : string → string → M R string unit
}.

Record Ctl (R : Type) : Type := mkCtl { ct_fs : Fs; ct_host : R; ct_printed : list string }.
Arguments mkCtl {R}. Arguments ct_fs {R}. Arguments ct_host {R}. Arguments ct_printed {R}.
#[export] Instance ctl_fs {R} : Has Fs (Ctl R) := {|
  part := ct_fs; set_part s w := mkCtl s (ct_host w) (ct_printed w) |}.
#[export] Instance ctl_host {R} : Has R (Ctl R) := {|
  part := ct_host; set_part r w := mkCtl (ct_fs w) r (ct_printed w) |}.

(** ** Arguments *)
Fixpoint optional (args : list string) (name : string) : option string :=
  match args with
  | flag :: ((value :: _) as rest) => if String.eqb flag name then Some value else optional rest name
  | _ => None
  end.
Definition usage : string := join_with newline_text
  ["usage: buzz-secretsctl encrypt --kms-key-id KEY --input FILE --output FILE [--aws-command PATH]";
   "       buzz-secretsctl decrypt --input FILE --output FILE [--aws-command PATH]";
   "       buzz-secretsctl fingerprint --input FILE";
   "       buzz-secretsctl public-key --input FILE";
   "       buzz-secretsctl public-id --input FILE";
   "       buzz-secretsctl encrypt-passphrase --input FILE --output FILE --passphrase-file FILE";
   "       buzz-secretsctl decrypt-passphrase --input FILE --output FILE --passphrase-file FILE";
   "       buzz-secretsctl export-nip49 --input FILE --output FILE --passphrase-file FILE";
   "       buzz-secretsctl import-nip49 --input FILE --output FILE --passphrase-file FILE";
   "       buzz-secretsctl persist --input FILE --key-file FILE --marker FILE [--service NAME] [--name NAME]";
   "       buzz-secretsctl materialize --output FILE --key-file FILE --marker FILE [--service NAME] [--name NAME]";
   "       buzz-secretsctl clear-local --key-file FILE --marker FILE [--service NAME] [--name NAME]"].
Definition required (args : list string) (name : string) : result string string :=
  ok_or (String.append "missing " (String.append name (String.append newline_text usage))) (optional args name).

(** [s.trim_end_matches(['\r', '\n'])] *)
Fixpoint trim_end_newlines (s : string) : string :=
  match s with
  | EmptyString => EmptyString
  | String c s =>
    match trim_end_newlines s with
    | EmptyString => if Ascii.eqb c CR || Ascii.eqb c LF then EmptyString else String c EmptyString
    | trimmed => String c trimmed
    end
  end.

Definition digest_text (bytes : string) : string := hex_digest (sha256 (bytes_of bytes)).

Section Commands.
Context `{SecretsLib} {R : Type} `{SecretsHost R}.
(** [BUZZ_DISABLE_SYSTEM_KEYRING] is set; [env::temp_dir()]. *)
Variable keyring_disabled : bool.
Variable temp_dir : Path.
#[local] Notation C A := (M (Ctl R) string A).

Definition print_line (line : string) : C unit :=
  modify (λ w, mkCtl (ct_fs w) (ct_host w) (ct_printed w ++ [line])).
Definition fs_text {A} (m : IO A) : C A := on (S := Fs) (M_map_err io_message m).
Definition fresh : C string := on (S := R) (λ r, let '(u, r) := simple_uuid r in (Ok u, r)).
Definition arg (args : list string) (name : string) : C string := of_result (required args name).
Definition path_arg (args : list string) (name : string) : C Path :=
  value ← arg args name; mret (path_of_string value).

(** ** Files *)
Definition read_error (path : Path) (e : IoError) : string :=
  String.append "cannot read " (String.append (path_text path) (String.append ": " (io_message e))).
Definition read_bounded (path : Path) : C string :=
  metadata ← on (S := Fs) (M_map_err (read_error path) (metadata path));
  if MAX_SECRET_BYTES <? len (n_data metadata) then throw "input exceeds maximum supported size"
  else on (S := Fs) (M_map_err (read_error path) (read_file path)).

(** [path.file_name()] has none for a path that ends in [..]. *)
Definition temporary_name (path : Path) (unique : string) : string :=
  let name := match file_name path with
              | Some name => if String.eqb name ".." then "secret" else name
              | None => "secret"
              end in
  String.append "." (String.append name (String.append "." (String.append unique ".tmp"))).
Definition write_new (temporary path : Path) (bytes : string) (mode : Z) : IO unit :=
  _ ← create_new temporary mode;
  _ ← write_all temporary bytes;
  _ ← sync_all temporary;
  _ ← set_permissions temporary mode;
  rename temporary path.
Definition atomic_write (path : Path) (bytes : string) (mode : Z) : C unit :=
  parent ← of_result (ok_or "output path has no parent" (parent path));
  _ ← fs_text (create_dir_all parent);
  unique ← fresh;
  fs_text (write_new (join parent (temporary_name path unique)) path bytes mode).

(** ** Backups under a key of the KMS *)
Definition run_aws (command : string) (args : list string) : C string := λ w,
  match command_output command args (ct_fs w) (ct_host w) with
  | (Err e, r) => (Err (String.append "cannot execute KMS command: " e), set_part r w)
  | (Ok (success, stdout, stderr), r) =>
    (if (success : bool) then Ok stdout
     else Err (String.append "KMS command failed: " (trim (from_utf8_lossy stderr))), set_part r w)
  end.
Definition decode_field (value : Json) (field : string) : result string string :=
  match Json.field field value ≫= as_str with
  | None => Err (String.append "KMS response omitted " field)
  | Some text => ok_or (String.append "KMS returned invalid base64 in " field) (b64_decode text)
  end.
Definition kms_key (response : string) : C (Json * string) :=
  value ← of_result (map_err (String.append "invalid KMS response: ") (response_of_json response));
  data_key ← of_result (decode_field value "Plaintext");
  if negb (len data_key =? 32) then throw "KMS returned a data key with the wrong length"
  else mret (value, data_key).
Definition fill_random (n : nat) : C string := on (S := R) (urandom n).
Definition random_nonce : C string := fill_random 12.

Definition encrypt_command (args : list string) : C unit :=
  input ← path_arg args "--input";
  output ← path_arg args "--output";
  key_id ← arg args "--kms-key-id";
  let aws := default "aws" (optional args "--aws-command") in
  plaintext ← read_bounded input;
  generated ← run_aws aws ["kms"; "generate-data-key"; "--key-id"; key_id; "--key-spec"; "AES_256";
                           "--output"; "json"];
  response ← kms_key generated;
  let '(value, data_key) := response in
  encrypted_data_key ← of_result (ok_or "KMS response omitted CiphertextBlob"
                                    (field "CiphertextBlob" value ≫= as_str));
  nonce ← random_nonce;
  ciphertext ← of_result (ok_or "encryption failed" (aes_encrypt data_key nonce plaintext));
  atomic_write output
    (envelope_to_json (mkEnvelope VERSION key_id encrypted_data_key (b64_encode nonce)
                         (b64_encode ciphertext) (digest_text plaintext))) 384 (* 0o600 *).

Definition unseal (key nonce ciphertext damaged : string) : result string string :=
  ok_or damaged (aes_decrypt key nonce ciphertext).
Definition checked (plaintext expected : string) : result string string :=
  if negb (String.eqb (digest_text plaintext) expected) then Err "plaintext digest mismatch" else Ok plaintext.

(** [let _ = fs::remove_file(path);], after a computation. *)
Definition then_discard {A} (path : Path) (m : C A) : C A := λ w,
  let '(result, w) := m w in
  let '(_, s) := remove_file path (ct_fs w) in (result, set_part s w).
(** The blob is handed over in a temporary file, which is removed again. *)
Definition kms_decrypt (aws : string) (envelope : Envelope) (encrypted_key : string) : C string :=
  unique ← fresh;
  let temporary := join temp_dir (String.append "buzz-kms-" (String.append unique ".blob")) in
  _ ← atomic_write temporary encrypted_key 384;
  then_discard temporary
    (run_aws aws ["kms"; "decrypt"; "--ciphertext-blob"; String.append "fileb://" (path_text temporary);
                  "--key-id"; en_kms_key_id envelope; "--output"; "json"]).
Definition decrypt_command (args : list string) : C unit :=
  input ← path_arg args "--input";
  output ← path_arg args "--output";
  let aws := default "aws" (optional args "--aws-command") in
  text ← read_bounded input;
  envelope ← of_result (map_err (String.append "invalid envelope: ") (envelope_of_json text));
  if negb (en_version envelope =? VERSION) then throw "unsupported envelope version"
  else
  encrypted_key ← of_result (ok_or "invalid encrypted data key" (b64_decode (en_encrypted_data_key envelope)));
  decrypted ← kms_decrypt aws envelope encrypted_key;
  response ← kms_key decrypted;
  let '(_, data_key) := response in
  nonce ← of_result (ok_or "invalid nonce" (b64_decode (en_nonce envelope)));
  if negb (len nonce =? 12) then throw "invalid nonce length"
  else
  ciphertext ← of_result (ok_or "invalid ciphertext" (b64_decode (en_ciphertext envelope)));
  plaintext ← of_result (unseal data_key nonce ciphertext "decryption authentication failed");
  plaintext ← of_result (checked plaintext (en_plaintext_sha256 envelope));
  atomic_write output plaintext 256 (* 0o400 *).

(** ** Backups under a passphrase *)
Definition passphrase (args : list string) : C string :=
  path ← path_arg args "--passphrase-file";
  value ← on (S := Fs) (M_map_err (λ e, String.append "cannot read passphrase file: " (io_message e))
                          (read_to_string path));
  let trimmed := trim_end_newlines value in
  if len trimmed <? 12 then throw "backup passphrase must be at least 12 characters" else mret trimmed.
Definition derive_passphrase_key (password salt : string) (log_n : Z) : result string string :=
  if SCRYPT_LOG_N <? log_n then Err "unsupported backup KDF cost" else scrypt password salt log_n.

Definition encrypt_passphrase_command (args : list string) : C unit :=
  input ← path_arg args "--input";
  output ← path_arg args "--output";
  password ← passphrase args;
  plaintext ← read_bounded input;
  salt ← fill_random 16;
  key ← of_result (derive_passphrase_key password salt SCRYPT_LOG_N);
  nonce ← random_nonce;
  ciphertext ← of_result (ok_or "encryption failed" (aes_encrypt key nonce plaintext));
  atomic_write output
    (backup_to_json (mkPassphraseEnvelope PASSPHRASE_VERSION "scrypt" SCRYPT_LOG_N (b64_encode salt)
                       (b64_encode nonce) (b64_encode ciphertext) (digest_text plaintext))) 384.
Definition open_backup (password : string) (env : PassphraseEnvelope) : result string string :=
  if negb (pe_version env =? PASSPHRASE_VERSION) || negb (String.eqb (pe_kdf env) "scrypt")
  then Err "unsupported passphrase envelope"
  else
  let? salt := ok_or "invalid salt" (b64_decode (pe_salt env)) in
  let? nonce := ok_or "invalid nonce" (b64_decode (pe_nonce env)) in
  let? ciphertext := ok_or "invalid ciphertext" (b64_decode (pe_ciphertext env)) in
  if negb (len nonce =? 12) then Err "invalid nonce length"
  else
  let? key := derive_passphrase_key password salt (pe_log_n env) in
  let? plaintext := unseal key nonce ciphertext "wrong passphrase or damaged backup" in
  checked plaintext (pe_plaintext_sha256 env).
Definition decrypt_passphrase_command (args : list string) : C unit :=
  input ← path_arg args "--input";
  output ← path_arg args "--output";
  password ← passphrase args;
  text ← read_bounded input;
  env ← of_result (map_err (String.append "invalid passphrase envelope: ") (backup_of_json text));
  plaintext ← of_result (open_backup password env);
  atomic_write output plaintext 256.

(** ** NIP-49 *)
Definition utf8_text (invalid : string) (bytes : string) : result string string :=
  if is_utf8 bytes then Ok bytes else Err invalid.
Definition export_nip49_command (args : list string) : C unit :=
  input ← path_arg args "--input";
  output ← path_arg args "--output";
  password ← passphrase args;
  bytes ← read_bounded input;
  raw ← of_result (utf8_text "owner secret is not UTF-8" bytes);
  keys ← of_result (ok_or "owner secret is not a valid Nostr secret" (Keys_parse (trim raw)));
  encrypted ← of_result (map_err (String.append "encrypt NIP-49 backup: ") (nip49_new keys password SCRYPT_LOG_N));
  encoded ← of_result (nip49_to_bech32 encrypted);
  reread ← of_result (nip49_from_bech32 encoded);
  recovered ← of_result (nip49_decrypt reread password);
  if negb (String.eqb (public_key_hex recovered) (public_key_hex keys)) then throw "NIP-49 verification failed"
  else atomic_write output encoded 256.
Definition import_nip49_command (args : list string) : C unit :=
  input ← path_arg args "--input";
  output ← path_arg args "--output";
  password ← passphrase args;
  encoded ← fs_text (read_to_string input);
  encrypted ← of_result (map_err (String.append "invalid NIP-49 backup: ") (nip49_from_bech32 (trim encoded)));
  if SCRYPT_LOG_N <? nip49_log_n encrypted then throw "unsupported NIP-49 KDF cost"
  else
  secret ← of_result (map_err (λ _, "wrong passphrase or damaged NIP-49 backup") (nip49_decrypt encrypted password));
  nsec ← of_result (secret_bech32 secret);
  atomic_write output nsec 256.

(** ** Printing *)
Definition fingerprint_command (args : list string) : C unit :=
  input ← path_arg args "--input";
  bytes ← read_bounded input;
  print_line (String.append "sha256:" (digest_text bytes)).
Definition input_keys (args : list string) : C SecretKey :=
  input ← path_arg args "--input";
  bytes ← read_bounded input;
  secret ← of_result (utf8_text "Nostr secret is not valid UTF-8" bytes);
  of_result (ok_or "input is not a valid Nostr secret" (Keys_parse (trim secret))).
Definition public_key_command (args : list string) : C unit :=
  keys ← input_keys args; print_line (public_key_hex keys).
Definition public_id_command (args : list string) : C unit :=
  keys ← input_keys args; id ← of_result (public_bech32 keys); print_line id.

(** ** The identity of the owner *)
Definition service_of (args : list string) : string := default DEFAULT_KEYRING_SERVICE (optional args "--service").
Definition name_of (args : list string) : string := default DEFAULT_KEYRING_NAME (optional args "--name").

(** The keyring took the secret and gives it back. *)
Definition keyring_keeps (service name secret : string) : M R string bool := λ r,
  match (_ ← keyring_entry service name; _ ← set_password service name secret; get_password service name) r with
  | (Ok stored, r) => (Ok (String.eqb stored secret), r)
  | (Err _, r) => (Ok false, r)
  end.
Definition discard (path : Path) : C unit := then_discard path (mret tt).

Definition persist_command (args : list string) : C unit :=
  input ← path_arg args "--input";
  key_file ← path_arg args "--key-file";
  marker ← path_arg args "--marker";
  secret ← read_bounded input;
  text ← of_result (utf8_text "owner secret is not UTF-8" secret);
  let secret_text := trim text in
  _ ← of_result (ok_or "owner secret is not a valid Nostr secret" (Keys_parse secret_text));
  kept ← (if keyring_disabled then mret false
          else on (S := R) (keyring_keeps (service_of args) (name_of args) secret_text));
  if (kept : bool) then
    _ ← atomic_write marker (String.append "system-keyring" newline_text) 384;
    _ ← discard key_file;
    print_line "system-keyring"
  else
    _ ← atomic_write key_file secret_text 256;
    readback ← read_bounded key_file;
    if negb (String.eqb readback secret_text) then throw "owner key-file read-back verification failed"
    else
    _ ← discard marker;
    print_line "key-file".

Definition from_keyring (service name : string) : M R string (option string) := λ r,
  match (_ ← keyring_entry service name; get_password service name) r with
  | (Ok secret, r) => (Ok (Some secret), r)
  | (Err _, r) => (Ok None, r)
  end.
Definition materialize_command (args : list string) : C unit :=
  output ← path_arg args "--output";
  key_file ← path_arg args "--key-file";
  marker ← path_arg args "--marker";
  marked ← fs_text (path_exists marker);
  if (marked : bool) then
    stored ← (if keyring_disabled then mret None else on (S := R) (from_keyring (service_of args) (name_of args)));
    match stored with
    | Some secret =>
      _ ← of_result (ok_or "system keyring contains an invalid owner secret" (Keys_parse (trim secret)));
      atomic_write output (trim secret) 256
    | None => throw "identity is recorded in the system keyring, but the keyring is unavailable or the entry is missing"
    end
  else
    filed ← fs_text (path_exists key_file);
    if (filed : bool) then
      secret ← read_bounded key_file;
      text ← of_result (utf8_text "owner key file is not UTF-8" secret);
      _ ← of_result (ok_or "owner key file contains an invalid secret" (Keys_parse (trim text)));
      atomic_write output (trim text) 256
    else throw "no persisted identity was found".

Definition forget (service name : string) : M R string unit := λ r,
  let '(_, r) := (_ ← keyring_entry service name; delete_password service name) r in (Ok tt, r).
Definition clear_local_command (args : list string) : C unit :=
  key_file ← path_arg args "--key-file";
  marker ← path_arg args "--marker";
  _ ← on (S := R) (forget (service_of args) (name_of args));
  _ ← discard key_file;
  discard marker.

Definition run (args : list string) : C unit :=
  match args with
  | [] => throw usage
  | command :: args =>
    if String.eqb command "encrypt" then encrypt_command args
    else if String.eqb command "decrypt" then decrypt_command args
    else if String.eqb command "fingerprint" then fingerprint_command args
    else if String.eqb command "public-key" then public_key_command args
    else if String.eqb command "public-id" then public_id_command args
    else if String.eqb command "encrypt-passphrase" then encrypt_passphrase_command args
    else if String.eqb command "decrypt-passphrase" then decrypt_passphrase_command args
    else if String.eqb command "export-nip49" then export_nip49_command args
    else if String.eqb command "import-nip49" then import_nip49_command args
    else if String.eqb command "persist" then persist_command args
    else if String.eqb command "materialize" then materialize_command args
    else if String.eqb command "clear-local" then clear_local_command args
    else throw usage
  end.
End Commands.
