(* ===== verification/SecretsProps.v ===== *)
(** * What buzz-secretsctl keeps and restores
    A file is written whole or not at all; a backup opens to the bytes it was made from; an
    identity that was persisted can be materialised. *)
From Stdlib Require Import ZArith Lia String Ascii.
From stdpp Require Import base gmap list strings.
From S2P Require Import Prelude RustStr Bytes Sha256 Monad Fs Json AgentFiles Custody CommunityJoin.
From S2P Require Import Diagnostics LogCapture Daemon Process Supervisor ProcFiles SecretsCtl.
#[local] Open Scope Z_scope.
#[local] Set Warnings "-notation-for-abbreviation".

(** ** Calls add no faults *)
Definition unfaulted (s s' : Fs) : Prop := fs_faults s = [] → fs_faults s' = [].
#[export] Instance unfaulted_preorder : PreOrder unfaulted.
Proof. split; [by intros s ?|]. intros a b c Hab Hbc Ha. by apply Hbc, Hab. Qed.
Lemma unfaulted_atomic {A} (m : IO A) : (∀ s, fs_faults (m s).2 = fs_faults s) → always unfaulted (atomic_call m).
Proof. intros Hm s Hf. unfold atomic_call. by rewrite call_quiet, Hm. Qed.
Lemma unfaulted_create_dir_all p : always unfaulted (create_dir_all p).
Proof.
  apply unfaulted_atomic. intros s. generalize (prefixes [] (p_components p)) as l. intros l. revert s.
  induction l as [|c l IH]; intros s; cbn; [done|]. unfold mbind, M_bind, ensure_dir.
  destruct (fs_nodes s !! _) as [n|]; [|by rewrite IH].
  destruct (is_kind RegularFile n || is_kind Socket n); [done|]. by rewrite IH.
Qed.
Lemma unfaulted_create_new p mode : always unfaulted (create_new p mode).
Proof. apply unfaulted_atomic. intros s. unfold insert_absent. by destruct (fs_nodes s !! p). Qed.
Lemma unfaulted_write_all p d : always unfaulted (write_all p d).
Proof. intros s Hf. unfold write_all. by rewrite call_quiet. Qed.
Lemma unfaulted_sync_all p : always unfaulted (sync_all p).
Proof. by apply unfaulted_atomic. Qed.
Lemma unfaulted_set_permissions p mode : always unfaulted (set_permissions p mode).
Proof.
  apply unfaulted_atomic. intros s. unfold mbind, M_bind. pose proof (real_path_state MAX_SYMLINKS p s) as Hs.
  destruct (real_path MAX_SYMLINKS p s) as [[q|e] s1]; cbn in *; by subst.
Qed.
Lemma unfaulted_rename from to : always unfaulted (rename from to).
Proof. apply unfaulted_atomic. intros s. unfold mbind, M_bind, node_at. by destruct (fs_nodes s !! from). Qed.
Lemma unfaulted_remove_file p : always unfaulted (remove_file p).
Proof.
  apply unfaulted_atomic. intros s. unfold mbind, M_bind, node_at. destruct (fs_nodes s !! p) as [n|]; [|done].
  by destruct (is_kind Directory n).
Qed.
Lemma unfaulted_metadata p : always unfaulted (metadata p).
Proof. apply unfaulted_atomic. intros s. by rewrite follow_state. Qed.
Lemma unfaulted_read_file p : always unfaulted (read_file p).
Proof.
  apply unfaulted_atomic. intros s. unfold mbind, M_bind. pose proof (follow_state MAX_SYMLINKS p s) as Hs.
  destruct (follow MAX_SYMLINKS p s) as [[n|e] s1]; cbn in *; subst; [|done]. by destruct (is_kind Directory n).
Qed.
Lemma unfaulted_write_new tmp path bytes mode : always unfaulted (write_new tmp path bytes mode).
Proof.
  unfold write_new.
  repeat first [apply (always_bind unfaulted); [|intros _]]; first
    [apply unfaulted_create_new|apply unfaulted_write_all|apply unfaulted_sync_all|apply unfaulted_set_permissions|apply unfaulted_rename].
Qed.

(** ** Writing a file *)
Lemma write_new_split tmp path bytes mode s :
  write_new tmp path bytes mode s
  = (_ ← create_new tmp mode; _ ← (_ ← write_all tmp bytes; _ ← sync_all tmp; set_permissions tmp mode);
     rename tmp path) s.
Proof.
  unfold write_new, mbind, M_bind. destruct (create_new tmp mode s) as [[[]|] s1]; [|done].
  destruct (write_all tmp bytes s1) as [[[]|] s2]; [|done]. by destruct (sync_all tmp s2) as [[[]|] s3].
Qed.
(** Entries that exist stay as they are, all but [path]; it is the new file or unchanged. *)
Definition replaced {E} (path : Path) (file : Node) (r : result E unit) (s s' : Fs) : Prop :=
  (∀ q, q ≠ path → is_Some (fs_nodes s !! q) → fs_nodes s' !! q = fs_nodes s !! q)
  ∧ match r with
    | Ok _ => fs_nodes s' !! path = Some file
    | Err _ => fs_nodes s' !! path = fs_nodes s !! path
    end.

Lemma create_new_err p mode s e s' : create_new p mode s = (Err e, s') → nodes_kept s s'.
Proof.
  unfold create_new, atomic_call, call, insert_absent.
  destruct (fs_faults s) as [|[[? ?]|] rest]; cbn; try (destruct (fs_nodes s !! p); [|done]); by intros [= _ <-].
Qed.
(** Between the creation of the temporary file and the rename. *)
Lemma fill_new_effect tmp bytes mode s s1 r s' :
  fs_nodes s !! tmp = None → fs_nodes s1 = <[tmp := mkNode RegularFile mode (fs_uid s) ""]> (fs_nodes s) →
  (_ ← write_all tmp bytes; _ ← sync_all tmp; set_permissions tmp mode) s1 = (r, s') →
  only_at tmp s s' ∧ (r = Ok tt → fs_nodes s' !! tmp = Some (mkNode RegularFile mode (fs_uid s) bytes)).
Proof.
  intros Hfree E1 Hr.
  assert (only_at tmp s s1) as O1 by (intros q Hq; by rewrite E1, lookup_insert_ne).
  pose proof (only_at_write_all tmp bytes s1) as O2.
  apply bind_run in Hr as [(e & E2 & ->)|([] & s2 & E2 & Hr)]; rewrite E2 in O2; cbn [snd] in O2; [by split; [etrans|]|].
  apply write_all_ok in E2. pose proof (kept_sync_all tmp s2) as O3.
  apply bind_run in Hr as [(e & E3 & ->)|([] & s3 & E3 & Hr)]; rewrite E3 in O3; cbn [snd] in O3;
    [by split; [etrans; [exact O1|]; etrans; [exact O2|apply kept_only_at]|]|].
  assert (fs_nodes s3 !! tmp = Some (mkNode RegularFile mode (fs_uid s) bytes)) as Htmp
    by (unfold nodes_kept in O3; by rewrite O3, E2, E1, lookup_alter_eq, lookup_insert_eq).
  assert (plain_at tmp s3) as Hplain by (intros n; rewrite Htmp; by intros [= <-]).
  pose proof (only_at_change_target (with_mode mode) tmp s3 Hplain) as O4.
  pose proof (change_target_plain (with_mode mode) tmp s3 Hplain) as P4.
  unfold set_permissions in Hr. rewrite Hr in O4, P4. cbn [fst snd] in O4, P4. split.
  - etrans; [exact O1|]. etrans; [exact O2|]. etrans; [by apply kept_only_at|done].
  - intros ->. destruct P4 as (n & Hn & P4). rewrite Htmp in Hn. injection Hn as <-.
    by rewrite P4, lookup_insert_eq.
Qed.

Lemma write_new_effect tmp path bytes mode s r s' :
  write_new tmp path bytes mode s = (r, s') →
  match r with
  | Ok _ => fs_nodes s' = <[path := mkNode RegularFile mode (fs_uid s) bytes]> (fs_nodes s)
  | Err _ => (∀ q, is_Some (fs_nodes s !! q) → fs_nodes s' !! q = fs_nodes s !! q)
             ∧ (tmp ≠ path → fs_nodes s' !! path = fs_nodes s !! path)
  end.
Proof.
  rewrite write_new_split. intros Hr.
  apply bind_run in Hr as [(e & E1 & ->)|([] & s1 & E1 & Hr)].
  { apply create_new_err in E1. unfold nodes_kept in E1. by rewrite E1. }
  apply create_new_ok in E1 as [Hfree E1].
  assert (∀ s2, only_at tmp s s2 → (∀ q, is_Some (fs_nodes s !! q) → fs_nodes s2 !! q = fs_nodes s !! q)
    ∧ (tmp ≠ path → fs_nodes s2 !! path = fs_nodes s !! path)) as Hfail.
  { intros s2 Ho. split; [|auto]. intros q [n Hn]. apply Ho. intros ->. congruence. }
  apply bind_run in Hr as [(e & E2 & ->)|([] & s2 & E2 & Hr)];
    destruct (fill_new_effect _ _ _ _ _ _ _ Hfree E1 E2) as [O2 Htmp]; [by apply Hfail|].
  specialize (Htmp eq_refl).
  destruct r as [[]|e]; [|apply rename_err in Hr; apply Hfail; by etrans; [|apply kept_only_at]].
  apply rename_ok in Hr as (n & Hn & ->). rewrite Htmp in Hn. injection Hn as <-.
  apply map_eq. intros q. destruct (decide (q = path)) as [->|Hq]; [by rewrite !lookup_insert_eq|].
  rewrite !lookup_insert_ne by done. destruct (decide (q = tmp)) as [->|Ht]; [by rewrite lookup_delete_eq|].
  rewrite lookup_delete_ne by done. by apply O2.
Qed.

Lemma temporary_longer path unique name :
  file_name path = Some name → temporary_name path unique ≠ name.
Proof.
  intros Hf. unfold temporary_name. rewrite Hf. destruct (String.eqb name "..") eqn:E.
  - apply String.eqb_eq in E as ->. done.
  - intros K. apply (f_equal String.length) in K. rewrite !length_append in K. cbn in K. lia.
Qed.
Lemma temporary_differs dir path unique : join dir (temporary_name path unique) ≠ path.
Proof.
  intros E. apply (temporary_longer path unique (temporary_name path unique)); [|done].
  unfold file_name. rewrite <- E at 1. cbn. apply last_snoc.
Qed.

Lemma parent_shorter p dir :
  parent p = Some dir → (List.length (p_components dir) < List.length (p_components p))%nat.
Proof.
  unfold parent. destruct (p_components p) as [|c cs]; [done|]. intros [= <-]. cbn [p_components List.length].
  revert c. induction cs as [|d cs IH]; intros c; [cbn; lia|]. specialize (IH d). cbn in *. lia.
Qed.

Lemma leads_to_node s p n : plain_at p s → leads_to s p n → fs_nodes s !! p = Some n.
Proof.
  unfold leads_to, target_of. cbn. intros Hp Hl. destruct (fs_nodes s !! p) as [m|] eqn:Em; [|done].
  specialize (Hp m Em). unfold is_symlink in Hp. cbn in Hl. by destruct (n_kind m).
Qed.

Section Files.
Context `{SecretsLib} {R : Type} `{SecretsHost R}.
Implicit Types w : Ctl R.

(** What is printed stays; an absence of faults stays. *)
Record steady (w w' : Ctl R) : Prop := {
  st_printed : ct_printed w' = ct_printed w;
  st_uid : fs_uid (ct_fs w') = fs_uid (ct_fs w);
  st_unfaulted : unfaulted (ct_fs w) (ct_fs w')
}.
#[export] Instance steady_preorder : PreOrder steady.
Proof.
  split; [by intros w; split|]. intros a b c [] []. split; [congruence|congruence|by etrans].
Qed.

Lemma fs_uid_write_new tmp path bytes mode s : fs_uid (write_new tmp path bytes mode s).2 = fs_uid s.
Proof.
  set (Q := λ s s' : Fs, fs_uid s' = fs_uid s).
  assert (PreOrder Q) by (unfold Q; split; [done|]; intros a b c; congruence).
  assert (always Q (write_new tmp path bytes mode)) as Hq; [|apply (Hq s)].
  unfold write_new. repeat first [apply (always_bind Q); [|intros _]].
  - intros t. apply fs_uid_create_new.
  - intros t. unfold Q, write_all, call. by destruct (fs_faults t) as [|[[? ?]|] ?].
  - intros t. by apply fs_uid_atomic.
  - intros t. apply fs_uid_atomic. intros t1. unfold mbind, M_bind.
    pose proof (real_path_state MAX_SYMLINKS tmp t1) as Hs.
    destruct (real_path MAX_SYMLINKS tmp t1) as [[q|e] s1]; cbn in *; by subst.
  - intros t. apply fs_uid_atomic. intros t1. unfold mbind, M_bind, node_at. by destruct (fs_nodes t1 !! tmp).
Qed.

(** A success creates the directories above and then the file; a failure may leave new
    entries, but what was there is as before. *)
Lemma atomic_write_run path bytes mode w r w' :
  atomic_write path bytes mode w = (r, w') →
  steady w w'
  ∧ match r with
    | Ok _ => ∃ s1 depth, dirs_grow depth (ct_fs w) s1 ∧ (depth < List.length (p_components path))%nat
        ∧ fs_nodes (ct_fs w') = <[path := mkNode RegularFile mode (fs_uid (ct_fs w)) bytes]> (fs_nodes s1)
    | Err _ => (∀ q, is_Some (fs_nodes (ct_fs w) !! q) → fs_nodes (ct_fs w') !! q = fs_nodes (ct_fs w) !! q)
               ∧ fs_nodes (ct_fs w') !! path = fs_nodes (ct_fs w) !! path
    end.
Proof.
  unfold atomic_write. intros Hr.
  apply bind_run in Hr as [(e & [= _ <-] & ->)|(dir & w0 & [= Hp <-] & Hr)]; [by split|].
  assert (parent path = Some dir) as Hpar by (destruct (parent path); [by injection Hp as ->|done]). clear Hp.
  apply parent_shorter in Hpar. unfold fs_text, on, M_map_err in Hr. cbn [part ctl_fs] in Hr.
  pose proof (create_dir_all_grow dir (ct_fs w)) as Hg. pose proof (fs_uid_create_dir_all dir (ct_fs w)) as Hu.
  pose proof (unfaulted_create_dir_all dir (ct_fs w)) as Hf.
  unfold mbind at 1, M_bind at 1 in Hr.
  destruct (create_dir_all dir (ct_fs w)) as [r1 s1] eqn:E1. cbn [snd] in Hg, Hu, Hf.
  assert (∀ q, is_Some (fs_nodes (ct_fs w) !! q) → fs_nodes s1 !! q = fs_nodes (ct_fs w) !! q) as Hold.
  { intros q [n Hn]. destruct (Hg q) as [->|[Hnone _]]; [done|congruence]. }
  assert (fs_nodes s1 !! path = fs_nodes (ct_fs w) !! path) as Hpath.
  { destruct (Hg path) as [->|(_ & Hl & _)]; [done|lia]. }
  destruct r1 as [[]|e]; cbn [map_err] in Hr; [|injection Hr as <- <-; by split].
  unfold fresh, on, mbind, M_bind in Hr. cbn in Hr.
  destruct (simple_uuid (ct_host w)) as [unique h1]. cbn in Hr.
  set (tmp := join dir (temporary_name path unique)).
  change (write_new _ path bytes mode s1) with (write_new tmp path bytes mode s1) in Hr.
  pose proof (fs_uid_write_new tmp path bytes mode s1) as Hu2. pose proof (unfaulted_write_new tmp path bytes mode s1) as Hf2.
  destruct (write_new tmp path bytes mode s1) as [r2 s2] eqn:E2. cbn [snd] in Hu2, Hf2.
  apply write_new_effect in E2. injection Hr as <- <-.
  split; [split; cbn; [done|congruence|by etrans]|]. cbn [ct_fs].
  destruct r2 as [[]|e]; cbn [map_err].
  - exists s1, (List.length (p_components dir)). split_and!; [done|done|by rewrite <- Hu].
  - destruct E2 as [Hq Hres]. split; [|rewrite Hres; [done|apply temporary_differs]].
    intros q Hs. rewrite <- Hold by done. apply Hq. by rewrite Hold.
Qed.
Lemma atomic_write_effect path bytes mode w r w' :
  atomic_write path bytes mode w = (r, w') →
  replaced path (mkNode RegularFile mode (fs_uid (ct_fs w)) bytes) r (ct_fs w) (ct_fs w') ∧ steady w w'.
Proof.
  intros [Hs Hr]%atomic_write_run. split; [|done]. destruct r as [[]|e].
  - destruct Hr as (s1 & depth & Hg & _ & Hr). unfold replaced. rewrite Hr. split; [|by rewrite lookup_insert_eq].
    intros q Hq [n Hn]. rewrite lookup_insert_ne by done. destruct (Hg q) as [->|[Hnone _]]; [done|congruence].
  - destruct Hr as [Hq Hp]. split; [by intros q _; apply Hq|done].
Qed.
(** An entry at least as deep as the file that was written is as before. *)
Lemma atomic_write_deep path bytes mode w w' q :
  atomic_write path bytes mode w = (Ok tt, w') → q ≠ path →
  (List.length (p_components path) ≤ List.length (p_components q))%nat →
  fs_nodes (ct_fs w') !! q = fs_nodes (ct_fs w) !! q.
Proof.
  intros [_ (s1 & depth & Hg & Hd & Hr)]%atomic_write_run Hq Hl. rewrite Hr, lookup_insert_ne by done.
  destruct (Hg q) as [->|(_ & Hd' & _)]; [done|lia].
Qed.

(** Reading changes nothing but the faults still to come. *)
Record reading (w w' : Ctl R) : Prop := {
  rd_nodes : nodes_kept (ct_fs w) (ct_fs w');
  rd_host : ct_host w' = ct_host w;
  rd_steady : steady w w'
}.
#[export] Instance reading_preorder : PreOrder reading.
Proof. split; [by intros w; split|]. intros a b c [] []. split; [by etrans|congruence|by etrans]. Qed.
Lemma reading_on {E A} (m : IO A) (f : IoError → E) :
  always nodes_kept m → always unfaulted m → (∀ s, fs_uid (m s).2 = fs_uid s) →
  always reading (on (W := Ctl R) (M_map_err f m)).
Proof.
  intros Hk Hf Hu w. specialize (Hk (ct_fs w)). specialize (Hf (ct_fs w)). specialize (Hu (ct_fs w)).
  unfold on, M_map_err. cbn [part ctl_fs]. destruct (m (ct_fs w)). by repeat split.
Qed.
Lemma fs_uid_follow k p s : fs_uid (follow k p s).2 = fs_uid s.
Proof. by rewrite follow_state. Qed.
Lemma fs_uid_read_file p s : fs_uid (read_file p s).2 = fs_uid s.
Proof.
  apply fs_uid_atomic. intros t. unfold mbind, M_bind. pose proof (follow_state MAX_SYMLINKS p t) as Hs.
  destruct (follow MAX_SYMLINKS p t) as [[n|e] t1]; cbn in *; subst; [|done]. by destruct (is_kind Directory n).
Qed.
Lemma reading_metadata {E} p (f : IoError → E) : always reading (on (W := Ctl R) (M_map_err f (metadata p))).
Proof.
  apply reading_on; [apply kept_metadata|apply unfaulted_metadata|].
  intros s. apply fs_uid_atomic, fs_uid_follow.
Qed.
Lemma reading_file {E} p (f : IoError → E) : always reading (on (W := Ctl R) (M_map_err f (read_file p))).
Proof. apply reading_on; [apply kept_read_file|apply unfaulted_read_file|apply fs_uid_read_file]. Qed.

Lemma read_bounded_ok path w data w' :
  read_bounded path w = (Ok data, w') →
  reading w w' ∧ ∃ n, leads_to (ct_fs w) path n ∧ data = n_data n ∧ n_kind n ≠ Directory
                      ∧ len data ≤ MAX_SECRET_BYTES.
Proof.
  unfold read_bounded. intros (m & w1 & E1 & Hr)%bind_ok.
  pose proof (always_run _ _ _ _ _ (reading_metadata path (read_error path)) E1) as R1.
  destruct (MAX_SECRET_BYTES <? len (n_data m)) eqn:Em; [done|].
  pose proof (always_run _ _ _ _ _ (reading_file path (read_error path)) Hr) as R2.
  split; [by etrans|]. unfold on, M_map_err in E1, Hr. cbn [part ctl_fs] in E1, Hr.
  destruct (read_file path (ct_fs w1)) as [[d|e] s2] eqn:Ef; [|done]. injection Hr as -> _.
  destruct (metadata path (ct_fs w)) as [[m'|e] s1] eqn:Ea; [|done]. injection E1 as -> <-.
  apply read_file_ok in Ef as (n & Hl & Hd & Hk).
  apply (leads_to_kept _ _ _ _ (rd_nodes _ _ R1)) in Hl.
  assert (leads_to (ct_fs w) path m) as Hm.
  { apply atomic_call_ok in Ea as (s0 & K0 & _ & Ea). apply follow_target in Ea as [_ Ea].
    by apply (leads_to_kept (ct_fs w) s0). }
  unfold leads_to in Hl, Hm. rewrite Hl in Hm. injection Hm as ->.
  exists m. apply Z.ltb_ge in Em. rewrite Hd in Em. done.
Qed.
Lemma read_bounded_quiet path w n :
  fs_faults (ct_fs w) = [] → leads_to (ct_fs w) path n → n_kind n ≠ Directory →
  len (n_data n) ≤ MAX_SECRET_BYTES → read_bounded path w = (Ok (n_data n), w).
Proof.
  intros Hf Hl Hk Hlen. unfold read_bounded, mbind, M_bind, on, M_map_err. cbn [part ctl_fs].
  unfold metadata, atomic_call at 1. rewrite call_quiet by done.
  rewrite (proj2 (follow_target MAX_SYMLINKS path (ct_fs w) n (ct_fs w))) by done. cbn [map_err].
  apply Z.ltb_ge in Hlen. rewrite Hlen. cbn [ct_fs set_part ctl_fs].
  rewrite (read_file_quiet path (ct_fs w) n) by done. by destruct w.
Qed.

Lemma unfaulted_read_to_string p : always unfaulted (read_to_string p).
Proof. unfold read_to_string. always_steps. apply unfaulted_read_file. Qed.
Lemma fs_uid_read_to_string p s : fs_uid (read_to_string p s).2 = fs_uid s.
Proof.
  unfold read_to_string, mbind, M_bind. pose proof (fs_uid_read_file p s) as Hs.
  destruct (read_file p s) as [[d|e] s1]; [by destruct (is_utf8 d)|done].
Qed.
Lemma reading_bounded path : always reading (read_bounded path).
Proof. unfold read_bounded. always_steps; [apply reading_metadata|apply reading_file]. Qed.
Lemma reading_passphrase args : always reading (passphrase args).
Proof.
  unfold passphrase, path_arg, arg. always_steps.
  apply reading_on; [apply kept_read_to_string|apply unfaulted_read_to_string|apply fs_uid_read_to_string].
Qed.

(** The passphrase is what the file holds, without the newlines at its end. *)
Lemma passphrase_ok args name w password w' :
  optional args "--passphrase-file" = Some name → passphrase args w = (Ok password, w') →
  reading w w' ∧ 12 ≤ len password
  ∧ ∃ n, leads_to (ct_fs w) (path_of_string name) n ∧ is_utf8 (n_data n) = true ∧ n_kind n ≠ Directory
         ∧ password = trim_end_newlines (n_data n).
Proof.
  intros Ho. unfold passphrase, path_arg, arg, required. rewrite Ho. unfold mbind at 1 2, M_bind at 1 2. cbn.
  intros (value & w1 & E1 & Hr)%bind_ok. destruct (len (trim_end_newlines value) <? 12) eqn:El; [done|].
  injection Hr as <- <-. apply Z.ltb_ge in El.
  unfold on, M_map_err, read_to_string, mbind, M_bind in E1. cbn [part ctl_fs] in E1.
  pose proof (reading_file (path_of_string name) id w) as R1. unfold on, M_map_err in R1. cbn [part ctl_fs] in R1.
  destruct (read_file (path_of_string name) (ct_fs w)) as [[d|e] s1] eqn:Ef; [|done]. cbn in R1.
  destruct (is_utf8 d) eqn:Eu; [|done]. injection E1 as <- <-. split; [done|]. split; [done|].
  apply read_file_ok in Ef as (n & Hl & <- & Hk). by exists n.
Qed.
Lemma passphrase_quiet args name w n :
  optional args "--passphrase-file" = Some name → fs_faults (ct_fs w) = [] →
  leads_to (ct_fs w) (path_of_string name) n → is_utf8 (n_data n) = true → n_kind n ≠ Directory →
  12 ≤ len (trim_end_newlines (n_data n)) →
  passphrase args w = (Ok (trim_end_newlines (n_data n)), w).
Proof.
  intros Ho Hf Hl Hu Hk Hlen. unfold passphrase, path_arg, arg, required. rewrite Ho.
  unfold read_to_string, mbind, M_bind, on, M_map_err. cbn [ok_or of_result mret M_ret part ctl_fs].
  rewrite (read_file_quiet _ (ct_fs w) n) by done. rewrite Hu. cbn.
  apply Z.ltb_ge in Hlen. rewrite Hlen. by destruct w.
Qed.
End Files.

(** ** What the theorems use of the crates and of the host *)
Class SecretsLaws `{SecretsLib} : Prop := {
  b64_round_trip s : b64_decode (b64_encode s) = Some s;
  aes_round_trip key nonce plaintext ciphertext :
    aes_encrypt key nonce plaintext = Some ciphertext → aes_decrypt key nonce ciphertext = Some plaintext;
  backup_json_round_trip e : backup_of_json (backup_to_json e) = Ok e;
  (** A secret is hexadecimal or bech32 text. *)
  parsed_text s k : Keys_parse s = Some k → all_bytes ascii_graphic s = true
}.
Class SecretsHostLaws (R : Type) `{SecretsHost R} : Type := {
  urandom_length n r s r' : urandom n r = (Ok s, r') → len s = Z.of_nat n;
  (** The keyring holds a password; drawing names does not change it. *)
  keyring_has : R → string → string → string → Prop;
  keyring_got service name r x r' : get_password service name r = (Ok x, r') → keyring_has r' service name x;
  keyring_uuid service name r x :
    keyring_has r service name x → keyring_has (simple_uuid r).2 service name x;
  keyring_read service name r x : keyring_has r service name x →
    ∃ r1 r2, keyring_entry service name r = (Ok tt, r1) ∧ get_password service name r1 = (Ok x, r2)
}.

Section Backups.
Context `{SL : SecretsLib} `{!SecretsLaws} {R : Type} `{SecretsHost R} `{!SecretsHostLaws R}.
Variable keyring_disabled : bool.
Variable temp_dir : Path.
Implicit Types w : Ctl R.

Lemma path_arg_run args name value w :
  optional args name = Some value → path_arg args name w = (Ok (path_of_string value), w).
Proof. unfold path_arg, arg, required. by intros ->. Qed.
Lemma random_run n w s w' :
  fill_random n w = (Ok s, w') → len s = Z.of_nat n ∧ ct_fs w' = ct_fs w ∧ ct_printed w' = ct_printed w.
Proof.
  unfold fill_random, on. cbn. destruct (urandom n (ct_host w)) as [x r] eqn:E. intros [= -> <-].
  by apply urandom_length in E.
Qed.

Definition backup_of (key salt nonce ciphertext plaintext : string) : PassphraseEnvelope :=
  mkPassphraseEnvelope PASSPHRASE_VERSION "scrypt" SCRYPT_LOG_N (b64_encode salt) (b64_encode nonce)
    (b64_encode ciphertext) (digest_text plaintext).
Lemma open_backup_of password key salt nonce ciphertext plaintext :
  derive_passphrase_key password salt SCRYPT_LOG_N = Ok key → len nonce = 12 →
  aes_encrypt key nonce plaintext = Some ciphertext →
  open_backup password (backup_of key salt nonce ciphertext plaintext) = Ok plaintext.
Proof.
  intros Hk Hn Ha. unfold open_backup, backup_of, unseal, checked.
  cbn [pe_version pe_kdf pe_log_n pe_salt pe_nonce pe_ciphertext pe_plaintext_sha256].
  rewrite !b64_round_trip. cbn [ok_or]. rewrite Hn, Hk. cbn.
  rewrite (aes_round_trip _ _ _ _ Ha). cbn. by rewrite String.eqb_refl.
Qed.

Lemma open_backup_digest password env plaintext :
  open_backup password env = Ok plaintext → digest_text plaintext = pe_plaintext_sha256 env.
Proof.
  unfold open_backup, checked. intros Ho. steps_in Ho. injection Ho as ->.
  match goal with E : negb (String.eqb _ _) = false |- _ => by apply negb_false_iff, String.eqb_eq in E end.
Qed.

(** What a successful encryption did. *)
Lemma encrypt_passphrase_ok args input output pass w w1 :
  optional args "--input" = Some input → optional args "--output" = Some output →
  optional args "--passphrase-file" = Some pass →
  encrypt_passphrase_command args w = (Ok tt, w1) →
  ∃ np n key salt nonce ciphertext w0,
    leads_to (ct_fs w) (path_of_string pass) np ∧ is_utf8 (n_data np) = true ∧ n_kind np ≠ Directory
    ∧ 12 ≤ len (trim_end_newlines (n_data np))
    ∧ leads_to (ct_fs w) (path_of_string input) n
    ∧ derive_passphrase_key (trim_end_newlines (n_data np)) salt SCRYPT_LOG_N = Ok key ∧ len nonce = 12
    ∧ aes_encrypt key nonce (n_data n) = Some ciphertext ∧ nodes_kept (ct_fs w) (ct_fs w0)
    ∧ atomic_write (path_of_string output) (backup_to_json (backup_of key salt nonce ciphertext (n_data n))) 384 w0
      = (Ok tt, w1).
Proof.
  intros Hi Ho Hp. unfold encrypt_passphrase_command.
  rewrite (bind_after _ _ _ _ _ (path_arg_run _ _ _ _ Hi)), (bind_after _ _ _ _ _ (path_arg_run _ _ _ _ Ho)).
  intros (password & wa & Ep & Hr)%bind_ok. apply (passphrase_ok _ _ _ _ _ Hp) in Ep as (Ra & Hl & np & ? & ? & ? & ->).
  apply bind_ok in Hr as (plaintext & wb & Er & Hr). apply read_bounded_ok in Er as (Rb & n & Hn & -> & _ & _).
  apply bind_ok in Hr as (salt & wc & Es & Hr). apply random_run in Es as (_ & Fc & _).
  apply bind_ok in Hr as (key & wd & [= Hk <-] & Hr).
  apply bind_ok in Hr as (nonce & we & En & Hr). apply random_run in En as (Hnonce & Fe & _).
  apply bind_ok in Hr as (ciphertext & wf & [= Hc <-] & Hr).
  exists np, n, key, salt, nonce, ciphertext, we. apply (leads_to_kept _ _ _ _ (rd_nodes _ _ Ra)) in Hn.
  split_and!; try done.
  - by destruct (aes_encrypt key nonce (n_data n)); [injection Hc as ->|].
  - rewrite Fe, Fc. etrans; [apply Ra|apply Rb].
Qed.

(** C17: a passphrase backup restores what it was made from, as long as it can be read. After
    [encrypt-passphrase] has succeeded, [decrypt-passphrase] of its output under the same
    passphrase file is the atomic write of exactly the bytes of the original input: the
    output afterwards is a file with them, or, when that write fails, what it was before.
    Conditions: the envelope has at most the 256 MiB the tool reads ([MAX_SECRET_BYTES]; an
    input of 192 MiB or more makes a larger one, which [large_backups_cannot_be_restored]
    shows cannot be restored); no file call fails when the backup is read again (during the
    encryption they may); and the passphrase file is not the envelope's path and is reached
    without links, so that writing the envelope leaves it alone. *)
Theorem passphrase_backups_restore_their_input (args args' : list string) (input output pass out : string) w w1 :
  optional args "--input" = Some input → optional args "--output" = Some output →
  optional args "--passphrase-file" = Some pass →
  optional args' "--input" = Some output → optional args' "--output" = Some out →
  optional args' "--passphrase-file" = Some pass →
  path_of_string pass ≠ path_of_string output → plain_at (path_of_string pass) (ct_fs w) →
  encrypt_passphrase_command args w = (Ok tt, w1) →
  fs_faults (ct_fs w1) = [] →
  (∀ n, fs_nodes (ct_fs w1) !! path_of_string output = Some n → len (n_data n) ≤ MAX_SECRET_BYTES) →
  ∃ n, leads_to (ct_fs w) (path_of_string input) n
    ∧ decrypt_passphrase_command args' w1 = atomic_write (path_of_string out) (n_data n) 256 w1
    ∧ ∀ r w2, decrypt_passphrase_command args' w1 = (r, w2) →
        replaced (path_of_string out) (mkNode RegularFile 256 (fs_uid (ct_fs w1)) (n_data n)) r (ct_fs w1) (ct_fs w2).
Proof.
  intros Hi Ho Hp Hi' Ho' Hp' Hne Hplain Henc Hf Hsize.
  apply (encrypt_passphrase_ok _ _ _ _ _ _ Hi Ho Hp) in Henc
    as (np & n & key & salt & nonce & ciphertext & w0 & Hnp & Hu & Hd & Hlen & Hn & Hk & Hnonce & Ha & K0 & Hw).
  apply atomic_write_effect in Hw as [[Hold Hnew] _]. exists n.
  assert (leads_to (ct_fs w1) (path_of_string pass) np) as Hnp1.
  { assert (fs_nodes (ct_fs w) !! path_of_string pass = Some np) as Hnode by by apply leads_to_node.
    apply leads_to_plain; [|by apply (Hplain np)].
    rewrite Hold; [by rewrite K0|done|rewrite K0; by exists np]. }
  assert (leads_to (ct_fs w1) (path_of_string output)
            (mkNode RegularFile 384 (fs_uid (ct_fs w0)) (backup_to_json (backup_of key salt nonce ciphertext (n_data n)))))
    as Hout by by apply leads_to_plain.
  assert (decrypt_passphrase_command args' w1 = atomic_write (path_of_string out) (n_data n) 256 w1) as Heq.
  { unfold decrypt_passphrase_command.
    rewrite (bind_after _ _ _ _ _ (path_arg_run _ _ _ _ Hi')), (bind_after _ _ _ _ _ (path_arg_run _ _ _ _ Ho')).
    rewrite (bind_after _ _ _ _ _ (passphrase_quiet _ _ _ _ Hp' Hf Hnp1 Hu Hd Hlen)).
    rewrite (bind_after _ _ _ _ _ (read_bounded_quiet _ _ _ Hf Hout ltac:(done) (Hsize _ Hnew))).
    cbn [n_data]. rewrite backup_json_round_trip. cbn [map_err]. unfold mbind, M_bind, of_result.
    by rewrite (open_backup_of _ _ _ _ _ _ Hk Hnonce Ha). }
  split_and!; [done..|]. intros r w2. rewrite Heq. intros E. by apply atomic_write_effect in E as [? _].
Qed.

(** Whatever the envelope says and the KMS answers, what is restored has the digest the
    envelope records; a command that fails leaves the output as it was. *)
Theorem restored_bytes_match_their_digest (args : list string) (input out : string) w r w' :
  optional args "--input" = Some input → optional args "--output" = Some out →
  decrypt_passphrase_command args w = (r, w') →
  match r with
  | Ok _ => ∃ n env plaintext, leads_to (ct_fs w) (path_of_string input) n
      ∧ backup_of_json (n_data n) = Ok env ∧ digest_text plaintext = pe_plaintext_sha256 env
      ∧ n_data <$> fs_nodes (ct_fs w') !! path_of_string out = Some plaintext
  | Err _ => fs_nodes (ct_fs w') !! path_of_string out = fs_nodes (ct_fs w) !! path_of_string out
  end.
Proof.
  intros Hi Ho. unfold decrypt_passphrase_command.
  rewrite (bind_after _ _ _ _ _ (path_arg_run _ _ _ _ Hi)), (bind_after _ _ _ _ _ (path_arg_run _ _ _ _ Ho)).
  intros Hr. apply bind_run in Hr as [(e & Ep & ->)|(password & wa & Ep & Hr)];
    pose proof (always_run _ _ _ _ _ (reading_passphrase args) Ep) as Ra; [by rewrite (rd_nodes _ _ Ra)|].
  apply bind_run in Hr as [(e & Er & ->)|(text & wb & Er & Hr)];
    pose proof (always_run _ _ _ _ _ (reading_bounded _) Er) as Rb; [by rewrite (rd_nodes _ _ Rb), (rd_nodes _ _ Ra)|].
  apply read_bounded_ok in Er as (_ & n & Hn & -> & _).
  apply (leads_to_kept _ _ _ _ (rd_nodes _ _ Ra)) in Hn.
  apply bind_run in Hr as [(e & [= Ee <-] & ->)|(env & wc & [= Ee <-] & Hr)];
    [by rewrite (rd_nodes _ _ Rb), (rd_nodes _ _ Ra)|].
  apply bind_run in Hr as [(e & [= Eo <-] & ->)|(plaintext & wd & [= Eo <-] & Hr)];
    [by rewrite (rd_nodes _ _ Rb), (rd_nodes _ _ Ra)|].
  apply atomic_write_effect in Hr as [[_ Hres] _].
  destruct r as [[]|e]; [|by rewrite Hres, (rd_nodes _ _ Rb), (rd_nodes _ _ Ra)].
  exists n, env, plaintext. rewrite Hres. split_and!; [done| |by eapply open_backup_digest|done].
  by destruct (backup_of_json (n_data n)); [injection Ee as ->|].
Qed.

(** ** The identity of the owner *)
Lemma atomic_write_host path bytes mode w r w' :
  atomic_write path bytes mode w = (r, w') →
  ct_host w' = ct_host w ∨ ct_host w' = (simple_uuid (ct_host w)).2.
Proof.
  unfold atomic_write, fresh, fs_text, on, M_map_err, mbind, M_bind, of_result. cbn.
  destruct (parent path) as [dir|]; cbn; [|intros [= _ <-]; by left].
  destruct (create_dir_all dir (ct_fs w)) as [[[]|e] s1]; cbn; [|intros [= _ <-]; by left].
  destruct (simple_uuid (ct_host w)) as [u h]. cbn.
  destruct (write_new _ path bytes mode s1) as [x s2]. intros [= _ <-]. by right.
Qed.
Lemma keyring_keeps_ok service name secret r b r' :
  keyring_keeps service name secret r = (Ok b, r') → b = true → keyring_has r' service name secret.
Proof.
  unfold keyring_keeps, mbind, M_bind. destruct (keyring_entry service name r) as [[[]|e] r1]; [|by intros [= <- <-]].
  destruct (set_password service name secret r1) as [[[]|e] r2]; [|by intros [= <- <-]].
  destruct (get_password service name r2) as [[stored|e] r3] eqn:Eg; [|by intros [= <- <-]].
  intros [= <- <-] ->%String.eqb_eq. by eapply keyring_got.
Qed.
Lemma discard_effect path w :
  discard path w = (Ok tt, mkCtl (remove_file path (ct_fs w)).2 (ct_host w) (ct_printed w)).
Proof. unfold discard, then_discard. cbn. by destruct (remove_file path (ct_fs w)). Qed.
Lemma exists_quiet path w n :
  fs_faults (ct_fs w) = [] → fs_nodes (ct_fs w) !! path = Some n → is_symlink n = false →
  fs_text (path_exists path) w = (Ok true, w).
Proof.
  intros Hf Hn Hs. unfold fs_text, on, M_map_err, path_exists. cbn [part ctl_fs].
  unfold metadata, atomic_call. rewrite call_quiet by done.
  rewrite (proj2 (follow_target MAX_SYMLINKS path (ct_fs w) n (ct_fs w))) by (split; [done|by apply leads_to_plain]).
  by destruct w.
Qed.
Lemma absent_quiet path w :
  fs_faults (ct_fs w) = [] → fs_nodes (ct_fs w) !! path = None → fs_text (path_exists path) w = (Ok false, w).
Proof.
  intros Hf Hn. unfold fs_text, on, M_map_err, path_exists. cbn [part ctl_fs].
  unfold metadata, atomic_call. rewrite call_quiet by done. unfold MAX_SYMLINKS. cbn [follow].
  unfold mbind, M_bind, node_at. rewrite Hn. by destruct w.
Qed.
Lemma remove_quiet path s :
  fs_faults s = [] → (∀ n, fs_nodes s !! path = Some n → n_kind n ≠ Directory) →
  fs_nodes (remove_file path s).2 = delete path (fs_nodes s) ∧ fs_faults (remove_file path s).2 = [].
Proof.
  intros Hf Hd. split; [|by apply unfaulted_remove_file]. unfold remove_file, atomic_call.
  rewrite call_quiet by done. unfold mbind, M_bind, node_at.
  destruct (fs_nodes s !! path) as [n|] eqn:En; cbn.
  - unfold is_kind. rewrite bool_decide_eq_false_2 by auto. done.
  - by rewrite delete_id.
Qed.

Lemma parsed_secret s k : Keys_parse s = Some k → trim s = s ∧ is_utf8 s = true.
Proof.
  intros Hk%parsed_text. split; [by apply trim_graphic|]. apply ascii_utf8. revert Hk. apply all_bytes_impl.
  intros c. unfold ascii_graphic. by intros [? _]%andb_true_iff.
Qed.

(** What a successful [persist] has done before it discards the other place. *)
Lemma persist_ok args input kf mk w w' :
  optional args "--input" = Some input → optional args "--key-file" = Some kf → optional args "--marker" = Some mk →
  persist_command keyring_disabled args w = (Ok tt, w') →
  ∃ n k w1 w2, leads_to (ct_fs w) (path_of_string input) n ∧ Keys_parse (trim (n_data n)) = Some k
    ∧ nodes_kept (ct_fs w) (ct_fs w1) ∧ unfaulted (ct_fs w) (ct_fs w1)
    ∧ ((keyring_disabled = false ∧ keyring_has (ct_host w1) (service_of args) (name_of args) (trim (n_data n))
        ∧ atomic_write (path_of_string mk) (String.append "system-keyring" newline_text) 384 w1 = (Ok tt, w2)
        ∧ ct_fs w' = (remove_file (path_of_string kf) (ct_fs w2)).2 ∧ ct_host w' = ct_host w2)
       ∨ (∃ w3, atomic_write (path_of_string kf) (trim (n_data n)) 256 w1 = (Ok tt, w2)
          ∧ read_bounded (path_of_string kf) w2 = (Ok (trim (n_data n)), w3)
          ∧ ct_fs w' = (remove_file (path_of_string mk) (ct_fs w3)).2)).
Proof.
  intros Hi Hk Hm. unfold persist_command.
  rewrite (bind_after _ _ _ _ _ (path_arg_run _ _ _ _ Hi)), (bind_after _ _ _ _ _ (path_arg_run _ _ _ _ Hk)),
    (bind_after _ _ _ _ _ (path_arg_run _ _ _ _ Hm)).
  intros (data & wa & Er & Hr)%bind_ok. apply read_bounded_ok in Er as (Ra & n & Hn & -> & _ & _).
  apply bind_ok in Hr as (text & wb & [= Ht <-] & Hr). unfold utf8_text in Ht.
  destruct (is_utf8 (n_data n)); [|done]. injection Ht as <-.
  apply bind_ok in Hr as (k & wb & [= Hp <-] & Hr).
  assert (Keys_parse (trim (n_data n)) = Some k) as Hparse by (by destruct (Keys_parse _); [injection Hp as ->|]).
  apply bind_ok in Hr as (kept & w1 & Ek & Hr).
  assert (ct_fs w1 = ct_fs wa ∧ (kept = true → keyring_disabled = false
    ∧ keyring_has (ct_host w1) (service_of args) (name_of args) (trim (n_data n)))) as [F1 Hkept].
  { destruct keyring_disabled; [by injection Ek as <- <-|]. unfold on in Ek. cbn [part ctl_host] in Ek.
    destruct (keyring_keeps _ _ _ (ct_host wa)) as [x r] eqn:E. injection Ek as -> <-. split; [done|]. intros ->.
    split; [done|]. by apply keyring_keeps_ok in E. }
  exists n, k, w1. destruct kept.
  - apply bind_ok in Hr as ([] & w2 & Ew & Hr). rewrite (bind_after _ _ _ _ _ (discard_effect _ _)) in Hr.
    injection Hr as <-. exists w2. destruct (Hkept eq_refl). rewrite F1. split_and!; [done..|apply Ra|apply Ra|].
    left. by split_and!.
  - apply bind_ok in Hr as ([] & w2 & Ew & Hr). apply bind_ok in Hr as (readback & w3 & Er & Hr).
    destruct (String.eqb readback (trim (n_data n))) eqn:Eb; [|done]. apply String.eqb_eq in Eb as ->.
    cbn in Hr. rewrite (bind_after _ _ _ _ _ (discard_effect _ _)) in Hr. injection Hr as <-.
    exists w2. rewrite F1. split_and!; [done..|apply Ra|apply Ra|]. right. by exists w3.
Qed.

(** What [materialize] does when the marker is there, and when only the key file is. *)
Lemma materialize_from_keyring args out kf mk secret k file w :
  optional args "--output" = Some out → optional args "--key-file" = Some kf → optional args "--marker" = Some mk →
  keyring_disabled = false → fs_faults (ct_fs w) = [] →
  fs_nodes (ct_fs w) !! path_of_string mk = Some file → is_symlink file = false →
  Keys_parse secret = Some k → keyring_has (ct_host w) (service_of args) (name_of args) secret →
  ∃ r, materialize_command keyring_disabled args w
       = atomic_write (path_of_string out) secret 256 (mkCtl (ct_fs w) r (ct_printed w)).
Proof.
  intros Ho Hk Hm Hkd Hf Hmk Hs Hparse Hhas. destruct (parsed_secret _ _ Hparse) as [Htrim _].
  destruct (keyring_read _ _ _ _ Hhas) as (r1 & r2 & E1 & E2). exists r2. unfold materialize_command.
  rewrite (bind_after _ _ _ _ _ (path_arg_run _ _ _ _ Ho)), (bind_after _ _ _ _ _ (path_arg_run _ _ _ _ Hk)),
    (bind_after _ _ _ _ _ (path_arg_run _ _ _ _ Hm)), (bind_after _ _ _ _ _ (exists_quiet _ _ _ Hf Hmk Hs)).
  rewrite Hkd. unfold from_keyring, mbind, M_bind, on. cbn [part ctl_host]. rewrite E1, E2. cbn.
  by rewrite Htrim, Hparse.
Qed.
Lemma materialize_from_file args out kf mk secret k w :
  optional args "--output" = Some out → optional args "--key-file" = Some kf → optional args "--marker" = Some mk →
  fs_faults (ct_fs w) = [] → ∀ file,
  fs_nodes (ct_fs w) !! path_of_string mk = None → fs_nodes (ct_fs w) !! path_of_string kf = Some file →
  n_kind file = RegularFile → n_data file = secret → len secret ≤ MAX_SECRET_BYTES → Keys_parse secret = Some k →
  materialize_command keyring_disabled args w = atomic_write (path_of_string out) secret 256 w.
Proof.
  intros Ho Hk Hm Hf file Hmk Hkf Hkind <- Hlen Hparse. destruct (parsed_secret _ _ Hparse) as [Htrim Hutf].
  assert (is_symlink file = false) as Hs by (unfold is_symlink; by rewrite Hkind).
  unfold materialize_command.
  rewrite (bind_after _ _ _ _ _ (path_arg_run _ _ _ _ Ho)), (bind_after _ _ _ _ _ (path_arg_run _ _ _ _ Hk)),
    (bind_after _ _ _ _ _ (path_arg_run _ _ _ _ Hm)), (bind_after _ _ _ _ _ (absent_quiet _ _ Hf Hmk)),
    (bind_after _ _ _ _ _ (exists_quiet _ _ _ Hf Hkf Hs)).
  rewrite (bind_after _ _ _ _ _ (read_bounded_quiet _ _ _ Hf (leads_to_plain _ _ _ Hkf Hs)
    ltac:(by rewrite Hkind) Hlen)).
  unfold utf8_text, mbind, M_bind, of_result. by rewrite Hutf, Htrim, Hparse.
Qed.

(** C16: an identity that was persisted is materialised. When no file call fails and
    [persist] succeeds, [materialize] with the same key file, marker and keyring entry
    writes exactly the trimmed secret of the input: from the keyring when it took and gave
    back the secret, otherwise from the key file, and the marker always tells which. The
    marker is another path than the key file, no directory and no ancestor of the key file,
    and the keyring keeps answering: it gives back a password it gave before. *)
Theorem persisted_identity_is_materialized (args args' : list string) (input kf mk out : string) w w' :
  optional args "--input" = Some input → optional args "--key-file" = Some kf →
  optional args "--marker" = Some mk →
  optional args' "--output" = Some out → optional args' "--key-file" = Some kf →
  optional args' "--marker" = Some mk → service_of args' = service_of args → name_of args' = name_of args →
  path_of_string kf ≠ path_of_string mk →
  (List.length (p_components (path_of_string kf)) ≤ List.length (p_components (path_of_string mk)))%nat →
  (∀ n, fs_nodes (ct_fs w) !! path_of_string mk = Some n → n_kind n ≠ Directory) →
  fs_faults (ct_fs w) = [] →
  persist_command keyring_disabled args w = (Ok tt, w') →
  ∃ n r, leads_to (ct_fs w) (path_of_string input) n ∧ is_Some (Keys_parse (trim (n_data n)))
    ∧ materialize_command keyring_disabled args' w'
      = atomic_write (path_of_string out) (trim (n_data n)) 256 (mkCtl (ct_fs w') r (ct_printed w')).
Proof.
  intros Hi Hk Hm Ho' Hk' Hm' Hs Hn Hne Hdeep Hdir Hf Hp.
  apply (persist_ok _ _ _ _ _ _ Hi Hk Hm) in Hp as (n & k & w1 & w2 & Hl & Hparse & K1 & U1 & Hcase).
  assert (fs_faults (ct_fs w1) = []) as Hf1 by by apply U1. exists n.
  destruct Hcase as [(Hkd & Hhas & Hw & Hfs & Hh)|(w3 & Hw & Hread & Hfs)].
  - pose proof (atomic_write_host _ _ _ _ _ _ Hw) as Hhost. apply atomic_write_effect in Hw as [[_ Hmk] Hst].
    destruct (materialize_from_keyring args' _ _ _ _ _ _ w' Ho' Hk' Hm' Hkd
      ltac:(rewrite Hfs; by apply unfaulted_remove_file, (st_unfaulted _ _ Hst))
      ltac:(rewrite Hfs, only_at_remove_file by done; exact Hmk) eq_refl Hparse) as (r & E).
    { rewrite Hs, Hn, Hh. destruct Hhost as [->| ->]; [done|by apply keyring_uuid]. }
    exists r. split_and!; [done|by exists k|done].
  - pose proof (atomic_write_deep _ _ _ _ _ (path_of_string mk) Hw ltac:(done) Hdeep) as Hmk.
    apply atomic_write_effect in Hw as [[_ Hkf] Hst].
    assert (fs_faults (ct_fs w2) = []) as Hf2 by by apply (st_unfaulted _ _ Hst).
    pose proof (read_bounded_ok _ _ _ _ Hread) as (_ & m & _ & _ & _ & Hlen).
    rewrite (read_bounded_quiet _ _ _ Hf2 (leads_to_plain _ _ _ Hkf eq_refl) ltac:(done) Hlen) in Hread.
    injection Hread as <-.
    destruct (remove_quiet (path_of_string mk) (ct_fs w2) Hf2) as [Hrem Hfr].
    { intros x. unfold nodes_kept in K1. rewrite Hmk, K1. apply Hdir. }
    rewrite <- Hfs in Hrem, Hfr. exists (ct_host w'). split_and!; [done|by exists k|].
    replace (mkCtl (ct_fs w') (ct_host w') (ct_printed w')) with w' by by destruct w'.
    apply (materialize_from_file args' _ kf mk _ k w' Ho' Hk' Hm' Hfr
             (mkNode RegularFile 256 (fs_uid (ct_fs w1)) (trim (n_data n)))); try done.
    + by rewrite Hrem, lookup_delete_eq.
    + by rewrite Hrem, lookup_delete_ne by done.
Qed.
End Backups.

(** ** Two flaws *)
(** The limit on what is read applies to the plaintext and to the envelope alike, which is
    a third longer. *)
Class BackupSizes `{SecretsLib} : Prop := {
  aes_length key nonce plaintext ciphertext :
    aes_encrypt key nonce plaintext = Some ciphertext → len ciphertext = len plaintext + 16;
  b64_length s : len (b64_encode s) = 4 * ((len s + 2) / 3);
  backup_json_length e : len (pe_ciphertext e) ≤ len (backup_to_json e)
}.
(** A backup of at least 192 MiB is written and cannot be read again. *)
Theorem large_backups_cannot_be_restored `{SecretsLib} `{!SecretsLaws} `{!BackupSizes} {R : Type}
    `{SecretsHost R} `{!SecretsHostLaws R} (args args' : list string) (input output pass out : string)
    (w w1 : Ctl R) n :
  optional args "--input" = Some input → optional args "--output" = Some output →
  optional args "--passphrase-file" = Some pass →
  optional args' "--input" = Some output → optional args' "--output" = Some out →
  optional args' "--passphrase-file" = Some pass →
  encrypt_passphrase_command args w = (Ok tt, w1) →
  leads_to (ct_fs w) (path_of_string input) n → 192 * 1024 * 1024 ≤ len (n_data n) →
  ∃ e, (decrypt_passphrase_command args' w1).1 = Err e.
Proof.
  intros Hi Ho Hp Hi' Ho' Hp' Henc Hn Hbig.
  apply (encrypt_passphrase_ok _ _ _ _ _ _ Hi Ho Hp) in Henc
    as (np & n' & key & salt & nonce & ciphertext & w0 & _ & _ & _ & _ & Hn' & _ & _ & Ha & _ & Hw).
  unfold leads_to in Hn, Hn'. rewrite Hn in Hn'. injection Hn' as <-.
  apply atomic_write_effect in Hw as [[_ Hout] _].
  set (text := backup_to_json _) in Hout.
  assert (MAX_SECRET_BYTES < len text) as Hlen.
  { pose proof (backup_json_length (backup_of key salt nonce ciphertext (n_data n))) as Hl. fold text in Hl.
    cbn [backup_of pe_ciphertext] in Hl. rewrite b64_length, (aes_length _ _ _ _ Ha) in Hl.
    unfold MAX_SECRET_BYTES. assert (67108865 ≤ (len (n_data n) + 16 + 2) / 3) by (apply Z.div_le_lower_bound; lia). lia. }
  destruct (decrypt_passphrase_command args' w1) as [[[]|e] w2] eqn:E; [|by exists e]. exfalso. revert E.
  unfold decrypt_passphrase_command.
  rewrite (bind_after _ _ _ _ _ (path_arg_run _ _ _ _ Hi')), (bind_after _ _ _ _ _ (path_arg_run _ _ _ _ Ho')).
  intros (password & wa & Ep & Hr)%bind_ok.
  pose proof (always_run _ _ _ _ _ (reading_passphrase args') Ep) as Ra.
  apply bind_ok in Hr as (data & wb & Er & _). apply read_bounded_ok in Er as (_ & m & Hm & -> & _ & Hsmall).
  assert (leads_to (ct_fs wa) (path_of_string output) (mkNode RegularFile 384 (fs_uid (ct_fs w0)) text)) as Hm'.
  { apply leads_to_plain; [|done]. by rewrite (rd_nodes _ _ Ra). }
  unfold leads_to in Hm, Hm'. rewrite Hm in Hm'. injection Hm' as ->. cbn in Hsmall. lia.
Qed.

(** ** Libraries for examples: texts as keys, ciphers and encodings *)
#[local] Instance text_keys : SecretKeys := {
  SecretKey := string; Keys_parse s := if all_bytes ascii_graphic s then Some s else None;
  to_secret_hex := id; public_key_hex := String.append "public-"
}.
#[local] Instance envelope_eq_dec : EqDecision PassphraseEnvelope.
Proof. solve_decision. Defined.
#[local] Instance envelope_countable : Countable PassphraseEnvelope.
Proof.
  refine (inj_countable'
    (λ e, (pe_version e, pe_kdf e, pe_log_n e, pe_salt e, pe_nonce e, pe_ciphertext e, pe_plaintext_sha256 e))
    (λ '(a, b, c, d, e, f, g), mkPassphraseEnvelope a b c d e f g) _).
  by intros [].
Defined.
Definition envelope_text (e : PassphraseEnvelope) : string := show_Z (Zpos (encode e)).
Definition envelope_read (text : string) : result string PassphraseEnvelope :=
  match parse_digits text with
  | Some (Zpos p) => ok_or "invalid" (decode p)
  | _ => Err "invalid"
  end.
#[local] Instance text_lib : SecretsLib := {
  aes_encrypt _ _ plaintext := Some plaintext; aes_decrypt _ _ ciphertext := Some ciphertext;
  scrypt _ _ _ := Ok "key"; b64_encode := id; b64_decode := Some;
  envelope_to_json _ := "{}"; envelope_of_json _ := Err "unused";
  backup_to_json := envelope_text; backup_of_json := envelope_read;
  response_of_json _ := Err "unused";
  EncryptedSecretKey := unit; nip49_new _ _ _ := Ok tt; nip49_to_bech32 _ := Ok "ncryptsec";
  nip49_from_bech32 _ := Ok tt; nip49_log_n _ := 18; nip49_decrypt _ _ := Err "unused";
  secret_bech32 := Ok; public_bech32 := Ok
}.
#[local] Instance text_laws : SecretsLaws.
Proof.
  split; [done|by intros ???? [= ->]| |].
  - intros e. change (envelope_read (envelope_text e) = Ok e). unfold envelope_read, envelope_text.
    rewrite (proj1 (show_Z_digits (Zpos (encode e)) ltac:(lia))). by rewrite decode_encode.
  - intros s k. cbn. by destruct (all_bytes ascii_graphic s).
Qed.
Fixpoint zero_text (n : nat) : string := match n with O => EmptyString | S n => String "0" (zero_text n) end.
(** A keyring of one entry that may refuse to work. *)
Record ToyHost : Type := mkToyHost { th_works : bool; th_entry : option string }.
#[local] Instance toy_host : SecretsHost ToyHost := {
  command_output _ _ _ := throw "no such command";
  urandom n := mret (zero_text n);
  simple_uuid r := ("u", r);
  keyring_entry _ _ := λ r, (if th_works r then Ok tt else Err "no keyring", r);
  set_password _ _ secret := λ r, (Ok tt, mkToyHost (th_works r) (Some secret));
  get_password _ _ := λ r, (if th_works r then ok_or "no entry" (th_entry r) else Err "no keyring", r);
  delete_password _ _ := λ r, (Ok tt, mkToyHost (th_works r) None)
}.
#[local] Instance toy_laws : SecretsHostLaws ToyHost.
Proof.
  refine {| keyring_has r _ _ x := th_works r = true ∧ th_entry r = Some x |}.
  - intros n r s r' [= <- _]. unfold len. f_equal. induction n as [|n IH]; cbn; [done|]. by rewrite IH.
  - intros service name r x r'. cbn. destruct (th_works r) eqn:Ew; [|done]. intros [= Hx <-].
    split; [done|]. by destruct (th_entry r); [injection Hx as ->|].
  - by intros service name r x.
  - intros service name r x [Hw Hx]. cbn. exists r, r. by rewrite Hw, Hx.
Defined.
Definition ctl_world (nodes : gmap Path Node) (faults : list (option (IoError * nat))) (host : ToyHost) : Ctl ToyHost :=
  mkCtl (mkFs (<[mkPath true ["d"] := mkNode Directory 448 0 ""]> nodes) faults 0) host [].
Definition plain_file (data : string) : Node := mkNode RegularFile 384 0 data.
Definition persist_args : list string := ["--input"; "/d/in"; "--key-file"; "/d/key"; "--marker"; "/d/key.keyring"].
Definition materialize_args : list string :=
  ["--output"; "/d/out"; "--key-file"; "/d/key"; "--marker"; "/d/key.keyring"].

(** The removal of the marker may fail unnoticed. [persist] then reports that the identity
    is in the key file, and [materialize] looks for it in the keyring, where an older one
    may be. *)
Theorem unremoved_marker_hides_the_key_file :
  let old := mkToyHost true (Some "old") in
  let w := ctl_world {[ mkPath true ["d"; "in"] := plain_file "new";
                        mkPath true ["d"; "key.keyring"] := plain_file "system-keyring" ]}
             (repeat None 10 ++ [Some (mkIoError OtherKind "busy", 0%nat)]) old in
  let w1 := (persist_command true persist_args w).2 in
  (persist_command true persist_args w).1 = Ok tt ∧ ct_printed w1 = ["key-file"]
  ∧ n_data <$> fs_nodes (ct_fs w1) !! mkPath true ["d"; "key"] = Some "new"
  ∧ let w2 := (materialize_command false materialize_args w1).2 in
    (materialize_command false materialize_args w1).1 = Ok tt
    ∧ n_data <$> fs_nodes (ct_fs w2) !! mkPath true ["d"; "out"] = Some "old".
Proof. vm_compute. split_and!; reflexivity. Qed.

Lemma persisted_identity_is_materialized_witness :
  let w := ctl_world {[ mkPath true ["d"; "in"] := plain_file "nsec1"; mkPath true ["d"; "key"] := plain_file "older" ]} []
             (mkToyHost true None) in
  ∃ w' r, persist_command false persist_args w = (Ok tt, w')
    ∧ fs_nodes (ct_fs w') !! mkPath true ["d"; "key"] = None
    ∧ materialize_command false materialize_args w'
      = atomic_write (path_of_string "/d/out") "nsec1" 256 (mkCtl (ct_fs w') r (ct_printed w')).
Proof.
  intros w. exists (persist_command false persist_args w).2.
  destruct (persisted_identity_is_materialized false persist_args materialize_args "/d/in" "/d/key" "/d/key.keyring"
    "/d/out" w (persist_command false persist_args w).2) as (n & r & Hn & _ & Hm).
  1-8: reflexivity.
  - vm_compute. discriminate.
  - vm_compute. lia.
  - intros n Hn. vm_compute in Hn. discriminate Hn.
  - reflexivity.
  - vm_compute. reflexivity.
  - exists r. split; [vm_compute; reflexivity|]. split; [vm_compute; reflexivity|].
    assert (n_data n = "nsec1") as En by (vm_compute in Hn; by injection Hn as <-).
    rewrite En in Hm. exact Hm.
Defined.

Definition backup_args : list string :=
  ["--input"; "/d/in"; "--output"; "/d/backup"; "--passphrase-file"; "/d/pass"].
Definition restore_args : list string :=
  ["--input"; "/d/backup"; "--output"; "/d/out"; "--passphrase-file"; "/d/pass"].
Definition backup_world : Ctl ToyHost :=
  ctl_world {[ mkPath true ["d"; "in"] := plain_file "secret";
               mkPath true ["d"; "pass"] := plain_file "correct horse battery" ]} [] (mkToyHost false None).
Lemma passphrase_backups_restore_their_input_witness :
  ∃ w1, encrypt_passphrase_command backup_args backup_world = (Ok tt, w1)
    ∧ decrypt_passphrase_command restore_args w1 = atomic_write (path_of_string "/d/out") "secret" 256 w1.
Proof.
  exists (encrypt_passphrase_command backup_args backup_world).2.
  assert ((encrypt_passphrase_command backup_args backup_world).1 = Ok tt) as E by (vm_compute; reflexivity).
  assert (fs_faults (ct_fs (encrypt_passphrase_command backup_args backup_world).2) = []) as Ef by (vm_compute; reflexivity).
  assert (match fs_nodes (ct_fs (encrypt_passphrase_command backup_args backup_world).2) !! path_of_string "/d/backup" with
          | Some n => len (n_data n) <=? MAX_SECRET_BYTES | None => false end = true) as Es by (vm_compute; reflexivity).
  destruct (encrypt_passphrase_command backup_args backup_world) as [r w1] eqn:Er. cbn [fst snd] in *. subst r.
  split; [reflexivity|].
  destruct (passphrase_backups_restore_their_input backup_args restore_args "/d/in" "/d/backup" "/d/pass" "/d/out"
    backup_world w1) as (n & Hn & Hd & _); try reflexivity.
  - vm_compute. discriminate.
  - intros n Hn. vm_compute in Hn. injection Hn as <-. reflexivity.
  - exact Er.
  - exact Ef.
  - intros n Hn. rewrite Hn in Es. by apply Z.leb_le.
  - assert (n_data n = "secret") as En by (vm_compute in Hn; by injection Hn as <-).
    rewrite En in Hd. exact Hd.
Defined.
